(* ===== verification/_CoqProject ===== *)
-Q . S2P
Prelude.v
Bitmap.v
Dll.v
LinkedList.v
Ring.v
Priorities.v
PQueue.v
Alloc.v
Allocator.v
Time.v
Keys.v
Msg.v
Clean.v
Event.v
Futex.v
World.v
Sync.v
MutexProofs.v
LockProofs.v
Wake.v
Util.v
Sched.v
SchedProofs.v
EventMgr.v
Attr.v
Lib.v
LibProofs.v
SpawnProofs.v
Posix.v
PosixProofs.v
SemProofs.v
PString.v
PStringProofs.v
PThread.v
PThreadProofs.v
High.v
HighProofs.v
Native.v
NativeProofs.v
Fork.v
ForkProofs.v
TdManager.v
ThreadDb.v
ThreadDbProofs.v
Syscall.v
SyscallProofs.v
Mctx.v
MctxProofs.v
SharedArea.v
SigRt.v
FutexSlow.v
PthPQueue.v
ClockFreq.v
