(* ===== verification/Prelude.v ===== *)
(** * NGPT: a verification development

    NGPT (Next Generation POSIX Threading) is a POSIX thread library for
    Linux.  User level threads are scheduled, without preemption and by
    priority, on a smaller number of native (kernel) threads.  This
    development translates the C sources under src/ into definitions that
    compute, and proves what the library relies on and promises.

    ** The program and its parts

    A thread is a block of memory (pth_tcb.c) that is in at most one priority
    queue (pqueue.h): new, ready, waiting, suspended or dead.  Every native
    thread (pth_native.c) runs the scheduler (pth_sched.c), which takes the next
    thread from a ready queue, switches to its machine context (pth_mctx.c), and
    puts it into the queue its state demands when it comes back.  A thread that
    waits has a ring of events (pth_event.c); the event manager, a part of the
    scheduler, finds out which events occurred and makes the threads ready.
    Mutexes, condition variables, read-write locks and barriers (pth_sync.c) wait
    with events, or on futexes (futex.h) when they are shared between processes;
    such objects live in an area that ngptc.c prepares.  The calls of the C
    library that would block (pth_syscall.c) become calls that let only the thread
    sleep (pth_high.c).  Message ports (pth_msg.c), thread specific data
    (pth_data.c), cleanup handlers (pth_clean.c) and fork handlers (pth_fork.c) are
    services for threads.  The POSIX interface (pthread.c, semaphore.c) is built
    on all of these.  Memory comes from a caching allocator (allocation.c).  A
    debugger sees the threads through tables that td_manager.c keeps and the
    library of src/thread_db reads.

    ** The files

    - Prelude: outcomes of C code ([res], [fault]), the state monad [M], the
      rules [wp] for total correctness of monadic code, and the lemmas and
      tactics that all files share.
    - Bitmap: bit operations (bitops-ia32.h, bitops-ppc.h) and bitmap.h.
    - Dll, LinkedList, Ring: doubly linked memory, list.h with the wait list
      macros of pth_tcb.c, and pth_ring.c.
    - Priorities: priorities.h.
    - PQueue: node.h, pqueue.h and what they use of spinlock.h.  [qmem] is the
      memory of all queues, [pq_inv m Q] says that it represents the lists [Q].
    - PthPQueue: pth_pqueue.c, the queues the library had before.
    - Alloc, Allocator: allocation.c, and the interface through which the other
      parts use it, with its instance.
    - Time, ClockFreq: pth_time.c, with and without a cycle counter, and the
      frequency of that counter (get_clockfreq.c).
    - Keys, Msg, Clean, Event, Util: pth_data.c, pth_msg.c, pth_clean.c,
      pth_event.c, pth_util.c.
    - Futex, FutexSlow: futex.h and futex-ia32.h; the operations, and all
      interleavings of processes that use one futex; the timed wait, the fair
      release and the pages of a region.
    - World: the state that the scheduler and the synchronisation objects share
      (pth_tcb.c, pth_native.c, pth.h.in), the queue locks of pth_p.h.in, and
      schedule.h.
    - Sync, MutexProofs, LockProofs, Wake: pth_sync.c and rfutex.h, the proofs
      about mutexes, about read-write locks and barriers, and about the threads
      that a release wakes.
    - Sched, SchedProofs, EventMgr: pth_sched.c, with [pth_tcb_free] of
      pth_tcb.c, the proofs about the scheduler and about the event manager.
    - Attr: pth_attr.c and the attribute functions of pthread.c.  Its state
      [ast] is that of the scheduler with the attribute objects.
    - Lib, LibProofs, SpawnProofs: pth_lib.c and pth_cancel.c, [pth_wait] of
      pth_event.c and [pth_tcb_alloc] of pth_tcb.c; the proofs about threads
      that are suspended, joined and cancelled, and about those that are created.
    - Mctx, MctxProofs: pth_mctx.c.  A saved context is a place in the code and a
      stack; a jump is a call of what the code does from there on.
    - Native, NativeProofs: pth_native.c, and [pth_init] and [pth_kill] of
      pth_lib.c; the state [nv] adds what only they use.
    - Posix, PosixProofs, SemProofs: the synchronisation objects of pthread.c and
      semaphore.c, as handles that point to the objects of Sync.
    - PThread, PThreadProofs: the threads, keys, cancellation and cleanup handlers
      of pthread.c; its state joins those of Attr, Keys and Clean.
    - PString, PStringProofs: pth_string.c.
    - High, HighProofs, Syscall, SyscallProofs: pth_high.c and pth_syscall.c over
      the interfaces [Kernel] and [Libc].
    - Fork, ForkProofs: pth_fork.c and [pthread_atfork].
    - SharedArea, SigRt: ngptc.c and shared_area_file.c; sigrt.c.
    - TdManager, ThreadDb, ThreadDbProofs: td_manager.c with [pth_spawn_cb], and
      the library of src/thread_db.

    Each definition has the name of the function, macro or type it translates
    where there is one; a piece of a longer function (a loop, the body of a
    branch) has a name of its own and stands before the function it belongs to.

    ** How C code is modelled

    - Pointers are identifiers into stores (finite maps or lists), one store
      per kind of object; NULL is [None], or 0 where pointers are numbers.  A
      pointer that is not in its store is the fault [BadDeref], an index
      outside of an array [OutOfBounds].
    - Machine integers are [Z]; [wrap] and [swrap] write out the wrap-around
      where the code can reach it.
    - A spin lock that is taken again by its holder never ends: the fault
      [Deadlock].  Between two points where code can sleep it is executed
      alone; the locks are modelled so that the proofs show that they are
      taken and released properly.
    - Code that is not part of the repository is a parameter: [mmap] answers in
      Alloc, destructors in Keys, handlers in Clean and Fork, [select] and the
      clock in Sched, [clone] and the other calls in Native, the classes
      [Kernel] in High and [Libc] in Syscall, the functions of the debugger in
      ThreadDb, the floating point unit in PString.
    - What other threads and processes do is a parameter as well, at the places
      where they can run: while a thread sleeps (Sync, Posix, High), while a native
      waits for a pipe (TdManager).
    - A loop that is not structural has an iteration budget and ends with the
      fault [Stuck] when it is used up.  The theorems give a budget from the
      data (one more than the members of a queue or ring, the number of
      natives, four rounds over 256 keys, ...), for which they prove that the
      code returns; no theorem holds only because a budget is too small, except
      where it is proved that the loop ends with none.

    ** What the theorems show

    - Data structures: the queues of pqueue.h refine lists per priority
      ([pqueue_refines]), the walk over a queue visits every member once in
      priority order ([pqueue_walk_order]), the bitmap scan finds the highest
      bit ([bitmap_ffms_highest]), the old queues with differences instead of
      priorities refine one list ([pth_pqueue_refines], [delmax_highest]).
    - Allocator: blocks in use never overlap ([alloc_blocks_disjoint]), requests
      succeed when the kernel has memory ([alloc_get_total]), a released block
      is found again ([alloc_put_get]).
    - Scheduler: the thread with the highest priority runs
      ([pick_next_highest]), a thread that comes back goes where its state says
      ([after_thread_places]), the joiner of a thread that ends is woken
      ([exit_wakes_joiner]), all new threads are started
      ([start_new_moves_all]), and after [select] exactly the threads that are
      due in the wait queues the pass goes over become ready
      ([late_pass_wakes_due]).
    - Library: a new thread gets its attributes and its place in a queue
      ([spawn_enqueues]), a dead thread is joined ([join_dead]), suspending and
      resuming are inverse ([suspend_resume]), cancellation leaves a request
      ([cancel_deferred]) that a cancellation point acts upon
      ([cancel_point_acts]).  Attribute objects are well typed under all calls
      ([attr_calls_typed]) and give back what was set ([attr_posix_roundtrip]).
    - Synchronisation: mutexes and read-write locks refine abstract locks
      ([mutex_refines], [rwlock_refines]), a release wakes the thread that has
      waited longest ([release_wakes_longest]), futexes exclude each other and
      lose no wake-up in any interleaving ([futex_mutual_exclusion],
      [futex_no_lost_wakeup]).
    - Natives: the running code finds its own descriptor ([native_found]), a new
      native gets a slot and a stack ([alloc_native_spec]), a new context starts
      its function on its own stack ([mctx_set_starts]).
    - POSIX: mutexes and semaphores refine abstract ones ([posix_mutex_refines],
      [sem_refines]), the calls on cancellation refine a state and a type
      ([cancel_calls_refine]), a routine runs once ([once_runs_once]).
    - Input and output: all bytes of a [write] reach the descriptor
      ([write_delivers], [write_stream]), the vector of [writev] goes on behind what
      was written ([iov_advance_drops]), [readv] is [read] cut into pieces
      ([readv_faked_equiv]), a lock that becomes free is granted
      ([setlkw_granted]).
    - Printing: the text of [snprintf] stays in its buffer, and every way it can
      fail is named ([snprintf_safe]), such as the digits of a floating point number
      that does not fit a long ([fmtfp_negative_index]); the digits of an integer
      are its value ([fmtint_roundtrip]).
    - Fork: handlers run in the order POSIX asks for ([atfork_order],
      [atfork_refines]).
    - Debugging: after a synchronisation the debugger is told every thread once
      ([thr_iter_after_sync]), the last event of each thread is delivered
      ([events_delivered]),
      registers are stored and read back ([gregs_roundtrip]).
    - Services: events ([event_concat_rings], [event_extract_roundtrip],
      [event_walk_first], [static_event_reused]), message ports
      ([msgport_fifo], ...), thread specific data ([destroydata_calls],
      [key_create_spec], ...), cleanup handlers ([cleanup_push_pop],
      [cleanup_popall_spec]), time and priorities (round trips), realtime signals
      ([rtsigs_distinct]), the file of the shared area
      ([shared_area_roundtrip]), the frequency of the processor
      ([clockfreq_reads]).
    - Where the code does not do what it means to, a theorem says what it does
      instead: [pick_next_loses_bound], [function_event_not_rechecked],
      [barrier_reach_fails], [releaseall_foreign_stuck],
      [msgport_destroy_self_reply], [pqueue_reinit_hides_thread],
      [pth_ring_prepend_loses_members], [attr_setprio_crashes],
      [writev_resends], [create_hangs], [new_native_shared],
      [mctx_set_failure_leaks], [sem_wait_overtaken], [asprintf_loses_strings],
      [last_thread_twice], [Qinsert_before_higher], [clockfreq_seven_digits].

    ** Not modelled

    - The code that saves and restores registers (assembly and the C library);
      Mctx says where it goes on.  The set-up of the alternate stack with
      [sigstack], for systems without [sigaltstack].
    - The bit operations, futexes and segment registers of ia64, ppc and s390
      (except where named above): assembly.
    - The load average of the scheduler: floating point arithmetic.
    - The table of sysconf.c: a constant of the C library for each name, which
      this development cannot see.
    - Output for the developers of the library (pth_debug.c, debug.c, pqueue.c and
      the dump functions), checks that are compiled out, and the test programs.
    - pth_ext.c, an adapter for a library that is not part of the repository;
      queue.h, which is not linked; pth_errno.c, pth_compat.c, pth_vers.c and
      getlogin.c, a few lines each around the C library.
    - Of pth_lib.c: user contexts and the mask of signals.  Of pthread.c: the clock
      functions.  Of src/thread_db: functions that return a constant, and the
      registers of machines other than ia32.
    - An interleaving of natives at every instruction: code between two points
      where a native can sleep runs alone (see above), only Futex has all
      interleavings of its steps.
*)

From Stdlib Require Export ZArith Lia.
From stdpp Require Export prelude gmap.

Open Scope Z_scope.

(** ** Outcomes

    C code that is executed in the model either returns, or stops for one of
    the following reasons.  *)

Inductive fault : Set :=
  | BadDeref        (** a NULL or unmapped pointer is dereferenced *)
  | OutOfBounds     (** an array is indexed outside of its bounds *)
  | Deadlock        (** a spin lock that nobody can release is spun on *)
  | Aborted         (** [abort()] *)
  | Undefined       (** a value the language or the processor leaves open is used *)
  | Stuck.          (** the iteration budget of a loop is used up *)

#[global] Instance fault_eq_dec : EqDecision fault.
Proof. solve_decision. Defined.

Inductive res (A : Type) : Type :=
  | Ok (a : A)
  | Err (e : fault).
Arguments Ok {A} a.
Arguments Err {A} e.

#[global] Instance res_ret : MRet res := fun A a => Ok a.
#[global] Instance res_bind : MBind res := fun A B f m =>
  match m with Ok a => f a | Err e => Err e end.
#[global] Instance res_fmap : FMap res := fun A B f m =>
  match m with Ok a => Ok (f a) | Err e => Err e end.

(** [or_fault e o] is the value of [o], a fault when there is none. *)
Definition or_fault {A} (e : fault) (o : option A) : res A :=
  match o with Some a => Ok a | None => Err e end.

(** ** Stateful code *)

Definition M (S A : Type) : Type := S -> res (A * S).

#[global] Instance M_ret S : MRet (M S) := fun A a s => Ok (a, s).
#[global] Instance M_bind S : MBind (M S) := fun A B f m s =>
  match m s with Ok (a, s') => f a s' | Err e => Err e end.
#[global] Instance M_fmap S : FMap (M S) := fun A B f m s =>
  match m s with Ok (a, s') => Ok (f a, s') | Err e => Err e end.

Section state_ops.
Context {S : Type}.

Definition get : M S S := fun s => Ok (s, s).
Definition gets {A} (f : S -> A) : M S A := fun s => Ok (f s, s).
Definition modify (f : S -> S) : M S unit := fun s => Ok (tt, f s).
Definition fail {A} (e : fault) : M S A := fun _ => Err e.
Definition of_option {A} (e : fault) (o : option A) : M S A :=
  fun s => match o with Some a => Ok (a, s) | None => Err e end.
(** Run code that works on a part of the state. *)
Definition zoom {T A} (g : S -> T) (p : T -> S -> S) (m : M T A) : M S A :=
  fun s => match m (g s) with
           | Ok (a, t) => Ok (a, p t s)
           | Err e => Err e
           end.
Definition of_res {A} (r : res A) : M S A :=
  fun s => match r with Ok a => Ok (a, s) | Err e => Err e end.
Definition when (b : bool) (m : M S unit) : M S unit :=
  if b then m else mret tt.
End state_ops.

(** ** Total correctness

    [wp m Q s]: started in [s], [m] returns (no fault) and [Q] holds of the
    result and the final state. *)

Definition wp {S A} (m : M S A) (Q : A -> S -> Prop) (s : S) : Prop :=
  match m s with Ok (a, s') => Q a s' | Err _ => False end.

Section wp_rules.
Context {S : Type}.

Lemma wp_ret {A} (a : A) (Q : A -> S -> Prop) s :
  Q a s -> wp (mret a) Q s.
Proof. done. Qed.

Lemma wp_bind {A B} (m : M S A) (f : A -> M S B) Q s :
  wp m (fun a s' => wp (f a) Q s') s -> wp (m ≫= f) Q s.
Proof.
  unfold wp, mbind, M_bind. destruct (m s) as [[a s']|e]; done.
Qed.

Lemma wp_mono {A} (m : M S A) (Q R : A -> S -> Prop) s :
  wp m Q s -> (forall a s', Q a s' -> R a s') -> wp m R s.
Proof. unfold wp. destruct (m s) as [[a s']|e]; eauto. Qed.

Lemma wp_get (Q : S -> S -> Prop) s : Q s s -> wp get Q s.
Proof. done. Qed.

Lemma wp_gets {A} (f : S -> A) (Q : A -> S -> Prop) s :
  Q (f s) s -> wp (gets f) Q s.
Proof. done. Qed.

Lemma wp_modify (f : S -> S) (Q : unit -> S -> Prop) s :
  Q tt (f s) -> wp (modify f) Q s.
Proof. done. Qed.

Lemma wp_of_option {A} e (o : option A) (Q : A -> S -> Prop) s a :
  o = Some a -> Q a s -> wp (of_option e o) Q s.
Proof. by intros ->. Qed.

Lemma wp_zoom {T A} (g : S -> T) (p : T -> S -> S) (m : M T A) Q s :
  wp m (fun a t => Q a (p t s)) (g s) -> wp (zoom g p m) Q s.
Proof. unfold wp, zoom. destruct (m (g s)) as [[a t]|e]; done. Qed.

Lemma wp_run {A} (m : M S A) (Q : A -> S -> Prop) s a s' :
  m s = Ok (a, s') -> Q a s' -> wp m Q s.
Proof. unfold wp. by intros ->. Qed.

Lemma wp_elim {A} (m : M S A) (Q : A -> S -> Prop) s :
  wp m Q s -> exists a s', m s = Ok (a, s') /\ Q a s'.
Proof. unfold wp. destruct (m s) as [[a s']|e]; naive_solver. Qed.
End wp_rules.

(** One step of symbolic execution under [wp]. *)
Ltac wp_step :=
  first
    [ apply wp_bind
    | apply wp_ret
    | apply wp_get
    | apply wp_gets
    | apply wp_modify
    | eapply wp_of_option; [by eauto|]
    | match goal with |- wp (if ?b then _ else _) _ _ => destruct b eqn:? end ];
  cbv beta.
Ltac wp_steps := repeat wp_step.

Lemma bind_run {S A B} (m : M S A) (f : A -> M S B) s a s' :
  m s = Ok (a, s') -> (m ≫= f) s = f a s'.
Proof. unfold mbind, M_bind. by intros ->. Qed.

Lemma bind_err {S A B} (m : M S A) (f : A -> M S B) s e :
  m s = Err e -> (m ≫= f) s = Err e.
Proof. unfold mbind, M_bind. by intros ->. Qed.

Lemma bind_ext {S A B} (m : M S A) (f g : A -> M S B) s :
  (forall a s', m s = Ok (a, s') -> f a s' = g a s') -> (m ≫= f) s = (m ≫= g) s.
Proof. unfold mbind, M_bind. destruct (m s) as [[a s']|e]; auto. Qed.

Lemma bind_first {S A B} (m m' : M S A) (f : A -> M S B) s : m s = m' s -> (m ≫= f) s = (m' ≫= f) s.
Proof. unfold mbind, M_bind. by intros ->. Qed.

Lemma bind_inv {S A B} (m : M S A) (f : A -> M S B) s b s' :
  (m ≫= f) s = Ok (b, s') -> exists a s1, m s = Ok (a, s1) /\ f a s1 = Ok (b, s').
Proof. unfold mbind, M_bind. destruct (m s) as [[a s1]|e]; [by eauto|done]. Qed.

(** ** Machine integers *)

(** A nonnegative integer fits in [n] bits as soon as its higher bits are
    clear. *)
Lemma bits_bounded n x : 0 <= n -> 0 <= x ->
  (forall i, n <= i -> Z.testbit x i = false) -> x < 2 ^ n.
Proof.
  intros Hn Hx Hb.
  assert (x = x mod 2 ^ n) as ->; [|apply Z.mod_pos_bound; lia].
  apply Z.bits_inj'. intros i Hi.
  destruct (decide (i < n)).
  - by rewrite Z.mod_pow2_bits_low.
  - rewrite Z.mod_pow2_bits_high by lia. apply Hb. lia.
Qed.

Lemma testbit_high n x i : 0 <= x < 2 ^ n -> n <= i -> Z.testbit x i = false.
Proof.
  intros Hx Hi. destruct (decide (0 <= n)) as [Hn|Hn].
  - rewrite <- (Z.mod_small x (2 ^ n)) by lia. apply Z.mod_pow2_bits_high. lia.
  - rewrite Z.pow_neg_r in Hx by lia. lia.
Qed.

Lemma lor_bound n x y : 0 <= n -> 0 <= x < 2 ^ n -> 0 <= y < 2 ^ n ->
  0 <= Z.lor x y < 2 ^ n.
Proof.
  intros Hn Hx Hy. assert (0 <= Z.lor x y) by (apply Z.lor_nonneg; lia).
  split; [done|]. apply bits_bounded; [done..|]. intros i Hi.
  by rewrite Z.lor_spec, !(testbit_high n).
Qed.

Lemma ldiff_bound n x y : 0 <= n -> 0 <= x < 2 ^ n -> 0 <= Z.ldiff x y < 2 ^ n.
Proof.
  intros Hn Hx. assert (0 <= Z.ldiff x y) by (apply Z.ldiff_nonneg; lia).
  split; [done|]. apply bits_bounded; [done..|]. intros i Hi.
  by rewrite Z.ldiff_spec, (testbit_high n).
Qed.

Lemma log2_bound n x : 0 < x < 2 ^ n -> 0 <= Z.log2 x < n.
Proof.
  intros Hx. split; [apply Z.log2_nonneg|]. apply Z.log2_lt_pow2; lia.
Qed.

(** The word of width [n] that is congruent to [x]. *)
Definition wrap (n x : Z) : Z := x mod 2 ^ n.

(** The two's complement value of width [n] that is congruent to [x]. *)
Definition swrap (n x : Z) : Z :=
  let y := x mod 2 ^ n in if bool_decide (y < 2 ^ (n - 1)) then y else y - 2 ^ n.

Lemma wrap_small n x : 0 <= x < 2 ^ n -> wrap n x = x.
Proof. apply Z.mod_small. Qed.

Lemma wrap_bound n x : 0 <= n -> 0 <= wrap n x < 2 ^ n.
Proof. intros. apply Z.mod_pos_bound. lia. Qed.

Lemma swrap_small n x : 0 < n -> - 2 ^ (n - 1) <= x < 2 ^ (n - 1) -> swrap n x = x.
Proof.
  intros Hn Hx. unfold swrap.
  assert (2 ^ n = 2 * 2 ^ (n - 1)) as E.
  { rewrite <- Z.pow_succ_r by lia. f_equal. lia. }
  destruct (decide (0 <= x)).
  - rewrite Z.mod_small by lia. case_bool_decide; lia.
  - rewrite <- (Z.mod_add _ 1) by lia. rewrite Z.mod_small by lia.
    case_bool_decide; lia.
Qed.

Lemma filter_iff_in {A} (P Q : A -> Prop) `{!forall x, Decision (P x)} `{!forall x, Decision (Q x)} (l : list A) :
  (forall x, x ∈ l -> P x <-> Q x) -> filter P l = filter Q l.
Proof.
  induction l as [|x l IH]; intros Hi; [done|]. rewrite !filter_cons, IH by (intros; apply Hi; set_solver).
  destruct (decide (P x)), (decide (Q x)); try done; exfalso; pose proof (Hi x); set_solver.
Qed.

Lemma swrap_congr n x y k : 0 < n -> x = y + k * 2 ^ n -> swrap n x = swrap n y.
Proof. intros Hn ->. unfold swrap. by rewrite Z.mod_add by lia. Qed.

Lemma swrap_mod n x : 0 < n -> exists k, swrap n x = x + k * 2 ^ n.
Proof.
  intros Hn. pose proof (Z.div_mod x (2 ^ n) ltac:(lia)) as E. unfold swrap. case_bool_decide.
  - exists (- (x / 2 ^ n)). lia.
  - exists (- (x / 2 ^ n) - 1). lia.
Qed.

Lemma swrap_bound n x : 0 < n -> - 2 ^ (n - 1) <= swrap n x < 2 ^ (n - 1).
Proof.
  intros Hn. assert (2 ^ n = 2 * 2 ^ (n - 1)) as E by (rewrite <- Z.pow_succ_r by lia; f_equal; lia).
  pose proof (Z.mod_pos_bound x (2 ^ n) ltac:(lia)). unfold swrap. case_bool_decide; lia.
Qed.

Create HintDb ngpt.
#[export] Hint Resolve lor_bound ldiff_bound wrap_bound : ngpt.
#[export] Hint Resolve testbit_high bits_bounded : ngpt.
#[export] Hint Rewrite @wrap_small @swrap_small using lia : ngpt.

(** [flag x m]: the C condition [x & m]. *)
Definition flag (x m : Z) : bool := negb (bool_decide (Z.land x m = 0)).

(** [set_flag x m] is [x |= m], [clear_flag x m] is [x &= ~m]. *)
Definition set_flag (x m : Z) : Z := Z.lor x m.
Definition clear_flag (x m : Z) : Z := Z.ldiff x m.

(** [_BIT(n)] of pth.h *)
Definition BIT (n : Z) : Z := Z.shiftl 1 n.

(** ** Lists *)

Lemma list_last_cons {A} (w : A) xs d : List.last (w :: xs) d = List.last xs w.
Proof. revert w d. induction xs as [|x xs IH]; intros w d; [done|].
  transitivity (List.last xs x); [apply (IH x d)|by rewrite IH].
Qed.

Lemma list_last_app_cons {A} (ys : list A) w xs d :
  List.last (ys ++ w :: xs) d = List.last xs w.
Proof.
  revert d. induction ys as [|y ys IH]; intros d; [apply list_last_cons|].
  simpl app. by rewrite list_last_cons, IH.
Qed.

Lemma list_last_elem {A} (xs : list A) d : List.last xs d ∈ d :: xs.
Proof.
  destruct xs as [|x xs _] using rev_ind; [set_solver|].
  rewrite List.last_last. set_solver.
Qed.

Lemma list_hd_elem {A} (xs : list A) d : hd d xs ∈ d :: xs.
Proof. destruct xs; set_solver. Qed.

Lemma fmap_nil_iff {A B} (f : A -> B) (l : list A) : f <$> l = [] <-> l = [].
Proof. by destruct l. Qed.
