(* ===== verification/Bitmap.v ===== *)
(** * Bit operations and the priority bitmap

    Models [src/bitops-ia32.h] (with the PowerPC bit scan of
    [src/bitops-ppc.h] beside it) and [src/bitmap.h]: the
    accelerator by which a priority queue finds its highest non-empty list.

    A bitmap is the array [slot[BITMAP_SLOTS]] of [unsigned long]s, a list of
    integers below [2 ^ wb], where [wb] is the number of bits of an
    [unsigned long] (32 on i386, 64 on ia64). *)

From S2P Require Import Prelude.

(** ** Machine words *)

Section bitops.
Variable wb : Z.

(** [bsrl]: the index of the most significant bit set; the result for a
    zero operand is not defined by the processor. *)
Definition find_first_ms_bit (w : Z) : res Z :=
  if bool_decide (w = 0) then Err Undefined else Ok (Z.log2 w).

(** [btsl] and [btrl] with a register operand: the bit index selects a
    word relative to the address of the first one, before it if the index is
    negative. *)
Definition bit_set (bit : Z) (w : list Z) : res (list Z) :=
  let i := Z.to_nat (bit / wb) in
  if bool_decide (bit < 0) then Err OutOfBounds else
  x ← or_fault OutOfBounds (w !! i);
  Ok (<[i := Z.lor x (Z.shiftl 1 (bit mod wb))]> w).

Definition bit_reset (bit : Z) (w : list Z) : res (list Z) :=
  let i := Z.to_nat (bit / wb) in
  if bool_decide (bit < 0) then Err OutOfBounds else
  x ← or_fault OutOfBounds (w !! i);
  Ok (<[i := Z.ldiff x (Z.shiftl 1 (bit mod wb))]> w).
End bitops.

(** [cntlzw]: the number of leading zero bits of a 32 bit word. *)
Definition cntlzw (w : Z) : Z :=
  if bool_decide (w = 0) then 32 else 31 - Z.log2 w.

Definition find_first_ms_bit_ppc (w : Z) : Z := 32 - cntlzw w.

(** ** The bitmap *)

Definition BITMAP_BITS : Z := 160.

(** [struct bitmap_st]: its only member, the array of slots. *)
Abbreviation bitmap_st := (list Z).

Section bitmap.
Variable wb : Z.

Definition sizeof_ulong : Z := wb / 8.
Definition BITMAP_SLOTS : Z :=
  (((BITMAP_BITS + 1 + 7) / 8) + sizeof_ulong - 1) / sizeof_ulong.
Definition BITMAP_BASE_BITSIZE : Z := 8 * sizeof_ulong.



Definition bitmap_zero : bitmap_st := replicate (Z.to_nat BITMAP_SLOTS) 0.

(** [bitmap_init] has an empty body. *)
Definition bitmap_init (bitmap : bitmap_st) : bitmap_st := bitmap.

Definition bitmap_reset (bitmap : bitmap_st) : bitmap_st := bitmap_zero.

Definition bitmap_set_bit (bitmap : bitmap_st) (bit : Z) : res bitmap_st :=
  bit_set wb bit bitmap.

Definition bitmap_reset_bit (bitmap : bitmap_st) (bit : Z) : res bitmap_st :=
  bit_reset wb bit bitmap.

(** [bitmap_scan(round)]: [Some] result when the slot is not zero. *)
Definition bitmap_scan (bitmap : bitmap_st) (round : nat) : res (option Z) :=
  x ← or_fault OutOfBounds (bitmap !! round);
  if bool_decide (x = 0) then Ok None
  else k ← find_first_ms_bit x;
       Ok (Some (k + Z.of_nat round * BITMAP_BASE_BITSIZE)).

Fixpoint bitmap_scan_down (bitmap : bitmap_st) (round : nat) : res Z :=
  match round with
  | O => x ← or_fault OutOfBounds (bitmap !! O); find_first_ms_bit x
  | S round' =>
      r ← bitmap_scan bitmap round;
      match r with
      | Some k => Ok k
      | None => bitmap_scan_down bitmap round'
      end
  end.

Definition bitmap_ffms_bit_set (bitmap : bitmap_st) : res Z :=
  bitmap_scan_down bitmap 4.
End bitmap.

(** [bitmap_set] passes [memset] the address of its own parameter: it fills
    [sizeof (struct bitmap_st)] bytes of an object of [sizeof_ulong] bytes
    (the pointer), which is in bounds only when the bitmap is no larger. *)
Definition bitmap_set (wb : Z) (bitmap : bitmap_st) : res bitmap_st :=
  if bool_decide (BITMAP_SLOTS wb * sizeof_ulong wb <= sizeof_ulong wb)
  then Ok bitmap else Err OutOfBounds.

(** ** Specification *)

(** Bit [i] of a bitmap. *)
Definition bm_test (wb : Z) (bm : bitmap_st) (i : Z) : bool :=
  match bm !! Z.to_nat (i / wb) with
  | Some x => Z.testbit x (i mod wb)
  | None => false
  end.

Definition bm_wf (wb : Z) (bm : bitmap_st) : Prop :=
  Z.of_nat (length bm) = BITMAP_SLOTS wb /\
  Forall (fun x => 0 <= x < 2 ^ wb) bm.

Lemma BITMAP_SLOTS_32 : BITMAP_SLOTS 32 = 6.
Proof. reflexivity. Qed.

Section bit_lemmas.
Variable wb : Z.
Hypothesis Hwb : 0 < wb.

Lemma shiftl_1_bound k : 0 <= k < wb -> 0 <= Z.shiftl 1 k < 2 ^ wb.
Proof.
  intros Hk. rewrite Z.shiftl_1_l. split; [lia|].
  apply Z.pow_lt_mono_r; lia.
Qed.

(** The bit position [i] as a word and an offset in it. *)
Lemma bit_split i j : 0 <= i -> 0 <= j -> i <> j ->
  Z.to_nat (i / wb) = Z.to_nat (j / wb) -> i mod wb <> j mod wb.
Proof.
  intros Hi Hj Hne E Em.
  apply Z2Nat.inj in E; [|apply Z.div_pos; lia..].
  apply Hne. rewrite (Z.div_mod i wb), (Z.div_mod j wb) by lia. congruence.
Qed.

(** Both bit operations, as one: word [x] becomes [f x], which changes the
    one bit at offset [bit mod wb] to [b]. *)
Lemma bm_test_update bm bit x f b :
  0 <= bit ->
  bm !! Z.to_nat (bit / wb) = Some x ->
  (forall k, 0 <= k -> Z.testbit (f x) k =
     if bool_decide (k = bit mod wb) then b else Z.testbit x k) ->
  forall i, 0 <= i ->
    bm_test wb (<[Z.to_nat (bit / wb) := f x]> bm) i =
    if bool_decide (i = bit) then b else bm_test wb bm i.
Proof.
  intros Hbit Hx Hf i Hi. unfold bm_test.
  assert (0 <= i mod wb) by (apply Z.mod_pos_bound; lia).
  destruct (decide (Z.to_nat (i / wb) = Z.to_nat (bit / wb))) as [E|E].
  - rewrite E, list_lookup_insert_eq by (eapply lookup_lt_Some; eauto).
    rewrite Hf, Hx by done. case_bool_decide as E2; case_bool_decide; subst; try done.
    destruct (decide (i = bit)) as [|Hne]; [done|].
    by apply (bit_split _ _ Hi Hbit Hne) in E.
  - rewrite list_lookup_insert_ne by done.
    case_bool_decide; subst; done.
Qed.

Lemma bit_set_spec bm bit :
  0 <= bit -> (Z.to_nat (bit / wb) < length bm)%nat ->
  exists bm', bit_set wb bit bm = Ok bm' /\ length bm' = length bm /\
    forall i, 0 <= i -> bm_test wb bm' i = bool_decide (i = bit) || bm_test wb bm i.
Proof.
  intros Hbit [x Hx]%lookup_lt_is_Some. unfold bit_set. rewrite bool_decide_eq_false_2 by lia. rewrite Hx. simpl.
  eexists; split; [done|]. split; [by rewrite length_insert|]. intros i Hi.
  rewrite (bm_test_update bm bit x (fun x => Z.lor x (Z.shiftl 1 (bit mod wb))) true);
    [by case_bool_decide|done|done| |done].
  intros k Hk. rewrite Z.lor_spec, Z.shiftl_1_l.
  rewrite Z.pow2_bits_eqb by (apply Z.mod_pos_bound; lia).
  case_bool_decide; subst.
  - by rewrite Z.eqb_refl, orb_true_r.
  - rewrite (proj2 (Z.eqb_neq _ _)) by lia. by rewrite orb_false_r.
Qed.

Lemma bit_reset_spec bm bit :
  0 <= bit -> (Z.to_nat (bit / wb) < length bm)%nat ->
  exists bm', bit_reset wb bit bm = Ok bm' /\ length bm' = length bm /\
    forall i, 0 <= i ->
      bm_test wb bm' i = negb (bool_decide (i = bit)) && bm_test wb bm i.
Proof.
  intros Hbit [x Hx]%lookup_lt_is_Some. unfold bit_reset. rewrite bool_decide_eq_false_2 by lia. rewrite Hx. simpl.
  eexists; split; [done|]. split; [by rewrite length_insert|]. intros i Hi.
  rewrite (bm_test_update bm bit x (fun x => Z.ldiff x (Z.shiftl 1 (bit mod wb))) false);
    [by case_bool_decide|done|done| |done].
  intros k Hk. rewrite Z.ldiff_spec, Z.shiftl_1_l.
  rewrite Z.pow2_bits_eqb by (apply Z.mod_pos_bound; lia).
  case_bool_decide; subst.
  - by rewrite Z.eqb_refl, andb_false_r.
  - rewrite (proj2 (Z.eqb_neq _ _)) by lia. by rewrite andb_true_r.
Qed.

Lemma Forall_insert_word (P : Z -> Prop) (bm : list Z) i y :
  Forall P bm -> P y -> Forall P (<[i := y]> bm).
Proof. intros. by apply Forall_insert. Qed.
End bit_lemmas.

(** ** Results *)

Lemma bm_slot_index wb i : 0 < wb -> 0 <= i < BITMAP_SLOTS wb * wb ->
  (Z.to_nat (i / wb) < Z.to_nat (BITMAP_SLOTS wb))%nat.
Proof.
  intros Hwb Hi. apply Z2Nat.inj_lt; [apply Z.div_pos; lia|nia|].
  apply Z.div_lt_upper_bound; lia.
Qed.

(** A bitmap keeps its size and its words keep their width. *)
Lemma bitmap_set_bit_wf wb bm bit bm' :
  0 < wb -> bm_wf wb bm -> bitmap_set_bit wb bm bit = Ok bm' -> bm_wf wb bm'.
Proof.
  intros Hwb [Hlen Hw]. unfold bitmap_set_bit, bit_set. case_bool_decide; [done|].
  destruct (bm !! _) as [x|] eqn:Hx; simpl; intros [= <-].
  split; [by rewrite length_insert|]. apply Forall_insert; [done|].
  eapply Forall_lookup_1 in Hx; [|done]. apply lor_bound; [lia|done|].
  apply shiftl_1_bound; [done|]. apply Z.mod_pos_bound. lia.
Qed.

Lemma bitmap_reset_bit_wf wb bm bit bm' :
  0 < wb -> bm_wf wb bm -> bitmap_reset_bit wb bm bit = Ok bm' -> bm_wf wb bm'.
Proof.
  intros Hwb [Hlen Hw]. unfold bitmap_reset_bit, bit_reset. case_bool_decide; [done|].
  destruct (bm !! _) as [x|] eqn:Hx; simpl; intros [= <-].
  split; [by rewrite length_insert|]. apply Forall_insert; [done|].
  eapply Forall_lookup_1 in Hx; [|done]. by apply ldiff_bound; [lia|].
Qed.

(** What the scan from slot [r] downwards returns: the highest bit set at or
    below slot [r]. *)
Definition ffms_spec (bm : bitmap_st) (r : nat) (m : Z) : Prop :=
  0 <= m < 32 * (Z.of_nat r + 1) /\ bm_test 32 bm m = true /\
  forall j, m < j < 32 * (Z.of_nat r + 1) -> bm_test 32 bm j = false.

Lemma bm_test_slot bm r x k : 0 <= k < 32 -> bm !! r = Some x ->
  bm_test 32 bm (k + Z.of_nat r * 32) = Z.testbit x k.
Proof.
  intros Hk Hx. unfold bm_test.
  rewrite Z.div_add, Z.mod_add by lia. rewrite Z.div_small, Z.mod_small by lia.
  by rewrite Z.add_0_l, Nat2Z.id, Hx.
Qed.

(** A word that is not zero decides the scan at its slot. *)
Lemma ffms_slot bm r x :
  0 <= x < 2 ^ 32 -> x <> 0 -> bm !! r = Some x ->
  ffms_spec bm r (Z.log2 x + Z.of_nat r * 32).
Proof.
  intros Hx Hne Hr. pose proof (log2_bound 32 x ltac:(lia)) as Hl.
  split; [lia|]. split.
  - rewrite (bm_test_slot _ _ x) by (done || lia). apply Z.bit_log2. lia.
  - intros j Hj. replace j with ((j - Z.of_nat r * 32) + Z.of_nat r * 32) by lia.
    rewrite (bm_test_slot _ _ x) by (done || lia).
    apply Z.bits_above_log2; lia.
Qed.

Lemma ffms_zero_slot bm r m :
  bm !! S r = Some 0 -> ffms_spec bm r m -> ffms_spec bm (S r) m.
Proof.
  intros Hz (Hm & Ht & Hhi). split; [lia|]. split; [done|]. intros j Hj.
  destruct (decide (j < 32 * (Z.of_nat r + 1))); [apply Hhi; lia|].
  replace j with ((j - Z.of_nat (S r) * 32) + Z.of_nat (S r) * 32) by lia.
  rewrite (bm_test_slot _ _ 0) by (done || lia). apply Z.bits_0.
Qed.

Lemma bitmap_scan_down_spec bm r :
  bm_wf 32 bm -> (r < length bm)%nat ->
  (exists i, 0 <= i < 32 * (Z.of_nat r + 1) /\ bm_test 32 bm i = true) ->
  exists m, bitmap_scan_down 32 bm r = Ok m /\ ffms_spec bm r m.
Proof.
  intros [Hlen Hw]. induction r as [|r IH]; intros Hr (i & Hi & Hti).
  - destruct (lookup_lt_is_Some_2 bm 0%nat Hr) as [x Hx].
    pose proof (Forall_lookup_1 _ _ _ _ Hw Hx) as Hb. simpl in *. rewrite Hx. simpl.
    unfold find_first_ms_bit. case_bool_decide as E.
    + subst. replace i with (i + Z.of_nat 0 * 32) in Hti by lia.
      rewrite (bm_test_slot _ _ 0) in Hti by (done || lia).
      by rewrite Z.bits_0 in Hti.
    + eexists; split; [done|]. replace (Z.log2 x) with (Z.log2 x + Z.of_nat 0 * 32) by lia.
      by apply ffms_slot.
  - destruct (lookup_lt_is_Some_2 bm (S r) Hr) as [x Hx].
    pose proof (Forall_lookup_1 _ _ _ _ Hw Hx) as Hb. simpl in Hb.
    unfold bitmap_scan_down; fold (bitmap_scan_down 32 bm). unfold bitmap_scan.
    rewrite Hx. simpl. case_bool_decide as E.
    + subst. destruct IH as (m & Hm & Hs); [lia| |].
      { exists i. split; [|done]. destruct (decide (i < 32 * (Z.of_nat r + 1))); [lia|].
        replace i with ((i - Z.of_nat (S r) * 32) + Z.of_nat (S r) * 32) in Hti by lia.
        rewrite (bm_test_slot _ _ 0) in Hti by (done || lia). by rewrite Z.bits_0 in Hti. }
      exists m. split; [done|]. by apply ffms_zero_slot.
    + unfold find_first_ms_bit. rewrite bool_decide_eq_false_2 by done. simpl.
      eexists; split; [done|]. by apply ffms_slot.
Qed.

Lemma bitmap_ffms_spec bm :
  bm_wf 32 bm -> (exists i, 0 <= i < BITMAP_BITS /\ bm_test 32 bm i = true) ->
  exists m, bitmap_ffms_bit_set 32 bm = Ok m /\ ffms_spec bm 4 m.
Proof.
  intros Hwf Hi. apply bitmap_scan_down_spec; [done| |exact Hi].
  destruct Hwf as [Hlen _]. rewrite BITMAP_SLOTS_32 in Hlen. lia.
Qed.

(** C24: On a 32 bit machine, whenever some bit below 160 of a well-formed
    bitmap is set, the find-first-most-significant-bit scan terminates
    without touching memory outside of the slots and returns the highest
    position that is set. *)
Theorem bitmap_ffms_highest (bm : bitmap_st) (i : Z) :
  bm_wf 32 bm -> 0 <= i < BITMAP_BITS -> bm_test 32 bm i = true ->
  exists m, bitmap_ffms_bit_set 32 bm = Ok m /\ i <= m < BITMAP_BITS /\
    bm_test 32 bm m = true /\
    forall j, m < j < BITMAP_BITS -> bm_test 32 bm j = false.
Proof.
  intros Hwf Hi Ht. destruct (bitmap_ffms_spec bm Hwf) as (m & Hm & Hb & Hset & Hhi); [eauto|].
  unfold BITMAP_BITS in *. exists m. split; [done|]. split; [|split; [done|]].
  - split; [|lia]. destruct (decide (m < i)); [|lia].
    rewrite Hhi in Ht by lia. done.
  - intros j Hj. apply Hhi. lia.
Qed.

Lemma bitmap_ffms_highest_witness :
  bitmap_ffms_bit_set 32 [5; 0; 2; 0; 0; 0] = Ok 65 /\
  exists m, bitmap_ffms_bit_set 32 [5; 0; 2; 0; 0; 0] = Ok m /\ 2 <= m < BITMAP_BITS /\
    bm_test 32 [5; 0; 2; 0; 0; 0] m = true /\
    forall j, m < j < BITMAP_BITS -> bm_test 32 [5; 0; 2; 0; 0; 0] j = false.
Proof.
  split; [reflexivity|].
  apply (bitmap_ffms_highest [5; 0; 2; 0; 0; 0] 2).
  - split; [reflexivity|]. repeat constructor; lia.
  - unfold BITMAP_BITS; lia.
  - reflexivity.
Defined.

(** Where an [unsigned long] has 64 bits the bitmap has only three slots,
    and the scan, which starts at slot 4, reads outside of the array whatever
    the contents. *)
Theorem bitmap_ffms_out_of_bounds_64 (bm : bitmap_st) :
  bm_wf 64 bm -> bitmap_ffms_bit_set 64 bm = Err OutOfBounds.
Proof.
  intros [Hlen _].
  assert (bm !! 4%nat = None) as E.
  { apply lookup_ge_None. change (BITMAP_SLOTS 64) with 3 in Hlen. lia. }
  unfold bitmap_ffms_bit_set, bitmap_scan_down, bitmap_scan. by rewrite E.
Qed.

Lemma bitmap_ffms_out_of_bounds_64_witness :
  bitmap_ffms_bit_set 64 [1; 2; 3] = Err OutOfBounds.
Proof.
  apply bitmap_ffms_out_of_bounds_64. split; [reflexivity|]. repeat constructor; lia.
Defined.

(** The PowerPC scan counts from one where the i386 one counts from zero. *)
Lemma find_first_ms_bit_ppc_off_by_one w :
  0 < w < 2 ^ 32 ->
  exists k, find_first_ms_bit w = Ok k /\ find_first_ms_bit_ppc w = k + 1.
Proof.
  intros Hw. unfold find_first_ms_bit, find_first_ms_bit_ppc, cntlzw.
  rewrite !bool_decide_eq_false_2 by lia. eexists; split; [done|]. lia.
Qed.
