(* ===== verification/Dll.v ===== *)
(** * Doubly linked memory

    Every list of NGPT is a circular doubly linked structure: the [lnode_st]
    of list.h, the [pth_ringnode_t] of pth_ring.c, the [pth_list_t] of the
    mutex and condition wait lists, the event rings and the thread priority
    queues of pth_pqueue.c.  This file holds what they share: a memory of
    links, and the predicate [ring h a xs], which says that starting at [a]
    the [next] fields lead through [xs] back to [a] and the [prev] fields lead
    the other way. *)

From S2P Require Import Prelude.

Record link (A : Type) : Type := Link { l_next : option A; l_prev : option A }.
Arguments Link {A} l_next l_prev.
Arguments l_next {A} _.
Arguments l_prev {A} _.

Section dll.
Context {A : Type} `{Countable A}.
Implicit Types (h : gmap A (link A)) (a b c e p n w z : A) (xs ys : list A).

(** ** Field access.  [None] as a pointer is [NULL]. *)

Definition deref h (p : option A) : res (link A) :=
  match p with
  | Some a => or_fault BadDeref (h !! a)
  | None => Err BadDeref
  end.

Definition get_next h (p : option A) : res (option A) :=
  l ← deref h p; Ok (l_next l).

Definition get_prev h (p : option A) : res (option A) :=
  l ← deref h p; Ok (l_prev l).

Definition set_next (p v : option A) h : res (gmap A (link A)) :=
  match p with
  | Some a => l ← deref h p; Ok (<[a := Link v (l_prev l)]> h)
  | None => Err BadDeref
  end.

Definition set_prev (p v : option A) h : res (gmap A (link A)) :=
  match p with
  | Some a => l ← deref h p; Ok (<[a := Link (l_next l) v]> h)
  | None => Err BadDeref
  end.

(** ** Rings *)

Definition nxt h a : option A := h !! a ≫= l_next.
Definition prv h a : option A := h !! a ≫= l_prev.

Fixpoint chain h a xs z : Prop :=
  match xs with
  | [] => nxt h a = Some z /\ prv h z = Some a
  | x :: xs' => (nxt h a = Some x /\ prv h x = Some a) /\ chain h x xs' z
  end.

Definition ring h a xs : Prop := NoDup (a :: xs) /\ chain h a xs a.

Lemma chain_app h a xs b ys z :
  chain h a (xs ++ b :: ys) z <-> chain h a xs b /\ chain h b ys z.
Proof.
  revert a. induction xs as [|x xs IH]; intros a; simpl; [done|].
  rewrite IH. tauto.
Qed.

Lemma chain_last h a xs x z :
  chain h a (xs ++ [x]) z <->
  chain h a xs x /\ nxt h x = Some z /\ prv h z = Some x.
Proof. by rewrite chain_app. Qed.

(** A chain only looks at the [next] fields of its members and at the
    [prev] fields of their successors. *)
Lemma chain_agree h h' a xs z :
  (forall b, b ∈ a :: xs -> nxt h' b = nxt h b) ->
  (forall b, b ∈ xs ++ [z] -> prv h' b = prv h b) ->
  chain h a xs z -> chain h' a xs z.
Proof.
  revert a. induction xs as [|x xs IH]; intros a Hn Hp; simpl.
  - rewrite Hn, Hp by set_solver. done.
  - rewrite Hn, Hp by set_solver. intros [Hx Hc].
    split; [done|]. apply IH; [set_solver..|done].
Qed.

Lemma ring_agree h h' a xs :
  (forall b, b ∈ a :: xs -> h' !! b = h !! b) -> ring h a xs -> ring h' a xs.
Proof.
  intros Hag [Hnd Hc]. split; [done|].
  eapply chain_agree; [..|exact Hc]; intros b Hb; unfold nxt, prv;
    (rewrite Hag; [done|set_solver]).
Qed.

(** A ring can be read from any of its members. *)
Lemma ring_rotate h a xs b ys :
  ring h a (xs ++ b :: ys) <-> ring h b (ys ++ a :: xs).
Proof.
  unfold ring. rewrite !chain_app.
  assert (a :: xs ++ b :: ys ≡ₚ b :: ys ++ a :: xs) as ->; [|tauto].
  change (a :: xs ++ b :: ys) with ((a :: xs) ++ b :: ys).
  change (b :: ys ++ a :: xs) with ((b :: ys) ++ a :: xs).
  apply Permutation_app_comm.
Qed.

Lemma ring_mapped h a xs b : ring h a xs -> b ∈ a :: xs -> is_Some (h !! b).
Proof.
  intros Hr Hb. assert (exists zs, ring h b zs) as [zs [_ Hc]].
  { apply elem_of_cons in Hb as [->|Hb]; [by exists xs|].
    apply list_elem_of_split in Hb as (l1 & l2 & ->).
    apply ring_rotate in Hr. eauto. }
  destruct zs; simpl in Hc; unfold nxt in Hc;
    destruct (h !! b); [done|naive_solver|done|naive_solver].
Qed.

Lemma ring_nodup h a xs : ring h a xs -> NoDup (a :: xs).
Proof. by intros [? _]. Qed.

(** The neighbours of the first member of a ring. *)
Lemma ring_next h a xs : ring h a xs -> nxt h a = Some (hd a xs).
Proof. intros [_ Hc]. destruct xs; simpl in Hc; tauto. Qed.

Lemma ring_prev h a xs : ring h a xs -> prv h a = Some (List.last xs a).
Proof.
  intros [_ Hc]. destruct xs as [|y xs _] using rev_ind; simpl in Hc; [tauto|].
  rewrite chain_last in Hc. rewrite List.last_last. tauto.
Qed.

(** ** Writes *)

(** [upd f h h']: the memory [h'] is [h] with its fields as in [f]. *)
Definition same_dom h h' : Prop := forall b, is_Some (h' !! b) <-> is_Some (h !! b).

Lemma same_dom_refl h : same_dom h h.
Proof. done. Qed.

Lemma same_dom_trans h1 h2 h3 : same_dom h1 h2 -> same_dom h2 h3 -> same_dom h1 h3.
Proof. unfold same_dom. intros H1 H2 b. rewrite H2. apply H1. Qed.

Lemma set_next_spec h a v : is_Some (h !! a) ->
  exists h', set_next (Some a) v h = Ok h' /\ same_dom h h' /\
    (forall b, nxt h' b = if decide (b = a) then v else nxt h b) /\
    (forall b, prv h' b = prv h b) /\
    (forall b, b <> a -> h' !! b = h !! b).
Proof.
  intros [l Hl]. unfold set_next, deref. rewrite Hl. simpl.
  eexists; split; [done|]. unfold same_dom, nxt, prv.
  split_and!; intros b; rewrite ?lookup_insert; repeat case_decide; subst; simplify_eq;
    rewrite ?Hl; done.
Qed.

Lemma set_prev_spec h a v : is_Some (h !! a) ->
  exists h', set_prev (Some a) v h = Ok h' /\ same_dom h h' /\
    (forall b, prv h' b = if decide (b = a) then v else prv h b) /\
    (forall b, nxt h' b = nxt h b) /\
    (forall b, b <> a -> h' !! b = h !! b).
Proof.
  intros [l Hl]. unfold set_prev, deref. rewrite Hl. simpl.
  eexists; split; [done|]. unfold same_dom, nxt, prv.
  split_and!; intros b; rewrite ?lookup_insert; repeat case_decide; subst; simplify_eq;
    rewrite ?Hl; done.
Qed.

Lemma get_next_spec h a b : nxt h a = Some b -> get_next h (Some a) = Ok (Some b).
Proof.
  unfold nxt, get_next, deref. destruct (h !! a) as [l|]; simpl; [|done].
  by intros ->.
Qed.

Lemma get_prev_spec h a b : prv h a = Some b -> get_prev h (Some a) = Ok (Some b).
Proof.
  unfold prv, get_prev, deref. destruct (h !! a) as [l|]; simpl; [|done].
  by intros ->.
Qed.

(** ** Insertion and removal, as a change of fields *)

(** [e] is put between [p] and [n]. *)
Definition inserted h h' e p n : Prop :=
  same_dom h h' /\
  (forall b, nxt h' b = if decide (b = p) then Some e
                        else if decide (b = e) then Some n else nxt h b) /\
  (forall b, prv h' b = if decide (b = n) then Some e
                        else if decide (b = e) then Some p else prv h b) /\
  (forall b, b <> e -> b <> p -> b <> n -> h' !! b = h !! b).

(** What is between [p] and [n] is taken out. *)
Definition unlinked h h' p n : Prop :=
  same_dom h h' /\
  (forall b, nxt h' b = if decide (b = p) then Some n else nxt h b) /\
  (forall b, prv h' b = if decide (b = n) then Some p else prv h b) /\
  (forall b, b <> p -> b <> n -> h' !! b = h !! b).

Lemma ring_singleton h a : nxt h a = Some a -> prv h a = Some a -> ring h a [].
Proof. intros. split; [apply NoDup_singleton|done]. Qed.

Lemma ring_insert_after h h' w e xs :
  ring h w xs -> e ∉ w :: xs -> inserted h h' e w (hd w xs) -> ring h' w (e :: xs).
Proof.
  intros [Hnd Hc] He (_ & Hn & Hp & _). split.
  { apply NoDup_cons in Hnd as [Hw Hnd]. rewrite !NoDup_cons. set_solver. }
  assert (e <> w) by set_solver.
  destruct xs as [|x xs]; simpl in *; rewrite !Hn, !Hp.
  - by repeat case_decide.
  - assert (e <> x) by set_solver.
    split; [by repeat case_decide|]. split; [by repeat case_decide|].
    destruct Hc as [_ Hc]. apply NoDup_cons in Hnd as [Hw [Hx Hnd]%NoDup_cons].
    eapply chain_agree; [..|exact Hc]; intros b Hb.
    + rewrite Hn, !decide_False by set_solver. done.
    + rewrite Hp, !decide_False by set_solver. done.
Qed.

(** Insertion before the first member is insertion at the end. *)
Lemma ring_insert_before h h' w e xs :
  ring h w xs -> e ∉ w :: xs -> inserted h h' e (List.last xs w) w ->
  ring h' w (xs ++ [e]).
Proof.
  intros Hr He Hi. destruct xs as [|p xs _] using rev_ind; simpl in *.
  { apply (ring_insert_after h h' w e []); [done..|exact Hi]. }
  rewrite List.last_last in Hi.
  apply ring_rotate in Hr. simpl in Hr.
  apply (ring_insert_after h h' p e (w :: xs)) in Hr; [|set_solver|exact Hi].
  rewrite <- app_assoc. apply ring_rotate. done.
Qed.

(** The first member is taken out of a ring of at least two. *)
Lemma ring_unlink h h' e x xs :
  ring h e (x :: xs) -> unlinked h h' (List.last xs x) x -> ring h' x xs.
Proof.
  intros [Hnd Hc] (_ & Hn & Hp & _). simpl in Hc. destruct Hc as [_ Hc].
  apply NoDup_cons in Hnd as [He Hnd]. split; [done|].
  destruct xs as [|p xs _] using rev_ind; simpl in *.
  { rewrite Hn, Hp. by repeat case_decide. }
  rewrite List.last_last in Hn, Hp. rewrite chain_last in *. destruct Hc as [Hc _].
  apply NoDup_cons in Hnd as [Hx [Hxs [Hpx _]]%NoDup_app].
  rewrite Hn, Hp. split; [|by repeat case_decide].
  eapply chain_agree; [..|exact Hc]; intros b Hb.
  - rewrite Hn, decide_False by set_solver. done.
  - rewrite Hp, decide_False by set_solver. done.
Qed.

(** A member other than the first is taken out. *)
Lemma ring_remove h h' w xs e ys :
  ring h w (xs ++ e :: ys) ->
  unlinked h h' (List.last xs w) (hd w ys) -> ring h' w (xs ++ ys).
Proof.
  intros Hr Hu. apply ring_rotate in Hr.
  destruct ys as [|y ys]; simpl in *.
  - apply ring_unlink with (h' := h') in Hr; [by rewrite app_nil_r|done].
  - apply ring_unlink with (h' := h') in Hr.
    + by apply ring_rotate.
    + by rewrite list_last_app_cons.
Qed.

(** The end of a chain is moved to another node. *)
Lemma chain_retarget h h' a xs z z' :
  NoDup (a :: xs) -> chain h a xs z ->
  (forall b, b ∈ a :: xs -> b <> List.last xs a -> nxt h' b = nxt h b) ->
  (forall b, b ∈ xs -> prv h' b = prv h b) ->
  nxt h' (List.last xs a) = Some z' -> prv h' z' = Some (List.last xs a) ->
  chain h' a xs z'.
Proof.
  revert a. induction xs as [|x xs IH]; intros a Hnd Hc Hn Hp Hl Hz; [done|].
  rewrite list_last_cons in *. destruct Hc as [[Hc1 Hc2] Hc].
  apply NoDup_cons in Hnd as [Ha Hnd].
  pose proof (list_last_elem xs x) as Hle.
  split.
  - rewrite Hn, Hp by set_solver. done.
  - apply IH; [done..| | |done|done]; set_solver.
Qed.

(** Two rings are joined: the members of the second follow [w]. *)
Lemma ring_splice h h' w xs l ls :
  ring h w xs -> ring h l ls -> (forall b, b ∈ l :: ls -> b ∉ w :: xs) ->
  (forall b, nxt h' b = if decide (b = List.last ls l) then Some (hd w xs)
                        else if decide (b = w) then Some l else nxt h b) ->
  (forall b, prv h' b = if decide (b = hd w xs) then Some (List.last ls l)
                        else if decide (b = l) then Some w else prv h b) ->
  ring h' w (l :: ls ++ xs).
Proof.
  intros [Hnd1 Hc1] [Hnd2 Hc2] Hdisj Hn Hp.
  pose proof (list_last_elem ls l) as Hll. pose proof (list_hd_elem xs w) as Hhd.
  apply NoDup_cons in Hnd1 as [Hw Hnd1]. split.
  { apply NoDup_cons. split; [set_solver|].
    apply (NoDup_app (l :: ls) xs). set_solver. }
  assert (nxt h' (List.last ls l) = Some (hd w xs)) as En by (rewrite Hn; by case_decide).
  assert (prv h' (hd w xs) = Some (List.last ls l)) as Ep by (rewrite Hp; by case_decide).
  assert (chain h' l ls (hd w xs)) as Hl.
  { eapply chain_retarget; [done|exact Hc2|..|exact En|exact Ep]; intros b Hb.
    - intros Hbl. rewrite Hn, !decide_False by set_solver. done.
    - apply NoDup_cons in Hnd2 as [Hl2 _].
      rewrite Hp, !decide_False by set_solver. done. }
  split.
  { rewrite Hn, Hp. split; [by rewrite decide_False, decide_True by set_solver|].
    by rewrite decide_False, decide_True by set_solver. }
  destruct xs as [|x xs]; simpl in *; [by rewrite app_nil_r|].
  apply chain_app. split; [done|]. destruct Hc1 as [_ Hc1].
  apply NoDup_cons in Hnd1 as [Hx Hnd1].
  eapply chain_agree; [..|exact Hc1]; intros b Hb.
  - rewrite Hn, !decide_False by set_solver. done.
  - rewrite Hp, !decide_False by set_solver. done.
Qed.
End dll.

(** ** Symbolic execution of link updates *)

#[global] Arguments deref {A _ _} h p : simpl never.
#[global] Arguments get_next {A _ _} h p : simpl never.
#[global] Arguments get_prev {A _ _} h p : simpl never.
#[global] Arguments set_next {A _ _} p v h : simpl never.
#[global] Arguments set_prev {A _ _} p v h : simpl never.

(** Solves [is_Some (h !! a)] for a memory reached by writes. *)
Ltac solve_mapped :=
  repeat match goal with
  | Hd : same_dom _ ?h |- is_Some (?h !! _) => apply (proj2 (Hd _))
  end; first [eassumption | eauto].

(** Executes the next field write of the goal. *)
Ltac link_write :=
  match goal with
  | |- context [set_next (Some ?a) ?v ?h] =>
      let h' := fresh "h" in let E := fresh "E" in
      let Hd := fresh "Hd" in let Hn := fresh "Hn" in
      let Hp := fresh "Hp" in let Hf := fresh "Hf" in
      destruct (set_next_spec h a v) as (h' & E & Hd & Hn & Hp & Hf);
      [solve_mapped | rewrite E; clear E; simpl]
  | |- context [set_prev (Some ?a) ?v ?h] =>
      let h' := fresh "h" in let E := fresh "E" in
      let Hd := fresh "Hd" in let Hn := fresh "Hn" in
      let Hp := fresh "Hp" in let Hf := fresh "Hf" in
      destruct (set_prev_spec h a v) as (h' & E & Hd & Hp & Hn & Hf);
      [solve_mapped | rewrite E; clear E; simpl]
  end.

(** Reads the fields of the memory after a series of writes. *)
Ltac link_fields :=
  repeat match goal with
  | Hn : forall b, nxt ?h b = _ |- context [nxt ?h _] => rewrite Hn
  | Hp : forall b, prv ?h b = _ |- context [prv ?h _] => rewrite Hp
  end.

Ltac link_frame :=
  repeat match goal with
  | Hf : forall b, b <> ?a -> ?h !! b = _ |- ?h !! _ = _ => rewrite Hf by congruence
  end.

Ltac same_dom_steps :=
  repeat match goal with
  | |- same_dom ?h ?h => apply same_dom_refl
  | Hd : same_dom ?h1 ?h |- same_dom _ ?h => eapply same_dom_trans; [|exact Hd]
  end.

(** Proves [inserted] or [unlinked] of a series of executed writes. *)
Ltac link_done :=
  split; [by same_dom_steps|];
  split; [intros ?; link_fields; repeat case_decide; congruence|];
  split; [intros ?; link_fields; repeat case_decide; congruence|];
  intros; by link_frame.
