(* ===== verification/LinkedList.v ===== *)
(** * The doubly linked lists of list.h, and the wait list macros

    Models [src/list.h] and the macros [PTH_ELEMENT_INSERT] and
    [PTH_ELEMENT_DELETE] of [src/pth_tcb.c].  A list is a ring through a list
    head; [ring h w xs] says that the list with head [w] holds the nodes [xs]
    in order. *)

From S2P Require Import Prelude Dll.

Section list_h.
Context {A : Type} `{Countable A}.
Implicit Types (h : gmap A (link A)) (a b : A) (xs ys : list A).

(** [node->next = node->prev = node] *)
Definition lnode_init (node : option A) h : res (gmap A (link A)) :=
  h ← set_prev node node h;
  set_next node node h.

Definition __list_insert (e p n : option A) h : res (gmap A (link A)) :=
  h ← set_next e n h;
  h ← set_prev e p h;
  h ← set_next p e h;
  set_prev n e h.

(** Insert [e] between [w] and [w->next]. *)
Definition list_insert (e w : option A) h : res (gmap A (link A)) :=
  n ← get_next h w;
  __list_insert e w n h.

(** Insert [e] between [w->prev] and [w]. *)
Definition list_insert_tail (e w : option A) h : res (gmap A (link A)) :=
  p ← get_prev h w;
  __list_insert e p w h.

(** Insert the list [l] between [w] and [w->next]. *)
Definition list_insert_list (l w : option A) h : res (gmap A (link A)) :=
  ll ← get_prev h l;
  wn ← get_next h w;
  h ← set_next w l h;
  h ← set_prev l w h;
  h ← set_next ll wn h;
  set_prev wn ll h.

Definition __list_del (p n : option A) h : res (gmap A (link A)) :=
  h ← set_prev n p h;
  set_next p n h.

Definition list_del (e : option A) h : res (gmap A (link A)) :=
  p ← get_prev h e;
  n ← get_next h e;
  __list_del p n h.

Definition list_del_init (e : option A) h : res (gmap A (link A)) :=
  p ← get_prev h e;
  n ← get_next h e;
  h ← __list_del p n h;
  lnode_init e h.

Definition list_empty (e : option A) h : res bool :=
  n ← get_next h e; Ok (bool_decide (n = e)).

Definition list_node_is_tail (n f : option A) h : res bool :=
  x ← get_next h n; Ok (bool_decide (x = f)).

Definition list_next (lnode : option A) h : res (option A) := get_next h lnode.

(** [PTH_ELEMENT_INSERT(tq, all_tq)] *)
Definition pth_element_insert (tq all_tq : option A) h : res (gmap A (link A)) :=
  n ← get_next h all_tq;
  h ← set_next tq n h;
  h ← set_prev tq all_tq h;
  n ← get_next h all_tq;
  h ← set_prev n tq h;
  set_next all_tq tq h.

(** [PTH_ELEMENT_DELETE(tq)] *)
Definition pth_element_delete (tq : option A) h : res (gmap A (link A)) :=
  p ← get_prev h tq;
  n ← get_next h tq;
  h ← set_next p n h;
  n ← get_next h tq;
  p ← get_prev h tq;
  h ← set_prev n p h;
  set_next tq None h.

(** ** Fields after an operation *)

Lemma __list_insert_fields h e p n :
  is_Some (h !! e) -> is_Some (h !! p) -> is_Some (h !! n) -> e <> p -> e <> n ->
  exists h', __list_insert (Some e) (Some p) (Some n) h = Ok h' /\ inserted h h' e p n.
Proof.
  intros He Hp Hn Hep Hen. unfold __list_insert.
  do 4 link_write. eexists; split; [done|]. link_done.
Qed.

Lemma __list_del_fields h p n :
  is_Some (h !! p) -> is_Some (h !! n) ->
  exists h', __list_del (Some p) (Some n) h = Ok h' /\ unlinked h h' p n.
Proof.
  intros Hp Hn. unfold __list_del.
  do 2 link_write. eexists; split; [done|]. link_done.
Qed.

Lemma lnode_init_spec h a : is_Some (h !! a) ->
  exists h', lnode_init (Some a) h = Ok h' /\ ring h' a [] /\ same_dom h h' /\
    forall b, b <> a -> h' !! b = h !! b.
Proof.
  intros Ha. unfold lnode_init. do 2 link_write. eexists; split; [done|].
  split; [apply ring_singleton; link_fields; by case_decide|].
  split; [by same_dom_steps|]. intros. by link_frame.
Qed.

(** ** Operations on rings

    Each operation returns, keeps the set of mapped nodes, and leaves every
    node outside of the lists it is given alone. *)

Lemma list_insert_spec h w e xs :
  ring h w xs -> is_Some (h !! e) -> e ∉ w :: xs ->
  exists h', list_insert (Some e) (Some w) h = Ok h' /\ ring h' w (e :: xs) /\
    same_dom h h' /\ forall b, b ∉ e :: w :: xs -> h' !! b = h !! b.
Proof.
  intros Hr He Hnin. unfold list_insert.
  rewrite (get_next_spec _ _ _ (ring_next _ _ _ Hr)). simpl.
  pose proof (list_hd_elem xs w) as Hhd.
  destruct (__list_insert_fields h e w (hd w xs)) as (h' & -> & Hi);
    [done|eapply ring_mapped; set_solver|eapply ring_mapped; set_solver|set_solver..|].
  exists h'. split; [done|]. split; [by eapply ring_insert_after|].
  destruct Hi as (Hd & _ & _ & Hf). split; [done|].
  intros b Hb. apply Hf; set_solver.
Qed.

Lemma list_insert_tail_spec h w e xs :
  ring h w xs -> is_Some (h !! e) -> e ∉ w :: xs ->
  exists h', list_insert_tail (Some e) (Some w) h = Ok h' /\ ring h' w (xs ++ [e]) /\
    same_dom h h' /\ forall b, b ∉ e :: w :: xs -> h' !! b = h !! b.
Proof.
  intros Hr He Hnin. unfold list_insert_tail.
  rewrite (get_prev_spec _ _ _ (ring_prev _ _ _ Hr)). simpl.
  pose proof (list_last_elem xs w) as Hl.
  destruct (__list_insert_fields h e (List.last xs w) w) as (h' & -> & Hi);
    [done|eapply ring_mapped; set_solver|eapply ring_mapped; set_solver|set_solver..|].
  exists h'. split; [done|]. split; [by eapply ring_insert_before|].
  destruct Hi as (Hd & _ & _ & Hf). split; [done|].
  intros b Hb. apply Hf; set_solver.
Qed.

(** The neighbours of a member that is not the list head. *)
Lemma ring_neighbours h w xs e ys :
  ring h w (xs ++ e :: ys) ->
  nxt h e = Some (hd w ys) /\ prv h e = Some (List.last xs w).
Proof.
  intros Hr%ring_rotate. split.
  - rewrite (ring_next _ _ _ Hr). by destruct ys.
  - by rewrite (ring_prev _ _ _ Hr), list_last_app_cons.
Qed.

Lemma ring_neighbours_ne h w xs e ys :
  ring h w (xs ++ e :: ys) -> hd w ys <> e /\ List.last xs w <> e.
Proof.
  intros [Hnd _]. apply NoDup_cons in Hnd as [Hw (Hxs & Hx & [Hy _]%NoDup_cons)%NoDup_app].
  pose proof (list_hd_elem ys w). pose proof (list_last_elem xs w). set_solver.
Qed.

Lemma list_del_spec h w xs e ys :
  ring h w (xs ++ e :: ys) ->
  exists h', list_del (Some e) h = Ok h' /\ ring h' w (xs ++ ys) /\
    same_dom h h' /\ forall b, b = e \/ b ∉ w :: xs ++ ys -> h' !! b = h !! b.
Proof.
  intros Hr. unfold list_del.
  destruct (ring_neighbours _ _ _ _ _ Hr) as [Hn Hp].
  rewrite (get_prev_spec _ _ _ Hp). simpl. rewrite (get_next_spec _ _ _ Hn). simpl.
  pose proof (list_hd_elem ys w). pose proof (list_last_elem xs w).
  destruct (__list_del_fields h (List.last xs w) (hd w ys)) as (h' & -> & Hu);
    [eapply ring_mapped; set_solver|eapply ring_mapped; set_solver|].
  exists h'. split; [done|]. split; [by eapply ring_remove|].
  destruct Hu as (Hd & _ & _ & Hf). split; [done|].
  apply ring_neighbours_ne in Hr as [Hne1 Hne2].
  intros b [->|Hb]; apply Hf; set_solver.
Qed.

Lemma list_del_init_spec h w xs e ys :
  ring h w (xs ++ e :: ys) ->
  exists h', list_del_init (Some e) h = Ok h' /\ ring h' w (xs ++ ys) /\ ring h' e [] /\
    same_dom h h' /\ forall b, b ∉ w :: xs ++ e :: ys -> h' !! b = h !! b.
Proof.
  intros Hr. pose proof (list_del_spec h w xs e ys Hr) as (h1 & E & Hr1 & Hd1 & Hf1).
  unfold list_del_init. unfold list_del in E.
  destruct (get_prev h (Some e)) as [p|] eqn:Ep; [|done]. simpl in *.
  destruct (get_next h (Some e)) as [n|] eqn:En; [|done]. simpl in *. rewrite E. simpl.
  assert (e ∉ w :: xs ++ ys) as He.
  { apply ring_nodup in Hr. rewrite Permutation_middle in Hr.
    rewrite <- Permutation_middle in Hr. apply NoDup_cons in Hr as [Hw Hr].
    apply NoDup_app in Hr as (_ & Hx & [Hy _]%NoDup_cons). set_solver. }
  destruct (lnode_init_spec h1 e) as (h' & -> & Hr' & Hd' & Hf').
  { apply Hd1. eapply ring_mapped; [exact Hr|set_solver]. }
  exists h'. split; [done|]. split.
  { eapply ring_agree; [|exact Hr1]. intros b Hb. apply Hf'. set_solver. }
  split; [done|]. split; [by eapply same_dom_trans|].
  intros b Hb. rewrite Hf' by set_solver. apply Hf1. set_solver.
Qed.

Lemma list_empty_spec h w xs : ring h w xs ->
  list_empty (Some w) h = Ok (bool_decide (xs = [])).
Proof.
  intros Hr. unfold list_empty. rewrite (get_next_spec _ _ _ (ring_next _ _ _ Hr)). simpl.
  f_equal. apply bool_decide_ext. destruct xs as [|x xs]; simpl; [done|].
  apply ring_nodup in Hr as [Hw _]%NoDup_cons. set_solver.
Qed.

Lemma list_insert_list_spec h w xs l ls :
  ring h w xs -> ring h l ls -> (forall b, b ∈ l :: ls -> b ∉ w :: xs) ->
  exists h', list_insert_list (Some l) (Some w) h = Ok h' /\
    ring h' w (l :: ls ++ xs) /\ same_dom h h' /\
    forall b, b ∉ w :: xs -> b ∉ l :: ls -> h' !! b = h !! b.
Proof.
  intros Hw Hl Hdisj. unfold list_insert_list.
  rewrite (get_prev_spec _ _ _ (ring_prev _ _ _ Hl)). simpl.
  rewrite (get_next_spec _ _ _ (ring_next _ _ _ Hw)). simpl.
  pose proof (list_last_elem ls l) as Hll. pose proof (list_hd_elem xs w) as Hhd.
  assert (is_Some (h !! w)) by (eapply ring_mapped; [exact Hw|set_solver]).
  assert (is_Some (h !! l)) by (eapply ring_mapped; [exact Hl|set_solver]).
  assert (is_Some (h !! List.last ls l)) by (eapply ring_mapped; [exact Hl|done]).
  assert (is_Some (h !! hd w xs)) by (eapply ring_mapped; [exact Hw|done]).
  do 4 link_write. eexists; split; [done|].
  split; [|split; [by same_dom_steps|]].
  - eapply ring_splice; [exact Hw|exact Hl|done|..]; intros b; link_fields;
      repeat case_decide; try congruence; set_solver.
  - intros b Hb1 Hb2. assert (b <> w /\ b <> l /\ b <> List.last ls l /\ b <> hd w xs)
      as (? & ? & ? & ?) by set_solver. by link_frame.
Qed.

Lemma pth_element_insert_spec h w e xs :
  ring h w xs -> is_Some (h !! e) -> e ∉ w :: xs ->
  exists h', pth_element_insert (Some e) (Some w) h = Ok h' /\ ring h' w (e :: xs) /\
    same_dom h h' /\ forall b, b ∉ e :: w :: xs -> h' !! b = h !! b.
Proof.
  intros Hr He Hnin. unfold pth_element_insert.
  pose proof (ring_next _ _ _ Hr) as Hn. rewrite (get_next_spec _ _ _ Hn). simpl.
  pose proof (list_hd_elem xs w) as Hhd. assert (e <> w) by set_solver.
  assert (e <> hd w xs) by set_solver.
  assert (is_Some (h !! w)) by (eapply ring_mapped; set_solver).
  assert (is_Some (h !! hd w xs)) by (eapply ring_mapped; set_solver).
  do 2 link_write.
  rewrite (get_next_spec _ w (hd w xs)) by (link_fields; by repeat case_decide). simpl.
  do 2 link_write. eexists; split; [done|].
  assert (inserted h h3 e w (hd w xs)) as Hi by link_done.
  split; [by eapply ring_insert_after|]. destruct Hi as (Hd' & _ & _ & Hf').
  split; [done|]. intros b Hb. apply Hf'; set_solver.
Qed.

(** The element is taken out of its list and its [next] field, by which
    other code recognises a waiting thread, is cleared. *)
Lemma pth_element_delete_spec h w xs e ys :
  ring h w (xs ++ e :: ys) ->
  exists h', pth_element_delete (Some e) h = Ok h' /\ ring h' w (xs ++ ys) /\
    nxt h' e = None /\ same_dom h h' /\
    forall b, b ∉ w :: xs ++ e :: ys -> h' !! b = h !! b.
Proof.
  intros Hr. unfold pth_element_delete.
  destruct (ring_neighbours _ _ _ _ _ Hr) as [Hn Hp].
  destruct (ring_neighbours_ne _ _ _ _ _ Hr) as [Hne1 Hne2].
  rewrite (get_prev_spec _ _ _ Hp). simpl. rewrite (get_next_spec _ _ _ Hn). simpl.
  pose proof (list_hd_elem ys w). pose proof (list_last_elem xs w).
  assert (is_Some (h !! List.last xs w)) by (eapply ring_mapped; set_solver).
  assert (is_Some (h !! hd w ys)) by (eapply ring_mapped; set_solver).
  assert (is_Some (h !! e)) by (eapply ring_mapped; set_solver).
  link_write.
  rewrite (get_next_spec _ e (hd w ys)) by (link_fields; by case_decide). simpl.
  rewrite (get_prev_spec _ e (List.last xs w)) by (by link_fields). simpl.
  link_write.
  assert (unlinked h h1 (List.last xs w) (hd w ys)) as Hu by link_done.
  link_write. eexists; split; [done|].
  split; [|split; [link_fields; by case_decide|split; [by same_dom_steps|]]].
  - eapply ring_agree; [|by eapply ring_remove].
    intros b Hb. rewrite Hf1; [done|].
    apply ring_nodup in Hr. apply NoDup_cons in Hr as [Hw (_ & Hx & [Hy _]%NoDup_cons)%NoDup_app].
    set_solver.
  - intros b Hb. assert (b <> e /\ b <> hd w ys /\ b <> List.last xs w)
      as (? & ? & ?) by set_solver. by link_frame.
Qed.
End list_h.
