(* ===== verification/Ring.v ===== *)
(** * The ring data structure of pth_ring.c

    A ring is a hook (the first node, or NULL) and a node count; the nodes
    carry the links.  [rng r h xs] says that the ring [r] holds the nodes [xs]
    in order, starting at its hook. *)

From S2P Require Import Prelude Dll LinkedList.

Record pth_ring_t (A : Type) : Type := Ring { r_hook : option A; r_nodes : Z }.
Arguments Ring {A} r_hook r_nodes.
Arguments r_hook {A} _.
Arguments r_nodes {A} _.

Section ring.
Context {A : Type} `{Countable A}.
Implicit Types (h : gmap A (link A)) (r : pth_ring_t A) (a b : A) (xs ys : list A).
Abbreviation st := (pth_ring_t A * gmap A (link A))%type.

Definition pth_ring_init : pth_ring_t A := Ring None 0.

Definition pth_ring_elements r : Z := r_nodes r.
Definition pth_ring_first r : option A := r_hook r.

Definition pth_ring_last r h : res (option A) :=
  match r_hook r with None => Ok None | hook => get_prev h hook end.

Definition pth_ring_next r h (rn : option A) : res (option A) :=
  n ← get_next h rn;
  Ok (if bool_decide (n = r_hook r) then None else n).

Definition pth_ring_prev r h (rn : option A) : res (option A) :=
  p ← get_prev h rn;
  l ← get_prev h (r_hook r);
  Ok (if bool_decide (p = l) then None else p).

(** [r->r_nodes++] and [r->r_nodes--] on an [unsigned int] *)
Definition nodes_inc r : pth_ring_t A := Ring (r_hook r) (wrap 32 (r_nodes r + 1)).
Definition nodes_dec r : pth_ring_t A := Ring (r_hook r) (wrap 32 (r_nodes r - 1)).

Definition pth_ring_insert_after (rn1 rn2 : option A) (s : st) : res st :=
  let '(r, h) := s in
  h ← set_prev rn2 rn1 h;
  n ← get_next h rn1;
  h ← set_next rn2 n h;
  p ← get_prev h rn2;
  h ← set_next p rn2 h;
  n ← get_next h rn2;
  h ← set_prev n rn2 h;
  Ok (nodes_inc r, h).

Definition pth_ring_insert_before (rn1 rn2 : option A) (s : st) : res st :=
  let '(r, h) := s in
  h ← set_next rn2 rn1 h;
  p ← get_prev h rn1;
  h ← set_prev rn2 p h;
  p ← get_prev h rn2;
  h ← set_next p rn2 h;
  n ← get_next h rn2;
  h ← set_prev n rn2 h;
  Ok (nodes_inc r, h).

Definition pth_ring_delete (rn : option A) (s : st) : res st :=
  let '(r, h) := s in
  p ← get_prev h rn;
  n ← get_next h rn;
  if bool_decide (r_hook r = rn) && bool_decide (p = rn) && bool_decide (n = rn)
  then Ok (nodes_dec (Ring None (r_nodes r)), h)
  else
    let r := if bool_decide (r_hook r = rn) then Ring n (r_nodes r) else r in
    h ← set_next p n h;
    n ← get_next h rn;
    p ← get_prev h rn;
    h ← set_prev n p h;
    Ok (nodes_dec r, h).

(** The four writes that link [rn] in before the hook, shared by
    [pth_ring_prepend] and [pth_ring_append]. *)
Definition link_before_hook (rn : option A) r h : res (gmap A (link A)) :=
  h ← set_next rn (r_hook r) h;
  p ← get_prev h (r_hook r);
  h ← set_prev rn p h;
  n ← get_next h rn;
  h ← set_prev n rn h;
  p ← get_prev h rn;
  set_next p rn h.

(** As written: the hook is replaced before it is tested. *)
Definition pth_ring_prepend (rn : option A) (s : st) : res st :=
  let '(r, h) := s in
  let r := Ring rn (r_nodes r) in
  match r_hook r with
  | None =>
      h ← set_next rn rn h;
      h ← set_prev rn rn h;
      Ok (nodes_inc r, h)
  | Some _ =>
      h ← link_before_hook rn r h;
      Ok (nodes_inc r, h)
  end.

Definition pth_ring_append (rn : option A) (s : st) : res st :=
  let '(r, h) := s in
  match r_hook r with
  | None =>
      let r := Ring rn (r_nodes r) in
      h ← set_next rn rn h;
      h ← set_prev rn rn h;
      Ok (nodes_inc r, h)
  | Some _ =>
      h ← link_before_hook rn r h;
      Ok (nodes_inc r, h)
  end.

Definition pth_ring_pop (s : st) : res (option A * st) :=
  match pth_ring_first s.1 with
  | None => Ok (None, s)
  | rn => s ← pth_ring_delete rn s; Ok (rn, s)
  end.

Definition pth_ring_dequeue (s : st) : res (option A * st) :=
  rn ← pth_ring_last s.1 s.2;
  match rn with
  | None => Ok (None, s)
  | rn => s ← pth_ring_delete rn s; Ok (rn, s)
  end.

Definition pth_ring_favorite (rn : option A) (s : st) : res (bool * st) :=
  if bool_decide (r_hook s.1 = None) then Ok (false, s)
  else if bool_decide (r_hook s.1 = rn) then Ok (true, s)
  else
    s ← pth_ring_delete rn s;
    s ← pth_ring_prepend rn s;
    Ok (true, s).

(** The [do ... while (rn != r->r_hook)] of [pth_ring_contains]. *)
Fixpoint ring_search (fuel : nat) (rn rns hook : option A) h : res bool :=
  match fuel with
  | O => Err Stuck
  | S fuel =>
      if bool_decide (rn = rns) then Ok true
      else
        n ← get_next h rn;
        if bool_decide (n = hook) then Ok false
        else ring_search fuel n rns hook h
  end.

Definition pth_ring_contains (fuel : nat) r h (rns : option A) : res bool :=
  match r_hook r with
  | None => Ok false
  | hook => ring_search fuel hook rns hook h
  end.

#[local] Arguments pth_ring_delete _ _ : simpl never.

(** ** Specification *)

Definition rng r h xs : Prop :=
  r_nodes r = Z.of_nat (length xs) /\ Z.of_nat (length xs) < 2 ^ 32 /\
  match xs with
  | [] => r_hook r = None
  | a :: ys => r_hook r = Some a /\ ring h a ys
  end.

Lemma rng_init h : rng pth_ring_init h [].
Proof. done. Qed.

Lemma rng_nodup r h xs : rng r h xs -> NoDup xs.
Proof.
  intros (_ & _ & Hr). destruct xs as [|a ys]; [constructor|]. by apply Hr.
Qed.

Lemma rng_agree r h h' xs :
  (forall b, b ∈ xs -> h' !! b = h !! b) -> rng r h xs -> rng r h' xs.
Proof.
  intros Hag (H1 & H2 & Hr). split; [done|]. split; [done|].
  destruct xs as [|a ys]; [done|]. destruct Hr as [? Hr]. split; [done|]. by eapply ring_agree.
Qed.

Lemma nodes_inc_eq r n : r_nodes r = Z.of_nat n -> Z.of_nat n + 1 < 2 ^ 32 ->
  r_nodes (nodes_inc r) = Z.of_nat (S n).
Proof. intros E Hn. simpl. rewrite E, wrap_small; lia. Qed.

Lemma nodes_dec_eq r n : r_nodes r = Z.of_nat (S n) -> Z.of_nat (S n) < 2 ^ 32 ->
  r_nodes (nodes_dec r) = Z.of_nat n.
Proof. intros E Hn. simpl. rewrite E, wrap_small; lia. Qed.

(** ** Linking and unlinking *)

Lemma link_before_hook_fields r h a ys e :
  r_hook r = Some a -> ring h a ys -> is_Some (h !! e) -> e ∉ a :: ys ->
  exists h', link_before_hook (Some e) r h = Ok h' /\
    inserted h h' e (List.last ys a) a.
Proof.
  intros Hhook Hr He Hnin. unfold link_before_hook. rewrite Hhook.
  pose proof (ring_prev _ _ _ Hr) as Hp. pose proof (list_last_elem ys a) as Hl.
  assert (is_Some (h !! a)) by (eapply ring_mapped; [done|set_solver]).
  assert (is_Some (h !! List.last ys a)) by (eapply ring_mapped; [done|done]).
  assert (e <> a /\ e <> List.last ys a) as [? ?] by set_solver.
  link_write.
  rewrite (get_prev_spec _ a (List.last ys a)) by (link_fields; done). simpl.
  link_write.
  rewrite (get_next_spec _ e a) by (link_fields; by case_decide). simpl.
  link_write.
  rewrite (get_prev_spec _ e (List.last ys a)) by (link_fields; by repeat case_decide). simpl.
  link_write. eexists; split; [done|]. link_done.
Qed.

Lemma pth_ring_append_spec r h xs e :
  rng r h xs -> is_Some (h !! e) -> e ∉ xs -> Z.of_nat (length xs) + 1 < 2 ^ 32 ->
  exists r' h', pth_ring_append (Some e) (r, h) = Ok (r', h') /\
    rng r' h' (xs ++ [e]) /\ same_dom h h' /\
    forall b, b ∉ e :: xs -> h' !! b = h !! b.
Proof.
  intros (Hn & Hlt & Hr) He Hnin Hlen. unfold pth_ring_append.
  destruct xs as [|a ys].
  - rewrite Hr. do 2 link_write. eexists _, _; split; [done|].
    split; [|split; [by same_dom_steps|]].
    + split; [by apply nodes_inc_eq|]. split; [done|]. split; [done|].
      apply ring_singleton; link_fields; by case_decide.
    + intros b Hb. assert (b <> e) by set_solver. by link_frame.
  - destruct Hr as [Hhook Hr]. rewrite Hhook.
    destruct (link_before_hook_fields r h a ys e) as (h' & -> & Hi); [done..|]. simpl.
    eexists _, _; split; [done|]. split; [|split; [apply Hi|]].
    + unfold rng.
      assert (length (a :: ys ++ [e]) = S (length (a :: ys))) as ->
        by (simpl; rewrite length_app; simpl; lia).
      split; [by apply nodes_inc_eq|]. split; [lia|].
      split; [done|]. by eapply ring_insert_before.
    + intros b Hb. pose proof (list_last_elem ys a). apply Hi; set_solver.
Qed.

(** [pth_ring_insert_before] links a node in before any member. *)
Lemma pth_ring_insert_before_fields r h a ys e :
  ring h a ys -> is_Some (h !! e) -> e ∉ a :: ys ->
  exists h', pth_ring_insert_before (Some a) (Some e) (r, h) = Ok (nodes_inc r, h') /\
    inserted h h' e (List.last ys a) a.
Proof.
  intros Hr He Hnin. unfold pth_ring_insert_before.
  pose proof (ring_prev _ _ _ Hr) as Hp. pose proof (list_last_elem ys a) as Hl.
  assert (is_Some (h !! a)) by (eapply ring_mapped; [done|set_solver]).
  assert (is_Some (h !! List.last ys a)) by (eapply ring_mapped; [done|done]).
  assert (e <> a /\ e <> List.last ys a) as [? ?] by set_solver.
  link_write.
  rewrite (get_prev_spec _ a (List.last ys a)) by (link_fields; done). simpl.
  link_write.
  rewrite (get_prev_spec _ e (List.last ys a)) by (link_fields; by case_decide). simpl.
  link_write.
  rewrite (get_next_spec _ e a) by (link_fields; by repeat case_decide). simpl.
  link_write. eexists; split; [done|]. link_done.
Qed.

Lemma pth_ring_insert_after_fields r h a ys e :
  ring h a ys -> is_Some (h !! e) -> e ∉ a :: ys ->
  exists h', pth_ring_insert_after (Some a) (Some e) (r, h) = Ok (nodes_inc r, h') /\
    inserted h h' e a (hd a ys).
Proof.
  intros Hr He Hnin. unfold pth_ring_insert_after.
  pose proof (ring_next _ _ _ Hr) as Hp. pose proof (list_hd_elem ys a) as Hl.
  assert (is_Some (h !! a)) by (eapply ring_mapped; [done|set_solver]).
  assert (is_Some (h !! hd a ys)) by (eapply ring_mapped; [done|done]).
  assert (e <> a /\ e <> hd a ys) as [? ?] by set_solver.
  link_write.
  rewrite (get_next_spec _ a (hd a ys)) by (link_fields; done). simpl.
  link_write.
  rewrite (get_prev_spec _ e a) by (link_fields; by repeat case_decide). simpl.
  link_write.
  rewrite (get_next_spec _ e (hd a ys)) by (link_fields; by repeat case_decide). simpl.
  link_write. eexists; split; [done|]. link_done.
Qed.

(** Unlinking a member that is not alone. *)
Lemma pth_ring_delete_fields r h e x ys :
  ring h e (x :: ys) ->
  exists h', pth_ring_delete (Some e) (r, h) =
      Ok (nodes_dec (if bool_decide (r_hook r = Some e)
                     then Ring (Some x) (r_nodes r) else r), h') /\
    unlinked h h' (List.last ys x) x.
Proof.
  intros Hr. unfold pth_ring_delete.
  pose proof (ring_next _ _ _ Hr) as Hn. pose proof (ring_prev _ _ _ Hr) as Hp.
  rewrite list_last_cons in Hp. simpl in Hn.
  rewrite (get_prev_spec _ _ _ Hp). simpl. rewrite (get_next_spec _ _ _ Hn). simpl.
  pose proof (list_last_elem ys x) as Hl.
  pose proof (ring_nodup _ _ _ Hr) as [Hne _]%NoDup_cons.
  assert (x <> e /\ List.last ys x <> e) as [? ?] by set_solver.
  assert (is_Some (h !! x)) by (eapply ring_mapped; [done|set_solver]).
  assert (is_Some (h !! List.last ys x)) by (eapply ring_mapped; [done|set_solver]).
  rewrite (bool_decide_eq_false_2 (Some x = Some e)), andb_false_r by congruence.
  link_write.
  rewrite (get_next_spec _ e x) by (link_fields; by case_decide). simpl.
  rewrite (get_prev_spec _ e (List.last ys x)) by (by link_fields). simpl.
  link_write. eexists; split; [by repeat case_bool_decide|]. link_done.
Qed.

Lemma pth_ring_delete_spec r h xs e ys :
  rng r h (xs ++ e :: ys) ->
  exists r' h', pth_ring_delete (Some e) (r, h) = Ok (r', h') /\
    rng r' h' (xs ++ ys) /\ same_dom h h' /\
    forall b, b = e \/ b ∉ xs ++ ys -> h' !! b = h !! b.
Proof.
  intros Hrng. pose proof (rng_nodup _ _ _ Hrng) as Hnd. destruct Hrng as (Hn & Hlt & Hr).
  assert (length (xs ++ e :: ys) = S (length (xs ++ ys))) as Hlen.
  { rewrite !length_app. simpl. lia. }
  rewrite Hlen in Hn, Hlt.
  assert (forall hook, r_nodes (nodes_dec (Ring hook (r_nodes r))) = Z.of_nat (length (xs ++ ys)))
    as Hcnt by (intros; by apply nodes_dec_eq).
  apply NoDup_app in Hnd as (_ & Hx & [Hy _]%NoDup_cons).
  destruct xs as [|a xs]; [destruct ys as [|x ys]|]; simpl in Hr; destruct Hr as [Hhook Hr].
  - unfold pth_ring_delete.
    rewrite (get_prev_spec _ _ _ (ring_prev _ _ _ Hr)). simpl.
    rewrite (get_next_spec _ _ _ (ring_next _ _ _ Hr)). simpl.
    rewrite Hhook, !bool_decide_eq_true_2 by done. simpl.
    eexists _, _; split; [done|]. split; [|done]. split; [apply (Hcnt None)|].
    split; [simpl in *; lia|done].
  - destruct (pth_ring_delete_fields r h e x ys Hr) as (h' & -> & Hu).
    rewrite bool_decide_eq_true_2 by done. eexists _, _; split; [done|].
    pose proof (list_last_elem ys x). split; [|split; [apply Hu|]].
    + split; [apply (Hcnt (Some x))|]. split; [lia|]. split; [done|].
      by eapply ring_unlink.
    + intros b Hb. apply Hu; set_solver.
  - apply ring_rotate in Hr.
    assert (exists y zs, ys ++ a :: xs = y :: zs /\ List.last zs y = List.last xs a /\
              y = hd a ys) as (y & zs & Hzs & Hlast & Hy').
    { destruct ys as [|y ys]; simpl; eauto 6.
      exists y, (ys ++ a :: xs). by rewrite list_last_app_cons. }
    rewrite Hzs in Hr.
    destruct (pth_ring_delete_fields r h e y zs Hr) as (h' & -> & Hu).
    rewrite bool_decide_eq_false_2 by (rewrite Hhook; set_solver).
    eexists _, _; split; [done|]. rewrite Hlast in Hu. subst y.
    pose proof (list_last_elem xs a). pose proof (list_hd_elem ys a).
    split; [|split; [apply Hu|]].
    + split; [apply (Hcnt None)|]. split; [lia|].
      split; [done|]. rewrite <- Hzs in Hr. apply ring_rotate in Hr.
      by eapply ring_remove.
    + intros b Hb. apply Hu; set_solver.
Qed.

Lemma pth_ring_pop_spec r h a ys :
  rng r h (a :: ys) ->
  exists r' h', pth_ring_pop (r, h) = Ok (Some a, (r', h')) /\ rng r' h' ys /\
    same_dom h h' /\ forall b, b ∉ ys -> h' !! b = h !! b.
Proof.
  intros Hrng. destruct (pth_ring_delete_spec r h [] a ys Hrng) as (r' & h' & E & Hr' & Hd & Hf).
  unfold pth_ring_pop, pth_ring_first. simpl.
  destruct Hrng as (_ & _ & Hhook & _). rewrite Hhook, E. simpl. eauto 10.
Qed.

Lemma pth_ring_pop_empty r h : rng r h [] -> pth_ring_pop (r, h) = Ok (None, (r, h)).
Proof. intros (_ & _ & E). unfold pth_ring_pop, pth_ring_first. simpl. by rewrite E. Qed.

Lemma pth_ring_dequeue_spec r h xs e :
  rng r h (xs ++ [e]) ->
  exists r' h', pth_ring_dequeue (r, h) = Ok (Some e, (r', h')) /\ rng r' h' xs /\
    same_dom h h' /\ forall b, b ∉ xs -> h' !! b = h !! b.
Proof.
  intros Hrng. destruct (pth_ring_delete_spec r h xs e [] Hrng) as (r' & h' & E & Hr' & Hd & Hf).
  rewrite app_nil_r in *.
  assert (pth_ring_last r h = Ok (Some e)) as El.
  { destruct Hrng as (_ & _ & Hr). unfold pth_ring_last.
    destruct xs as [|a xs]; simpl in Hr; destruct Hr as [-> Hr];
      rewrite (get_prev_spec _ _ _ (ring_prev _ _ _ Hr)); [done|].
    by rewrite List.last_last. }
  unfold pth_ring_dequeue. simpl. rewrite El. simpl. rewrite E. simpl. eauto 10.
Qed.
End ring.

Section ring_results.
Context {A : Type} `{Countable A}.
Implicit Types (h : gmap A (link A)) (r : pth_ring_t A) (e : A) (xs : list A).

(** The search loop looks at the members from [a] on, and stops. *)
Lemma ring_search_spec h hook xs a e fuel :
  chain h a xs hook -> hook ∉ xs -> (length xs < fuel)%nat ->
  ring_search fuel (Some a) (Some e) (Some hook) h = Ok (bool_decide (e ∈ a :: xs)).
Proof.
  revert a fuel. induction xs as [|x xs IH]; intros a [|fuel] Hc Hhook Hf; simpl in Hf; try lia;
    simpl; case_bool_decide as E.
  - rewrite bool_decide_eq_true_2; [done|set_solver].
  - simpl in Hc. rewrite (get_next_spec _ _ _ (proj1 Hc)). simpl.
    rewrite bool_decide_eq_true_2 by done. f_equal. symmetry. apply bool_decide_eq_false_2.
    set_solver.
  - rewrite bool_decide_eq_true_2; [done|set_solver].
  - destruct Hc as [[Hc _] Hc']. rewrite (get_next_spec _ _ _ Hc). simpl.
    rewrite bool_decide_eq_false_2 by set_solver.
    rewrite IH by (set_solver || lia). f_equal. apply bool_decide_ext. set_solver.
Qed.

Lemma pth_ring_contains_spec r h xs e fuel :
  rng r h xs -> (length xs <= fuel)%nat ->
  pth_ring_contains fuel r h (Some e) = Ok (bool_decide (e ∈ xs)).
Proof.
  intros (_ & _ & Hr) Hf. unfold pth_ring_contains.
  destruct xs as [|a ys]; [by rewrite Hr|]. destruct Hr as [-> [Hnd Hc]].
  apply NoDup_cons in Hnd as [Ha _].
  rewrite (ring_search_spec _ _ ys) by (simpl in Hf; done || lia). done.
Qed.

(** [pth_ring_prepend] on any ring leaves a ring of the new node alone. *)
Lemma pth_ring_prepend_result r h e :
  is_Some (h !! e) ->
  exists r' h', pth_ring_prepend (Some e) (r, h) = Ok (r', h') /\
    r_hook r' = Some e /\ ring h' e [] /\ r_nodes r' = wrap 32 (r_nodes r + 1).
Proof.
  intros He. unfold pth_ring_prepend, link_before_hook. simpl.
  link_write.
  assert (exists p, get_prev h0 (Some e) = Ok p) as [p ->].
  { unfold get_prev, deref. destruct (proj2 (Hd e) He) as [l ->]. simpl. eauto. }
  simpl. link_write.
  rewrite (get_next_spec _ e e) by (link_fields; by case_decide). simpl.
  link_write.
  rewrite (get_prev_spec _ e e) by (link_fields; by case_decide). simpl.
  link_write. eexists _, _; split; [done|]. split; [done|]. split; [|done].
  apply ring_singleton; link_fields; by case_decide.
Qed.
End ring_results.

(** [pth_ring_prepend] stores the new node in the hook before it links it
    in, so the node is linked to itself: afterwards none of the previous
    members is found in the ring any more, while the count says they are. *)
Theorem pth_ring_prepend_loses_members {A} `{Countable A} (r : pth_ring_t A) h xs e x fuel :
  rng r h xs -> is_Some (h !! e) -> e ∉ xs -> x ∈ xs -> Z.of_nat (length xs) + 1 < 2 ^ 32 ->
  exists r' h', pth_ring_prepend (Some e) (r, h) = Ok (r', h') /\
    pth_ring_contains (S fuel) r' h' (Some x) = Ok false /\
    pth_ring_elements r' = Z.of_nat (length xs) + 1.
Proof.
  intros (Hn & _ & _) He Hex Hx Hlen.
  destruct (pth_ring_prepend_result r h e He) as (r' & h' & E & Hh & Hr & Hc).
  exists r', h'. split; [done|]. split.
  - unfold pth_ring_contains. rewrite Hh. destruct Hr as [_ Hr].
    rewrite (ring_search_spec h' e [] e x (S fuel)); [|done|set_solver|simpl; lia].
    f_equal. apply bool_decide_eq_false_2. set_solver.
  - unfold pth_ring_elements. rewrite Hc, Hn, wrap_small; lia.
Qed.

Lemma pth_ring_prepend_loses_members_witness :
  exists r' h', pth_ring_prepend (Some 2) (Ring (Some 1) 1,
      <[1 := Link (Some 1) (Some 1)]> (<[2 := Link None None]> ∅)) = Ok (r', h') /\
    pth_ring_contains 1 r' h' (Some 1) = Ok false /\ pth_ring_elements r' = 2.
Proof.
  apply (pth_ring_prepend_loses_members (Ring (Some 1) 1)
    (<[1 := Link (Some 1) (Some 1)]> (<[2 := Link None None]> ∅)) [1] 2 1 0).
  - split; [reflexivity|]. split; [reflexivity|]. split; [reflexivity|].
    apply ring_singleton; reflexivity.
  - exists (Link None None). reflexivity.
  - set_solver.
  - set_solver.
  - reflexivity.
Defined.
