(* ===== verification/Priorities.v ===== *)
(** * Thread priorities (priorities.h)

    External priorities are what the user sees (a policy and a number),
    internal ones are the flat scale the queues are indexed by.  [errno] is
    passed explicitly: each function returns its value and the new [errno]. *)

From S2P Require Import Prelude.

Definition EINVAL : Z := 22.

Definition SCHED_OTHER : Z := 0.
Definition SCHED_FIFO : Z := 1.
Definition SCHED_RR : Z := 2.
Definition SCHED_INTERNAL : Z := 3.
Definition XPRIO_DEFAULT : Z := 20.
Definition IPRIO_MAX : Z := 140.
Definition IPRIO_MIN : Z := 0.

Record priority_bounds_s : Set := Bounds { b_min : Z; b_max : Z }.

Definition priority_bounds : list priority_bounds_s :=
  [ Bounds 0 41; Bounds 1 99; Bounds 1 99; Bounds IPRIO_MIN IPRIO_MAX ].

(** [priority_bounds[i]]; the callers only use indices of the array. *)
Definition pbounds (i : Z) : priority_bounds_s :=
  default (Bounds 0 0) (priority_bounds !! Z.to_nat i).

(** The three cases of the [switch] statements. *)
Definition is_policy (sched_policy : Z) : bool :=
  bool_decide (sched_policy = SCHED_OTHER) || bool_decide (sched_policy = SCHED_FIFO)
  || bool_decide (sched_policy = SCHED_RR).

Definition xprio_get_min (sched_policy errno : Z) : Z * Z :=
  if is_policy sched_policy then (b_min (pbounds sched_policy), errno) else (-1, EINVAL).

Definition xprio_get_max (sched_policy errno : Z) : Z * Z :=
  if is_policy sched_policy then (b_max (pbounds sched_policy), errno) else (-1, EINVAL).

Definition iprio_to_xprio (sched_policy internal_prio errno : Z) : Z * Z :=
  if bool_decide (sched_policy = SCHED_OTHER) then (internal_prio, errno)
  else if bool_decide (sched_policy = SCHED_FIFO) || bool_decide (sched_policy = SCHED_RR)
  then (internal_prio - b_max (pbounds SCHED_OTHER), errno)
  else (-1, EINVAL).

Definition xprio_to_iprio (sched_policy external_prio errno : Z) : Z * Z :=
  if bool_decide (sched_policy = SCHED_OTHER) then (external_prio, errno)
  else if bool_decide (sched_policy = SCHED_FIFO) || bool_decide (sched_policy = SCHED_RR)
  then (external_prio + b_max (pbounds SCHED_OTHER), errno)
  else (-1, EINVAL).

(** The second bound is only computed when the first comparison fails. *)
Definition prio_validate (sched_policy external_prio errno : Z) : Z * Z :=
  let '(lo, errno) := xprio_get_min sched_policy errno in
  if bool_decide (external_prio < lo) then (-1, EINVAL)
  else
    let '(hi, errno) := xprio_get_max sched_policy errno in
    if bool_decide (external_prio > hi) then (-1, EINVAL) else (0, errno).

Definition xprio_get_default (sched_policy errno : Z) : Z * Z :=
  if is_policy sched_policy
  then (Z.quot (b_max (pbounds sched_policy) - b_min (pbounds sched_policy)) 2, errno)
  else (-1, EINVAL).

Definition iprio_get_default (sched_policy errno : Z) : Z * Z :=
  let '(x, errno) := xprio_get_default sched_policy errno in
  xprio_to_iprio sched_policy x errno.

(** ** Results *)

(** The policies that have external priorities. *)
Definition policy (p : Z) : Prop := p = SCHED_OTHER \/ p = SCHED_FIFO \/ p = SCHED_RR.


Lemma prio_validate_iff p x e : policy p ->
  (prio_validate p x e).1 = 0 <-> b_min (pbounds p) <= x <= b_max (pbounds p).
Proof.
  intros [->|[->| ->]]; unfold prio_validate; simpl; repeat case_bool_decide; simpl; lia.
Qed.

Lemma prio_validate_errno p x e : policy p ->
  prio_validate p x e = if bool_decide (b_min (pbounds p) <= x <= b_max (pbounds p))
                        then (0, e) else (-1, EINVAL).
Proof.
  intros [->|[->| ->]]; unfold prio_validate; simpl; repeat case_bool_decide; simpl; lia || done.
Qed.

(** A priority that [prio_validate] accepts for its policy survives the
    way to the internal scale and back, its internal value lies between
    [IPRIO_MIN] and [IPRIO_MAX], and real-time threads (FIFO and RR) rank
    strictly above every valid priority of the OTHER policy. *)
Theorem xprio_iprio_roundtrip (p x y e : Z) :
  policy p -> (prio_validate p x e).1 = 0 -> (prio_validate SCHED_OTHER y e).1 = 0 ->
  let i := (xprio_to_iprio p x e).1 in
  iprio_to_xprio p i e = (x, e) /\ IPRIO_MIN <= i <= IPRIO_MAX /\
  (p <> SCHED_OTHER -> (xprio_to_iprio SCHED_OTHER y e).1 < i).
Proof.
  intros Hp Hx%(prio_validate_iff _ _ _ Hp) Hy. simpl.
  apply prio_validate_iff in Hy; [|by left].
  unfold IPRIO_MIN, IPRIO_MAX.
  destruct Hp as [->|[->| ->]]; unfold iprio_to_xprio, xprio_to_iprio; simpl in *.
  - split; [done|]. split; [lia|done].
  - split; [f_equal; lia|]. split; lia.
  - split; [f_equal; lia|]. split; lia.
Qed.

Lemma xprio_iprio_roundtrip_witness :
  let i := (xprio_to_iprio SCHED_RR 99 0).1 in
  i = 140 /\ iprio_to_xprio SCHED_RR i 0 = (99, 0) /\ IPRIO_MIN <= i <= IPRIO_MAX /\
  (SCHED_RR <> SCHED_OTHER -> (xprio_to_iprio SCHED_OTHER 41 0).1 < i).
Proof.
  split; [reflexivity|].
  apply (xprio_iprio_roundtrip SCHED_RR 99 41 0); [right; right; reflexivity|reflexivity..].
Defined.

(** [prio_validate], whose comment offers [SCHED_INTERNAL] for validating
    internal and effective priorities, rejects every one of them: the bounds
    functions do not know that policy and answer -1 for both ends. *)
Theorem prio_validate_internal_rejects (x e : Z) :
  IPRIO_MIN <= x <= IPRIO_MAX -> prio_validate SCHED_INTERNAL x e = (-1, EINVAL).
Proof.
  unfold IPRIO_MIN, IPRIO_MAX. intros Hx.
  unfold prio_validate. simpl. repeat case_bool_decide; lia || done.
Qed.

Lemma prio_validate_internal_rejects_witness :
  prio_validate SCHED_INTERNAL 70 0 = (-1, EINVAL).
Proof. apply prio_validate_internal_rejects. unfold IPRIO_MIN, IPRIO_MAX. lia. Defined.

Lemma iprio_default_in_range p e : policy p ->
  0 <= (iprio_get_default p e).1 < IPRIO_MAX.
Proof. intros [->|[->| ->]]; vm_compute; split; congruence || done. Qed.
