(* ===== verification/PQueue.v ===== *)
(** * O(1) priority queues (node.h, pqueue.h)

    A [struct pqueue_st] is an array of 140 list heads, one per internal
    priority, a total, the bitmap that finds the highest non-empty list, and a
    spin lock.  A thread is in a queue through the [struct node_st] it embeds,
    which also holds a back pointer to the queue and its priority.

    The memory of the model has one store per kind of object: the links (list
    heads and list nodes), the other members of the nodes, and the other
    members of the queues.  An address is the C lvalue it stands for, so
    [list_entry] is the inverse of a constructor. *)

From S2P Require Import Prelude Bitmap Dll LinkedList Priorities.

(** The priority queues of the program: the five global ones of pth_sched.c
    and the three of each native thread descriptor (pth_native.c). *)
Inductive qid : Set :=
  | NQ | RQ | WQ | SQ | DQ
  | WaitQ (native : nat) | NewQ (native : nat) | ReadyQ (native : nat).

#[global] Instance qid_eq_dec : EqDecision qid.
Proof. solve_decision. Defined.

#[global] Instance qid_countable : Countable qid.
Proof.
  refine (inj_countable'
    (fun q => match q with
              | NQ => (0, 0) | RQ => (1, 0) | WQ => (2, 0) | SQ => (3, 0) | DQ => (4, 0)
              | WaitQ n => (5, n) | NewQ n => (6, n) | ReadyQ n => (7, n)
              end%nat)
    (fun k => match k with
              | (0, _) => NQ | (1, _) => RQ | (2, _) => WQ | (3, _) => SQ | (4, _) => DQ
              | (5, n) => WaitQ n | (6, n) => NewQ n | (_, n) => ReadyQ n
              end%nat) _).
  by intros [].
Defined.

(** Addresses of list nodes. *)
Inductive laddr : Set :=
  | AHead (q : qid) (prio : Z)   (** [&q->queue[prio]] *)
  | ANode (t : nat).             (** [&t->node.lnode] *)

#[global] Instance laddr_eq_dec : EqDecision laddr.
Proof. solve_decision. Defined.

#[global] Instance laddr_countable : Countable laddr.
Proof.
  refine (inj_countable'
    (fun a => match a with AHead q p => inl (q, p) | ANode t => inr t end)
    (fun k => match k with inl (q, p) => AHead q p | inr t => ANode t end) _).
  by intros [].
Defined.

#[global] Instance ANode_inj : Inj eq eq ANode.
Proof. by intros ?? [= ->]. Qed.

Inductive node_lt_e : Set := node_lt_nowhere | node_lt_queue | node_lt_pqueue.

#[global] Instance node_lt_e_eq_dec : EqDecision node_lt_e.
Proof. solve_decision. Defined.

Record node_st : Set := Node { bp : option qid; priority : Z; node_lt : node_lt_e }.

Record pqueue_st : Set := PQ { total : Z; bitmap : bitmap_st; lock : Z }.

Record qmem : Set := QMem {
  links : gmap laddr (link laddr);
  nodes : gmap nat node_st;
  queues : gmap qid pqueue_st }.

Definition PRIO_TOTAL : Z := IPRIO_MAX.

(** ** Access *)

Definition get_node (t : nat) : M qmem node_st :=
  m ← get; of_option BadDeref (nodes m !! t).
Definition put_node (t : nat) (n : node_st) : M qmem unit :=
  modify (fun m => QMem (links m) (<[t := n]> (nodes m)) (queues m)).
Definition get_queue (q : qid) : M qmem pqueue_st :=
  m ← get; of_option BadDeref (queues m !! q).
Definition put_queue (q : qid) (x : pqueue_st) : M qmem unit :=
  modify (fun m => QMem (links m) (nodes m) (<[q := x]> (queues m))).

(** Code that reads or writes the links only. *)
Definition read_links {A} (f : gmap laddr (link laddr) -> res A) : M qmem A :=
  fun m => match f (links m) with Ok a => Ok (a, m) | Err e => Err e end.
Definition write_links (f : gmap laddr (link laddr) -> res (gmap laddr (link laddr))) : M qmem unit :=
  fun m => match f (links m) with
           | Ok h => Ok (tt, QMem h (nodes m) (queues m))
           | Err e => Err e
           end.

(** ** Spin locks (spinlock.h, the non-futex variant)

    [spin_lock] repeats an atomic exchange until it reads zero.  In a
    sequential execution nobody else can clear the word meanwhile. *)

Definition spin_lock (q : qid) : M qmem unit :=
  x ← get_queue q;
  if bool_decide (lock x = 0) then put_queue q (PQ (total x) (bitmap x) 1)
  else fail Deadlock.

Definition spin_trylock (q : qid) : M qmem Z :=
  x ← get_queue q;
  put_queue q (PQ (total x) (bitmap x) 1);;
  mret (if bool_decide (lock x = 0) then 0 else 1).

Definition spin_unlock (q : qid) : M qmem unit :=
  x ← get_queue q;
  put_queue q (PQ (total x) (bitmap x) 0).

(** ** node.h *)

(** [lnode_init] of the embedded list node. *)
Definition node_init (t : nat) : M qmem unit :=
  write_links (lnode_init (Some (ANode t))).

(** [node_by_lnode]: NULL stays NULL.  A pointer that is not the [lnode] of a
    node gives a pointer to no object. *)
Definition node_by_lnode (p : option laddr) : M qmem (option nat) :=
  match p with
  | None => mret None
  | Some (ANode t) => mret (Some t)
  | Some (AHead _ _) => fail Undefined
  end.

Definition node_pqueue_set (t : nat) (q : option qid) : M qmem unit :=
  n ← get_node t;
  put_node t (Node q (priority n) (match q with Some _ => node_lt_pqueue | None => node_lt_nowhere end)).

Definition node_queue_set (t : nat) (q : option qid) : M qmem unit :=
  n ← get_node t;
  put_node t (Node q (priority n) (match q with Some _ => node_lt_queue | None => node_lt_nowhere end)).

(** True when the check fails (after a message). *)
Definition node_lt_check (t : nat) (lt : node_lt_e) : M qmem bool :=
  n ← get_node t;
  mret (negb (bool_decide (node_lt n = lt))).

(** ** pqueue.h *)

Definition __pqueue_insert (t : nat) (q : qid) : M qmem unit :=
  n ← get_node t;
  write_links (list_insert (Some (ANode t)) (Some (AHead q (priority n))));;
  node_pqueue_set t (Some q).

Definition __pqueue_insert_second (t : nat) (q : qid) : M qmem unit :=
  n ← get_node t;
  w ← read_links (fun h => get_next h (Some (AHead q (priority n))));
  write_links (list_insert (Some (ANode t)) w);;
  node_pqueue_set t (Some q).

Definition __pqueue_insert_tail (t : nat) (q : qid) : M qmem unit :=
  n ← get_node t;
  write_links (list_insert_tail (Some (ANode t)) (Some (AHead q (priority n))));;
  node_pqueue_set t (Some q).

Definition __pqueue_delete (t : nat) : M qmem unit :=
  write_links (list_del (Some (ANode t)));;
  node_pqueue_set t None.

Fixpoint lnode_init_all (q : qid) (ps : list Z) : M qmem unit :=
  match ps with
  | [] => mret tt
  | p :: ps => write_links (lnode_init (Some (AHead q p)));; lnode_init_all q ps
  end.

Definition pqueue_init (q : qid) : M qmem unit :=
  x ← get_queue q;
  put_queue q (PQ 0 (bitmap_init (bitmap x)) 0);;
  lnode_init_all q (seqZ 0 PRIO_TOTAL).

(** [pqueue->total++], [pqueue->total--]: a [size_t] *)
Definition total_add (q : qid) (d : Z) : M qmem unit :=
  x ← get_queue q;
  put_queue q (PQ (wrap 32 (total x + d)) (bitmap x) (lock x)).

Definition bitmap_set_prio (q : qid) (p : Z) : M qmem unit :=
  x ← get_queue q;
  b ← of_res (bitmap_set_bit 32 (bitmap x) p);
  put_queue q (PQ (total x) b (lock x)).

Definition bitmap_reset_prio (q : qid) (p : Z) : M qmem unit :=
  x ← get_queue q;
  b ← of_res (bitmap_reset_bit 32 (bitmap x) p);
  put_queue q (PQ (total x) b (lock x)).

(** The common start of the three insertions: the list type check (the back
    pointer check only prints a message), the total, the bitmap. *)
Definition pqueue_enter (ins : nat -> qid -> M qmem unit) (q : qid) (t : nat) : M qmem unit :=
  bad ← node_lt_check t node_lt_nowhere;
  if (bad : bool) then mret tt
  else
    total_add q 1;;
    n ← get_node t;
    bitmap_set_prio q (priority n);;
    ins t q.

Definition __pqueue_append_node : qid -> nat -> M qmem unit := pqueue_enter __pqueue_insert_tail.
Definition __pqueue_prepend_node : qid -> nat -> M qmem unit := pqueue_enter __pqueue_insert.
Definition __pqueue_prepend_second_node : qid -> nat -> M qmem unit :=
  pqueue_enter __pqueue_insert_second.

(** The locking variants. *)
Definition locked {A} (q : qid) (m : M qmem A) : M qmem A :=
  spin_lock q;; a ← m; spin_unlock q;; mret a.

Definition pqueue_append_node (q : qid) (t : nat) : M qmem unit :=
  locked q (__pqueue_append_node q t).
Definition pqueue_prepend_node (q : qid) (t : nat) : M qmem unit :=
  locked q (__pqueue_prepend_node q t).
Definition pqueue_prepend_second_node (q : qid) (t : nat) : M qmem unit :=
  locked q (__pqueue_prepend_second_node q t).

Definition __pqueue_delete_node (t : nat) : M qmem unit :=
  n0 ← get_node t;
  bad ← node_lt_check t node_lt_pqueue;
  if (bad : bool) then mret tt
  else
    match bp n0 with
    | None => mret tt
    | Some q =>
        total_add q (-1);;
        __pqueue_delete t;;
        n ← get_node t;
        e ← read_links (list_empty (Some (AHead q (priority n))));
        if (e : bool) then bitmap_reset_prio q (priority n) else mret tt
    end.

Definition pqueue_delete_node (t : nat) : M qmem unit :=
  n0 ← get_node t;
  bad ← node_lt_check t node_lt_pqueue;
  if (bad : bool) then mret tt
  else
    match bp n0 with
    | None => mret tt
    | Some q => locked q (__pqueue_delete_node t)
    end.

Definition __pqueue_first_node (q : qid) : M qmem (option nat) :=
  x ← get_queue q;
  if bool_decide (total x = 0) then mret None
  else
    prio ← of_res (bitmap_ffms_bit_set 32 (bitmap x));
    lnode ← read_links (fun h => get_next h (Some (AHead q prio)));
    if bool_decide (lnode = Some (AHead q prio)) then mret None
    else node_by_lnode lnode.

Definition pqueue_first_node (q : qid) : M qmem (option nat) :=
  locked q (__pqueue_first_node q).

Definition __pqueue_node_priority_set (t : nat) (new_priority : Z) : M qmem unit :=
  n ← get_node t;
  if bool_decide (priority n = new_priority) then mret tt
  else
    let finish := put_node t (Node (bp n) new_priority (node_lt n)) in
    match bp n with
    | None => finish
    | Some q =>
        bad ← node_lt_check t node_lt_pqueue;
        if (bad : bool) then mret tt
        else
          write_links (list_del (Some (ANode t)));;
          e ← read_links (list_empty (Some (AHead q (priority n))));
          (if (e : bool) then bitmap_reset_prio q (priority n) else mret tt);;
          (if bool_decide (priority n < new_priority)
           then write_links (list_insert_tail (Some (ANode t)) (Some (AHead q new_priority)))
           else write_links (list_insert (Some (ANode t)) (Some (AHead q new_priority))));;
          bitmap_set_prio q new_priority;;
          finish
    end.

Definition __pqueue_node_priority_get (t : nat) : M qmem Z :=
  n ← get_node t; mret (priority n).

Definition __pqueue_total (q : qid) : M qmem Z := x ← get_queue q; mret (total x).
Definition pqueue_total : qid -> M qmem Z := __pqueue_total.

Definition __pqueue_contains (q : qid) (t : nat) : M qmem bool :=
  bad ← node_lt_check t node_lt_pqueue;
  if (bad : bool) then mret false
  else n ← get_node t; mret (bool_decide (bp n = Some q)).

Definition pqueue_contains (q : qid) (t : nat) : M qmem bool :=
  bad ← node_lt_check t node_lt_pqueue;
  if (bad : bool) then mret false
  else locked q (n ← get_node t; mret (bool_decide (bp n = Some q))).

Definition __pqueue_favor (t : nat) : M qmem unit :=
  n ← get_node t;
  match bp n with
  | None => mret tt
  | Some q =>
      let head := Some (AHead q (priority n)) in
      bad ← node_lt_check t node_lt_pqueue;
      if (bad : bool) then mret tt
      else
        e ← read_links (list_empty head);
        if (e : bool) then mret tt
        else
          x ← read_links (fun h => get_next h head);
          if bool_decide (x = Some (ANode t)) then mret tt
          else
            y ← read_links (fun h => get_next h x);
            if bool_decide (y = Some (ANode t)) then mret tt
            else
              write_links (list_del (Some (ANode t)));;
              x ← read_links (fun h => get_next h head);
              write_links (list_insert (Some (ANode t)) x)
  end.

Definition pqueue_favor (t : nat) : M qmem unit :=
  n ← get_node t;
  match bp n with
  | None => mret tt
  | Some q => locked q (__pqueue_favor t)
  end.

(** The downward search for the next non-empty list. *)
Fixpoint next_list (q : qid) (cnt : nat) : M qmem (option nat) :=
  match cnt with
  | O => mret None
  | S p =>
      let head := Some (AHead q (Z.of_nat p)) in
      e ← read_links (list_empty head);
      if (e : bool) then next_list q p
      else
        x ← read_links (fun h => get_next h head);
        node_by_lnode x
  end.

Definition __pqueue_get_next_node (t : nat) : M qmem (option nat) :=
  n ← get_node t;
  match bp n with
  | None => mret None
  | Some q =>
      bad ← node_lt_check t node_lt_pqueue;
      if (bad : bool) then mret None
      else
        x ← read_links (fun h => get_next h (Some (ANode t)));
        if bool_decide (x = Some (AHead q (priority n)))
        then if bool_decide (priority n > 0) then next_list q (Z.to_nat (priority n))
             else mret None
        else node_by_lnode x
  end.

(** ** Execution rules *)

Section rules.
Context {A : Type}.
Implicit Types (m : qmem).

Lemma wp_get_node t n (Q : node_st -> qmem -> Prop) m :
  nodes m !! t = Some n -> Q n m -> wp (get_node t) Q m.
Proof. intros E HQ. unfold wp, get_node, mbind, M_bind; simpl. by rewrite E. Qed.

Lemma wp_put_node t n (Q : unit -> qmem -> Prop) m :
  Q tt (QMem (links m) (<[t := n]> (nodes m)) (queues m)) -> wp (put_node t n) Q m.
Proof. done. Qed.

Lemma wp_get_queue q x (Q : pqueue_st -> qmem -> Prop) m :
  queues m !! q = Some x -> Q x m -> wp (get_queue q) Q m.
Proof. intros E HQ. unfold wp, get_queue, mbind, M_bind; simpl. by rewrite E. Qed.

Lemma wp_put_queue q x (Q : unit -> qmem -> Prop) m :
  Q tt (QMem (links m) (nodes m) (<[q := x]> (queues m))) -> wp (put_queue q x) Q m.
Proof. done. Qed.

Lemma wp_read_links (f : gmap laddr (link laddr) -> res A) a (Q : A -> qmem -> Prop) m :
  f (links m) = Ok a -> Q a m -> wp (read_links f) Q m.
Proof. intros E HQ. unfold wp, read_links. by rewrite E. Qed.

Lemma wp_write_links f h (Q : unit -> qmem -> Prop) m :
  f (links m) = Ok h -> Q tt (QMem h (nodes m) (queues m)) -> wp (write_links f) Q m.
Proof. intros E HQ. unfold wp, write_links. by rewrite E. Qed.

Lemma wp_of_res {S} (r : res A) a (Q : A -> S -> Prop) s :
  r = Ok a -> Q a s -> wp (of_res r) Q s.
Proof. by intros ->. Qed.
End rules.

Lemma get_queue_run q x m : queues m !! q = Some x -> get_queue q m = Ok (x, m).
Proof. intros Hx. unfold get_queue, mbind, M_bind. simpl. by rewrite Hx. Qed.

(** Executes the next primitive step; facts about the stores are looked up in
    the context, up to simplification of the updated memories. *)
Ltac qlookup := simpl; rewrite ?lookup_insert_eq; first [eassumption | reflexivity].
Ltac wp_step :=
  lazymatch goal with
  | |- wp (_ ≫= _) _ _ => apply wp_bind
  | |- wp (mret _) _ _ => apply wp_ret
  | |- wp (get_node _) _ _ => eapply wp_get_node; [qlookup|]
  | |- wp (put_node _ _) _ _ => apply wp_put_node; simpl
  | |- wp (get_queue _) _ _ => eapply wp_get_queue; [qlookup|]
  | |- wp (put_queue _ _) _ _ => apply wp_put_queue; simpl
  | |- wp (read_links _) _ _ => eapply wp_read_links; [simpl; eassumption|]
  | |- wp (write_links _) _ _ => eapply wp_write_links; [simpl; eassumption|simpl]
  | |- wp (of_res _) _ _ => eapply wp_of_res; [simpl; eassumption|]
  end.
Ltac wp_steps := repeat wp_step.

(** Computes through the accesses of an operation. *)
Ltac qunfold :=
  unfold node_pqueue_set, node_lt_check, total_add, bitmap_set_prio, bitmap_reset_prio,
    get_node, put_node, get_queue, put_queue, read_links, write_links, of_res,
    mbind, M_bind.
Ltac qrun :=
  repeat first
    [ progress simpl
    | rewrite lookup_insert_eq
    | match goal with
      | H : nodes ?m !! ?t = Some _ |- context [nodes ?m !! ?t] => rewrite H
      | H : queues ?m !! ?q = Some _ |- context [queues ?m !! ?q] => rewrite H
      end ].

(** ** Invariant

    [Q] maps every queue to the lists of its threads, by priority. *)

Abbreviation contents := (list (list nat)).

Definition free_node (n : node_st) : Prop := bp n = None /\ node_lt n = node_lt_nowhere.

(** Whether the list of priority [p] has a member. *)
Definition nonempty_at (Ls : contents) (p : nat) : bool :=
  match Ls !! p with Some (_ :: _) => true | _ => false end.

(** The head part of a queue agrees with its lists. *)
Definition queue_ok (x : pqueue_st) (Ls : contents) : Prop :=
  length Ls = Z.to_nat PRIO_TOTAL /\ bm_wf 32 (bitmap x) /\
  (forall p : nat, bm_test 32 (bitmap x) (Z.of_nat p) = nonempty_at Ls p) /\
  total x = wrap 32 (Z.of_nat (length (concat Ls))).

(** Thread [t] is in the list of priority [p] of queue [q]. *)
Definition member (Q : gmap qid contents) (q : qid) (p : nat) (t : nat) : Prop :=
  exists Ls l, Q !! q = Some Ls /\ Ls !! p = Some l /\ t ∈ l.

Record pq_inv (m : qmem) (Q : gmap qid contents) : Prop := {
  inv_queue : forall q Ls, Q !! q = Some Ls ->
    exists x, queues m !! q = Some x /\ queue_ok x Ls;
  inv_ring : forall q Ls p l, Q !! q = Some Ls -> Ls !! p = Some l ->
    ring (links m) (AHead q (Z.of_nat p)) (ANode <$> l);
  inv_member : forall q p t, member Q q p t ->
    nodes m !! t = Some (Node (Some q) (Z.of_nat p) node_lt_pqueue);
  inv_node : forall t n, nodes m !! t = Some n ->
    is_Some (links m !! ANode t) /\
    (free_node n \/ exists q p, member Q q p t)
}.

(** A list is replaced: node [t] enters it, leaves it or moves in it. *)
Lemma member_update Q q Ls p l l' t :
  Q !! q = Some Ls -> Ls !! p = Some l ->
  (forall x, x <> t -> (x ∈ l' <-> x ∈ l)) ->
  forall q' p' x, x <> t ->
    member (<[q := <[p := l']> Ls]> Q) q' p' x <-> member Q q' p' x.
Proof.
  intros HQ HL Hl q' p' x Hx. unfold member. split.
  - intros (Ls' & k & E1 & E2 & Hk). rewrite lookup_insert in E1.
    case_decide; simplify_eq; [|eauto 10].
    destruct (decide (p = p')) as [<-|].
    + rewrite list_lookup_insert_eq in E2 by (by eapply lookup_lt_Some). simplify_eq.
      exists Ls, l. rewrite <- Hl by done. eauto.
    + rewrite list_lookup_insert_ne in E2 by done. eauto 10.
  - intros (Ls' & k & E1 & E2 & Hk).
    destruct (decide (q = q')) as [<-|].
    + rewrite lookup_insert_eq. simplify_eq. destruct (decide (p = p')) as [<-|].
      * exists (<[p := l']> Ls), l'. rewrite list_lookup_insert_eq by (by eapply lookup_lt_Some).
        simplify_eq. rewrite Hl by done. eauto.
      * exists (<[p := l']> Ls), k. rewrite list_lookup_insert_ne by done. eauto.
    + exists Ls', k. rewrite lookup_insert_ne by done. eauto.
Qed.

Lemma member_update_here Q q Ls p l l' t :
  Q !! q = Some Ls -> Ls !! p = Some l ->
  (forall q' p', member Q q' p' t -> q' = q /\ p' = p) ->
  forall q' p', member (<[q := <[p := l']> Ls]> Q) q' p' t <-> q' = q /\ p' = p /\ t ∈ l'.
Proof.
  intros HQ HL Hu q' p'. split.
  - intros (Ls' & k & E1 & E2 & Hk). rewrite lookup_insert in E1.
    case_decide as Eq; simplify_eq.
    + destruct (decide (p = p')) as [<-|].
      * rewrite list_lookup_insert_eq in E2 by (by eapply lookup_lt_Some). by simplify_eq.
      * rewrite list_lookup_insert_ne in E2 by done.
        destruct (Hu q' p'); [by exists Ls, k|]. congruence.
    + destruct (Hu q' p'); [by exists Ls', k|]. congruence.
  - intros (-> & -> & Hk). exists (<[p := l']> Ls), l'.
    rewrite lookup_insert_eq, list_lookup_insert_eq by (by eapply lookup_lt_Some). done.
Qed.

Section inv_lemmas.
Context (m : qmem) (Q : gmap qid contents) (Hinv : pq_inv m Q).

(** A thread is in at most one list. *)
Lemma member_unique q p q' p' t :
  member Q q p t -> member Q q' p' t -> q' = q /\ p' = p.
Proof.
  intros H1%(inv_member _ _ Hinv) H2%(inv_member _ _ Hinv).
  rewrite H1 in H2. simplify_eq. split; [done|lia].
Qed.

Lemma free_not_member t n q p :
  nodes m !! t = Some n -> free_node n -> ~ member Q q p t.
Proof.
  intros Hn [Hbp _] Hm. apply (inv_member _ _ Hinv) in Hm. by simplify_eq.
Qed.

(** A node whose back pointer is set is in that queue. *)
Lemma bp_member t n q :
  nodes m !! t = Some n -> bp n = Some q ->
  exists p Ls l, n = Node (Some q) (Z.of_nat p) node_lt_pqueue /\
    Q !! q = Some Ls /\ Ls !! p = Some l /\ t ∈ l.
Proof.
  intros Hn Hbp. destruct (inv_node _ _ Hinv _ _ Hn) as [_ [[Hf _]|(q' & p & Hm)]]; [congruence|].
  pose proof (inv_member _ _ Hinv _ _ _ Hm) as Hn'. simplify_eq. simpl in Hbp. simplify_eq.
  destruct Hm as (Ls & l & ? & ? & ?). eauto 10.
Qed.

Lemma pq_inv_update q Ls p l l' t n' h' x' :
  Q !! q = Some Ls -> Ls !! p = Some l ->
  (forall q' p', member Q q' p' t -> q' = q /\ p' = p) ->
  (forall x, x <> t -> (x ∈ l' <-> x ∈ l)) ->
  is_Some (nodes m !! t) ->
  ((t ∈ l' /\ n' = Node (Some q) (Z.of_nat p) node_lt_pqueue) \/ (t ∉ l' /\ free_node n')) ->
  ring h' (AHead q (Z.of_nat p)) (ANode <$> l') ->
  same_dom (links m) h' ->
  (forall a, a ∉ AHead q (Z.of_nat p) :: ANode t :: (ANode <$> l) -> h' !! a = links m !! a) ->
  queue_ok x' (<[p := l']> Ls) ->
  pq_inv (QMem h' (<[t := n']> (nodes m)) (<[q := x']> (queues m)))
         (<[q := <[p := l']> Ls]> Q).
Proof.
  intros HQ HL Hu Hl Ht Hn' Hr Hd Hf Hx.
  pose proof (member_update Q q Ls p l l' t HQ HL Hl) as Hmem.
  pose proof (member_update_here Q q Ls p l l' t HQ HL Hu) as Hhere.
  split; cbn [links nodes queues].
  - intros q' Ls' E. rewrite lookup_insert in E. rewrite lookup_insert.
    case_decide; simplify_eq; [eauto|]. by apply (inv_queue _ _ Hinv).
  - intros q' Ls' p' k E1 E2. destruct (decide (q = q' /\ p = p')) as [[<- <-]|Hne].
    { rewrite lookup_insert_eq in E1. simplify_eq.
      rewrite list_lookup_insert_eq in E2 by (by eapply lookup_lt_Some). by simplify_eq. }
    assert (exists Ls0, Q !! q' = Some Ls0 /\ Ls0 !! p' = Some k) as (Ls0 & E3 & E4).
    { rewrite lookup_insert in E1. case_decide; simplify_eq; [|eauto].
      rewrite list_lookup_insert_ne in E2 by naive_solver. eauto. }
    eapply ring_agree; [|by eapply (inv_ring _ _ Hinv)].
    intros a Ha. apply Hf. intros Hin.
    apply elem_of_cons in Ha as [->|(y & -> & Hy)%list_elem_of_fmap].
    + apply elem_of_cons in Hin as [E|Hin]; [simplify_eq; apply Hne; split; [done|lia]|].
      apply elem_of_cons in Hin as [E|(z & E & _)%list_elem_of_fmap]; done.
    + assert (member Q q' p' y) as Hm by (by exists Ls0, k).
      apply elem_of_cons in Hin as [E|Hin]; [done|].
      apply elem_of_cons in Hin as [[= ->]|(z & [= <-] & Hz)%list_elem_of_fmap].
      * destruct (Hu _ _ Hm); subst. by apply Hne.
      * assert (member Q q p y) as Hm' by (by exists Ls, l).
        destruct (member_unique _ _ _ _ _ Hm' Hm); subst. by apply Hne.
  - intros q' p' y Hm. rewrite lookup_insert. case_decide; subst.
    + apply Hhere in Hm as (-> & -> & Hin). naive_solver.
    + apply (inv_member _ _ Hinv). by rewrite <- Hmem.
  - intros y n. rewrite lookup_insert. case_decide as Ey; subst.
    + intros [= <-]. destruct Ht as [n0 Hn0]. split.
      { apply Hd. by apply (inv_node _ _ Hinv _ _ Hn0). }
      destruct Hn' as [[Hin ->]|[_ Hfree]]; [|by left].
      right. exists q, p. by apply Hhere.
    + intros Hn. destruct (inv_node _ _ Hinv _ _ Hn) as [Hs Hc]. split; [by apply Hd|].
      destruct Hc as [?|(q' & p' & Hm)]; [by left|right]. exists q', p'. by rewrite Hmem.
Qed.
End inv_lemmas.

(** ** Totals and bitmaps *)

Lemma length_concat_insert (Ls : contents) p l l' :
  Ls !! p = Some l ->
  (length (concat (<[p := l']> Ls)) + length l = length (concat Ls) + length l')%nat.
Proof.
  revert p. induction Ls as [|k Ls IH]; intros [|p] E; simpl in *; simplify_eq;
    rewrite !length_app; [lia|]. pose proof (IH _ E). lia.
Qed.

Lemma nonempty_at_insert (Ls : contents) p l l' i :
  Ls !! p = Some l ->
  nonempty_at (<[p := l']> Ls) i =
    if bool_decide (i = p) then negb (bool_decide (l' = [])) else nonempty_at Ls i.
Proof.
  intros E. unfold nonempty_at. case_bool_decide; subst.
  - rewrite list_lookup_insert_eq by (by eapply lookup_lt_Some). by destruct l'.
  - by rewrite list_lookup_insert_ne.
Qed.

Lemma wrap_add_cong n x y d : 0 <= n -> x = wrap n y -> wrap n (x + d) = wrap n (y + d).
Proof. intros Hn ->. unfold wrap. by rewrite Zplus_mod_idemp_l. Qed.

Lemma prio_in_slots p : (p < Z.to_nat PRIO_TOTAL)%nat ->
  (Z.to_nat (Z.of_nat p / 32) < 6)%nat.
Proof.
  intros Hp. change (Z.to_nat PRIO_TOTAL) with 140%nat in Hp.
  assert (Z.of_nat p / 32 < 5); [|lia]. apply Z.div_lt_upper_bound; lia.
Qed.

(** One node more in the list of [p], with its bit set. *)
Lemma queue_ok_add x Ls p l l' b :
  queue_ok x Ls -> Ls !! p = Some l -> length l' = S (length l) ->
  bitmap_set_bit 32 (bitmap x) (Z.of_nat p) = Ok b ->
  queue_ok (PQ (wrap 32 (total x + 1)) b (lock x)) (<[p := l']> Ls).
Proof.
  intros (Hlen & Hwf & Hbits & Htot) HL Hl' Hb.
  pose proof (lookup_lt_Some _ _ _ HL) as Hp. rewrite Hlen in Hp. split_and!; cbn [total bitmap lock].
  - by rewrite length_insert.
  - by eapply bitmap_set_bit_wf.
  - intros i. unfold bitmap_set_bit in Hb.
    destruct (bit_set_spec 32 ltac:(lia) (bitmap x) (Z.of_nat p)) as (b' & Hb' & _ & Ht); [lia| |].
    { destruct Hwf as [Hw _]. rewrite BITMAP_SLOTS_32 in Hw.
      replace (length (bitmap x)) with 6%nat by lia. by apply prio_in_slots. }
    rewrite Hb' in Hb. injection Hb as <-. rewrite Ht by lia. rewrite (nonempty_at_insert _ _ _ _ _ HL), Hbits.
    destruct l' as [|y l']; [done|]. repeat case_bool_decide; done || lia.
  - pose proof (length_concat_insert Ls p l l' HL).
    rewrite (wrap_add_cong 32 _ _ _ ltac:(lia) Htot). f_equal. lia.
Qed.

Lemma bitmap_set_ok x Ls p : queue_ok x Ls -> (p < Z.to_nat PRIO_TOTAL)%nat ->
  exists b, bitmap_set_bit 32 (bitmap x) (Z.of_nat p) = Ok b.
Proof.
  intros (_ & [Hw _] & _) Hp. rewrite BITMAP_SLOTS_32 in Hw.
  destruct (bit_set_spec 32 ltac:(lia) (bitmap x) (Z.of_nat p)) as (b & Hb & _); [lia| |eauto].
  replace (length (bitmap x)) with 6%nat by lia. by apply prio_in_slots.
Qed.

Lemma bitmap_reset_ok x Ls p : queue_ok x Ls -> (p < Z.to_nat PRIO_TOTAL)%nat ->
  exists b, bitmap_reset_bit 32 (bitmap x) (Z.of_nat p) = Ok b /\
    (forall i : nat, bm_test 32 b (Z.of_nat i) =
       negb (bool_decide (i = p)) && bm_test 32 (bitmap x) (Z.of_nat i)).
Proof.
  intros (_ & [Hw _] & _) Hp. rewrite BITMAP_SLOTS_32 in Hw.
  destruct (bit_reset_spec 32 ltac:(lia) (bitmap x) (Z.of_nat p)) as (b & Hb & _ & Ht); [lia| |].
  { replace (length (bitmap x)) with 6%nat by lia. by apply prio_in_slots. }
  exists b. split; [done|]. intros i. rewrite Ht by lia.
  repeat case_bool_decide; subst; done || lia.
Qed.

(** One node less in the list of [p]; its bit is reset when it gets empty. *)
Lemma queue_ok_sub x Ls p l l' b :
  queue_ok x Ls -> Ls !! p = Some l -> length l = S (length l') ->
  (if bool_decide (l' = []) then bitmap_reset_bit 32 (bitmap x) (Z.of_nat p) = Ok b
   else b = bitmap x) ->
  queue_ok (PQ (wrap 32 (total x + -1)) b (lock x)) (<[p := l']> Ls).
Proof.
  intros Hok HL Hl' Hb. pose proof Hok as (Hlen & Hwf & Hbits & Htot).
  pose proof (lookup_lt_Some _ _ _ HL) as Hp. rewrite Hlen in Hp. split_and!; cbn [total bitmap lock].
  - by rewrite length_insert.
  - case_bool_decide; [|by subst]. by eapply bitmap_reset_bit_wf.
  - intros i. rewrite (nonempty_at_insert _ _ _ _ _ HL). case_bool_decide as El.
    + destruct (bitmap_reset_ok x Ls p Hok Hp) as (b' & Hb' & Ht).
      rewrite Hb' in Hb. injection Hb as <-.
      rewrite Ht, Hbits. by repeat case_bool_decide.
    + subst b. rewrite Hbits. case_bool_decide; [|done]. subst.
      unfold nonempty_at. rewrite HL. by destruct l.
  - pose proof (length_concat_insert Ls p l l' HL).
    rewrite (wrap_add_cong 32 _ _ _ ltac:(lia) Htot). f_equal. lia.
Qed.

(** ** Insertion *)

Definition same_locks (m m' : qmem) : Prop :=
  forall q, lock <$> queues m' !! q = lock <$> queues m !! q.

(** Only the node [t] is changed. *)
Definition nodes_but (t : nat) (m m' : qmem) : Prop :=
  forall u, u <> t -> nodes m' !! u = nodes m !! u.

(** Where the three insertions put a node. *)
Definition place_tail (l : list nat) (t : nat) : list nat := l ++ [t].
Definition place_head (l : list nat) (t : nat) : list nat := t :: l.
Definition place_second (l : list nat) (t : nat) : list nat :=
  match l with [] => [t] | x :: l => x :: t :: l end.

(** A routine that links node [t] into its list at [place]. *)
Definition links_in (ins : nat -> qid -> M qmem unit) (place : list nat -> nat -> list nat) : Prop :=
  forall m q t n l,
    nodes m !! t = Some n -> is_Some (links m !! ANode t) ->
    ring (links m) (AHead q (priority n)) (ANode <$> l) -> t ∉ l ->
    exists h', ins t q m =
        Ok (tt, QMem h' (<[t := Node (Some q) (priority n) node_lt_pqueue]> (nodes m)) (queues m)) /\
      ring h' (AHead q (priority n)) (ANode <$> place l t) /\ same_dom (links m) h' /\
      forall a, a ∉ AHead q (priority n) :: ANode t :: (ANode <$> l) -> h' !! a = links m !! a.

Lemma ANode_nin t q p l : t ∉ l -> ANode t ∉ AHead q p :: (ANode <$> l).
Proof.
  intros Ht Hin. apply elem_of_cons in Hin as [?|(y & E & Hy)%list_elem_of_fmap]; [done|].
  by simplify_eq.
Qed.

Lemma __pqueue_insert_tail_links : links_in __pqueue_insert_tail place_tail.
Proof.
  intros m q t n l Hn Ht Hr Hl. pose proof (ANode_nin t q (priority n) l Hl) as Hnin.
  destruct (list_insert_tail_spec _ _ _ _ Hr Ht Hnin) as (h' & E & Hr' & Hd & Hf).
  exists h'. split.
  { unfold __pqueue_insert_tail, node_pqueue_set, get_node, put_node, mbind, M_bind, write_links.
    simpl. rewrite Hn. simpl. rewrite E. simpl. by rewrite Hn. }
  split; [|split; [done|]].
  - unfold place_tail. by rewrite fmap_app.
  - intros a Ha. apply Hf. set_solver.
Qed.

Lemma __pqueue_insert_links : links_in __pqueue_insert place_head.
Proof.
  intros m q t n l Hn Ht Hr Hl. pose proof (ANode_nin t q (priority n) l Hl) as Hnin.
  destruct (list_insert_spec _ _ _ _ Hr Ht Hnin) as (h' & E & Hr' & Hd & Hf).
  exists h'. split.
  { unfold __pqueue_insert, node_pqueue_set, get_node, put_node, mbind, M_bind, write_links.
    simpl. rewrite Hn. simpl. rewrite E. simpl. by rewrite Hn. }
  split; [done|]. split; [done|]. intros a Ha. apply Hf. set_solver.
Qed.

(** Inserting after the first member of a list. *)
Lemma list_insert_second_spec {A} `{Countable A} (h : gmap A (link A)) w e xs :
  ring h w xs -> is_Some (h !! e) -> e ∉ w :: xs ->
  exists h', (x ← get_next h (Some w); list_insert (Some e) x h) = Ok h' /\
    ring h' w (match xs with [] => [e] | x :: xs => x :: e :: xs end) /\
    same_dom h h' /\ forall b, b ∉ e :: w :: xs -> h' !! b = h !! b.
Proof.
  intros Hr He Hnin. rewrite (get_next_spec _ _ _ (ring_next _ _ _ Hr)). simpl.
  destruct xs as [|x xs]; simpl.
  - apply (list_insert_spec h w e []); done.
  - apply (ring_rotate h w []) in Hr.
    destruct (list_insert_spec h x e (xs ++ w :: []) Hr He) as (h' & E & Hr' & Hd & Hf);
      [set_solver|].
    exists h'. split; [done|]. split.
    { apply (ring_rotate h' w [] x (e :: xs)). done. }
    split; [done|]. intros b Hb. apply Hf. set_solver.
Qed.

Lemma __pqueue_insert_second_links : links_in __pqueue_insert_second place_second.
Proof.
  intros m q t n l Hn Ht Hr Hl. pose proof (ANode_nin t q (priority n) l Hl) as Hnin.
  destruct (list_insert_second_spec _ _ _ _ Hr Ht Hnin) as (h' & E & Hr' & Hd & Hf).
  destruct (get_next (links m) (Some (AHead q (priority n)))) as [w|] eqn:Ew; [|done].
  simpl in E. exists h'. split.
  { unfold __pqueue_insert_second, node_pqueue_set, get_node, put_node, mbind, M_bind,
      write_links, read_links. simpl. rewrite Hn. simpl. rewrite Ew. simpl.
    rewrite E. simpl. by rewrite Hn. }
  split; [by destruct l|]. split; [done|]. intros a Ha. apply Hf. set_solver.
Qed.

(** Inserting a node that is in no queue. *)
Lemma pqueue_enter_spec ins place m Q q Ls t n p l :
  links_in ins place ->
  (forall l t, place l t ≡ₚ t :: l) ->
  pq_inv m Q -> Q !! q = Some Ls ->
  nodes m !! t = Some n -> free_node n -> priority n = Z.of_nat p -> Ls !! p = Some l ->
  exists m', pqueue_enter ins q t m = Ok (tt, m') /\
    pq_inv m' (<[q := <[p := place l t]> Ls]> Q) /\
    nodes m' = <[t := Node (Some q) (priority n) node_lt_pqueue]> (nodes m) /\ same_locks m m'.
Proof.
  intros Hins Hplace Hinv HQ Hn Hfree Hp HL.
  destruct (inv_queue _ _ Hinv _ _ HQ) as (x & Hx & Hok).
  pose proof (lookup_lt_Some _ _ _ HL) as Hlt. rewrite (proj1 Hok) in Hlt.
  destruct (bitmap_set_ok x Ls p Hok Hlt) as (b & Hb).
  assert (forall q' p', ~ member Q q' p' t) as Hnm by (intros; by eapply free_not_member).
  assert (t ∉ l) as Htl by (intros Hin; apply (Hnm q p); by exists Ls, l).
  set (x' := PQ (wrap 32 (total x + 1)) b (lock x)).
  destruct (Hins (QMem (links m) (nodes m) (<[q := x']> (queues m))) q t n l)
    as (h' & E & Hr & Hd & Hf); [done| |rewrite Hp; by eapply (inv_ring _ _ Hinv)|done|].
  { by apply (inv_node _ _ Hinv _ _ Hn). }
  simpl in Hd, Hf.
  exists (QMem h' (<[t := Node (Some q) (priority n) node_lt_pqueue]> (nodes m)) (<[q := x']> (queues m))).
  split; [|split; [|split; [done|]]].
  - unfold pqueue_enter, node_lt_check, total_add, bitmap_set_prio, get_node, get_queue, put_queue,
      mbind, M_bind. simpl. rewrite Hn. simpl. destruct Hfree as [_ ->].
    rewrite bool_decide_eq_true_2 by done. simpl. rewrite Hx. simpl. rewrite Hn. simpl.
    rewrite lookup_insert_eq. simpl. unfold of_res. rewrite Hp, Hb. simpl.
    rewrite insert_insert_eq. fold x'. rewrite Hp in E. exact E.
  - rewrite Hp in *. apply (pq_inv_update m Q Hinv _ _ _ l); [done|done| | | | |done|done|done|].
    + intros q' p' Hm. by apply Hnm in Hm.
    + intros y Hy. rewrite Hplace. set_solver.
    + eauto.
    + left. split; [rewrite Hplace; set_solver|done].
    + apply (queue_ok_add x Ls p l); [done..| |done]. by rewrite Hplace.
  - intros q'. simpl. rewrite lookup_insert. case_decide; [|done]. subst. by rewrite Hx.
Qed.

Lemma place_tail_perm l t : place_tail l t ≡ₚ t :: l.
Proof. unfold place_tail. by rewrite Permutation_app_comm. Qed.
Lemma place_second_perm l t : place_second l t ≡ₚ t :: l.
Proof. destruct l; [done|]. simpl. constructor. Qed.

(** A node that is in some list is left where it is. *)
Lemma pqueue_enter_refused ins m q t n :
  nodes m !! t = Some n -> node_lt n <> node_lt_nowhere -> pqueue_enter ins q t m = Ok (tt, m).
Proof.
  intros Hn Hlt. unfold pqueue_enter, node_lt_check, get_node, mbind, M_bind. simpl.
  rewrite Hn. simpl. by rewrite bool_decide_eq_false_2.
Qed.

(** ** Removal *)

(** Unlinking a member: the invariant without it, whatever the code does to
    the node and to the head part, as long as both agree. *)
Lemma pq_inv_out m Q q Ls p l1 t l2 x :
  pq_inv m Q -> Q !! q = Some Ls -> Ls !! p = Some (l1 ++ t :: l2) -> queues m !! q = Some x ->
  exists h' b, list_del (Some (ANode t)) (links m) = Ok h' /\
    ring h' (AHead q (Z.of_nat p)) (ANode <$> (l1 ++ l2)) /\
    is_Some (h' !! ANode t) /\
    (if bool_decide (l1 ++ l2 = []) then bitmap_reset_bit 32 (bitmap x) (Z.of_nat p) = Ok b
     else b = bitmap x) /\
    pq_inv (QMem h' (<[t := Node None (Z.of_nat p) node_lt_nowhere]> (nodes m))
              (<[q := PQ (wrap 32 (total x + -1)) b (lock x)]> (queues m)))
      (<[q := <[p := l1 ++ l2]> Ls]> Q).
Proof.
  intros Hinv HQ HL Hx.
  destruct (inv_queue _ _ Hinv _ _ HQ) as (? & Hx' & Hok). simplify_eq.
  pose proof (lookup_lt_Some _ _ _ HL) as Hlt. rewrite (proj1 Hok) in Hlt.
  assert (member Q q p t) as Hm by (exists Ls, (l1 ++ t :: l2); set_solver).
  pose proof (inv_member _ _ Hinv _ _ _ Hm) as Hn.
  pose proof (inv_ring _ _ Hinv _ _ _ _ HQ HL) as Hr. rewrite fmap_app in Hr. simpl in Hr.
  destruct (list_del_spec _ _ _ _ _ Hr) as (h' & E & Hr' & Hd & Hf).
  rewrite <- fmap_app in Hr', Hf.
  assert (t ∉ l1 ++ l2) as Htl.
  { apply ring_nodup in Hr as [_ Hr]%NoDup_cons.
    assert (NoDup (l1 ++ t :: l2)) as Hnd by (apply (NoDup_fmap_1 ANode); by rewrite fmap_app).
    apply NoDup_app in Hnd as (_ & H1 & [H2 _]%NoDup_cons). set_solver. }
  destruct (bitmap_reset_ok x Ls p Hok Hlt) as (b0 & Hb0 & _).
  exists h', (if bool_decide (l1 ++ l2 = []) then b0 else bitmap x).
  split; [done|]. split; [done|].
  split; [apply Hd; by apply (inv_node _ _ Hinv _ _ Hn)|]. split; [by case_bool_decide|].
  apply (pq_inv_update m Q Hinv _ _ _ (l1 ++ t :: l2)); [done|done| | | | |done|done| |].
  - intros q' p' Hm'. by eapply member_unique.
  - intros y Hy. set_solver.
  - eauto.
  - by right.
  - intros a Ha. apply Hf. right. set_solver.
  - apply (queue_ok_sub x Ls p (l1 ++ t :: l2)); [done..| |by case_bool_decide].
    rewrite !length_app. simpl. lia.
Qed.

Lemma __pqueue_delete_node_spec m Q q Ls p l1 t l2 :
  pq_inv m Q -> Q !! q = Some Ls -> Ls !! p = Some (l1 ++ t :: l2) ->
  exists m', __pqueue_delete_node t m = Ok (tt, m') /\
    pq_inv m' (<[q := <[p := l1 ++ l2]> Ls]> Q) /\
    nodes m' = <[t := Node None (Z.of_nat p) node_lt_nowhere]> (nodes m) /\ same_locks m m'.
Proof.
  intros Hinv HQ HL. destruct (inv_queue _ _ Hinv _ _ HQ) as (x & Hx & _).
  assert (member Q q p t) as Hm by (exists Ls, (l1 ++ t :: l2); set_solver).
  pose proof (inv_member _ _ Hinv _ _ _ Hm) as Hn.
  destruct (pq_inv_out _ _ _ _ _ _ _ _ _ Hinv HQ HL Hx) as (h' & b & E & Hr' & _ & Hb & Hinv').
  eexists. split; [|split; [exact Hinv'|split; [done|]]].
  - unfold __pqueue_delete_node, __pqueue_delete. qunfold. qrun. rewrite E. qrun.
    rewrite (list_empty_spec _ _ _ Hr').
    rewrite (bool_decide_ext _ _ (fmap_nil_iff ANode (l1 ++ l2))). case_bool_decide.
    + qrun. rewrite Hb. simpl. unfold modify. simpl. by rewrite insert_insert_eq.
    + by subst b.
  - intros q'. simpl. rewrite lookup_insert. case_decide; [|done]. subst. by rewrite Hx.
Qed.

(** A node that is in no priority queue is left alone. *)
Lemma __pqueue_delete_node_refused m t n :
  nodes m !! t = Some n -> node_lt n <> node_lt_pqueue ->
  __pqueue_delete_node t m = Ok (tt, m).
Proof.
  intros Hn Hlt. unfold __pqueue_delete_node. qunfold. qrun.
  by rewrite bool_decide_eq_false_2.
Qed.

(** ** The order in which threads are taken *)

(** The threads of a queue, highest priority first, in list order. *)
Definition order (Ls : contents) : list nat := concat (reverse Ls).

(** A split of the lists at the highest non-empty one. *)
Lemma order_split (Ls : contents) p l :
  Ls !! p = Some l -> (forall i, (p < i)%nat -> nonempty_at Ls i = false) ->
  order Ls = l ++ order (take p Ls).
Proof.
  intros HL Hhi. unfold order.
  rewrite <- (take_drop_middle Ls p l HL) at 1.
  rewrite reverse_app, reverse_cons, !concat_app. simpl. rewrite app_nil_r.
  assert (concat (reverse (drop (S p) Ls)) = []) as ->; [|done].
  assert (Forall (eq []) (reverse (drop (S p) Ls))) as Hall.
  { apply Forall_reverse, Forall_lookup. intros i k Hk. rewrite lookup_drop in Hk.
    specialize (Hhi (S p + i)%nat ltac:(lia)). unfold nonempty_at in Hhi. rewrite Hk in Hhi.
    by destruct k. }
  by induction Hall as [|k ks <- _ IH].
Qed.

Lemma order_perm (Ls : contents) : order Ls ≡ₚ concat Ls.
Proof.
  unfold order. induction Ls as [|l Ls IH]; [done|].
  rewrite reverse_cons, concat_app. simpl. rewrite app_nil_r, IH. apply Permutation_app_comm.
Qed.

Lemma order_length (Ls : contents) : length (order Ls) = length (concat Ls).
Proof. by rewrite order_perm. Qed.

Lemma concat_nonempty (Ls : contents) : concat Ls <> [] ->
  exists p, nonempty_at Ls p = true.
Proof.
  induction Ls as [|l Ls IH]; [done|]. simpl. intros Hne.
  destruct l as [|x l]; [|by exists O].
  destruct (IH Hne) as [p Hp]. by exists (S p).
Qed.

Lemma nonempty_at_Some Ls p : nonempty_at Ls p = true ->
  exists x l, Ls !! p = Some (x :: l).
Proof. unfold nonempty_at. destruct (Ls !! p) as [[|x l]|]; eauto; done. Qed.

Lemma __pqueue_first_node_spec m Q q Ls :
  pq_inv m Q -> Q !! q = Some Ls -> Z.of_nat (length (concat Ls)) < 2 ^ 32 ->
  __pqueue_first_node q m = Ok (head (order Ls), m).
Proof.
  intros Hinv HQ Hlen.
  destruct (inv_queue _ _ Hinv _ _ HQ) as (x & Hx & Hok & Hwf & Hbits & Htot).
  rewrite wrap_small in Htot by lia.
  unfold __pqueue_first_node. qunfold. qrun. case_bool_decide as Ez.
  { assert (order Ls = []) as ->; [|done]. apply length_zero_iff_nil.
    rewrite order_length. lia. }
  assert (concat Ls <> []) as Hne.
  { intros E. rewrite E in Htot. done. }
  destruct (concat_nonempty Ls Hne) as [p0 Hp0].
  assert (p0 < 140)%nat as Hlt.
  { destruct (nonempty_at_Some _ _ Hp0) as (? & ? & HL). apply lookup_lt_Some in HL.
    rewrite Hok in HL. exact HL. }
  destruct (bitmap_ffms_spec (bitmap x) Hwf) as (k & Hk & Hb & Hset & Hhi).
  { exists (Z.of_nat p0). unfold BITMAP_BITS. rewrite Hbits. split; [lia|done]. }
  rewrite Hk. simpl.
  assert (k = Z.of_nat (Z.to_nat k)) as Ek by lia. set (p := Z.to_nat k) in *.
  rewrite Ek in Hset. rewrite Hbits in Hset.
  destruct (nonempty_at_Some _ _ Hset) as (t & l & HL).
  pose proof (inv_ring _ _ Hinv _ _ _ _ HQ HL) as Hr. rewrite Ek.
  rewrite (get_next_spec _ _ _ (ring_next _ _ _ Hr)). simpl.
  rewrite (order_split Ls p _ HL); [done|].
  intros i Hi. destruct (decide (Z.of_nat i < 160)) as [Hi2|Hi2].
  - rewrite <- Hbits. apply Hhi. lia.
  - unfold nonempty_at. rewrite lookup_ge_None_2; [done|]. rewrite Hok.
    change (Z.to_nat PRIO_TOTAL) with 140%nat. lia.
Qed.

(** ** Walking a queue *)

Lemma order_take_S (Ls : contents) p l :
  Ls !! p = Some l -> order (take (S p) Ls) = l ++ order (take p Ls).
Proof.
  intros HL. unfold order. rewrite (take_S_r _ _ _ HL), reverse_app.
  rewrite concat_app. simpl. by rewrite app_nil_r.
Qed.

Section walk.
Context (m : qmem) (Q : gmap qid contents) (q : qid) (Ls : contents).
Context (Hinv : pq_inv m Q) (HQ : Q !! q = Some Ls).

Lemma next_list_spec cnt : (cnt <= length Ls)%nat ->
  next_list q cnt m = Ok (head (order (take cnt Ls)), m).
Proof.
  induction cnt as [|p IH]; intros Hle; [by rewrite take_0|].
  destruct (lookup_lt_is_Some_2 Ls p ltac:(lia)) as [l HL].
  pose proof (inv_ring _ _ Hinv _ _ _ _ HQ HL) as Hr.
  rewrite (order_take_S _ _ _ HL). unfold next_list; fold next_list.
  qunfold. rewrite (list_empty_spec _ _ _ Hr). destruct l as [|t l]; simpl.
  - apply IH. lia.
  - by rewrite (get_next_spec _ _ _ (ring_next _ _ _ Hr)).
Qed.

Lemma __pqueue_get_next_node_spec p l1 t l2 :
  Ls !! p = Some (l1 ++ t :: l2) ->
  __pqueue_get_next_node t m = Ok (head (l2 ++ order (take p Ls)), m).
Proof.
  intros HL.
  assert (member Q q p t) as Hm by (exists Ls, (l1 ++ t :: l2); set_solver).
  pose proof (inv_member _ _ Hinv _ _ _ Hm) as Hn.
  pose proof (inv_ring _ _ Hinv _ _ _ _ HQ HL) as Hr. rewrite fmap_app in Hr. simpl in Hr.
  apply ring_rotate in Hr. pose proof (ring_next _ _ _ Hr) as Hx.
  unfold __pqueue_get_next_node. qunfold. qrun.
  rewrite (get_next_spec _ _ _ Hx). simpl.
  pose proof (lookup_lt_Some _ _ _ HL) as Hlt.
  destruct l2 as [|y l2]; simpl.
  - rewrite ?(bool_decide_eq_true_2 (Some _ = _)) by done.
    case_bool_decide; [|by replace p with 0%nat by lia].
    rewrite Nat2Z.id. apply next_list_spec. lia.
  - done.
Qed.

(** [for (t = o; t != NULL; t = next(t))], collecting the threads *)
Fixpoint walk (fuel : nat) (o : option nat) : M qmem (list nat) :=
  match o with
  | None => mret []
  | Some t =>
      match fuel with
      | O => fail Stuck
      | S fuel =>
          x ← __pqueue_get_next_node t;
          l ← walk fuel x;
          mret (t :: l)
      end
  end.

Lemma order_head_take cnt t r :
  order (take cnt Ls) = t :: r ->
  exists p l, (p < cnt)%nat /\ Ls !! p = Some (t :: l) /\ r = l ++ order (take p Ls).
Proof.
  induction cnt as [|c IH]; [by rewrite take_0|].
  destruct (Ls !! c) as [l|] eqn:HL.
  - rewrite (order_take_S _ _ _ HL). destruct l as [|y l]; simpl.
    + intros (p & l & ? & ? & ?)%IH. exists p, l. split; [lia|done].
    + intros [= -> <-]. exists c, l. split; [lia|done].
  - apply lookup_ge_None in HL. rewrite !take_ge in * by lia.
    intros (p & l & ? & ? & ?)%IH. exists p, l. split; [lia|done].
Qed.

Lemma walk_from fuel p l1 t l2 :
  Ls !! p = Some (l1 ++ t :: l2) ->
  (length (l2 ++ order (take p Ls)) < fuel)%nat ->
  walk fuel (Some t) m = Ok (t :: l2 ++ order (take p Ls), m).
Proof.
  revert p l1 t l2. induction fuel as [|fuel IH]; intros p l1 t l2 HL Hf; [lia|].
  simpl. unfold mbind, M_bind. rewrite (__pqueue_get_next_node_spec p l1 t l2 HL).
  destruct l2 as [|y l2]; simpl in *.
  - destruct (order (take p Ls)) as [|y r] eqn:Er; simpl; [by destruct fuel|].
    destruct (order_head_take _ _ _ Er) as (p' & l & _ & HL' & ->).
    rewrite (IH p' [] y l HL'); [done|]. simpl in Hf. lia.
  - rewrite (IH p (l1 ++ [t]) y l2); [done| |lia].
    by rewrite <- app_assoc.
Qed.
End walk.
Arguments walk : clear implicits.

(** ** Changing a priority *)

Lemma insert_lookup_list_ne (Ls : contents) p p' l l' :
  Ls !! p' = Some l -> p <> p' -> <[p := l']> Ls !! p' = Some l.
Proof. intros. by rewrite list_lookup_insert_ne. Qed.

Lemma wrap_back x : 0 <= x < 2 ^ 32 -> wrap 32 (wrap 32 (x + -1) + 1) = x.
Proof.
  intros Hx. unfold wrap. rewrite Zplus_mod_idemp_l.
  rewrite Z.mod_small; lia.
Qed.

(** Relinking an unlinked node at the front or at the back of a list. *)
Lemma relink_spec (front : bool) h q p k t :
  ring h (AHead q p) (ANode <$> k) -> is_Some (h !! ANode t) -> t ∉ k ->
  exists h', (if front then list_insert_tail (Some (ANode t)) (Some (AHead q p)) h
              else list_insert (Some (ANode t)) (Some (AHead q p)) h) = Ok h' /\
    ring h' (AHead q p) (ANode <$> (if front then k ++ [t] else t :: k)) /\ same_dom h h' /\
    forall a, a ∉ AHead q p :: ANode t :: (ANode <$> k) -> h' !! a = h !! a.
Proof.
  intros Hr Ht Htk. pose proof (ANode_nin t q p k Htk) as Hnin. destruct front.
  - destruct (list_insert_tail_spec _ _ _ _ Hr Ht Hnin) as (h' & E & Hr' & Hd & Hf).
    exists h'. rewrite fmap_app. split_and!; [done..|]. intros. apply Hf. set_solver.
  - destruct (list_insert_spec _ _ _ _ Hr Ht Hnin) as (h' & E & Hr' & Hd & Hf).
    exists h'. split_and!; [done..|]. intros. apply Hf. set_solver.
Qed.

Lemma __pqueue_node_priority_set_spec m Q q Ls p l1 t l2 p' k :
  pq_inv m Q -> Q !! q = Some Ls -> Ls !! p = Some (l1 ++ t :: l2) ->
  Ls !! p' = Some k -> p <> p' ->
  exists m', __pqueue_node_priority_set t (Z.of_nat p') m = Ok (tt, m') /\
    pq_inv m' (<[q := <[p' := if bool_decide (p < p')%nat then k ++ [t] else t :: k]>
                        (<[p := l1 ++ l2]> Ls)]> Q) /\
    nodes m' = <[t := Node (Some q) (Z.of_nat p') node_lt_pqueue]> (nodes m) /\ same_locks m m'.
Proof.
  intros Hinv HQ HL HK Hne. destruct (inv_queue _ _ Hinv _ _ HQ) as (x & Hx & Hok).
  assert (member Q q p t) as Hm by (exists Ls, (l1 ++ t :: l2); set_solver).
  pose proof (inv_member _ _ Hinv _ _ _ Hm) as Hn.
  destruct (pq_inv_out _ _ _ _ _ _ _ _ _ Hinv HQ HL Hx) as (h1 & b & E1 & Hr1 & Ht & Hb & Hinv1).
  set (x1 := PQ (wrap 32 (total x + -1)) b (lock x)) in *.
  pose proof (insert_lookup_list_ne _ _ _ _ (l1 ++ l2) HK Hne) as HK1.
  assert (t ∉ k) as Htk.
  { intros Hin. destruct (member_unique m Q Hinv q p q p' t Hm); [by exists Ls, k|]. congruence. }
  pose proof (inv_ring _ _ Hinv1 q _ p' k (lookup_insert_eq _ _ _) HK1) as Hr2. simpl in Hr2.
  destruct (inv_queue _ _ Hinv1 q _ (lookup_insert_eq _ _ _)) as (x1' & Hx1 & Hok1).
  simpl in Hx1. rewrite lookup_insert_eq in Hx1. injection Hx1 as <-.
  pose proof (lookup_lt_Some _ _ _ HK1) as Hlt1. rewrite (proj1 Hok1) in Hlt1.
  destruct (bitmap_set_ok x1 _ p' Hok1 Hlt1) as (b2 & Hb2).
  set (k' := if bool_decide (p < p')%nat then k ++ [t] else t :: k).
  destruct (relink_spec (bool_decide (p < p')%nat) _ _ _ _ _ Hr2 Ht Htk)
    as (h2 & E2 & Hr2' & Hd2 & Hf2). fold k' in Hr2'.
  set (x2 := PQ (wrap 32 (total x1 + 1)) b2 (lock x1)).
  set (n2 := Node (Some q) (Z.of_nat p') node_lt_pqueue).
  exists (QMem h2 (<[t := n2]> (nodes m)) (<[q := x2]> (queues m))).
  assert (k' ≡ₚ t :: k) as Hk'.
  { unfold k'. case_bool_decide; [apply place_tail_perm|reflexivity]. }
  split; [|split; [|split; [done|]]].
  - assert (x2 = PQ (total x) b2 (lock x)) as ->.
    { unfold x2, x1. cbn [total lock]. rewrite wrap_back; [done|].
      destruct Hok as (_ & _ & _ & ->). apply wrap_bound. lia. }
    unfold __pqueue_node_priority_set. qunfold. qrun.
    rewrite bool_decide_eq_false_2 by lia. qrun. rewrite E1. qrun.
    rewrite (list_empty_spec _ _ _ Hr1). qrun.
    rewrite (bool_decide_ext _ _ (fmap_nil_iff ANode (l1 ++ l2))).
    rewrite (bool_decide_ext (Z.of_nat p < Z.of_nat p') (p < p')%nat) by lia.
    case_bool_decide; case_bool_decide; unfold modify; qrun; rewrite ?Hb; qrun;
      rewrite E2; qrun; unfold x1 in Hb2; cbn [bitmap] in Hb2; subst;
      rewrite Hb2; qrun; by rewrite ?insert_insert_eq.
  - pose proof (pq_inv_update _ _ Hinv1 q (<[p := l1 ++ l2]> Ls) p' k k' t n2 h2 x2) as Hup.
    cbn [links nodes queues] in Hup. rewrite !insert_insert_eq in Hup.
    apply Hup; clear Hup; [apply lookup_insert_eq|done| | | | |done|done|done|].
    + intros q' p2 Hm2. exfalso.
      apply (free_not_member _ _ Hinv1 t (Node None (Z.of_nat p) node_lt_nowhere) q' p2);
        [apply lookup_insert_eq|by split|done].
    + intros y Hy. rewrite Hk'. set_solver.
    + rewrite lookup_insert_eq. eauto.
    + left. split; [rewrite Hk'; set_solver|done].
    + apply (queue_ok_add x1 _ p' k); [exact Hok1|exact HK1| |exact Hb2]. by rewrite Hk'.
  - intros q'. cbn [queues]. destruct (decide (q = q')) as [<-|].
    + by rewrite lookup_insert_eq, Hx.
    + by rewrite lookup_insert_ne.
Qed.

(** A node that is in no queue only gets the number. *)
Lemma __pqueue_node_priority_set_free m t n v :
  nodes m !! t = Some n -> bp n = None ->
  exists m', __pqueue_node_priority_set t v m = Ok (tt, m') /\
    links m' = links m /\ queues m' = queues m /\
    nodes m' = <[t := Node None v (node_lt n)]> (nodes m).
Proof.
  intros Hn Hb. destruct n as [b p lt]. simpl in Hb. subst b.
  unfold __pqueue_node_priority_set. qunfold. qrun. case_bool_decide; subst.
  - exists m. split_and!; [done..|]. by rewrite insert_id.
  - eexists. split; [done|]. done.
Qed.

(** ** Favouring a thread *)

(** The list after [t] was moved to its second position. *)
Definition favored (l : list nat) (t : nat) : list nat :=
  match l with
  | x :: y :: _ =>
      if bool_decide (x = t) || bool_decide (y = t) then l
      else place_second (filter (fun z => z <> t) l) t
  | _ => l
  end.

Lemma filter_ne_middle (l1 l2 : list nat) t :
  t ∉ l1 -> t ∉ l2 -> filter (fun z => z <> t) (l1 ++ t :: l2) = l1 ++ l2.
Proof.
  intros H1 H2. rewrite filter_app, filter_cons_False by naive_solver.
  assert (forall l : list nat, t ∉ l -> filter (fun z => z <> t) l = l) as Hf.
  { induction l as [|y l IH]; [done|]. intros [? ?]%not_elem_of_cons.
    rewrite filter_cons_True by done. by rewrite IH. }
  by rewrite !Hf.
Qed.

Lemma member_nodup m Q q Ls p l :
  pq_inv m Q -> Q !! q = Some Ls -> Ls !! p = Some l -> NoDup l.
Proof.
  intros Hinv HQ HL. pose proof (inv_ring _ _ Hinv _ _ _ _ HQ HL) as Hr.
  apply ring_nodup in Hr as [_ Hr]%NoDup_cons. by apply (NoDup_fmap_1 ANode).
Qed.

Lemma favored_far x y l1 t l2 : t ∉ x :: y :: l1 ++ l2 ->
  favored ((x :: y :: l1) ++ t :: l2) t = x :: t :: y :: l1 ++ l2.
Proof.
  intros Ht. cbn [app favored]. rewrite !bool_decide_eq_false_2 by set_solver.
  change (x :: y :: l1 ++ t :: l2) with ((x :: y :: l1) ++ t :: l2).
  cbn [orb]. rewrite filter_ne_middle by set_solver. done.
Qed.

(** A list that keeps its length keeps the head part right. *)
Lemma queue_ok_move x Ls p l l' :
  queue_ok x Ls -> Ls !! p = Some l -> length l' = length l -> queue_ok x (<[p := l']> Ls).
Proof.
  intros (H1 & H2 & H3 & H4) HL Hlen. split_and!; [by rewrite length_insert|done| |].
  - intros i. rewrite H3, (nonempty_at_insert _ _ _ _ _ HL).
    case_bool_decide; [|done]. subst. unfold nonempty_at. rewrite HL. by destruct l, l'.
  - pose proof (length_concat_insert Ls p _ l' HL). rewrite H4. do 2 f_equal. lia.
Qed.

Lemma favored_early m Q q Ls p l1 t l2 :
  pq_inv m Q -> Q !! q = Some Ls -> Ls !! p = Some (l1 ++ t :: l2) ->
  (length l1 < 2)%nat -> __pqueue_favor t m = Ok (tt, m).
Proof.
  intros Hinv HQ HL Hlen.
  assert (member Q q p t) as Hm by (exists Ls, (l1 ++ t :: l2); set_solver).
  pose proof (inv_member _ _ Hinv _ _ _ Hm) as Hn.
  pose proof (inv_ring _ _ Hinv _ _ _ _ HQ HL) as Hr.
  unfold __pqueue_favor. qunfold. qrun. rewrite (list_empty_spec _ _ _ Hr).
  rewrite bool_decide_eq_false_2 by (by destruct l1). simpl.
  rewrite (get_next_spec _ _ _ (ring_next _ _ _ Hr)). simpl.
  destruct l1 as [|x [|y l1]]; simpl in *; [by rewrite bool_decide_eq_true_2| |lia].
  case_bool_decide; [done|].
  apply (ring_rotate _ _ []) in Hr. rewrite (get_next_spec _ _ _ (ring_next _ _ _ Hr)). simpl.
  by rewrite bool_decide_eq_true_2.
Qed.

Lemma __pqueue_favor_spec m Q q Ls p l1 t l2 :
  pq_inv m Q -> Q !! q = Some Ls -> Ls !! p = Some (l1 ++ t :: l2) ->
  exists m', __pqueue_favor t m = Ok (tt, m') /\
    pq_inv m' (<[q := <[p := favored (l1 ++ t :: l2) t]> Ls]> Q) /\
    nodes m' = nodes m /\ queues m' = queues m.
Proof.
  intros Hinv HQ HL.
  pose proof (member_nodup _ _ _ _ _ _ Hinv HQ HL) as Hnd.
  destruct (decide (length l1 < 2)%nat) as [Hlen|Hlen].
  { exists m. split; [by eapply favored_early|]. split; [|done].
    assert (favored (l1 ++ t :: l2) t = l1 ++ t :: l2) as ->.
    { destruct l1 as [|x [|y l1]]; simpl in *; [|rewrite (bool_decide_eq_true_2 (t = t)) by done; by rewrite orb_true_r|lia].
      destruct l2; [done|]. by rewrite bool_decide_eq_true_2. }
    by rewrite list_insert_id, insert_id. }
  destruct l1 as [|x [|y l1]]; simpl in Hlen; [lia..|]. clear Hlen.
  assert (member Q q p t) as Hm by (exists Ls, (x :: y :: l1 ++ t :: l2); set_solver).
  pose proof (inv_member _ _ Hinv _ _ _ Hm) as Hn.
  destruct (inv_queue _ _ Hinv _ _ HQ) as (X & HX & Hok).
  pose proof (inv_ring _ _ Hinv _ _ _ _ HQ HL) as Hr.
  assert (t ∉ x :: y :: l1 ++ l2) as Htl.
  { simpl in Hnd. apply NoDup_cons in Hnd as [Hx Hnd]. apply NoDup_cons in Hnd as [Hy Hnd].
    apply NoDup_app in Hnd as (_ & H1 & [H2 _]%NoDup_cons). set_solver. }
  assert (favored ((x :: y :: l1) ++ t :: l2) t = x :: t :: y :: l1 ++ l2) as ->.
  { by apply favored_far. }
  pose proof Hr as Hr0. rewrite fmap_app in Hr0.
  destruct (list_del_spec (links m) (AHead q (Z.of_nat p)) (fmap (M:=list) ANode (x :: y :: l1))
    (ANode t) (fmap (M:=list) ANode l2) Hr0) as (h1 & E1 & Hr1 & Hd1 & Hf1).
  rewrite <- fmap_app in Hr1, Hf1.
  assert (is_Some (h1 !! ANode t)) as Ht by (apply Hd1; by apply (inv_node _ _ Hinv _ _ Hn)).
  destruct (list_insert_second_spec _ _ _ (fmap (M:=list) ANode ((x :: y :: l1) ++ l2)) Hr1 Ht (ANode_nin _ _ _ _ Htl))
    as (h2 & E2 & Hr2 & Hd2 & Hf2).
  exists (QMem h2 (nodes m) (queues m)). split; [|split; [|done]].
  - unfold __pqueue_favor. qunfold. qrun. rewrite (list_empty_spec _ _ _ Hr). simpl.
    rewrite (get_next_spec _ _ _ (ring_next _ _ _ Hr)). simpl.
    rewrite bool_decide_eq_false_2 by (intros [=]; set_solver).
    pose proof (proj1 (ring_rotate _ _ [] _ _) Hr) as Hr3.
    rewrite (get_next_spec _ _ _ (ring_next _ _ _ Hr3)). simpl.
    rewrite bool_decide_eq_false_2 by (intros [=]; set_solver).
    rewrite E1. simpl.
    destruct (get_next h1 (Some (AHead q (Z.of_nat p)))) as [w|]; [|done].
    simpl in *. by rewrite E2.
  - pose proof (pq_inv_update m Q Hinv q Ls p ((x :: y :: l1) ++ t :: l2)
      (x :: t :: y :: l1 ++ l2) t (Node (Some q) (Z.of_nat p) node_lt_pqueue) h2 X HQ HL) as Hup.
    rewrite (insert_id (queues m)) in Hup by done. rewrite (insert_id (nodes m)) in Hup by exact Hn.
    apply Hup; clear Hup.
    + intros q' p' Hm'. by eapply member_unique.
    + intros z Hz. set_solver.
    + eauto.
    + left. split; [set_solver|done].
    + exact Hr2.
    + by eapply same_dom_trans.
    + intros a Ha. rewrite Hf2 by set_solver. apply Hf1. right. set_solver.
    + apply (queue_ok_move X _ _ _ _ Hok HL). simpl. rewrite !length_app. simpl. lia.
Qed.

(** ** The locking variants *)

Lemma same_locks_refl m : same_locks m m.
Proof. done. Qed.

Definition set_lock (q : qid) (v : Z) (x : pqueue_st) (m : qmem) : qmem :=
  QMem (links m) (nodes m) (<[q := PQ (total x) (bitmap x) v]> (queues m)).

Lemma pq_inv_set_lock m Q q v x :
  pq_inv m Q -> queues m !! q = Some x -> pq_inv (set_lock q v x m) Q.
Proof.
  intros [H1 H2 H3 H4] Hx. split; [|done..].
  intros q' Ls HQ. unfold set_lock. cbn [queues]. rewrite lookup_insert.
  case_decide; subst; [|by apply H1]. eexists. split; [done|].
  destruct (H1 _ _ HQ) as (? & ? & Hok). by simplify_eq.
Qed.

(** [f] returns [a] and leaves the queues [Q'] and the nodes [N]; no lock is
    left taken. *)
Definition runs {A} (f : M qmem A) (m : qmem) (a : A) (Q' : gmap qid contents)
    (N : gmap nat node_st) : Prop :=
  exists m', f m = Ok (a, m') /\ pq_inv m' Q' /\ nodes m' = N /\ same_locks m m'.

Lemma locked_spec {A} q (f : M qmem A) m Q a Q' N :
  pq_inv m Q -> lock <$> queues m !! q = Some 0 ->
  (forall m1, pq_inv m1 Q -> nodes m1 = nodes m -> runs f m1 a Q' N) ->
  runs (locked q f) m a Q' N.
Proof.
  intros Hinv Hl Hf. destruct (queues m !! q) as [x|] eqn:Hx; [|done]. simpl in Hl.
  injection Hl as Hl.
  destruct (Hf (set_lock q 1 x m)) as (m2 & E & Hinv2 & HN & Hs); [by apply pq_inv_set_lock|done|].
  pose proof (Hs q) as Hq. unfold set_lock in Hq. cbn [queues] in Hq.
  rewrite lookup_insert_eq in Hq. destruct (queues m2 !! q) as [x2|] eqn:Hx2; [|done].
  exists (set_lock q 0 x2 m2). split.
  - unfold locked, spin_lock, spin_unlock. qunfold. qrun. rewrite bool_decide_eq_true_2 by done.
    simpl. unfold modify at 1. unfold set_lock in E. rewrite E. by rewrite Hx2.
  - split; [by apply pq_inv_set_lock|]. split; [done|].
    intros q'. unfold set_lock. cbn [queues]. rewrite lookup_insert.
    case_decide as Hne; subst; [by rewrite Hx; simpl; rewrite Hl|].
    rewrite (Hs q'). unfold set_lock. cbn [queues]. by rewrite lookup_insert_ne.
Qed.

(** ** Abstract priority queues

    What the queues promise: a thread is in at most one queue, in the list of
    its priority; the operations below move it, and [pq_step] says to where and
    what they return. *)

Inductive place : Set := Tail | Front | Second.

Inductive pq_op : Set :=
  | OInsert (w : place) (q : qid) (t : nat)
  | ODelete (t : nat)
  | OFirst (q : qid)
  | ONext (t : nat)
  | OPriority (t : nat) (p : nat)
  | OFavor (t : nat)
  | OContains (q : qid) (t : nat)
  | OTotal (q : qid).

Inductive pq_ret : Set := RUnit | RNode (o : option nat) | RBool (b : bool) | RNum (n : Z).

Definition pq_exec (op : pq_op) : M qmem pq_ret :=
  match op with
  | OInsert Tail q t => pqueue_append_node q t;; mret RUnit
  | OInsert Front q t => pqueue_prepend_node q t;; mret RUnit
  | OInsert Second q t => pqueue_prepend_second_node q t;; mret RUnit
  | ODelete t => pqueue_delete_node t;; mret RUnit
  | OFirst q => o ← pqueue_first_node q; mret (RNode o)
  | ONext t => o ← __pqueue_get_next_node t; mret (RNode o)
  | OPriority t p => __pqueue_node_priority_set t (Z.of_nat p);; mret RUnit
  | OFavor t => pqueue_favor t;; mret RUnit
  | OContains q t => b ← pqueue_contains q t; mret (RBool b)
  | OTotal q => n ← pqueue_total q; mret (RNum n)
  end.

Definition placed (w : place) (l : list nat) (t : nat) : list nat :=
  match w with Tail => place_tail l t | Front => place_head l t | Second => place_second l t end.

Definition free_in (Q : gmap qid contents) (t : nat) : Prop := forall q p, ~ member Q q p t.

Abbreviation aqueues := (gmap qid contents * gmap nat Z)%type.

(** [(Q, P)]: the lists of every queue, the priority of every thread. *)
Inductive pq_step : aqueues -> pq_op -> pq_ret -> aqueues -> Prop :=
  | st_insert w q t p Ls l Q P :
      free_in Q t -> P !! t = Some (Z.of_nat p) -> Q !! q = Some Ls -> Ls !! p = Some l ->
      pq_step (Q, P) (OInsert w q t) RUnit (<[q := <[p := placed w l t]> Ls]> Q, P)
  | st_insert_busy w q t q' p' Q P :
      member Q q' p' t -> pq_step (Q, P) (OInsert w q t) RUnit (Q, P)
  | st_delete t q Ls p l1 l2 Q P :
      Q !! q = Some Ls -> Ls !! p = Some (l1 ++ t :: l2) ->
      pq_step (Q, P) (ODelete t) RUnit (<[q := <[p := l1 ++ l2]> Ls]> Q, P)
  | st_delete_free t Q P : free_in Q t -> pq_step (Q, P) (ODelete t) RUnit (Q, P)
  | st_first q Ls Q P :
      Q !! q = Some Ls -> pq_step (Q, P) (OFirst q) (RNode (head (order Ls))) (Q, P)
  | st_next t q Ls p l1 l2 Q P :
      Q !! q = Some Ls -> Ls !! p = Some (l1 ++ t :: l2) ->
      pq_step (Q, P) (ONext t) (RNode (head (l2 ++ order (take p Ls)))) (Q, P)
  | st_next_free t Q P : free_in Q t -> pq_step (Q, P) (ONext t) (RNode None) (Q, P)
  | st_priority_same t p Q P :
      P !! t = Some (Z.of_nat p) -> pq_step (Q, P) (OPriority t p) RUnit (Q, P)
  | st_priority t q Ls p l1 l2 p' k Q P :
      Q !! q = Some Ls -> Ls !! p = Some (l1 ++ t :: l2) -> Ls !! p' = Some k -> p <> p' ->
      pq_step (Q, P) (OPriority t p') RUnit
        (<[q := <[p' := if bool_decide (p < p')%nat then k ++ [t] else t :: k]>
                  (<[p := l1 ++ l2]> Ls)]> Q, <[t := Z.of_nat p']> P)
  | st_priority_free t p Q P :
      free_in Q t -> pq_step (Q, P) (OPriority t p) RUnit (Q, <[t := Z.of_nat p]> P)
  | st_favor t q Ls p l Q P :
      Q !! q = Some Ls -> Ls !! p = Some l -> t ∈ l ->
      pq_step (Q, P) (OFavor t) RUnit (<[q := <[p := favored l t]> Ls]> Q, P)
  | st_favor_free t Q P : free_in Q t -> pq_step (Q, P) (OFavor t) RUnit (Q, P)
  | st_contains q t b Q P :
      (b = true <-> exists p, member Q q p t) -> pq_step (Q, P) (OContains q t) (RBool b) (Q, P)
  | st_total q Ls Q P :
      Q !! q = Some Ls ->
      pq_step (Q, P) (OTotal q) (RNum (Z.of_nat (length (concat Ls)))) (Q, P).

(** The memory represents the abstract queues; no lock is taken. *)
Record pq_rel (m : qmem) (a : aqueues) : Prop := {
  rel_inv : pq_inv m a.1;
  rel_prio : a.2 = priority <$> nodes m;
  rel_locks : forall q x, queues m !! q = Some x -> lock x = 0 /\ is_Some (a.1 !! q);
  rel_range : forall t n, nodes m !! t = Some n -> 0 <= priority n < PRIO_TOTAL;
  rel_size : Z.of_nat (size (nodes m)) < 2 ^ 32 }.

(** The arguments exist and the new priority is one. *)
Definition op_ok (a : aqueues) (op : pq_op) : Prop :=
  match op with
  | OInsert _ q t | OContains q t => is_Some (a.1 !! q) /\ is_Some (a.2 !! t)
  | ODelete t | ONext t | OFavor t => is_Some (a.2 !! t)
  | OFirst q | OTotal q => is_Some (a.1 !! q)
  | OPriority t p => is_Some (a.2 !! t) /\ (p < Z.to_nat PRIO_TOTAL)%nat
  end.

(** ** Refinement *)

Lemma NoDup_concat (Ls : contents) :
  (forall p l, Ls !! p = Some l -> NoDup l) ->
  (forall p p' l l' t, Ls !! p = Some l -> Ls !! p' = Some l' -> t ∈ l -> t ∈ l' -> p = p') ->
  NoDup (concat Ls).
Proof.
  induction Ls as [|l Ls IH]; intros H1 H2; [constructor|]. simpl. apply NoDup_app. split_and!.
  - by apply (H1 O).
  - intros t Ht Hin. rewrite list_elem_of_In, in_concat in Hin. destruct Hin as (k & Hk & Hk').
    apply list_elem_of_In in Hk. apply list_elem_of_In in Hk'. apply list_elem_of_lookup_1 in Hk as [i Hi].
    specialize (H2 O (S i) l k t eq_refl Hi Ht Hk'). lia.
  - apply IH; [by intros p; apply (H1 (S p))|].
    intros p p' k k' t E1 E2 I1 I2. specialize (H2 (S p) (S p') k k' t E1 E2 I1 I2). lia.
Qed.

(** No thread is twice in a queue. *)
Lemma order_nodup m Q q Ls : pq_inv m Q -> Q !! q = Some Ls -> NoDup (order Ls).
Proof.
  intros Hinv HQ. rewrite order_perm. apply NoDup_concat; [intros p l HL; by eapply member_nodup|].
  intros p p' l l' t E1 E2 H1 H2.
  destruct (member_unique m Q Hinv q p q p' t); [by exists Ls, l|by exists Ls, l'|done].
Qed.

Lemma queue_size m Q q Ls : pq_inv m Q -> Q !! q = Some Ls ->
  (length (concat Ls) <= size (nodes m))%nat.
Proof.
  intros Hinv HQ. rewrite <- size_dom.
  assert (NoDup (concat Ls)) as Hnd by (rewrite <- order_perm; by eapply order_nodup).
  rewrite <- (size_list_to_set (C:=gset nat)) by done. apply subseteq_size.
  intros t Ht. rewrite elem_of_list_to_set, list_elem_of_In, in_concat in Ht.
  destruct Ht as (l & Hl & Ht). apply list_elem_of_In in Hl. apply list_elem_of_In in Ht.
  apply list_elem_of_lookup_1 in Hl as [p HL].
  apply elem_of_dom. eexists. eapply (inv_member _ _ Hinv). by exists Ls, l.
Qed.

(** A thread is in no queue, or at one place of one. *)
Lemma thread_place m Q t n :
  pq_inv m Q -> nodes m !! t = Some n ->
  (free_node n /\ free_in Q t) \/
  exists q Ls p l1 l2, n = Node (Some q) (Z.of_nat p) node_lt_pqueue /\
    Q !! q = Some Ls /\ Ls !! p = Some (l1 ++ t :: l2).
Proof.
  intros Hinv Hn. destruct (inv_node _ _ Hinv _ _ Hn) as [_ [Hf|(q & p & Hm)]].
  - left. split; [done|]. intros q p. by eapply free_not_member.
  - right. pose proof (inv_member _ _ Hinv _ _ _ Hm) as Hn'. simplify_eq.
    destruct Hm as (Ls & l & HQ & HL & (l1 & l2 & ->)%list_elem_of_split). eauto 10.
Qed.

(** One operation refines one abstract step. *)
Definition refines_step (m : qmem) (a : aqueues) (op : pq_op) : Prop :=
  exists r m' a', pq_exec op m = Ok (r, m') /\ pq_step a op r a' /\ pq_rel m' a' /\
    dom a'.1 = dom a.1 /\ dom a'.2 = dom a.2.

Section simulation.
Context (m : qmem) (Q : gmap qid contents) (P : gmap nat Z) (Hrel : pq_rel m (Q, P)).

Lemma lock_free q : is_Some (Q !! q) -> lock <$> queues m !! q = Some 0.
Proof.
  intros [Ls HQ]. destruct (inv_queue _ _ (rel_inv _ _ Hrel) _ _ HQ) as (x & Hx & _).
  rewrite Hx. simpl. f_equal. by eapply rel_locks.
Qed.

Lemma prio_lookup t : is_Some (P !! t) ->
  exists n, nodes m !! t = Some n /\ P !! t = Some (priority n).
Proof.
  rewrite (rel_prio _ _ Hrel : P = _), lookup_fmap.
  destruct (nodes m !! t) as [n|]; [eauto|by intros []].
Qed.

Lemma pq_rel_runs {A} (f : M qmem A) a Q' N :
  runs f m a Q' N -> dom Q' = dom Q -> dom N = dom (nodes m) ->
  (forall t n, N !! t = Some n -> 0 <= priority n < PRIO_TOTAL) ->
  exists m', f m = Ok (a, m') /\ pq_rel m' (Q', priority <$> N).
Proof.
  intros (m' & E & Hinv & HN & Hs) HQ Hd Hr. exists m'. split; [done|].
  split; simpl; [done|by rewrite HN| |by rewrite HN|].
  - intros q x Hx. specialize (Hs q). rewrite Hx in Hs.
    destruct (queues m !! q) as [y|] eqn:Hy; [|done].
    destruct (rel_locks _ _ Hrel q y Hy) as [Hl Hq]. split; [simpl in Hs; congruence|].
    apply elem_of_dom. rewrite HQ. by apply elem_of_dom.
  - rewrite HN, <- size_dom, Hd, size_dom. apply (rel_size _ _ Hrel).
Qed.

(** An operation that returns nothing. *)
Lemma refines_unit op f Q' N :
  pq_exec op = (f;; mret RUnit) -> runs f m tt Q' N ->
  pq_step (Q, P) op RUnit (Q', priority <$> N) ->
  dom Q' = dom Q -> dom N = dom (nodes m) ->
  (forall t n, N !! t = Some n -> 0 <= priority n < PRIO_TOTAL) ->
  refines_step m (Q, P) op.
Proof.
  intros Ex Hf Hst HQ HN Hr.
  destruct (pq_rel_runs _ _ _ _ Hf HQ HN Hr) as (m' & E & Hrel').
  exists RUnit, m', (Q', priority <$> N). split_and!; [|done..|].
  - rewrite Ex. unfold mbind, M_bind. by rewrite E.
  - simpl. rewrite (rel_prio _ _ Hrel : P = _), !dom_fmap_L. done.
Qed.

Lemma refines_same op r :
  pq_exec op m = Ok (r, m) -> pq_step (Q, P) op r (Q, P) -> refines_step m (Q, P) op.
Proof. intros E Hst. exists r, m, (Q, P). done. Qed.

(** Replacing a node by one of the same priority. *)
Lemma prio_insert_same t n n' : nodes m !! t = Some n -> priority n' = priority n ->
  priority <$> <[t := n']> (nodes m) = P /\ dom (<[t := n']> (nodes m)) = dom (nodes m) /\
  (forall u k, <[t := n']> (nodes m) !! u = Some k -> 0 <= priority k < PRIO_TOTAL).
Proof.
  intros Hn Hp. split_and!.
  - rewrite (rel_prio _ _ Hrel : P = _), fmap_insert, Hp. apply insert_id.
    by rewrite lookup_fmap, Hn.
  - rewrite dom_insert_lookup_L; eauto.
  - intros u k. rewrite lookup_insert. case_decide; [intros [= <-]; rewrite Hp|];
      by eapply rel_range.
Qed.

Lemma dom_update q Ls Ls' : Q !! q = Some Ls -> dom (<[q := Ls']> Q) = dom Q.
Proof. intros HQ. rewrite dom_insert_lookup_L; eauto. Qed.

Lemma sim_insert w q t : op_ok (Q, P) (OInsert w q t) -> refines_step m (Q, P) (OInsert w q t).
Proof.
  intros [[Ls HQ] (n & Hn & HP)%prio_lookup]. simpl in HQ.
  set (f := pqueue_enter (match w with Tail => __pqueue_insert_tail | Front => __pqueue_insert
                          | Second => __pqueue_insert_second end) q t).
  assert (pq_exec (OInsert w q t) = (locked q f;; mret RUnit)) as Ex by (by destruct w).
  pose proof (rel_range _ _ Hrel _ _ Hn) as Hr.
  destruct (thread_place _ _ _ _ (rel_inv _ _ Hrel) Hn)
    as [[Hf Hfr]|(q' & Ls' & p' & l1 & l2 & -> & HQ' & HL')].
  - destruct (inv_queue _ _ (rel_inv _ _ Hrel) _ _ HQ) as (x & _ & Hlen & _).
    destruct (lookup_lt_is_Some_2 Ls (Z.to_nat (priority n))) as [l HL]; [rewrite Hlen; lia|].
    assert (priority n = Z.of_nat (Z.to_nat (priority n))) as Ep by lia.
    destruct (prio_insert_same t n (Node (Some q) (priority n) node_lt_pqueue) Hn eq_refl)
      as (E1 & E2 & E3).
    eapply (refines_unit _ _ (<[q := <[Z.to_nat (priority n) := placed w l t]> Ls]> Q));
      [exact Ex| | |by eapply dom_update|exact E2|exact E3].
    + eapply locked_spec; [apply (rel_inv _ _ Hrel)|by apply lock_free; eauto|].
      intros m1 Hinv1 HN. rewrite <- HN in Hn |- *.
      apply (pqueue_enter_spec _ (placed w) m1 Q q Ls t n (Z.to_nat (priority n)) l); try done.
      * destruct w; [apply __pqueue_insert_tail_links|apply __pqueue_insert_links
          |apply __pqueue_insert_second_links].
      * intros k u. destruct w; [apply place_tail_perm|done|apply place_second_perm].
    + rewrite E1. apply st_insert; [done|by rewrite HP, <- Ep|done|done].
  - eapply (refines_unit _ _ Q (nodes m)); [exact Ex| | |done|done|apply (rel_range _ _ Hrel)].
    + eapply locked_spec; [apply (rel_inv _ _ Hrel)|by apply lock_free; eauto|].
      intros m1 Hinv1 HN. exists m1. split; [|done]. rewrite <- HN in Hn.
      by eapply pqueue_enter_refused.
    + rewrite <- (rel_prio _ _ Hrel : P = _). eapply (st_insert_busy w q t q' p').
      exists Ls', (l1 ++ t :: l2). set_solver.
Qed.

Lemma sim_delete t : op_ok (Q, P) (ODelete t) -> refines_step m (Q, P) (ODelete t).
Proof.
  intros (n & Hn & HP)%prio_lookup.
  destruct (thread_place _ _ _ _ (rel_inv _ _ Hrel) Hn)
    as [[[Hb Hl] Hfr]|(q & Ls & p & l1 & l2 & -> & HQ & HL)].
  - apply (refines_same _ RUnit); [|by apply st_delete_free].
    unfold pq_exec, pqueue_delete_node. qunfold. qrun. rewrite bool_decide_eq_false_2; [done|].
    by rewrite Hl.
  - destruct (prio_insert_same t _ (Node None (Z.of_nat p) node_lt_nowhere) Hn eq_refl)
      as (E1 & E2 & E3).
    eapply (refines_unit _ (pqueue_delete_node t) (<[q := <[p := l1 ++ l2]> Ls]> Q));
      [done| | |by eapply dom_update|exact E2|exact E3].
    + destruct (locked_spec q (__pqueue_delete_node t) m Q tt (<[q := <[p := l1 ++ l2]> Ls]> Q)
        (<[t := Node None (Z.of_nat p) node_lt_nowhere]> (nodes m))) as (m' & E & Hm');
        [apply (rel_inv _ _ Hrel)|by apply lock_free; eauto| |].
      { intros m1 Hinv1 <-. by apply __pqueue_delete_node_spec. }
      exists m'. split; [|done]. unfold pqueue_delete_node. qunfold. qrun. exact E.
    + rewrite E1. by apply st_delete.
Qed.

Lemma sim_first q : op_ok (Q, P) (OFirst q) -> refines_step m (Q, P) (OFirst q).
Proof.
  intros [Ls HQ]. simpl in HQ.
  destruct (locked_spec q (__pqueue_first_node q) m Q (head (order Ls)) Q (nodes m))
    as (m' & E & Hinv' & HN & Hs); [apply (rel_inv _ _ Hrel)|by apply lock_free; eauto| |].
  { intros m1 Hinv1 HN. exists m1. split; [|done]. apply (__pqueue_first_node_spec _ Q); [done..|].
    pose proof (queue_size _ _ _ _ Hinv1 HQ) as Hsz. rewrite HN in Hsz.
    pose proof (rel_size _ _ Hrel). lia. }
  destruct (pq_rel_runs (pqueue_first_node q) (head (order Ls)) Q (nodes m))
    as (m2 & E2 & Hrel2); [by exists m'|done|done|apply (rel_range _ _ Hrel)|].
  rewrite <- (rel_prio _ _ Hrel : P = _) in Hrel2.
  eexists _, m2, (Q, P). split; [|split; [|by split]].
  - unfold pq_exec, mbind, M_bind. by rewrite E2.
  - by apply st_first.
Qed.

Lemma sim_next t : op_ok (Q, P) (ONext t) -> refines_step m (Q, P) (ONext t).
Proof.
  intros (n & Hn & HP)%prio_lookup.
  destruct (thread_place _ _ _ _ (rel_inv _ _ Hrel) Hn)
    as [[[Hb Hl] Hfr]|(q & Ls & p & l1 & l2 & -> & HQ & HL)].
  - apply (refines_same _ (RNode None)); [|by apply st_next_free].
    unfold pq_exec, __pqueue_get_next_node. qunfold. qrun. by rewrite Hb.
  - eapply refines_same; [|by eapply (st_next t q Ls p l1 l2)].
    unfold pq_exec, mbind, M_bind.
    by rewrite (__pqueue_get_next_node_spec m Q q Ls (rel_inv _ _ Hrel) HQ p l1 t l2 HL).
Qed.

Lemma prio_insert t n p v : nodes m !! t = Some n -> (p < Z.to_nat PRIO_TOTAL)%nat ->
  priority v = Z.of_nat p ->
  priority <$> <[t := v]> (nodes m) = <[t := Z.of_nat p]> P /\
  dom (<[t := v]> (nodes m)) = dom (nodes m) /\
  (forall u k, <[t := v]> (nodes m) !! u = Some k -> 0 <= priority k < PRIO_TOTAL).
Proof.
  intros Hn Hp Hv. split_and!.
  - by rewrite fmap_insert, Hv, <- (rel_prio _ _ Hrel : P = _).
  - rewrite dom_insert_lookup_L; eauto.
  - intros u k. rewrite lookup_insert. case_decide; [|by eapply rel_range].
    intros [= <-]. rewrite Hv. change (Z.to_nat PRIO_TOTAL) with 140%nat in Hp.
    change PRIO_TOTAL with 140. lia.
Qed.

Lemma sim_priority t p : op_ok (Q, P) (OPriority t p) -> refines_step m (Q, P) (OPriority t p).
Proof.
  intros [(n & Hn & HP)%prio_lookup Hp].
  destruct (decide (priority n = Z.of_nat p)) as [Ep|Ep].
  { apply (refines_same _ RUnit); [|apply st_priority_same; by rewrite HP, Ep].
    unfold pq_exec, __pqueue_node_priority_set. qunfold. qrun. by rewrite bool_decide_eq_true_2. }
  destruct (thread_place _ _ _ _ (rel_inv _ _ Hrel) Hn)
    as [[[Hb Hl] Hfr]|(q & Ls & p0 & l1 & l2 & -> & HQ & HL)].
  - destruct (prio_insert t _ p (Node None (Z.of_nat p) (node_lt n)) Hn Hp eq_refl)
      as (E1 & E2 & E3).
    eapply (refines_unit _ _ Q); [done| | |done|exact E2|exact E3].
    + destruct (__pqueue_node_priority_set_free m t n (Z.of_nat p) Hn Hb)
        as (m' & E & H1 & H2 & H3).
      exists m'. split; [done|]. split; [|split; [done|by intros q'; rewrite H2]].
      destruct (rel_inv _ _ Hrel) as [I1 I2 I3 I4]. split; rewrite ?H1, ?H2, ?H3; [done|done| |].
      * intros q' p' u Hm. rewrite lookup_insert_ne; [by apply I3|].
        intros ->. by apply (Hfr q' p').
      * intros u k. rewrite lookup_insert. case_decide; [|by apply I4]. intros [= <-]. subst.
        split; [by apply (I4 _ _ Hn)|by left].
    + rewrite E1. by apply st_priority_free.
  - simpl in Ep. destruct (inv_queue _ _ (rel_inv _ _ Hrel) _ _ HQ) as (x & _ & Hlen & _).
    destruct (lookup_lt_is_Some_2 Ls p) as [k HK]; [by rewrite Hlen|].
    destruct (prio_insert t _ p (Node (Some q) (Z.of_nat p) node_lt_pqueue) Hn Hp eq_refl)
      as (E1 & E2 & E3).
    eapply refines_unit; [done| | | |exact E2|exact E3].
    + apply (__pqueue_node_priority_set_spec m Q q Ls p0 l1 t l2 p k); try done.
      * apply (rel_inv _ _ Hrel).
      * congruence.
    + rewrite E1. apply st_priority; [done|done|done|congruence].
    + by eapply dom_update.
Qed.

Lemma sim_favor t : op_ok (Q, P) (OFavor t) -> refines_step m (Q, P) (OFavor t).
Proof.
  intros (n & Hn & HP)%prio_lookup.
  destruct (thread_place _ _ _ _ (rel_inv _ _ Hrel) Hn)
    as [[[Hb Hl] Hfr]|(q & Ls & p & l1 & l2 & -> & HQ & HL)].
  - apply (refines_same _ RUnit); [|by apply st_favor_free].
    unfold pq_exec, pqueue_favor. qunfold. qrun. by rewrite Hb.
  - set (Q' := <[q := <[p := favored (l1 ++ t :: l2) t]> Ls]> Q).
    eapply (refines_unit _ (pqueue_favor t) Q' (nodes m));
      [done| | |by eapply dom_update|done|apply (rel_range _ _ Hrel)].
    + destruct (locked_spec q (__pqueue_favor t) m Q tt Q' (nodes m)) as (m' & E & Hm');
        [apply (rel_inv _ _ Hrel)|by apply lock_free; eauto| |].
      { intros m1 Hinv1 <-.
        destruct (__pqueue_favor_spec _ _ _ _ _ _ _ _ Hinv1 HQ HL) as (m2 & E & H1 & H2 & H3).
        exists m2. split; [done|]. split; [done|]. split; [done|]. intros q'. by rewrite H3. }
      exists m'. split; [|done]. unfold pqueue_favor. qunfold. qrun. exact E.
    + rewrite <- (rel_prio _ _ Hrel : P = _). eapply st_favor; [done|done|set_solver].
Qed.

Lemma sim_total q : op_ok (Q, P) (OTotal q) -> refines_step m (Q, P) (OTotal q).
Proof.
  intros [Ls HQ]. simpl in HQ. eapply refines_same; [|by apply st_total].
  destruct (inv_queue _ _ (rel_inv _ _ Hrel) _ _ HQ) as (x & Hx & _ & _ & _ & Ht).
  pose proof (queue_size _ _ _ _ (rel_inv _ _ Hrel) HQ). pose proof (rel_size _ _ Hrel).
  unfold pq_exec, pqueue_total, __pqueue_total. qunfold. qrun. by rewrite Ht, wrap_small by lia.
Qed.

Lemma sim_contains q t : op_ok (Q, P) (OContains q t) -> refines_step m (Q, P) (OContains q t).
Proof.
  intros [[Lq HQq] (n & Hn & HP)%prio_lookup]. simpl in HQq.
  destruct (thread_place _ _ _ _ (rel_inv _ _ Hrel) Hn)
    as [[[Hb Hl] Hfr]|(q' & Ls & p & l1 & l2 & -> & HQ & HL)].
  - apply (refines_same _ (RBool false)).
    + unfold pq_exec, pqueue_contains. qunfold. qrun. rewrite bool_decide_eq_false_2; [done|].
      by rewrite Hl.
    + apply st_contains. split; [done|]. intros [p Hm]. by apply Hfr in Hm.
  - set (b := bool_decide (Some q' = Some q)).
    destruct (pq_rel_runs (pqueue_contains q t) b Q (nodes m)) as (m2 & E2 & Hrel2);
      [|done|done|apply (rel_range _ _ Hrel)|].
    { destruct (locked_spec q (n ← get_node t; mret (bool_decide (bp n = Some q))) m Q b Q (nodes m))
        as (m' & E & Hm'); [apply (rel_inv _ _ Hrel)|by apply lock_free; eauto| |].
      { intros m1 Hinv1 HN. exists m1. split; [|done]. rewrite <- HN in Hn. qunfold. by qrun. }
      exists m'. split; [|done]. unfold pqueue_contains. qunfold. qrun. exact E. }
    rewrite <- (rel_prio _ _ Hrel : P = _) in Hrel2.
    exists (RBool b), m2, (Q, P). split; [|split; [|by split]].
    + unfold pq_exec, mbind, M_bind. by rewrite E2.
    + assert (member Q q' p t) as Hm by (exists Ls, (l1 ++ t :: l2); set_solver).
      apply st_contains. unfold b. rewrite bool_decide_eq_true. split; [intros [= ->]; eauto|].
      intros [p2 Hm2]. by destruct (member_unique _ _ (rel_inv _ _ Hrel) _ _ _ _ _ Hm Hm2) as [-> _].
Qed.
End simulation.

Lemma pq_exec_refines m a op : pq_rel m a -> op_ok a op -> refines_step m a op.
Proof.
  destruct a as [Q P], op; intros; [by apply sim_insert|by apply sim_delete|by apply sim_first
    |by apply sim_next|by apply sim_priority|by apply sim_favor|by apply sim_contains|by apply sim_total].
Qed.

Fixpoint pq_run (ops : list pq_op) : M qmem (list pq_ret) :=
  match ops with
  | [] => mret []
  | op :: ops => r ← pq_exec op; rs ← pq_run ops; mret (r :: rs)
  end.

Inductive pq_steps : aqueues -> list pq_op -> list pq_ret -> aqueues -> Prop :=
  | steps_nil a : pq_steps a [] [] a
  | steps_cons a op r a' ops rs a'' :
      pq_step a op r a' -> pq_steps a' ops rs a'' -> pq_steps a (op :: ops) (r :: rs) a''.

Lemma op_ok_dom (a a' : aqueues) op :
  dom a'.1 = dom a.1 -> dom a'.2 = dom a.2 -> op_ok a op -> op_ok a' op.
Proof.
  intros H1 H2. destruct op; simpl; rewrite <- ?elem_of_dom, ?H1, ?H2; done.
Qed.

(** C19: any sequence of operations of pqueue.h on existing queues and threads
    runs to the end (no bad access, no lock left taken, every list within the
    140 priorities) and returns what the abstract queues return; the memory
    represents the abstract queues at the end. *)
Theorem pqueue_refines m a ops :
  pq_rel m a -> Forall (op_ok a) ops ->
  exists rs m' a', pq_run ops m = Ok (rs, m') /\ pq_steps a ops rs a' /\ pq_rel m' a'.
Proof.
  revert m a. induction ops as [|op ops IH]; intros m a Hrel Hok.
  { exists [], m, a. split_and!; [done|constructor|done]. }
  apply Forall_cons in Hok as [Hop Hok].
  destruct (pq_exec_refines m a op Hrel Hop) as (r & m1 & a1 & E & Hst & Hrel1 & D1 & D2).
  destruct (IH m1 a1 Hrel1) as (rs & m2 & a2 & E2 & Hst2 & Hrel2).
  { eapply Forall_impl; [exact Hok|]. intros o. by apply op_ok_dom. }
  exists (r :: rs), m2, a2. split_and!; [|by econstructor|done].
  simpl. unfold mbind, M_bind. by rewrite E, E2.
Qed.

(** ** Initialisation *)

(** The heads of a queue before [pqueue_init]: any words. *)
Definition raw_heads (q : qid) (h : gmap laddr (link laddr)) : Prop :=
  forall p, 0 <= p < PRIO_TOTAL -> is_Some (h !! AHead q p).

Lemma lnode_init_all_spec q ps m :
  NoDup ps -> (forall p, p ∈ ps -> is_Some (links m !! AHead q p)) ->
  exists h', lnode_init_all q ps m = Ok (tt, QMem h' (nodes m) (queues m)) /\
    (forall p, p ∈ ps -> ring h' (AHead q p) []) /\ same_dom (links m) h' /\
    (forall a, (forall p, p ∈ ps -> a <> AHead q p) -> h' !! a = links m !! a).
Proof.
  revert m. induction ps as [|p ps IH]; intros m Hnd Hm.
  { exists (links m). destruct m. split_and!; [done|set_solver|done|done]. }
  apply NoDup_cons in Hnd as [Hp Hnd].
  destruct (lnode_init_spec (links m) (AHead q p)) as (h1 & E1 & Hr1 & Hd1 & Hf1); [set_solver|].
  destruct (IH (QMem h1 (nodes m) (queues m)) Hnd) as (h2 & E2 & Hr2 & Hd2 & Hf2).
  { intros p' Hp'. apply Hd1. set_solver. }
  exists h2. simpl in *. split_and!.
  - unfold mbind, M_bind, write_links. by rewrite E1.
  - intros p' [->|Hp']%elem_of_cons; [|by apply Hr2].
    eapply ring_agree; [|exact Hr1]. intros a ->%list_elem_of_singleton. apply Hf2.
    intros p' Hp' [= ->]. done.
  - by eapply same_dom_trans.
  - intros a Ha. rewrite Hf2 by set_solver. apply Hf1. set_solver.
Qed.

Lemma elem_of_seqZ_prio p : p ∈ seqZ 0 PRIO_TOTAL <-> 0 <= p < PRIO_TOTAL.
Proof. rewrite elem_of_seqZ. lia. Qed.

Lemma concat_replicate_nil n : concat (replicate n ([] : list nat)) = [].
Proof. by induction n. Qed.

Lemma bm_test_zero i : 0 <= i -> bm_test 32 (bitmap_zero 32) i = false.
Proof.
  intros Hi. unfold bm_test, bitmap_zero.
  destruct (replicate _ 0 !! _) as [x|] eqn:E; [|done].
  apply lookup_replicate in E as [-> _]. by rewrite Z.bits_0.
Qed.

Lemma queue_ok_empty l : queue_ok (PQ 0 (bitmap_zero 32) l) (replicate (Z.to_nat PRIO_TOTAL) []).
Proof.
  split_and!; cbn [total bitmap lock].
  - by rewrite length_replicate.
  - split; [reflexivity|]. by repeat constructor.
  - intros p. rewrite bm_test_zero by lia. unfold nonempty_at.
    destruct (_ !! p) as [k|] eqn:E; [|done]. by apply lookup_replicate in E as [-> _].
  - by rewrite concat_replicate_nil.
Qed.

Lemma pqueue_init_spec m Q q x :
  pq_inv m Q -> Q !! q = None -> queues m !! q = Some x -> bitmap x = bitmap_zero 32 ->
  raw_heads q (links m) ->
  exists m', pqueue_init q m = Ok (tt, m') /\
    pq_inv m' (<[q := replicate (Z.to_nat PRIO_TOTAL) []]> Q) /\ nodes m' = nodes m /\
    queues m' = <[q := PQ 0 (bitmap_zero 32) 0]> (queues m) /\ same_dom (links m) (links m').
Proof.
  intros Hinv HQ Hx Hb Hraw.
  destruct (lnode_init_all_spec q (seqZ 0 PRIO_TOTAL)
    (QMem (links m) (nodes m) (<[q := PQ 0 (bitmap_zero 32) 0]> (queues m))))
    as (h' & E & Hr & Hd & Hf); [apply NoDup_seqZ| |].
  { intros p Hp%elem_of_seqZ_prio. by apply Hraw. }
  simpl in Hd, Hf. exists (QMem h' (nodes m) (<[q := PQ 0 (bitmap_zero 32) 0]> (queues m))).
  split; [|split; [|done]].
  - unfold pqueue_init. rewrite (bind_run _ _ _ x m); [|by apply get_queue_run].
    erewrite bind_run; [|reflexivity]. unfold bitmap_init. rewrite Hb. exact E.
  - assert (forall q' p t, member (<[q := replicate (Z.to_nat PRIO_TOTAL) []]> Q) q' p t
      <-> member Q q' p t) as Hmem.
    { intros q' p t. unfold member. split; intros (Ls & l & E1 & E2 & Hin).
      - rewrite lookup_insert in E1. case_decide; simplify_eq; [|eauto].
        apply lookup_replicate in E2 as [-> _]. by apply not_elem_of_nil in Hin.
      - exists Ls, l. rewrite lookup_insert_ne by congruence. done. }
    split; cbn [links nodes queues].
    + intros q' Ls. rewrite !lookup_insert. case_decide; [intros [= <-]|]; subst.
      * eexists. split; [done|]. apply queue_ok_empty.
      * by apply (inv_queue _ _ Hinv).
    + intros q' Ls p l E1 E2. rewrite lookup_insert in E1. case_decide; simplify_eq.
      * apply lookup_replicate in E2 as [-> Hp]. apply Hr, elem_of_seqZ_prio. lia.
      * eapply ring_agree; [|by eapply (inv_ring _ _ Hinv)]. intros a Ha. apply Hf.
        intros p' _ ->. apply elem_of_cons in Ha as [?|(y & ? & _)%list_elem_of_fmap]; congruence.
    + intros q' p t Hm. apply (inv_member _ _ Hinv). by rewrite <- Hmem.
    + intros t n Hn. destruct (inv_node _ _ Hinv _ _ Hn) as [Hs Hc]. split; [by apply Hd|].
      destruct Hc as [?|(q' & p & Hm)]; [by left|right]. exists q', p. by rewrite Hmem.
Qed.

(** ** A concrete memory

    One queue [q] whose storage is zeroed and not yet initialised, and threads
    that are in no queue. *)
Definition raw_mem (q : qid) (prios : list nat) : qmem :=
  QMem
    (list_to_map (((fun p => (AHead q p, Link None None)) <$> seqZ 0 PRIO_TOTAL) ++
                  ((fun t => (ANode t, Link None None)) <$> seq 0 (length prios))))
    (map_seq 0 ((fun p => Node None (Z.of_nat p) node_lt_nowhere) <$> prios))
    {[ q := PQ 0 (bitmap_zero 32) 0 ]}.

Lemma raw_mem_link q prios a : is_Some (links (raw_mem q prios) !! a) <->
  (exists p, a = AHead q p /\ 0 <= p < PRIO_TOTAL) \/
  (exists t, a = ANode t /\ (t < length prios)%nat).
Proof.
  unfold raw_mem. cbn [links]. rewrite <- elem_of_dom, dom_list_to_map_L, elem_of_list_to_set.
  rewrite fmap_app, elem_of_app, <- !list_fmap_compose, !list_elem_of_fmap.
  setoid_rewrite elem_of_seq. setoid_rewrite elem_of_seqZ_prio. simpl.
  split; intros [(x & -> & H)|(x & -> & H)]; simpl; [left|right|left|right]; exists x; split; done || lia.
Qed.

Lemma raw_mem_inv q prios : pq_inv (raw_mem q prios) ∅.
Proof.
  split.
  - intros q' Ls E. by rewrite lookup_empty in E.
  - intros q' Ls p l E. by rewrite lookup_empty in E.
  - intros q' p t (Ls & l & E & _). by rewrite lookup_empty in E.
  - intros t n Hn. unfold raw_mem in Hn. cbn [nodes] in Hn.
    rewrite lookup_map_seq_0, list_lookup_fmap in Hn.
    destruct (prios !! t) as [p|] eqn:Hp; [|done]. simpl in Hn. simplify_eq.
    split; [|by left]. apply raw_mem_link. right. exists t. split; [done|]. by eapply lookup_lt_Some.
Qed.

(** A freshly initialised queue represents the empty abstract queue. *)
Lemma pqueue_init_rel q prios :
  Forall (fun p => (p < Z.to_nat PRIO_TOTAL)%nat) prios -> Z.of_nat (length prios) < 2 ^ 32 ->
  exists m, pqueue_init q (raw_mem q prios) = Ok (tt, m) /\
    pq_rel m ({[ q := replicate (Z.to_nat PRIO_TOTAL) [] ]},
              map_seq 0 (Z.of_nat <$> prios)).
Proof.
  intros Hp Hlen.
  destruct (pqueue_init_spec (raw_mem q prios) ∅ q (PQ 0 (bitmap_zero 32) 0))
    as (m & E & Hinv & Hn & Hq & Hd).
  - apply raw_mem_inv.
  - done.
  - apply lookup_singleton_eq.
  - done.
  - intros p Hr. apply raw_mem_link. left. eauto.
  - exists m. split; [done|]. split; cbn [fst snd].
    + done.
    + rewrite Hn. unfold raw_mem. cbn [nodes]. rewrite fmap_map_seq, <- list_fmap_compose. done.
    + intros q' x. rewrite Hq. unfold raw_mem. cbn [queues].
      rewrite insert_singleton_eq. intros [<- <-]%lookup_singleton_Some.
      split; [done|]. rewrite lookup_singleton_eq. eauto.
    + intros t n. rewrite Hn. unfold raw_mem. cbn [nodes]. rewrite lookup_map_seq_0, list_lookup_fmap.
      destruct (prios !! t) as [p|] eqn:Et; [|done]. simpl. intros [= <-]. simpl.
      rewrite Forall_lookup in Hp. specialize (Hp _ _ Et). change PRIO_TOTAL with 140 in *. lia.
    + rewrite Hn. unfold raw_mem. cbn [nodes]. rewrite <- size_dom, dom_seq_L.
      rewrite length_fmap, size_set_seq. done.
Qed.

(** ** Properties *)

Lemma pqueue_refines_witness :
  exists m, pqueue_init RQ (raw_mem RQ [20; 50; 50]%nat) = Ok (tt, m) /\
    exists rs m' a',
      pq_run [OInsert Tail RQ 0%nat; OInsert Tail RQ 1%nat; OInsert Second RQ 2%nat; OFirst RQ;
              OPriority 0 139; OFirst RQ; OFavor 2; ODelete 0; OContains RQ 0; OTotal RQ] m
        = Ok (rs, m') /\
      pq_steps ({[ RQ := replicate (Z.to_nat PRIO_TOTAL) [] ]}, map_seq 0 (Z.of_nat <$> [20; 50; 50]%nat))
        [OInsert Tail RQ 0%nat; OInsert Tail RQ 1%nat; OInsert Second RQ 2%nat; OFirst RQ;
         OPriority 0 139; OFirst RQ; OFavor 2; ODelete 0; OContains RQ 0; OTotal RQ] rs a' /\
      pq_rel m' a'.
Proof.
  destruct (pqueue_init_rel RQ [20; 50; 50]%nat) as (m & E & Hrel).
  { repeat constructor; vm_compute; lia. }
  { vm_compute. reflexivity. }
  exists m. split; [exact E|].
  apply pqueue_refines; [exact Hrel|].
  repeat constructor; vm_compute; eauto; lia.
Defined.

(** The run above, evaluated. *)
Example pq_run_example :
  (pqueue_init RQ;;
   pq_run [OInsert Tail RQ 0%nat; OInsert Tail RQ 1%nat; OInsert Second RQ 2%nat; OFirst RQ;
           OPriority 0 139; OFirst RQ; ONext 0; OFavor 2; ODelete 0; OContains RQ 0; OTotal RQ])
    (raw_mem RQ [20; 50; 50]%nat) ≫= (fun x => Ok x.1)
  = Ok [RUnit; RUnit; RUnit; RNode (Some 1%nat); RUnit; RNode (Some 0%nat); RNode (Some 1%nat);
        RUnit; RUnit; RBool false; RNum 2].
Proof. vm_compute. reflexivity. Qed.

(** the loop [for (t = first(q); t != NULL; t = next(t))] of the scheduler
    visits every thread of a queue exactly once, highest priority first and in
    list order within a priority, and then ends. *)
Theorem pqueue_walk_order m Q q Ls fuel :
  pq_inv m Q -> Q !! q = Some Ls -> Z.of_nat (length (concat Ls)) < 2 ^ 32 ->
  (length (concat Ls) <= fuel)%nat ->
  (o ← __pqueue_first_node q; walk fuel o) m = Ok (order Ls, m) /\ NoDup (order Ls) /\
  (forall t, t ∈ order Ls <-> exists p, member Q q p t).
Proof.
  intros Hinv HQ Hlen Hf. split_and!.
  - rewrite (bind_run _ _ _ _ _ (__pqueue_first_node_spec m Q q Ls Hinv HQ Hlen)).
    destruct (order Ls) as [|t r] eqn:Eo; [by destruct fuel|].
    pose proof Eo as Eo'. rewrite <- (firstn_all Ls) in Eo.
    destruct (order_head_take Ls _ _ _ Eo) as (p & l & _ & HL & ->).
    apply (walk_from m Q q Ls Hinv HQ fuel p [] t l HL).
    rewrite <- order_length, Eo' in Hf. simpl in Hf. lia.
  - by eapply order_nodup.
  - intros t. rewrite order_perm, list_elem_of_In, in_concat. split.
    + intros (l & Hl%list_elem_of_In & Ht%list_elem_of_In).
      apply list_elem_of_lookup_1 in Hl as [p HL]. exists p, Ls, l. done.
    + intros (p & Ls' & l & HQ' & HL & Ht). simplify_eq. exists l.
      split; apply list_elem_of_In; [by eapply list_elem_of_lookup_2|done].
Qed.

Lemma pqueue_walk_order_witness :
  exists m, pqueue_init RQ (raw_mem RQ []) = Ok (tt, m) /\
    (o ← __pqueue_first_node RQ; walk 0 o) m =
      Ok (order (replicate (Z.to_nat PRIO_TOTAL) []), m).
Proof.
  destruct (pqueue_init_rel RQ []) as (m & E & Hrel); [constructor|reflexivity|].
  exists m. split; [exact E|].
  apply (pqueue_walk_order m {[ RQ := replicate (Z.to_nat PRIO_TOTAL) [] ]} RQ _ 0 (rel_inv _ _ Hrel));
    [apply lookup_singleton_eq|rewrite concat_replicate_nil; reflexivity..].
Defined.

(** [pqueue_init] does not clear the bitmap ([bitmap_init] is empty), so a
    queue that is initialised again while it holds threads, as
    [pth_fork_drop_threads] does in the child of a fork, hides its threads:
    after a thread of priority 20 is appended the total is one, and
    [pqueue_first_node] finds the stale bit of priority 50 and returns NULL. *)
Theorem pqueue_reinit_hides_thread :
  (pqueue_init RQ;; pqueue_append_node RQ 1;;        (* priority 50 *)
   pqueue_init RQ;; pqueue_append_node RQ 0;;        (* priority 20 *)
   n ← pqueue_total RQ; o ← pqueue_first_node RQ; mret (n, o)) (raw_mem RQ [20; 50]%nat)
    ≫= (fun x => Ok x.1) = Ok (1, None).
Proof. vm_compute. reflexivity. Qed.

(** the internal value of the highest real-time priority, 99, is 140, one
    past the last list of a queue: inserting such a thread leaves the array of
    list heads. *)
Theorem pqueue_append_top_priority m Q q Ls t n e :
  pq_inv m Q -> Q !! q = Some Ls -> links m !! AHead q PRIO_TOTAL = None ->
  nodes m !! t = Some n -> free_node n ->
  priority n = (xprio_to_iprio SCHED_FIFO 99 e).1 ->
  __pqueue_append_node q t m = Err BadDeref.
Proof.
  intros Hinv HQ Hout Hn [Hb Hl] Hp. change (priority n = 140) in Hp.
  destruct (inv_queue _ _ Hinv _ _ HQ) as (x & Hx & _ & [Hw Hwf] & _).
  destruct (bit_set_spec 32 ltac:(lia) (bitmap x) 140) as (b & Hbs & _); [lia| |].
  { rewrite BITMAP_SLOTS_32 in Hw. replace (length (bitmap x)) with 6%nat by lia. by vm_compute; lia. }
  unfold __pqueue_append_node, pqueue_enter, __pqueue_insert_tail. qunfold. qrun.
  rewrite Hl, bool_decide_eq_true_2 by done. qrun. unfold bitmap_set_bit. rewrite Hp, Hbs. unfold modify. qrun. rewrite Hp.
  unfold list_insert_tail, get_prev. simpl. unfold deref. simpl.
  change (links m !! AHead q 140) with (links m !! AHead q PRIO_TOTAL). by rewrite Hout.
Qed.

Lemma pqueue_append_top_priority_witness :
  exists m Q, pq_inv m Q /\ __pqueue_append_node RQ 0 m = Err BadDeref.
Proof.
  destruct (pqueue_init_spec (raw_mem RQ [140]%nat) ∅ RQ (PQ 0 (bitmap_zero 32) 0))
    as (m & E & Hinv & Hn & Hq & Hd);
    [apply raw_mem_inv|apply lookup_empty|apply lookup_singleton_eq|reflexivity
    |intros p Hr; apply raw_mem_link; left; eauto|].
  exists m, (<[RQ := replicate (Z.to_nat PRIO_TOTAL) []]> ∅). split; [done|].
  apply (pqueue_append_top_priority m _ RQ (replicate (Z.to_nat PRIO_TOTAL) []) 0
           (Node None 140 node_lt_nowhere) 0 Hinv); [apply lookup_insert_eq| | |split; reflexivity|reflexivity].
  - apply eq_None_not_Some. intros Hs. apply Hd, raw_mem_link in Hs.
    destruct Hs as [(p & [= <-] & Hp)|(t & ? & _)]; [|discriminate]. revert Hp. vm_compute.
    intros [_ ?]. discriminate.
  - rewrite Hn. reflexivity.
Defined.
