(* ===== verification/Alloc.v ===== *)
(** * The caching allocator (allocation.c, allocation.h)

    Blocks below 2048 bytes come from a chunk cache: eight lists of free
    chunks, of 16 to 2048 bytes.  An empty list is refilled with an mchunk, a
    few pages obtained from [mmap] that begin with a header and are cut into
    chunks.  Larger blocks come from [mmap] directly.

    The memory of the model: the list nodes ([links]: the two list heads of
    every chunk list, the list node at the start of every free chunk, the list
    node in every mchunk header), the mchunk headers by page address, the
    chunk lists, and the answers the kernel gives to the next [mmap] calls.
    The configuration is that of the source: [CAL_CHECK_CONSISTENCY] and
    [CAL_STATISTICS] are 0, [CAL_CHECK_INITIALIZATION] is 1, pages have 4096
    bytes, [size_t] and pointers have 32 bits. *)

From S2P Require Import Prelude Bitmap Dll LinkedList.

Definition PAGE_SHIFT : Z := 12.
Definition PAGE_SIZE : Z := Z.shiftl 1 PAGE_SHIFT.
Definition CAL_CHUNK_ORDER_MAX : Z := PAGE_SHIFT - 1.
Definition CAL_CHUNK_THRESHOLD_SIZE : Z := Z.shiftl 1 CAL_CHUNK_ORDER_MAX.
Definition CAL_CHUNK_ORDER_MIN : Z := 4.
Definition CAL_CHUNK_HEADS : Z := 1 + CAL_CHUNK_ORDER_MAX - CAL_CHUNK_ORDER_MIN.

(** Addresses of list nodes. *)
Inductive aaddr : Set :=
  | CHead (idx : Z)   (** [&cal->chunk_cache.head[idx].head] *)
  | MHead (idx : Z)   (** [&cal->chunk_cache.head[idx].mchunk_head] *)
  | Chunk (a : Z)     (** the chunk at address [a] *)
  | HNode (a : Z).    (** [&h->node] of the mchunk header at address [a] *)

#[global] Instance aaddr_eq_dec : EqDecision aaddr.
Proof. solve_decision. Defined.

#[global] Instance aaddr_countable : Countable aaddr.
Proof.
  refine (inj_countable'
    (fun a => match a with CHead i => inl (inl i) | MHead i => inl (inr i)
                         | Chunk a => inr (inl a) | HNode a => inr (inr a) end)
    (fun k => match k with inl (inl i) => CHead i | inl (inr i) => MHead i
                         | inr (inl a) => Chunk a | inr (inr a) => HNode a end) _).
  by intros [].
Defined.

#[global] Instance Chunk_inj : Inj eq eq Chunk.
Proof. by intros ?? [= ->]. Qed.
#[global] Instance HNode_inj : Inj eq eq HNode.
Proof. by intros ?? [= ->]. Qed.

Record mchunk_header_st : Set := MHdr {
  chunk_cache : Z; pages : Z; used : Z; order : Z; not_chunk_cache : Z; first_chunk : Z }.

Record chunk_list_st : Set := CList { lock : Z; total : Z; cl_used : Z }.

(** [sizeof(struct mchunk_header_st)]: eight words *)
Definition sizeof_mchunk_header : Z := 32.

Record cal_st : Set := Cal {
  links : gmap aaddr (link aaddr);
  headers : gmap Z mchunk_header_st;
  head : list chunk_list_st;
  addr : Z;                     (** the address of the chunk cache *)
  mh_order : Z;
  mh_pow2_size : Z;
  mmaps : list (option Z);      (** the kernel's answers to the next [mmap] calls *)
  munmaps : list (Z * Z) }.     (** the areas given back, latest first *)

(** ** Access *)

Definition upd_links f (s : cal_st) : cal_st :=
  Cal (f (links s)) (headers s) (head s) (addr s) (mh_order s) (mh_pow2_size s) (mmaps s) (munmaps s).
Definition upd_headers f (s : cal_st) : cal_st :=
  Cal (links s) (f (headers s)) (head s) (addr s) (mh_order s) (mh_pow2_size s) (mmaps s) (munmaps s).
Definition upd_head f (s : cal_st) : cal_st :=
  Cal (links s) (headers s) (f (head s)) (addr s) (mh_order s) (mh_pow2_size s) (mmaps s) (munmaps s).

Definition read_links {A} (f : gmap aaddr (link aaddr) -> res A) : M cal_st A :=
  fun s => match f (links s) with Ok a => Ok (a, s) | Err e => Err e end.
Definition write_links (f : gmap aaddr (link aaddr) -> res (gmap aaddr (link aaddr))) : M cal_st unit :=
  fun s => match f (links s) with Ok h => Ok (tt, upd_links (fun _ => h) s) | Err e => Err e end.

Definition get_list (idx : Z) : M cal_st chunk_list_st :=
  s ← get; of_option OutOfBounds (if bool_decide (0 <= idx) then head s !! Z.to_nat idx else None).
Definition put_list (idx : Z) (l : chunk_list_st) : M cal_st unit :=
  modify (upd_head (fun h => <[Z.to_nat idx := l]> h)).
Definition get_header (p : Z) : M cal_st mchunk_header_st :=
  s ← get; of_option BadDeref (headers s !! p).
Definition put_header (p : Z) (h : mchunk_header_st) : M cal_st unit :=
  modify (upd_headers (fun m => <[p := h]> m)).

Definition spin_lock (idx : Z) : M cal_st unit :=
  l ← get_list idx;
  if bool_decide (lock l = 0) then put_list idx (CList 1 (total l) (cl_used l)) else fail Deadlock.
Definition spin_unlock (idx : Z) : M cal_st unit :=
  l ← get_list idx; put_list idx (CList 0 (total l) (cl_used l)).

(** ** mmap *)

(** The next answer of the kernel; NULL for [MAP_FAILED]. *)
Definition mmap_allocate (size : Z) : M cal_st (option Z) :=
  fun s => match mmaps s with
           | [] => Err Undefined
           | a :: rest =>
               Ok (a, Cal (links s) (headers s) (head s) (addr s) (mh_order s) (mh_pow2_size s)
                        rest (munmaps s))
           end.

Definition mmap_deallocate (ptr size : Z) : M cal_st unit :=
  modify (fun s => Cal (links s) (headers s) (head s) (addr s) (mh_order s) (mh_pow2_size s)
                     (mmaps s) ((ptr, size) :: munmaps s)).

(** ** Sizes *)

(** The 32 bit shift [1 << exp] is a signed int, compared as unsigned. *)
Definition get_pow2_order (s : Z) : res Z :=
  exp ← find_first_ms_bit s;
  Ok (if bool_decide (wrap 32 (Z.shiftl 1 exp) < s) then exp + 1 else exp).

Definition round_size (round_to size : Z) : res Z :=
  if bool_decide (round_to = 0) then Err Undefined
  else Ok (wrap 32 ((wrap 32 (size + round_to - 1)) / round_to * round_to)).

Definition get_index_by_order (order : Z) : Z := order - CAL_CHUNK_ORDER_MIN.
Definition get_total_pages_by_order (order : Z) : Z := order / 2.

Definition get_order_by_size (size : Z) : res Z :=
  order ← get_pow2_order size;
  Ok (if bool_decide (order < CAL_CHUNK_ORDER_MIN) then CAL_CHUNK_ORDER_MIN else order).

(** ** mchunks *)

(** What the first words of a page look like when it is read as a header: the
    members [chunk_cache], [not_chunk_cache] and [order]. *)
Definition page_view : Set := (Z * Z * Z)%type.

(** [peek] is the contents of the pages that are no header (they belong to
    the clients); [None] for a page that is not mapped. *)
Definition view_page (peek : Z -> option page_view) (np : Z) : M cal_st page_view :=
  s ← get;
  match headers s !! np with
  | Some h => mret (chunk_cache h, not_chunk_cache h, order h)
  | None => of_option BadDeref (peek np)
  end.

Definition header_matches (v : page_view) (ord : Z) : bool :=
  let '(cc, ncc, o) := v in
  negb (bool_decide (cc = 0)) && bool_decide (cc = wrap 32 (-1 - ncc)) && bool_decide (o = ord).

#[global] Arguments header_matches : simpl never.

Fixpoint header_scan (peek : Z -> option page_view) (np ord : Z) (pages : nat) : M cal_st (option Z) :=
  match pages with
  | O => mret None
  | S pages =>
      v ← view_page peek np;
      if header_matches v ord then mret (Some np)
      else header_scan peek (wrap 32 (np - PAGE_SIZE)) ord pages
  end.

Definition get_mchunk_header_by_chunk (peek : Z -> option page_view) (p ord : Z) : M cal_st (option Z) :=
  header_scan peek (Z.land p (wrap 32 (- PAGE_SIZE))) ord (Z.to_nat (get_total_pages_by_order ord)).

(** The loop that links the chunks of an mchunk to each other; returns the
    last chunk. *)
Fixpoint link_chunks (fuel : nat) (chunk prev last step : Z) : M cal_st Z :=
  if bool_decide (chunk < last) then
    match fuel with
    | O => fail Stuck
    | S fuel =>
        let next := chunk + step in
        modify (upd_links (fun h => <[Chunk chunk := Link (Some (Chunk next)) (Some (Chunk prev))]> h));;
        link_chunks fuel next chunk last step
    end
  else mret prev.

Definition first_chunk_offset (ord mh_ord mh_pow2 : Z) : Z :=
  if bool_decide (ord < mh_ord) then mh_pow2 else Z.shiftl 1 ord.

Definition mchunk_header_get_chunks (ord : Z) : M cal_st (option Z) :=
  let step := Z.shiftl 1 ord in
  let total_pages := get_total_pages_by_order ord in
  r ← mmap_allocate (PAGE_SIZE * total_pages);
  match r with
  | None => mret None
  | Some p =>
      s ← get;
      let first := p + first_chunk_offset ord (mh_order s) (mh_pow2_size s) in
      let last := p + total_pages * PAGE_SIZE in
      (* the fresh page is zero filled; it is read and written as a header *)
      modify (upd_links (fun h => <[HNode p := Link None None]> h));;
      put_header p (MHdr 0 total_pages ((last - first) / step) ord 0 first);;
      pr ← link_chunks (Z.to_nat (total_pages * PAGE_SIZE)) first (last - step) last step;
      write_links (set_next (Some (Chunk pr)) (Some (Chunk first)));;
      mret (Some p)
  end.

(** ** The chunk cache *)

Definition chunk_list_init (idx : Z) : M cal_st unit :=
  l ← get_list idx;
  put_list idx (CList 0 (total l) (cl_used l));;
  write_links (lnode_init (Some (CHead idx)));;
  write_links (lnode_init (Some (MHead idx))).

Fixpoint chunk_list_release (fuel : nat) (idx : Z) : M cal_st unit :=
  e ← read_links (list_empty (Some (CHead idx)));
  if (e : bool) then mret tt
  else
    match fuel with
    | O => fail Stuck
    | S fuel =>
        n ← read_links (fun h => get_next h (Some (CHead idx)));
        write_links (list_del n);;
        l ← get_list idx;
        put_list idx (CList (lock l) (wrap 32 (total l - 1)) (cl_used l));;
        chunk_list_release fuel idx
    end.

Fixpoint for_lists (f : Z -> M cal_st unit) (cnts : list Z) : M cal_st unit :=
  match cnts with
  | [] => mret tt
  | c :: cnts => f c;; for_lists f cnts
  end.

Definition chunk_cache_init : M cal_st unit := for_lists chunk_list_init (seqZ 0 CAL_CHUNK_HEADS).
Definition chunk_cache_release (fuel : nat) : M cal_st unit :=
  for_lists (chunk_list_release fuel) (seqZ 0 CAL_CHUNK_HEADS).

(** A list that is found empty gets an mchunk.  The result is false when there
    is no memory. *)
Definition chunk_list_refill (idx ord : Z) : M cal_st bool :=
  mh ← mchunk_header_get_chunks ord;
  match mh with
  | None => mret false
  | Some p =>
      s ← get;
      h ← get_header p;
      l ← get_list idx;
      put_list idx (CList (lock l) (wrap 32 (total l + used h)) (cl_used l));;
      put_header p (MHdr (addr s) (pages h) 0 (order h) (wrap 32 (-1 - addr s)) (first_chunk h));;
      write_links (list_insert_list (Some (Chunk (first_chunk h))) (Some (CHead idx)));;
      write_links (list_insert_tail (Some (HNode p)) (Some (MHead idx)));;
      mret true
  end.

(** The node a chunk pointer stands for. *)
Definition chunk_of (n : option aaddr) : M cal_st Z :=
  match n with Some (Chunk a) => mret a | _ => fail Undefined end.

(** The first chunk of a list is taken out, the list is unlocked and the block
    is cleared, its list node included. *)
Definition chunk_list_take (idx : Z) : M cal_st (option Z) :=
  n ← read_links (fun h => get_next h (Some (CHead idx)));
  write_links (list_del n);;
  l ← get_list idx;
  put_list idx (CList (lock l) (total l) (wrap 32 (cl_used l + 1)));;
  spin_unlock idx;;
  chunk ← chunk_of n;
  modify (upd_links (fun h => <[Chunk chunk := Link None None]> h));;
  mret (Some chunk).

Definition order_by_size (size : Z) : M cal_st Z :=
  fun s => match get_order_by_size size with Ok o => Ok (o, s) | Err e => Err e end.

Definition chunk_cache_get (size : Z) : M cal_st (option Z) :=
  s ← get;
  if bool_decide (mh_order s = 0) then mret None
  else
    ord ← order_by_size size;
    let idx := get_index_by_order ord in
    spin_lock idx;;
    e ← read_links (list_empty (Some (CHead idx)));
    ok ← (if (e : bool) then chunk_list_refill idx ord else mret true);
    if (ok : bool) then chunk_list_take idx
    else
      spin_unlock idx;;
      mret None.

Definition chunk_cache_put (peek : Z -> option page_view) (ptr size : Z) : M cal_st unit :=
  ord ← order_by_size size;
  let idx := get_index_by_order ord in
  mh ← get_mchunk_header_by_chunk peek ptr ord;
  match mh with
  | None => mret tt
  | Some p =>
      s ← get;
      h ← get_header p;
      (* [mchunk_header->chunk_cache->head]: there is one chunk cache *)
      if bool_decide (chunk_cache h = addr s) then
        write_links (lnode_init (Some (Chunk ptr)));;
        spin_lock idx;;
        put_header p (MHdr (chunk_cache h) (pages h) (wrap 32 (used h - 1)) (order h)
                        (not_chunk_cache h) (first_chunk h));;
        l ← get_list idx;
        put_list idx (CList (lock l) (total l) (wrap 32 (cl_used l - 1)));;
        write_links (list_insert (Some (Chunk ptr)) (Some (CHead idx)));;
        spin_unlock idx
      else fail BadDeref
  end.

(** ** Front end *)

Definition cal_get (size : Z) : M cal_st (option Z) :=
  if bool_decide (size < CAL_CHUNK_THRESHOLD_SIZE) then chunk_cache_get size else mmap_allocate size.

Definition cal_put (peek : Z -> option page_view) (ptr size : Z) : M cal_st unit :=
  if bool_decide (size < CAL_CHUNK_THRESHOLD_SIZE) then chunk_cache_put peek ptr size
  else mmap_deallocate ptr size.

Definition pth_malloc : Z -> M cal_st (option Z) := cal_get.
Definition pth_free_mem : (Z -> option page_view) -> Z -> Z -> M cal_st unit := cal_put.

Fixpoint verify_scan (fuel : nat) (p s : Z) (idx : Z) (itr : option aaddr) : M cal_st Z :=
  if bool_decide (itr = Some (MHead idx)) then mret 1
  else
    match fuel, itr with
    | S fuel, Some (HNode a) =>
        h ← get_header a;
        let e := a + PAGE_SIZE * pages h - s in
        if bool_decide (p >= first_chunk h) || bool_decide (p < e) then mret 0
        else
          n ← read_links (fun l => get_next l itr);
          verify_scan fuel p s idx n
    | O, _ => fail Stuck
    | _, _ => fail Undefined
    end.

Definition cal_verify_pointer (fuel : nat) (p s : Z) : M cal_st Z :=
  if bool_decide (s < CAL_CHUNK_THRESHOLD_SIZE) then
    ord ← order_by_size s;
    let idx := get_index_by_order ord in
    itr ← read_links (fun l => get_next l (Some (MHead idx)));
    verify_scan fuel p s idx itr
  else mret 1.

Definition cal_initialize : M cal_st Z :=
  fun s => o ← get_pow2_order sizeof_mchunk_header;
           Ok (0, Cal (links s) (headers s) (head s) (addr s) o (Z.shiftl 1 o) (mmaps s) (munmaps s)).

(** The list heads of the lists [idxs], filled with zeroes. *)
Definition zero_heads (idxs : list Z) (h : gmap aaddr (link aaddr)) : gmap aaddr (link aaddr) :=
  foldr (fun i h => <[CHead i := Link None None]> (<[MHead i := Link None None]> h)) h idxs.

(** [memset(cal, 0, sizeof *cal)] and the initialisation of the lists *)
Definition cal_init : M cal_st unit :=
  modify (upd_head (fun _ => replicate (Z.to_nat CAL_CHUNK_HEADS) (CList 0 0 0)));;
  modify (upd_links (zero_heads (seqZ 0 CAL_CHUNK_HEADS)));;
  chunk_cache_init.

Definition cal_fork_init : M cal_st unit := for_lists spin_unlock (seqZ 0 CAL_CHUNK_HEADS).
Definition cal_release (fuel : nat) : M cal_st unit := chunk_cache_release fuel.

(** The state of the program at its start: nothing is mapped. *)
Definition cal_start (addr : Z) (mmaps : list (option Z)) : cal_st :=
  Cal ∅ ∅ [] addr 0 0 mmaps [].
Definition cal_boot (addr : Z) (mmaps : list (option Z)) : res cal_st :=
  match (cal_initialize;; cal_init) (cal_start addr mmaps) with
  | Ok (_, s) => Ok s
  | Err e => Err e
  end.

(** ** Sizes and orders *)

Lemma get_pow2_order_spec s : 0 < s < 2 ^ 31 ->
  exists o, get_pow2_order s = Ok o /\ 0 <= o <= 31 /\ s <= 2 ^ o /\ (o = 0 \/ 2 ^ (o - 1) < s).
Proof.
  intros Hs. unfold get_pow2_order, find_first_ms_bit.
  rewrite bool_decide_eq_false_2 by lia. simpl.
  pose proof (Z.log2_spec s ltac:(lia)) as [Hl1 Hl2]. pose proof (log2_bound 31 s Hs) as Hb.
  rewrite Z.shiftl_1_l, wrap_small.
  2:{ split; [apply Z.pow_nonneg; lia|]. apply Z.pow_lt_mono_r; lia. }
  eexists. split; [done|]. case_bool_decide.
  - split; [lia|]. split; [unfold Z.succ in Hl2; lia|]. right. by replace (_ + 1 - 1) with (Z.log2 s) by lia.
  - split; [lia|]. split; [lia|]. destruct (decide (Z.log2 s = 0)) as [->|]; [by left|right].
    apply Z.lt_le_trans with (2 ^ Z.log2 s); [|done]. apply Z.pow_lt_mono_r; lia.
Qed.

(** The orders of chunks. *)
Definition chunk_order (o : Z) : Prop := CAL_CHUNK_ORDER_MIN <= o <= CAL_CHUNK_ORDER_MAX.

Lemma chunk_order_cases o : chunk_order o ->
  o = 4 \/ o = 5 \/ o = 6 \/ o = 7 \/ o = 8 \/ o = 9 \/ o = 10 \/ o = 11.
Proof. unfold chunk_order. change (4 <= o <= 11 -> o = 4 \/ o = 5 \/ o = 6 \/ o = 7 \/ o = 8 \/ o = 9 \/ o = 10 \/ o = 11). lia. Qed.

(** Proves a closed fact about an order, order by order. *)
Ltac by_order H := apply chunk_order_cases in H; repeat (destruct H as [->|H]); [..|subst].

Lemma get_order_by_size_spec size : 0 < size < CAL_CHUNK_THRESHOLD_SIZE ->
  exists o, get_order_by_size size = Ok o /\ chunk_order o /\ size <= 2 ^ o.
Proof.
  intros Hs. change CAL_CHUNK_THRESHOLD_SIZE with 2048 in Hs.
  destruct (get_pow2_order_spec size) as (o & E & Ho & Hle & Hmin); [lia|].
  unfold get_order_by_size. rewrite E. simpl. eexists. split; [done|].
  unfold chunk_order, CAL_CHUNK_ORDER_MIN. change CAL_CHUNK_ORDER_MAX with 11. case_bool_decide.
  - split; [lia|]. etrans; [exact Hle|]. apply Z.pow_le_mono_r; lia.
  - split; [|done]. split; [lia|]. destruct Hmin as [->|Hmin]; [lia|].
    assert (o - 1 < 11); [|lia]. apply (Z.pow_lt_mono_r_iff 2); lia.
Qed.

(** ** The layout of an mchunk *)

Definition mchunk_bytes (o : Z) : Z := get_total_pages_by_order o * PAGE_SIZE.
Definition off (o : Z) : Z := first_chunk_offset o 5 32.
Definition cap (o : Z) : nat := Z.to_nat ((mchunk_bytes o - off o) / 2 ^ o).
Definition chunk_at (p o : Z) (k : nat) : Z := p + off o + Z.of_nat k * 2 ^ o.
Definition chunks (o p : Z) : list Z := chunk_at p o <$> seq 0 (cap o).

Lemma layout o : chunk_order o ->
  off o + Z.of_nat (cap o) * 2 ^ o = mchunk_bytes o /\ sizeof_mchunk_header <= off o /\
  (0 < cap o)%nat /\ Z.of_nat (cap o) < 1024 /\ (off o) mod (2 ^ o) = 0 /\
  PAGE_SIZE mod 2 ^ o = 0 /\ 0 < 2 ^ o <= 2048 /\ 0 < mchunk_bytes o <= 5 * PAGE_SIZE.
Proof. intros H. by_order H; vm_compute; intuition (congruence || lia). Qed.

Lemma cap_div o : chunk_order o -> (mchunk_bytes o - off o) / 2 ^ o = Z.of_nat (cap o).
Proof. intros H. by_order H; reflexivity. Qed.

Lemma elem_of_chunks o p c : c ∈ chunks o p <-> exists k, c = chunk_at p o k /\ (k < cap o)%nat.
Proof.
  unfold chunks. rewrite list_elem_of_fmap. setoid_rewrite elem_of_seq.
  split; intros (k & -> & ?); exists k; split; done || lia.
Qed.

(** A chunk lies behind the header and within its mchunk. *)
Lemma chunk_bounds o p c : chunk_order o -> c ∈ chunks o p ->
  p + sizeof_mchunk_header <= c /\ c + 2 ^ o <= p + mchunk_bytes o.
Proof.
  intros Ho (k & -> & Hk)%elem_of_chunks. destruct (layout o Ho) as (L1 & L2 & _ & _ & _ & _ & L3 & _).
  unfold chunk_at. nia.
Qed.

Lemma chunk_aligned o p c : chunk_order o -> p mod PAGE_SIZE = 0 -> c ∈ chunks o p -> c mod 2 ^ o = 0.
Proof.
  intros Ho Hp (k & -> & Hk)%elem_of_chunks.
  destruct (layout o Ho) as (_ & _ & _ & _ & L1 & L2 & L3 & _). unfold chunk_at.
  apply Z.mod_divide in Hp, L1, L2; [|done || lia..].
  apply Z.mod_divide; [lia|]. apply Z.divide_add_r; [apply Z.divide_add_r|]; [|done|by exists (Z.of_nat k)].
  by eapply Z.divide_trans.
Qed.

Lemma NoDup_chunks o p : chunk_order o -> NoDup (chunks o p).
Proof.
  intros Ho. destruct (layout o Ho) as (_ & _ & _ & _ & _ & _ & L3 & _).
  unfold chunks. apply NoDup_fmap_2; [|apply NoDup_seq]. intros i j. unfold chunk_at. nia.
Qed.

(** Two chunks of an mchunk do not overlap. *)
Lemma chunks_apart o p c c' : chunk_order o -> c ∈ chunks o p -> c' ∈ chunks o p -> c <> c' ->
  c + 2 ^ o <= c' \/ c' + 2 ^ o <= c.
Proof.
  intros Ho (k & -> & Hk)%elem_of_chunks (k' & -> & Hk')%elem_of_chunks Hne.
  destruct (layout o Ho) as (_ & _ & _ & _ & _ & _ & L3 & _). unfold chunk_at in *.
  assert (k <> k') by (intros ->; done). nia.
Qed.

(** ** Cutting an mchunk *)

Lemma upd_links_compose f g s : upd_links f (upd_links g s) = upd_links (fun h => f (g h)) s.
Proof. done. Qed.

(** The links [link_chunks] writes from the chunk [a] on: [n] of them. *)
Fixpoint linked (n : nat) (a pv step : Z) (h : gmap aaddr (link aaddr)) : gmap aaddr (link aaddr) :=
  match n with
  | O => h
  | S n => linked n (a + step) a step (<[Chunk a := Link (Some (Chunk (a + step))) (Some (Chunk pv))]> h)
  end.

Lemma link_chunks_run n fuel a pv step last s :
  0 < step -> last = a + Z.of_nat n * step -> (n <= fuel)%nat ->
  link_chunks fuel a pv last step s =
    Ok (if bool_decide (n = O) then pv else last - step, upd_links (linked n a pv step) s).
Proof.
  intros Hs. revert fuel a pv s. induction n as [|n IH]; intros fuel a pv s Hl Hf.
  - destruct fuel; simpl; rewrite bool_decide_eq_false_2 by lia; by destruct s.
  - destruct fuel as [|fuel]; [lia|]. simpl. rewrite bool_decide_eq_true_2 by lia.
    unfold mbind, M_bind, modify. rewrite IH by lia. rewrite upd_links_compose.
    case_bool_decide; [|done].
    subst n. do 2 f_equal. lia.
Qed.

Lemma linked_other n a pv step h x :
  0 < step -> (forall k, (k < n)%nat -> x <> Chunk (a + Z.of_nat k * step)) ->
  linked n a pv step h !! x = h !! x.
Proof.
  intros Hs. revert a pv h. induction n as [|n IH]; intros a pv h Hx; [done|]. simpl. rewrite IH.
  - rewrite lookup_insert_ne; [done|]. intros <-. apply (Hx O); [lia|]. f_equal. lia.
  - intros k Hk. specialize (Hx (S k) ltac:(lia)). intros ->. apply Hx. f_equal. lia.
Qed.

Lemma linked_at n a pv step h k :
  0 < step -> (k < n)%nat ->
  linked n a pv step h !! Chunk (a + Z.of_nat k * step) =
    Some (Link (Some (Chunk (a + Z.of_nat (S k) * step)))
               (Some (Chunk (if bool_decide (k = O) then pv else a + (Z.of_nat k - 1) * step)))).
Proof.
  intros Hs. revert a pv h k. induction n as [|n IH]; intros a pv h k Hk; [lia|]. simpl.
  destruct k as [|k].
  - rewrite linked_other; [|done|].
    + replace (a + Z.of_nat 0 * step) with a by lia. rewrite lookup_insert_eq.
      rewrite bool_decide_eq_true_2 by done. do 4 f_equal. lia.
    + intros k Hk'. intros [= ?]. nia.
  - replace (a + Z.of_nat (S k) * step) with (a + step + Z.of_nat k * step) by lia.
    rewrite IH by lia.
    rewrite (bool_decide_eq_false_2 (S k = O)) by done.
    replace (a + step + Z.of_nat (S k) * step) with (a + Z.of_nat (S (S k)) * step) by lia.
    do 4 f_equal. case_bool_decide; [subst; lia|lia].
Qed.

(** A ring given by the positions of its members. *)
Lemma chain_indexed {A} `{Countable A} (h : gmap A (link A)) (f : nat -> A) i n z :
  (forall k, (i <= k < i + n)%nat -> nxt h (f k) = Some (f (S k)) /\ prv h (f (S k)) = Some (f k)) ->
  nxt h (f (i + n)%nat) = Some z -> prv h z = Some (f (i + n)%nat) ->
  chain h (f i) (f <$> seq (S i) n) z.
Proof.
  revert i. induction n as [|n IH]; intros i Hk Hn Hp; simpl.
  - by rewrite Nat.add_0_r in Hn, Hp.
  - split; [apply Hk; lia|]. apply IH; [intros k Hk'; apply Hk; lia|..];
      by replace (S i + n)%nat with (i + S n)%nat by lia.
Qed.

Lemma mchunk_ring o p h h' : chunk_order o ->
  set_next (Some (Chunk (p + mchunk_bytes o - 2 ^ o))) (Some (Chunk (p + off o)))
    (linked (cap o) (p + off o) (p + mchunk_bytes o - 2 ^ o) (2 ^ o) h) = Ok h' ->
  ring h' (Chunk (p + off o)) (Chunk <$> (chunk_at p o <$> seq 1 (cap o - 1))) /\
  (forall x, (forall c, c ∈ chunks o p -> x <> Chunk c) -> h' !! x = h !! x) /\
  (forall c, c ∈ chunks o p -> is_Some (h' !! Chunk c)).
Proof.
  intros Ho E. destruct (layout o Ho) as (L1 & _ & Lc & _ & _ & _ & Ls & _).
  set (n := cap o) in *. set (step := 2 ^ o) in *. set (a := p + off o) in *.
  assert (p + mchunk_bytes o - step = a + Z.of_nat (n - 1) * step) as El by (unfold a; nia).
  rewrite El in E.
  assert (forall k, chunk_at p o k = a + Z.of_nat k * step) as Eat by done.
  destruct (set_next_spec (linked n a (a + Z.of_nat (n - 1) * step) step h)
    (Chunk (a + Z.of_nat (n - 1) * step)) (Some (Chunk a))) as (h2 & E2 & Hd & Hn & Hp & Hf).
  { rewrite linked_at by lia. eauto. }
  rewrite E in E2. injection E2 as <-.
  split; [|split].
  - split.
    + assert (Chunk a :: (Chunk <$> (chunk_at p o <$> seq 1 (n - 1))) = Chunk <$> chunks o p) as ->.
      { unfold chunks. fold n. replace n with (S (n - 1)) at 2 by lia. simpl. f_equal.
        rewrite Eat. f_equal. lia. }
      apply NoDup_fmap; [apply _|]. by apply NoDup_chunks.
    + rewrite <- list_fmap_compose.
      replace (Chunk a) with ((Chunk ∘ chunk_at p o) 0%nat) at 1 by (simpl; rewrite Eat; f_equal; lia).
      assert (forall k, (k < n)%nat -> prv h' (Chunk (chunk_at p o k)) =
        Some (Chunk (if bool_decide (k = 0%nat) then a + Z.of_nat (n - 1) * step
                     else a + (Z.of_nat k - 1) * step))) as Hprv.
      { intros k Hk. rewrite Hp, Eat. unfold prv. rewrite linked_at by lia. done. }
      apply chain_indexed.
      * intros k Hk. simpl. rewrite Hprv by lia. rewrite (bool_decide_eq_false_2 (S k = 0%nat)) by done.
        rewrite Hn, !Eat, decide_False by (intros [= ?]; nia).
        unfold nxt. rewrite linked_at by lia. simpl. split; [done|]. do 2 f_equal. lia.
      * simpl. rewrite Hn, Eat. rewrite decide_True by done. done.
      * replace (Chunk a) with (Chunk (chunk_at p o 0)) by (rewrite Eat; f_equal; lia).
        rewrite Hprv by lia. rewrite bool_decide_eq_true_2 by done. simpl. by rewrite Eat.
  - intros x Hx. rewrite Hf.
    + apply linked_other; [lia|]. intros k Hk. rewrite <- Eat. apply Hx, elem_of_chunks. eauto.
    + rewrite <- Eat. apply Hx, elem_of_chunks. exists (n - 1)%nat. split; [done|lia].
  - intros c (k & -> & Hk)%elem_of_chunks. apply Hd. rewrite Eat, linked_at by (done || lia). eauto.
Qed.

(** ** Invariant

    For every list: its free chunks, the chunks in use, its mchunks. *)

Record glist : Set := GList { fr : list Z; us : list Z; mc : list Z }.

Definition ord (i : nat) : Z := Z.of_nat i + CAL_CHUNK_ORDER_MIN.

Definition good_header (ad o p : Z) (h : mchunk_header_st) : Prop :=
  chunk_cache h = ad /\ not_chunk_cache h = wrap 32 (-1 - ad) /\ order h = o /\
  pages h = get_total_pages_by_order o /\ first_chunk h = p + off o.

Definition all_chunks (i : nat) (ms : list Z) : list Z := concat (chunks (ord i) <$> ms).

Record list_ok (s : cal_st) (i : nat) (g : glist) : Prop := {
  lo_free : ring (links s) (CHead (Z.of_nat i)) (Chunk <$> fr g);
  lo_mch : ring (links s) (MHead (Z.of_nat i)) (HNode <$> mc g);
  lo_perm : fr g ++ us g ≡ₚ all_chunks i (mc g);
  lo_used : forall c, c ∈ us g -> is_Some (links s !! Chunk c);
  lo_hdr : forall p, p ∈ mc g -> exists h, headers s !! p = Some h /\ good_header (addr s) (ord i) p h;
  lo_head : head s !! i = Some (CList 0 (wrap 32 (Z.of_nat (length (fr g ++ us g))))
                                        (wrap 32 (Z.of_nat (length (us g))))) }.

Abbreviation ghost := (list glist).

(** The area [[p, p + len)] does not meet the mchunks. *)
Definition fresh_area (G : ghost) (p len : Z) : Prop :=
  forall i g q, G !! i = Some g -> q ∈ mc g -> q + mchunk_bytes (ord i) <= p \/ p + len <= q.

Definition page_area (p len : Z) : Prop := 0 < p /\ p mod PAGE_SIZE = 0 /\ p + len <= 2 ^ 32.

Record inv (s : cal_st) (G : ghost) : Prop := {
  inv_len : length G = Z.to_nat CAL_CHUNK_HEADS;
  inv_mh : mh_order s = 5 /\ mh_pow2_size s = 32;
  inv_addr : 0 < addr s < 2 ^ 32;
  inv_list : forall i g, G !! i = Some g -> list_ok s i g;
  inv_page : forall i g p, G !! i = Some g -> p ∈ mc g -> page_area p (mchunk_bytes (ord i));
  inv_apart : forall i j g g' p p', G !! i = Some g -> p ∈ mc g -> G !! j = Some g' -> p' ∈ mc g' ->
    (i = j /\ p = p') \/ p + mchunk_bytes (ord i) <= p' \/ p' + mchunk_bytes (ord j) <= p;
  inv_only : forall p h, headers s !! p = Some h -> exists i g, G !! i = Some g /\ p ∈ mc g }.

Lemma ord_order i : (i < Z.to_nat CAL_CHUNK_HEADS)%nat -> chunk_order (ord i).
Proof.
  change (Z.to_nat CAL_CHUNK_HEADS) with 8%nat. unfold chunk_order, ord, CAL_CHUNK_ORDER_MIN.
  change CAL_CHUNK_ORDER_MAX with 11. lia.
Qed.

Lemma ord_index o : chunk_order o ->
  exists i, o = ord i /\ get_index_by_order o = Z.of_nat i /\ (i < Z.to_nat CAL_CHUNK_HEADS)%nat.
Proof.
  intros Ho. exists (Z.to_nat (o - 4)). unfold ord, get_index_by_order, chunk_order in *.
  change (Z.to_nat CAL_CHUNK_HEADS) with 8%nat. unfold CAL_CHUNK_ORDER_MIN in *.
  change CAL_CHUNK_ORDER_MAX with 11 in Ho. lia.
Qed.

Lemma elem_of_all_chunks i ms c : c ∈ all_chunks i ms <-> exists p, p ∈ ms /\ c ∈ chunks (ord i) p.
Proof.
  unfold all_chunks. rewrite list_elem_of_In, in_concat. split.
  - intros (l & Hl%list_elem_of_In & Hc%list_elem_of_In).
    apply list_elem_of_fmap in Hl as (p & -> & Hp). eauto.
  - intros (p & Hp & Hc). exists (chunks (ord i) p).
    split; apply list_elem_of_In; [|done]. apply list_elem_of_fmap. eauto.
Qed.

(** What the list [i] owns among the list nodes. *)
Definition owns (i : nat) (ms : list Z) (a : aaddr) : Prop :=
  match a with
  | CHead j | MHead j => j = Z.of_nat i
  | Chunk c => c ∈ all_chunks i ms
  | HNode p => p ∈ ms
  end.

Lemma list_ok_frame s s' i g :
  list_ok s i g -> (forall a, owns i (mc g) a -> links s' !! a = links s !! a) ->
  (forall p, p ∈ mc g -> headers s' !! p = headers s !! p) -> addr s' = addr s ->
  head s' !! i = head s !! i -> list_ok s' i g.
Proof.
  intros [H1 H2 H3 H4 H5 H6] Hl Hh Ha Hd. split; [..|by rewrite Hd].
  - eapply ring_agree; [|exact H1]. intros a [->|(c & -> & Hc)%list_elem_of_fmap]%elem_of_cons;
      apply Hl; [done|]. simpl. rewrite <- H3. set_solver.
  - eapply ring_agree; [|exact H2]. intros a [->|(c & -> & Hc)%list_elem_of_fmap]%elem_of_cons;
      by apply Hl.
  - done.
  - intros c Hc. rewrite Hl; [by apply H4|]. simpl. rewrite <- H3. set_solver.
  - intros p Hp. rewrite Hh, Ha by done. by apply H5.
Qed.

Lemma head_length s G : inv s G -> forall i, (i < Z.to_nat CAL_CHUNK_HEADS)%nat ->
  exists g, G !! i = Some g /\ list_ok s i g.
Proof.
  intros Hinv i Hi. destruct (lookup_lt_is_Some_2 G i) as [g Hg]; [by rewrite (inv_len _ _ Hinv)|].
  exists g. split; [done|]. by apply (inv_list _ _ Hinv).
Qed.

Section inv_facts.
Context (s : cal_st) (G : ghost) (Hinv : inv s G).

Lemma ghost_order i g : G !! i = Some g -> chunk_order (ord i).
Proof. intros Hg%lookup_lt_Some. rewrite (inv_len _ _ Hinv) in Hg. by apply ord_order. Qed.

(** Chunks of different mchunks do not overlap. *)
Lemma mchunks_apart i j g g' p p' c c' :
  G !! i = Some g -> p ∈ mc g -> c ∈ chunks (ord i) p ->
  G !! j = Some g' -> p' ∈ mc g' -> c' ∈ chunks (ord j) p' ->
  (i = j /\ p = p') \/ c + 2 ^ ord i <= c' \/ c' + 2 ^ ord j <= c.
Proof.
  intros H1 H2 H3 H4 H5 H6.
  pose proof (chunk_bounds _ _ _ (ghost_order _ _ H1) H3) as [B1 B2].
  pose proof (chunk_bounds _ _ _ (ghost_order _ _ H4) H6) as [B3 B4].
  unfold sizeof_mchunk_header in *.
  destruct (inv_apart _ _ Hinv _ _ _ _ _ _ H1 H2 H4 H5) as [?|[?|?]]; [by left|right; lia..].
Qed.

Lemma owns_disjoint i j g g' a :
  G !! i = Some g -> G !! j = Some g' -> i <> j ->
  owns i (mc g) a -> owns j (mc g') a -> False.
Proof.
  intros H1 H2 Hne. destruct a as [k|k|c|p]; simpl; [lia|lia| |].
  - intros (p & Hp & Hc)%elem_of_all_chunks (p' & Hp' & Hc')%elem_of_all_chunks.
    destruct (layout _ (ghost_order _ _ H1)) as (_ & _ & _ & _ & _ & _ & L1 & _).
    destruct (layout _ (ghost_order _ _ H2)) as (_ & _ & _ & _ & _ & _ & L2 & _).
    destruct (mchunks_apart _ _ _ _ _ _ _ _ H1 Hp Hc H2 Hp' Hc') as [[? _]|?]; [done|lia].
  - intros Hp Hp'.
    destruct (layout _ (ghost_order _ _ H1)) as (_ & _ & _ & _ & _ & _ & _ & L1).
    destruct (layout _ (ghost_order _ _ H2)) as (_ & _ & _ & _ & _ & _ & _ & L2).
    destruct (inv_apart _ _ Hinv _ _ _ _ _ _ H1 Hp H2 Hp') as [[? _]|?]; [done|lia].
Qed.

Lemma NoDup_all_chunks i g : G !! i = Some g -> NoDup (all_chunks i (mc g)).
Proof.
  intros Hg. pose proof (ghost_order _ _ Hg) as Ho.
  pose proof (lo_mch _ _ _ (inv_list _ _ Hinv _ _ Hg)) as Hr.
  apply ring_nodup in Hr as [_ Hr]%NoDup_cons. apply (NoDup_fmap_1 HNode) in Hr.
  assert (forall p, p ∈ mc g -> p ∈ mc g) as Hsub by done. revert Hr Hsub.
  generalize (mc g) at 1 2 4. intros ms. induction ms as [|p ms IH]; intros Hnd Hsub; [constructor|].
  apply NoDup_cons in Hnd as [Hp Hnd]. unfold all_chunks. simpl. apply NoDup_app. split_and!.
  - by apply NoDup_chunks.
  - intros c Hc (p' & Hp' & Hc')%elem_of_all_chunks.
    destruct (layout _ Ho) as (_ & _ & _ & _ & _ & _ & L1 & _).
    destruct (mchunks_apart i i g g p p' c c) as [[_ ->]|?]; try done; [apply Hsub; set_solver..|lia].
  - apply IH; [done|]. set_solver.
Qed.

(** The list [i] changes, possibly by one new mchunk [p]. *)
Lemma inv_replace s' i g g' p :
  G !! i = Some g -> list_ok s' i g' ->
  mh_order s' = mh_order s /\ mh_pow2_size s' = mh_pow2_size s /\ addr s' = addr s ->
  (forall q, q ∈ mc g -> q ∈ mc g') ->
  (forall q, q ∈ mc g' -> q ∈ mc g \/
    (q = p /\ page_area p (mchunk_bytes (ord i)) /\ fresh_area G p (mchunk_bytes (ord i)))) ->
  (forall a, ~ owns i (mc g') a -> links s' !! a = links s !! a) ->
  (forall q, q ∉ mc g' -> headers s' !! q = headers s !! q) ->
  (forall j, j <> i -> head s' !! j = head s !! j) ->
  inv s' (<[i := g']> G).
Proof.
  intros Hg Hok (E1 & E2 & E3) Hsub Hmc Hl Hh Hd.
  pose proof (lookup_lt_Some _ _ _ Hg) as Hlt.
  assert (forall j g1 q, j <> i -> G !! j = Some g1 -> q ∈ mc g1 -> q ∉ mc g') as Hout.
  { intros j g1 q Hji Hg1 Hq Hq'.
    destruct (layout _ (ghost_order _ _ Hg1)) as (_ & _ & _ & _ & _ & _ & _ & L1).
    destruct (layout _ (ghost_order _ _ Hg)) as (_ & _ & _ & _ & _ & _ & _ & L2).
    destruct (Hmc _ Hq') as [Hq2|(-> & _ & Hf)].
    - destruct (inv_apart _ _ Hinv _ _ _ _ _ _ Hg1 Hq Hg Hq2) as [[? _]|?]; [done|lia].
    - destruct (Hf _ _ _ Hg1 Hq); lia. }
  split.
  - rewrite length_insert. apply (inv_len _ _ Hinv).
  - rewrite E1, E2. apply (inv_mh _ _ Hinv).
  - rewrite E3. apply (inv_addr _ _ Hinv).
  - intros j g1. destruct (decide (j = i)) as [->|Hji].
    { rewrite list_lookup_insert_eq by done. by intros [= <-]. }
    rewrite list_lookup_insert_ne by done. intros Hg1.
    apply (list_ok_frame s); [by apply (inv_list _ _ Hinv)| | |done|by apply Hd].
    + intros a Ha. apply Hl. intros Ha'.
      destruct a as [k|k|c|q]; simpl in *; [lia|lia| |by eapply Hout].
      apply elem_of_all_chunks in Ha as (q & Hq & Hc).
      apply elem_of_all_chunks in Ha' as (q' & Hq' & Hc').
      pose proof (chunk_bounds _ _ _ (ghost_order _ _ Hg1) Hc) as [B1 B2].
      pose proof (chunk_bounds _ _ _ (ghost_order _ _ Hg) Hc') as [B3 B4].
      destruct (layout _ (ghost_order _ _ Hg1)) as (_ & _ & _ & _ & _ & _ & L1 & _).
      destruct (layout _ (ghost_order _ _ Hg)) as (_ & _ & _ & _ & _ & _ & L2 & _).
      unfold sizeof_mchunk_header in *. destruct (Hmc _ Hq') as [Hq2|(-> & _ & Hf)].
      * destruct (inv_apart _ _ Hinv _ _ _ _ _ _ Hg1 Hq Hg Hq2) as [[? _]|?]; [done|lia].
      * destruct (Hf _ _ _ Hg1 Hq); lia.
    + intros q Hq. apply Hh. by eapply Hout.
  - intros j g1 q. destruct (decide (j = i)) as [->|Hji].
    + rewrite list_lookup_insert_eq by done. intros [= <-] [Hq|(-> & Hp & _)]%Hmc; [|done].
      by eapply (inv_page _ _ Hinv).
    + rewrite list_lookup_insert_ne by done. by apply (inv_page _ _ Hinv).
  - (* two mchunks *)
    assert (forall j g1 q q', <[i := g']> G !! j = Some g1 -> q ∈ mc g1 ->
      q' ∈ mc g' -> q' ∉ mc g -> (j = i /\ q = q') \/
      q + mchunk_bytes (ord j) <= q' \/ q' + mchunk_bytes (ord i) <= q) as Hnew.
    { intros j g1 q q' Hg1 Hq Hq' Hnq. destruct (Hmc _ Hq') as [?|(-> & _ & Hf)]; [done|].
      destruct (decide (j = i)) as [->|Hji].
      - rewrite list_lookup_insert_eq in Hg1 by done. injection Hg1 as <-.
        destruct (Hmc _ Hq) as [Hq2|(-> & _)]; [right; by eapply Hf|by left].
      - rewrite list_lookup_insert_ne in Hg1 by done. right. by eapply Hf. }
    intros j k g1 g2 q q' Hg1 Hq Hg2 Hq'.
    assert (forall j g1 q, <[i := g']> G !! j = Some g1 -> q ∈ mc g1 ->
      (exists g0, G !! j = Some g0 /\ q ∈ mc g0) \/ (j = i /\ q ∈ mc g' /\ q ∉ mc g)) as Hold.
    { clear -Hlt Hg Hmc. intros j g1 q Hg1 Hq. destruct (decide (j = i)) as [->|Hji].
      - rewrite list_lookup_insert_eq in Hg1 by done. injection Hg1 as <-.
        destruct (decide (q ∈ mc g)); [left; eauto|by right].
      - rewrite list_lookup_insert_ne in Hg1 by done. left. eauto. }
    destruct (Hold _ _ _ Hg2 Hq') as [(g20 & H2 & Hq2)|(-> & Hq2 & Hn2)]; [|by eapply Hnew].
    destruct (Hold _ _ _ Hg1 Hq) as [(g10 & H1 & Hq1)|(-> & Hq1 & Hn1)];
      [by eapply (inv_apart _ _ Hinv)|].
    destruct (Hnew _ _ _ _ Hg2 Hq' Hq1 Hn1) as [[-> ->]|?]; [by left|right; tauto].
  - intros q h Hq. destruct (decide (q ∈ mc g')) as [Hin|Hin].
    { exists i, g'. by rewrite list_lookup_insert_eq. }
    rewrite Hh in Hq by done. destruct (inv_only _ _ Hinv _ _ Hq) as (j & g1 & Hg1 & Hq1).
    destruct (decide (j = i)) as [->|Hji]; [simplify_eq; exfalso; by apply Hin, Hsub|].
    exists j, g1. by rewrite list_lookup_insert_ne.
Qed.
End inv_facts.

(** ** Execution *)

Lemma get_list_run s i l : head s !! i = Some l -> get_list (Z.of_nat i) s = Ok (l, s).
Proof.
  intros Hl. unfold get_list, mbind, M_bind. simpl. rewrite bool_decide_eq_true_2 by lia.
  by rewrite Nat2Z.id, Hl.
Qed.

Lemma put_list_run s i l : put_list (Z.of_nat i) l s = Ok (tt, upd_head (fun h => <[i := l]> h) s).
Proof. unfold put_list, modify. by rewrite Nat2Z.id. Qed.

Lemma get_header_run s p h : headers s !! p = Some h -> get_header p s = Ok (h, s).
Proof. intros Hh. unfold get_header, mbind, M_bind. simpl. by rewrite Hh. Qed.

Lemma read_links_run {A} (f : gmap aaddr (link aaddr) -> res A) s a :
  f (links s) = Ok a -> read_links f s = Ok (a, s).
Proof. intros E. unfold read_links. by rewrite E. Qed.

Lemma write_links_run f s h :
  f (links s) = Ok h -> write_links f s = Ok (tt, upd_links (fun _ => h) s).
Proof. intros E. unfold write_links. by rewrite E. Qed.

Lemma spin_lock_run s i l : head s !! i = Some l -> lock l = 0 ->
  spin_lock (Z.of_nat i) s = Ok (tt, upd_head (fun h => <[i := CList 1 (total l) (cl_used l)]> h) s).
Proof.
  intros Hl H0. unfold spin_lock. rewrite (bind_run _ _ _ _ _ (get_list_run _ _ _ Hl)).
  rewrite bool_decide_eq_true_2 by done. apply put_list_run.
Qed.

Lemma spin_unlock_run s i l : head s !! i = Some l ->
  spin_unlock (Z.of_nat i) s = Ok (tt, upd_head (fun h => <[i := CList 0 (total l) (cl_used l)]> h) s).
Proof.
  intros Hl. unfold spin_unlock. rewrite (bind_run _ _ _ _ _ (get_list_run _ _ _ Hl)).
  apply put_list_run.
Qed.

(** One step of a run, its result computed by a lemma above. *)
Ltac run_lists :=
  cbn [head links headers upd_head upd_links upd_headers mh_order mh_pow2_size addr];
  rewrite ?list_lookup_insert_eq by (first [done | by eapply lookup_lt_Some]);
  first [eassumption | reflexivity].
Ltac run_step :=
  erewrite bind_run;
  [|first [ eapply get_list_run; run_lists
          | apply put_list_run
          | eapply get_header_run; run_lists
          | eapply spin_lock_run; [run_lists|done]
          | eapply spin_unlock_run; run_lists
          | eapply read_links_run; run_lists
          | eapply write_links_run; run_lists
          | reflexivity ] ];
  cbn [lock total cl_used chunk_cache pages used order not_chunk_cache first_chunk].

Lemma upd_head_twice i l l' s : (i < length (head s))%nat ->
  upd_head (fun h => <[i := l]> h) (upd_head (fun h => <[i := l']> h) s) =
  upd_head (fun h => <[i := l]> h) s.
Proof. intros Hi. unfold upd_head. simpl. by rewrite list_insert_insert_eq. Qed.

Lemma chunk_list_take_run s i tot n c cs :
  head s !! i = Some (CList 1 tot n) ->
  ring (links s) (CHead (Z.of_nat i)) (Chunk <$> c :: cs) ->
  exists h', chunk_list_take (Z.of_nat i) s =
      Ok (Some c, upd_links (fun _ => h')
                    (upd_head (fun l => <[i := CList 0 tot (wrap 32 (n + 1))]> l) s)) /\
    ring h' (CHead (Z.of_nat i)) (Chunk <$> cs) /\ is_Some (h' !! Chunk c) /\
    same_dom (links s) h' /\
    (forall b, b ∉ CHead (Z.of_nat i) :: (Chunk <$> c :: cs) -> h' !! b = links s !! b).
Proof.
  intros Hl Hr. pose proof (lookup_lt_Some _ _ _ Hl) as Hlt.
  destruct (list_del_spec (links s) (CHead (Z.of_nat i)) [] (Chunk c) (fmap (M:=list) Chunk cs) Hr)
    as (h1 & E & Hr1 & Hd & Hf).
  assert (is_Some (h1 !! Chunk c)) as Hc.
  { apply Hd. eapply ring_mapped; [exact Hr|]. simpl. set_solver. }
  exists (<[Chunk c := Link None None]> h1). split; [|split_and!].
  - unfold chunk_list_take.
    pose proof (get_next_spec _ _ _ (ring_next _ _ _ Hr)) as Hn. simpl in Hn.
    run_step. run_step. run_step. run_step. run_step. run_step. run_step.
    unfold mret, M_ret. do 2 f_equal. unfold upd_links, upd_head. simpl.
    by rewrite list_insert_insert_eq.
  - eapply ring_agree; [|exact Hr1]. intros b Hb. rewrite lookup_insert_ne; [done|]. intros <-.
    apply ring_nodup in Hr as [_ Hr]%NoDup_cons. simpl in Hr. apply NoDup_cons in Hr. set_solver.
  - rewrite lookup_insert_eq. eauto.
  - intros b. rewrite lookup_insert. case_decide; [subst|apply Hd].
    split; [intros _; by apply Hd|eauto].
  - intros b Hb. simpl in Hb. rewrite lookup_insert_ne by set_solver. apply Hf. set_solver.
Qed.

Lemma mchunk_header_get_chunks_run s o p rest :
  chunk_order o -> mh_order s = 5 /\ mh_pow2_size s = 32 -> mmaps s = Some p :: rest ->
  exists h', mchunk_header_get_chunks o s =
      Ok (Some p, Cal h' (<[p := MHdr 0 (get_total_pages_by_order o) (Z.of_nat (cap o)) o 0 (p + off o)]> (headers s))
                    (head s) (addr s) (mh_order s) (mh_pow2_size s) rest (munmaps s)) /\
    ring h' (Chunk (p + off o)) (Chunk <$> (chunk_at p o <$> seq 1 (cap o - 1))) /\
    (forall x, x <> HNode p -> (forall c, c ∈ chunks o p -> x <> Chunk c) -> h' !! x = links s !! x) /\
    (forall c, c ∈ chunks o p -> is_Some (h' !! Chunk c)) /\ is_Some (h' !! HNode p).
Proof.
  intros Ho [Hm1 Hm2] Hmm. destruct (layout o Ho) as (L1 & L2 & Lc & Lu & _ & _ & Ls & Lb).
  set (h0 := <[HNode p := Link None None]> (links s)).
  set (h1 := linked (cap o) (p + off o) (p + mchunk_bytes o - 2 ^ o) (2 ^ o) h0).
  destruct (set_next_spec h1 (Chunk (p + mchunk_bytes o - 2 ^ o)) (Some (Chunk (p + off o))))
    as (h' & E & Hd & _).
  { replace (p + mchunk_bytes o - 2 ^ o) with (p + off o + Z.of_nat (cap o - 1) * 2 ^ o) by nia.
    unfold h1. rewrite linked_at by lia. eauto. }
  exists h'. destruct (mchunk_ring o p h0 h' Ho E) as (Hr & Hf & Hmap). split; [|split_and!].
  - unfold mchunk_header_get_chunks. rewrite Z.shiftl_1_l.
    erewrite (bind_run _ _ _ (Some p)); [|unfold mmap_allocate; by rewrite Hmm].
    rewrite (bind_run get _ _ _ _ eq_refl). cbn [mh_order mh_pow2_size]. rewrite Hm1, Hm2.
    change (first_chunk_offset o 5 32) with (off o).
    change (get_total_pages_by_order o * PAGE_SIZE) with (mchunk_bytes o).
    replace (p + mchunk_bytes o - (p + off o)) with (mchunk_bytes o - off o) by lia.
    rewrite cap_div by done.
    rewrite (bind_run _ _ _ tt _ eq_refl). rewrite (bind_run _ _ _ tt _ eq_refl).
    erewrite bind_run; [|apply (link_chunks_run (cap o)); [lia|nia|]].
    + rewrite bool_decide_eq_false_2 by lia.
      erewrite bind_run; [|apply write_links_run; exact E]. reflexivity.
    + unfold sizeof_mchunk_header in L2. assert (Z.of_nat (cap o) <= mchunk_bytes o) by nia. lia.
  - exact Hr.
  - intros x Hx Hxc. rewrite Hf by done. unfold h0. by rewrite lookup_insert_ne.
  - exact Hmap.
  - rewrite Hf by done. unfold h0. rewrite lookup_insert_eq. eauto.
Qed.

Lemma chunks_cons o p : chunk_order o ->
  chunks o p = p + off o :: (chunk_at p o <$> seq 1 (cap o - 1)).
Proof.
  intros Ho. destruct (layout o Ho) as (_ & _ & Lc & _). unfold chunks.
  replace (cap o) with (S (cap o - 1)) at 1 by lia. simpl. f_equal. unfold chunk_at. lia.
Qed.

Lemma chunk_list_refill_run s i ms tot n p rest :
  chunk_order (ord i) -> mh_order s = 5 /\ mh_pow2_size s = 32 -> mmaps s = Some p :: rest ->
  head s !! i = Some (CList 1 tot n) ->
  ring (links s) (CHead (Z.of_nat i)) [] -> ring (links s) (MHead (Z.of_nat i)) (HNode <$> ms) ->
  p ∉ ms ->
  exists h' hd, chunk_list_refill (Z.of_nat i) (ord i) s =
      Ok (true, Cal h' (<[p := hd]> (headers s))
        (<[i := CList 1 (wrap 32 (tot + Z.of_nat (cap (ord i)))) n]> (head s))
        (addr s) (mh_order s) (mh_pow2_size s) rest (munmaps s)) /\
    good_header (addr s) (ord i) p hd /\
    ring h' (CHead (Z.of_nat i)) (Chunk <$> chunks (ord i) p) /\
    ring h' (MHead (Z.of_nat i)) (HNode <$> ms ++ [p]) /\
    (forall x, ~ owns i (ms ++ [p]) x -> h' !! x = links s !! x) /\
    (forall c, c ∉ chunks (ord i) p -> h' !! Chunk c = links s !! Chunk c).
Proof.
  intros Ho Hm Hmm Hl Hc Hmr Hp. pose proof (lookup_lt_Some _ _ _ Hl) as Hlt.
  destruct (mchunk_header_get_chunks_run s (ord i) p rest Ho Hm Hmm)
    as (h1 & E1 & Hr1 & Hf1 & Hm1 & Hn1).
  assert (ring h1 (CHead (Z.of_nat i)) []) as Hc1.
  { eapply ring_agree; [|exact Hc]. intros b ->%list_elem_of_singleton. by apply Hf1. }
  assert (ring h1 (MHead (Z.of_nat i)) (HNode <$> ms)) as Hmr1.
  { eapply ring_agree; [|exact Hmr].
    intros b [->|(q & -> & Hq)%list_elem_of_fmap]%elem_of_cons; apply Hf1; try done. naive_solver. }
  destruct (list_insert_list_spec h1 (CHead (Z.of_nat i)) [] _ _ Hc1 Hr1) as (h2 & E2 & Hr2 & Hd2 & Hf2).
  { intros b [->|(q & -> & Hq)%list_elem_of_fmap]%elem_of_cons; set_solver. }
  rewrite app_nil_r in Hr2. change (Chunk (p + off (ord i)) :: (Chunk <$> (chunk_at p (ord i) <$> seq 1 (cap (ord i) - 1))))
    with (Chunk <$> (p + off (ord i) :: (chunk_at p (ord i) <$> seq 1 (cap (ord i) - 1)))) in Hr2, Hf2.
  rewrite <- chunks_cons in Hr2, Hf2 by done.
  assert (ring h2 (MHead (Z.of_nat i)) (HNode <$> ms)) as Hmr2.
  { eapply ring_agree; [|exact Hmr1].
    intros b [->|(q & -> & Hq)%list_elem_of_fmap]%elem_of_cons; apply Hf2; set_solver. }
  destruct (list_insert_tail_spec h2 (MHead (Z.of_nat i)) (HNode p) _ Hmr2) as (h3 & E3 & Hr3 & Hd3 & Hf3).
  { by apply Hd2. }
  { set_solver. }
  exists h3, (MHdr (addr s) (get_total_pages_by_order (ord i)) 0 (ord i) (wrap 32 (-1 - addr s)) (p + off (ord i))).
  split; [|split_and!].
  - unfold chunk_list_refill. rewrite (bind_run _ _ _ _ _ E1).
    rewrite (bind_run get _ _ _ _ eq_refl). cbn [addr].
    erewrite bind_run; [|eapply get_header_run; cbn [headers]; apply lookup_insert_eq].
    run_step. run_step. cbn [used first_chunk pages order]. run_step. run_step. run_step.
    unfold mret, M_ret, upd_links, upd_head, upd_headers. simpl. by rewrite insert_insert_eq.
  - split_and!; reflexivity.
  - eapply ring_agree; [|exact Hr2].
    intros b [->|(q & -> & Hq)%list_elem_of_fmap]%elem_of_cons; apply Hf3; set_solver.
  - rewrite fmap_app. exact Hr3.
  - intros x Hx. rewrite Hf3, Hf2, Hf1.
    + done.
    + intros ->. apply Hx. simpl. set_solver.
    + intros c Hcc ->. apply Hx. simpl. apply elem_of_all_chunks. exists p. set_solver.
    + intros ->%list_elem_of_singleton. by apply Hx.
    + intros (c & -> & Hcc)%list_elem_of_fmap. apply Hx. apply elem_of_all_chunks. exists p. set_solver.
    + intros [->|[->|(q & -> & Hq)%list_elem_of_fmap]%elem_of_cons]%elem_of_cons; apply Hx; simpl; set_solver.
  - intros c Hcc. rewrite Hf3, Hf2, Hf1; set_solver.
Qed.

(** ** Allocation *)

(** The kernel's next answer is an area of its own, or a failure. *)
Definition kernel_ok (s : cal_st) (G : ghost) (len : Z) : Prop :=
  match mmaps s with
  | [] => False
  | None :: _ => True
  | Some p :: _ => page_area p len /\ fresh_area G p len
  end.

Lemma order_by_size_run s size : 0 < size < CAL_CHUNK_THRESHOLD_SIZE ->
  exists i, get_order_by_size size = Ok (ord i) /\ order_by_size size s = Ok (ord i, s) /\
    size <= 2 ^ ord i /\ get_index_by_order (ord i) = Z.of_nat i /\
    (i < Z.to_nat CAL_CHUNK_HEADS)%nat.
Proof.
  intros Hs. destruct (get_order_by_size_spec size Hs) as (o & E & Ho & Hle).
  destruct (ord_index o Ho) as (i & -> & Hi & Hlt). exists i. unfold order_by_size. by rewrite E.
Qed.

(** The run of an allocation, up to the list it uses. *)
Lemma chunk_cache_get_run s G size i g :
  inv s G -> order_by_size size s = Ok (ord i, s) -> get_index_by_order (ord i) = Z.of_nat i ->
  G !! i = Some g -> list_ok s i g ->
  chunk_cache_get size s =
    (ok ← (if bool_decide (fr g = []) then chunk_list_refill (Z.of_nat i) (ord i) else mret true);
     if (ok : bool) then chunk_list_take (Z.of_nat i) else spin_unlock (Z.of_nat i);; mret None)
    (upd_head (fun h => <[i := CList 1 (wrap 32 (Z.of_nat (length (fr g ++ us g))))
                                       (wrap 32 (Z.of_nat (length (us g))))]> h) s).
Proof.
  intros Hinv Ho Hi Hg Hok. unfold chunk_cache_get. rewrite (bind_run get _ _ _ _ eq_refl).
  destruct (inv_mh _ _ Hinv) as [Hm _]. rewrite bool_decide_eq_false_2 by lia.
  rewrite (bind_run _ _ _ _ _ Ho). rewrite Hi.
  pose proof (lo_head _ _ _ Hok) as Hl.
  erewrite bind_run; [|eapply spin_lock_run; [exact Hl|done]]. cbn [total cl_used].
  erewrite bind_run; [|eapply read_links_run; apply (list_empty_spec _ _ _ (lo_free _ _ _ Hok))].
  rewrite (bool_decide_ext _ _ (fmap_nil_iff Chunk (fr g))). done.
Qed.

Lemma wrap_succ n : wrap 32 (wrap 32 (Z.of_nat n) + 1) = wrap 32 (Z.of_nat (S n)).
Proof. unfold wrap. rewrite Zplus_mod_idemp_l. f_equal. lia. Qed.

Lemma chunk_in_mchunks s i g c : list_ok s i g -> c ∈ fr g ++ us g ->
  exists p, p ∈ mc g /\ c ∈ chunks (ord i) p.
Proof. intros Hok. rewrite (lo_perm _ _ _ Hok). apply elem_of_all_chunks. Qed.

(** An allocation from the list of free chunks. *)
Lemma chunk_cache_get_hit s G size i g c cs :
  inv s G -> order_by_size size s = Ok (ord i, s) -> get_index_by_order (ord i) = Z.of_nat i ->
  G !! i = Some g -> fr g = c :: cs ->
  exists s', chunk_cache_get size s = Ok (Some c, s') /\
    inv s' (<[i := GList cs (c :: us g) (mc g)]> G) /\ headers s' = headers s /\ mmaps s' = mmaps s.
Proof.
  intros Hinv Ho Hi Hg Hfr. pose proof (inv_list _ _ Hinv _ _ Hg) as Hok.
  rewrite (chunk_cache_get_run _ _ _ _ _ Hinv Ho Hi Hg Hok).
  rewrite bool_decide_eq_false_2 by (by rewrite Hfr). rewrite (bind_run _ _ _ true _ eq_refl).
  pose proof (lo_free _ _ _ Hok) as Hr. rewrite Hfr in Hr.
  pose proof (lookup_lt_Some _ _ _ (lo_head _ _ _ Hok)) as Hlt.
  destruct (chunk_list_take_run (upd_head (fun h => <[i := CList 1 (wrap 32 (Z.of_nat (length (fr g ++ us g))))
      (wrap 32 (Z.of_nat (length (us g))))]> h) s) i _ _ c cs (list_lookup_insert_eq _ _ _ Hlt) Hr)
    as (h' & E & Hr' & Hc & Hd & Hf).
  rewrite E. eexists. split; [done|]. split; [|done].
  cbn [links upd_head] in Hf, Hd.
  assert (forall b, ~ owns i (mc g) b -> b ∉ CHead (Z.of_nat i) :: (Chunk <$> c :: cs)) as Hown.
  { intros b Hb [->|(y & -> & Hy)%list_elem_of_fmap]%elem_of_cons; apply Hb; [done|].
    simpl. rewrite <- (lo_perm _ _ _ Hok), Hfr. set_solver. }
  apply (inv_replace s G Hinv _ i g _ 0); cbn [fr us mc]; try done.
  - destruct Hok as [H1 H2 H3 H4 H5 H6]. split; cbn [fr us mc].
    + exact Hr'.
    + eapply ring_agree; [|exact H2].
      intros b [->|(y & -> & Hy)%list_elem_of_fmap]%elem_of_cons; apply Hf; set_solver.
    + rewrite <- H3, Hfr. simpl. by rewrite Permutation_middle.
    + intros y [->|Hy]%elem_of_cons; [done|]. apply Hd. by apply H4.
    + exact H5.
    + cbn [head upd_links upd_head]. rewrite list_insert_insert_eq, list_lookup_insert_eq by done.
      rewrite wrap_succ. do 3 f_equal. rewrite Hfr, !length_app. simpl. do 2 f_equal. lia.
  - by left.
  - intros a Ha. apply Hf. by apply Hown.
  - intros j Hj. cbn [head upd_links upd_head]. by rewrite !list_lookup_insert_ne.
Qed.

Lemma all_chunks_snoc i ms p : all_chunks i (ms ++ [p]) = all_chunks i ms ++ chunks (ord i) p.
Proof. unfold all_chunks. rewrite fmap_app, concat_app. simpl. by rewrite app_nil_r. Qed.

Lemma length_chunks o p : length (chunks o p) = cap o.
Proof. unfold chunks. by rewrite length_fmap, length_seq. Qed.

(** An allocation that gets an mchunk first. *)
Lemma chunk_cache_get_miss s G size i g p rest :
  inv s G -> order_by_size size s = Ok (ord i, s) -> get_index_by_order (ord i) = Z.of_nat i ->
  G !! i = Some g -> fr g = [] -> mmaps s = Some p :: rest ->
  page_area p (mchunk_bytes (ord i)) -> fresh_area G p (mchunk_bytes (ord i)) ->
  exists s' c cs, chunk_cache_get size s = Ok (Some c, s') /\ chunks (ord i) p = c :: cs /\
    inv s' (<[i := GList cs (c :: us g) (mc g ++ [p])]> G) /\ mmaps s' = rest.
Proof.
  intros Hinv Ho Hi Hg Hfr Hmm Hpa Hfa. pose proof (inv_list _ _ Hinv _ _ Hg) as Hok.
  pose proof (ghost_order _ _ Hinv _ _ Hg) as Hord.
  rewrite (chunk_cache_get_run _ _ _ _ _ Hinv Ho Hi Hg Hok). rewrite bool_decide_eq_true_2 by done.
  pose proof (lookup_lt_Some _ _ _ (lo_head _ _ _ Hok)) as Hlt.
  destruct (layout _ Hord) as (_ & _ & _ & _ & _ & _ & Lo & Lb).
  assert (p ∉ mc g) as Hp. { intros Hp. destruct (Hfa _ _ _ Hg Hp); lia. }
  pose proof (lo_free _ _ _ Hok) as Hr. rewrite Hfr in Hr.
  set (s1 := upd_head _ s).
  destruct (chunk_list_refill_run s1 i (mc g) (wrap 32 (Z.of_nat (length (fr g ++ us g))))
      (wrap 32 (Z.of_nat (length (us g)))) p rest Hord (inv_mh _ _ Hinv) Hmm
      (list_lookup_insert_eq _ _ _ Hlt) Hr (lo_mch _ _ _ Hok) Hp)
    as (h1 & hd & E1 & Hgh & Hr1 & Hm1 & Hf1 & Hcf).
  rewrite (bind_run _ _ _ _ _ E1).
  pose proof (chunks_cons _ p Hord) as Ecs.
  set (c := p + off (ord i)) in *. set (cs := chunk_at p (ord i) <$> seq 1 (cap (ord i) - 1)) in *.
  rewrite Ecs in Hr1.
  match goal with |- context [chunk_list_take _ ?st] => set (s2 := st) end.
  assert (head s2 !! i = Some (CList 1 (wrap 32 (wrap 32 (Z.of_nat (length (fr g ++ us g))) + Z.of_nat (cap (ord i))))
      (wrap 32 (Z.of_nat (length (us g)))))) as Hl2.
  { unfold s2, s1. cbn [head upd_head]. by rewrite list_insert_insert_eq, list_lookup_insert_eq. }
  destruct (chunk_list_take_run s2 i _ _ c cs Hl2 Hr1) as (h' & E & Hr' & Hc & Hd & Hf).
  exists (upd_links (fun _ => h') (upd_head (fun l => <[i := CList 0
    (wrap 32 (wrap 32 (Z.of_nat (length (fr g ++ us g))) + Z.of_nat (cap (ord i))))
    (wrap 32 (wrap 32 (Z.of_nat (length (us g))) + 1))]> l) s2)), c, cs.
  split; [done|]. split; [done|]. split; [|done].
  cbn [links upd_head] in Hf, Hd.
  assert (forall b, ~ owns i (mc g ++ [p]) b -> b ∉ CHead (Z.of_nat i) :: (Chunk <$> c :: cs)) as Hown.
  { intros b Hb [->|(y & -> & Hy)%list_elem_of_fmap]%elem_of_cons; apply Hb; [done|].
    simpl. rewrite all_chunks_snoc, Ecs. set_solver. }
  apply (inv_replace s G Hinv _ i g _ p); cbn [fr us mc]; try done.
  - destruct Hok as [H1 H2 H3 H4 H5 H6]. split; cbn [fr us mc].
    + exact Hr'.
    + eapply ring_agree; [|exact Hm1].
      intros b [->|(y & -> & Hy)%list_elem_of_fmap]%elem_of_cons; apply Hf; set_solver.
    + rewrite all_chunks_snoc, Ecs, <- H3, Hfr. simpl.
      rewrite (Permutation_app_comm (us g)). simpl. by rewrite Permutation_middle.
    + intros y [->|Hy]%elem_of_cons; [done|]. apply Hd. unfold s2. cbn [links].
      rewrite Hcf; [by apply H4|]. intros Hy'.
      assert (y ∈ fr g ++ us g) as Hy2 by set_solver. rewrite H3 in Hy2.
      apply elem_of_all_chunks in Hy2 as (q & Hq & Hy2).
      pose proof (chunk_bounds _ _ _ Hord Hy') as B1. pose proof (chunk_bounds _ _ _ Hord Hy2) as B2.
      unfold sizeof_mchunk_header in *. destruct (Hfa _ _ _ Hg Hq); lia.
    + intros q [Hq| ->%list_elem_of_singleton]%elem_of_app; cbn [headers upd_links upd_head s2].
      * destruct (H5 q Hq) as (h & Eh & Hh). exists h. split; [|done].
        unfold s2. cbn [headers]. rewrite lookup_insert_ne; [done|]. intros ->. done.
      * exists hd. unfold s2. cbn [headers]. by rewrite lookup_insert_eq.
    + unfold s2, s1. cbn [head upd_links upd_head].
      rewrite !list_insert_insert_eq, list_lookup_insert_eq by done.
      rewrite wrap_succ. do 2 f_equal.
      unfold wrap. rewrite Zplus_mod_idemp_l. f_equal.
      assert (length (c :: cs) = cap (ord i)) as El by (rewrite <- Ecs; apply length_chunks).
      rewrite Hfr, !length_app. simpl in *. lia.
  - set_solver.
  - intros q [Hq| ->%list_elem_of_singleton]%elem_of_app; [by left|by right].
  - intros a Ha. cbn [links upd_links upd_head]. rewrite Hf by (by apply Hown).
    unfold s2. cbn [links]. by apply Hf1.
  - intros q Hq. unfold s2. cbn [headers upd_links upd_head]. rewrite lookup_insert_ne; [done|]. set_solver.
  - intros j Hj. unfold s2, s1. cbn [head upd_links upd_head]. by rewrite !list_lookup_insert_ne.
Qed.

(** An allocation that fails. *)
Lemma chunk_cache_get_fail s G size i g rest :
  inv s G -> order_by_size size s = Ok (ord i, s) -> get_index_by_order (ord i) = Z.of_nat i ->
  G !! i = Some g -> fr g = [] -> mmaps s = None :: rest ->
  exists s', chunk_cache_get size s = Ok (None, s') /\ inv s' G /\ headers s' = headers s /\ mmaps s' = rest.
Proof.
  intros Hinv Ho Hi Hg Hfr Hmm. pose proof (inv_list _ _ Hinv _ _ Hg) as Hok.
  rewrite (chunk_cache_get_run _ _ _ _ _ Hinv Ho Hi Hg Hok). rewrite bool_decide_eq_true_2 by done.
  pose proof (lookup_lt_Some _ _ _ (lo_head _ _ _ Hok)) as Hlt.
  set (s1 := upd_head _ s).
  set (s2 := Cal (links s1) (headers s1) (head s1) (addr s1) (mh_order s1) (mh_pow2_size s1) rest (munmaps s1)).
  assert (chunk_list_refill (Z.of_nat i) (ord i) s1 = Ok (false, s2)) as E.
  { unfold chunk_list_refill, mchunk_header_get_chunks, mmap_allocate, mbind, M_bind.
    change (mmaps s1) with (mmaps s). by rewrite Hmm. }
  rewrite (bind_run _ _ _ _ _ E).
  erewrite bind_run; [|eapply spin_unlock_run; apply list_lookup_insert_eq; done].
  eexists. split; [reflexivity|]. split; [|done]. cbn [total cl_used].
  rewrite <- (list_insert_id G i g) by done.
  apply (inv_replace s G Hinv _ i g g 0); try done.
  - apply (list_ok_frame s); try done. unfold s2, s1. cbn [head upd_head].
    rewrite list_insert_insert_eq, list_lookup_insert_eq by done. symmetry. apply (lo_head _ _ _ Hok).
  - by left.
  - intros j Hj. unfold s2, s1. cbn [head upd_head]. by rewrite !list_lookup_insert_ne.
Qed.

(** ** Release *)

(** The pages of the mchunk [p] up to [c], the first one excepted, do not
    look like a header of order [o]. *)
Definition honest (peek : Z -> option page_view) (o p c : Z) : Prop :=
  forall pg, p < pg <= c -> pg mod PAGE_SIZE = 0 ->
    exists v, peek pg = Some v /\ header_matches v o = false.

Lemma page_of c : 0 <= c < 2 ^ 32 -> Z.land c (wrap 32 (- PAGE_SIZE)) = PAGE_SIZE * (c / PAGE_SIZE).
Proof.
  intros Hc. change (wrap 32 (- PAGE_SIZE)) with (Z.shiftl (Z.ones 20) 12).
  rewrite <- (Z.mod_small c (2 ^ 32)) at 1 by done.
  replace (c mod 2 ^ 32) with (Z.land c (Z.ones 32)) by (by rewrite Z.land_ones).
  change PAGE_SIZE with (2 ^ 12). rewrite <- Z.shiftr_div_pow2, Z.mul_comm, <- Z.shiftl_mul_pow2 by lia.
  apply Z.bits_inj'. intros n Hn. rewrite !Z.land_spec, Z.shiftl_spec by done.
  rewrite (Z.shiftl_spec (Z.shiftr c 12)) by done.
  destruct (decide (n < 12)).
  - rewrite !(Z.testbit_neg_r _ (n - 12)) by lia. apply andb_false_r.
  - rewrite Z.shiftr_spec by lia. replace (n - 12 + 12) with n by lia.
    destruct (decide (n < 32)).
    + rewrite !Z.ones_spec_low by lia. by rewrite !andb_true_r.
    + rewrite !Z.ones_spec_high by lia. rewrite !andb_false_r.
      symmetry. eapply testbit_high; [exact Hc|lia].
Qed.

Lemma good_header_matches ad o p h : 0 < ad < 2 ^ 32 -> good_header ad o p h ->
  header_matches (chunk_cache h, not_chunk_cache h, order h) o = true.
Proof.
  intros Ha (-> & -> & -> & _). unfold header_matches.
  rewrite (bool_decide_eq_false_2 (ad = 0)) by lia. rewrite !bool_decide_eq_true_2; [done|done|].
  unfold wrap. rewrite Zminus_mod_idemp_r. replace (-1 - (-1 - ad)) with ad by lia.
  rewrite Z.mod_small; [done|lia].
Qed.

Lemma header_scan_finds s G peek i g p c n k :
  inv s G -> G !! i = Some g -> p ∈ mc g -> c ∈ chunks (ord i) p -> honest peek (ord i) p c ->
  p + Z.of_nat k * PAGE_SIZE <= c -> (k < n)%nat ->
  header_scan peek (p + Z.of_nat k * PAGE_SIZE) (ord i) n s = Ok (Some p, s).
Proof.
  intros Hinv Hg Hp Hc Hh. pose proof (ghost_order _ _ Hinv _ _ Hg) as Hord.
  pose proof (inv_page _ _ Hinv _ _ _ Hg Hp) as (P1 & P2 & P3).
  pose proof (chunk_bounds _ _ _ Hord Hc) as [B1 B2].
  destruct (layout _ Hord) as (_ & _ & _ & _ & _ & _ & Lo & Lb).
  revert n. induction k as [|k IH]; intros n Hk Hn; (destruct n as [|n]; [lia|]); simpl.
  - replace (p + Z.of_nat 0 * PAGE_SIZE) with p by lia.
    destruct (lo_hdr _ _ _ (inv_list _ _ Hinv _ _ Hg) p Hp) as (h & Eh & Gh).
    unfold view_page, mbind, M_bind. simpl. rewrite Eh. simpl.
    by rewrite (good_header_matches (addr s) _ p h (inv_addr _ _ Hinv) Gh).
  - change PAGE_SIZE with 4096 in *. set (pg := p + Z.of_nat (S k) * 4096) in *.
    assert (headers s !! pg = None) as En.
    { destruct (headers s !! pg) as [h|] eqn:Eh; [|done]. exfalso.
      destruct (inv_only _ _ Hinv _ _ Eh) as (j & g' & Hg' & Hq).
      destruct (layout _ (ghost_order _ _ Hinv _ _ Hg')) as (_ & _ & _ & _ & _ & _ & _ & Lb').
      destruct (inv_apart _ _ Hinv _ _ _ _ _ _ Hg Hp Hg' Hq) as [[_ ?]|[?|?]]; unfold pg in *; lia. }
    destruct (Hh pg) as (v & Ev & Hv); [unfold pg; lia|unfold pg; by rewrite Z.mod_add|].
    unfold view_page at 1, mbind, M_bind. simpl. rewrite En, Ev. simpl. rewrite Hv.
    replace (wrap 32 (pg - 4096)) with (p + Z.of_nat k * 4096).
    + apply IH; [unfold pg in *; lia|lia].
    + rewrite wrap_small; unfold pg; lia.
Qed.

Lemma get_mchunk_header_by_chunk_spec s G peek i g p c :
  inv s G -> G !! i = Some g -> p ∈ mc g -> c ∈ chunks (ord i) p -> honest peek (ord i) p c ->
  get_mchunk_header_by_chunk peek c (ord i) s = Ok (Some p, s).
Proof.
  intros Hinv Hg Hp Hc Hh. pose proof (ghost_order _ _ Hinv _ _ Hg) as Hord.
  pose proof (inv_page _ _ Hinv _ _ _ Hg Hp) as (P1 & P2 & P3).
  pose proof (chunk_bounds _ _ _ Hord Hc) as [B1 B2].
  destruct (layout _ Hord) as (_ & _ & _ & _ & _ & _ & Lo & Lb).
  unfold get_mchunk_header_by_chunk, sizeof_mchunk_header, mchunk_bytes in *.
  rewrite page_of by lia.
  change PAGE_SIZE with 4096 in *.
  pose proof (Z.div_mod p 4096 ltac:(lia)) as Dp. pose proof (Z.div_mod c 4096 ltac:(lia)) as Dc.
  pose proof (Z.mod_pos_bound c 4096 ltac:(lia)).
  replace (4096 * (c / 4096)) with (p + Z.of_nat (Z.to_nat (c / 4096 - p / 4096)) * 4096) by lia.
  apply (header_scan_finds s G peek i g p c); [done..| |]; change PAGE_SIZE with 4096; lia.
Qed.

(** Releasing a block in use puts it at the front of its list of free chunks. *)
Lemma chunk_cache_put_spec s G peek size i g us1 c us2 p :
  inv s G -> order_by_size size s = Ok (ord i, s) -> get_index_by_order (ord i) = Z.of_nat i ->
  G !! i = Some g -> us g = us1 ++ c :: us2 -> p ∈ mc g -> c ∈ chunks (ord i) p ->
  honest peek (ord i) p c ->
  exists s', chunk_cache_put peek c size s = Ok (tt, s') /\
    inv s' (<[i := GList (c :: fr g) (us1 ++ us2) (mc g)]> G) /\ mmaps s' = mmaps s.
Proof.
  intros Hinv Ho Hi Hg Hus Hp Hc Hh. pose proof (inv_list _ _ Hinv _ _ Hg) as Hok.
  pose proof (lookup_lt_Some _ _ _ (lo_head _ _ _ Hok)) as Hlt.
  destruct (lo_hdr _ _ _ Hok p Hp) as (h & Eh & Gh).
  assert (NoDup (fr g ++ us g)) as Hnd by (rewrite (lo_perm _ _ _ Hok); by eapply NoDup_all_chunks).
  rewrite Hus in Hnd. assert (c ∉ fr g /\ c ∉ us1 ++ us2) as [Hcf Hcu].
  { rewrite <- Permutation_middle in Hnd. rewrite <- Permutation_middle in Hnd.
    apply NoDup_cons in Hnd as [Hnd _]. set_solver. }
  destruct (lnode_init_spec (links s) (Chunk c)) as (h1 & E1 & Hr1 & Hd1 & Hf1).
  { apply (lo_used _ _ _ Hok). rewrite Hus. set_solver. }
  assert (ring h1 (CHead (Z.of_nat i)) (Chunk <$> fr g)) as Hfr1.
  { eapply ring_agree; [|apply (lo_free _ _ _ Hok)].
    intros b [->|(y & -> & Hy)%list_elem_of_fmap]%elem_of_cons; apply Hf1; [done|].
    intros [= ->]. done. }
  destruct (list_insert_spec h1 (CHead (Z.of_nat i)) (Chunk c) _ Hfr1) as (h2 & E2 & Hr2 & Hd2 & Hf2).
  { eapply ring_mapped; [exact Hr1|]. set_solver. }
  { intros [?|(y & ? & Hy)%list_elem_of_fmap]%elem_of_cons; [done|]. by simplify_eq. }
  pose proof (lo_head _ _ _ Hok) as Hl.
  eexists. split; [|split].
  - unfold chunk_cache_put. rewrite (bind_run _ _ _ _ _ Ho).
    rewrite (bind_run _ _ _ _ _ (get_mchunk_header_by_chunk_spec _ _ _ _ _ _ _ Hinv Hg Hp Hc Hh)).
    rewrite (bind_run get _ _ _ _ eq_refl). rewrite (bind_run _ _ _ _ _ (get_header_run _ _ _ Eh)).
    rewrite bool_decide_eq_true_2 by apply Gh. rewrite Hi.
    run_step. run_step. run_step. run_step. run_step. run_step.
    eapply spin_unlock_run. cbn [head upd_links upd_head upd_headers].
    rewrite list_lookup_insert_eq; [done|by rewrite length_insert].
  - apply (inv_replace s G Hinv _ i g _ 0); cbn [fr us mc]; try done.
    + destruct Hok as [H1 H2 H3 H4 H5 H6]. split; cbn [fr us mc].
      * exact Hr2.
      * eapply ring_agree; [|exact H2].
        intros b [->|(y & -> & Hy)%list_elem_of_fmap]%elem_of_cons; cbn [links upd_links upd_head upd_headers];
          rewrite Hf2, Hf1; set_solver.
      * rewrite <- H3, Hus. simpl. by rewrite <- Permutation_middle, <- Permutation_middle.
      * intros y Hy. cbn [links upd_links upd_head upd_headers]. apply Hd2, Hd1, H4. rewrite Hus. set_solver.
      * intros q Hq. cbn [headers upd_links upd_head upd_headers]. rewrite lookup_insert.
        case_decide; [subst q|by apply H5]. eexists. split; [done|].
        destruct Gh as (G1 & G2 & G3 & G4 & G5). by split_and!.
      * cbn [head upd_links upd_head upd_headers]. rewrite !list_insert_insert_eq, list_lookup_insert_eq by done.
        cbn [total cl_used]. do 2 f_equal.
        -- f_equal. rewrite Hus, !length_app. simpl. rewrite ?length_app. simpl. lia.
        -- unfold wrap. rewrite Zminus_mod_idemp_l. f_equal. rewrite Hus, !length_app. simpl. lia.
    + by left.
    + intros a Ha. cbn [links upd_links upd_head upd_headers].
      assert (a <> Chunk c).
      { intros ->. apply Ha. simpl. apply elem_of_all_chunks. eauto. }
      assert (a ∉ CHead (Z.of_nat i) :: (Chunk <$> fr g)).
      { intros [->|(y & -> & Hy)%list_elem_of_fmap]%elem_of_cons; apply Ha; simpl; [done|].
        rewrite <- (lo_perm _ _ _ Hok). set_solver. }
      rewrite Hf2, Hf1 by set_solver. done.
    + intros q Hq. cbn [headers upd_links upd_head upd_headers]. rewrite lookup_insert_ne; [done|].
      intros ->. done.
    + intros j Hj. cbn [head upd_links upd_head upd_headers]. by rewrite !list_lookup_insert_ne.
  - done.
Qed.

(** ** Reachable states *)

Definition ghost0 : ghost := replicate (Z.to_nat CAL_CHUNK_HEADS) (GList [] [] []).

Lemma chunk_list_init_run s i : head s !! i = Some (CList 0 0 0) ->
  is_Some (links s !! CHead (Z.of_nat i)) -> is_Some (links s !! MHead (Z.of_nat i)) ->
  exists h', chunk_list_init (Z.of_nat i) s = Ok (tt, upd_links (fun _ => h') s) /\
    ring h' (CHead (Z.of_nat i)) [] /\ ring h' (MHead (Z.of_nat i)) [] /\ same_dom (links s) h' /\
    (forall b, b <> CHead (Z.of_nat i) -> b <> MHead (Z.of_nat i) -> h' !! b = links s !! b).
Proof.
  intros Hl Hc Hm.
  destruct (lnode_init_spec _ _ Hc) as (h1 & E1 & Hr1 & Hd1 & Hf1).
  destruct (lnode_init_spec h1 (MHead (Z.of_nat i))) as (h2 & E2 & Hr2 & Hd2 & Hf2).
  { by apply Hd1. }
  exists h2. split_and!.
  - unfold chunk_list_init. run_step. run_step. run_step.
    erewrite write_links_run by exact E2. unfold upd_links, upd_head. simpl. by rewrite list_insert_id.
  - eapply ring_agree; [|exact Hr1]. intros b ->%list_elem_of_singleton. by apply Hf2.
  - done.
  - by eapply same_dom_trans.
  - intros b H1 H2. by rewrite Hf2, Hf1.
Qed.

Lemma chunk_cache_init_run idxs s : NoDup idxs ->
  (forall i, i ∈ idxs -> head s !! i = Some (CList 0 0 0) /\
     is_Some (links s !! CHead (Z.of_nat i)) /\ is_Some (links s !! MHead (Z.of_nat i))) ->
  exists h', for_lists chunk_list_init (Z.of_nat <$> idxs) s = Ok (tt, upd_links (fun _ => h') s) /\
    (forall i, i ∈ idxs -> ring h' (CHead (Z.of_nat i)) [] /\ ring h' (MHead (Z.of_nat i)) []) /\
    (forall b, (forall i, i ∈ idxs -> b <> CHead (Z.of_nat i) /\ b <> MHead (Z.of_nat i)) ->
       h' !! b = links s !! b).
Proof.
  revert s. induction idxs as [|i idxs IH]; intros s Hnd Hs.
  { exists (links s). split_and!; [by destruct s|by intros i ?%not_elem_of_nil|done]. }
  apply NoDup_cons in Hnd as [Hi Hnd].
  destruct (Hs i) as (Hl & Hc & Hm); [set_solver|].
  destruct (chunk_list_init_run s i Hl Hc Hm) as (h1 & E1 & R1 & R2 & Hd & Hf).
  destruct (IH (upd_links (fun _ => h1) s) Hnd) as (h2 & E2 & R3 & Hf2).
  { intros j Hj. destruct (Hs j) as (? & ? & ?); [set_solver|]. split_and!; [done|by apply Hd..]. }
  exists h2. split_and!.
  - rewrite fmap_cons. simpl. rewrite (bind_run _ _ _ _ _ E1). exact E2.
  - intros j [->|Hj]%elem_of_cons; [|by apply R3].
    split; (eapply ring_agree; [|done]); intros b ->%list_elem_of_singleton; apply Hf2;
      intros k Hk; split; intros [= E]; apply Hi; by replace i with k by lia.
  - intros b Hb. rewrite Hf2.
    + cbn [links upd_links]. apply Hf; apply Hb; set_solver.
    + intros k Hk. apply Hb. set_solver.
Qed.

Lemma heads_mapped idxs h i : i ∈ idxs ->
  is_Some (zero_heads idxs h !! CHead i) /\ is_Some (zero_heads idxs h !! MHead i).
Proof.
  induction idxs as [|j idxs IH]; [by intros ?%not_elem_of_nil|].
  intros [->|Hi]%elem_of_cons; simpl; rewrite !lookup_insert;
    repeat case_decide; simplify_eq; split; eauto; by apply IH.
Qed.

(** A state without mchunks. *)
Lemma inv_ghost0 s :
  mh_order s = 5 -> mh_pow2_size s = 32 -> 0 < addr s < 2 ^ 32 -> headers s = ∅ ->
  head s = replicate (Z.to_nat CAL_CHUNK_HEADS) (CList 0 0 0) ->
  (forall i, (i < Z.to_nat CAL_CHUNK_HEADS)%nat ->
     ring (links s) (CHead (Z.of_nat i)) [] /\ ring (links s) (MHead (Z.of_nat i)) []) ->
  inv s ghost0.
Proof.
  intros H1 H2 H3 H4 H5 Hr.
  assert (forall i g, ghost0 !! i = Some g -> g = GList [] [] [] /\ (i < Z.to_nat CAL_CHUNK_HEADS)%nat) as Hg0.
  { intros i g [-> Hi]%lookup_replicate. by split. }
  split; [by apply length_replicate|done|done| | | |].
  - intros i g [-> Hi]%Hg0. destruct (Hr i Hi) as [R1 R2].
    split; [exact R1|exact R2|done|by intros c ?%not_elem_of_nil|by intros p ?%not_elem_of_nil|].
    rewrite H5. by apply lookup_replicate.
  - by intros i g p [-> _]%Hg0 ?%not_elem_of_nil.
  - by intros i j g g' p p' [-> _]%Hg0 ?%not_elem_of_nil.
  - intros p h. by rewrite H4, lookup_empty.
Qed.

Lemma cal_boot_inv ad mm : 0 < ad < 2 ^ 32 ->
  exists s, cal_boot ad mm = Ok s /\ inv s ghost0 /\ mmaps s = mm /\ headers s = ∅.
Proof.
  intros Ha.
  set (h0 := zero_heads (seqZ 0 CAL_CHUNK_HEADS) ∅).
  set (s0 := Cal h0 ∅ (replicate (Z.to_nat CAL_CHUNK_HEADS) (CList 0 0 0)) ad 5 32 mm []).
  destruct (chunk_cache_init_run (seq 0 (Z.to_nat CAL_CHUNK_HEADS)) s0) as (h' & E & Hr & _).
  { apply NoDup_seq. }
  { intros i Hi%elem_of_seq. split.
    - apply lookup_replicate. split; [done|lia].
    - apply heads_mapped. apply elem_of_seqZ. lia. }
  exists (upd_links (fun _ => h') s0). split; [|split; [|split; reflexivity]].
  - unfold cal_boot, cal_init, chunk_cache_init.
    rewrite (bind_run cal_initialize _ _ 0 (Cal ∅ ∅ [] ad 5 32 mm [])) by reflexivity.
    rewrite (bind_run _ _ _ tt _ eq_refl). rewrite (bind_run _ _ _ tt _ eq_refl).
    match goal with |- context [for_lists _ _ ?st] =>
      change (for_lists chunk_list_init (seqZ 0 CAL_CHUNK_HEADS) st)
        with (for_lists chunk_list_init (Z.of_nat <$> seq 0 (Z.to_nat CAL_CHUNK_HEADS)) s0) end.
    by rewrite E.
  - apply inv_ghost0; [reflexivity|reflexivity|exact Ha|reflexivity|reflexivity|].
    intros i Hi. apply Hr, elem_of_seq. lia.
Qed.

(** The areas of the mchunks, as the headers describe them. *)
Definition kernel_fresh (s : cal_st) (p len : Z) : Prop :=
  page_area p len /\
  forall q h, headers s !! q = Some h -> q + pages h * PAGE_SIZE <= p \/ p + len <= q.

(** The next answer to a request of [len] bytes is NULL or an area of its own. *)
Definition kernel_answers (s : cal_st) (len : Z) : Prop :=
  match mmaps s with
  | [] => False
  | None :: _ => True
  | Some p :: _ => kernel_fresh s p len
  end.

(** The bytes [mmap] is asked for when a block of [size] bytes is missing. *)
Definition request (size : Z) : Z :=
  match get_order_by_size size with Ok o => mchunk_bytes o | Err _ => 0 end.

(** The first page of the mchunk that holds a block is the only one whose
    contents look like its header. *)
Definition honest_pages (s : cal_st) (peek : Z -> option page_view) (c size : Z) : Prop :=
  forall p h o, get_order_by_size size = Ok o -> headers s !! p = Some h -> p <= c < p + pages h * PAGE_SIZE ->
    honest peek o p c.

(** The states the program reaches with blocks [L], by address, in use, as
    the clients obtain and release small blocks. *)
Inductive reach (ad : Z) : cal_st -> gmap Z Z -> Prop :=
  | reach_boot mm s : cal_boot ad mm = Ok s -> reach ad s ∅
  | reach_get s L size r s' :
      reach ad s L -> 0 < size < CAL_CHUNK_THRESHOLD_SIZE -> kernel_answers s (request size) ->
      cal_get size s = Ok (r, s') ->
      reach ad s' (match r with Some c => <[c := size]> L | None => L end)
  | reach_put s L c size peek s' :
      reach ad s L -> L !! c = Some size -> honest_pages s peek c size ->
      cal_put peek c size s = Ok (tt, s') -> reach ad s' (delete c L).

(** The blocks in use are those of the lists. *)
Record tracks (G : ghost) (L : gmap Z Z) : Prop := {
  tr_used : forall c size, L !! c = Some size ->
    0 < size < CAL_CHUNK_THRESHOLD_SIZE /\
    exists i g, get_order_by_size size = Ok (ord i) /\ G !! i = Some g /\ c ∈ us g;
  tr_only : forall i g c, G !! i = Some g -> c ∈ us g -> is_Some (L !! c) }.

Section tracking.
Context (s : cal_st) (G : ghost) (L : gmap Z Z) (Hinv : inv s G) (Htr : tracks G L).

Lemma us_unique i j g g' c : G !! i = Some g -> c ∈ us g -> G !! j = Some g' -> c ∈ us g' -> i = j.
Proof.
  intros Hg Hc Hg' Hc'. destruct (decide (i = j)) as [|Hne]; [done|]. exfalso.
  apply (owns_disjoint _ _ Hinv i j g g' (Chunk c)); [done..| |]; simpl.
  - rewrite <- (lo_perm _ _ _ (inv_list _ _ Hinv _ _ Hg)). set_solver.
  - rewrite <- (lo_perm _ _ _ (inv_list _ _ Hinv _ _ Hg')). set_solver.
Qed.

Lemma tracks_get i g cs c ms size :
  G !! i = Some g -> get_order_by_size size = Ok (ord i) -> 0 < size < CAL_CHUNK_THRESHOLD_SIZE ->
  (forall j g', G !! j = Some g' -> c ∉ us g') ->
  tracks (<[i := GList cs (c :: us g) ms]> G) (<[c := size]> L).
Proof.
  intros Hg Hs Hsz Hc. pose proof (lookup_lt_Some _ _ _ Hg) as Hlt. split.
  - intros c' size'. rewrite lookup_insert. case_decide as E.
    + intros [= <-]. subst. split; [done|]. eexists i, _. split; [done|].
      rewrite list_lookup_insert_eq by done. split; [done|]. simpl. set_solver.
    + intros (Hsz' & j & g' & E1 & E2 & Hu)%(tr_used _ _ Htr). split; [done|].
      destruct (decide (i = j)) as [<-|Hij].
      * simplify_eq. eexists i, _. rewrite list_lookup_insert_eq by done. split_and!; [done..|].
        simpl. set_solver.
      * exists j, g'. rewrite list_lookup_insert_ne by done. done.
  - intros j g' c' Hg' Hc'. rewrite lookup_insert. case_decide; [done|].
    destruct (decide (i = j)) as [<-|Hij].
    + rewrite list_lookup_insert_eq in Hg' by done. injection Hg' as <-. simpl in Hc'.
      apply (tr_only _ _ Htr i g); [done|]. set_solver.
    + rewrite list_lookup_insert_ne in Hg' by done. by eapply tr_only.
Qed.

Lemma tracks_put i g us1 c us2 fs :
  G !! i = Some g -> us g = us1 ++ c :: us2 ->
  tracks (<[i := GList fs (us1 ++ us2) (mc g)]> G) (delete c L).
Proof.
  intros Hg Hus. pose proof (lookup_lt_Some _ _ _ Hg) as Hlt.
  assert (NoDup (us g)) as Hnd.
  { pose proof (NoDup_all_chunks _ _ Hinv _ _ Hg) as Hnd.
    rewrite <- (lo_perm _ _ _ (inv_list _ _ Hinv _ _ Hg)) in Hnd. by apply NoDup_app in Hnd as (_ & _ & Hnd). }
  rewrite Hus, <- Permutation_middle in Hnd. apply NoDup_cons in Hnd as [Hnd _].
  split.
  - intros c' size' [Hne (Hsz & j & g' & E1 & E2 & Hu)%(tr_used _ _ Htr)]%lookup_delete_Some.
    split; [done|]. destruct (decide (i = j)) as [<-|Hij].
    + simplify_eq. eexists i, _. rewrite list_lookup_insert_eq by done. split_and!; [done..|].
      simpl. rewrite Hus in Hu. set_solver.
    + exists j, g'. by rewrite list_lookup_insert_ne.
  - intros j g' c' Hg' Hc'. destruct (decide (i = j)) as [<-|Hij].
    + rewrite list_lookup_insert_eq in Hg' by done. injection Hg' as <-. simpl in Hc'.
      rewrite lookup_delete_ne by (intros ->; done).
      apply (tr_only _ _ Htr i g); [done|]. rewrite Hus. set_solver.
    + rewrite list_lookup_insert_ne in Hg' by done.
      rewrite lookup_delete_ne; [by eapply tr_only|]. intros <-.
      apply Hij. eapply us_unique; [exact Hg| |exact Hg'|done]. rewrite Hus. set_solver.
Qed.
End tracking.

Lemma kernel_answers_ok s G len : inv s G -> kernel_answers s len -> kernel_ok s G len.
Proof.
  intros Hinv. unfold kernel_answers, kernel_ok. destruct (mmaps s) as [|[p|] rest]; [done| |done].
  intros [Hpa Hf]. split; [done|]. intros i g q Hg Hq.
  destruct (lo_hdr _ _ _ (inv_list _ _ Hinv _ _ Hg) q Hq) as (h & Eh & _ & _ & _ & Hp & _).
  specialize (Hf q h Eh). rewrite Hp in Hf. exact Hf.
Qed.

Lemma cal_get_small s size : size < CAL_CHUNK_THRESHOLD_SIZE -> cal_get size s = chunk_cache_get size s.
Proof. intros. unfold cal_get. by rewrite bool_decide_eq_true_2. Qed.
Lemma cal_put_small s peek c size :
  size < CAL_CHUNK_THRESHOLD_SIZE -> cal_put peek c size s = chunk_cache_put peek c size s.
Proof. intros. unfold cal_put. by rewrite bool_decide_eq_true_2. Qed.

(** A free chunk is in no list of blocks in use. *)
Lemma free_not_used s G i g c : inv s G -> G !! i = Some g -> c ∈ fr g ->
  forall j g', G !! j = Some g' -> c ∉ us g'.
Proof.
  intros Hinv Hg Hc j g' Hg' Hc'. destruct (decide (i = j)) as [<-|Hij].
  - simplify_eq. pose proof (NoDup_all_chunks _ _ Hinv _ _ Hg) as Hnd.
    rewrite <- (lo_perm _ _ _ (inv_list _ _ Hinv _ _ Hg)) in Hnd.
    apply NoDup_app in Hnd as (_ & Hnd & _). by apply (Hnd c).
  - apply (owns_disjoint _ _ Hinv i j g g' (Chunk c) Hg Hg' Hij); simpl.
    + rewrite <- (lo_perm _ _ _ (inv_list _ _ Hinv _ _ Hg)). set_solver.
    + rewrite <- (lo_perm _ _ _ (inv_list _ _ Hinv _ _ Hg')). set_solver.
Qed.

Lemma fresh_not_used s G i p c : inv s G -> chunk_order (ord i) ->
  fresh_area G p (mchunk_bytes (ord i)) -> c ∈ chunks (ord i) p ->
  forall j g', G !! j = Some g' -> c ∉ us g'.
Proof.
  intros Hinv Ho Hf Hc j g' Hg' Hc'.
  assert (c ∈ fr g' ++ us g') as Hin by set_solver.
  destruct (chunk_in_mchunks _ _ _ _ (inv_list _ _ Hinv _ _ Hg') Hin) as (q & Hq & Hcq).
  pose proof (chunk_bounds _ _ _ Ho Hc) as B1.
  pose proof (ghost_order _ _ Hinv _ _ Hg') as Ho'.
  pose proof (chunk_bounds _ _ _ Ho' Hcq) as B2.
  destruct (layout _ Ho) as (_ & _ & _ & _ & _ & _ & L1 & _).
  destruct (layout _ Ho') as (_ & _ & _ & _ & _ & _ & L2 & _).
  unfold sizeof_mchunk_header in *. destruct (Hf _ _ _ Hg' Hq); lia.
Qed.

(** An allocation in a tracked state. *)
Lemma cal_get_tracked s G L size :
  inv s G -> tracks G L -> 0 < size < CAL_CHUNK_THRESHOLD_SIZE -> kernel_answers s (request size) ->
  exists r s' G', cal_get size s = Ok (r, s') /\ inv s' G' /\
    tracks G' (match r with Some c => <[c := size]> L | None => L end) /\
    match r with Some c => L !! c = None | None => mmaps s !! 0%nat = Some None end.
Proof.
  intros Hinv Htr Hsz Hk.
  destruct (order_by_size_run s size Hsz) as (i & Eo & Er & Hle & Hidx & Hlt).
  unfold request in Hk. rewrite Eo in Hk. apply (kernel_answers_ok s G _ Hinv) in Hk.
  destruct (head_length s G Hinv i Hlt) as (g & Hg & Hok).
  assert (forall c, (forall j g', G !! j = Some g' -> c ∉ us g') -> L !! c = None) as HL.
  { intros c Hc. destruct (L !! c) as [sz|] eqn:E; [|done].
    destruct (tr_used _ _ Htr _ _ E) as (_ & j & g' & _ & Hg' & Hin). by apply (Hc j g') in Hin. }
  rewrite cal_get_small by lia. destruct (fr g) as [|c cs] eqn:Hfr.
  - unfold kernel_ok in Hk. destruct (mmaps s) as [|[p|] rest] eqn:Hmm; [done| |].
    + destruct Hk as [Hpa Hfa].
      destruct (chunk_cache_get_miss _ _ _ _ _ _ _ Hinv Er Hidx Hg Hfr Hmm Hpa Hfa)
        as (s' & c & cs & E & Ecs & Hinv' & _).
      assert (forall j g', G !! j = Some g' -> c ∉ us g') as Hc.
      { apply (fresh_not_used s G i p); [done|by apply (ghost_order s G Hinv i g)|done|]. rewrite Ecs. set_solver. }
      eexists (Some c), s', _. split_and!; [done|done| |by apply HL].
      by eapply tracks_get.
    + destruct (chunk_cache_get_fail _ _ _ _ _ _ Hinv Er Hidx Hg Hfr Hmm) as (s' & E & Hinv' & _).
      exists None, s', G. done.
  - destruct (chunk_cache_get_hit _ _ _ _ _ _ _ Hinv Er Hidx Hg Hfr) as (s' & E & Hinv' & _).
    assert (forall j g', G !! j = Some g' -> c ∉ us g') as Hc.
    { apply (free_not_used s G i g); [done|done|]. rewrite Hfr. set_solver. }
    eexists (Some c), s', _. split_and!; [done|done| |by apply HL].
    by eapply tracks_get.
Qed.

(** A release in a tracked state. *)
Lemma cal_put_tracked s G L c size peek :
  inv s G -> tracks G L -> L !! c = Some size -> honest_pages s peek c size ->
  exists s' G', cal_put peek c size s = Ok (tt, s') /\ inv s' G' /\ tracks G' (delete c L) /\
    exists i g, get_order_by_size size = Ok (ord i) /\ G' !! i = Some g /\ fr g !! 0%nat = Some c.
Proof.
  intros Hinv Htr HL Hh. destruct (tr_used _ _ Htr _ _ HL) as (Hsz & j & g & Eo' & Hg & Hc).
  destruct (order_by_size_run s size Hsz) as (i & Eo & Er & _ & Hidx & Hlt).
  assert (i = j) as <-.
  { rewrite Eo in Eo'. injection Eo' as E. unfold ord in E. lia. }
  pose proof (inv_list _ _ Hinv _ _ Hg) as Hok.
  assert (c ∈ fr g ++ us g) as Hin by set_solver.
  destruct (chunk_in_mchunks _ _ _ _ Hok Hin) as (p & Hp & Hcp).
  apply list_elem_of_split in Hc as (us1 & us2 & Hus).
  assert (honest peek (ord i) p c) as Hon.
  { destruct (lo_hdr _ _ _ Hok p Hp) as (h & Eh & _ & _ & _ & Hpg & _). eapply Hh; [done|exact Eh|].
    pose proof (chunk_bounds _ _ _ (ghost_order _ _ Hinv _ _ Hg) Hcp) as [B1 B2].
    destruct (layout _ (ghost_order _ _ Hinv _ _ Hg)) as (_ & _ & _ & _ & _ & _ & L1 & _).
    rewrite Hpg. unfold sizeof_mchunk_header, mchunk_bytes in *. lia. }
  rewrite cal_put_small by lia.
  destruct (chunk_cache_put_spec _ _ _ _ _ _ _ _ _ _ Hinv Er Hidx Hg Hus Hp Hcp Hon)
    as (s' & E & Hinv' & _).
  eexists s', _. split_and!; [done|done| |].
  - by eapply tracks_put.
  - eexists i, _. split; [done|]. rewrite list_lookup_insert_eq by (by eapply lookup_lt_Some). done.
Qed.

Lemma reach_inv ad s L : 0 < ad < 2 ^ 32 -> reach ad s L -> exists G, inv s G /\ tracks G L.
Proof.
  intros Ha. induction 1 as [mm s E|s L size r s' _ (G & Hinv & Htr) Hsz Hk E|s L c size peek s' _ (G & Hinv & Htr) HL Hh E].
  - destruct (cal_boot_inv ad mm Ha) as (s0 & E0 & Hinv & _). rewrite E in E0. injection E0 as <-.
    exists ghost0. split; [done|]. split; [by intros c size; rewrite lookup_empty|].
    intros i g c [-> _]%lookup_replicate Hc. destruct (not_elem_of_nil _ Hc).
  - destruct (cal_get_tracked _ _ _ _ Hinv Htr Hsz Hk) as (r' & s2 & G' & E' & Hinv' & Htr' & _).
    rewrite E in E'. injection E' as <- <-. eauto.
  - destruct (cal_put_tracked _ _ _ _ _ _ Hinv Htr HL Hh) as (s2 & G' & E' & Hinv' & Htr' & _).
    rewrite E in E'. injection E' as <-. eauto.
Qed.

(** A block in use lies in an mchunk. *)
Lemma live_block s G L c size : inv s G -> tracks G L -> L !! c = Some size ->
  exists i g p, G !! i = Some g /\ c ∈ us g /\ p ∈ mc g /\ c ∈ chunks (ord i) p /\
    chunk_order (ord i) /\ 0 < size <= 2 ^ ord i /\ page_area p (mchunk_bytes (ord i)).
Proof.
  intros Hinv Htr HL. destruct (tr_used _ _ Htr _ _ HL) as (Hsz & i & g & Eo & Hg & Hc).
  destruct (order_by_size_run s size Hsz) as (i' & Eo' & _ & Hle & _).
  rewrite Eo in Eo'. injection Eo' as Ei. rewrite <- Ei in Hle.
  assert (c ∈ fr g ++ us g) as Hin by set_solver.
  destruct (chunk_in_mchunks _ _ _ _ (inv_list _ _ Hinv _ _ Hg) Hin) as (p & Hp & Hcp).
  exists i, g, p. split_and!; try done; [by eapply ghost_order|lia|by eapply inv_page].
Qed.

(** C18: in every state the program can reach, every small block in use is
    aligned to a power of two that is at least its size, and overlaps neither
    another block in use nor an mchunk header: no matter how many natives
    allocate and release, a client never writes into another one's block or
    into the allocator's own data by staying within its own. *)
Theorem alloc_blocks_disjoint ad s L c size :
  0 < ad < 2 ^ 32 -> reach ad s L -> L !! c = Some size ->
  (exists o, 0 < size <= 2 ^ o /\ c mod 2 ^ o = 0) /\
  (forall c' size', L !! c' = Some size' -> c <> c' -> c + size <= c' \/ c' + size' <= c) /\
  (forall p h, headers s !! p = Some h -> c + size <= p \/ p + sizeof_mchunk_header <= c).
Proof.
  intros Ha Hr HL. destruct (reach_inv _ _ _ Ha Hr) as (G & Hinv & Htr).
  destruct (live_block _ _ _ _ _ Hinv Htr HL) as (i & g & p & Hg & Hu & Hp & Hc & Ho & Hle & Hpa).
  split_and!.
  - exists (ord i). split; [done|]. eapply chunk_aligned; [done|apply Hpa|exact Hc].
  - intros c' size' HL' Hne.
    destruct (live_block _ _ _ _ _ Hinv Htr HL') as (j & g' & p' & Hg' & Hu' & Hp' & Hc' & Ho' & Hle' & _).
    destruct (mchunks_apart _ _ Hinv _ _ _ _ _ _ _ _ Hg Hp Hc Hg' Hp' Hc') as [[<- <-]|?]; [|lia].
    destruct (chunks_apart _ _ _ _ Ho Hc Hc' Hne); lia.
  - intros q h Hq. destruct (inv_only _ _ Hinv _ _ Hq) as (j & g' & Hg' & Hq').
    pose proof (chunk_bounds _ _ _ Ho Hc) as [B1 B2].
    destruct (layout _ (ghost_order _ _ Hinv _ _ Hg')) as (L1 & L2 & L3 & _ & _ & _ & L4 & _).
    unfold sizeof_mchunk_header in *.
    destruct (inv_apart _ _ Hinv _ _ _ _ _ _ Hg Hp Hg' Hq') as [[<- <-]|[?|?]]; [lia|lia|].
    right. nia.
Qed.

(** C23: in every reachable state an allocation of less than 2048 bytes
    returns, whatever the kernel answers: it yields a block that is not in
    use, and NULL only when the kernel had no memory. *)
Theorem alloc_get_total ad s L size :
  0 < ad < 2 ^ 32 -> reach ad s L -> 0 < size < CAL_CHUNK_THRESHOLD_SIZE ->
  kernel_answers s (request size) ->
  exists r s', pth_malloc size s = Ok (r, s') /\
    reach ad s' (match r with Some c => <[c := size]> L | None => L end) /\
    match r with Some c => L !! c = None | None => mmaps s !! 0%nat = Some None end.
Proof.
  intros Ha Hr Hsz Hk. destruct (reach_inv _ _ _ Ha Hr) as (G & Hinv & Htr).
  destruct (cal_get_tracked _ _ _ _ Hinv Htr Hsz Hk) as (r & s' & G' & E & _ & _ & Hpost).
  exists r, s'. split; [done|]. split; [by eapply reach_get|done].
Qed.

(** in every reachable state a block in use can be released with the size
    it was obtained with, and the next request of that size class gets it
    back: nothing leaks. *)
Theorem alloc_put_get ad s L c size size' peek :
  0 < ad < 2 ^ 32 -> reach ad s L -> L !! c = Some size -> honest_pages s peek c size ->
  0 < size' < CAL_CHUNK_THRESHOLD_SIZE -> get_order_by_size size' = get_order_by_size size ->
  exists s' s'', pth_free_mem peek c size s = Ok (tt, s') /\ reach ad s' (delete c L) /\
    pth_malloc size' s' = Ok (Some c, s'').
Proof.
  intros Ha Hr HL Hh Hsz' Eo. destruct (reach_inv _ _ _ Ha Hr) as (G & Hinv & Htr).
  destruct (cal_put_tracked _ _ _ _ _ _ Hinv Htr HL Hh)
    as (s' & G' & E & Hinv' & Htr' & i & g & Ei & Hg & Hfr).
  destruct (order_by_size_run s' size' Hsz') as (j & Ej & Er & _ & Hidx & _).
  assert (j = i) as ->. { rewrite Eo, Ei in Ej. injection Ej as Ej. unfold ord in Ej. lia. }
  destruct (fr g) as [|c0 cs] eqn:Efr; [done|]. simpl in Hfr. injection Hfr as ->.
  destruct (chunk_cache_get_hit _ _ _ _ _ _ _ Hinv' Er Hidx Hg Efr) as (s'' & E'' & _).
  exists s', s''. split; [done|]. split; [by eapply reach_put|].
  unfold pth_malloc. rewrite cal_get_small by lia. done.
Qed.

(** [cal_verify_pointer] answers "safe to dereference" for every pointer
    whatsoever as soon as the size class has one mchunk: its range test joins
    the two bounds with "or". *)
Theorem cal_verify_pointer_accepts_all s G size i g x fuel :
  inv s G -> 0 < size < CAL_CHUNK_THRESHOLD_SIZE -> get_order_by_size size = Ok (ord i) ->
  G !! i = Some g -> mc g <> [] ->
  cal_verify_pointer (S fuel) x size s = Ok (0, s).
Proof.
  intros Hinv Hsz Eo Hg Hne. destruct (order_by_size_run s size Hsz) as (j & Ej & Er & Hle & Hidx & _).
  assert (j = i) as ->. { rewrite Eo in Ej. injection Ej as Ej. unfold ord in Ej. lia. }
  pose proof (inv_list _ _ Hinv _ _ Hg) as Hok. pose proof (lo_mch _ _ _ Hok) as Hr.
  destruct (mc g) as [|p ms] eqn:Em; [done|].
  destruct (lo_hdr _ _ _ Hok p) as (h & Eh & _ & _ & _ & Hpg & Hfc); [rewrite Em; set_solver|].
  unfold cal_verify_pointer. rewrite bool_decide_eq_true_2 by lia.
  rewrite (bind_run _ _ _ _ _ Er). rewrite Hidx.
  erewrite bind_run; [|eapply read_links_run, get_next_spec, (ring_next _ _ _ Hr)]. simpl.
  rewrite (bind_run _ _ _ _ _ (get_header_run _ _ _ Eh)).
  destruct (layout _ (ghost_order _ _ Hinv _ _ Hg)) as (L1 & _ & L3 & _ & _ & _ & L4 & _).
  rewrite Hfc, Hpg. unfold mchunk_bytes in L1. rewrite (Z.mul_comm PAGE_SIZE).
  repeat case_bool_decide; simpl; try done. nia.
Qed.

(** the count of chunks in use of an mchunk is decremented by a release
    but not incremented by an allocation: the first release wraps it around
    to 4294967295. *)
Theorem mchunk_used_underflow :
  (s ← cal_boot 4096 [Some 8192];
   match (a ← pth_malloc 100; pth_free_mem (fun _ => None) (default 0 a) 100) s with
   | Ok (_, s') => Ok (used <$> headers s' !! 8192)
   | Err e => Err e
   end) = Ok (Some 4294967295).
Proof. vm_compute. reflexivity. Qed.

(** a block that is released with a size of another class, as
    [pth_rwlock_destroy] does (it releases 64 bytes of a 128 byte block),
    is lost: the release finds no header, and nothing changes. *)
Theorem release_wrong_size_leaks :
  (s ← cal_boot 4096 [Some 40960];
   match pth_malloc 128 s with
   | Ok (Some a, s') =>
       match pth_free_mem (fun _ => Some (0, 0, 0)) a 64 s' with
       | Ok (_, s'') => Ok (cl_used <$> head s' !! 3%nat, cl_used <$> head s'' !! 3%nat)
       | Err e => Err e
       end
   | Ok (None, _) => Err Stuck
   | Err e => Err e
   end) = Ok (Some 1, Some 1).
Proof. vm_compute. reflexivity. Qed.

(** ** Instances *)

(** One block of 100 bytes, from a fresh mchunk. *)
Lemma reach_one_block :
  exists s s1, cal_boot 4096 [Some 8192; None] = Ok s /\ pth_malloc 100 s = Ok (Some 8320, s1) /\
    reach 4096 s1 {[ 8320 := 100 ]} /\ headers s = ∅ /\ mmaps s = [Some 8192; None] /\
    dom (headers s1) = {[ 8192 ]}.
Proof.
  destruct (cal_boot_inv 4096 [Some 8192; None]) as (s & E & Hinv & Hm & Hh); [lia|].
  assert (kernel_answers s (request 100)) as Hk.
  { unfold kernel_answers. rewrite Hm. split; [by vm_compute; intuition congruence|].
    intros q h. by rewrite Hh, lookup_empty. }
  assert (exists s1, pth_malloc 100 s = Ok (Some 8320, s1) /\ dom (headers s1) = {[ 8192 ]})
    as (s1 & E1 & Hd).
  { assert (match cal_boot 4096 [Some 8192; None] with
            | Ok s => match pth_malloc 100 s with
                      | Ok (Some a, s1) => Z.eqb a 8320 && bool_decide (dom (headers s1) = {[ 8192 ]})
                      | _ => false
                      end
            | Err _ => false
            end = true) as Hrun by (vm_compute; reflexivity).
    rewrite E in Hrun. destruct (pth_malloc 100 s) as [[[a|] s1]|]; [|discriminate Hrun..].
    apply andb_true_iff in Hrun as [->%Z.eqb_eq Hd%bool_decide_eq_true]. eauto. }
  exists s, s1. split; [exact E|]. split; [exact E1|].
  split; [|split; [exact Hh|split; [exact Hm|exact Hd]]].
  pose proof (reach_get 4096 s ∅ 100 (Some 8320) s1) as Hr. simpl in Hr.
  rewrite insert_empty in Hr. apply Hr; [exact (reach_boot _ _ _ E)|vm_compute; split; congruence|exact Hk|exact E1].
Qed.

Lemma alloc_blocks_disjoint_witness :
  exists s, reach 4096 s {[ 8320 := 100 ]} /\ exists o, 0 < 100 <= 2 ^ o /\ 8320 mod 2 ^ o = 0.
Proof.
  destruct reach_one_block as (s0 & s & _ & _ & Hr & _). exists s. split; [exact Hr|].
  apply (alloc_blocks_disjoint 4096 s {[ 8320 := 100 ]} 8320 100);
    [lia|exact Hr|apply lookup_singleton_eq].
Defined.

Lemma alloc_get_total_witness :
  exists s, cal_boot 4096 [Some 8192; None] = Ok s /\
    exists r s', pth_malloc 100 s = Ok (r, s').
Proof.
  destruct reach_one_block as (s & _ & E & _ & _ & Hh & Hm & _). exists s. split; [exact E|].
  destruct (alloc_get_total 4096 s ∅ 100) as (r & s' & E' & _).
  - lia.
  - by eapply reach_boot.
  - vm_compute. split; congruence.
  - unfold kernel_answers. rewrite Hm. split; [by vm_compute; intuition congruence|].
    intros q h. by rewrite Hh, lookup_empty.
  - exists r, s'. exact E'.
Defined.

Lemma alloc_put_get_witness :
  exists s s' s'', reach 4096 s {[ 8320 := 100 ]} /\
    pth_free_mem (fun _ => None) 8320 100 s = Ok (tt, s') /\
    pth_malloc 120 s' = Ok (Some 8320, s'').
Proof.
  destruct reach_one_block as (s0 & s & _ & _ & Hr & _ & _ & Hd). exists s.
  destruct (alloc_put_get 4096 s {[ 8320 := 100 ]} 8320 100 120 (fun _ => None)) as (s' & s'' & E1 & _ & E2).
  - lia.
  - exact Hr.
  - apply lookup_singleton_eq.
  - intros p h o _ Hh Hp pg Hpg Hmod.
    assert (p ∈ dom (headers s)) as Hin by (apply elem_of_dom; eauto).
    rewrite Hd in Hin. apply elem_of_singleton in Hin. subst p.
    apply Z.mod_divide in Hmod; [|done]. destruct Hmod as [k ->]. change PAGE_SIZE with 4096 in *. lia.
  - vm_compute. split; congruence.
  - reflexivity.
  - exists s', s''. split; [exact Hr|]. split; [exact E1|exact E2].
Defined.

Lemma cal_verify_pointer_accepts_all_witness :
  exists s, reach 4096 s {[ 8320 := 100 ]} /\ cal_verify_pointer 1 3 100 s = Ok (0, s).
Proof.
  destruct reach_one_block as (s0 & s & _ & _ & Hr & _). exists s. split; [exact Hr|].
  destruct (reach_inv 4096 s {[ 8320 := 100 ]}) as (G & Hinv & Htr); [lia|exact Hr|].
  destruct (live_block _ _ _ 8320 100 Hinv Htr (lookup_singleton_eq _ _)) as (i & g & p & Hg & Hu & Hp & _).
  destruct (tr_used _ _ Htr 8320 100 (lookup_singleton_eq _ _)) as (Hsz & j & g' & Eo & Hg' & Hu').
  assert (j = i) as -> by (eapply us_unique; [exact Hinv|exact Htr|exact Hg'|exact Hu'|exact Hg|exact Hu]).
  apply (cal_verify_pointer_accepts_all s G 100 i g 3 0 Hinv Hsz Eo Hg).
  intros E. rewrite E in Hp. by apply not_elem_of_nil in Hp.
Defined.
