(* ===== verification/Allocator.v ===== *)
(** * The interface of the allocator

    What the rest of the library relies on when it calls [pth_malloc] and
    [pth_free_mem] with small sizes: a request yields a block that is not in
    use or NULL, a block in use can be released with its size.  The clients
    are verified against this interface; the caching allocator of
    allocation.c implements it. *)

From S2P Require Import Prelude Bitmap Dll LinkedList Alloc.

Class Allocator (S : Type) : Type := {
  al_malloc : Z -> M S (option Z);
  al_free : Z -> Z -> M S unit;
  al_live : S -> gmap Z Z -> Prop;  (** the blocks in use, by address *)
  al_ready : S -> Z -> Prop;        (** the system answers the next request *)
  al_free_able : S -> Z -> Z -> Prop; (** a block can be told from the contents of the pages *)
  al_malloc_ok s L n : al_live s L -> 0 < n < 2048 -> al_ready s n ->
    exists r s', al_malloc n s = Ok (r, s') /\
      match r with
      | Some c => L !! c = None /\ al_live s' (<[c := n]> L)
      | None => al_live s' L
      end;
  al_free_ok s L c n : al_live s L -> L !! c = Some n -> al_free_able s c n ->
    exists s', al_free c n s = Ok (tt, s') /\ al_live s' (delete c L) }.

(** ** The caching allocator *)

Definition cal_live (s : cal_st) (L : gmap Z Z) : Prop := exists ad, 0 < ad < 2 ^ 32 /\ reach ad s L.

Lemma cal_malloc_ok s L n :
  cal_live s L -> 0 < n < 2048 -> kernel_answers s (request n) ->
  exists r s', pth_malloc n s = Ok (r, s') /\
    match r with
    | Some c => L !! c = None /\ cal_live s' (<[c := n]> L)
    | None => cal_live s' L
    end.
Proof.
  intros (ad & Ha & Hr) Hn Hk. destruct (reach_inv _ _ _ Ha Hr) as (G & Hinv & Htr).
  destruct (cal_get_tracked _ _ _ _ Hinv Htr Hn Hk) as (r & s' & G' & E & _ & _ & Hpost).
  exists r, s'. split; [done|]. pose proof (reach_get _ _ _ _ _ _ Hr Hn Hk E) as Hr'.
  destruct r; [split; [done|]|]; by exists ad.
Qed.

Lemma cal_free_ok peek s L c n :
  cal_live s L -> L !! c = Some n -> honest_pages s peek c n ->
  exists s', pth_free_mem peek c n s = Ok (tt, s') /\ cal_live s' (delete c L).
Proof.
  intros (ad & Ha & Hr) HL Hh. destruct (reach_inv _ _ _ Ha Hr) as (G & Hinv & Htr).
  destruct (cal_put_tracked _ _ _ _ _ _ Hinv Htr HL Hh) as (s' & G' & E & _).
  exists s'. split; [done|]. exists ad. split; [done|]. by eapply reach_put.
Qed.

(** [peek] is what the pages of the clients look like when the allocator
    searches them for a header. *)
#[export] Instance cal_allocator (peek : Z -> option page_view) : Allocator cal_st := {|
  al_malloc := pth_malloc;
  al_free := pth_free_mem peek;
  al_live := cal_live;
  al_ready := fun s n => kernel_answers s (request n);
  al_free_able := fun s c n => honest_pages s peek c n;
  al_malloc_ok := cal_malloc_ok;
  al_free_ok := cal_free_ok peek |}.
