(* ===== verification/Time.v ===== *)
(** * Time values (pth_time.c)

    A [pth_time_t] is a [long long].  Without a cycle counter it counts
    microseconds; with one ([HP_TIMING_AVAIL]) it counts ticks, and
    conversions use the tick rate that [pth_time_init] read.  Both
    configurations are modelled; [clock] says which, and holds the variables
    [pth_time_init] sets. *)

From S2P Require Import Prelude.

Record timeval : Set := Timeval { tv_sec : Z; tv_usec : Z }.
Record timespec : Set := Timespec { ts_sec : Z; ts_nsec : Z }.

(** A [long] has 32 bits; a [pth_time_t] is a signed 64 bit integer and
    [hp_timing_t] an unsigned one. *)
Definition long (x : Z) : Z := swrap 32 x.
Definition time_t (x : Z) : Z := swrap 64 x.

Inductive clock : Set :=
  | Microseconds
  | HpTiming (counts_sec counts_usec baseline : Z) (baseline_tod : timeval).

(** [pth_time_init]: [freq] is the tick rate, [tod] the time of day and [tsc]
    the counter that are read. *)
Definition pth_time_init (hp_timing_avail : bool) (freq : Z) (tod : timeval) (tsc : Z) : clock :=
  if hp_timing_avail then HpTiming freq (freq / 1000000) tsc tod else Microseconds.

(** The products are computed in unsigned 64 bit arithmetic. *)
Definition PTH_TIME (c : clock) (sec usec : Z) : Z :=
  match c with
  | Microseconds => time_t (wrap 64 (sec * 1000000 + usec))
  | HpTiming cs cu _ _ => time_t (wrap 64 (sec * cs + usec * cu))
  end.

Definition pth_time : clock -> Z -> Z -> Z := PTH_TIME.

(** [tval] is converted to unsigned before the division. *)
Definition pth_time_to_timeval (c : clock) (t1 : Z) : res timeval :=
  match c with
  | Microseconds => Ok (Timeval (long (wrap 64 t1 / 1000000)) (long (wrap 64 t1 mod 1000000)))
  | HpTiming cs cu _ _ =>
      if bool_decide (cs = 0) || bool_decide (cu = 0) then Err Undefined
      else
        let sec := long (wrap 64 t1 / cs) in
        let usec := long ((wrap 64 t1 mod cs) / cu) in
        Ok (if bool_decide (usec > 1000000) then Timeval (long (sec + 1)) (usec - 1000000)
            else Timeval sec usec)
  end.

Definition pth_time_to_timespec (c : clock) (t : Z) : res timespec :=
  tv ← pth_time_to_timeval c t;
  Ok (Timespec (tv_sec tv) (long (tv_usec tv * 1000))).

(** Arithmetic on time values: [t1 += t2] and the like. *)
Definition pth_time_cmp (t1 t2 : Z) : Z := time_t (t1 - t2).
Definition pth_time_add (t1 t2 : Z) : Z := time_t (t1 + t2).
Definition pth_time_sub (t1 t2 : Z) : Z := time_t (t1 - t2).
Definition pth_time_div (t1 n : Z) : res Z :=
  if bool_decide (n = 0) then Err Undefined else Ok (time_t (Z.quot t1 n)).
Definition pth_time_mul (t1 n : Z) : Z := time_t (t1 * n).
Definition pth_time_pos (t : Z) : Z := if bool_decide (t > 0) then 1 else 0.

(** The number of seconds, as an [int] (the microsecond clock). *)
Definition pth_time_t2i (t : Z) : Z := swrap 32 (wrap 64 t / 1000000).

(** A time of day as a time value. *)
Definition pth_TOD_time (c : clock) (sec usec : Z) : Z :=
  match c with
  | Microseconds => PTH_TIME c sec usec
  | HpTiming cs cu base tod =>
      let s := long (sec - tv_sec tod) in
      let u := long (usec - tv_usec tod) in
      let tv := if bool_decide (u < 0) then Timeval (long (s - 1)) (long (u + 1000000)) else Timeval s u in
      pth_time_add base (PTH_TIME c (tv_sec tv) (tv_usec tv))
  end.

(** The current time, from the time of day [tod] or the counter [tsc]. *)
Definition pth_time_set_now (c : clock) (tod : timeval) (tsc : Z) : Z :=
  match c with
  | Microseconds => PTH_TIME c (tv_sec tod) (tv_usec tod)
  | HpTiming _ _ _ _ => time_t tsc
  end.

(** [pth_time_set(t1, t2)]; NULL stands for the current time *)
Definition pth_time_set (c : clock) (t2 : option Z) (tod : timeval) (tsc : Z) : Z :=
  match t2 with None => pth_time_set_now c tod tsc | Some t => t end.

Definition PTH_TIMEOUT (c : clock) (tod : timeval) (tsc sec usec : Z) : Z :=
  pth_time_add (pth_time_set_now c tod tsc) (PTH_TIME c sec usec).
Definition pth_timeout : clock -> timeval -> Z -> Z -> Z -> Z := PTH_TIMEOUT.

(** The [usleep] replacement: the timeout of the [select] call. *)
Definition pth_time_usleep (usec : Z) : timeval :=
  let s := usec / 1000000 in Timeval s (usec - 1000000 * s).

(** ** Results *)

Definition tv_valid (tv : timeval) : Prop := 0 <= tv_sec tv < 2 ^ 31 /\ 0 <= tv_usec tv < 1000000.

Lemma time_t_small x : 0 <= x < 2 ^ 63 -> time_t (wrap 64 x) = x.
Proof.
  intros Hx. rewrite wrap_small by lia. apply swrap_small; [lia|]. simpl. lia.
Qed.

(** on a machine without a cycle counter, every non-negative [timeval]
    survives the conversion to a time value and back, the conversion keeps
    the order of times, and the [select] timeout of [pth_time_usleep] is a
    valid [timeval] that denotes the requested microseconds. *)
Theorem timeval_roundtrip (tv tv' : timeval) (usec : Z) :
  tv_valid tv -> tv_valid tv' -> 0 <= usec < 2 ^ 32 ->
  pth_time_to_timeval Microseconds (pth_time Microseconds (tv_sec tv) (tv_usec tv)) = Ok tv /\
  (pth_time_cmp (pth_time Microseconds (tv_sec tv) (tv_usec tv))
                (pth_time Microseconds (tv_sec tv') (tv_usec tv')) < 0 <->
   tv_sec tv < tv_sec tv' \/ (tv_sec tv = tv_sec tv' /\ tv_usec tv < tv_usec tv')) /\
  tv_valid (pth_time_usleep usec) /\
  tv_sec (pth_time_usleep usec) * 1000000 + tv_usec (pth_time_usleep usec) = usec.
Proof.
  destruct tv as [s u], tv' as [s' u']. unfold tv_valid. simpl. intros [Hs Hu] [Hs' Hu'] Hx.
  unfold pth_time, PTH_TIME, pth_time_cmp. rewrite !time_t_small by lia. split_and!.
  - rewrite wrap_small by lia. unfold long. rewrite Z.div_add_l by lia. rewrite (Z.add_comm (s * 1000000)), Z_mod_plus_full.
    rewrite Z.div_small, Z.mod_small by lia. rewrite !swrap_small by (simpl; lia). do 2 f_equal. lia.
  - unfold time_t. rewrite swrap_small by (simpl; lia). lia.
  - apply Z.div_pos; lia.
  - apply Z.div_lt_upper_bound; lia.
  - pose proof (Z.mod_pos_bound usec 1000000). rewrite Z.mod_eq in * by lia. lia.
  - pose proof (Z.mod_pos_bound usec 1000000). rewrite Z.mod_eq in * by lia. lia.
  - lia.
Qed.

Lemma timeval_roundtrip_witness :
  pth_time_to_timeval Microseconds (pth_time Microseconds 1035000000 999999) =
  Ok (Timeval 1035000000 999999).
Proof.
  apply (timeval_roundtrip (Timeval 1035000000 999999) (Timeval 0 0) 0);
    unfold tv_valid; simpl; lia.
Defined.

(** With a counter of 3 ticks per microsecond, one microsecond of remainder
    fits; a rate that is no multiple of a million can give 1000000. *)
Lemma timeval_hp_usec_overflow :
  pth_time_to_timeval (HpTiming 1999999 1 0 (Timeval 0 0)) 1000000 = Ok (Timeval 0 1000000).
Proof. reflexivity. Qed.

(** a time of day that lies [d] microseconds after the moment
    [pth_time_init] ran denotes [d] times the ticks per microsecond after the
    counter value read then, so relative and absolute timeouts agree. *)
Theorem tod_time_offset (freq base : Z) (tod : timeval) (sec usec : Z) :
  0 < freq < 2 ^ 32 -> freq mod 1000000 = 0 -> 0 <= base < 2 ^ 62 ->
  tv_valid tod -> tv_valid (Timeval sec usec) ->
  let c := pth_time_init true freq tod base in
  let d := (sec - tv_sec tod) * 1000000 + (usec - tv_usec tod) in
  0 <= d < 2 ^ 29 * 1000000 ->
  pth_TOD_time c sec usec = base + d * (freq / 1000000).
Proof.
  destruct tod as [s0 u0]. intros Hf Hm Hb [H1 H2] [H3 H4]. simpl in *. intros Hd.
  apply Z.div_exact in Hm; [|done]. set (q := freq / 1000000) in *.
  unfold long. rewrite (swrap_small 32 (sec - s0)), (swrap_small 32 (usec - u0)) by (simpl; lia).
  assert (0 <= q < 2 ^ 13) as Hq by lia.
  assert (forall s u, s * 1000000 + u = (sec - s0) * 1000000 + (usec - u0) ->
    pth_time_add base (PTH_TIME (HpTiming freq q base (Timeval s0 u0)) s u) =
    base + ((sec - s0) * 1000000 + (usec - u0)) * q) as Hadd.
  { intros s u Es. unfold PTH_TIME, pth_time_add. 
    assert (s * freq + u * q = ((sec - s0) * 1000000 + (usec - u0)) * q) as -> by (rewrite <- Es, Hm; ring).
    rewrite time_t_small by nia. unfold time_t. apply swrap_small; [lia|]. simpl. nia. }
  case_bool_decide; simpl; apply Hadd; rewrite ?swrap_small; simpl; lia.
Qed.

Lemma tod_time_offset_witness :
  pth_TOD_time (pth_time_init true 800000000 (Timeval 1000000 999000) 5000) 1000001 1000 = 5000 + 2000 * 800.
Proof.
  apply (tod_time_offset 800000000 5000 (Timeval 1000000 999000) 1000001 1000);
    unfold tv_valid; simpl; first [reflexivity | lia].
Defined.
