(* ===== verification/Keys.v ===== *)
(** * Thread specific data (pth_data.c)

    The table of keys is global and protected by [pth_key_lock]; the values
    are in an array of the thread that is allocated on first use, with a count
    of the values that are not NULL.  Values are pointers, zero for NULL.  A
    destructor is a function of the program, given by a number; what it does
    is a parameter of [pth_key_destroydata]. *)

From S2P Require Import Prelude.

Definition PTH_KEY_MAX : Z := 256.
Definition PTH_DESTRUCTOR_ITERATIONS : nat := 4.
Definition EINVAL : Z := 22.
Definition ENOMEM : Z := 12.

Record pth_keytab_st : Set := Key { used : bool; destructor : option nat }.

Record thread_data : Set := TData { data_value : option (list Z); data_count : Z }.

Record kstate : Set := KState {
  pth_keytab : list pth_keytab_st;
  pth_key_lock : Z;
  threads : gmap nat thread_data;
  current : option nat;           (** [pth_get_current()] *)
  mallocs : list bool;            (** whether the next [pth_malloc] calls succeed *)
  calls : list (nat * Z) }.       (** the destructor calls so far, latest first *)

(** ** Access *)

Definition set_keytab (k : list pth_keytab_st) (s : kstate) : kstate :=
  KState k (pth_key_lock s) (threads s) (current s) (mallocs s) (calls s).
Definition set_lock (v : Z) (s : kstate) : kstate :=
  KState (pth_keytab s) v (threads s) (current s) (mallocs s) (calls s).
Definition set_thread (t : nat) (d : thread_data) (s : kstate) : kstate :=
  KState (pth_keytab s) (pth_key_lock s) (<[t := d]> (threads s)) (current s) (mallocs s) (calls s).

(** [pth_keytab[key]]; a key is an [int] *)
Definition keytab_at (key : Z) : M kstate pth_keytab_st :=
  s ← get; of_option OutOfBounds (if bool_decide (0 <= key) then pth_keytab s !! Z.to_nat key else None).
Definition put_keytab (key : Z) (k : pth_keytab_st) : M kstate unit :=
  modify (fun s => set_keytab (<[Z.to_nat key := k]> (pth_keytab s)) s).
Definition get_thread (t : option nat) : M kstate thread_data :=
  s ← get; of_option BadDeref (t ≫= fun t => threads s !! t).
Definition put_thread (t : nat) (d : thread_data) : M kstate unit := modify (set_thread t d).

Definition acquire_lock : M kstate unit :=
  s ← get; if bool_decide (pth_key_lock s = 0) then modify (set_lock 1) else fail Deadlock.
Definition release_lock : M kstate unit := modify (set_lock 0).

(** The array of values as [pth_malloc] returns it: filled with zeroes. *)
Definition zero_values : list Z := replicate (Z.to_nat PTH_KEY_MAX) 0.

(** [pth_malloc(sizeof(void * ) * PTH_KEY_MAX)] *)
Definition malloc_values : M kstate (option (list Z)) :=
  fun s => match mallocs s with
           | [] => Err Undefined
           | ok :: rest =>
               Ok (if ok : bool then Some zero_values else None,
                   KState (pth_keytab s) (pth_key_lock s) (threads s) (current s) rest (calls s))
           end.

(** ** Keys *)

(** The search for an unused key; the result is the key found or
    [PTH_KEY_MAX]. *)
Fixpoint key_scan (fuel : nat) (key : Z) : M kstate Z :=
  match fuel with
  | O => mret key
  | S fuel =>
      if bool_decide (key < PTH_KEY_MAX) then
        k ← keytab_at key;
        if used k then key_scan fuel (key + 1) else mret key
      else mret key
  end.

(** The value of [*key] and the result, TRUE or FALSE. *)
Definition __pth_key_create (func : option nat) : M kstate (Z * Z) :=
  key ← key_scan (Z.to_nat PTH_KEY_MAX) 0;
  if bool_decide (key < PTH_KEY_MAX) then
    put_keytab key (Key true func);; mret (key, 1)
  else mret (key, 0).

Definition pth_key_create (func : option nat) : M kstate (Z * Z) :=
  acquire_lock;;
  r ← __pth_key_create func;
  release_lock;;
  mret r.

Definition pth_key_delete (key : Z) : M kstate Z :=
  if bool_decide (key >= PTH_KEY_MAX) then mret 0
  else
    k ← keytab_at key;
    if negb (used k) then mret 0
    else
      acquire_lock;;
      k ← keytab_at key;
      put_keytab key (Key false (destructor k));;
      release_lock;;
      mret 1.

(** ** Values *)

Definition pth_key_setdata (key value : Z) : M kstate Z :=
  s ← get;
  if bool_decide (key >= PTH_KEY_MAX) then mret EINVAL
  else
    k ← keytab_at key;
    if negb (used k) then mret EINVAL
    else
      t ← of_option BadDeref (current s);
      d ← get_thread (Some t);
      v ← (match data_value d with Some l => mret (Some l) | None => malloc_values end);
      match v with
      | None => mret ENOMEM
      | Some l =>
          old ← of_option OutOfBounds (l !! Z.to_nat key);
          let n := if bool_decide (old = 0)
                   then (if bool_decide (value = 0) then data_count d else swrap 32 (data_count d + 1))
                   else (if bool_decide (value = 0) then swrap 32 (data_count d - 1) else data_count d) in
          put_thread t (TData (Some (<[Z.to_nat key := value]> l)) n);;
          mret 0
      end.

Definition pth_key_getdata (key : Z) : M kstate Z :=
  s ← get;
  match current s with
  | None => mret 0
  | Some t =>
      if bool_decide (key >= PTH_KEY_MAX) then mret 0
      else
        k ← keytab_at key;
        if negb (used k) then mret 0
        else
          d ← get_thread (Some t);
          match data_value d with
          | None => mret 0
          | Some l => of_option OutOfBounds (l !! Z.to_nat key)
          end
  end.

(** ** Destruction *)

Section destroy.
(** What the destructor number [f] does when it is called with a value. *)
Context (call : nat -> Z -> M kstate unit).

(** A destructor is called without the lock. *)
Definition run_destructor (f : nat) (data : Z) : M kstate unit :=
  release_lock;;
  modify (fun s => KState (pth_keytab s) (pth_key_lock s) (threads s) (current s) (mallocs s)
                     ((f, data) :: calls s));;
  call f data;;
  acquire_lock.

Definition destroy_key (t : nat) (key : Z) : M kstate unit :=
  d ← get_thread (Some t);
  if bool_decide (data_count d > 0) then
    k ← keytab_at key;
    if used k then
      l ← of_option BadDeref (data_value d);
      v ← of_option OutOfBounds (l !! Z.to_nat key);
      if bool_decide (v = 0) then mret tt
      else
        put_thread t (TData (Some (<[Z.to_nat key := 0]> l)) (swrap 32 (data_count d - 1)));;
        match destructor k with
        | None => mret tt
        | Some f => run_destructor f v
        end
    else mret tt
  else mret tt.

Definition no_data (t : nat) : M kstate bool :=
  d ← get_thread (Some t); mret (bool_decide (data_count d = 0)).

(** The inner loop, over the keys. *)
Fixpoint destroy_keys (t : nat) (keys : list Z) : M kstate unit :=
  match keys with
  | [] => mret tt
  | key :: keys =>
      destroy_key t key;;
      z ← no_data t;
      if (z : bool) then mret tt else destroy_keys t keys
  end.

(** The outer loop. *)
Fixpoint destroy_iterations (t : nat) (n : nat) : M kstate unit :=
  match n with
  | O => mret tt
  | S n =>
      destroy_keys t (seqZ 0 PTH_KEY_MAX);;
      z ← no_data t;
      if (z : bool) then mret tt else destroy_iterations t n
  end.

(** Releasing the array reads its address. *)
Definition pth_key_destroydata (t : nat) : M kstate unit :=
  acquire_lock;;
  destroy_iterations t PTH_DESTRUCTOR_ITERATIONS;;
  d ← get_thread (Some t);
  l ← of_option BadDeref (data_value d);
  put_thread t (TData None (data_count d));;
  release_lock.
End destroy.

(** ** Invariant *)

Lemma zero_values_length : length zero_values = Z.to_nat PTH_KEY_MAX.
Proof. reflexivity. Qed.
Lemma zero_values_lookup k v : zero_values !! k = Some v -> v = 0.
Proof. by intros [-> _]%lookup_replicate. Qed.
#[local] Opaque zero_values.

Definition count (l : list Z) : nat := length (filter (fun v => v <> 0) l).

Definition values_ok (d : thread_data) : Prop :=
  match data_value d with
  | None => data_count d = 0
  | Some l => length l = Z.to_nat PTH_KEY_MAX /\ data_count d = Z.of_nat (count l)
  end.

Record kinv (s : kstate) : Prop := {
  kinv_tab : length (pth_keytab s) = Z.to_nat PTH_KEY_MAX;
  kinv_lock : pth_key_lock s = 0;
  kinv_values : forall t d, threads s !! t = Some d -> values_ok d }.

Definition nz (v : Z) : nat := if bool_decide (v = 0) then 0 else 1.

Lemma count_cons v l : count (v :: l) = (nz v + count l)%nat.
Proof.
  unfold count, nz. rewrite filter_cons. case_decide; case_bool_decide; done.
Qed.

Lemma count_insert l k old v : l !! k = Some old ->
  (count (<[k := v]> l) + nz old = count l + nz v)%nat.
Proof.
  revert k. induction l as [|x l IH]; intros [|k] E; simpl in *; simplify_eq; rewrite !count_cons; [lia|].
  specialize (IH _ E). lia.
Qed.

Lemma count_le l : (count l <= length l)%nat.
Proof. unfold count. apply length_filter. Qed.

Lemma count_zero l k : count l = 0%nat -> (k < length l)%nat -> l !! k = Some 0.
Proof.
  revert k. induction l as [|x l IH]; intros [|k] E Hk; simpl in *; rewrite ?count_cons in E; try lia.
  - unfold nz in E. case_bool_decide; [by subst|lia].
  - apply IH; lia.
Qed.

Lemma keytab_at_run s key : length (pth_keytab s) = Z.to_nat PTH_KEY_MAX -> 0 <= key < PTH_KEY_MAX ->
  exists k, pth_keytab s !! Z.to_nat key = Some k /\ keytab_at key s = Ok (k, s).
Proof.
  intros Hl Hk. destruct (lookup_lt_is_Some_2 (pth_keytab s) (Z.to_nat key)) as [k E]; [lia|].
  exists k. split; [done|]. unfold keytab_at, mbind, M_bind. simpl.
  rewrite bool_decide_eq_true_2 by lia. by rewrite E.
Qed.

Lemma get_thread_run s t d : threads s !! t = Some d -> get_thread (Some t) s = Ok (d, s).
Proof. intros E. unfold get_thread, mbind, M_bind. simpl. by rewrite E. Qed.

(** ** Creation *)

Lemma key_scan_spec s fuel key :
  length (pth_keytab s) = Z.to_nat PTH_KEY_MAX -> 0 <= key -> key + Z.of_nat fuel = PTH_KEY_MAX ->
  exists r, key_scan fuel key s = Ok (r, s) /\ key <= r <= PTH_KEY_MAX /\
    (forall j k, key <= j < r -> pth_keytab s !! Z.to_nat j = Some k -> used k = true) /\
    (r < PTH_KEY_MAX -> exists k, pth_keytab s !! Z.to_nat r = Some k /\ used k = false).
Proof.
  intros Hl. revert key. induction fuel as [|fuel IH]; intros key Hk Hf; simpl.
  { exists key. split; [done|]. split; [lia|]. split; [intros; lia|intros; lia]. }
  rewrite bool_decide_eq_true_2 by lia.
  destruct (keytab_at_run s key Hl ltac:(lia)) as (k & Ek & Er).
  rewrite (bind_run _ _ _ _ _ Er). destruct (used k) eqn:Eu.
  - destruct (IH (key + 1) ltac:(lia) ltac:(lia)) as (r & E & Hr & Hb & Hu).
    exists r. split; [done|]. split; [lia|]. split; [|done].
    intros j k' Hj Ej. destruct (decide (j = key)) as [->|]; [congruence|]. apply (Hb j); [lia|done].
  - exists key. split; [done|]. split; [lia|]. split; [intros; lia|eauto].
Qed.

(** [pth_key_create] hands out the smallest unused key, marks it used
    with the given destructor and changes no other key; it fails exactly when
    all 256 keys are used, and then leaves 256 in [*key] and the table as it
    was.  The lock is free again in both cases. *)
Theorem key_create_spec s func :
  kinv s ->
  exists key r s', pth_key_create func s = Ok ((key, r), s') /\ kinv s' /\ threads s' = threads s /\
    0 <= key <= PTH_KEY_MAX /\
    (forall j k, 0 <= j < key -> pth_keytab s !! Z.to_nat j = Some k -> used k = true) /\
    (r = 1 /\ key < PTH_KEY_MAX /\
       pth_keytab s' = <[Z.to_nat key := Key true func]> (pth_keytab s) /\
       (exists k, pth_keytab s !! Z.to_nat key = Some k /\ used k = false)
     \/ r = 0 /\ key = PTH_KEY_MAX /\ pth_keytab s' = pth_keytab s).
Proof.
  intros [Hl H0 Hv]. unfold pth_key_create, __pth_key_create.
  erewrite bind_run.
  2:{ unfold acquire_lock. rewrite (bind_run get _ _ _ _ eq_refl).
      rewrite bool_decide_eq_true_2 by done. reflexivity. }
  destruct (key_scan_spec (set_lock 1 s) (Z.to_nat PTH_KEY_MAX) 0 Hl) as (key & E & Hk & Hb & Hu);
    [lia|reflexivity|].
  exists key. destruct (decide (key < PTH_KEY_MAX)) as [Hlt|Hge].
  - exists 1, (set_lock 0 (set_keytab (<[Z.to_nat key := Key true func]> (pth_keytab s)) (set_lock 1 s))).
    split_and!; try done; try lia.
    + erewrite bind_run; [|rewrite (bind_run _ _ _ _ _ E); rewrite bool_decide_eq_true_2 by done; reflexivity].
      reflexivity.
    + split; [|done|done]. simpl. by rewrite length_insert.
    + left. split_and!; try done. by apply Hu.
  - assert (key = PTH_KEY_MAX) as -> by lia.
    exists 0, (set_lock 0 (set_lock 1 s)). split_and!; [|by split|done|done|done|exact Hb|by right].
    erewrite bind_run; [|rewrite (bind_run _ _ _ _ _ E); rewrite bool_decide_eq_false_2 by lia; reflexivity].
    reflexivity.
Qed.

(** A state with all keys unused and one thread. *)
Definition kstart (mallocs : list bool) : kstate :=
  KState (replicate (Z.to_nat PTH_KEY_MAX) (Key false None)) 0 {[ 0%nat := TData None 0 ]} (Some 0%nat)
    mallocs [].

Lemma kstart_inv ms : kinv (kstart ms).
Proof.
  split; [reflexivity|done|].
  intros t d Ht. simpl in Ht. apply lookup_singleton_Some in Ht as [<- <-]. reflexivity.
Qed.

Lemma key_create_spec_witness :
  exists key r s', pth_key_create (Some 7%nat) (kstart []) = Ok ((key, r), s') /\ kinv s'.
Proof.
  destruct (key_create_spec (kstart []) (Some 7%nat)) as (key & r & s' & E & Hi & _).
  - apply kstart_inv.
  - exists key, r, s'. split; [exact E|exact Hi].
Defined.

(** ** Set and get *)

Lemma values_ok_insert d l k old v :
  values_ok d -> data_value d = Some l -> l !! k = Some old ->
  values_ok (TData (Some (<[k := v]> l))
    (if bool_decide (old = 0)
     then (if bool_decide (v = 0) then data_count d else swrap 32 (data_count d + 1))
     else (if bool_decide (v = 0) then swrap 32 (data_count d - 1) else data_count d))).
Proof.
  unfold values_ok. intros Hok Hd. rewrite Hd in Hok. destruct Hok as [Hl Hc]. intros E. simpl.
  split; [by rewrite length_insert|]. rewrite Hc.
  pose proof (count_insert l k old v E) as Hi. pose proof (count_le l) as Hle.
  pose proof (count_le (<[k := v]> l)) as Hle'. rewrite length_insert in Hle'.
  rewrite Hl in *. change (Z.to_nat PTH_KEY_MAX) with 256%nat in *. unfold nz in Hi.
  repeat case_bool_decide; rewrite ?swrap_small by (simpl; lia); lia.
Qed.

(** The array of values of a thread: a fresh one is all zeroes. *)
Definition values_of (d : thread_data) : list Z :=
  default zero_values (data_value d).

Lemma values_of_length d : values_ok d -> length (values_of d) = Z.to_nat PTH_KEY_MAX.
Proof.
  unfold values_ok, values_of. destruct (data_value d); simpl; [tauto|intros _; apply zero_values_length].
Qed.

Lemma values_ok_fresh d : values_ok d -> values_ok (TData (Some (values_of d)) (data_count d)).
Proof.
  unfold values_ok, values_of. destruct (data_value d); simpl; [done|]. intros ->.
  split; [apply zero_values_length|]. by vm_compute.
Qed.

(** What [pth_key_setdata] does to the thread. *)
Lemma setdata_run s t d key value k :
  kinv s -> current s = Some t -> threads s !! t = Some d -> 0 <= key < PTH_KEY_MAX ->
  pth_keytab s !! Z.to_nat key = Some k -> used k = true ->
  (data_value d = None -> exists rest, mallocs s = true :: rest) ->
  exists s' d', pth_key_setdata key value s = Ok (0, s') /\ values_ok d' /\
    data_value d' = Some (<[Z.to_nat key := value]> (values_of d)) /\
    threads s' = <[t := d']> (threads s) /\ pth_keytab s' = pth_keytab s /\
    current s' = current s /\ pth_key_lock s' = pth_key_lock s.
Proof.
  intros [Hl H0 Hv] Hc Ht Hk Ek Hu Hm.
  destruct (keytab_at_run s key Hl Hk) as (k' & Ek' & Er). rewrite Ek in Ek'. injection Ek' as <-.
  pose proof (Hv _ _ Ht) as Hok. pose proof (values_of_length d Hok) as Hlen.
  destruct (lookup_lt_is_Some_2 (values_of d) (Z.to_nat key)) as [old Eold]; [lia|].
  pose proof (values_ok_insert _ _ _ _ value (values_ok_fresh d Hok) eq_refl Eold) as Hok'.
  unfold pth_key_setdata. rewrite (bind_run get _ _ _ _ eq_refl). rewrite bool_decide_eq_false_2 by lia.
  rewrite (bind_run _ _ _ _ _ Er). rewrite Hu. simpl.
  rewrite Hc. erewrite bind_run by reflexivity.
  rewrite (bind_run _ _ _ _ _ (get_thread_run _ _ _ Ht)).
  unfold values_of in *. destruct (data_value d) as [l|] eqn:Ed; simpl in *.
  - rewrite (bind_run _ _ _ (Some l) s) by reflexivity. rewrite Eold.
    erewrite bind_run by reflexivity. eexists _, _. split; [reflexivity|]. by split_and!.
  - destruct (Hm eq_refl) as [rest Em].
    erewrite bind_run; [|unfold malloc_values; rewrite Em; reflexivity].
    cbv iota. rewrite Eold. erewrite bind_run by reflexivity.
    eexists _, _. split; [reflexivity|]. by split_and!.
Qed.

(** after the current thread stored a value under a key in use, it reads
    that value back; its values under the other keys and all values of other
    threads are unchanged, and the count of non-NULL values is right. *)
Theorem setdata_getdata s t d key value k :
  kinv s -> current s = Some t -> threads s !! t = Some d -> 0 <= key < PTH_KEY_MAX ->
  pth_keytab s !! Z.to_nat key = Some k -> used k = true ->
  (data_value d = None -> exists rest, mallocs s = true :: rest) ->
  exists s', pth_key_setdata key value s = Ok (0, s') /\ kinv s' /\
    pth_key_getdata key s' = Ok (value, s') /\
    (forall key', 0 <= key' < PTH_KEY_MAX -> key' <> key ->
       exists v, pth_key_getdata key' s = Ok (v, s) /\ pth_key_getdata key' s' = Ok (v, s')) /\
    (forall u, u <> t -> threads s' !! u = threads s !! u).
Proof.
  intros Hinv Hc Ht Hk Ek Hu Hm.
  destruct (setdata_run s t d key value k Hinv Hc Ht Hk Ek Hu Hm)
    as (s' & d' & E & Hok & Hd' & Hth & Htab & Hcur & Hlk).
  destruct Hinv as [Hl H0 Hv].
  pose proof (values_of_length d (Hv _ _ Ht)) as Hlen.
  assert (threads s' !! t = Some d') as Ht' by (rewrite Hth; apply lookup_insert_eq).
  assert (length (pth_keytab s') = Z.to_nat PTH_KEY_MAX) as Hl' by (by rewrite Htab).
  assert (forall x, 0 <= x < PTH_KEY_MAX -> forall S D, (S = s /\ D = d \/ S = s' /\ D = d') ->
    forall kx, pth_keytab s !! Z.to_nat x = Some kx ->
    pth_key_getdata x S = Ok (if used kx then default 0 (values_of D !! Z.to_nat x) else 0, S)) as Hget.
  { intros x Hx S D HS kx Ekx.
    assert (current S = Some t /\ threads S !! t = Some D /\ length (pth_keytab S) = Z.to_nat PTH_KEY_MAX /\
      pth_keytab S !! Z.to_nat x = Some kx /\ values_ok D) as (C1 & C2 & C3 & C4 & C5).
    { destruct HS as [[-> ->]|[-> ->]]; [by split_and!; eauto|]. rewrite Htab, Hcur. by split_and!. }
    destruct (keytab_at_run S x C3 Hx) as (k' & Ek' & Er). rewrite C4 in Ek'. injection Ek' as <-.
    pose proof (values_of_length D C5) as HlD.
    destruct (lookup_lt_is_Some_2 (values_of D) (Z.to_nat x)) as [v Ev]; [lia|].
    unfold pth_key_getdata. rewrite (bind_run get _ _ _ _ eq_refl). rewrite C1.
    rewrite bool_decide_eq_false_2 by lia. rewrite (bind_run _ _ _ _ _ Er).
    destruct (used kx); simpl; [|done]. rewrite (bind_run _ _ _ _ _ (get_thread_run _ _ _ C2)).
    rewrite Ev. unfold values_of in Ev. destruct (data_value D); simpl in *; [by rewrite Ev|].
    by apply zero_values_lookup in Ev as ->. }
  exists s'. split; [done|]. split; [|split; [|split]].
  - split; [done|by rewrite Hlk|]. intros u du. rewrite Hth, lookup_insert.
    case_decide; [by intros [= <-]|by apply Hv].
  - rewrite (Hget key Hk s' d' ltac:(by right) k Ek), Hu. unfold values_of. rewrite Hd'. simpl.
    rewrite list_lookup_insert_eq by lia. done.
  - intros key' Hk' Hne. destruct (keytab_at_run s key' Hl Hk') as (kx & Ekx & _).
    eexists. split; [by apply (Hget key' Hk' s d); [left|]|].
    rewrite (Hget key' Hk' s' d' ltac:(by right) kx Ekx). do 2 f_equal. destruct (used kx); [|done].
    unfold values_of at 1. rewrite Hd'. simpl. by rewrite list_lookup_insert_ne by lia.
  - intros u Hne. rewrite Hth. by rewrite lookup_insert_ne.
Qed.

Lemma setdata_getdata_witness :
  exists s', pth_key_setdata 5 77 (set_keytab (replicate (Z.to_nat PTH_KEY_MAX) (Key true None)) (kstart [true]))
    = Ok (0, s') /\ pth_key_getdata 5 s' = Ok (77, s').
Proof.
  destruct (setdata_getdata (set_keytab (replicate (Z.to_nat PTH_KEY_MAX) (Key true None)) (kstart [true]))
    0 (TData None 0) 5 77 (Key true None)) as (s' & E & _ & G & _).
  - split; [reflexivity|reflexivity|]. apply (kinv_values _ (kstart_inv [true])).
  - reflexivity.
  - reflexivity.
  - unfold PTH_KEY_MAX. lia.
  - reflexivity.
  - reflexivity.
  - intros _. exists []. reflexivity.
  - exists s'. split; [exact E|exact G].
Defined.

(** a key that is deleted and created again still shows the value a
    thread stored under the old key: neither operation resets the values. *)
Theorem key_recreate_stale :
  (a ← pth_key_create None;
   pth_key_setdata a.1 77;;
   pth_key_delete a.1;;
   b ← pth_key_create None;
   v ← pth_key_getdata b.1;
   mret (a, b, v)) (kstart [true]) ≫= (fun x => Ok x.1) = Ok ((0, 1), (0, 1), 77).
Proof. vm_compute. reflexivity. Qed.

(** ** Destruction terminates *)

Definition has_values (t : nat) (s : kstate) : Prop :=
  exists d l, threads s !! t = Some d /\ data_value d = Some l.

(** A destructor returns, with the lock free and the values consistent; it may
    set and read thread specific data. *)
Definition well_behaved (call : nat -> Z -> M kstate unit) (t : nat) : Prop :=
  forall f v s, kinv s -> has_values t s ->
    exists s', call f v s = Ok (tt, s') /\ kinv s' /\ has_values t s' /\ calls s' = calls s.

(** The invariant while the lock is held. *)
Definition locked_inv (s : kstate) : Prop := kinv (set_lock 0 s) /\ pth_key_lock s = 1.

Section destroy_total.
Context (call : nat -> Z -> M kstate unit) (t : nat) (Hwb : well_behaved call t).

(** A part of the destruction: it returns, keeps the invariant and calls at
    most [n] destructors. *)
Definition part_ok (n : nat) (m : M kstate unit) : Prop :=
  forall s, locked_inv s -> has_values t s ->
    exists s', m s = Ok (tt, s') /\ locked_inv s' /\ has_values t s' /\
      (length (calls s') <= length (calls s) + n)%nat.

Lemma acquire_run s : pth_key_lock s = 0 -> acquire_lock s = Ok (tt, set_lock 1 s).
Proof.
  intros E. unfold acquire_lock. rewrite (bind_run get _ _ _ _ eq_refl).
  by rewrite bool_decide_eq_true_2.
Qed.

Lemma run_destructor_ok f v : part_ok 1 (run_destructor call f v).
Proof.
  intros s [Hi Hl] Hv. unfold run_destructor.
  rewrite (bind_run release_lock _ _ tt _ eq_refl). rewrite (bind_run _ _ _ tt _ eq_refl).
  match goal with |- context [mbind _ (call f v) ?st] => set (s1 := st) end.
  destruct (Hwb f v s1) as (s2 & E & Hi2 & Hv2 & Hc).
  { destruct Hi as [H1 H2 H3]. by split. }
  { exact Hv. }
  rewrite (bind_run _ _ _ _ _ E). rewrite acquire_run by apply Hi2.
  exists (set_lock 1 s2). split; [done|]. split.
  { destruct Hi2 as [H1 H2 H3]. by split; [split|]. }
  split; [done|]. simpl. rewrite Hc. simpl. lia.
Qed.

Lemma no_data_run s : has_values t s -> exists z, no_data t s = Ok (z, s).
Proof.
  intros (d & l & Ht & _). unfold no_data. rewrite (bind_run _ _ _ _ _ (get_thread_run _ _ _ Ht)). eauto.
Qed.

Lemma destroy_key_ok key : 0 <= key < PTH_KEY_MAX -> part_ok 1 (destroy_key call t key).
Proof.
  intros Hk s [Hi Hl] Hv. pose proof Hv as (d & l & Ht & Hd).
  assert (exists s', Ok (tt, s) = Ok (tt, s') /\ locked_inv s' /\ has_values t s' /\
    (length (calls s') <= length (calls s) + 1)%nat) as Hskip by (exists s; split_and!; done || lia).
  pose proof (kinv_values _ Hi _ _ Ht) as Hok. pose proof Hok as Hok2.
  unfold values_ok in Hok2. rewrite Hd in Hok2. destruct Hok2 as [Hlen _].
  unfold destroy_key. rewrite (bind_run _ _ _ _ _ (get_thread_run _ _ _ Ht)).
  case_bool_decide; [|done].
  destruct (keytab_at_run s key (kinv_tab _ Hi) Hk) as (k & Ek & Er).
  rewrite (bind_run _ _ _ _ _ Er). destruct (used k); [|done].
  rewrite Hd. erewrite bind_run by reflexivity.
  destruct (lookup_lt_is_Some_2 l (Z.to_nat key)) as [v Ev]; [lia|].
  rewrite Ev. erewrite bind_run by reflexivity. case_bool_decide as Hv0; [done|].
  rewrite (bind_run _ _ _ tt _ eq_refl).
  set (s1 := set_thread t _ s).
  assert (locked_inv s1 /\ has_values t s1) as [Hi1 Hv1].
  { split; [split; [|done]|].
    - destruct Hi as [H1 H2 H3]. split; [done|done|]. intros u du. simpl. rewrite lookup_insert.
      case_decide; [|apply H3]. intros [= <-]. subst u.
      pose proof (values_ok_insert d l (Z.to_nat key) v 0 Hok Hd Ev) as Hnew.
      rewrite bool_decide_eq_false_2 in Hnew by done.
      rewrite bool_decide_eq_true_2 in Hnew by done. exact Hnew.
    - eexists _, _. split; [apply lookup_insert_eq|done]. }
  destruct (destructor k) as [f|].
  - destruct (run_destructor_ok f v s1 Hi1 Hv1) as (s2 & E2 & H2). exists s2. split; [done|]. exact H2.
  - exists s1. split; [done|]. split; [done|]. split; [done|]. simpl. lia.
Qed.

Lemma destroy_keys_ok keys : (forall k, k ∈ keys -> 0 <= k < PTH_KEY_MAX) ->
  part_ok (length keys) (destroy_keys call t keys).
Proof.
  induction keys as [|key keys IH]; intros Hk s Hi Hv.
  { exists s. split; [done|]. split; [done|]. split; [done|]. simpl. lia. }
  simpl. destruct (destroy_key_ok key (Hk key ltac:(set_solver)) s Hi Hv) as (s1 & E1 & Hi1 & Hv1 & Hc1).
  rewrite (bind_run _ _ _ _ _ E1). destruct (no_data_run s1 Hv1) as (z & Ez).
  rewrite (bind_run _ _ _ _ _ Ez). destruct z.
  { exists s1. split_and!; [done..|]. lia. }
  destruct (IH ltac:(set_solver) s1 Hi1 Hv1) as (s2 & E2 & Hi2 & Hv2 & Hc2).
  exists s2. split_and!; [done..|]. lia.
Qed.

Lemma destroy_iterations_ok n : part_ok (n * Z.to_nat PTH_KEY_MAX) (destroy_iterations call t n).
Proof.
  induction n as [|n IH]; intros s Hi Hv; cbn [destroy_iterations].
  { exists s. split_and!; [done..|]. lia. }
  destruct (destroy_keys_ok (seqZ 0 PTH_KEY_MAX)) with (s := s) as (s1 & E1 & Hi1 & Hv1 & Hc1).
  { intros k Hk%elem_of_seqZ. lia. }
  { done. }
  { done. }
  rewrite length_seqZ in Hc1.
  rewrite (bind_run _ _ _ _ _ E1). destruct (no_data_run s1 Hv1) as (z & Ez).
  rewrite (bind_run _ _ _ _ _ Ez). destruct z.
  { exists s1. split_and!; [done..|]. lia. }
  destruct (IH s1 Hi1 Hv1) as (s2 & E2 & Hi2 & Hv2 & Hc2). exists s2. split_and!; [done..|]. lia.
Qed.
End destroy_total.

(** the destruction of a thread's values terminates whatever the
    destructors do, even if each of them stores new values: at most
    4 * 256 destructors are called, the lock is free when they run and at the
    end, the thread's array is gone, and the values of all other threads
    are consistent. *)
Theorem destroydata_terminates call t s :
  well_behaved call t -> kinv s -> has_values t s ->
  exists s' n, pth_key_destroydata call t s = Ok (tt, s') /\ pth_key_lock s' = 0 /\
    threads s' !! t = Some (TData None n) /\
    (forall u d, u <> t -> threads s' !! u = Some d -> values_ok d) /\
    (length (calls s') <= length (calls s) + 1024)%nat.
Proof.
  intros Hwb Hi Hv. unfold pth_key_destroydata.
  rewrite (bind_run _ _ _ _ _ (acquire_run s (kinv_lock _ Hi))).
  destruct (destroy_iterations_ok call t Hwb PTH_DESTRUCTOR_ITERATIONS (set_lock 1 s))
    as (s1 & E1 & [Hi1 Hl1] & (d & l & Ht & Hd) & Hc1).
  { destruct Hi as [H1 H2 H3]. by split; [split|]. }
  { exact Hv. }
  rewrite (bind_run _ _ _ _ _ E1). rewrite (bind_run _ _ _ _ _ (get_thread_run _ _ _ Ht)).
  rewrite Hd. erewrite bind_run by reflexivity. rewrite (bind_run _ _ _ tt _ eq_refl).
  eexists _, (data_count d). split; [reflexivity|]. split; [done|].
  split; [apply lookup_insert_eq|]. split.
  - intros u du Hne. simpl. rewrite lookup_insert_ne by done. apply (kinv_values _ Hi1).
  - simpl. change (PTH_DESTRUCTOR_ITERATIONS * Z.to_nat PTH_KEY_MAX)%nat with 1024%nat in Hc1. done.
Qed.

(** A destructor that only returns. *)
Definition do_nothing (f : nat) (v : Z) : M kstate unit := mret tt.

Lemma destroydata_terminates_witness :
  exists s' n, pth_key_destroydata do_nothing 0
      (set_thread 0 (TData (Some (<[3%nat := 9]> zero_values)) 1) (kstart [])) = Ok (tt, s') /\
    threads s' !! 0%nat = Some (TData None n).
Proof.
  destruct (destroydata_terminates do_nothing 0
    (set_thread 0 (TData (Some (<[3%nat := 9]> zero_values)) 1) (kstart []))) as (s' & n & E & _ & H & _).
  - intros f v s Hi Hv. exists s. split; [reflexivity|]. split; [exact Hi|]. split; [exact Hv|reflexivity].
  - split; [reflexivity|reflexivity|]. intros t d. simpl. rewrite lookup_insert.
    case_decide; [|by rewrite lookup_singleton_ne]. intros [= <-]. vm_compute. split; reflexivity.
  - eexists _, _. split; [apply lookup_insert_eq|reflexivity].
  - exists s', n. split; [exact E|exact H].
Defined.

(** ** Which destructors are called *)

Section destroy_calls.
Context (tab : list pth_keytab_st).

(** The values after the key [key] was destroyed. *)
Definition cleared (key : Z) (l : list Z) : list Z :=
  match tab !! Z.to_nat key with
  | Some k => if used k then <[Z.to_nat key := 0]> l else l
  | None => l
  end.

(** The destructor call for a key in use whose value is not NULL. *)
Definition key_call (l : list Z) (key : Z) : list (nat * Z) :=
  match tab !! Z.to_nat key, l !! Z.to_nat key with
  | Some k, Some v =>
      if used k && negb (bool_decide (v = 0)) then
        match destructor k with Some f => [(f, v)] | None => [] end
      else []
  | _, _ => []
  end.

Definition clear_all (keys : list Z) (l : list Z) : list Z := foldl (fun l k => cleared k l) l keys.
Fixpoint key_calls (l : list Z) (keys : list Z) : list (nat * Z) :=
  match keys with [] => [] | k :: keys => key_call l k ++ key_calls l keys end.

Lemma cleared_length key l : length (cleared key l) = length l.
Proof. unfold cleared. repeat case_match; by rewrite ?length_insert. Qed.

Lemma cleared_lookup_ne key l j : j <> Z.to_nat key -> cleared key l !! j = l !! j.
Proof. intros. unfold cleared. repeat case_match; by rewrite ?list_lookup_insert_ne. Qed.

(** When there are no values there is nothing to do. *)
Lemma count_zero_idle l keys : count l = 0%nat -> length l = Z.to_nat PTH_KEY_MAX ->
  (forall k, k ∈ keys -> 0 <= k < PTH_KEY_MAX) -> clear_all keys l = l /\ key_calls l keys = [].
Proof.
  intros Hc Hl. induction keys as [|key keys IH]; intros Hk; [done|].
  destruct (IH ltac:(set_solver)) as [IH1 IH2]. pose proof (Hk key ltac:(set_solver)) as Hkey.
  assert (l !! Z.to_nat key = Some 0) as E by (apply count_zero; [done|lia]).
  assert (cleared key l = l) as Ecl.
  { unfold cleared. repeat case_match; [|done..]. by apply list_insert_id. }
  split.
  - unfold clear_all in *. simpl. by rewrite Ecl.
  - simpl. rewrite IH2, app_nil_r. unfold key_call. rewrite E.
    destruct (tab !! _) as [k|]; [|done]. by rewrite andb_false_r.
Qed.

Lemma key_calls_cleared key keys l :
  (forall k, k ∈ keys -> 0 <= k) -> 0 <= key -> key ∉ keys ->
  key_calls (cleared key l) keys = key_calls l keys.
Proof.
  intros Hk Hkey Hin. induction keys as [|k keys IH]; [done|]. simpl.
  rewrite IH by set_solver. f_equal. unfold key_call. rewrite cleared_lookup_ne; [done|].
  pose proof (Hk k ltac:(set_solver)). intros ?. assert (k = key) as -> by lia. set_solver.
Qed.
End destroy_calls.

Section quiet.
Context (call : nat -> Z -> M kstate unit) (Hq : forall f v s, call f v s = Ok (tt, s)) (t : nat).

(** The state with the values [l] of the thread [t] and the calls [cs]. *)
Definition with_values (s : kstate) (l : list Z) (cs : list (nat * Z)) : kstate :=
  KState (pth_keytab s) (pth_key_lock s) (<[t := TData (Some l) (Z.of_nat (count l))]> (threads s))
    (current s) (mallocs s) cs.

Lemma with_values_twice s l cs l' cs' : with_values (with_values s l cs) l' cs' = with_values s l' cs'.
Proof. unfold with_values. simpl. by rewrite insert_insert_eq. Qed.

Lemma with_values_thread s l cs :
  get_thread (Some t) (with_values s l cs) =
    Ok (TData (Some l) (Z.of_nat (count l)), with_values s l cs).
Proof. apply get_thread_run. apply lookup_insert_eq. Qed.

Lemma destroy_key_quiet s l cs key :
  length (pth_keytab s) = Z.to_nat PTH_KEY_MAX -> pth_key_lock s = 1 ->
  length l = Z.to_nat PTH_KEY_MAX -> 0 <= key < PTH_KEY_MAX ->
  destroy_key call t key (with_values s l cs) =
    Ok (tt, with_values s (cleared (pth_keytab s) key l) (key_call (pth_keytab s) l key ++ cs)).
Proof.
  intros Ht Hlk Hl Hk. unfold destroy_key. rewrite (bind_run _ _ _ _ _ (with_values_thread s l cs)).
  destruct (lookup_lt_is_Some_2 l (Z.to_nat key)) as [v Ev]; [lia|].
  destruct (keytab_at_run (with_values s l cs) key Ht Hk) as (k & Ek & Er). simpl in Ek.
  unfold cleared, key_call. rewrite Ek, Ev. case_bool_decide as Hn; simpl in Hn.
  2:{ assert (v = 0) as ->.
      { assert (count l = 0%nat) as Hc by lia. pose proof (count_zero l (Z.to_nat key) Hc ltac:(lia)). congruence. }
      rewrite andb_false_r. simpl. destruct (used k); [|done]. by rewrite list_insert_id. }
  rewrite (bind_run _ _ _ _ _ Er). destruct (used k); [|done]. simpl.
  erewrite bind_run by reflexivity. rewrite Ev. erewrite bind_run by reflexivity.
  case_bool_decide as Hv; simpl; [subst v; by rewrite list_insert_id|].
  rewrite (bind_run _ _ _ tt _ eq_refl).
  assert (swrap 32 (Z.of_nat (count l) - 1) = Z.of_nat (count (<[Z.to_nat key := 0]> l))) as Ec.
  { pose proof (count_insert l _ v 0 Ev) as Hi. pose proof (count_le l). rewrite Hl in *.
    change (Z.to_nat PTH_KEY_MAX) with 256%nat in *. unfold nz in Hi.
    rewrite bool_decide_eq_false_2 in Hi by done. rewrite bool_decide_eq_true_2 in Hi by done.
    rewrite swrap_small by (simpl; lia). lia. }
  rewrite Ec. destruct (destructor k) as [f|].
  - unfold run_destructor. rewrite (bind_run release_lock _ _ tt _ eq_refl).
    rewrite (bind_run _ _ _ tt _ eq_refl). rewrite (bind_run _ _ _ _ _ (Hq f v _)).
    rewrite acquire_run by done. unfold with_values, set_thread, set_lock. simpl.
    by rewrite insert_insert_eq, Hlk.
  - unfold mret, M_ret, with_values, set_thread. simpl. by rewrite insert_insert_eq.
Qed.

Lemma no_data_quiet s l cs :
  no_data t (with_values s l cs) = Ok (bool_decide (count l = 0%nat), with_values s l cs).
Proof.
  unfold no_data. rewrite (bind_run _ _ _ _ _ (with_values_thread s l cs)).
  unfold mret, M_ret. do 2 f_equal. apply bool_decide_ext. simpl. lia.
Qed.

Lemma destroy_keys_quiet s keys l cs :
  length (pth_keytab s) = Z.to_nat PTH_KEY_MAX -> pth_key_lock s = 1 ->
  length l = Z.to_nat PTH_KEY_MAX -> NoDup keys -> (forall k, k ∈ keys -> 0 <= k < PTH_KEY_MAX) ->
  destroy_keys call t keys (with_values s l cs) =
    Ok (tt, with_values s (clear_all (pth_keytab s) keys l)
              (reverse (key_calls (pth_keytab s) l keys) ++ cs)).
Proof.
  intros Ht Hlk. revert l cs. induction keys as [|key keys IH]; intros l cs Hl Hnd Hk; [done|].
  apply NoDup_cons in Hnd as [Hin Hnd].
  assert (forall k, k ∈ keys -> 0 <= k < PTH_KEY_MAX) as Hk' by set_solver.
  pose proof (Hk key ltac:(set_solver)) as Hkey.
  simpl. rewrite (bind_run _ _ _ _ _ (destroy_key_quiet s l cs key Ht Hlk Hl Hkey)).
  rewrite (bind_run _ _ _ _ _ (no_data_quiet _ _ _)).
  assert (key_calls (pth_keytab s) (cleared (pth_keytab s) key l) keys = key_calls (pth_keytab s) l keys) as Ekc.
  { apply key_calls_cleared; [|lia|done]. intros k Hk2. specialize (Hk' k Hk2). lia. }
  assert (reverse (key_call (pth_keytab s) l key ++ key_calls (pth_keytab s) l keys) ++ cs =
    reverse (key_calls (pth_keytab s) l keys) ++ key_call (pth_keytab s) l key ++ cs) as ->.
  { rewrite reverse_app, <- app_assoc. f_equal. f_equal.
    unfold key_call. repeat case_match; done. }
  unfold clear_all. simpl. fold (clear_all (pth_keytab s) keys (cleared (pth_keytab s) key l)).
  case_bool_decide as Hz.
  - destruct (count_zero_idle (pth_keytab s) _ keys Hz) as [-> Hkc]; [by rewrite cleared_length|done|].
    rewrite Ekc in Hkc. rewrite Hkc. done.
  - rewrite IH by (rewrite ?cleared_length; done). by rewrite Ekc.
Qed.
End quiet.

(** After a pass over all keys, the keys in use have no values. *)
Lemma clear_all_length tab keys l : length (clear_all tab keys l) = length l.
Proof.
  unfold clear_all. revert l. induction keys as [|k keys IH]; intros l; [done|]. simpl.
  by rewrite IH, cleared_length.
Qed.

Lemma clear_all_keeps_zero tab keys l j : l !! j = Some 0 -> clear_all tab keys l !! j = Some 0.
Proof.
  revert l. induction keys as [|k keys IH]; intros l E; [done|]. apply IH.
  destruct (decide (j = Z.to_nat k)) as [->|]; [|by rewrite cleared_lookup_ne].
  unfold cleared. repeat case_match; [|done..].
  rewrite list_lookup_insert_eq; [done|by eapply lookup_lt_Some].
Qed.

Lemma clear_all_zero tab keys l k kx :
  k ∈ keys -> (Z.to_nat k < length l)%nat -> tab !! Z.to_nat k = Some kx -> used kx = true ->
  clear_all tab keys l !! Z.to_nat k = Some 0.
Proof.
  intros Hin Hl Ek Hu. revert l Hl. induction keys as [|k' keys IH]; [by apply not_elem_of_nil in Hin|].
  intros l Hl. apply elem_of_cons in Hin as [Heq|Hin]; [subst k'|apply IH; [done|by rewrite cleared_length]].
  change (clear_all tab (k :: keys) l) with (clear_all tab keys (cleared tab k l)).
  apply clear_all_keeps_zero. unfold cleared. rewrite Ek, Hu. by rewrite list_lookup_insert_eq.
Qed.

Lemma clear_all_idle tab keys keys' l :
  (forall k, k ∈ keys' -> k ∈ keys) -> (forall k, k ∈ keys -> (Z.to_nat k < length l)%nat) ->
  clear_all tab keys' (clear_all tab keys l) = clear_all tab keys l /\
  key_calls tab (clear_all tab keys l) keys' = [].
Proof.
  intros Hsub Hk. induction keys' as [|k keys' IH]; [done|].
  destruct IH as [IH1 IH2]; [set_solver|].
  pose proof (Hsub k ltac:(set_solver)) as Hin.
  assert (forall kx, tab !! Z.to_nat k = Some kx -> used kx = true ->
    clear_all tab keys l !! Z.to_nat k = Some 0) as Hz.
  { intros kx Ek Hu. eapply clear_all_zero; [done|by apply Hk|done|done]. }
  assert (cleared tab k (clear_all tab keys l) = clear_all tab keys l) as Ecl.
  { unfold cleared. destruct (tab !! Z.to_nat k) as [kx|]; [|done].
    destruct (used kx) eqn:Eu; [|done]. apply list_insert_id. by eapply Hz. }
  split.
  - change (clear_all tab (k :: keys') (clear_all tab keys l))
      with (clear_all tab keys' (cleared tab k (clear_all tab keys l))). by rewrite Ecl.
  - simpl. rewrite IH2, app_nil_r. unfold key_call. destruct (tab !! Z.to_nat k) as [kx|] eqn:Ek; [|done].
    destruct (used kx) eqn:Eu; [|by case_match]. by rewrite (Hz kx eq_refl Eu).
Qed.

Lemma destroy_iterations_quiet call t s n l cs :
  (forall f v s, call f v s = Ok (tt, s)) ->
  length (pth_keytab s) = Z.to_nat PTH_KEY_MAX -> pth_key_lock s = 1 ->
  length l = Z.to_nat PTH_KEY_MAX ->
  destroy_iterations call t (S n) (with_values t s l cs) =
    Ok (tt, with_values t s (clear_all (pth_keytab s) (seqZ 0 PTH_KEY_MAX) l)
              (reverse (key_calls (pth_keytab s) l (seqZ 0 PTH_KEY_MAX)) ++ cs)).
Proof.
  intros Hq Ht Hlk. 
  assert (forall k, k ∈ seqZ 0 PTH_KEY_MAX -> 0 <= k < PTH_KEY_MAX) as Hr.
  { intros k Hk%elem_of_seqZ. lia. }
  revert l cs. induction n as [|n IH]; intros l cs Hl.
  - cbn [destroy_iterations].
    rewrite (bind_run _ _ _ _ _ (destroy_keys_quiet call Hq t s _ l cs Ht Hlk Hl (NoDup_seqZ _ _) Hr)).
    rewrite (bind_run _ _ _ _ _ (no_data_quiet _ _ _ _)). by case_match.
  - change (destroy_iterations call t (S (S n))) with
      (destroy_keys call t (seqZ 0 PTH_KEY_MAX);; z ← no_data t;
       if (z : bool) then mret tt else destroy_iterations call t (S n)).
    rewrite (bind_run _ _ _ _ _ (destroy_keys_quiet call Hq t s _ l cs Ht Hlk Hl (NoDup_seqZ _ _) Hr)).
    rewrite (bind_run _ _ _ _ _ (no_data_quiet _ _ _ _)). case_bool_decide; [done|].
    rewrite IH by (by rewrite clear_all_length).
    destruct (clear_all_idle (pth_keytab s) (seqZ 0 PTH_KEY_MAX) (seqZ 0 PTH_KEY_MAX) l) as [-> ->]; [done| |done].
    intros k Hk%Hr. rewrite Hl. lia.
Qed.

(** C21: when the destructors leave the keys and the values as they are (they
    store no new values), the destruction of the values a thread has calls the
    destructor of every key in use whose value is not NULL, exactly once, with
    that value and in the order of the keys, and no other destructor; the keys
    stay, and the lock is given back. *)
Theorem destroydata_calls call t s d l :
  (forall f v s, call f v s = Ok (tt, s)) -> kinv s ->
  threads s !! t = Some d -> data_value d = Some l ->
  exists s', pth_key_destroydata call t s = Ok (tt, s') /\
    calls s' = reverse (key_calls (pth_keytab s) l (seqZ 0 PTH_KEY_MAX)) ++ calls s /\
    pth_key_lock s' = 0 /\ pth_keytab s' = pth_keytab s.
Proof.
  intros Hq [Ht H0 Hv] Hd Hl. pose proof (Hv _ _ Hd) as Hok. unfold values_ok in Hok. rewrite Hl in Hok.
  destruct Hok as [Hlen Hc].
  assert (set_lock 1 s = with_values t (set_lock 1 s) l (calls s)) as Es.
  { unfold with_values, set_lock. simpl. rewrite insert_id; [done|]. rewrite Hd. f_equal.
    destruct d as [dv dc]. simpl in *. by subst. }
  unfold pth_key_destroydata. rewrite (bind_run _ _ _ _ _ (acquire_run s H0)). rewrite Es.
  rewrite (bind_run _ _ _ _ _ (destroy_iterations_quiet call t (set_lock 1 s) 3 l (calls s) Hq Ht eq_refl Hlen)).
  rewrite (bind_run _ _ _ _ _ (with_values_thread _ _ _ _)). erewrite bind_run by reflexivity.
  rewrite (bind_run _ _ _ tt _ eq_refl). eexists. split; [reflexivity|]. done.
Qed.

Lemma destroydata_calls_witness :
  exists s', pth_key_destroydata do_nothing 0
      (set_keytab (replicate (Z.to_nat PTH_KEY_MAX) (Key true (Some 5%nat)))
        (set_thread 0 (TData (Some (<[3%nat := 9]> zero_values)) 1) (kstart []))) = Ok (tt, s') /\
    calls s' = [(5%nat, 9)].
Proof.
  destruct (destroydata_calls do_nothing 0
    (set_keytab (replicate (Z.to_nat PTH_KEY_MAX) (Key true (Some 5%nat)))
      (set_thread 0 (TData (Some (<[3%nat := 9]> zero_values)) 1) (kstart [])))
    (TData (Some (<[3%nat := 9]> zero_values)) 1) (<[3%nat := 9]> zero_values)) as (s' & E & Hc & _).
  - reflexivity.
  - split; [reflexivity|reflexivity|]. intros t d. simpl. rewrite lookup_insert.
    case_decide; [|by rewrite lookup_singleton_ne]. intros [= <-]. vm_compute. split; reflexivity.
  - apply lookup_insert_eq.
  - reflexivity.
  - exists s'. split; [exact E|]. rewrite Hc. vm_compute. reflexivity.
Defined.
