(* ===== verification/Msg.v ===== *)
(** * Message ports (pth_msg.c)

    A message port is a queue of messages, a ring of pth_ring.c through the
    node each message starts with; the ports themselves are in the global ring
    [pth_msgport].  Ports and messages are identified by numbers. *)

From stdpp Require Import strings.
From S2P Require Import Prelude Dll LinkedList Ring.

(** Ring nodes: the node of a message, the node of a port. *)
Inductive mnode : Set := NMsg (m : nat) | NPort (p : nat).

#[global] Instance mnode_eq_dec : EqDecision mnode.
Proof. solve_decision. Defined.
#[global] Instance mnode_countable : Countable mnode.
Proof.
  refine (inj_countable' (fun a => match a with NMsg m => inl m | NPort p => inr p end)
            (fun k => match k with inl m => NMsg m | inr p => NPort p end) _).
  by intros [].
Defined.
#[global] Instance NMsg_inj : Inj eq eq NMsg.
Proof. by intros ?? [= ->]. Qed.
#[global] Instance NPort_inj : Inj eq eq NPort.
Proof. by intros ?? [= ->]. Qed.

Record pth_msgport_st : Set := Port {
  mp_name : string; mp_tid : option nat; mp_queue : pth_ring_t mnode }.

Record pth_message_st : Set := Message { m_replyport : option nat }.

Record mstate : Set := MState {
  links : gmap mnode (link mnode);
  ports : gmap nat pth_msgport_st;
  msgs : gmap nat pth_message_st;
  pth_msgport : pth_ring_t mnode;
  current : option nat;
  mallocs : list (option nat) }.   (** the results of the next [pth_malloc] calls *)

(** ** Access *)

Definition get_port (p : nat) : M mstate pth_msgport_st :=
  s ← get; of_option BadDeref (ports s !! p).

(** The links and the ring of messages of a port are changed. *)
Definition set_queue (p : nat) (x : pth_msgport_st) (r : pth_ring_t mnode) (h : gmap mnode (link mnode))
    (s : mstate) : mstate :=
  MState h (<[p := Port (mp_name x) (mp_tid x) r]> (ports s)) (msgs s) (pth_msgport s) (current s) (mallocs s).

(** A ring operation on the queue of a port, and one on the ring of ports. *)
Definition on_queue (p : nat) (f : pth_ring_t mnode * gmap mnode (link mnode) -> res (pth_ring_t mnode * gmap mnode (link mnode)))
    : M mstate unit :=
  x ← get_port p;
  ((fun s => match f (mp_queue x, links s) with
             | Ok (r, h) => Ok (tt, set_queue p x r h s)
             | Err e => Err e
             end) : M mstate unit).
Definition on_ports (f : pth_ring_t mnode * gmap mnode (link mnode) -> res (pth_ring_t mnode * gmap mnode (link mnode)))
    : M mstate unit :=
  fun s => match f (pth_msgport s, links s) with
           | Ok (r, h) => Ok (tt, MState h (ports s) (msgs s) r (current s) (mallocs s))
           | Err e => Err e
           end.

(** ** Ports *)

(** [pth_malloc] of a port; the memory is zeroed *)
Definition malloc_port : M mstate (option nat) :=
  fun s => match mallocs s with
           | [] => Err Undefined
           | None :: rest => Ok (None, MState (links s) (ports s) (msgs s) (pth_msgport s) (current s) rest)
           | Some p :: rest =>
               Ok (Some p, MState (<[NPort p := Link None None]> (links s))
                             (<[p := Port EmptyString None pth_ring_init]> (ports s))
                             (msgs s) (pth_msgport s) (current s) rest)
           end.

Definition pth_msgport_create (name : option string) : M mstate (option nat) :=
  match name with
  | None => mret None
  | Some name =>
      mp ← malloc_port;
      match mp with
      | None => mret None
      | Some p =>
          modify (fun s => MState (links s) (<[p := Port name (current s) pth_ring_init]> (ports s))
                             (msgs s) (pth_msgport s) (current s) (mallocs s));;
          on_ports (pth_ring_append (Some (NPort p)));;
          mret (Some p)
      end
  end.

Definition pth_msgport_pending (mp : option nat) : M mstate Z :=
  match mp with
  | None => mret (-1)
  | Some p => x ← get_port p; mret (pth_ring_elements (mp_queue x))
  end.

(** ** Messages *)

Definition pth_msgport_put (mp : option nat) (m : nat) : M mstate bool :=
  match mp with
  | None => mret false
  | Some p => on_queue p (pth_ring_append (Some (NMsg m)));; mret true
  end.

(** The message a node belongs to. *)
Definition msg_of (n : option mnode) : M mstate (option nat) :=
  match n with
  | None => mret None
  | Some (NMsg m) => mret (Some m)
  | Some (NPort _) => fail Undefined
  end.

Definition pth_msgport_get (mp : option nat) : M mstate (option nat) :=
  match mp with
  | None => mret None
  | Some p =>
      x ← get_port p;
      n ← ((fun s => match pth_ring_pop (mp_queue x, links s) with
                     | Ok (n, (r, h)) => Ok (n, set_queue p x r h s)
                     | Err e => Err e
                     end) : M mstate (option mnode));
      msg_of n
  end.

Definition pth_msgport_reply (m : option nat) : M mstate bool :=
  match m with
  | None => mret false
  | Some m =>
      s ← get;
      x ← of_option BadDeref (msgs s !! m);
      pth_msgport_put (m_replyport x) m
  end.

(** The loop that replies to all pending messages. *)
Fixpoint reply_all (fuel : nat) (p : nat) : M mstate unit :=
  m ← pth_msgport_get (Some p);
  match m with
  | None => mret tt
  | Some _ =>
      match fuel with
      | O => fail Stuck
      | S fuel => pth_msgport_reply m;; reply_all fuel p
      end
  end.

Definition pth_msgport_destroy (fuel : nat) (mp : option nat) : M mstate unit :=
  match mp with
  | None => mret tt
  | Some p =>
      reply_all fuel p;;
      on_ports (pth_ring_delete (Some (NPort p)));;
      modify (fun s => MState (delete (NPort p) (links s)) (delete p (ports s)) (msgs s)
                         (pth_msgport s) (current s) (mallocs s))
  end.

(** The search; [mpf] is the first port. *)
Fixpoint find_scan (fuel : nat) (name : string) (mp mpf : option mnode) : M mstate (option nat) :=
  match mp with
  | None => mret None
  | Some (NMsg _) => fail Undefined
  | Some (NPort p) =>
      x ← get_port p;
      if bool_decide (mp_name x = name) then mret (Some p)
      else
        n ← ((fun s => match pth_ring_next (pth_msgport s) (links s) mp with
                       | Ok n => Ok (n, s) | Err e => Err e end) : M mstate (option mnode));
        if bool_decide (n = mpf) then mret None
        else match fuel with O => fail Stuck | S fuel => find_scan fuel name n mpf end
  end.

Definition pth_msgport_find (fuel : nat) (name : option string) : M mstate (option nat) :=
  match name with
  | None => mret None
  | Some name =>
      s ← get;
      find_scan fuel name (pth_ring_first (pth_msgport s)) (pth_ring_first (pth_msgport s))
  end.

(** ** Invariant

    [Ps]: the ports in the order of their creation; [Q]: the messages pending
    on every port, oldest first. *)

Record minv (s : mstate) (Ps : list nat) (Q : gmap nat (list nat)) : Prop := {
  mi_ports : rng (pth_msgport s) (links s) (NPort <$> Ps);
  mi_dom : forall p, p ∈ Ps <-> is_Some (Q !! p);
  mi_queue : forall p q, Q !! p = Some q ->
    exists x, ports s !! p = Some x /\ rng (mp_queue x) (links s) (NMsg <$> q);
  mi_only : forall p p' q q' m, Q !! p = Some q -> Q !! p' = Some q' -> m ∈ q -> m ∈ q' -> p = p';
  mi_msgs : forall m, is_Some (msgs s !! m) -> is_Some (links s !! NMsg m);
  mi_known : forall p q m, Q !! p = Some q -> m ∈ q -> is_Some (msgs s !! m);
  mi_size : Z.of_nat (size (msgs s)) + 1 < 2 ^ 32 }.

Definition pending (Q : gmap nat (list nat)) (m : nat) : Prop := exists p q, Q !! p = Some q /\ m ∈ q.

Section minv_facts.
Context (s : mstate) (Ps : list nat) (Q : gmap nat (list nat)) (Hinv : minv s Ps Q).

Lemma queue_nodup p q : Q !! p = Some q -> NoDup q.
Proof.
  intros (x & _ & Hr)%(mi_queue _ _ _ Hinv). apply rng_nodup in Hr. by apply NoDup_fmap_1 in Hr.
Qed.

Lemma queue_bound p q : Q !! p = Some q -> Z.of_nat (length q) + 1 < 2 ^ 32.
Proof.
  intros Hq. pose proof (mi_size _ _ _ Hinv). pose proof (queue_nodup _ _ Hq) as Hnd.
  assert (length q <= size (msgs s))%nat; [|lia].
  rewrite <- (size_list_to_set (C:=gset nat) q) by done. rewrite <- size_dom. apply subseteq_size.
  intros m Hm%elem_of_list_to_set. apply elem_of_dom. by eapply (mi_known _ _ _ Hinv).
Qed.

(** The queue of a port is changed. *)
Lemma minv_queue p q q' x r' h' :
  Q !! p = Some q -> ports s !! p = Some x ->
  rng r' h' (NMsg <$> q') -> same_dom (links s) h' ->
  (forall b, b ∉ (NMsg <$> q) ++ (NMsg <$> q') -> h' !! b = links s !! b) ->
  (forall m, m ∈ q' -> m ∈ q \/ (~ pending Q m /\ is_Some (msgs s !! m))) ->
  minv (set_queue p x r' h' s) Ps (<[p := q']> Q).
Proof.
  intros Hq Hx Hr Hd Hf Hm.
  assert (forall b, (forall m, m ∈ q \/ m ∈ q' -> b <> NMsg m) -> h' !! b = links s !! b) as Hf'.
  { intros b Hb. apply Hf. intros [(m & -> & ?)%list_elem_of_fmap|(m & -> & ?)%list_elem_of_fmap]%elem_of_app;
      by apply (Hb m); eauto. }
  assert (forall p2 q2 m, p2 <> p -> Q !! p2 = Some q2 -> m ∈ q2 -> m ∉ q /\ m ∉ q') as Hout.
  { intros p2 q2 m Hne Hq2 Hin. split.
    - intros Hin2. apply Hne. by eapply (mi_only _ _ _ Hinv).
    - intros [Hin2|[Hin2 _]]%Hm; [apply Hne; by eapply (mi_only _ _ _ Hinv)|]. apply Hin2. by exists p2, q2. }
  split; cbn [links ports msgs pth_msgport set_queue].
  - eapply rng_agree; [|apply (mi_ports _ _ _ Hinv)].
    intros b (p2 & -> & _)%list_elem_of_fmap. by apply Hf'.
  - intros p2. rewrite (mi_dom _ _ _ Hinv). rewrite lookup_insert. case_decide; subst; [|done].
    split; eauto.
  - intros p2 q2. rewrite !lookup_insert. case_decide as Ep.
    + intros [= <-]. eexists. split; [done|]. done.
    + intros Hq2. destruct (mi_queue _ _ _ Hinv _ _ Hq2) as (y & Hy & Hry). exists y. split; [done|].
      eapply rng_agree; [|exact Hry]. intros b (m & -> & Hin)%list_elem_of_fmap. apply Hf'.
      intros m2 Hm2 [= <-]. destruct (Hout p2 q2 m) as [? ?]; [congruence|done|done|]. tauto.
  - intros p1 p2 q1 q2 m. rewrite !lookup_insert. repeat case_decide; subst; try done.
    + intros [= <-] Hq2 Hin1 Hin2. exfalso. destruct (Hout p2 q2 m); [congruence|done..].
    + intros Hq1 [= <-] Hin1 Hin2. exfalso. destruct (Hout p1 q1 m); [congruence|done..].
    + intros. by eapply (mi_only _ _ _ Hinv).
  - intros m Hm2. apply Hd. by apply (mi_msgs _ _ _ Hinv).
  - intros p2 q2 m. rewrite lookup_insert. case_decide.
    + intros [= <-] [Hin|[_ Hin]]%Hm; [by eapply (mi_known _ _ _ Hinv)|done].
    + apply (mi_known _ _ _ Hinv).
  - apply (mi_size _ _ _ Hinv).
Qed.
End minv_facts.

Lemma get_port_run s p x : ports s !! p = Some x -> get_port p s = Ok (x, s).
Proof. intros E. unfold get_port, mbind, M_bind. simpl. by rewrite E. Qed.

(** Sending. *)
Lemma put_spec s Ps Q p q m :
  minv s Ps Q -> Q !! p = Some q -> ~ pending Q m -> is_Some (msgs s !! m) ->
  exists s', pth_msgport_put (Some p) m s = Ok (true, s') /\ minv s' Ps (<[p := q ++ [m]]> Q) /\
    msgs s' = msgs s /\ mallocs s' = mallocs s.
Proof.
  intros Hinv Hq Hnp Hm. destruct (mi_queue _ _ _ Hinv _ _ Hq) as (x & Hx & Hr).
  assert (m ∉ q) as Hmq by (intros ?; apply Hnp; by exists p, q).
  destruct (pth_ring_append_spec _ _ _ (NMsg m) Hr) as (r' & h' & E & Hr' & Hd & Hf).
  { by apply (mi_msgs _ _ _ Hinv). }
  { by intros (m' & [= <-] & ?)%list_elem_of_fmap. }
  { rewrite length_fmap. by eapply queue_bound. }
  exists (set_queue p x r' h' s). split; [|split; [|done]].
  - unfold pth_msgport_put, on_queue. erewrite bind_run; [reflexivity|].
    rewrite (bind_run _ _ _ _ _ (get_port_run _ _ _ Hx)). by rewrite E.
  - eapply minv_queue; [done|done|done| |done| |].
    + by rewrite fmap_app.
    + intros b Hb. apply Hf. rewrite fmap_app in Hb. set_solver.
    + intros m' [?| ->%list_elem_of_singleton]%elem_of_app; [by left|by right].
Qed.

(** Receiving. *)
Lemma get_spec s Ps Q p m q :
  minv s Ps Q -> Q !! p = Some (m :: q) ->
  exists s', pth_msgport_get (Some p) s = Ok (Some m, s') /\ minv s' Ps (<[p := q]> Q) /\
    msgs s' = msgs s /\ mallocs s' = mallocs s.
Proof.
  intros Hinv Hq. destruct (mi_queue _ _ _ Hinv _ _ Hq) as (x & Hx & Hr).
  destruct (pth_ring_pop_spec _ _ (NMsg m) (fmap (M:=list) NMsg q) Hr) as (r' & h' & E & Hr' & Hd & Hf).
  exists (set_queue p x r' h' s). split; [|split; [|done]].
  - unfold pth_msgport_get. rewrite (bind_run _ _ _ _ _ (get_port_run _ _ _ Hx)).
    erewrite bind_run; [|rewrite E; reflexivity]. reflexivity.
  - eapply minv_queue; [done|done|done|done|done| |].
    + intros b Hb. apply Hf. set_solver.
    + intros m' Hm'. left. set_solver.
Qed.

Lemma get_empty s Ps Q p :
  minv s Ps Q -> Q !! p = Some [] ->
  exists s', pth_msgport_get (Some p) s = Ok (None, s') /\ minv s' Ps Q /\
    msgs s' = msgs s /\ mallocs s' = mallocs s.
Proof.
  intros Hinv Hq. destruct (mi_queue _ _ _ Hinv _ _ Hq) as (x & Hx & Hr).
  exists (set_queue p x (mp_queue x) (links s) s). split; [|split; [|done]].
  - unfold pth_msgport_get. rewrite (bind_run _ _ _ _ _ (get_port_run _ _ _ Hx)).
    erewrite bind_run; [|rewrite (pth_ring_pop_empty _ _ Hr); reflexivity]. reflexivity.
  - rewrite <- (insert_id Q p []) by done.
    eapply minv_queue; [done|done|done|done|done|done|]. intros m Hm. by left.
Qed.

(** ** Message queues *)

Inductive mp_op : Set := OPut (p m : nat) | OGet (p : nat) | OReply (m : nat) | OPending (p : nat).
Inductive mp_ret : Set := RBool (b : bool) | RMsg (m : option nat) | RNum (n : Z).

Definition mp_exec (op : mp_op) : M mstate mp_ret :=
  match op with
  | OPut p m => b ← pth_msgport_put (Some p) m; mret (RBool b)
  | OGet p => m ← pth_msgport_get (Some p); mret (RMsg m)
  | OReply m => b ← pth_msgport_reply (Some m); mret (RBool b)
  | OPending p => n ← pth_msgport_pending (Some p); mret (RNum n)
  end.

Fixpoint mp_run (ops : list mp_op) : M mstate (list mp_ret) :=
  match ops with
  | [] => mret []
  | op :: ops => r ← mp_exec op; rs ← mp_run ops; mret (r :: rs)
  end.

(** Queues of messages, with the reply ports [R] of the messages.  A message
    that is pending cannot be sent again. *)
Inductive mp_step (R : gmap nat pth_message_st) :
    gmap nat (list nat) -> mp_op -> mp_ret -> gmap nat (list nat) -> Prop :=
  | ms_put Q p q m :
      Q !! p = Some q -> ~ pending Q m -> is_Some (R !! m) ->
      mp_step R Q (OPut p m) (RBool true) (<[p := q ++ [m]]> Q)
  | ms_get Q p m q :
      Q !! p = Some (m :: q) -> mp_step R Q (OGet p) (RMsg (Some m)) (<[p := q]> Q)
  | ms_get_empty Q p : Q !! p = Some [] -> mp_step R Q (OGet p) (RMsg None) Q
  | ms_reply Q m p q :
      R !! m = Some (Message (Some p)) -> Q !! p = Some q -> ~ pending Q m ->
      mp_step R Q (OReply m) (RBool true) (<[p := q ++ [m]]> Q)
  | ms_reply_nowhere Q m :
      R !! m = Some (Message None) -> mp_step R Q (OReply m) (RBool false) Q
  | ms_pending Q p q :
      Q !! p = Some q -> mp_step R Q (OPending p) (RNum (Z.of_nat (length q))) Q.

Inductive mp_steps (R : gmap nat pth_message_st) :
    gmap nat (list nat) -> list mp_op -> list mp_ret -> gmap nat (list nat) -> Prop :=
  | mss_nil Q : mp_steps R Q [] [] Q
  | mss_cons Q op r Q' ops rs Q'' :
      mp_step R Q op r Q' -> mp_steps R Q' ops rs Q'' -> mp_steps R Q (op :: ops) (r :: rs) Q''.

Lemma reply_run s m x : msgs s !! m = Some x ->
  pth_msgport_reply (Some m) s = pth_msgport_put (m_replyport x) m s.
Proof.
  intros E. unfold pth_msgport_reply. rewrite (bind_run get _ _ _ _ eq_refl). rewrite E.
  by erewrite bind_run by reflexivity.
Qed.

Lemma mp_exec_step s Ps Q op r Q' :
  minv s Ps Q -> mp_step (msgs s) Q op r Q' ->
  exists s', mp_exec op s = Ok (r, s') /\ minv s' Ps Q' /\ msgs s' = msgs s.
Proof.
  intros Hinv Hst. destruct Hst; cbn [mp_exec].
  - destruct (put_spec s Ps Q p q m) as (s' & E & Hinv' & Hm & _); [done..|].
    exists s'. by rewrite (bind_run _ _ _ _ _ E).
  - destruct (get_spec s Ps Q p m q) as (s' & E & Hinv' & Hm & _); [done..|].
    exists s'. by rewrite (bind_run _ _ _ _ _ E).
  - destruct (get_empty s Ps Q p) as (s' & E & Hinv' & Hm & _); [done..|].
    exists s'. by rewrite (bind_run _ _ _ _ _ E).
  - destruct (put_spec s Ps Q p q m) as (s' & E & Hinv' & Hm & _); [by eauto..|].
    exists s'. split; [|done]. erewrite bind_run; [|erewrite reply_run by done; exact E]. done.
  - exists s. split; [|done]. erewrite bind_run; [|erewrite reply_run by done; reflexivity]. done.
  - destruct (mi_queue _ _ _ Hinv _ _ H) as (x & Hx & Hr & _). exists s. split; [|done].
    erewrite bind_run; [|unfold pth_msgport_pending; rewrite (bind_run _ _ _ _ _ (get_port_run _ _ _ Hx)); reflexivity].
    unfold pth_ring_elements. rewrite Hr, length_fmap. done.
Qed.

(** C22: message ports are first-in first-out queues: whatever sequence of
    sends, receives, replies and queries the threads issue, every receive
    yields the oldest message of its port, every reply goes to the end of the
    queue of the message's reply port, the counts are the numbers of pending
    messages, and no message is lost or duplicated. *)
Theorem msgport_fifo s Ps Q ops rs Q' :
  minv s Ps Q -> mp_steps (msgs s) Q ops rs Q' ->
  exists s', mp_run ops s = Ok (rs, s') /\ minv s' Ps Q' /\ msgs s' = msgs s.
Proof.
  intros Hinv Hst. remember (msgs s) as R eqn:HR. revert s HR Hinv.
  induction Hst as [Q|Q op r Q1 ops rs Q2 H1 _ IH]; intros s -> Hinv; [by exists s|].
  destruct (mp_exec_step _ _ _ _ _ _ Hinv H1) as (s1 & E1 & Hinv1 & Hm1).
  destruct (IH s1) as (s2 & E2 & Hinv2 & Hm2); [done|done|].
  exists s2. simpl. rewrite (bind_run _ _ _ _ _ E1), (bind_run _ _ _ _ _ E2).
  split; [done|]. split; [done|congruence].
Qed.

(** ** Creation *)

Lemma create_spec s Ps Q name p rest :
  minv s Ps Q -> mallocs s = Some p :: rest -> p ∉ Ps -> Z.of_nat (length Ps) + 1 < 2 ^ 32 ->
  exists s', pth_msgport_create (Some name) s = Ok (Some p, s') /\
    minv s' (Ps ++ [p]) (<[p := []]> Q) /\ msgs s' = msgs s /\ mallocs s' = rest /\
    (mp_name <$> ports s' !! p = Some name) /\
    (forall p', p' <> p -> ports s' !! p' = ports s !! p').
Proof.
  intros Hinv Hml Hp Hlen. destruct Hinv as [H1 H2 H3 H4 H5 H6 H7].
  set (h0 := <[NPort p := Link None None]> (links s)).
  assert (rng (pth_msgport s) h0 (NPort <$> Ps)) as Hr0.
  { eapply rng_agree; [|exact H1]. intros b Hb. unfold h0. rewrite lookup_insert_ne; [done|].
    intros <-. apply list_elem_of_fmap in Hb as (? & [= <-] & ?). done. }
  destruct (pth_ring_append_spec _ _ _ (NPort p) Hr0) as (r' & h' & E & Hr' & Hd & Hf).
  { unfold h0. rewrite lookup_insert_eq. eauto. }
  { by intros (p' & [= <-] & ?)%list_elem_of_fmap. }
  { by rewrite length_fmap. }
  assert (forall m, h' !! NMsg m = links s !! NMsg m) as Hfm.
  { intros m. rewrite Hf. { unfold h0. by rewrite lookup_insert_ne. }
    intros [?|(? & ? & _)%list_elem_of_fmap]%elem_of_cons; done. }
  eexists. split; [|split; [|split; [|split; [|split]]]].
  - unfold pth_msgport_create. erewrite bind_run; [|unfold malloc_port; rewrite Hml; reflexivity].
    cbv beta iota. rewrite (bind_run _ _ _ tt _ eq_refl).
    erewrite bind_run; [|unfold on_ports; cbn [pth_msgport links]; fold h0; rewrite E; reflexivity]. reflexivity.
  - split; cbn [links ports msgs pth_msgport mallocs].
    + by rewrite fmap_app.
    + intros p'. rewrite elem_of_app, list_elem_of_singleton, lookup_insert, H2.
      case_decide; subst; [split; eauto|]. split; [intros [?|?]; [done|congruence]|by left].
    + intros p' q. rewrite !lookup_insert. case_decide; subst.
      * intros [= <-]. eexists. split; [done|]. apply rng_init.
      * intros Hq. destruct (H3 _ _ Hq) as (x & Hx & Hr). exists x. split.
        { rewrite ?lookup_insert_ne by done. done. }
        eapply rng_agree; [|exact Hr]. intros b (m & -> & _)%list_elem_of_fmap. apply Hfm.
    + intros p1 p2 q1 q2 m. rewrite !lookup_insert. repeat case_decide; subst; try done.
      * intros [= <-] _ Hin. by apply not_elem_of_nil in Hin.
      * intros _ [= <-] _ Hin. by apply not_elem_of_nil in Hin.
      * apply H4.
    + intros m Hm. rewrite Hfm. by apply H5.
    + intros p' q m. rewrite lookup_insert. case_decide; [|apply H6].
      intros [= <-] Hin. by apply not_elem_of_nil in Hin.
    + done.
  - done.
  - done.
  - cbn [ports]. by rewrite lookup_insert_eq.
  - intros p' Hne. cbn [ports]. by rewrite !lookup_insert_ne.
Qed.

(** ** Destruction *)

(** The queues after the messages [q] were replied to. *)
Fixpoint replied (R : gmap nat pth_message_st) (q : list nat) (Q : gmap nat (list nat)) : gmap nat (list nat) :=
  match q with
  | [] => Q
  | m :: q =>
      replied R q
        (match R !! m ≫= m_replyport with
         | Some p => match Q !! p with Some q' => <[p := q' ++ [m]]> Q | None => Q end
         | None => Q
         end)
  end.

(** The reply port of a message exists, if it has one. *)
Definition reply_ok (R : gmap nat pth_message_st) (Q : gmap nat (list nat)) (m : nat) : Prop :=
  forall p, R !! m ≫= m_replyport = Some p -> is_Some (Q !! p).

(** One round of the loop. *)
Lemma reply_round s Ps Q p m q :
  minv s Ps Q -> Q !! p = Some (m :: q) -> reply_ok (msgs s) Q m ->
  exists s1 s2 b, pth_msgport_get (Some p) s = Ok (Some m, s1) /\
    pth_msgport_reply (Some m) s1 = Ok (b, s2) /\ msgs s2 = msgs s /\
    minv s2 Ps (match msgs s !! m ≫= m_replyport with
                | Some p' => match <[p := q]> Q !! p' with
                             | Some q' => <[p' := q' ++ [m]]> (<[p := q]> Q)
                             | None => <[p := q]> Q end
                | None => <[p := q]> Q
                end).
Proof.
  intros Hinv Hq Hok. destruct (get_spec _ _ _ _ _ _ Hinv Hq) as (s1 & E1 & Hinv1 & Hm1 & _).
  assert (is_Some (msgs s !! m)) as [x Hx].
  { eapply (mi_known _ _ _ Hinv); [exact Hq|]. set_solver. }
  assert (~ pending (<[p := q]> Q) m) as Hnp.
  { intros (p2 & q2 & Hq2 & Hin). rewrite lookup_insert in Hq2. case_decide; simplify_eq.
    - pose proof (queue_nodup _ _ _ Hinv _ _ Hq) as [? _]%NoDup_cons. done.
    - assert (p2 = p); [|done]. eapply (mi_only _ _ _ Hinv); [exact Hq2|exact Hq|done|set_solver]. }
  exists s1. unfold reply_ok in Hok. rewrite Hx in *.
  change (Some x ≫= m_replyport) with (m_replyport x) in *.
  rewrite (reply_run s1 m x) by congruence.
  destruct (m_replyport x) as [p'|] eqn:Ep.
  - destruct (Hok p' eq_refl) as [q0 Hq0].
    assert (exists q', <[p := q]> Q !! p' = Some q') as [q' Hq'].
    { rewrite lookup_insert. case_decide; eauto. }
    destruct (put_spec s1 Ps _ p' q' m Hinv1 Hq' Hnp) as (s2 & E2 & Hinv2 & Hm2 & _).
    { rewrite Hm1. eauto. }
    exists s2, true. rewrite Hq'. split_and!; [done|done|congruence|done].
  - exists s1, false. split_and!; done.
Qed.

(** The loop replies to the messages in order and ends. *)
Lemma reply_all_spec fuel s Ps Q p q :
  minv s Ps Q -> Q !! p = Some q -> (length q <= fuel)%nat ->
  (forall m, m ∈ q -> reply_ok (msgs s) Q m /\ msgs s !! m ≫= m_replyport <> Some p) ->
  exists s', reply_all fuel p s = Ok (tt, s') /\ msgs s' = msgs s /\
    minv s' Ps (replied (msgs s) q (<[p := []]> Q)).
Proof.
  revert s Q q. induction fuel as [|fuel IH]; intros s Q q Hinv Hq Hf Hok;
    (destruct q as [|m q]; [destruct (get_empty _ _ _ _ Hinv Hq) as (s1 & E1 & Hinv1 & Hm1 & _);
      exists s1; simpl; rewrite (bind_run _ _ _ _ _ E1), insert_id by done; done|simpl in Hf]); [lia|].
  destruct (Hok m ltac:(set_solver)) as [Hok1 Hne1].
  destruct (reply_round _ _ _ _ _ _ Hinv Hq Hok1) as (s1 & s2 & b & E1 & E2 & Hm2 & Hinv2).
  cbn [reply_all]. rewrite (bind_run _ _ _ _ _ E1), (bind_run _ _ _ _ _ E2).
  cbn [replied].
  destruct (msgs s !! m ≫= m_replyport) as [p'|] eqn:Ep.
  - destruct (Hok1 p' Ep) as [q0 Hq0]. assert (p' <> p) as Hpp by congruence.
    rewrite lookup_insert_ne, Hq0 in Hinv2 by done.
    rewrite (lookup_insert_ne _ p p') by done. rewrite Hq0.
    destruct (IH s2 (<[p' := q0 ++ [m]]> (<[p := q]> Q)) q Hinv2) as (s3 & E3 & Hm3 & Hinv3).
    + rewrite lookup_insert_ne, lookup_insert_eq by done. done.
    + lia.
    + intros m' Hm'. destruct (Hok m' ltac:(set_solver)) as [Ho Hn]. rewrite Hm2. split; [|done].
      intros p2 Hp2. rewrite !lookup_insert. repeat case_decide; eauto.
    + exists s3. split; [done|]. rewrite Hm2 in *. split; [done|].
      rewrite (insert_insert_ne _ p p'), insert_insert_eq in Hinv3 by done.
      exact Hinv3.
  - destruct (IH s2 (<[p := q]> Q) q Hinv2) as (s3 & E3 & Hm3 & Hinv3).
    + by rewrite lookup_insert_eq.
    + lia.
    + intros m' Hm'. destruct (Hok m' ltac:(set_solver)) as [Ho Hn]. rewrite Hm2. split; [|done].
      intros p2 Hp2. rewrite !lookup_insert. repeat case_decide; eauto.
    + exists s3. split; [done|]. rewrite Hm2 in *. split; [done|]. by rewrite insert_insert_eq in Hinv3.
Qed.

Lemma minv_remove s Ps1 p Ps2 Q r' h' :
  minv s (Ps1 ++ p :: Ps2) Q -> Q !! p = Some [] ->
  rng r' h' (NPort <$> Ps1 ++ Ps2) -> same_dom (links s) h' ->
  (forall m, h' !! NMsg m = links s !! NMsg m) -> p ∉ Ps1 ++ Ps2 ->
  minv (MState (delete (NPort p) h') (delete p (ports s)) (msgs s) r' (current s) (mallocs s))
    (Ps1 ++ Ps2) (delete p Q).
Proof.
  intros [H1 H2 H3 H4 H5 H6 H7] Hq Hr Hd Hf Hp. split; cbn [links ports msgs pth_msgport].
  - eapply rng_agree; [|exact Hr]. intros b (p' & -> & Hp')%list_elem_of_fmap.
    rewrite lookup_delete_ne; [done|]. intros [= ->]. done.
  - intros p'. rewrite lookup_delete. specialize (H2 p'). rewrite elem_of_app, elem_of_cons in H2.
    rewrite elem_of_app in *. case_decide; subst.
    + split; [tauto|by intros []].
    + rewrite <- H2. naive_solver.
  - intros p' q [Hne Hq']%lookup_delete_Some. destruct (H3 _ _ Hq') as (x & Hx & Hrx).
    exists x. split; [by rewrite lookup_delete_ne|].
    eapply rng_agree; [|exact Hrx]. intros b (m & -> & _)%list_elem_of_fmap.
    by rewrite lookup_delete_ne, Hf.
  - intros p1 p2 q1 q2 m [_ Q1]%lookup_delete_Some [_ Q2]%lookup_delete_Some. by eapply H4.
  - intros m Hm. rewrite lookup_delete_ne, Hf by done. by apply H5.
  - intros p' q m [_ Q1]%lookup_delete_Some. by eapply H6.
  - done.
Qed.

Lemma replied_other R q Q p : (forall m, m ∈ q -> R !! m ≫= m_replyport <> Some p) ->
  replied R q Q !! p = Q !! p.
Proof.
  revert Q. induction q as [|m q IH]; intros Q Hm; [done|]. simpl. rewrite IH by set_solver.
  specialize (Hm m ltac:(set_solver)).
  destruct (R !! m ≫= m_replyport) as [p'|]; [|done]. destruct (Q !! p'); [|done].
  rewrite lookup_insert_ne by congruence. done.
Qed.

(** destroying a port first returns every pending message, oldest first,
    to the end of the queue of its reply port (messages without one are
    dropped), then removes the port from the ring of ports; nothing happens
    to the other ports. *)
Theorem msgport_destroy_spec fuel s Ps1 p Ps2 Q q :
  minv s (Ps1 ++ p :: Ps2) Q -> Q !! p = Some q -> (length q <= fuel)%nat ->
  (forall m, m ∈ q -> reply_ok (msgs s) Q m /\ msgs s !! m ≫= m_replyport <> Some p) ->
  exists s', pth_msgport_destroy fuel (Some p) s = Ok (tt, s') /\
    minv s' (Ps1 ++ Ps2) (delete p (replied (msgs s) q (<[p := []]> Q))).
Proof.
  intros Hinv Hq Hf Hok.
  destruct (reply_all_spec _ _ _ _ _ _ Hinv Hq Hf Hok) as (s1 & E1 & Hm1 & Hinv1).
  set (Q1 := replied (msgs s) q (<[p := []]> Q)) in *.
  assert (Q1 !! p = Some []) as Hq1.
  { unfold Q1. rewrite replied_other; [apply lookup_insert_eq|]. intros m Hm. by apply Hok. }
  pose proof (mi_ports _ _ _ Hinv1) as Hr. pose proof (rng_nodup _ _ _ Hr) as Hnd.
  apply (NoDup_fmap_1 NPort) in Hnd.
  rewrite fmap_app in Hr.
  destruct (pth_ring_delete_spec _ _ (fmap (M:=list) NPort Ps1) (NPort p) (fmap (M:=list) NPort Ps2) Hr)
    as (r' & h' & E2 & Hr2 & Hd2 & Hf2).
  rewrite <- fmap_app in Hr2, Hf2.
  eexists. split.
  - unfold pth_msgport_destroy. rewrite (bind_run _ _ _ _ _ E1).
    erewrite bind_run; [|unfold on_ports; rewrite E2; reflexivity]. reflexivity.
  - apply (minv_remove s1); [done|done|done|done| |].
    + intros m. apply Hf2. right. intros (? & ? & _)%list_elem_of_fmap. done.
    + rewrite <- Permutation_middle in Hnd. by apply NoDup_cons in Hnd as [Hnd _].
Qed.

(** when a pending message names the port itself as its reply port, the
    destruction of the port never ends: every reply puts the message back on
    the queue that is being emptied. *)
Theorem msgport_destroy_self_reply fuel s Ps Q p q m :
  minv s Ps Q -> Q !! p = Some q -> m ∈ q -> msgs s !! m ≫= m_replyport = Some p ->
  (forall m', m' ∈ q -> reply_ok (msgs s) Q m') ->
  pth_msgport_destroy fuel (Some p) s = Err Stuck.
Proof.
  intros Hinv Hq Hm Hself Hok. unfold pth_msgport_destroy.
  assert (reply_all fuel p s = Err Stuck) as E; [|unfold mbind, M_bind; by rewrite E].
  revert s Q q Hinv Hq Hm Hself Hok. induction fuel as [|fuel IH]; intros s Q q Hinv Hq Hm Hself Hok.
  - destruct q as [|m0 q]; [by apply not_elem_of_nil in Hm|].
    destruct (get_spec _ _ _ _ _ _ Hinv Hq) as (s1 & E1 & _). cbn [reply_all].
    by rewrite (bind_run _ _ _ _ _ E1).
  - destruct q as [|m0 q]; [by apply not_elem_of_nil in Hm|].
    destruct (reply_round _ _ _ _ _ _ Hinv Hq (Hok m0 ltac:(set_solver)))
      as (s1 & s2 & b & E1 & E2 & Hm2 & Hinv2).
    cbn [reply_all]. rewrite (bind_run _ _ _ _ _ E1), (bind_run _ _ _ _ _ E2).
    assert (forall Q2, (forall p2, is_Some (Q !! p2) -> is_Some (Q2 !! p2)) ->
      forall m', m' ∈ m0 :: q -> reply_ok (msgs s2) Q2 m') as Hok2.
    { intros Q2 HQ2 m' Hm' p2 Hp2. apply HQ2. rewrite Hm2 in Hp2. by apply (Hok m'). }
    destruct (msgs s !! m0 ≫= m_replyport) as [p'|] eqn:Ep.
    + destruct (<[p := q]> Q !! p') as [q'|] eqn:Eq'.
      * destruct (decide (p' = p)) as [->|Hpp].
        -- rewrite lookup_insert_eq in Eq'. injection Eq' as <-. rewrite insert_insert_eq in Hinv2.
           apply (IH s2 _ (q ++ [m0]) Hinv2); [apply lookup_insert_eq|set_solver|by rewrite Hm2|].
           intros m' Hm'. apply Hok2; [|set_solver]. intros p2. rewrite lookup_insert. case_decide; eauto.
        -- assert (m ∈ q) as Hmq.
           { apply elem_of_cons in Hm as [->|?]; [|done]. congruence. }
           apply (IH s2 _ q Hinv2); [by rewrite lookup_insert_ne, lookup_insert_eq|done|by rewrite Hm2|].
           intros m' Hm'. apply Hok2; [|set_solver]. intros p2.
           rewrite !lookup_insert. repeat case_decide; eauto.
      * exfalso. destruct (Hok m0 ltac:(set_solver) p' Ep) as [q0 Hq0].
        rewrite lookup_insert in Eq'. case_decide; simplify_eq.
    + assert (m ∈ q) as Hmq. { apply elem_of_cons in Hm as [->|?]; [|done]. congruence. }
      apply (IH s2 _ q Hinv2); [apply lookup_insert_eq|done|by rewrite Hm2|].
      intros m' Hm'. apply Hok2; [|set_solver]. intros p2. rewrite lookup_insert. case_decide; eauto.
Qed.

(** ** Search *)

(** The first port of the list with the name. *)
Fixpoint first_named (names : nat -> option string) (name : string) (Ps : list nat) : option nat :=
  match Ps with
  | [] => None
  | p :: Ps => if bool_decide (names p = Some name) then Some p else first_named names name Ps
  end.

Lemma ring_next_spec (r : pth_ring_t mnode) h a xs y ys :
  r_hook r = Some a -> ring h a (xs ++ ys) -> hd_error (rev (a :: xs)) = Some y ->
  pth_ring_next r h (Some y) = Ok (head ys).
Proof.
  intros Hh Hr Hy. unfold pth_ring_next. rewrite Hh.
  assert (nxt h y = Some (hd a ys)) as Hn.
  { destruct xs as [|x xs _] using rev_ind; simpl in Hy.
    - injection Hy as <-. by apply ring_next.
    - rewrite rev_app_distr in Hy. simpl in Hy. injection Hy as <-.
      rewrite <- app_assoc in Hr. simpl in Hr. apply ring_rotate in Hr. apply ring_next in Hr.
      rewrite Hr. destruct ys; done. }
  rewrite (get_next_spec _ _ _ Hn). simpl. destruct ys as [|z ys]; simpl.
  - by rewrite bool_decide_eq_true_2.
  - rewrite bool_decide_eq_false_2; [done|]. intros [= <-].
    apply ring_nodup in Hr as [Ha _]%NoDup_cons. set_solver.
Qed.

Lemma find_scan_spec s Ps Q a xs y ys fuel name :
  minv s Ps Q -> Ps = a :: xs ++ ys -> hd_error (rev (a :: xs)) = Some y -> (length ys < fuel)%nat ->
  find_scan fuel name (Some (NPort y)) (Some (NPort a)) s =
    Ok (first_named (fun p => mp_name <$> ports s !! p) name (y :: ys), s).
Proof.
  intros Hinv. revert xs y ys. induction fuel as [|fuel IH]; intros xs y ys HPs Hy Hf; [lia|].
  assert (y ∈ Ps) as Hin.
  { rewrite HPs. assert (y ∈ a :: xs) as Hyx; [|set_solver].
    rewrite <- (rev_involutive (a :: xs)). destruct (rev (a :: xs)) as [|z l]; [done|].
    injection Hy as ->. simpl. set_solver. }
  destruct (proj1 (mi_dom _ _ _ Hinv y) Hin) as [q Hq].
  destruct (mi_queue _ _ _ Hinv _ _ Hq) as (x & Hx & _).
  pose proof (mi_ports _ _ _ Hinv) as (_ & _ & Hr). rewrite HPs in Hr. simpl in Hr.
  destruct Hr as [Hh Hr]. change ((fix go (l : list nat) : list mnode := _) (xs ++ ys)) with (NPort <$> (xs ++ ys)) in Hr.
  rewrite fmap_app in Hr.
  assert (pth_ring_next (pth_msgport s) (links s) (Some (NPort y)) = Ok (head (NPort <$> ys))) as En.
  { eapply ring_next_spec; [exact Hh|exact Hr|].
    change (NPort a :: (NPort <$> xs)) with (map NPort (a :: xs)). rewrite <- map_rev.
    destruct (rev (a :: xs)); [done|]. by injection Hy as ->. }
  cbn [find_scan first_named]. rewrite (bind_run _ _ _ _ _ (get_port_run _ _ _ Hx)).
  rewrite Hx. simpl. rewrite (bool_decide_ext (Some (mp_name x) = Some name) (mp_name x = name)) by naive_solver.
  case_bool_decide; [done|]. erewrite bind_run; [|by rewrite En].
  destruct ys as [|z ys]; simpl.
  - destruct fuel; done.
  - rewrite bool_decide_eq_false_2.
    + rewrite (IH (xs ++ [z]) z ys); [done|by rewrite <- app_assoc| |simpl in Hf; lia].
      change (a :: xs ++ [z]) with ((a :: xs) ++ [z]). by rewrite rev_app_distr.
    + intros [= ->]. pose proof (mi_ports _ _ _ Hinv) as Hnd%rng_nodup.
      apply (NoDup_fmap_1 NPort) in Hnd. rewrite HPs in Hnd. apply NoDup_cons in Hnd as [Hnd _]. set_solver.
Qed.

(** [pth_msgport_find] returns the oldest port with the given name, and
    NULL exactly when there is none; it visits every port at most once. *)
Theorem msgport_find_spec s Ps Q fuel name :
  minv s Ps Q -> (length Ps <= fuel)%nat ->
  pth_msgport_find fuel (Some name) s =
    Ok (first_named (fun p => mp_name <$> ports s !! p) name Ps, s).
Proof.
  intros Hinv Hf. unfold pth_msgport_find. rewrite (bind_run get _ _ _ _ eq_refl).
  pose proof (mi_ports _ _ _ Hinv) as (_ & _ & Hr). unfold pth_ring_first.
  destruct Ps as [|a ys]; simpl in Hr; [rewrite Hr; by destruct fuel|].
  destruct Hr as [-> _]. apply (find_scan_spec s (a :: ys) Q a [] a ys); [done..|simpl in Hf; lia].
Qed.

(** ** Instances *)

(** No ports; two messages, the second with reply port 7, the third one with
    reply port 9. *)
Definition mstart : mstate :=
  MState {[ NMsg 1 := Link None None; NMsg 2 := Link None None; NMsg 3 := Link None None ]} ∅
    {[ 1%nat := Message None; 2%nat := Message (Some 7%nat); 3%nat := Message (Some 9%nat) ]}
    pth_ring_init None [Some 7%nat; Some 9%nat].

Lemma mstart_inv : minv mstart [] ∅.
Proof.
  split; cbn [mstart links ports msgs pth_msgport].
  - apply rng_init.
  - intros p. rewrite lookup_empty. split; [by intros ?%not_elem_of_nil|by intros []].
  - intros p q. by rewrite lookup_empty.
  - intros p p' q q' m. by rewrite lookup_empty.
  - intros m [x Hx]. rewrite !lookup_insert_Some in Hx.
    destruct Hx as [[<- _]|[_ [[<- _]|[_ [<- _]%lookup_singleton_Some]]]]; eexists; reflexivity.
  - intros p q m. by rewrite lookup_empty.
  - reflexivity.
Qed.

(** The ports 7 and 9 exist. *)
Lemma two_ports :
  exists s, minv s [7%nat; 9%nat] {[ 7%nat := []; 9%nat := [] ]} /\ msgs s = msgs mstart /\
    (mp_name <$> ports s !! 7%nat = Some "a"%string) /\ (mp_name <$> ports s !! 9%nat = Some "b"%string).
Proof.
  destruct (create_spec mstart [] ∅ "a" 7 [Some 9%nat] mstart_inv eq_refl) as (s1 & E1 & I1 & M1 & A1 & N1 & _);
    [by apply not_elem_of_nil|done|].
  destruct (create_spec s1 [7%nat] (<[7%nat := []]> ∅) "b" 9 [] I1 A1) as (s2 & E2 & I2 & M2 & _ & N2 & O2);
    [set_solver|done|].
  exists s2. split_and!; [|congruence|by rewrite O2|done].
  rewrite insert_insert_ne in I2 by done. exact I2.
Qed.

Lemma msgport_fifo_witness :
  exists s s', minv s [7%nat; 9%nat] {[ 7%nat := []; 9%nat := [] ]} /\
    mp_run [OPut 9 1; OPut 9 2; OGet 9; OPending 9] s =
      Ok ([RBool true; RBool true; RMsg (Some 1%nat); RNum 1], s').
Proof.
  destruct two_ports as (s & Hinv & Hm & _). exists s.
  destruct (msgport_fifo s _ _ [OPut 9 1; OPut 9 2; OGet 9; OPending 9]
    [RBool true; RBool true; RMsg (Some 1%nat); RNum 1]
    (<[9%nat := [2%nat]]> (<[9%nat := [1%nat; 2%nat]]> (<[9%nat := [1%nat]]> {[ 7%nat := []; 9%nat := [] ]}))) Hinv)
    as (s' & E & _).
  - rewrite Hm. econstructor.
    { apply (ms_put _ _ 9 []); [reflexivity| |by eexists].
      intros (p & q & Hq & Hin). apply lookup_insert_Some in Hq as [[_ <-]|[_ [_ <-]%lookup_singleton_Some]];
        by apply not_elem_of_nil in Hin. }
    econstructor.
    { apply (ms_put _ _ 9 [1%nat]); [reflexivity| |by eexists].
      intros (p & q & Hq & Hin). apply lookup_insert_Some in Hq as [[_ <-]|[_ Hq]]; [set_solver|].
      apply lookup_insert_Some in Hq as [[_ <-]|[_ [_ <-]%lookup_singleton_Some]];
        by apply not_elem_of_nil in Hin. }
    econstructor; [apply (ms_get _ _ 9 1 [2%nat]); reflexivity|].
    econstructor; [apply (ms_pending _ _ 9 [2%nat]); reflexivity|constructor].
  - exists s'. split; [exact Hinv|exact E].
Defined.

Lemma msgport_find_spec_witness :
  exists s, pth_msgport_find 2 (Some "b"%string) s = Ok (Some 9%nat, s).
Proof.
  destruct two_ports as (s & Hinv & Hm & N1 & N2). exists s.
  rewrite (msgport_find_spec s [7%nat; 9%nat] _ 2 "b" Hinv); [|simpl; lia].
  simpl. rewrite N1, N2. reflexivity.
Defined.

(** Message 3 (reply port 9) is sent to port 7 or to port 9 itself. *)
Lemma one_pending p : p = 7%nat \/ p = 9%nat ->
  exists s, minv s [7%nat; 9%nat] (<[p := [3%nat]]> {[ 7%nat := []; 9%nat := [] ]}) /\ msgs s = msgs mstart.
Proof.
  intros Hp. destruct two_ports as (s & Hinv & Hm & _).
  destruct (put_spec s _ _ p [] 3 Hinv) as (s' & E & Hinv' & Hm' & _).
  - by destruct Hp as [->| ->].
  - intros (p' & q & Hq & Hin). apply lookup_insert_Some in Hq as [[_ <-]|[_ [_ <-]%lookup_singleton_Some]];
      by apply not_elem_of_nil in Hin.
  - rewrite Hm. by eexists.
  - exists s'. split; [exact Hinv'|congruence].
Qed.

Lemma msgport_destroy_spec_witness :
  exists s s', pth_msgport_destroy 1 (Some 7%nat) s = Ok (tt, s') /\
    minv s' [9%nat] {[ 9%nat := [3%nat] ]}.
Proof.
  destruct (one_pending 7 ltac:(by left)) as (s & Hinv & Hm). exists s.
  destruct (msgport_destroy_spec 1 s [] 7 [9%nat] _ [3%nat] Hinv) as (s' & E & Hinv').
  - apply lookup_insert_eq.
  - simpl. lia.
  - intros m ->%list_elem_of_singleton. rewrite Hm. split; [|discriminate].
    intros p [= <-]. by eexists.
  - exists s'. split; [exact E|]. rewrite Hm in Hinv'. exact Hinv'.
Defined.

Lemma msgport_destroy_self_reply_witness :
  exists s, pth_msgport_destroy 1000 (Some 9%nat) s = Err Stuck.
Proof.
  destruct (one_pending 9 ltac:(by right)) as (s & Hinv & Hm). exists s.
  apply (msgport_destroy_self_reply 1000 s _ _ 9 [3%nat] 3 Hinv).
  - apply lookup_insert_eq.
  - set_solver.
  - rewrite Hm. reflexivity.
  - intros m ->%list_elem_of_singleton p Hp. rewrite Hm in Hp. injection Hp as <-. by eexists.
Defined.
