(* ===== verification/Clean.v ===== *)
(** * Cleanup handlers (pth_clean.c)

    Every thread has a stack of cleanup handlers, linked from [cleanups].
    The first five records are members of the thread control block
    ([cleanup_buf]), deeper ones come from the allocator; [cleanup_count]
    counts the records.  A handler is a function of the program, given by a
    number; what it does is a parameter of the operations that call it, and
    the calls are recorded in [calls].  The allocator is used through its
    interface. *)

From S2P Require Import Prelude Bitmap Dll LinkedList Alloc Allocator.

Definition PTH_CLEANUP_COUNT : Z := 5.

(** [sizeof(pth_cleanup_t)]: a function, an argument, a type and a link. *)
Definition sizeof_cleanup : Z := 16.

(** The address of a record. *)
Inductive caddr : Set :=
  | Buf (t : nat) (i : nat)    (** [&t->cleanup_buf[i]] *)
  | Heap (a : Z).

#[global] Instance caddr_eq_dec : EqDecision caddr.
Proof. solve_decision. Defined.

Record pth_cleanup_st : Set := Cleanup { func : nat; arg : Z; next : option caddr }.

Record cthread : Set := CThread {
  cleanups : option caddr;
  cleanup_count : Z;
  cleanup_buf : list pth_cleanup_st }.

Section clean.
Context {S : Type} `{Allocator S}.

Record cstate : Type := CState {
  threads : gmap nat cthread;
  heap : gmap Z pth_cleanup_st;
  current : option nat;             (** [pth_get_current()] *)
  calls : list (nat * Z);
  alloc : S }.

Definition set_threads (f : gmap nat cthread -> gmap nat cthread) (s : cstate) : cstate :=
  CState (f (threads s)) (heap s) (current s) (calls s) (alloc s).
Definition set_heap (f : gmap Z pth_cleanup_st -> gmap Z pth_cleanup_st) (s : cstate) : cstate :=
  CState (threads s) (f (heap s)) (current s) (calls s) (alloc s).

Definition get_thread (p : option nat) : M cstate (nat * cthread) :=
  s ← get; t ← of_option BadDeref p; x ← of_option BadDeref (threads s !! t); mret (t, x).
Definition put_thread (t : nat) (x : cthread) : M cstate unit :=
  modify (set_threads (fun m => <[t := x]> m)).

Definition read_record (s : cstate) (a : caddr) : option pth_cleanup_st :=
  match a with
  | Buf t i => threads s !! t ≫= fun x => cleanup_buf x !! i
  | Heap z => heap s !! z
  end.
Definition get_record (a : caddr) : M cstate pth_cleanup_st :=
  s ← get; of_option BadDeref (read_record s a).
Definition put_record (a : caddr) (r : pth_cleanup_st) : M cstate unit :=
  match a with
  | Buf t i => modify (set_threads (alter (fun x =>
      CThread (cleanups x) (cleanup_count x) (<[i := r]> (cleanup_buf x))) t))
  | Heap z => modify (set_heap (fun m => <[z := r]> m))
  end.

Definition on_alloc {A} : M S A -> M cstate A :=
  zoom alloc (fun a s => CState (threads s) (heap s) (current s) (calls s) a).

(** [pth_free_mem(cleanup, sizeof ( *cleanup))]: releasing a record that the
    allocator did not hand out is not defined. *)
Definition free_record (a : caddr) : M cstate unit :=
  match a with
  | Buf _ _ => fail Undefined
  | Heap z => on_alloc (al_free z sizeof_cleanup);; modify (set_heap (delete z))
  end.

(** ** Operations *)

Definition pth_cleanup_push (f : option nat) (v : Z) : M cstate bool :=
  s ← get;
  match f with
  | None => mret false
  | Some f =>
      '(t, x) ← get_thread (current s);
      p ← (if bool_decide (cleanup_count x < PTH_CLEANUP_COUNT) then
             (* the array is indexed by the count *)
             if bool_decide (0 <= cleanup_count x) then mret (Some (Buf t (Z.to_nat (cleanup_count x))))
             else fail OutOfBounds
           else
             r ← on_alloc (al_malloc sizeof_cleanup);
             mret (Heap <$> r));
      match p with
      | None => mret false
      | Some a =>
          put_thread t (CThread (cleanups x) (swrap 32 (cleanup_count x + 1)) (cleanup_buf x));;
          put_record a (Cleanup f v (cleanups x));;
          '(_, x) ← get_thread (Some t);
          put_thread t (CThread (Some a) (cleanup_count x) (cleanup_buf x));;
          mret true
      end
  end.

Section handlers.
(** What a handler does. *)
Context (call : nat -> Z -> M cstate unit).

Definition run_handler (f : nat) (v : Z) : M cstate unit :=
  modify (fun s => CState (threads s) (heap s) (current s) (calls s ++ [(f, v)]) (alloc s));;
  call f v.

(** The part of a pop after the record was taken off the stack: run it,
    release it if the count of the thread [c] says that it is a deep one, and
    count down. *)
Definition drop_record (c : option nat) (a : caddr) (execute : bool) : M cstate unit :=
  (if execute then r ← get_record a; run_handler (func r) (arg r) else mret tt);;
  '(_, x) ← get_thread c;
  (if bool_decide (cleanup_count x > PTH_CLEANUP_COUNT) then free_record a else mret tt);;
  '(c', x) ← get_thread c;
  put_thread c' (CThread (cleanups x) (swrap 32 (cleanup_count x - 1)) (cleanup_buf x)).

(** [t->cleanups = cleanup->next] *)
Definition unlink_top (t : nat) (a : caddr) : M cstate unit :=
  r ← get_record a;
  '(_, x) ← get_thread (Some t);
  put_thread t (CThread (next r) (cleanup_count x) (cleanup_buf x)).

Definition pth_cleanup_pop (execute : bool) : M cstate bool :=
  s ← get;
  '(t, x) ← get_thread (current s);
  match cleanups x with
  | None => mret false
  | Some a => unlink_top t a;; drop_record (Some t) a execute;; mret true
  end.

(** The loop of [pth_cleanup_popall]; [c] is the current thread. *)
Fixpoint popall_loop (fuel : nat) (c : option nat) (t : nat) (execute : bool) : M cstate unit :=
  '(_, x) ← get_thread (Some t);
  match cleanups x with
  | None => mret tt
  | Some a =>
      match fuel with
      | O => fail Stuck
      | Datatypes.S fuel =>
          unlink_top t a;;
          drop_record c a execute;;
          popall_loop fuel c t execute
      end
  end.

Definition pth_cleanup_popall (fuel : nat) (t : nat) (execute : bool) : M cstate unit :=
  s ← get; popall_loop fuel (current s) t execute.
End handlers.

(** ** Invariant

    The stack of a thread: the records from the top, with their addresses. *)

Abbreviation stack := (list (caddr * nat * Z)).

Fixpoint linked (s : cstate) (p : option caddr) (st : stack) : Prop :=
  match st with
  | [] => p = None
  | (a, f, v) :: st' =>
      p = Some a /\ exists n, read_record s a = Some (Cleanup f v n) /\ linked s n st'
  end.

(** The record with [n] others below it is at its place: in the control block
    of its thread, or in a block of its own. *)
Definition placed (L : gmap Z Z) (t : nat) (n : nat) (a : caddr) : Prop :=
  if decide (n < 5)%nat then a = Buf t n
  else exists z, a = Heap z /\ L !! z = Some sizeof_cleanup.

Fixpoint places (L : gmap Z Z) (t : nat) (st : stack) : Prop :=
  match st with
  | [] => True
  | (a, _, _) :: st' => placed L t (length st') a /\ places L t st'
  end.

Definition addrs (st : stack) : list caddr := (fun e => e.1.1) <$> st.

(** [G]: the stacks of all threads; [L]: the blocks in use. *)
Record cinv (s : cstate) (G : gmap nat stack) (L : gmap Z Z) : Prop := {
  ci_live : al_live (alloc s) L;
  ci_thread : forall t st, G !! t = Some st -> exists x, threads s !! t = Some x /\
    length (cleanup_buf x) = 5%nat /\ cleanup_count x = Z.of_nat (length st) /\
    Z.of_nat (length st) < 2 ^ 31 - 1 /\ linked s (cleanups x) st /\ places L t st;
  ci_nodup : forall t st, G !! t = Some st -> NoDup (addrs st);
  ci_apart : forall t t' st st' a, G !! t = Some st -> G !! t' = Some st' ->
    a ∈ addrs st -> a ∈ addrs st' -> t = t' }.

(** The members of a stack are where [places] says. *)
Lemma places_elem L t st a : places L t st -> a ∈ addrs st ->
  (exists n, (n < 5)%nat /\ (n < length st)%nat /\ a = Buf t n) \/
  (exists z, a = Heap z /\ L !! z = Some sizeof_cleanup).
Proof.
  induction st as [|[[a' f] v] st IH]; simpl; [set_solver|].
  intros [Hp Hps] [->|Ha]%elem_of_cons.
  - unfold placed in Hp. case_decide; [|by right]. left. exists (length st). split_and!; [done|lia|done].
  - destruct (IH Hps Ha) as [(n & ? & ? & ?)|?]; [|by right]. left. exists n. split_and!; [done|lia|done].
Qed.

(** A stack is unaffected by writes to other records. *)
Lemma linked_frame s s' p st :
  (forall a, a ∈ addrs st -> read_record s' a = read_record s a) -> linked s p st -> linked s' p st.
Proof.
  revert p. induction st as [|[[a f] v] st IH]; simpl; intros p Hr; [done|].
  intros (-> & n & Hn & Hl). split; [done|]. exists n. rewrite Hr by set_solver. split; [done|].
  apply IH; [|done]. intros b Hb. apply Hr. set_solver.
Qed.

Lemma places_mono L L' t st :
  (forall z, Heap z ∈ addrs st -> L' !! z = L !! z) -> places L t st -> places L' t st.
Proof.
  induction st as [|[[a f] v] st IH]; simpl; intros HL; [done|]. intros [Hp Hps]. split.
  - unfold placed in *. case_decide; [done|]. destruct Hp as (z & -> & Hz). exists z.
    rewrite HL by set_solver. done.
  - apply IH; [|done]. intros z Hz. apply HL. set_solver.
Qed.

(** What changes of the thread [t]: its stack becomes [st']; the records of
    the other stacks and the other threads keep their values. *)
Lemma cinv_update s s' G L L' t st x st' :
  cinv s G L -> G !! t = Some st -> al_live (alloc s') L' ->
  threads s' !! t = Some x -> length (cleanup_buf x) = 5%nat ->
  cleanup_count x = Z.of_nat (length st') -> Z.of_nat (length st') < 2 ^ 31 - 1 ->
  linked s' (cleanups x) st' -> places L' t st' -> NoDup (addrs st') ->
  (forall t', t' <> t -> threads s' !! t' = threads s !! t') ->
  (forall t' u a, G !! t' = Some u -> t' <> t -> a ∈ addrs u ->
     a ∉ addrs st' /\ read_record s' a = read_record s a /\
     forall z, a = Heap z -> L' !! z = L !! z) ->
  cinv s' (<[t := st']> G) L'.
Proof.
  intros Hinv HG Hlive Hx Hb Hc Hlt Hl Hp Hnd Hth Hoth. split; [done| | |].
  - intros t' u. rewrite lookup_insert. case_decide as E.
    + intros [= <-]. subst t'. by exists x.
    + intros Hu. destruct (ci_thread _ _ _ Hinv _ _ Hu) as (y & Hy & B1 & B2 & B3 & B4 & B5).
      assert (t' <> t) as Hne by congruence. exists y. rewrite Hth by done. split_and!; [done..| |].
      * eapply linked_frame; [|exact B4]. intros a Ha. by destruct (Hoth t' u a Hu Hne Ha) as (_ & ? & _).
      * eapply places_mono; [|exact B5]. intros z Hz. by apply (Hoth t' u (Heap z) Hu Hne Hz).
  - intros t' u. rewrite lookup_insert. case_decide; [by intros [= <-]|]. by apply (ci_nodup _ _ _ Hinv).
  - intros t1 t2 u1 u2 a. rewrite !lookup_insert. repeat case_decide; intros; simplify_eq; try done.
    + exfalso. destruct (Hoth t2 u2 a) as [? _]; [done|congruence|done|done].
    + exfalso. destruct (Hoth t1 u1 a) as [? _]; [done|congruence|done|done].
    + by eapply (ci_apart _ _ _ Hinv).
Qed.
(** ** Push *)

Lemma get_cthread_run s t x : threads s !! t = Some x -> get_thread (Some t) s = Ok ((t, x), s).
Proof. intros E. unfold get_thread, get, of_option, mbind, M_bind. by rewrite E. Qed.

Lemma put_record_read s a r s' : put_record a r s = Ok (tt, s') ->
  (match a with Buf t i => exists x, threads s !! t = Some x /\ (i < length (cleanup_buf x))%nat | _ => True end) ->
  read_record s' a = Some r /\ (forall b, b <> a -> read_record s' b = read_record s b).
Proof.
  destruct a as [t i|z]; unfold put_record, modify; intros [= <-].
  - intros (x & Hx & Hi). split.
    + simpl. rewrite lookup_alter_eq, Hx. simpl. by apply list_lookup_insert_eq.
    + intros [t' i'|z'] Hb; simpl; [|done]. destruct (decide (t' = t)) as [->|].
      * rewrite lookup_alter_eq, Hx. simpl. apply list_lookup_insert_ne. congruence.
      * by rewrite lookup_alter_ne.
  - intros _. split; [simpl; by rewrite lookup_insert_eq|].
    intros [t' i'|z'] Hb; simpl; [done|]. apply lookup_insert_ne. congruence.
Qed.

(** Updates of the link and the count of a thread change no record. *)
Lemma read_record_put s t x c k a : threads s !! t = Some x ->
  read_record (set_threads (fun m => <[t := CThread c k (cleanup_buf x)]> m) s) a = read_record s a.
Proof.
  intros Hx. destruct a as [t' i|z]; simpl; [|done]. rewrite lookup_insert. case_decide; [|done].
  subst. by rewrite Hx.
Qed.

(** The tail of [pth_cleanup_push], once the record has its place. *)
Lemma push_store s G L t st x a f v :
  cinv s G L -> G !! t = Some st -> threads s !! t = Some x -> placed L t (length st) a ->
  Z.of_nat (length st) < 2 ^ 31 - 2 ->
  (forall t' u, G !! t' = Some u -> a ∉ addrs u) ->
  exists s', (put_thread t (CThread (cleanups x) (swrap 32 (cleanup_count x + 1)) (cleanup_buf x));;
              put_record a (Cleanup f v (cleanups x));;
              '(_, x) ← get_thread (Some t);
              put_thread t (CThread (Some a) (cleanup_count x) (cleanup_buf x));;
              mret true) s = Ok (true, s') /\
    cinv s' (<[t := (a, f, v) :: st]> G) L /\ calls s' = calls s /\ current s' = current s.
Proof.
  intros Hinv HG Hx Hpl Hlt Hfr.
  destruct (ci_thread _ _ _ Hinv _ _ HG) as (x' & Hx' & B1 & B2 & B3 & B4 & B5). simplify_eq.
  set (s1 := set_threads (fun m => <[t := CThread (cleanups x) (swrap 32 (cleanup_count x + 1)) (cleanup_buf x)]> m) s).
  assert (exists s2, put_record a (Cleanup f v (cleanups x)) s1 = Ok (tt, s2)) as [s2 E2]
    by (destruct a; eexists; done).
  assert (threads s1 !! t = Some (CThread (cleanups x) (swrap 32 (cleanup_count x + 1)) (cleanup_buf x)))
    as Hs1 by apply lookup_insert_eq.
  destruct (put_record_read _ _ _ _ E2) as [R1 R2].
  { destruct a as [t' i|]; [|done]. unfold placed in Hpl. case_decide; [|by destruct Hpl as (? & ? & _)].
    injection Hpl as -> ->. eexists. split; [done|]. simpl. lia. }
  assert (exists x2, threads s2 !! t = Some x2 /\ cleanup_count x2 = Z.of_nat (length st) + 1 /\
            length (cleanup_buf x2) = 5%nat) as (x2 & Hx2 & C1 & C2).
  { assert (swrap 32 (cleanup_count x + 1) = Z.of_nat (length st) + 1) as Es
      by (rewrite B2; apply swrap_small; simpl; lia).
    destruct a as [t' i|z]; injection E2 as <-; simpl.
    - destruct (decide (t = t')) as [<-|]; [rewrite lookup_alter_eq|rewrite lookup_alter_ne by done];
        rewrite lookup_insert_eq; eexists; (split; [done|]); simpl; rewrite ?length_insert; done.
    - rewrite lookup_insert_eq. by eexists. }
  exists (set_threads (fun m => <[t := CThread (Some a) (cleanup_count x2) (cleanup_buf x2)]> m) s2).
  split.
  { rewrite (bind_run (put_thread t _) _ s tt s1 eq_refl), (bind_run _ _ s1 tt s2 E2).
    rewrite (bind_run _ _ s2 _ _ (get_cthread_run s2 t x2 Hx2)). done. }
  assert (forall b, b <> a ->
    read_record (set_threads (fun m => <[t := CThread (Some a) (cleanup_count x2) (cleanup_buf x2)]> m) s2) b
    = read_record s b) as Hsame.
  { intros b Hb. rewrite read_record_put by done. rewrite R2 by done. by apply read_record_put. }
  assert (alloc s2 = alloc s /\ calls s2 = calls s /\ current s2 = current s /\
          forall t', t' <> t -> threads s2 !! t' = threads s !! t') as (A1 & A2 & A3 & A4).
  { unfold placed in Hpl. destruct a as [t' i|z]; injection E2 as <-; split_and!; try done; intros t2 Ht2; simpl.
    - case_decide; [|by destruct Hpl as (? & ? & _)]. injection Hpl as -> ->.
      by rewrite lookup_alter_ne, lookup_insert_ne.
    - by rewrite lookup_insert_ne. }
  split; [|done].
  eapply (cinv_update s _ G L L t st (CThread (Some a) (cleanup_count x2) (cleanup_buf x2))); try done.
  - simpl. rewrite A1. apply (ci_live _ _ _ Hinv).
  - simpl. apply lookup_insert_eq.
  - simpl. lia.
  - simpl length. lia.
  - cbn [linked cleanups]. split; [done|]. exists (cleanups x). split.
    + rewrite read_record_put by done. exact R1.
    + eapply linked_frame; [|exact B4]. intros b Hb. apply Hsame. intros ->. by apply (Hfr t st).
  - apply NoDup_cons. split; [by apply (Hfr t st)|by apply (ci_nodup _ _ _ Hinv t)].
  - intros t' Ht'. simpl. by rewrite lookup_insert_ne, A4.
  - intros t' u b Hu Ht' Hb. split_and!; [|apply Hsame; intros ->; by apply (Hfr t' u)|done].
    change (addrs ((a, f, v) :: st)) with (a :: addrs st). intros [->|Hb']%elem_of_cons; [by apply (Hfr t' u)|].
    apply Ht'. by eapply (ci_apart _ _ _ Hinv).
Qed.
(** The block of a deep record is in use. *)
Definition grab (a : caddr) (L : gmap Z Z) : gmap Z Z :=
  match a with Heap z => <[z := sizeof_cleanup]> L | _ => L end.

Lemma push_spec s G L t st f v :
  cinv s G L -> current s = Some t -> G !! t = Some st -> Z.of_nat (length st) < 2 ^ 31 - 2 ->
  al_ready (alloc s) sizeof_cleanup ->
  exists b s', pth_cleanup_push (Some f) v s = Ok (b, s') /\
    calls s' = calls s /\ current s' = current s /\
    (if b then exists a, cinv s' (<[t := (a, f, v) :: st]> G) (grab a L) /\ forall z, a = Heap z -> L !! z = None
     else cinv s' G L /\ (5 <= length st)%nat).
Proof.
  intros Hinv Hcur HG Hlt Hready.
  destruct (ci_thread _ _ _ Hinv _ _ HG) as (x & Hx & B1 & B2 & B3 & B4 & B5).
  unfold pth_cleanup_push. rewrite (bind_run get _ _ _ _ eq_refl). cbv beta iota.
  rewrite Hcur, (bind_run _ _ _ _ _ (get_cthread_run s t x Hx)). cbv beta iota.
  case_bool_decide as Hc.
  - rewrite bool_decide_eq_true_2 by lia. rewrite (bind_run (mret _) _ s _ s eq_refl). cbv beta iota.
    assert (placed L t (length st) (Buf t (Z.to_nat (cleanup_count x)))) as Hpl.
    { unfold placed. rewrite decide_True by (unfold PTH_CLEANUP_COUNT in *; lia).
      f_equal. lia. }
    destruct (push_store s G L t st x (Buf t (Z.to_nat (cleanup_count x))) f v) as (s' & E & Hi & E1 & E2); try done.
    { intros t' u Hu Ha. destruct (ci_thread _ _ _ Hinv _ _ Hu) as (y & _ & _ & _ & _ & _ & Hp).
      destruct (places_elem _ _ _ _ Hp Ha) as [(n & ? & ? & [= <- ?])|(z & ? & _)]; [|done].
      simplify_eq. lia. }
    exists true, s'. split; [exact E|]. split_and!; [done|congruence|]. by exists (Buf t (Z.to_nat (cleanup_count x))).
  - destruct (al_malloc_ok (alloc s) L sizeof_cleanup) as (r & a' & E & Hr);
      [apply (ci_live _ _ _ Hinv)|unfold sizeof_cleanup; lia|done|].
    set (s1 := CState (threads s) (heap s) (current s) (calls s) a').
    assert ((r ← on_alloc (al_malloc sizeof_cleanup); mret (Heap <$> r)) s = Ok (Heap <$> r, s1)) as E1.
    { unfold on_alloc, zoom, mbind, M_bind. rewrite E. done. }
    rewrite (bind_run _ _ _ _ _ E1). destruct r as [z|]; cbn [fmap option_fmap option_map]; cbv beta iota.
    + destruct Hr as [Hz Hlive].
      assert (forall t' u, G !! t' = Some u -> Heap z ∉ addrs u) as Hfr.
      { intros t' u Hu Ha. destruct (ci_thread _ _ _ Hinv _ _ Hu) as (y & _ & _ & _ & _ & _ & Hp).
        destruct (places_elem _ _ _ _ Hp Ha) as [(n & _ & _ & ?)|(z' & [= <-] & E')]; congruence. }
      assert (cinv s1 G (<[z := sizeof_cleanup]> L)) as Hinv1.
      { split; [exact Hlive| |apply (ci_nodup _ _ _ Hinv)|apply (ci_apart _ _ _ Hinv)].
        intros t' u Hu. destruct (ci_thread _ _ _ Hinv _ _ Hu) as (y & Hy & C1 & C2 & C3 & C4 & C5).
        exists y. split_and!; [done..| |].
        - eapply linked_frame; [|exact C4]. by intros [].
        - eapply places_mono; [|exact C5]. intros z' Hz'. apply lookup_insert_ne. intros <-.
          by apply (Hfr t' u). }
      destruct (push_store s1 G (<[z := sizeof_cleanup]> L) t st x (Heap z) f v) as (s' & E' & Hi & F1 & F2); try done.
      { unfold placed. rewrite decide_False by (unfold PTH_CLEANUP_COUNT in *; lia).
        exists z. by rewrite lookup_insert_eq. }
      exists true, s'. split; [exact E'|]. split_and!; [done|simpl in F2; congruence|]. exists (Heap z). split; [done|]. by intros ? [= <-].
    + exists false, s1. split; [done|]. split_and!; [done|done| |unfold PTH_CLEANUP_COUNT in *; lia].
      split; [exact Hr| |apply (ci_nodup _ _ _ Hinv)|apply (ci_apart _ _ _ Hinv)].
      intros t' u Hu. destruct (ci_thread _ _ _ Hinv _ _ Hu) as (y & Hy & C1 & C2 & C3 & C4 & C5).
      exists y. split_and!; [done..| |done]. eapply linked_frame; [|exact C4]. by intros [].
Qed.

(** ** Pop *)

Section pop.
Context (call : nat -> Z -> M cstate unit) (Hcall : forall f v s, call f v s = Ok (tt, s)).

(** The handler runs on a state that differs in the recorded calls only. *)
Definition called (e : bool) (f : nat) (v : Z) (s : cstate) : cstate :=
  if e then CState (threads s) (heap s) (current s) (calls s ++ [(f, v)]) (alloc s) else s.

(** One round: the top record of the current thread is unlinked, run and
    released. *)
Lemma pop_round s G L t a f v st e :
  cinv s G L -> G !! t = Some ((a, f, v) :: st) ->
  (forall z, a = Heap z -> al_free_able (alloc s) z sizeof_cleanup) ->
  exists s' L', (unlink_top t a;; drop_record call (Some t) a e) s = Ok (tt, s') /\
    cinv s' (<[t := st]> G) L' /\ calls s' = (if e then calls s ++ [(f, v)] else calls s) /\
    current s' = current s /\
    L' = match a with Heap z => delete z L | _ => L end.
Proof.
  intros Hinv HG Hfree.
  destruct (ci_thread _ _ _ Hinv _ _ HG) as (x & Hx & B1 & B2 & B3 & B4 & [B5 B6]).
  destruct B4 as (Hc & n & Hr & Hl). simpl length in *.
  set (x1 := CThread n (cleanup_count x) (cleanup_buf x)).
  set (s1 := set_threads (fun m => <[t := x1]> m) s).
  assert (unlink_top t a s = Ok (tt, s1)) as E1.
  { unfold unlink_top. erewrite bind_run; [|unfold get_record, get, mbind, M_bind; rewrite Hr; reflexivity].
    rewrite (bind_run _ _ _ _ _ (get_cthread_run s t x Hx)). done. }
  rewrite (bind_run _ _ _ _ _ E1).
  assert (threads s1 !! t = Some x1) as Hx1 by apply lookup_insert_eq.
  assert (read_record s1 a = Some (Cleanup f v n)) as Hr1 by (unfold s1, x1; by rewrite read_record_put).
  set (s2 := called e f v s1).
  assert ((if e then r ← get_record a; run_handler call (func r) (arg r) else mret tt) s1 = Ok (tt, s2)) as E2.
  { unfold s2, called. destruct e; [|done].
    erewrite bind_run; [|unfold get_record, get, mbind, M_bind; rewrite Hr1; reflexivity].
    unfold run_handler, modify, mbind, M_bind. simpl. apply Hcall. }
  unfold drop_record. rewrite (bind_run _ _ _ _ _ E2).
  assert (threads s2 !! t = Some x1 /\ alloc s2 = alloc s /\ heap s2 = heap s /\ threads s2 = threads s1)
    as (Hx2 & Ha2 & Hh2 & Ht2) by (unfold s2, called; destruct e; done).
  rewrite (bind_run _ _ _ _ _ (get_cthread_run s2 t x1 Hx2)). cbv beta iota.
  set (L' := match a with Heap z => delete z L | _ => L end).
  assert (exists s3, (if bool_decide (cleanup_count x1 > PTH_CLEANUP_COUNT) then free_record a else mret tt) s2 = Ok (tt, s3) /\
    threads s3 = threads s2 /\ al_live (alloc s3) L' /\ calls s3 = calls s2 /\ current s3 = current s2 /\
    (forall b, b <> a -> read_record s3 b = read_record s2 b)) as (s3 & E3 & C1 & C2 & C3 & C4 & C5).
  { unfold placed in B5. change (cleanup_count x1) with (cleanup_count x). rewrite B2. case_decide as Hd.
    - rewrite bool_decide_eq_false_2 by (unfold PTH_CLEANUP_COUNT; lia). exists s2. subst a. split_and!; try done.
      rewrite Ha2. apply (ci_live _ _ _ Hinv).
    - rewrite bool_decide_eq_true_2 by (unfold PTH_CLEANUP_COUNT; lia). destruct B5 as (z & -> & Hz).
      destruct (al_free_ok (alloc s) L z sizeof_cleanup) as (a' & E & Hlive);
        [apply (ci_live _ _ _ Hinv)|done|by apply Hfree|].
      eexists. split.
      { unfold free_record, on_alloc, zoom, mbind, M_bind. rewrite Ha2, E. reflexivity. }
      split_and!; try done. intros [t' i|z'] Hb; simpl; [done|]. apply lookup_delete_ne. congruence. }
  rewrite (bind_run _ _ _ _ _ E3).
  rewrite (bind_run _ _ _ _ _ (get_cthread_run s3 t x1 (eq_trans (f_equal (lookup t) C1) Hx2))). cbv beta iota.
  eexists _, L'. split; [reflexivity|].
  assert (forall b, b <> a -> read_record (set_threads (fun m => <[t := CThread (cleanups x1)
             (swrap 32 (cleanup_count x1 - 1)) (cleanup_buf x1)]> m) s3) b = read_record s b) as Hsame.
  { intros b Hb. rewrite read_record_put by (by rewrite C1). rewrite C5 by done.
    transitivity (read_record s1 b); [|unfold s1, x1; by apply read_record_put].
    destruct b; simpl; [by rewrite Ht2|by rewrite Hh2]. }
  pose proof (ci_nodup _ _ _ Hinv _ _ HG) as Hnd.
  change (addrs ((a, f, v) :: st)) with (a :: addrs st) in Hnd. apply NoDup_cons in Hnd as [Hna Hnd].
  split_and!; [|simpl; rewrite C3; unfold s2, called; by destruct e|simpl; rewrite C4; unfold s2, called; by destruct e|done].
  eapply (cinv_update s _ G L L' t); [done|exact HG|exact C2|apply lookup_insert_eq|done| | | | |done| |].
  - simpl. rewrite B2. rewrite swrap_small; simpl; lia.
  - lia.
  - eapply linked_frame; [|exact Hl]. intros b Hb. apply Hsame. by intros ->.
  - eapply places_mono; [|exact B6]. intros z Hz. unfold L'. destruct a as [|z']; [done|].
    apply lookup_delete_ne. intros ->. by apply Hna.
  - intros t' Ht'. simpl. rewrite lookup_insert_ne, C1, Ht2 by done. by apply lookup_insert_ne.
  - intros t' u b Hu Ht' Hb.
    assert (b <> a) as Hba.
    { intros ->. apply Ht'. eapply (ci_apart _ _ _ Hinv); [exact Hu|exact HG|done|set_solver]. }
    split_and!; [|by apply Hsame|].
    + intros Hb'. apply Ht'. eapply (ci_apart _ _ _ Hinv); [exact Hu|exact HG|done|].
      change (addrs ((a, f, v) :: st)) with (a :: addrs st). set_solver.
    + intros z ->. unfold L'. destruct a as [|z']; [done|]. apply lookup_delete_ne. congruence.
Qed.

Lemma pop_spec s G L t st e :
  cinv s G L -> current s = Some t -> G !! t = Some st ->
  (forall a z, al_free_able a z sizeof_cleanup) ->
  exists s' L', pth_cleanup_pop call e s = Ok (bool_decide (st <> []), s') /\ cinv s' (<[t := tail st]> G) L' /\
    calls s' = calls s ++ (match st with (_, f, v) :: _ => if e then [(f, v)] else [] | [] => [] end) /\
    L' = match st with (Heap z, _, _) :: _ => delete z L | _ => L end.
Proof.
  intros Hinv Hcur HG Hfree.
  destruct (ci_thread _ _ _ Hinv _ _ HG) as (x & Hx & _ & _ & _ & B4 & _).
  unfold pth_cleanup_pop. rewrite (bind_run get _ _ _ _ eq_refl). cbv beta iota.
  rewrite Hcur, (bind_run _ _ _ _ _ (get_cthread_run s t x Hx)). cbv beta iota.
  destruct st as [|[[a f] v] st]; simpl in B4.
  - rewrite B4. exists s, L. rewrite app_nil_r, (insert_id G t []) by done. done.
  - destruct B4 as [-> _]. destruct (pop_round s G L t a f v st e) as (s' & L' & E & Hi & E1 & E2 & E3); [done..|].
    exists s', L'. split.
    { revert E. unfold mbind, M_bind. destruct (unlink_top t a s) as [[[] s1]|]; [|done].
      destruct (drop_record call (Some t) a e s1) as [[[] s2]|]; [|done]. intros [= ->]. done. }
    split_and!; [done|rewrite E1; destruct e; [done|by rewrite app_nil_r]|by destruct a].
Qed.

(** The blocks the records of a stack occupy. *)
Definition release_all (st : stack) (L : gmap Z Z) : gmap Z Z :=
  foldl (fun L e => match e.1.1 with Heap z => delete z L | _ => L end) L st.

Lemma popall_loop_spec fuel s G L t st e :
  cinv s G L -> current s = Some t -> G !! t = Some st -> (length st <= fuel)%nat ->
  (forall a z, al_free_able a z sizeof_cleanup) ->
  exists s', popall_loop call fuel (Some t) t e s = Ok (tt, s') /\
    cinv s' (<[t := []]> G) (release_all st L) /\
    calls s' = calls s ++ (if e then (fun r => (r.1.2, r.2)) <$> st else []) /\ current s' = Some t.
Proof.
  intros Hinv Hcur HG Hf Hfree. revert fuel s G L Hinv Hcur HG Hf.
  induction st as [|[[a f] v] st IH]; intros fuel s G L Hinv Hcur HG Hf;
    destruct (ci_thread _ _ _ Hinv _ _ HG) as (x & Hx & _ & _ & _ & B4 & _); simpl in B4.
  - exists s. split.
    { destruct fuel; cbn [popall_loop]; rewrite (bind_run _ _ _ _ _ (get_cthread_run s t x Hx)); by rewrite B4. }
    rewrite (insert_id G t []) by done. split; [done|]. split; [|done]. destruct e; by rewrite app_nil_r.
  - destruct B4 as [Hc _]. destruct fuel as [|fuel]; [simpl in Hf; lia|].
    destruct (pop_round s G L t a f v st e) as (s1 & L1 & E & Hi & E1 & E2 & ->); [done..|].
    destruct (IH fuel s1 (<[t := st]> G) (match a with Heap z => delete z L | _ => L end))
      as (s' & E' & Hi' & E1' & E2'); [done|congruence|apply lookup_insert_eq|simpl in Hf; lia|].
    exists s'. split.
    { cbn [popall_loop]. rewrite (bind_run _ _ _ _ _ (get_cthread_run s t x Hx)). cbv beta iota. rewrite Hc.
      revert E E'. unfold mbind, M_bind. destruct (unlink_top t a s) as [[[] s2]|]; [|done].
      destruct (drop_record call (Some t) a e s2) as [[[] s3]|]; [|done]. by intros [= ->]. }
    rewrite insert_insert_eq in Hi'. split_and!; [exact Hi'| |done].
    rewrite E1', E1. destruct e; [by rewrite <- app_assoc|done].
Qed.

(** One round on behalf of another thread [c], whose count is small. *)
Lemma foreign_round s t c x y a f v n e :
  t <> c -> threads s !! t = Some x -> threads s !! c = Some y -> cleanup_count y <= PTH_CLEANUP_COUNT ->
  read_record s a = Some (Cleanup f v n) ->
  exists s', (unlink_top t a;; drop_record call (Some c) a e) s = Ok (tt, s') /\
    threads s' !! t = Some (CThread n (cleanup_count x) (cleanup_buf x)) /\
    threads s' !! c = Some (CThread (cleanups y) (swrap 32 (cleanup_count y - 1)) (cleanup_buf y)) /\
    (forall b, read_record s' b = read_record s b) /\ current s' = current s /\ alloc s' = alloc s.
Proof.
  intros Hne Hx Hy Hcnt Hr.
  set (x1 := CThread n (cleanup_count x) (cleanup_buf x)).
  set (s1 := set_threads (fun m => <[t := x1]> m) s).
  assert (unlink_top t a s = Ok (tt, s1)) as E1.
  { unfold unlink_top. erewrite bind_run; [|unfold get_record, get, mbind, M_bind; rewrite Hr; reflexivity].
    rewrite (bind_run _ _ _ _ _ (get_cthread_run s t x Hx)). done. }
  rewrite (bind_run _ _ _ _ _ E1).
  assert (read_record s1 a = Some (Cleanup f v n)) as Hr1 by (unfold s1, x1; by rewrite read_record_put).
  set (s2 := called e f v s1).
  assert ((if e then r ← get_record a; run_handler call (func r) (arg r) else mret tt) s1 = Ok (tt, s2)) as E2.
  { unfold s2, called. destruct e; [|done].
    erewrite bind_run; [|unfold get_record, get, mbind, M_bind; rewrite Hr1; reflexivity].
    unfold run_handler, modify, mbind, M_bind. simpl. apply Hcall. }
  unfold drop_record. rewrite (bind_run _ _ _ _ _ E2).
  assert (threads s2 !! c = Some y) as Hy2.
  { unfold s2, called. destruct e; simpl; by rewrite lookup_insert_ne. }
  rewrite (bind_run _ _ _ _ _ (get_cthread_run s2 c y Hy2)). cbv beta iota.
  rewrite bool_decide_eq_false_2 by lia. rewrite (bind_run (mret tt) _ s2 tt s2 eq_refl).
  rewrite (bind_run _ _ _ _ _ (get_cthread_run s2 c y Hy2)). cbv beta iota.
  eexists. split; [reflexivity|]. split_and!.
  - simpl. rewrite lookup_insert_ne by done. unfold s2, called. destruct e; simpl; apply lookup_insert_eq.
  - simpl. apply lookup_insert_eq.
  - intros b. rewrite read_record_put by done.
    transitivity (read_record s1 b); [|unfold s1, x1; by apply read_record_put].
    unfold s2, called. by destruct e, b.
  - unfold s2, called. by destruct e.
  - unfold s2, called. by destruct e.
Qed.

Lemma popall_foreign fuel s t c x y st e :
  t <> c -> threads s !! t = Some x -> threads s !! c = Some y ->
  - 2 ^ 31 + Z.of_nat (length st) <= cleanup_count y <= PTH_CLEANUP_COUNT ->
  linked s (cleanups x) st -> (length st <= fuel)%nat ->
  exists s', popall_loop call fuel (Some c) t e s = Ok (tt, s') /\ current s' = current s /\ alloc s' = alloc s /\
    threads s' !! c = Some (CThread (cleanups y) (cleanup_count y - Z.of_nat (length st)) (cleanup_buf y)).
Proof.
  intros Hne Hx Hy Hcnt Hl Hf. revert fuel s x y Hx Hy Hcnt Hl Hf.
  induction st as [|[[a f] v] st IH]; intros fuel s x y Hx Hy Hcnt Hl Hf; simpl in Hl.
  - exists s. split.
    { destruct fuel; cbn [popall_loop]; rewrite (bind_run _ _ _ _ _ (get_cthread_run s t x Hx)); by rewrite Hl. }
    split_and!; try done. rewrite Hy. destruct y; simpl. by rewrite Z.sub_0_r.
  - destruct Hl as (Hc & n & Hr & Hl). destruct fuel as [|fuel]; [simpl in Hf; lia|].
    simpl length in *. change PTH_CLEANUP_COUNT with 5 in *.
    destruct (foreign_round s t c x y a f v n e) as (s1 & E & T1 & T2 & T3 & T4 & T5);
      [done|done|done|change PTH_CLEANUP_COUNT with 5; lia|done|].
    rewrite swrap_small in T2 by (simpl; lia).
    destruct (IH fuel s1 _ _ T1 T2) as (s' & E' & F1 & F2 & F3); [simpl; lia| |lia|].
    { eapply linked_frame; [|exact Hl]. intros b _. apply T3. }
    exists s'. split.
    { cbn [popall_loop]. rewrite (bind_run _ _ _ _ _ (get_cthread_run s t x Hx)). cbv beta iota. rewrite Hc.
      revert E E'. unfold mbind, M_bind. destruct (unlink_top t a s) as [[[] s2]|]; [|done].
      destruct (drop_record call (Some c) a e s2) as [[[] s3]|]; [|done]. by intros [= ->]. }
    split_and!; [congruence|congruence|]. rewrite F3. simpl. do 2 f_equal. lia.
Qed.
End pop.
End clean.
Arguments cstate : clear implicits.

(** ** Properties *)

(** a handler that is pushed is the one the next pop takes off the stack
    and, if asked to, executes with its argument; afterwards all stacks and
    the blocks in use are as before.  A push fails only when the five records
    of the control block are used and there is no memory, and then changes
    nothing. *)
Theorem cleanup_push_pop {S} `{Allocator S} call (s : cstate S) G L t st f v e :
  (forall f v s, call f v s = Ok (tt, s)) -> cinv s G L -> current s = Some t -> G !! t = Some st ->
  Z.of_nat (length st) < 2 ^ 31 - 2 -> al_ready (alloc s) sizeof_cleanup ->
  (forall a z, al_free_able a z sizeof_cleanup) ->
  exists b s1, pth_cleanup_push (Some f) v s = Ok (b, s1) /\
    if b then exists s2, pth_cleanup_pop call e s1 = Ok (true, s2) /\ cinv s2 G L /\
                calls s2 = calls s ++ (if e then [(f, v)] else [])
    else cinv s1 G L /\ (5 <= length st)%nat /\ calls s1 = calls s.
Proof.
  intros Hcall Hinv Hcur HG Hlt Hready Hfree.
  destruct (push_spec s G L t st f v Hinv Hcur HG Hlt Hready) as (b & s1 & E & E1 & E2 & Hb).
  exists b, s1. split; [done|]. destruct b; [|by destruct Hb]. destruct Hb as (a & Hi & Ha).
  destruct (pop_spec call Hcall s1 _ _ t ((a, f, v) :: st) e Hi) as (s2 & L' & E3 & Hi' & E4 & ->);
    [congruence|apply lookup_insert_eq|done|].
  exists s2. split; [done|]. split; [|by rewrite E4, E1].
  rewrite insert_insert_eq in Hi'. simpl tail in Hi'. rewrite (insert_id G t st HG) in Hi'.
  destruct a as [|z]; [done|]. simpl in Hi'. by rewrite delete_insert_eq, delete_id in Hi' by (by apply Ha).
Qed.

(** when a thread ends, all of its cleanup handlers are executed, the one
    pushed last first, each with its argument and exactly once; its stack is
    empty afterwards, the blocks of its deep records are released, and the
    stacks of the other threads are unchanged. *)
Theorem cleanup_popall_spec {S} `{Allocator S} call (s : cstate S) G L t st fuel :
  (forall f v s, call f v s = Ok (tt, s)) -> cinv s G L -> current s = Some t -> G !! t = Some st ->
  (length st <= fuel)%nat -> (forall a z, al_free_able a z sizeof_cleanup) ->
  exists s', pth_cleanup_popall call fuel t true s = Ok (tt, s') /\
    calls s' = calls s ++ ((fun r => (r.1.2, r.2)) <$> st) /\
    cinv s' (<[t := []]> G) (release_all st L).
Proof.
  intros Hcall Hinv Hcur HG Hf Hfree.
  destruct (popall_loop_spec call Hcall fuel s G L t st true) as (s' & E & Hi & E1 & _); [done..|].
  exists s'. split; [|done]. unfold pth_cleanup_popall. rewrite (bind_run get _ _ _ _ eq_refl). by rewrite Hcur.
Qed.

(** when the handlers of another thread are run, as [pth_cancel] does, it
    is the count of the running thread that is counted down: a thread without
    handlers of its own that does so ends up with a negative count, and its
    next push writes before the start of [cleanup_buf]. *)
Theorem cleanup_popall_foreign_count {S} `{Allocator S} call (s : cstate S) G L t c st fuel e f v :
  (forall f v s, call f v s = Ok (tt, s)) -> cinv s G L -> current s = Some c -> c <> t ->
  G !! t = Some st -> st <> [] -> G !! c = Some [] -> (length st <= fuel)%nat ->
  exists s', pth_cleanup_popall call fuel t e s = Ok (tt, s') /\
    pth_cleanup_push (Some f) v s' = Err OutOfBounds.
Proof.
  intros Hcall Hinv Hcur Hne HG Hst HGc Hf.
  destruct (ci_thread _ _ _ Hinv _ _ HG) as (x & Hx & _ & _ & B3 & B4 & _).
  destruct (ci_thread _ _ _ Hinv _ _ HGc) as (y & Hy & _ & C2 & _).
  assert (0 < Z.of_nat (length st)) by (destruct st; simpl; [done|lia]).
  destruct (popall_foreign call Hcall fuel s t c x y st e) as (s' & E & F1 & F2 & F3);
    [congruence|done|done|simpl in C2; change PTH_CLEANUP_COUNT with 5; lia|done|done|].
  exists s'. split.
  { unfold pth_cleanup_popall. rewrite (bind_run get _ _ _ _ eq_refl). by rewrite Hcur. }
  unfold pth_cleanup_push. rewrite (bind_run get _ _ _ _ eq_refl). cbv beta iota.
  rewrite F1, Hcur, (bind_run _ _ _ _ _ (get_cthread_run s' c _ F3)). cbv beta iota. simpl cleanup_count.
  simpl in C2. rewrite bool_decide_eq_true_2 by (change PTH_CLEANUP_COUNT with 5; lia).
  rewrite bool_decide_eq_false_2 by lia. done.
Qed.

(** ** Witnesses: the caching allocator, the threads 1 and 2. *)

Definition no_header : Z -> option page_view := fun _ => Some (0, 0, 0).

Definition zero_buf : list pth_cleanup_st := replicate 5 (Cleanup 0 0 None).

(** Thread 1 runs and has no handler, thread 2 has one. *)
Definition cstart (c : nat) (a : cal_st) : cstate cal_st :=
  CState {[ 1%nat := CThread None 0 zero_buf;
            2%nat := CThread (Some (Buf 2 0)) 1 (<[0%nat := Cleanup 7 42 None]> zero_buf) ]}
    ∅ (Some c) [] a.

Definition gstart : gmap nat (list (caddr * nat * Z)) :=
  {[ 1%nat := []; 2%nat := [(Buf 2 0, 7%nat, 42)] ]}.

#[local] Existing Instance cal_allocator.

Lemma gstart_cases t st : gstart !! t = Some st ->
  (t = 1%nat /\ st = []) \/ (t = 2%nat /\ st = [(Buf 2 0, 7%nat, 42)]).
Proof.
  unfold gstart. rewrite lookup_insert. case_decide as E; [intros [= <-]; by left|].
  rewrite lookup_singleton_Some. intros [<- <-]. by right.
Qed.

Lemma cstart_live c a : cal_live a ∅ -> cinv (H := cal_allocator no_header) (cstart c a) gstart ∅.
Proof.
  intros Hl. split; [exact Hl|clear Hl..].
  - intros t st [[-> ->]|[-> ->]]%gstart_cases; (eexists; split; [reflexivity|]); split_and!; try done.
    simpl. split; [done|]. exists None. done.
  - intros t st [[-> ->]|[-> ->]]%gstart_cases; [constructor|apply NoDup_singleton].
  - intros t t' st st' a' [[-> ->]|[-> ->]]%gstart_cases [[-> ->]|[-> ->]]%gstart_cases; set_solver.
Qed.

Lemma cstart_inv c mm : exists a, cal_boot 4096 mm = Ok a /\ mmaps a = mm /\
  cinv (H := cal_allocator no_header) (cstart c a) gstart ∅.
Proof.
  destruct (cal_boot_inv 4096 mm) as (a & E & _ & Hm & _); [lia|].
  exists a. split; [exact E|]. split; [exact Hm|]. apply cstart_live.
  exists 4096. split; [lia|]. eapply reach_boot. exact E.
Qed.

Lemma no_header_honest a z n : honest_pages a no_header z n.
Proof. intros p h o _ _ _ pg _ _. by exists (0, 0, 0). Qed.

Lemma cleanup_push_pop_witness : exists a b s1,
  cal_boot 4096 [None] = Ok a /\
  pth_cleanup_push (H := cal_allocator no_header) (Some 9%nat) 5 (cstart 2 a) = Ok (b, s1) /\
  if b then exists s2, pth_cleanup_pop (H := cal_allocator no_header) (fun _ _ s => Ok (tt, s)) true s1 = Ok (true, s2) /\
                cinv (H := cal_allocator no_header) s2 gstart ∅ /\ calls s2 = [(9%nat, 5)]
  else cinv (H := cal_allocator no_header) s1 gstart ∅ /\ (5 <= 1)%nat /\ calls s1 = [].
Proof.
  destruct (cstart_inv 2 [None]) as (a & E & Hm & Hinv). exists a.
  destruct (cleanup_push_pop (H := cal_allocator no_header) (fun _ _ s => Ok (tt, s)) (cstart 2 a) gstart ∅ 2 [(Buf 2 0, 7%nat, 42)] 9 5 true)
    as (b & s1 & Hb); [intros; reflexivity|exact Hinv|reflexivity|reflexivity|simpl; lia| |intros ? ?; apply no_header_honest|].
  { simpl. unfold kernel_answers. by rewrite Hm. }
  exists b, s1. split; [exact E|]. exact Hb.
Defined.

Lemma cleanup_popall_spec_witness : exists a s',
  cal_boot 4096 [None] = Ok a /\
  pth_cleanup_popall (H := cal_allocator no_header) (fun _ _ s => Ok (tt, s)) 1 2 true (cstart 2 a) = Ok (tt, s') /\
  calls s' = [(7%nat, 42)].
Proof.
  destruct (cstart_inv 2 [None]) as (a & E & Hm & Hinv). exists a.
  destruct (cleanup_popall_spec (H := cal_allocator no_header) (fun _ _ s => Ok (tt, s)) (cstart 2 a) gstart ∅ 2
      [(Buf 2 0, 7%nat, 42)] 1) as (s' & E1 & E2 & _);
    [intros; reflexivity|exact Hinv|reflexivity|reflexivity|simpl; lia|intros ? ?; apply no_header_honest|].
  exists s'. split; [exact E|]. split; [exact E1|exact E2].
Defined.

Lemma cleanup_popall_foreign_count_witness : exists a s',
  cal_boot 4096 [None] = Ok a /\
  pth_cleanup_popall (H := cal_allocator no_header) (fun _ _ s => Ok (tt, s)) 1 2 true (cstart 1 a) = Ok (tt, s') /\
  pth_cleanup_push (H := cal_allocator no_header) (Some 9%nat) 5 s' = Err OutOfBounds.
Proof.
  destruct (cstart_inv 1 [None]) as (a & E & Hm & Hinv). exists a.
  destruct (cleanup_popall_foreign_count (H := cal_allocator no_header) (fun _ _ s => Ok (tt, s)) (cstart 1 a) gstart ∅ 2 1
      [(Buf 2 0, 7%nat, 42)] 1 true 9 5) as (s' & E1 & E2);
    [intros; reflexivity|exact Hinv|reflexivity|discriminate|reflexivity|discriminate|reflexivity|simpl; lia|].
  exists s'. split; [exact E|]. split; [exact E1|exact E2].
Defined.
