(* ===== verification/Event.v ===== *)
(** * Events (pth_event.c)

    An event says what a thread waits for.  The events a thread waits for at
    the same time are linked in a ring.  An event is new, one that belongs to
    a key of the thread (and is used again with the next call), or one that
    the caller supplies.

    The variable arguments of [pth_event] are a list of values; a call that
    reads an argument of another kind than was passed is undefined.  The keys
    of static events are variables of the functions that wait; they are
    identified by numbers ([cells]). *)

From S2P Require Import Prelude Dll.

Definition PTH_EVENT_FD : Z := BIT 1.
Definition PTH_EVENT_SELECT : Z := BIT 2.
Definition PTH_EVENT_SIGS : Z := BIT 3.
Definition PTH_EVENT_TIME : Z := BIT 4.
Definition PTH_EVENT_MSG : Z := BIT 5.
Definition PTH_EVENT_MUTEX : Z := BIT 6.
Definition PTH_EVENT_COND : Z := BIT 7.
Definition PTH_EVENT_TID : Z := BIT 8.
Definition PTH_EVENT_FUNC : Z := BIT 9.
Definition PTH_EVENT_TIME_SIGS : Z := BIT 10.
Definition PTH_UNTIL_OCCURRED : Z := BIT 11.
Definition PTH_UNTIL_FD_READABLE : Z := BIT 12.
Definition PTH_UNTIL_FD_WRITEABLE : Z := BIT 13.
Definition PTH_UNTIL_FD_EXCEPTION : Z := BIT 14.
Definition PTH_UNTIL_TID_NEW : Z := BIT 15.
Definition PTH_UNTIL_TID_READY : Z := BIT 16.
Definition PTH_UNTIL_TID_WAITING : Z := BIT 17.
Definition PTH_UNTIL_TID_DEAD : Z := BIT 18.
Definition PTH_MODE_REUSE : Z := BIT 20.
Definition PTH_MODE_CHAIN : Z := BIT 21.
Definition PTH_MODE_STATIC : Z := BIT 22.
Definition PTH_FREE_THIS : Z := 0.
Definition PTH_FREE_ALL : Z := 1.
Definition PTH_WALK_NEXT : Z := BIT 1.
Definition PTH_WALK_PREV : Z := BIT 2.
Definition PTH_KEY_INIT : Z := -1.
Definition PTH_EVENT_KEY_MAX : Z := 16.

(** The union [ev_args]; pointers to things outside of the model are numbers,
    and so are the points in time. *)
Inductive event_args : Set :=
  | AFd (fd : Z)
  | ASelect (n nfd rfds wfds efds : Z)
  | ASigs (sigs sig : Z)
  | ATime (tv : Z)
  | AMsg (mp : nat)
  | AMutex (m : nat)
  | ACond (c : nat)
  | ATid (t : option nat)
  | AFunc (func arg tv : Z).

Record pth_event_st : Set := Event {
  ev_occurred : bool;
  ev_type : Z;
  ev_goal : Z;
  ev_flags : Z;
  ev_args : event_args }.

(** [elinks]: the members [ev_next] and [ev_prev]; [ebody]: the others.
    [edata]: [event_data] and [event_count] of the threads; [emallocs],
    [dmallocs]: what the next requests for an event and for an array of event
    pointers yield (zeroed memory). *)
Record emem : Set := EMem {
  elinks : gmap nat (link nat);
  ebody : gmap nat pth_event_st;
  cells : gmap nat Z;
  pth_event_keys : list bool;
  edata : gmap nat (option (list (option nat)) * Z);
  key_lock : bool;
  emallocs : list (option nat);
  dmallocs : list bool }.

Definition set_elinks v (m : emem) : emem := EMem v (ebody m) (cells m) (pth_event_keys m) (edata m) (key_lock m) (emallocs m) (dmallocs m).
Definition set_ebody v (m : emem) : emem := EMem (elinks m) v (cells m) (pth_event_keys m) (edata m) (key_lock m) (emallocs m) (dmallocs m).
Definition set_cells v (m : emem) : emem := EMem (elinks m) (ebody m) v (pth_event_keys m) (edata m) (key_lock m) (emallocs m) (dmallocs m).
Definition set_keys v (m : emem) : emem := EMem (elinks m) (ebody m) (cells m) v (edata m) (key_lock m) (emallocs m) (dmallocs m).
Definition set_edata v (m : emem) : emem := EMem (elinks m) (ebody m) (cells m) (pth_event_keys m) v (key_lock m) (emallocs m) (dmallocs m).
Definition set_key_lock v (m : emem) : emem := EMem (elinks m) (ebody m) (cells m) (pth_event_keys m) (edata m) v (emallocs m) (dmallocs m).
Definition set_emallocs v (m : emem) : emem := EMem (elinks m) (ebody m) (cells m) (pth_event_keys m) (edata m) (key_lock m) v (dmallocs m).
Definition set_dmallocs v (m : emem) : emem := EMem (elinks m) (ebody m) (cells m) (pth_event_keys m) (edata m) (key_lock m) (emallocs m) v.

(** ** Access *)

Definition get_ev (e : nat) : M emem pth_event_st := m ← get; of_option BadDeref (ebody m !! e).
Definition upd_ev (e : nat) (f : pth_event_st -> pth_event_st) : M emem unit :=
  x ← get_ev e; modify (fun m => set_ebody (<[e := f x]> (ebody m)) m).
Definition ev_link {A} (f : gmap nat (link nat) -> res A) : M emem A :=
  fun m => match f (elinks m) with Ok a => Ok (a, m) | Err e => Err e end.
Definition ev_set (f : gmap nat (link nat) -> res (gmap nat (link nat))) : M emem unit :=
  fun m => match f (elinks m) with Ok h => Ok (tt, set_elinks h m) | Err e => Err e end.

Definition zero_event : pth_event_st := Event false 0 0 0 (AFd 0).

(** [pth_malloc(sizeof(struct pth_event_st))] *)
Definition malloc_event : M emem (option nat) :=
  m ← get;
  match emallocs m with
  | [] => fail Undefined
  | None :: rest => modify (set_emallocs rest);; mret None
  | Some e :: rest =>
      modify (set_emallocs rest);;
      modify (fun m => set_elinks (<[e := Link None None]> (elinks m)) m);;
      modify (fun m => set_ebody (<[e := zero_event]> (ebody m)) m);;
      mret (Some e)
  end.

(** [pth_free_mem] of an event *)
Definition free_event (e : nat) : M emem unit :=
  get_ev e;;
  modify (fun m => set_elinks (delete e (elinks m)) m);;
  modify (fun m => set_ebody (delete e (ebody m)) m).

(** ** Keys *)

(** The first unused key. *)
Fixpoint event_key_scan (k : Z) (l : list bool) : option Z :=
  match l with [] => None | used :: l => if used then event_key_scan (k + 1) l else Some k end.

Definition __pth_event_key_create (cell : nat) : M emem bool :=
  m ← get;
  match event_key_scan 0 (pth_event_keys m) with
  | Some k =>
      modify (fun m => set_keys (<[Z.to_nat k := true]> (pth_event_keys m)) m);;
      modify (fun m => set_cells (<[cell := k]> (cells m)) m);;
      mret true
  | None => mret false
  end.

(** Keys are unsigned in the comparisons, so [PTH_KEY_INIT] is too large. *)
Definition event_key_ok (key : Z) (m : emem) : bool :=
  bool_decide (0 <= key < PTH_EVENT_KEY_MAX) && default false (pth_event_keys m !! Z.to_nat key).

Definition pth_event_key_getdata (current : nat) (key : Z) : M emem (option nat) :=
  m ← get;
  '(d, _) ← of_option BadDeref (edata m !! current);
  if negb (event_key_ok key m) then mret None
  else
    match d with
    | None => mret None
    | Some l => of_option OutOfBounds (l !! Z.to_nat key)
    end.

Definition EINVAL : Z := 22.
Definition ENOMEM : Z := 12.

Definition pth_event_key_setdata (current : nat) (key : Z) (value : option nat) : M emem Z :=
  m ← get;
  '(d, c) ← of_option BadDeref (edata m !! current);
  if negb (event_key_ok key m) then mret EINVAL
  else
    l ← (match d with
         | Some l => mret (Some l)
         | None =>
             match dmallocs m with
             | [] => fail Undefined
             | ok :: rest =>
                 modify (set_dmallocs rest);;
                 mret (if (ok : bool) then Some (replicate (Z.to_nat PTH_EVENT_KEY_MAX) None) else None)
             end
         end);
    match l with
    | None => mret ENOMEM
    | Some l =>
        old ← of_option OutOfBounds (l !! Z.to_nat key);
        let c := match old, value with
                 | None, Some _ => swrap 32 (c + 1)
                 | Some _, None => swrap 32 (c - 1)
                 | _, _ => c
                 end in
        modify (fun m => set_edata (<[current := (Some (<[Z.to_nat key := value]> l), c)]> (edata m)) m);;
        mret 0
    end.

(** ** Construction *)

Inductive vararg : Set := VCell (cell : nat) | VEvent (e : nat) | VArgs (a : event_args) (flag : Z).

(** [ev_type], [ev_goal], [ev_flags] and [ev_args] that [spec] asks for with the
    remaining arguments; [None]: no kind of event. *)
Definition event_goal (spec : Z) : Z := Z.land spec PTH_UNTIL_OCCURRED.
(** The states of a thread, as numbers (see World). *)
Definition tid_goal (spec : Z) : Z :=
  if flag spec PTH_UNTIL_TID_NEW then 1
  else if flag spec PTH_UNTIL_TID_READY then 2
  else if flag spec PTH_UNTIL_TID_WAITING then 3
  else if flag spec PTH_UNTIL_TID_DEAD then 5
  else 2.

Definition event_init (spec : Z) (va : list vararg) : res (option (Z * Z * Z * event_args)) :=
  match va with
  | [VArgs a fl] =>
      if flag spec PTH_EVENT_MUTEX then
        match a with AMutex _ => Ok (Some (PTH_EVENT_MUTEX, event_goal spec, 0, a)) | _ => Err Undefined end
      else if flag spec PTH_EVENT_FD then
        match a with
        | AFd _ => Ok (Some (PTH_EVENT_FD,
                     Z.land spec (Z.lor PTH_UNTIL_FD_READABLE (Z.lor PTH_UNTIL_FD_WRITEABLE PTH_UNTIL_FD_EXCEPTION)), 0, a))
        | _ => Err Undefined
        end
      else if flag spec PTH_EVENT_SELECT then
        match a with ASelect _ _ _ _ _ => Ok (Some (PTH_EVENT_SELECT, event_goal spec, 0, a)) | _ => Err Undefined end
      else if flag spec PTH_EVENT_SIGS || flag spec PTH_EVENT_TIME_SIGS then
        match a with
        | ASigs _ _ => Ok (Some (if flag spec PTH_EVENT_TIME_SIGS then PTH_EVENT_TIME_SIGS else PTH_EVENT_SIGS,
                                 event_goal spec, fl, a))
        | _ => Err Undefined
        end
      else if flag spec PTH_EVENT_TIME then
        match a with ATime _ => Ok (Some (PTH_EVENT_TIME, event_goal spec, 0, a)) | _ => Err Undefined end
      else if flag spec PTH_EVENT_MSG then
        match a with AMsg _ => Ok (Some (PTH_EVENT_MSG, event_goal spec, 0, a)) | _ => Err Undefined end
      else if flag spec PTH_EVENT_COND then
        match a with ACond _ => Ok (Some (PTH_EVENT_COND, event_goal spec, 0, a)) | _ => Err Undefined end
      else if flag spec PTH_EVENT_TID then
        match a with ATid _ => Ok (Some (PTH_EVENT_TID, tid_goal spec, 0, a)) | _ => Err Undefined end
      else if flag spec PTH_EVENT_FUNC then
        match a with AFunc _ _ _ => Ok (Some (PTH_EVENT_FUNC, event_goal spec, 0, a)) | _ => Err Undefined end
      else Ok None
  | _ => Err Undefined
  end.

(** The event of a key of the running thread; [None]: there is no free key. *)
Definition static_event (current cell : nat) : M emem (option (option nat)) :=
  m ← get;
  (if key_lock m then fail Deadlock else modify (set_key_lock true));;
  k ← of_option BadDeref (cells m !! cell);
  ok ← (if bool_decide (k = PTH_KEY_INIT) then __pth_event_key_create cell else mret true);
  if negb ok then modify (set_key_lock false);; mret None
  else
    m ← get;
    k ← of_option BadDeref (cells m !! cell);
    ev ← pth_event_key_getdata current k;
    ev ← (match ev with
          | Some e => mret (Some e)
          | None => ev ← malloc_event; pth_event_key_setdata current k ev;; mret ev
          end);
    modify (set_key_lock false);;
    mret (Some ev).

(** Which event is used, and the arguments that are left. *)
Definition event_storage (current : nat) (spec : Z) (va : list vararg) : M emem (option nat * list vararg) :=
  if flag spec PTH_MODE_STATIC then
    match va with
    | VCell cell :: va =>
        r ← static_event current cell;
        match r with
        | Some ev => mret (ev, va)
        | None => ev ← malloc_event; mret (ev, va)
        end
    | _ => fail Undefined
    end
  else if flag spec PTH_MODE_REUSE then
    match va with VEvent e :: va => mret (Some e, va) | _ => fail Undefined end
  else ev ← malloc_event; mret (ev, va).

(** Without memory the function yields and returns NULL; [yield] is what
    happens then. *)
Definition pth_event (yield : M emem unit) (current : nat) (spec : Z) (va : list vararg) : M emem (option nat) :=
  '(ev, va) ← event_storage current spec va;
  match ev with
  | None => yield;; mret None
  | Some e =>
      va ← (if flag spec PTH_MODE_CHAIN then
              match va with
              | VEvent ch :: va =>
                  p ← ev_link (fun h => get_prev h (Some ch));
                  ev_set (set_prev (Some e) p);;
                  ev_set (set_next (Some e) (Some ch));;
                  p ← ev_link (fun h => get_prev h (Some e));
                  ev_set (set_next p (Some e));;
                  n ← ev_link (fun h => get_next h (Some e));
                  ev_set (set_prev n (Some e));;
                  mret va
              | _ => fail Undefined
              end
            else
              ev_set (set_prev (Some e) (Some e));;
              ev_set (set_next (Some e) (Some e));;
              mret va);
      upd_ev e (fun x => Event false (ev_type x) (ev_goal x) 0 (ev_args x));;
      match event_init spec va with
      | Err f => fail f
      | Ok None => mret None
      | Ok (Some (ty, goal, fl, a)) =>
          upd_ev e (fun x => Event (ev_occurred x) ty goal fl a);;
          mret (Some e)
      end
  end.

(** ** Access by the user *)

Definition pth_event_typeof (ev : option nat) : M emem Z :=
  match ev with None => mret 0 | Some e => x ← get_ev e; mret (Z.lor (ev_type x) (ev_goal x)) end.

(** [None]: FALSE. *)
Definition pth_event_extract (ev : option nat) : M emem (option event_args) :=
  match ev with
  | None => mret None
  | Some e =>
      x ← get_ev e;
      if flag (ev_type x) PTH_EVENT_FD || flag (ev_type x) PTH_EVENT_SIGS || flag (ev_type x) PTH_EVENT_TIME ||
         flag (ev_type x) PTH_EVENT_MSG || flag (ev_type x) PTH_EVENT_MUTEX || flag (ev_type x) PTH_EVENT_COND ||
         flag (ev_type x) PTH_EVENT_TID || flag (ev_type x) PTH_EVENT_FUNC
      then mret (Some (ev_args x)) else mret None
  end.

Definition pth_event_occurred (ev : option nat) : M emem bool :=
  match ev with None => mret false | Some e => x ← get_ev e; mret (ev_occurred x) end.

(** ** Rings *)

(** The rings of [evs] are attached after [evc]. *)
Fixpoint concat_loop (evc : option nat) (evs : list nat) : M emem (option nat) :=
  match evs with
  | [] => mret evc
  | evn :: evs =>
      ev_set (set_next evc (Some evn));;
      evt ← ev_link (fun h => get_prev h (Some evn));
      ev_set (set_prev (Some evn) evc);;
      concat_loop evt evs
  end.

Definition pth_event_concat (evf : option nat) (evs : list nat) : M emem (option nat) :=
  match evf with
  | None => mret None
  | Some _ =>
      evl ← ev_link (fun h => get_next h evf);
      evc ← concat_loop evf evs;
      ev_set (set_next evc evl);;
      ev_set (set_prev evl evc);;
      mret evf
  end.

Definition pth_event_isolate (ev : option nat) : M emem (option nat) :=
  match ev with
  | None => mret None
  | Some _ =>
      n ← ev_link (fun h => get_next h ev);
      p ← ev_link (fun h => get_prev h ev);
      if bool_decide (n = ev) && bool_decide (p = ev) then mret None
      else
        ev_set (set_next p n);;
        n' ← ev_link (fun h => get_next h ev);
        p' ← ev_link (fun h => get_prev h ev);
        ev_set (set_prev n' p');;
        ev_set (set_prev ev ev);;
        ev_set (set_next ev ev);;
        mret n
  end.

Fixpoint walk_loop (fuel : nat) (ev : option nat) (direction : Z) : M emem (option nat) :=
  match fuel with
  | O => fail Stuck
  | S fuel =>
      let go (n : option nat) : M emem (option nat) :=
        e ← of_option BadDeref n;
        x ← get_ev e;
        if flag direction PTH_UNTIL_OCCURRED && negb (ev_occurred x) then walk_loop fuel n direction else mret n in
      if flag direction PTH_WALK_NEXT then n ← ev_link (fun h => get_next h ev); go n
      else if flag direction PTH_WALK_PREV then n ← ev_link (fun h => get_prev h ev); go n
      else mret None
  end.

Definition pth_event_walk (fuel : nat) (ev : option nat) (direction : Z) : M emem (option nat) :=
  match ev with None => mret None | Some _ => walk_loop fuel ev direction end.

Fixpoint free_loop (fuel : nat) (evc : option nat) (ev : nat) : M emem unit :=
  match fuel with
  | O => fail Stuck
  | S fuel =>
      evn ← ev_link (fun h => get_next h evc);
      e ← of_option BadDeref evc;
      free_event e;;
      if bool_decide (evn = Some ev) then mret tt else free_loop fuel evn ev
  end.

Definition pth_event_free (fuel : nat) (ev : option nat) (mode : Z) : M emem bool :=
  match ev with
  | None => mret false
  | Some e =>
      (if bool_decide (mode = PTH_FREE_THIS) then
         p ← ev_link (fun h => get_prev h ev);
         n ← ev_link (fun h => get_next h ev);
         ev_set (set_next p n);;
         n ← ev_link (fun h => get_next h ev);
         p ← ev_link (fun h => get_prev h ev);
         ev_set (set_prev n p);;
         free_event e
       else if bool_decide (mode = PTH_FREE_ALL) then free_loop fuel ev e
       else mret tt);;
      mret true
  end.

(** [pth_event_destructor] *)
Definition pth_event_destructor (e : nat) : M emem unit := pth_event_free 0 (Some e) PTH_FREE_THIS;; mret tt.

(** The events of thread [t] from key [key] on are destroyed. *)
Fixpoint event_key_loop (t : nat) (keys : list Z) : M emem unit :=
  match keys with
  | [] => mret tt
  | key :: keys =>
      m ← get;
      '(d, c) ← of_option BadDeref (edata m !! t);
      if negb (default false (pth_event_keys m !! Z.to_nat key)) then event_key_loop t keys
      else
        l ← of_option BadDeref d;
        v ← of_option OutOfBounds (l !! Z.to_nat key);
        match v with
        | None => event_key_loop t keys
        | Some e =>
            modify (fun m => set_edata (<[t := (Some (<[Z.to_nat key := None]> l), swrap 32 (c - 1))]> (edata m)) m);;
            pth_event_destructor e;;
            m ← get;
            '(_, c) ← of_option BadDeref (edata m !! t);
            if bool_decide (c = 0) then mret tt else event_key_loop t keys
        end
  end.

Definition pth_event_key_destroy (t : nat) : M emem unit :=
  m ← get;
  '(d, c) ← of_option BadDeref (edata m !! t);
  (if bool_decide (c > 0) then event_key_loop t (seqZ 0 PTH_EVENT_KEY_MAX) else mret tt);;
  m ← get;
  '(_, c) ← of_option BadDeref (edata m !! t);
  modify (fun m => set_edata (<[t := (None, c)]> (edata m)) m).

(** ** The loops of [pth_wait] *)

(** All events of the ring are marked as not occurred. *)
Fixpoint mark_loop (fuel : nat) (ev : option nat) (ring : nat) : M emem unit :=
  match fuel with
  | O => fail Stuck
  | S fuel =>
      e ← of_option BadDeref ev;
      upd_ev e (fun x => Event false (ev_type x) (ev_goal x) (ev_flags x) (ev_args x));;
      n ← ev_link (fun h => get_next h ev);
      if bool_decide (n = Some ring) then mret tt else mark_loop fuel n ring
  end.

(** "count number of actually occurred events" *)
Fixpoint count_loop (fuel : nat) (ev : option nat) (ring : nat) (occurred : Z) : M emem Z :=
  match fuel with
  | O => fail Stuck
  | S fuel =>
      n ← ev_link (fun h => get_next h ev);
      if bool_decide (n = Some ring) then mret (occurred + 1) else count_loop fuel n ring (occurred + 1)
  end.

(** ** Rings of events *)

#[local] Arguments ring {A _ _} h a xs.

Section ring_proofs.
Implicit Types (h : gmap nat (link nat)) (m : emem).

Definition rings_of (evs : list nat) (rest : list (list nat)) : list nat :=
  concat (zip_with cons evs rest).

Lemma rings_of_cons e evs ls rest : rings_of (e :: evs) (ls :: rest) = (e :: ls) ++ rings_of evs rest.
Proof. done. Qed.

(** What closing the open ring of [pth_event_concat] does. *)
Definition close_ring (evc evl : option nat) h : res (gmap nat (link nat)) :=
  h ← set_next evc evl h; set_prev evl evc h.

(** [hv] is [h] with the ring closed behind [evc]. *)
Definition closed_view h hv (evc evl : nat) : Prop :=
  same_dom h hv /\ (forall b : nat, b <> evc -> nxt hv b = nxt h b) /\ (forall b : nat, b <> evl -> prv hv b = prv h b).

Lemma close_ring_spec h hv evc xs :
  closed_view h hv evc (hd evc xs) -> ring hv evc xs ->
  exists h', close_ring (Some evc) (Some (hd evc xs)) h = Ok h' /\ ring h' evc xs /\ same_dom h h' /\
    forall b : nat, b ∉ evc :: xs -> h' !! b = h !! b.
Proof.
  intros (Hdom & Hvn & Hvp) Hr. pose proof (list_hd_elem xs evc) as Hhd.
  assert (is_Some (h !! evc)) by (apply Hdom; eapply ring_mapped; [done|set_solver]).
  assert (is_Some (h !! hd evc xs)) by (apply Hdom; eapply ring_mapped; [done|done]).
  pose proof (ring_next _ _ _ Hr) as Hnx. destruct Hr as [Hnd Hc].
  unfold close_ring. link_write. link_write. eexists; split; [done|]. split; [|split].
  - split; [done|]. eapply chain_agree; [..|exact Hc]; intros b Hb; link_fields; case_decide; subst.
    + by rewrite Hnx.
    + by rewrite Hvn by congruence.
    + destruct xs as [|x xs]; simpl in *.
      { by destruct Hc as [_ ->]. }
      by destruct Hc as [[_ ->] _].
    + by rewrite Hvp by congruence.
  - by same_dom_steps.
  - intros b Hb. assert (b <> evc /\ b <> hd evc xs) as [? ?] by set_solver. by link_frame.
Qed.

(** One more ring is attached: the view of the closed ring afterwards. *)
Lemma attach_view (hv : gmap nat (link nat)) (evc : nat) xs e ls :
  ring hv evc xs -> ring hv e ls -> (forall b : nat, b ∈ e :: ls -> b ∉ evc :: xs) ->
  exists hw, same_dom hv hw /\ ring hw evc (e :: ls ++ xs) /\
    (forall b : nat, nxt hw b = if decide (b = List.last ls e) then Some (hd evc xs)
                          else if decide (b = evc) then Some e else nxt hv b) /\
    (forall b : nat, prv hw b = if decide (b = hd evc xs) then Some (List.last ls e)
                          else if decide (b = e) then Some evc else prv hv b).
Proof.
  intros Hr He Hd. pose proof (list_hd_elem xs evc) as Hhd. pose proof (list_last_elem ls e) as Hl.
  assert (forall b : nat, b ∈ evc :: xs -> is_Some (hv !! b)) as Hm1
    by (intros b Hb; eapply ring_mapped; [exact Hr|done]).
  assert (forall b : nat, b ∈ e :: ls -> is_Some (hv !! b)) as Hm2
    by (intros b Hb; eapply ring_mapped; [exact He|done]).
  assert (exists hw, (h ← set_next (Some evc) (Some e) hv; h ← set_prev (Some e) (Some evc) h;
                      close_ring (Some (List.last ls e)) (Some (hd evc xs)) h) = Ok hw /\
    same_dom hv hw /\
    (forall b : nat, nxt hw b = if decide (b = List.last ls e) then Some (hd evc xs)
                          else if decide (b = evc) then Some e else nxt hv b) /\
    (forall b : nat, prv hw b = if decide (b = hd evc xs) then Some (List.last ls e)
                          else if decide (b = e) then Some evc else prv hv b))
    as (hw & _ & Hdom & Hn & Hp).
  { assert (is_Some (hv !! evc)) by (apply Hm1; set_solver).
    assert (is_Some (hv !! hd evc xs)) by auto.
    assert (is_Some (hv !! e)) by (apply Hm2; set_solver).
    assert (is_Some (hv !! List.last ls e)) by auto.
    unfold close_ring. do 4 link_write. eexists; split; [done|].
    split; [by same_dom_steps|]. split; intros b; link_fields; repeat case_decide; congruence. }
  exists hw. split; [done|]. split; [|done].
  eapply ring_splice; [exact Hr|exact He|done..].
Qed.

Lemma ev_set_run f m h : f (elinks m) = Ok h -> ev_set f m = Ok (tt, set_elinks h m).
Proof. unfold ev_set. by intros ->. Qed.
Lemma ev_link_run {A} (f : gmap nat (link nat) -> res A) m a : f (elinks m) = Ok a -> ev_link f m = Ok (a, m).
Proof. unfold ev_link. by intros ->. Qed.

(** The rings [evs] lie in [hv], apart from each other and from [ys]. *)
Definition apart hv (ys : list nat) (evs : list nat) (rest : list (list nat)) : Prop :=
  Forall2 (ring hv) evs rest /\ NoDup (ys ++ rings_of evs rest).

Lemma apart_attach hv hw ys e ls evs rest :
  apart hv ys (e :: evs) (ls :: rest) ->
  (forall b : nat, b ∉ ys ++ e :: ls -> nxt hw b = nxt hv b /\ prv hw b = prv hv b) ->
  apart hw (ys ++ e :: ls) evs rest.
Proof.
  intros [Hf Hnd] Hag. inversion_clear Hf as [|? ? ? ? _ Hf'].
  rewrite rings_of_cons, app_assoc in Hnd. split; [|done].
  apply NoDup_app in Hnd as (_ & Hdis & _).
  clear -Hf' Hag Hdis. induction Hf' as [|a l evs rest Hr Hf IH]; constructor.
  - destruct Hr as [Hnd Hr]. split; [done|].
    eapply chain_agree; [..|exact Hr]; intros b Hb; apply Hag; intros Hin; apply (Hdis b Hin); cbn; set_solver.
  - apply IH. intros b Hb Hin. apply (Hdis b Hb). cbn. set_solver.
Qed.

Lemma concat_loop_spec evs rest m hv evc xs :
  closed_view (elinks m) hv evc (hd evc xs) -> ring hv evc xs ->
  apart hv (evc :: xs) evs rest ->
  exists evc' h' h'', concat_loop (Some evc) evs m = Ok (Some evc', set_elinks h' m) /\
    close_ring (Some evc') (Some (hd evc xs)) h' = Ok h'' /\
    ring h'' evc (rings_of evs rest ++ xs) /\ same_dom (elinks m) h'' /\
    forall b : nat, b ∉ evc :: xs ++ rings_of evs rest -> h'' !! b = elinks m !! b.
Proof.
  revert rest m hv evc xs. induction evs as [|e evs IH]; intros rest m hv evc xs Hv Hr Ha.
  { destruct Ha as [Hf _]. apply Forall2_nil_inv_l in Hf as ->.
    destruct (close_ring_spec _ _ _ _ Hv Hr) as (h' & E & Hr' & Hd & Hfr).
    exists evc, (elinks m), h'. split; [by destruct m|]. rewrite app_nil_r. done. }
  pose proof Ha as [Hf Hnd]. destruct rest as [|ls rest]; [by inversion Hf|].
  apply Forall2_cons in Hf as [He _].
  assert (forall b : nat, b ∈ e :: ls -> b ∉ evc :: xs) as Hdis.
  { intros b Hb Hb'. apply NoDup_app in Hnd as (_ & Hdis & _). apply (Hdis b Hb'). cbn. set_solver. }
  destruct (attach_view _ _ _ _ _ Hr He Hdis) as (hw & Hwd & Hwr & Hwn & Hwp).
  destruct Hv as (Hdom & Hvn & Hvp).
  pose proof (list_hd_elem xs evc) as Hhd. pose proof (list_last_elem ls e) as Hlst.
  assert (e <> evc /\ e <> hd evc xs) as [Hee Hel] by (specialize (Hdis e); set_solver).
  assert (is_Some (elinks m !! evc)) by (apply Hdom; eapply ring_mapped; [exact Hr|set_solver]).
  assert (is_Some (elinks m !! e)) by (apply Hdom; eapply ring_mapped; [exact He|set_solver]).
  destruct (set_next_spec (elinks m) evc (Some e)) as (h1 & E1 & Hd1 & Hn1 & Hp1 & Hf1); [done|].
  destruct (set_prev_spec h1 e (Some evc)) as (h2 & E2 & Hd2 & Hp2 & Hn2 & Hf2); [solve_mapped|].
  set (lst := List.last ls e) in *.
  destruct (exists_last (l := e :: ls)) as (init & lst' & Einit); [done|].
  assert (lst' = lst) as ->.
  { unfold lst. rewrite <- (list_last_cons e ls e), Einit, List.last_last. done. }
  assert (Hrot : ring hw lst (xs ++ evc :: init)).
  { apply ring_rotate. change (e :: ls ++ xs) with ((e :: ls) ++ xs) in Hwr.
    rewrite Einit, <- app_assoc in Hwr. exact Hwr. }
  assert (hd lst (xs ++ evc :: init) = hd evc xs) as Ehd by (by destruct xs).
  destruct (IH rest (set_elinks h2 m) hw lst (xs ++ evc :: init)) as (evc' & h' & h'' & El & Ec & Hr'' & Hd'' & Hf'').
  { rewrite Ehd. cbn. split; [|split].
    - intros b. rewrite (Hwd b), (Hdom b), (Hd2 b), (Hd1 b). done.
    - intros b Hb. rewrite Hwn, Hn2, Hn1, decide_False by done. case_decide; [done|auto].
    - intros b Hb. rewrite Hwp, Hp2, Hp1, decide_False by done. case_decide; [done|auto]. }
  { done. }
  { destruct (apart_attach hv hw (evc :: xs) e ls evs rest Ha) as [Hf' Hnd'].
    - intros b Hb. rewrite Hwn, Hwp, !decide_False by set_solver. done.
    - split; [done|]. eapply NoDup_Permutation_proper; [|exact Hnd']. rewrite Einit. solve_Permutation. }
  exists evc', h', h''. split; [|split; [|split; [|split]]].
  - cbn [concat_loop]. rewrite (bind_run _ _ _ _ _ (ev_set_run _ m _ E1)).
    rewrite (bind_run _ _ _ (Some lst) (set_elinks h1 m)).
    2:{ apply ev_link_run. apply get_prev_spec. cbn. rewrite Hp1, <- Hvp by done. by apply ring_prev. }
    rewrite (bind_run _ _ _ _ _ (ev_set_run _ (set_elinks h1 m) _ E2)). exact El.
  - by rewrite <- Ehd.
  - change ((e :: ls) ++ rings_of evs rest) with (rings_of (e :: evs) (ls :: rest)) in *.
    rewrite rings_of_cons, Einit, <- !app_assoc. apply ring_rotate. rewrite <- app_assoc. exact Hr''.
  - cbn in Hd''. same_dom_steps.
  - intros b Hb. rewrite rings_of_cons in Hb.
    assert (b <> e /\ b <> evc) as [? ?] by (clear -Hb; set_solver).
    rewrite Einit in Hb. rewrite Hf'' by (clear -Hb; set_solver). cbn. by link_frame.
Qed.
End ring_proofs.

(** [pth_event_concat] makes one ring of its first event's ring and the
    rings of the other events, in the order of the arguments: behind the first
    event come the members of the attached rings and then what followed before.
    No other event is touched. *)
Theorem event_concat_rings m evf xs evs rest :
  ring (elinks m) evf xs -> apart (elinks m) (evf :: xs) evs rest ->
  exists h', pth_event_concat (Some evf) evs m = Ok (Some evf, set_elinks h' m) /\
    ring h' evf (rings_of evs rest ++ xs) /\
    forall b, b ∉ evf :: xs ++ rings_of evs rest -> h' !! b = elinks m !! b.
Proof.
  intros Hr Ha. unfold pth_event_concat.
  rewrite (bind_run _ _ _ _ _ (ev_link_run _ m _ (get_next_spec _ _ _ (ring_next _ _ _ Hr)))).
  destruct (concat_loop_spec evs rest m (elinks m) evf xs) as (evc & h' & h'' & E & Ec & Hr' & _ & Hf); [by split|done..|].
  exists h''. split; [|done]. rewrite (bind_run _ _ _ _ _ E).
  unfold close_ring in Ec. destruct (set_next (Some evc) (Some (hd evf xs)) h') as [h1|] eqn:E1; [|done].
  rewrite (bind_run _ _ _ _ _ (ev_set_run _ (set_elinks h' m) h1 E1)).
  by rewrite (bind_run _ _ _ _ _ (ev_set_run _ (set_elinks h1 m) h'' Ec)).
Qed.

(** Three events alone and a ring of two. *)
Definition some_links : gmap nat (link nat) :=
  {[1%nat := Link (Some 1%nat) (Some 1%nat); 2%nat := Link (Some 3%nat) (Some 3%nat);
    3%nat := Link (Some 2%nat) (Some 2%nat); 4%nat := Link (Some 4%nat) (Some 4%nat)]}.
Definition some_events (occ : nat -> bool) : emem :=
  EMem some_links
    (list_to_map ((fun e => (e, Event (occ e) PTH_EVENT_FD PTH_UNTIL_FD_READABLE 0 (AFd 0))) <$> seq 1 4))
    ∅ (replicate 16 false) ∅ false [] [].

Lemma event_concat_rings_witness :
  exists h', pth_event_concat (Some 1%nat) [2%nat; 4%nat] (some_events (fun _ => false)) =
    Ok (Some 1%nat, set_elinks h' (some_events (fun _ => false))) /\ ring h' 1%nat [2%nat; 3%nat; 4%nat].
Proof.
  destruct (event_concat_rings (some_events (fun _ => false)) 1 [] [2%nat; 4%nat] [[3%nat]; []])
    as (h' & E & Hr & _).
  - split; [apply NoDup_singleton|]. split; reflexivity.
  - split; [repeat constructor; set_solver|].
    change (NoDup [1%nat; 2%nat; 3%nat; 4%nat]). repeat constructor; set_solver.
  - exists h'. split; [exact E|exact Hr].
Defined.

(** An event of a ring is taken out of it; the others stay in their order. *)
Lemma event_isolate_ring m ev x xs :
  ring (elinks m) ev (x :: xs) ->
  exists h', pth_event_isolate (Some ev) m = Ok (Some x, set_elinks h' m) /\
    ring h' x xs /\ ring h' ev [].
Proof.
  intros Hr. unfold pth_event_isolate.
  pose proof (ring_next _ _ _ Hr) as Hn. pose proof (ring_prev _ _ _ Hr) as Hp.
  rewrite list_last_cons in Hp. simpl in Hn.
  rewrite (bind_run _ _ _ _ _ (ev_link_run _ m _ (get_next_spec _ _ _ Hn))).
  rewrite (bind_run _ _ _ _ _ (ev_link_run _ m _ (get_prev_spec _ _ _ Hp))).
  pose proof (list_last_elem xs x) as Hl.
  pose proof (ring_nodup _ _ _ Hr) as [Hne _]%NoDup_cons.
  assert (x <> ev /\ List.last xs x <> ev) as [? ?] by set_solver.
  rewrite (bool_decide_eq_false_2 (Some x = Some ev)) by congruence. cbn [andb].
  assert (is_Some (elinks m !! x)) by (eapply ring_mapped; [done|set_solver]).
  assert (is_Some (elinks m !! ev)) by (eapply ring_mapped; [done|set_solver]).
  assert (is_Some (elinks m !! List.last xs x)) by (eapply ring_mapped; [done|set_solver]).
  destruct (set_next_spec (elinks m) (List.last xs x) (Some x)) as (h1 & E1 & Hd1 & Hn1 & Hp1 & Hf1); [done|].
  rewrite (bind_run _ _ _ _ _ (ev_set_run _ m _ E1)).
  rewrite (bind_run _ _ _ (Some x) (set_elinks h1 m))
    by (apply ev_link_run, get_next_spec; cbn; rewrite Hn1; by case_decide).
  rewrite (bind_run _ _ _ (Some (List.last xs x)) (set_elinks h1 m))
    by (apply ev_link_run, get_prev_spec; cbn; by rewrite Hp1).
  destruct (set_prev_spec h1 x (Some (List.last xs x))) as (h2 & E2 & Hd2 & Hp2 & Hn2 & Hf2); [solve_mapped|].
  rewrite (bind_run _ _ _ _ _ (ev_set_run _ (set_elinks h1 m) _ E2)).
  destruct (set_prev_spec h2 ev (Some ev)) as (h3 & E3 & Hd3 & Hp3 & Hn3 & Hf3); [solve_mapped|].
  rewrite (bind_run _ _ _ _ _ (ev_set_run _ (set_elinks h2 m) _ E3)).
  destruct (set_next_spec h3 ev (Some ev)) as (h4 & E4 & Hd4 & Hn4 & Hp4 & Hf4); [solve_mapped|].
  rewrite (bind_run _ _ _ _ _ (ev_set_run _ (set_elinks h3 m) _ E4)).
  exists h4. split; [done|]. split.
  - apply (ring_agree h2); [intros b Hb; link_frame; set_solver|].
    eapply ring_unlink; [exact Hr|]. link_done.
  - apply ring_singleton; [by rewrite Hn4, decide_True|]. by rewrite Hp4, Hp3, decide_True.
Qed.

(** ** Walking *)

Section walk.
Context (m : emem).

Definition occurs (e : nat) : bool := match ebody m !! e with Some x => ev_occurred x | None => false end.

Lemma get_ev_occurs e : is_Some (ebody m !! e) -> exists x, get_ev e m = Ok (x, m) /\ ev_occurred x = occurs e.
Proof.
  unfold occurs, get_ev, of_option. intros [x E]. exists x.
  rewrite (bind_run get _ _ _ _ eq_refl), E. done.
Qed.

Lemma find_some_split (f : nat -> bool) l e : List.find f l = Some e ->
  exists pre post, l = pre ++ e :: post /\ (forall b, b ∈ pre -> f b = false) /\ f e = true.
Proof.
  induction l as [|a l IH]; [done|]. simpl. destruct (f a) eqn:Ea.
  - intros [= ->]. exists [], l. split; [done|]. split; [set_solver|done].
  - intros (pre & post & -> & Hno & He)%IH. exists (a :: pre), post. set_solver.
Qed.

(** One step forward; the walk goes on while the event has not occurred. *)
Lemma walk_step fuel a b dir :
  flag dir PTH_WALK_NEXT = true -> flag dir PTH_UNTIL_OCCURRED = true ->
  nxt (elinks m) a = Some b -> is_Some (ebody m !! b) ->
  walk_loop (S fuel) (Some a) dir m =
    if occurs b then Ok (Some b, m) else walk_loop fuel (Some b) dir m.
Proof.
  intros Hd Hu Hn Hb. destruct (get_ev_occurs b Hb) as (x & Ex & Ho).
  cbn [walk_loop]. rewrite Hd, Hu. cbn [andb].
  rewrite (bind_run _ _ _ _ _ (ev_link_run _ m _ (get_next_spec _ _ _ Hn))).
  rewrite (bind_run _ _ m b m eq_refl), (bind_run _ _ _ _ _ Ex), Ho. by destruct (occurs b).
Qed.

Lemma walk_found fuel dir a pre e :
  flag dir PTH_WALK_NEXT = true -> flag dir PTH_UNTIL_OCCURRED = true ->
  chain (elinks m) a pre e -> (forall b, b ∈ pre ++ [e] -> is_Some (ebody m !! b)) ->
  (forall b, b ∈ pre -> occurs b = false) -> occurs e = true -> (length pre < fuel)%nat ->
  walk_loop fuel (Some a) dir m = Ok (Some e, m).
Proof.
  intros Hd Hu. revert fuel a. induction pre as [|b pre IH]; intros [|fuel] a Hc Hm Hno He Hfuel; simpl in Hfuel; [lia| |lia|].
  - rewrite (walk_step _ a e) by (done || (by destruct Hc) || (apply Hm; set_solver)). by rewrite He.
  - destruct Hc as [[Hn _] Hc].
    rewrite (walk_step _ a b) by (done || (apply Hm; set_solver)). rewrite Hno by set_solver.
    apply IH; [done|set_solver|set_solver|done|lia].
Qed.

Lemma walk_lost fuel dir a ys :
  flag dir PTH_WALK_NEXT = true -> flag dir PTH_UNTIL_OCCURRED = true ->
  ring (elinks m) a ys -> (forall b, b ∈ a :: ys -> is_Some (ebody m !! b)) ->
  (forall b, b ∈ a :: ys -> occurs b = false) ->
  walk_loop fuel (Some a) dir m = Err Stuck.
Proof.
  intros Hd Hu. revert a ys. induction fuel as [|fuel IH]; intros a ys Hr Hm Hno; [done|].
  rewrite (walk_step _ a (hd a ys)) by (done || (by apply ring_next) || (apply Hm, list_hd_elem)).
  rewrite Hno by apply list_hd_elem. destruct ys as [|b ys]; [by apply (IH a [])|].
  apply (IH b (ys ++ [a])); [by apply (ring_rotate _ a [] b ys)|set_solver|set_solver].
Qed.
End walk.

(** [pth_event_walk] with [PTH_WALK_NEXT|PTH_UNTIL_OCCURRED] finds the first
    occurred event behind the given one, which comes last itself; when no event
    of the ring has occurred, it runs forever. *)
Theorem event_walk_first m ev xs dir fuel :
  flag dir PTH_WALK_NEXT = true -> flag dir PTH_UNTIL_OCCURRED = true ->
  ring (elinks m) ev xs -> (forall b, b ∈ ev :: xs -> is_Some (ebody m !! b)) ->
  (length xs < fuel)%nat ->
  pth_event_walk fuel (Some ev) dir m =
    match List.find (occurs m) (xs ++ [ev]) with Some e => Ok (Some e, m) | None => Err Stuck end.
Proof.
  intros Hd Hu Hr Hm Hfuel. unfold pth_event_walk.
  destruct (List.find _ _) as [e|] eqn:Ef.
  - apply find_some_split in Ef as (pre & post & Es & Hno & He).
    pose proof Hr as [_ Hc].
    assert (chain (elinks m) ev pre e /\ (length pre <= length xs)%nat) as [Hc' Hl].
    { destruct post as [|p post _] using rev_ind.
      - apply app_inj_tail in Es as [-> ->]. done.
      - change (e :: post ++ [p]) with ((e :: post) ++ [p]) in Es.
        rewrite app_assoc in Es. apply app_inj_tail in Es as [-> ->].
        apply chain_app in Hc as [Hc _]. rewrite length_app. split; [done|lia]. }
    apply (walk_found m fuel dir ev pre); [done..| |done|done|lia].
    intros b Hb. apply Hm. assert (b ∈ xs ++ [ev]) by (rewrite Es; set_solver). set_solver.
  - apply (walk_lost m fuel dir ev xs); [done..|].
    intros b Hb. apply (find_none _ _ Ef), list_elem_of_In. set_solver.
Qed.

Lemma event_walk_first_witness :
  pth_event_walk 2 (Some 2%nat) (Z.lor PTH_WALK_NEXT PTH_UNTIL_OCCURRED) (some_events (fun e => bool_decide (e = 2%nat))) =
    Ok (Some 2%nat, some_events (fun e => bool_decide (e = 2%nat))).
Proof.
  rewrite (event_walk_first (some_events (fun e => bool_decide (e = 2%nat))) 2 [3%nat]).
  - reflexivity.
  - reflexivity.
  - reflexivity.
  - split; [repeat constructor; set_solver|]. split; [split; reflexivity|split; reflexivity].
  - intros b [->|[->|[]%elem_of_nil]%elem_of_cons]%elem_of_cons; eexists; reflexivity.
  - simpl. lia.
Defined.

(** ** Construction and access *)

Definition fresh_event (e : nat) rest (m : emem) : emem :=
  set_elinks (<[e := Link None None]> (elinks m)) (set_ebody (<[e := zero_event]> (ebody m)) (set_emallocs rest m)).

Lemma malloc_event_run m e rest :
  emallocs m = Some e :: rest -> malloc_event m = Ok (Some e, fresh_event e rest m).
Proof. intros Hm. unfold malloc_event. rewrite (bind_run get _ _ _ _ eq_refl), Hm. done. Qed.

Lemma get_ev_run e m x : ebody m !! e = Some x -> get_ev e m = Ok (x, m).
Proof. intros Hx. unfold get_ev. by rewrite (bind_run get _ _ _ _ eq_refl), Hx. Qed.

Lemma upd_ev_run e f m x :
  ebody m !! e = Some x -> upd_ev e f m = Ok (tt, set_ebody (<[e := f x]> (ebody m)) m).
Proof. intros Hx. unfold upd_ev. by rewrite (bind_run _ _ _ _ _ (get_ev_run e m x Hx)). Qed.

Lemma set_next_at (h : gmap nat (link nat)) a l v :
  h !! a = Some l -> set_next (Some a) v h = Ok (<[a := Link v (l_prev l)]> h).
Proof. unfold set_next, deref. by intros ->. Qed.
Lemma set_prev_at (h : gmap nat (link nat)) a l v :
  h !! a = Some l -> set_prev (Some a) v h = Ok (<[a := Link (l_next l) v]> h).
Proof. unfold set_prev, deref. by intros ->. Qed.

(** The kinds of events that [pth_event] makes. *)
Lemma event_init_kind spec va ty goal fl a :
  event_init spec va = Ok (Some (ty, goal, fl, a)) ->
  ty ∈ [PTH_EVENT_MUTEX; PTH_EVENT_FD; PTH_EVENT_SELECT; PTH_EVENT_SIGS; PTH_EVENT_TIME_SIGS;
        PTH_EVENT_TIME; PTH_EVENT_MSG; PTH_EVENT_COND; PTH_EVENT_TID; PTH_EVENT_FUNC].
Proof.
  unfold event_init. intros E.
  repeat match type of E with
  | (match ?x with _ => _ end) = _ => destruct x; try discriminate E
  end; injection E as <- <- <- <-; rewrite !elem_of_cons; try case_match; tauto.
Qed.

(** Which of them [pth_event_extract] knows. *)
Definition extractable (ty : Z) : bool :=
  negb (bool_decide (ty = PTH_EVENT_SELECT)) && negb (bool_decide (ty = PTH_EVENT_TIME_SIGS)).

Lemma extract_kind e x m :
  ebody m !! e = Some x ->
  ev_type x ∈ [PTH_EVENT_MUTEX; PTH_EVENT_FD; PTH_EVENT_SELECT; PTH_EVENT_SIGS; PTH_EVENT_TIME_SIGS;
        PTH_EVENT_TIME; PTH_EVENT_MSG; PTH_EVENT_COND; PTH_EVENT_TID; PTH_EVENT_FUNC] ->
  pth_event_extract (Some e) m = Ok (if extractable (ev_type x) then Some (ev_args x) else None, m).
Proof.
  intros Ex Hty. unfold pth_event_extract.
  rewrite (bind_run _ _ _ _ _ (get_ev_run e m x Ex)).
  rewrite !elem_of_cons, elem_of_nil in Hty. destruct_or! Hty; try done; rewrite Hty; reflexivity.
Qed.

(** a new event is alone in its ring and has not occurred; its type and its
    goal are those that [spec] asks for, and [pth_event_extract] yields the
    arguments back, except for the kinds SELECT and TIME_SIGS, which it does
    not know. *)
Theorem event_extract_roundtrip yield current spec va m e rest ty goal fl a :
  flag spec PTH_MODE_STATIC = false -> flag spec PTH_MODE_REUSE = false ->
  flag spec PTH_MODE_CHAIN = false ->
  emallocs m = Some e :: rest -> event_init spec va = Ok (Some (ty, goal, fl, a)) ->
  exists m', pth_event yield current spec va m = Ok (Some e, m') /\
    ring (elinks m') e [] /\
    pth_event_occurred (Some e) m' = Ok (false, m') /\
    pth_event_typeof (Some e) m' = Ok (Z.lor ty goal, m') /\
    pth_event_extract (Some e) m' = Ok (if extractable ty then Some a else None, m').
Proof.
  intros Hs Hr Hc Hm Hi.
  set (x := Event false ty goal fl a).
  set (h := <[e := Link (Some e) (Some e)]> (elinks m)).
  set (m' := set_elinks h (set_ebody (<[e := x]> (ebody m)) (set_emallocs rest m))).
  assert (ebody m' !! e = Some x) as Hx by apply lookup_insert_eq.
  assert (get_ev e m' = Ok (x, m')) as Hg by (by apply get_ev_run).
  exists m'. split; [|split; [|split; [|split]]].
  - unfold pth_event, event_storage. rewrite Hs, Hr.
    rewrite (bind_run _ _ m (Some e, va) (fresh_event e rest m))
      by (by rewrite (bind_run _ _ _ _ _ (malloc_event_run m e rest Hm))).
    rewrite Hc. rewrite (bind_run _ _ _ va (set_elinks h (fresh_event e rest m))).
    2:{ rewrite (bind_run _ _ _ _ _ (ev_set_run _ (fresh_event e rest m) _ (set_prev_at _ e _ _ (lookup_insert_eq _ _ _)))).
        rewrite (bind_run _ _ _ _ _ (ev_set_run _ (set_elinks _ _) _ (set_next_at _ e _ _ (lookup_insert_eq _ _ _)))).
        cbn. by rewrite !insert_insert_eq. }
    rewrite (bind_run _ _ _ _ _ (upd_ev_run _ _ (set_elinks h (fresh_event e rest m)) _ (lookup_insert_eq _ _ _))), Hi.
    rewrite (bind_run _ _ _ _ _ (upd_ev_run e _ (set_ebody _ _) _ (lookup_insert_eq _ _ _))).
    cbn. unfold m'. by rewrite !insert_insert_eq.
  - apply ring_singleton; unfold nxt, prv, m', h; cbn; by rewrite lookup_insert_eq.
  - unfold pth_event_occurred. by rewrite (bind_run _ _ _ _ _ Hg).
  - unfold pth_event_typeof. by rewrite (bind_run _ _ _ _ _ Hg).
  - apply (extract_kind e x m' Hx). by eapply event_init_kind.
Qed.

Lemma event_extract_roundtrip_witness :
  exists m', pth_event (mret tt) 0 (Z.lor PTH_EVENT_FD PTH_UNTIL_FD_READABLE) [VArgs (AFd 7) 0]
      (set_emallocs [Some 9%nat] (some_events (fun _ => false))) = Ok (Some 9%nat, m') /\
    pth_event_typeof (Some 9%nat) m' = Ok (Z.lor PTH_EVENT_FD PTH_UNTIL_FD_READABLE, m') /\
    pth_event_extract (Some 9%nat) m' = Ok (Some (AFd 7), m').
Proof.
  destruct (event_extract_roundtrip (mret tt) 0 (Z.lor PTH_EVENT_FD PTH_UNTIL_FD_READABLE) [VArgs (AFd 7) 0]
      (set_emallocs [Some 9%nat] (some_events (fun _ => false))) 9 [] PTH_EVENT_FD PTH_UNTIL_FD_READABLE 0 (AFd 7)
      eq_refl eq_refl eq_refl eq_refl eq_refl) as (m' & E & _ & _ & Et & Ex).
  exists m'. split; [exact E|]. split; [exact Et|exact Ex].
Defined.

(** ** Static events *)

(** The counter of a thread's events is right, and its array has a slot for
    every key. *)
Definition event_data_ok (d : option (list (option nat)) * Z) : Prop :=
  match d.1 with
  | None => d.2 = 0
  | Some l => length l = Z.to_nat PTH_EVENT_KEY_MAX /\ d.2 = Z.of_nat (length (filter is_Some l))
  end.

Definition event_inv (m : emem) : Prop :=
  length (pth_event_keys m) = Z.to_nat PTH_EVENT_KEY_MAX /\ map_Forall (fun _ => event_data_ok) (edata m) /\
  forall cell k, cells m !! cell = Some k -> k = PTH_KEY_INIT \/ event_key_ok k m = true.

Lemma event_key_ok_iff k m : event_key_ok k m = true <->
  0 <= k < PTH_EVENT_KEY_MAX /\ pth_event_keys m !! Z.to_nat k = Some true.
Proof.
  unfold event_key_ok. rewrite andb_true_iff, bool_decide_eq_true.
  destruct (pth_event_keys m !! Z.to_nat k) as [[]|]; naive_solver.
Qed.

Lemma event_key_scan_some k l k' : event_key_scan k l = Some k' ->
  k <= k' < k + Z.of_nat (length l) /\ l !! Z.to_nat (k' - k) = Some false.
Proof.
  revert k. induction l as [|[] l IH]; intros k; simpl; [done| |].
  - intros [Hk Hl]%IH. split; [lia|].
    replace (Z.to_nat (k' - k)) with (S (Z.to_nat (k' - (k + 1)))) by lia. done.
  - intros [= ->]. split; [lia|]. by rewrite Z.sub_diag.
Qed.

Lemma event_key_scan_none k l : event_key_scan k l = None -> Forall (fun u => u = true) l.
Proof.
  revert k. induction l as [|[] l IH]; intros k; simpl; [constructor| |done].
  intros H. constructor; [done|by eapply IH].
Qed.

(** The first key that is unused becomes the key of the cell. *)
Lemma event_key_create_inv cell m :
  event_inv m ->
  exists ok m', __pth_event_key_create cell m = Ok (ok, m') /\ event_inv m' /\
    edata m' = edata m /\ emallocs m' = emallocs m /\ dmallocs m' = dmallocs m /\ key_lock m' = key_lock m /\
    (if ok then exists k, cells m' !! cell = Some k /\ event_key_ok k m' = true
     else m' = m /\ Forall (fun u => u = true) (pth_event_keys m)).
Proof.
  intros (Hl & Hd & Hc). unfold __pth_event_key_create.
  rewrite (bind_run get _ _ _ _ eq_refl). destruct (event_key_scan 0 (pth_event_keys m)) as [k|] eqn:Es.
  - apply event_key_scan_some in Es as [Hk Hu]. rewrite Z.sub_0_r in Hu.
    set (m1 := set_keys (<[Z.to_nat k := true]> (pth_event_keys m)) m).
    assert (event_key_ok k m1 = true) as Hok.
    { apply event_key_ok_iff. cbn. rewrite list_lookup_insert_eq by (by eapply lookup_lt_Some).
      unfold PTH_EVENT_KEY_MAX in *. split; [lia|done]. }
    exists true, (set_cells (<[cell := k]> (cells m)) m1). split; [done|].
    split; [|repeat split; try done; exists k; split; [apply lookup_insert_eq|done]].
    split; [by cbn; rewrite length_insert|]. split; [done|].
    intros c k'. cbn. rewrite lookup_insert_Some. intros [[-> ->]|[Hne [->|Hk']%Hc]]; [by right|by left|].
    right. apply event_key_ok_iff in Hk' as [? Hk']. apply event_key_ok_iff. split; [done|]. cbn.
    destruct (decide (Z.to_nat k = Z.to_nat k')) as [E|E].
    + rewrite <- E. by rewrite list_lookup_insert_eq by (by eapply lookup_lt_Some).
    + by rewrite list_lookup_insert_ne.
  - exists false, m. split; [done|]. split; [done|]. repeat split; try done. by eapply event_key_scan_none.
Qed.

Lemma filter_is_Some_insert {A} (l : list (option A)) i v old :
  l !! i = Some old ->
  Z.of_nat (length (filter is_Some (<[i := v]> l))) =
  Z.of_nat (length (filter is_Some l)) + match old, v with None, Some _ => 1 | Some _, None => -1 | _, _ => 0 end.
Proof.
  revert i. induction l as [|a l IH]; intros [|i] Hl; simpl in Hl; try done.
  - injection Hl as ->. simpl. rewrite !filter_cons.
    unfold is_Some in *. destruct old, v; repeat case_decide; simpl; try lia; exfalso; naive_solver.
  - simpl. rewrite !filter_cons. case_decide; simpl; rewrite ?Nat2Z.inj_succ, IH by done; lia.
Qed.


(** The last lines of [pth_event_key_setdata]. *)
Definition store_event (current : nat) (k : Z) (value : option nat) (l : list (option nat)) (c : Z) : M emem Z :=
  old ← of_option OutOfBounds (l !! Z.to_nat k);
  let c := match old, value with
           | None, Some _ => swrap 32 (c + 1)
           | Some _, None => swrap 32 (c - 1)
           | _, _ => c
           end in
  modify (fun m => set_edata (<[current := (Some (<[Z.to_nat k := value]> l), c)]> (edata m)) m);;
  mret 0.

Lemma store_event_inv current k v l c m :
  event_inv m -> event_data_ok (Some l, c) -> event_key_ok k m = true ->
  exists l' c', store_event current k v l c m =
      Ok (0, set_edata (<[current := (Some l', c')]> (edata m)) m) /\
    l' !! Z.to_nat k = Some v /\ event_inv (set_edata (<[current := (Some l', c')]> (edata m)) m).
Proof.
  intros (Hl & Hda & Hc) [Hlen Hcnt] Hok. simpl in Hlen, Hcnt.
  pose proof (proj1 (event_key_ok_iff _ _) Hok) as [Hk Hu].
  destruct (lookup_lt_is_Some_2 l (Z.to_nat k)) as [old Hold]; [unfold PTH_EVENT_KEY_MAX in *; lia|].
  pose proof (filter_is_Some_insert l (Z.to_nat k) v old Hold) as Hf.
  pose proof (length_filter is_Some l) as Hle1. pose proof (length_filter is_Some (<[Z.to_nat k := v]> l)) as Hle2.
  rewrite length_insert in Hle2.
  eexists (<[Z.to_nat k := v]> l), _. split; [|split].
  - unfold store_event. by rewrite (bind_run _ _ m old m) by (by rewrite Hold).
  - apply list_lookup_insert_eq. by eapply lookup_lt_Some.
  - split; [done|]. split; [|done]. cbn. apply map_Forall_insert_2; [|done].
    split; [by rewrite length_insert|]. cbn. rewrite Hf, Hcnt.
    unfold PTH_EVENT_KEY_MAX in *. destruct old, v; rewrite ?swrap_small by lia; lia.
Qed.

(** The event is stored for the key, and the counter stays right; without
    memory for the array nothing changes. *)
Lemma event_key_setdata_inv current k v m d :
  event_inv m -> edata m !! current = Some d -> event_key_ok k m = true -> dmallocs m <> [] ->
  exists r m', pth_event_key_setdata current k v m = Ok (r, m') /\ event_inv m' /\
    cells m' = cells m /\ pth_event_keys m' = pth_event_keys m /\ emallocs m' = emallocs m /\ key_lock m' = key_lock m /\
    (r = ENOMEM /\ d.1 = None /\ head (dmallocs m) = Some false \/
     r = 0 /\ exists l c, edata m' !! current = Some (Some l, c) /\ l !! Z.to_nat k = Some v).
Proof.
  intros Hinv Hd Hok Hdm. pose proof (proj1 (proj2 Hinv) _ _ Hd) as Hdok.
  unfold pth_event_key_setdata. rewrite (bind_run get _ _ _ _ eq_refl).
  rewrite (bind_run _ _ _ d m) by (by rewrite Hd). destruct d as [d c]. rewrite Hok. cbn [negb].
  destruct d as [l|].
  - rewrite (bind_run _ _ m (Some l) m eq_refl).
    destruct (store_event_inv current k v l c m Hinv Hdok Hok) as (l' & c' & E & Hl' & Hi).
    eexists 0, _. split; [exact E|]. split; [done|]. do 4 (split; [done|]). right. split; [done|].
    exists l', c'. split; [apply lookup_insert_eq|done].
  - destruct (dmallocs m) as [|ok rest] eqn:Edm; [done|].
    rewrite (bind_run _ _ m (if ok then Some (replicate (Z.to_nat PTH_EVENT_KEY_MAX) None) else None) (set_dmallocs rest m) eq_refl).
    destruct ok.
    + destruct (store_event_inv current k v (replicate (Z.to_nat PTH_EVENT_KEY_MAX) None) c (set_dmallocs rest m))
        as (l' & c' & E & Hl' & Hi); [done|split; [done|exact Hdok]|done|].
      eexists 0, _. split; [exact E|]. split; [done|]. do 4 (split; [done|]). right. split; [done|].
      exists l', c'. split; [apply lookup_insert_eq|done].
    + eexists ENOMEM, _. split; [reflexivity|]. split; [done|]. do 4 (split; [done|]). left. done.
Qed.

Lemma event_key_getdata_run current k m l c :
  event_key_ok k m = true -> length l = Z.to_nat PTH_EVENT_KEY_MAX -> edata m !! current = Some (Some l, c) ->
  pth_event_key_getdata current k m = Ok (mjoin (l !! Z.to_nat k), m).
Proof.
  intros Hok Hl Hd. unfold pth_event_key_getdata. rewrite (bind_run get _ _ _ _ eq_refl).
  rewrite (bind_run _ _ _ (Some l, c) m) by (by rewrite Hd). rewrite Hok. cbn [negb].
  apply event_key_ok_iff in Hok as [Hk _].
  destruct (lookup_lt_is_Some_2 l (Z.to_nat k)) as [v Hv]; [unfold PTH_EVENT_KEY_MAX in *; lia|].
  by rewrite Hv.
Qed.

Lemma key_init_not_ok m : event_key_ok PTH_KEY_INIT m = false.
Proof. done. Qed.

Lemma unlock_id m : key_lock m = false -> set_key_lock false (set_key_lock true m) = m.
Proof. destruct m. cbn. by intros ->. Qed.

(** The event of a key is found again. *)
Lemma static_event_again current cell m k l c e :
  event_inv m -> key_lock m = false -> cells m !! cell = Some k -> event_key_ok k m = true ->
  edata m !! current = Some (Some l, c) -> l !! Z.to_nat k = Some (Some e) ->
  static_event current cell m = Ok (Some (Some e), m).
Proof.
  intros (_ & Hda & _) Hlock Hc Hok Hd Hl. unfold static_event.
  rewrite (bind_run get _ _ _ _ eq_refl), Hlock.
  rewrite (bind_run _ _ m tt (set_key_lock true m) eq_refl).
  rewrite (bind_run _ _ _ k (set_key_lock true m)) by (by rewrite Hc).
  rewrite bool_decide_eq_false_2 by (intros ->; by rewrite key_init_not_ok in Hok).
  rewrite (bind_run _ _ _ true (set_key_lock true m) eq_refl). cbn [negb].
  rewrite (bind_run get _ _ _ _ eq_refl).
  rewrite (bind_run _ _ _ k (set_key_lock true m)) by (by cbn; rewrite Hc).
  rewrite (bind_run _ _ _ _ _ (event_key_getdata_run current k (set_key_lock true m) l c Hok (proj1 (Hda _ _ Hd)) Hd)).
  rewrite Hl. cbn [mjoin option_join]. rewrite (bind_run _ _ _ (Some e) (set_key_lock true m) eq_refl).
  rewrite (bind_run _ _ _ tt m) by (unfold modify; by rewrite unlock_id). done.
Qed.

(** The part of [static_event] behind the choice of the key. *)
Definition event_of_key (current : nat) (k : Z) : M emem (option (option nat)) :=
  ev ← pth_event_key_getdata current k;
  ev ← (match ev with
        | Some e => mret (Some e)
        | None => ev ← malloc_event; pth_event_key_setdata current k ev;; mret ev
        end);
  modify (set_key_lock false);;
  mret (Some ev).

Lemma event_of_key_inv current cell k m d :
  event_inv m -> cells m !! cell = Some k -> event_key_ok k m = true -> edata m !! current = Some d ->
  emallocs m <> [] -> dmallocs m <> [] ->
  exists ev m', event_of_key current k m = Ok (Some ev, m') /\ event_inv m' /\ key_lock m' = false /\
    match ev with
    | None => head (emallocs m) = Some None
    | Some e => (d.1 = None /\ head (dmallocs m) = Some false) \/ static_event current cell m' = Ok (Some (Some e), m')
    end.
Proof.
  intros Hinv Hc Hok Hd Hem Hdm. pose proof Hinv as (_ & Hda & _). pose proof (Hda _ _ Hd) as Hdok.
  unfold event_of_key.
  rewrite (bind_run _ _ m (match d.1 with Some l => mjoin (l !! Z.to_nat k) | None => None end) m).
  2:{ destruct d as [[l|] c].
      - apply (event_key_getdata_run _ _ _ l c); [done|apply Hdok|done].
      - unfold pth_event_key_getdata. rewrite (bind_run get _ _ _ _ eq_refl).
        rewrite (bind_run _ _ _ (None, c) m) by (by rewrite Hd). by rewrite Hok. }
  destruct (match d.1 with Some l => mjoin (l !! Z.to_nat k) | None => None end) as [e|] eqn:Ee.
  - destruct d as [[l|] c]; [|done]. simpl in Ee.
    destruct (l !! Z.to_nat k) as [v|] eqn:Ev; [|done]. simpl in Ee. subst v.
    exists (Some e), (set_key_lock false m). split; [done|]. split; [done|]. split; [done|]. right.
    eapply static_event_again; done.
  - destruct (emallocs m) as [|v rest] eqn:Eem; [done|].
    assert (exists m1, malloc_event m = Ok (v, m1) /\ event_inv m1 /\ edata m1 = edata m /\ cells m1 = cells m /\
        pth_event_keys m1 = pth_event_keys m /\ dmallocs m1 = dmallocs m) as (m1 & E1 & Hi1 & Hd1 & Hc1 & Hk1 & Hm1).
    { destruct v as [e|].
      - exists (fresh_event e rest m). split; [by apply malloc_event_run|done].
      - exists (set_emallocs rest m). split; [|done]. unfold malloc_event.
        by rewrite (bind_run get _ _ _ _ eq_refl), Eem. }
    assert (event_key_ok k m1 = true) as Hok1 by (unfold event_key_ok; by rewrite Hk1).
    destruct (event_key_setdata_inv current k v m1 d) as (r & m' & E & Hi & Hc' & Hk' & _ & _ & Hcase);
      [done|by rewrite Hd1|done|by rewrite Hm1|].
    exists v, (set_key_lock false m'). rewrite (bind_run _ _ m v m').
    2:{ rewrite (bind_run _ _ _ _ _ E1). by rewrite (bind_run _ _ _ _ _ E). }
    split; [done|]. split; [done|]. split; [done|]. destruct v as [e|]; [|done].
    destruct Hcase as [(_ & ? & ?)|(_ & l & c & Hl & Hle)]; [left; by rewrite Hm1 in *|right].
    eapply (static_event_again _ _ (set_key_lock false m')); cbn; [done|done|by rewrite Hc', Hc1| |done|done].
    unfold event_key_ok. cbn. by rewrite Hk', Hk1.
Qed.

(** an event of mode [PTH_MODE_STATIC].  The key's table, the counters and
    the arrays of the threads stay consistent; the function returns, the lock
    is free again, and the same thread gets the same event with the next call
    of the same place, unless there was no memory for the array (the event is
    lost then) or all keys are in use. *)
Theorem static_event_reused current cell m :
  event_inv m -> key_lock m = false -> is_Some (cells m !! cell) -> is_Some (edata m !! current) ->
  emallocs m <> [] -> dmallocs m <> [] ->
  exists r m', static_event current cell m = Ok (r, m') /\ event_inv m' /\ key_lock m' = false /\
    match r with
    | None => Forall (fun used => used = true) (pth_event_keys m)
    | Some None => head (emallocs m) = Some None
    | Some (Some e) =>
        ((exists c, edata m !! current = Some (None, c)) /\ head (dmallocs m) = Some false) \/
        static_event current cell m' = Ok (Some (Some e), m')
    end.
Proof.
  intros Hinv Hlock [k Hc] [d Hd] Hem Hdm.
  set (m0 := set_key_lock true m).
  assert (exists ok m1, (if bool_decide (k = PTH_KEY_INIT) then __pth_event_key_create cell else mret true) m0 = Ok (ok, m1) /\
    event_inv m1 /\ edata m1 = edata m /\ emallocs m1 = emallocs m /\ dmallocs m1 = dmallocs m /\
    if ok then exists k, cells m1 !! cell = Some k /\ event_key_ok k m1 = true
    else m1 = m0 /\ Forall (fun u => u = true) (pth_event_keys m)) as (ok & m1 & E1 & Hi1 & Hd1 & Hem1 & Hdm1 & Hok).
  { case_bool_decide as Hk.
    - destruct (event_key_create_inv cell m0) as (ok & m1 & E & Hi & H1 & H2 & H3 & _ & H4); [done|]. by exists ok, m1.
    - exists true, m0. split; [done|]. do 4 (split; [done|]). exists k. split; [done|].
      destruct Hinv as (_ & _ & Hcell). by destruct (Hcell _ _ Hc). }
  unfold static_event. rewrite (bind_run get _ _ _ _ eq_refl), Hlock.
  rewrite (bind_run (modify (set_key_lock true)) _ m tt m0 eq_refl), (bind_run _ _ m0 k m0) by (by rewrite Hc).
  rewrite (bind_run _ _ _ _ _ E1). destruct ok; cbn [negb].
  - destruct Hok as (k' & Hk' & Hok). rewrite (bind_run get _ _ _ _ eq_refl).
    rewrite (bind_run _ _ _ k' m1) by (by rewrite Hk').
    destruct (event_of_key_inv current cell k' m1 d) as (ev & m' & E & Hi & Hl & Hev);
      [done|done|done|by rewrite Hd1|by rewrite Hem1|by rewrite Hdm1|].
    exists (Some ev), m'. split; [exact E|]. split; [done|]. split; [done|]. rewrite Hem1, Hdm1 in Hev.
    destruct ev as [e|]; [|done]. destruct Hev as [[? ?]|?]; [left|by right].
    destruct d as [[]c]; [done|]. split; [by exists c|done].
  - destruct Hok as [-> Hall]. exists None, m. rewrite (bind_run _ _ m0 tt m) by (unfold modify, m0; by rewrite unlock_id). done.
Qed.

Lemma static_event_reused_witness :
  let m := EMem ∅ ∅ {[0%nat := PTH_KEY_INIT]} (replicate 16 false) {[5%nat := (None, 0)]} false [Some 9%nat] [true] in
  exists r m', static_event 5 0 m = Ok (r, m') /\ static_event 5 0 m' = Ok (Some (Some 9%nat), m').
Proof.
  intros m. destruct (static_event_reused 5 0 m) as (r & m' & E & _ & _ & Hr).
  - split; [reflexivity|]. split; [by apply map_Forall_singleton|].
    intros cell k. cbn. rewrite lookup_singleton_Some. intros [_ <-]. by left.
  - reflexivity.
  - eexists; reflexivity.
  - eexists; reflexivity.
  - done.
  - done.
  - exists r, m'. split; [exact E|]. vm_compute in E. injection E as <- <-.
    destruct Hr as [[_ [=]]|Hr]. exact Hr.
Defined.
