(* ===== verification/Futex.v ===== *)
(** * Futexes (futex.h, futex-ia32.h)

    A futex is one word: 1 when it is free, 0 when it is held, negative when
    it is held and somebody may sleep on it.  The first part translates the
    operations as they run by themselves, with the answers of the system call
    as parameters.  The second part is the protocol: any number of processes
    run [futex_down] (with or without errors from the system call),
    [futex_trydown] and [futex_up] on one futex, and every access to the word
    is a step of its own.  The theorems are invariants of all interleavings. *)

From S2P Require Import Prelude.

Definition EWOULDBLOCK : Z := 11.
Definition INT_MAX : Z := 2 ^ 31 - 1.
Definition FUTEX_PASSED : Z := - (1024 * 1024 * 1024).

(** ** Operations *)

Record futex_st : Set := Futex { count : Z }.

Definition futex_count (f : futex_st) : Z := count f.

(** The test that precedes the decrement in [__futex_down]. *)
Definition down_read (c : Z) : option Z := if bool_decide (c < 0) then Some c else None.
(** [lock; decl; sete]: the result and the new word. *)
Definition down_dec (c : Z) : Z * Z :=
  let c' := swrap 32 (c - 1) in (if bool_decide (c' = 0) then 0 else -1, c').
Definition __futex_down (c : Z) : Z * Z :=
  match down_read c with Some v => (v, c) | None => down_dec c end.

(** [lock; incl; jg]: whether the sum is positive (the test takes the overflow
    flag into account), and the word. *)
Definition __futex_up (c : Z) : Z * Z :=
  let c' := swrap 32 (c + 1) in (if bool_decide (c + 1 > 0) then 1 else 0, c').

Definition __atomic_inc (c : Z) : Z := swrap 32 (c + 1).
Definition __furwock_dec_negative (c : Z) : Z * Z :=
  let c' := swrap 32 (c - 1) in (if bool_decide (c - 1 < 0) then 1 else 0, c').

Definition futex_init (f : futex_st) : futex_st := Futex 1.
Definition futex_destroy (f : futex_st) : futex_st := Futex 0.

Definition futex_trydown (f : futex_st) : Z * futex_st :=
  let '(v, c) := __futex_down (count f) in
  (if bool_decide (v = 0) then 0 else - EWOULDBLOCK, Futex c).

(** [futex_up], [futex_up_slow]: the result, the word, and how many sleepers
    the kernel is asked to wake; [woken] is its answer. *)
Definition futex_up_slow (f : futex_st) (howmany woken : Z) : Z * futex_st * option Z :=
  (woken, Futex 1, Some howmany).
Definition futex_up (f : futex_st) (howmany woken : Z) : Z * futex_st * option Z :=
  let '(r, c) := __futex_up (count f) in
  if bool_decide (r = 0) then futex_up_slow (Futex c) howmany woken else (0, Futex c, None).
Definition futex_release (f : futex_st) (woken : Z) : Z * futex_st * option Z :=
  futex_up f INT_MAX woken.
Definition futex_notify (f : futex_st) (woken : Z) : futex_st * option Z :=
  let '(_, f, w) := futex_up_slow f 1 woken in (f, w).
Definition futex_notify_all (f : futex_st) (woken : Z) : futex_st * option Z :=
  let '(_, f, w) := futex_up_slow f INT_MAX woken in (f, w).

(** [sys_futex(FUTEX_FD)] answers a descriptor or an error. *)
Definition futex_await (f : futex_st) (fd : Z) : Z := fd.
Definition futex_add_waiter : futex_st -> Z -> Z := futex_await.

Definition futex_acquire (f : futex_st) (tryonly : bool) (fd : Z) : Z * futex_st :=
  let '(r, f) := futex_trydown f in
  if bool_decide (r <> 0) then
    if tryonly then (0, f)
    else
      let futex_fd := futex_await f fd in
      if bool_decide (futex_fd < 0) then (futex_fd, f)
      else
        let '(r, f) := futex_trydown f in
        if bool_decide (r = 0) then (0, f)
        else if bool_decide (count f <= FUTEX_PASSED) then (0, Futex (-1))
        else (futex_fd, f)
  else (0, f).

(** ** The protocol *)

(** Whether a [down] gives up instead of sleeping, and otherwise the variable
    [woken]. *)
Inductive mode : Set := Try | Block (woken : bool).

Inductive pc : Set :=
  | Idle                       (** not using the futex *)
  | Read (m : mode)            (** [__futex_down]: about to read the word *)
  | Dec (m : mode)             (** [__futex_down]: about to decrement it *)
  | Wait (v : Z) (w : bool)    (** [futex_down_slow]: about to call [FUTEX_WAIT] with [v] *)
  | Asleep (w : bool)          (** in [FUTEX_WAIT] *)
  | Awake (w : bool)           (** [futex_down_slow]: woken, about to compare with [FUTEX_PASSED] *)
  | Pass                       (** [futex_down_slow]: about to store -1 after a direct pass *)
  | Mark                       (** [futex_down_timeout]: acquired, about to store -1 *)
  | Crit                       (** holds the futex *)
  | Inc (n : nat)              (** [futex_up]: about to increment *)
  | Store (n : nat)            (** [futex_up_slow]: about to store 1 *)
  | Wake (n : nat).            (** [futex_up_slow]: about to call [FUTEX_WAKE] *)

#[global] Instance mode_eq_dec : EqDecision mode.
Proof. solve_decision. Defined.
#[global] Instance pc_eq_dec : EqDecision pc.
Proof. solve_decision. Defined.

Record fstate : Set := FState { word : Z; procs : gmap nat pc }.

Definition goto (p : nat) (c : Z) (l : pc) (s : fstate) : fstate :=
  FState c (<[p := l]> (procs s)).

(** What the environment decides: the call of an idle process and of a
    holder (which asks for at least one sleeper to be woken), the result of the system call, the sleepers that are woken. *)
Inductive choice : Set :=
  | CDown | CTrydown | CUp (n : nat) | CRun | CError | CWake (ps : list nat).

Definition is_asleep (s : fstate) (p : nat) : bool :=
  match procs s !! p with Some (Asleep _) => true | _ => false end.

Definition sleepers (s : fstate) : list nat :=
  filter (fun p => is_asleep s p = true) (elements (dom (procs s))).

(** [FUTEX_WAKE] wakes [n] sleepers, or all if there are fewer. *)
Definition wake_choice (n : nat) (ps : list nat) (s : fstate) : bool :=
  bool_decide (NoDup ps) && forallb (is_asleep s) ps &&
  bool_decide (length ps = Nat.min n (length (sleepers s))).

Definition wake_one (l : pc) : pc := match l with Asleep w => Awake w | l => l end.

Definition wake_all (ps : list nat) (m : gmap nat pc) : gmap nat pc :=
  foldr (fun p m => alter wake_one p m) m ps.

(** One step of process [p]. *)
Definition fexec (p : nat) (ch : choice) (s : fstate) : option fstate :=
  let c := word s in
  match procs s !! p, ch with
  | Some Idle, CDown => Some (goto p c (Read (Block false)) s)
  | Some Idle, CTrydown => Some (goto p c (Read Try) s)
  | Some (Read m), CRun =>
      match down_read c, m with
      | None, _ => Some (goto p c (Dec m) s)
      | Some v, Try => Some (goto p c Idle s)
      | Some v, Block w => Some (goto p c (Wait v w) s)
      end
  | Some (Dec m), CRun =>
      let '(v, c') := down_dec c in
      if bool_decide (v = 0) then
        Some (goto p c' (match m with Block true => Mark | _ => Crit end) s)
      else
        Some (goto p c' (match m with Block w => Wait v w | Try => Idle end) s)
  | Some (Wait v w), CRun =>
      Some (goto p c (if bool_decide (c = v) then Asleep w else Read (Block w)) s)
  | Some (Wait _ _), CError | Some (Asleep _), CError => Some (goto p c Idle s)
  | Some (Awake w), CRun =>
      Some (goto p c (if bool_decide (c <= FUTEX_PASSED) then Pass else Read (Block true)) s)
  | Some Pass, CRun => Some (goto p (-1) Crit s)
  | Some Mark, CRun => Some (goto p (-1) Crit s)
  | Some Crit, CUp n => Some (goto p c (Inc (S n)) s)
  | Some (Inc n), CRun =>
      let '(r, c') := __futex_up c in
      Some (goto p c' (if bool_decide (r = 0) then Store n else Idle) s)
  | Some (Store n), CRun => Some (goto p 1 (Wake n) s)
  | Some (Wake n), CWake ps =>
      if wake_choice n ps s then Some (FState c (<[p := Idle]> (wake_all ps (procs s)))) else None
  | _, _ => None
  end.

(** [err]: whether the system call may fail. *)
Inductive fstep (err : bool) : fstate -> fstate -> Prop :=
  | fstep_run p ch s s' : (ch = CError -> err = true) -> fexec p ch s = Some s' -> fstep err s s'.

(** The states of [n] processes that share a futex. *)
Definition fstart (n : nat) : fstate := FState 1 (gset_to_gmap Idle (set_seq 0 n)).

Inductive freach (err : bool) (n : nat) : fstate -> Prop :=
  | freach_start : freach err n (fstart n)
  | freach_step s s' : freach err n s -> fstep err s s' -> freach err n s'.

(** The process holds the futex. *)
Definition holds (l : pc) : bool :=
  match l with Mark | Crit | Inc _ | Store _ => true | _ => false end.

(** ** Invariant *)

Definition is_dec (l : pc) : bool := match l with Dec _ => true | _ => false end.

(** How many processes have passed the test and not yet decremented. *)
Definition ndec (m : gmap nat pc) : Z := Z.of_nat (size (filter (fun x => is_dec x.2 = true) m)).

Definition b2z (b : bool) : Z := if b then 1 else 0.

Lemma ndec_fresh (m : gmap nat pc) p l : m !! p = None -> ndec (<[p := l]> m) = ndec m + b2z (is_dec l).
Proof.
  intros Hp. unfold ndec. destruct (is_dec l) eqn:E; simpl.
  - rewrite map_filter_insert_True by done. rewrite map_size_insert_None; [lia|].
    apply map_lookup_filter_None. by left.
  - rewrite map_filter_insert_False by (simpl; congruence). rewrite delete_id by done. lia.
Qed.

Lemma ndec_insert (m : gmap nat pc) p l0 l : m !! p = Some l0 ->
  ndec (<[p := l]> m) = ndec m - b2z (is_dec l0) + b2z (is_dec l).
Proof.
  intros Hp. rewrite <- (insert_delete_id m p l0 Hp) at 2. rewrite <- (insert_delete_eq m p l).
  rewrite !ndec_fresh by apply lookup_delete_eq. lia.
Qed.

Lemma ndec_bound (m : gmap nat pc) p l : m !! p = Some l ->
  0 <= ndec m <= Z.of_nat (size m) - b2z (negb (is_dec l)).
Proof.
  intros Hp. split; [unfold ndec; lia|]. rewrite <- (insert_delete_id m p l Hp).
  rewrite ndec_fresh, map_size_insert_None by apply lookup_delete_eq. unfold ndec.
  pose proof (map_size_filter (fun x : nat * pc => is_dec x.2 = true) (delete p m)).
  destruct (is_dec l); simpl; lia.
Qed.

(** A process is about to look at the word after it was woken, or to wake
    the sleepers. *)
Definition wakes (l : pc) : bool :=
  match l with
  | Read (Block true) | Dec (Block true) | Wait _ true | Awake _ | Mark | Store _ | Wake _ => true
  | _ => false
  end.

Definition pc_ok (l : pc) : Prop :=
  match l with
  | Wait v _ => v < 0
  | Inc n | Store n | Wake n => (0 < n)%nat
  | Pass => False
  | _ => True
  end.

(** At most one process holds the futex, and the word says whether one does;
    the word never gets near [FUTEX_PASSED]. *)
Record finv (n : nat) (s : fstate) : Prop := {
  fi_size : size (procs s) = n;
  fi_one : forall p q l l', procs s !! p = Some l -> procs s !! q = Some l' ->
    holds l = true -> holds l' = true -> p = q;
  fi_word : (word s = 1 /\ forall p l, procs s !! p = Some l -> holds l = false) \/
            (word s <= 0 /\ exists p l, procs s !! p = Some l /\ holds l = true);
  fi_low : - Z.of_nat n <= word s - ndec (procs s);
  fi_pc : forall p l, procs s !! p = Some l -> pc_ok l }.

(** Whenever a process sleeps, the next [futex_up] will see a negative word,
    or somebody is about to look after the sleepers. *)
Definition winv (s : fstate) : Prop :=
  forall p w, procs s !! p = Some (Asleep w) ->
    word s < 0 \/ exists q l, procs s !! q = Some l /\ wakes l = true.

(** One process moves from [l0] to [l] and the word becomes [c]: the effect on
    the holder. *)
Definition hold_step (s : fstate) (l0 l : pc) (c : Z) : Prop :=
  if holds l0 then (if holds l then c <= 0 else c = 1)
  else if holds l then word s = 1 /\ c <= 0
  else c = word s \/ (word s <= 0 /\ c <= 0).

Lemma finv_goto n s p l0 c l :
  finv n s -> procs s !! p = Some l0 -> pc_ok l ->
  - Z.of_nat n <= c - (ndec (procs s) - b2z (is_dec l0) + b2z (is_dec l)) ->
  hold_step s l0 l c -> finv n (goto p c l s).
Proof.
  intros Hinv Hp Hok Hlow Hhold.
  assert (holds l = true -> forall q k, procs s !! q = Some k -> holds k = true -> q = p) as Hother.
  { intros Hl q k Hq Hk. unfold hold_step in Hhold. destruct (holds l0) eqn:E0.
    - by eapply (fi_one _ _ Hinv).
    - rewrite Hl in Hhold. destruct (fi_word _ _ Hinv) as [[_ Hn]|[? _]]; [|lia].
      rewrite (Hn q k Hq) in Hk. done. }
  split; simpl.
  - rewrite map_size_insert_Some by (by eexists). apply (fi_size _ _ Hinv).
  - intros q q' k k'. rewrite !lookup_insert.
    case_decide as E1; case_decide as E2; intros Hq Hq' Hk Hk'; simplify_eq; [done| | |].
    + symmetry. by eapply Hother.
    + by eapply Hother.
    + by eapply (fi_one _ _ Hinv).
  - unfold hold_step in Hhold. destruct (holds l) eqn:El.
    + right. split; [destruct (holds l0); lia|]. exists p, l. by rewrite lookup_insert_eq.
    + destruct (holds l0) eqn:E0.
      * left. split; [done|]. intros q k. rewrite lookup_insert. case_decide as E; [by intros [= <-]|].
        intros Hq. destruct (holds k) eqn:Ek; [|done]. exfalso. apply E.
        by eapply (fi_one _ _ Hinv).
      * destruct (fi_word _ _ Hinv) as [[Hw Hn]|(Hw & q & k & Hq & Hk)].
        -- left. split; [lia|]. intros q k. rewrite lookup_insert.
           case_decide; [by intros [= <-]|]. apply Hn.
        -- right. split; [lia|]. exists q, k. rewrite lookup_insert_ne; [done|]. congruence.
  - by rewrite (ndec_insert _ _ l0).
  - intros q k. rewrite lookup_insert. case_decide; [by intros [= <-]|]. apply (fi_pc _ _ Hinv).
Qed.

Lemma winv_goto s p l0 c l :
  winv s -> procs s !! p = Some l0 ->
  c < 0 \/ wakes l = true \/
    ((forall w, l <> Asleep w) /\ (word s < 0 -> c < 0) /\ wakes l0 = false) ->
  winv (goto p c l s).
Proof.
  intros Hw Hp [Hc|[Hl|(Hl & Hc & H0)]] q w; simpl; [by left| |].
  - intros _. right. exists p, l. by rewrite lookup_insert_eq.
  - rewrite lookup_insert. case_decide as E; [intros [= ->]; by destruct (Hl w)|].
    intros Hq. destruct (Hw q w Hq) as [Hneg|(r & k & Hr & Hk)]; [left; by apply Hc|].
    right. exists r, k. rewrite lookup_insert_ne; [done|]. congruence.
Qed.

(** ** Waking *)

Lemma wake_all_lookup ps m q :
  wake_all ps m !! q = (if bool_decide (q ∈ ps) then wake_one <$> m !! q else m !! q).
Proof.
  induction ps as [|p ps IH]; [done|]. cbn [wake_all foldr]. fold (wake_all ps m).
  destruct (decide (p = q)) as [->|Hne].
  - rewrite lookup_alter_eq, IH, (bool_decide_eq_true_2 (q ∈ q :: ps)) by set_solver.
    case_bool_decide; [|done]. destruct (m !! q) as [l|]; [|done]. simpl. by destruct l.
  - rewrite lookup_alter_ne, IH by done.
    rewrite (bool_decide_ext (q ∈ p :: ps) (q ∈ ps)); [done|set_solver].
Qed.

Lemma wake_all_step ps p m : wake_all (p :: ps) m = alter wake_one p (wake_all ps m).
Proof. done. Qed.

Lemma wake_all_size ps m : size (wake_all ps m) = size m.
Proof.
  induction ps as [|p ps IH]; [done|]. rewrite wake_all_step, alter_alt, <- IH.
  destruct (wake_all ps m !! p) as [l|] eqn:E; [|done]. by apply map_size_insert_Some.
Qed.

Lemma wake_all_ndec ps m : ndec (wake_all ps m) = ndec m.
Proof.
  induction ps as [|p ps IH]; [done|]. rewrite wake_all_step, alter_alt, <- IH.
  destruct (wake_all ps m !! p) as [l|] eqn:E; [|done]. rewrite (ndec_insert _ _ _ _ E).
  assert (is_dec (wake_one l) = is_dec l) as -> by (by destruct l). lia.
Qed.

Lemma finv_wake n s ps : finv n s -> finv n (FState (word s) (wake_all ps (procs s))).
Proof.
  intros Hinv.
  assert (forall q k, wake_all ps (procs s) !! q = Some k -> exists l, procs s !! q = Some l /\ holds k = holds l /\ (pc_ok l -> pc_ok k))
    as Hback.
  { intros q k. rewrite wake_all_lookup. case_bool_decide; [|by exists k].
    intros (l & Hl & ->)%fmap_Some. exists l. split; [done|]. by destruct l. }
  split; simpl.
  - rewrite wake_all_size. apply (fi_size _ _ Hinv).
  - intros p q l l' (k & Hk & E & _)%Hback (k' & Hk' & E' & _)%Hback. rewrite E, E'.
    by eapply (fi_one _ _ Hinv).
  - destruct (fi_word _ _ Hinv) as [[Hw Hn]|(Hw & q & k & Hq & Hk)]; [left|right]; (split; [done|]).
    + intros p l (k & Hk & -> & _)%Hback. by eapply Hn.
    + exists q. rewrite wake_all_lookup, Hq. case_bool_decide; [|by exists k].
      exists (wake_one k). split; [done|]. by destruct k.
  - rewrite wake_all_ndec. apply (fi_low _ _ Hinv).
  - intros p l (k & Hk & _ & Hok)%Hback. apply Hok. by eapply (fi_pc _ _ Hinv).
Qed.

(** ** Preservation *)

Lemma word_range n s p l : finv n s -> procs s !! p = Some l ->
  - Z.of_nat n + b2z (is_dec l) <= word s <= 1.
Proof.
  intros Hinv Hp. pose proof (fi_low _ _ Hinv). destruct (ndec_bound _ _ _ Hp).
  assert (b2z (is_dec l) <= ndec (procs s)).
  { rewrite <- (insert_delete_id _ _ _ Hp), ndec_fresh by apply lookup_delete_eq.
    unfold ndec. lia. }
  destruct (fi_word _ _ Hinv); lia.
Qed.

Lemma is_asleep_spec s p : is_asleep s p = true <-> exists w, procs s !! p = Some (Asleep w).
Proof.
  unfold is_asleep. split; [|by intros [w ->]].
  destruct (procs s !! p) as [[]|]; try done. intros _. by eexists.
Qed.

Lemma elem_of_sleepers s p : p ∈ sleepers s <-> exists w, procs s !! p = Some (Asleep w).
Proof.
  unfold sleepers. rewrite list_elem_of_filter, elem_of_elements, elem_of_dom, is_asleep_spec.
  split; [tauto|]. intros [w E]. split; [by exists w|]. by rewrite E.
Qed.

Ltac fcase :=
  repeat (case_bool_decide || case_match); simplify_eq/=; try done.

(** The decrement and the increment in the range the word stays in. *)
Lemma down_dec_range c : - 2 ^ 30 < c <= 1 ->
  down_dec c = (if bool_decide (c = 1) then 0 else -1, c - 1).
Proof.
  intros Hc. unfold down_dec. rewrite swrap_small by (simpl; lia).
  by repeat case_bool_decide; try lia.
Qed.

Lemma futex_up_range c : - 2 ^ 30 <= c <= 1 ->
  __futex_up c = (if bool_decide (c < 0) then 0 else 1, c + 1).
Proof.
  intros Hc. unfold __futex_up. rewrite swrap_small by (simpl; lia).
  by repeat case_bool_decide; try lia.
Qed.

Ltac fgoto Hp := eapply finv_goto; [done|exact Hp| | |]; unfold hold_step; simpl; fcase; lia.

Lemma fexec_finv n p ch s s' : Z.of_nat n < 2 ^ 30 ->
  finv n s -> fexec p ch s = Some s' -> finv n s'.
Proof.
  intros Hn Hinv. unfold fexec. destruct (procs s !! p) as [l|] eqn:Hp; [|done].
  pose proof (word_range _ _ _ _ Hinv Hp) as Hr. pose proof (fi_low _ _ Hinv) as Hl.
  pose proof (fi_pc _ _ Hinv _ _ Hp) as Hok. pose proof (ndec_bound _ _ _ Hp) as Hb.
  rewrite (fi_size _ _ Hinv) in Hb.
  assert (holds l = true -> word s <= 0) as Hh.
  { intros E. destruct (fi_word _ _ Hinv) as [[_ Hno]|[? _]]; [|done].
    rewrite (Hno p l Hp) in E. done. }
  destruct l as [|m|m|v w|w|w| | | |k|k|k]; destruct ch; try done; simpl in Hr, Hb, Hok, Hh.
  all: try (intros [= <-]; fgoto Hp).
  - unfold down_read. case_bool_decide; [destruct m|]; intros [= <-]; fgoto Hp.
  - rewrite down_dec_range by lia.
    case_bool_decide as E; simpl; intros [= <-]; destruct m as [|[]]; fgoto Hp.
  - rewrite bool_decide_eq_false_2 by (unfold FUTEX_PASSED; lia). intros [= <-]. fgoto Hp.
  - rewrite futex_up_range by lia. specialize (Hh eq_refl).
    case_bool_decide as E; simpl; intros [= <-]; fgoto Hp.
  - destruct (wake_choice k ps s); [|done]. intros [= <-].
    set (s1 := FState (word s) (wake_all ps (procs s))).
    assert (exists l, procs s1 !! p = Some l /\ holds l = false /\ is_dec l = false) as (l & Hl1 & E1 & E2).
    { unfold s1. simpl. rewrite wake_all_lookup, Hp. case_bool_decide; by eexists. }
    apply (finv_goto n s1 p l (word s) Idle); [by apply finv_wake|done|done| |].
    + rewrite E2. unfold s1. simpl. rewrite wake_all_ndec. lia.
    + unfold hold_step. rewrite E1. simpl. by left.
Qed.

Lemma fexec_winv n p ch s s' : Z.of_nat n < 2 ^ 30 ->
  finv n s -> winv s -> ch <> CError -> fexec p ch s = Some s' -> winv s'.
Proof.
  intros Hn Hinv Hw Hch. unfold fexec. destruct (procs s !! p) as [l|] eqn:Hp; [|done].
  pose proof (word_range _ _ _ _ Hinv Hp) as Hr. pose proof (fi_pc _ _ Hinv _ _ Hp) as Hok.
  destruct l as [|[|[]]|[|[]]|v []|[]|w| | | |k|k|k]; destruct ch; try done; simpl in Hr, Hok.
  all: try rewrite down_dec_range by lia. all: try rewrite futex_up_range by lia.
  all: try (unfold down_read; repeat (case_bool_decide; simpl); intros [= <-];
    (eapply winv_goto; [done|exact Hp|]);
    first [left; lia|right; left; reflexivity|right; right; split_and!; [done|lia|done]]).
  - rewrite bool_decide_eq_false_2 by (unfold FUTEX_PASSED; lia). intros [= <-].
    eapply winv_goto; [done|exact Hp|]. by right; left.
  - destruct (wake_choice k ps s) eqn:Hc; [|done]. intros [= <-] q w. simpl.
    unfold wake_choice in Hc. rewrite !andb_true_iff, !bool_decide_eq_true, forallb_forall in Hc.
    destruct Hc as [[Hnd Has] Hlen]. rewrite lookup_insert. case_decide as Eq; [done|].
    rewrite wake_all_lookup. case_bool_decide as Hq.
    + destruct (procs s !! q) as [[]|]; simpl; done.
    + intros Hs. destruct ps as [|x ps].
      { assert (q ∈ sleepers s) as Hin by (apply elem_of_sleepers; eauto).
        destruct (sleepers s); [by apply not_elem_of_nil in Hin|]. simpl in Hlen. lia. }
      right. destruct (proj1 (is_asleep_spec s x) (Has x ltac:(by left))) as [w' Hx].
      exists x, (Awake w'). rewrite lookup_insert_ne by congruence.
      rewrite wake_all_lookup, bool_decide_eq_true_2, Hx by set_solver. done.
Qed.

Lemma fstart_inv n : finv n (fstart n) /\ winv (fstart n).
Proof.
  assert (forall p l, procs (fstart n) !! p = Some l -> l = Idle) as Hidle.
  { intros p l. unfold fstart. simpl. by intros [_ ->]%lookup_gset_to_gmap_Some. }
  split; [split|].
  - unfold fstart. simpl. by rewrite <- size_dom, dom_gset_to_gmap, size_set_seq.
  - intros p q l l' Hp _ Hl. rewrite (Hidle _ _ Hp) in Hl. done.
  - left. split; [done|]. by intros p l ->%Hidle.
  - simpl. unfold ndec. replace (filter _ _) with (∅ : gmap nat pc); [rewrite map_size_empty; lia|].
    symmetry. apply map_empty. intros p. apply map_lookup_filter_None. right. intros l Hp. by rewrite (Hidle p l Hp).
  - by intros p l ->%Hidle.
  - intros p w Hp. by apply Hidle in Hp.
Qed.

Lemma freach_inv err n s : Z.of_nat n < 2 ^ 30 -> freach err n s -> finv n s /\ (err = false -> winv s).
Proof.
  intros Hn. induction 1 as [|s s' _ [Hi Hw] Hst].
  - destruct (fstart_inv n). split; [done|]. done.
  - inversion Hst as [p ch s0 s1 He E]; subst. split; [by eapply fexec_finv|]. intros ->. eapply fexec_winv; [done|done|by apply Hw| |done].
    intros ->. by specialize (He eq_refl).
Qed.

(** ** Properties *)

(** C2: a futex is a mutual exclusion lock: however the steps of fewer than
    2^30 processes interleave, and whatever errors the system call returns,
    at most one process holds it.  The word stays between minus the number of
    processes and 1, so it neither overflows nor looks like a direct pass;
    it is 1 exactly when nobody holds the futex. *)
Theorem futex_mutual_exclusion err n s p q l l' :
  Z.of_nat n < 2 ^ 30 -> freach err n s ->
  procs s !! p = Some l -> procs s !! q = Some l' ->
  (holds l = true -> holds l' = true -> p = q) /\
  (holds l = true -> word s <= 0) /\ - Z.of_nat n <= word s <= 1 /\ l <> Pass.
Proof.
  intros Hn Hr Hp Hq. destruct (freach_inv _ _ _ Hn Hr) as [Hinv _]. split_and!.
  - by apply (fi_one _ _ Hinv).
  - intros Hl. destruct (fi_word _ _ Hinv) as [[_ Hno]|[? _]]; [|done].
    rewrite (Hno p l Hp) in Hl. done.
  - pose proof (word_range _ _ _ _ Hinv Hp). destruct (is_dec l); simpl in *; lia.
  - pose proof (word_range _ _ _ _ Hinv Hp). destruct (is_dec l); simpl in *; lia.
  - pose proof (fi_pc _ _ Hinv _ _ Hp) as Hok. by intros ->.
Qed.

(** C17: no wakeup is lost: when the system call does not fail, it is
    impossible that processes sleep while all others have left the futex
    alone; whenever a process sleeps, either the word is negative, so that
    the release of the holder will wake somebody, or some process is about to
    wake the sleepers or has just been woken. *)
Theorem futex_no_lost_wakeup n s :
  Z.of_nat n < 2 ^ 30 -> freach false n s ->
  (forall p w, procs s !! p = Some (Asleep w) ->
     word s < 0 \/ exists q l, procs s !! q = Some l /\ wakes l = true) /\
  ((forall p l, procs s !! p = Some l -> l = Idle \/ exists w, l = Asleep w) ->
   word s = 1 /\ forall p l, procs s !! p = Some l -> l = Idle).
Proof.
  intros Hn Hr. destruct (freach_inv _ _ _ Hn Hr) as [Hinv Hw]. specialize (Hw eq_refl).
  split; [exact Hw|]. intros Hq. destruct (fi_word _ _ Hinv) as [[Hone _]|(_ & p & l & Hp & Hl)].
  - split; [done|]. intros p l Hp. destruct (Hq p l Hp) as [|[w ->]]; [done|]. exfalso.
    destruct (Hw p w Hp) as [?|(q & k & Hk & Hwk)]; [lia|]. by destruct (Hq q k Hk) as [->|[? ->]].
  - by destruct (Hq p l Hp) as [->|[w ->]].
Qed.

(** [futex_acquire] with [tryonly] answers 0, "futex acquired", also for
    a futex that somebody else holds. *)
Theorem futex_acquire_try_held f fd :
  - 2 ^ 30 < count f <= 0 -> (futex_acquire f true fd).1 = 0 /\ count (futex_acquire f true fd).2 < 0.
Proof.
  intros Hc. unfold futex_acquire, futex_trydown, __futex_down, down_read.
  case_bool_decide as E; simpl.
  - rewrite (bool_decide_eq_false_2 (count f = 0)) by lia. simpl. lia.
  - assert (count f = 0) as -> by lia. done.
Qed.

(** ** Witnesses *)

(** Process 0 takes the futex, process 1 finds it taken and goes to sleep. *)
Definition demo : list (nat * choice) :=
  [ (0, CDown); (0, CRun); (0, CRun); (1, CDown); (1, CRun); (1, CRun); (1, CRun) ]%nat.

Definition frun (l : list (nat * choice)) (s : fstate) : option fstate :=
  foldl (fun o e => o ≫= fexec e.1 e.2) (Some s) l.

Lemma frun_app l e s : frun (l ++ [e]) s = frun l s ≫= fexec e.1 e.2.
Proof. unfold frun. by rewrite foldl_app. Qed.

Lemma frun_reach err n l s : Forall (fun e => e.2 <> CError) l -> frun l (fstart n) = Some s -> freach err n s.
Proof.
  revert s. induction l as [|e l IH] using rev_ind; intros s Hl.
  - intros [= <-]. constructor.
  - rewrite frun_app. apply Forall_app in Hl as [Hl He]. inversion He as [|? ? He' _]; subst.
    intros (s0 & E0 & E)%bind_Some. eapply freach_step; [by apply IH|].
    eapply (fstep_run err e.1 e.2); [|exact E]. intros Hc. by destruct (He' Hc).
Qed.

Lemma demo_reach err : exists s, freach err 2 s /\ word s = -1 /\
  procs s !! 0%nat = Some Crit /\ procs s !! 1%nat = Some (Asleep false).
Proof.
  destruct (frun demo (fstart 2)) as [s|] eqn:E; [|vm_compute in E; discriminate].
  exists s. split; [apply (frun_reach err 2 demo); [|done]; by repeat constructor|].
  vm_compute in E. by injection E as <-.
Qed.

Lemma futex_mutual_exclusion_witness : exists s,
  procs s !! 0%nat = Some Crit /\ procs s !! 1%nat = Some (Asleep false) /\ - 2 <= word s <= 0.
Proof.
  destruct (demo_reach true) as (s & Hr & _ & H0 & H1). exists s.
  destruct (futex_mutual_exclusion true 2 s 0 1 Crit (Asleep false)) as (_ & Hh & Hw & _); [lia|done..|].
  specialize (Hh eq_refl). split_and!; [done|done|lia|lia].
Defined.

Lemma futex_no_lost_wakeup_witness : exists s, procs s !! 1%nat = Some (Asleep false) /\
  (word s < 0 \/ exists q l, procs s !! q = Some l /\ wakes l = true).
Proof.
  destruct (demo_reach false) as (s & Hr & _ & H0 & H1). exists s. split; [done|].
  destruct (futex_no_lost_wakeup 2 s) as [Hw _]; [lia|done|]. by apply (Hw 1%nat false).
Defined.

Lemma futex_acquire_try_held_witness : (futex_acquire (Futex 0) true 5).1 = 0 /\
  count (futex_acquire (Futex 0) true 5).2 < 0.
Proof. apply (futex_acquire_try_held (Futex 0) 5). simpl. lia. Defined.
