(* ===== verification/World.v ===== *)
(** * The state of the threads library

    The threads, the native threads they run on, the queues they are in, and
    the mutexes and condition variables they wait for: what pth_tcb.c,
    pth_native.c, pth_sched.c and pth_sync.c share.  The functions of
    schedule.h and the locks of pth_p.h are here, too.

    Threads, natives (indices of [pth_native_list]), mutexes and condition
    variables are identified by numbers.  The memory has one store per kind of
    object, and separate stores for the embedded list nodes: the nodes of the
    priority queues ([qm], see PQueue), the ring nodes of the mutexes
    ([mnodes]) and the nodes of the wait lists ([waits]). *)

From S2P Require Import Prelude Bitmap Dll LinkedList Ring Priorities PQueue Futex.

Inductive pth_state_t : Set :=
  | PTH_STATE_SCHEDULER | PTH_STATE_NEW | PTH_STATE_READY | PTH_STATE_WAITING
  | PTH_STATE_MUTEX_WAITING | PTH_STATE_DEAD | PTH_STATE_EXIT.

#[global] Instance pth_state_t_eq_dec : EqDecision pth_state_t.
Proof. solve_decision. Defined.

(** The nodes of the wait lists. *)
Inductive waddr : Set :=
  | WMutex (m : nat)     (** [&m->mx_waitlist] *)
  | WCond (c : nat)      (** [&c->cn_waitlist] *)
  | WThread (t : nat).   (** [&t->mutex_cond_wait] *)

#[global] Instance waddr_eq_dec : EqDecision waddr.
Proof. solve_decision. Defined.
#[global] Instance waddr_countable : Countable waddr.
Proof.
  refine (inj_countable'
    (fun a => match a with WMutex m => inl (inl m) | WCond c => inl (inr c) | WThread t => inr t end)
    (fun k => match k with inl (inl m) => WMutex m | inl (inr c) => WCond c | inr t => WThread t end) _).
  by intros [].
Defined.
#[global] Instance WThread_inj : Inj eq eq WThread.
Proof. by intros ?? [= ->]. Qed.

Record pth_qlock_st : Set := QLock {
  spinlock : Z;
  owner : Z;
  qcount : Z }.

Definition set_spinlock (v : Z) (x : pth_qlock_st) : pth_qlock_st :=
  QLock v (owner x) (qcount x).
Definition set_owner (v : Z) (x : pth_qlock_st) : pth_qlock_st :=
  QLock (spinlock x) v (qcount x).
Definition set_qcount (v : Z) (x : pth_qlock_st) : pth_qlock_st :=
  QLock (spinlock x) (owner x) v.

(** The members of [struct pth_st] that the modelled code uses; [prio] is
    [priority], [magic] whether it points to [pth_threads_queue]; [node] is in
    the memory of the queues, [mutex_cond_wait] in that of the wait lists. *)
Record pth_st : Set := Pth {
  boundnative : option nat;
  prio : Z;
  schedpolicy : Z;
  state : pth_state_t;
  should_suspend : bool;
  cancelreq : bool;
  cancelstate : Z;
  joinable : Z;
  join_arg : Z;
  joined_count : Z;
  joined_native : option nat;
  joined_thread : option nat;
  waited_native : option nat;
  mutex_owned : option nat;
  mutexring : pth_ring_t nat;
  tlock : pth_qlock_st;
  magic : bool }.

Definition set_boundnative (v : option nat) (x : pth_st) : pth_st :=
  Pth v (prio x) (schedpolicy x) (state x) (should_suspend x) (cancelreq x) (cancelstate x) (joinable x) (join_arg x) (joined_count x) (joined_native x) (joined_thread x) (waited_native x) (mutex_owned x) (mutexring x) (tlock x) (magic x).
Definition set_prio (v : Z) (x : pth_st) : pth_st :=
  Pth (boundnative x) v (schedpolicy x) (state x) (should_suspend x) (cancelreq x) (cancelstate x) (joinable x) (join_arg x) (joined_count x) (joined_native x) (joined_thread x) (waited_native x) (mutex_owned x) (mutexring x) (tlock x) (magic x).
Definition set_schedpolicy (v : Z) (x : pth_st) : pth_st :=
  Pth (boundnative x) (prio x) v (state x) (should_suspend x) (cancelreq x) (cancelstate x) (joinable x) (join_arg x) (joined_count x) (joined_native x) (joined_thread x) (waited_native x) (mutex_owned x) (mutexring x) (tlock x) (magic x).
Definition set_state (v : pth_state_t) (x : pth_st) : pth_st :=
  Pth (boundnative x) (prio x) (schedpolicy x) v (should_suspend x) (cancelreq x) (cancelstate x) (joinable x) (join_arg x) (joined_count x) (joined_native x) (joined_thread x) (waited_native x) (mutex_owned x) (mutexring x) (tlock x) (magic x).
Definition set_should_suspend (v : bool) (x : pth_st) : pth_st :=
  Pth (boundnative x) (prio x) (schedpolicy x) (state x) v (cancelreq x) (cancelstate x) (joinable x) (join_arg x) (joined_count x) (joined_native x) (joined_thread x) (waited_native x) (mutex_owned x) (mutexring x) (tlock x) (magic x).
Definition set_cancelreq (v : bool) (x : pth_st) : pth_st :=
  Pth (boundnative x) (prio x) (schedpolicy x) (state x) (should_suspend x) v (cancelstate x) (joinable x) (join_arg x) (joined_count x) (joined_native x) (joined_thread x) (waited_native x) (mutex_owned x) (mutexring x) (tlock x) (magic x).
Definition set_cancelstate (v : Z) (x : pth_st) : pth_st :=
  Pth (boundnative x) (prio x) (schedpolicy x) (state x) (should_suspend x) (cancelreq x) v (joinable x) (join_arg x) (joined_count x) (joined_native x) (joined_thread x) (waited_native x) (mutex_owned x) (mutexring x) (tlock x) (magic x).
Definition set_joinable (v : Z) (x : pth_st) : pth_st :=
  Pth (boundnative x) (prio x) (schedpolicy x) (state x) (should_suspend x) (cancelreq x) (cancelstate x) v (join_arg x) (joined_count x) (joined_native x) (joined_thread x) (waited_native x) (mutex_owned x) (mutexring x) (tlock x) (magic x).
Definition set_join_arg (v : Z) (x : pth_st) : pth_st :=
  Pth (boundnative x) (prio x) (schedpolicy x) (state x) (should_suspend x) (cancelreq x) (cancelstate x) (joinable x) v (joined_count x) (joined_native x) (joined_thread x) (waited_native x) (mutex_owned x) (mutexring x) (tlock x) (magic x).
Definition set_joined_count (v : Z) (x : pth_st) : pth_st :=
  Pth (boundnative x) (prio x) (schedpolicy x) (state x) (should_suspend x) (cancelreq x) (cancelstate x) (joinable x) (join_arg x) v (joined_native x) (joined_thread x) (waited_native x) (mutex_owned x) (mutexring x) (tlock x) (magic x).
Definition set_joined_native (v : option nat) (x : pth_st) : pth_st :=
  Pth (boundnative x) (prio x) (schedpolicy x) (state x) (should_suspend x) (cancelreq x) (cancelstate x) (joinable x) (join_arg x) (joined_count x) v (joined_thread x) (waited_native x) (mutex_owned x) (mutexring x) (tlock x) (magic x).
Definition set_joined_thread (v : option nat) (x : pth_st) : pth_st :=
  Pth (boundnative x) (prio x) (schedpolicy x) (state x) (should_suspend x) (cancelreq x) (cancelstate x) (joinable x) (join_arg x) (joined_count x) (joined_native x) v (waited_native x) (mutex_owned x) (mutexring x) (tlock x) (magic x).
Definition set_waited_native (v : option nat) (x : pth_st) : pth_st :=
  Pth (boundnative x) (prio x) (schedpolicy x) (state x) (should_suspend x) (cancelreq x) (cancelstate x) (joinable x) (join_arg x) (joined_count x) (joined_native x) (joined_thread x) v (mutex_owned x) (mutexring x) (tlock x) (magic x).
Definition set_mutex_owned (v : option nat) (x : pth_st) : pth_st :=
  Pth (boundnative x) (prio x) (schedpolicy x) (state x) (should_suspend x) (cancelreq x) (cancelstate x) (joinable x) (join_arg x) (joined_count x) (joined_native x) (joined_thread x) (waited_native x) v (mutexring x) (tlock x) (magic x).
Definition set_mutexring (v : pth_ring_t nat) (x : pth_st) : pth_st :=
  Pth (boundnative x) (prio x) (schedpolicy x) (state x) (should_suspend x) (cancelreq x) (cancelstate x) (joinable x) (join_arg x) (joined_count x) (joined_native x) (joined_thread x) (waited_native x) (mutex_owned x) v (tlock x) (magic x).
Definition set_tlock (v : pth_qlock_st) (x : pth_st) : pth_st :=
  Pth (boundnative x) (prio x) (schedpolicy x) (state x) (should_suspend x) (cancelreq x) (cancelstate x) (joinable x) (join_arg x) (joined_count x) (joined_native x) (joined_thread x) (waited_native x) (mutex_owned x) (mutexring x) v (magic x).
Definition set_magic (v : bool) (x : pth_st) : pth_st :=
  Pth (boundnative x) (prio x) (schedpolicy x) (state x) (should_suspend x) (cancelreq x) (cancelstate x) (joinable x) (join_arg x) (joined_count x) (joined_native x) (joined_thread x) (waited_native x) (mutex_owned x) (mutexring x) (tlock x) v.

(** [struct pth_descr_st]; [sigpipe] counts the bytes in the pipe. *)
Record pth_descr_st : Set := Descr {
  is_used : bool;
  pid : Z;
  tid : Z;
  sched : option nat;
  current : option nat;
  is_bound : bool;
  sigpipe : Z;
  sched_lock : pth_qlock_st;
  is_running : bool;
  is_bounded : bool;
  do_yield : bool;
  bounded_thread : option nat }.

Definition set_is_used (v : bool) (x : pth_descr_st) : pth_descr_st :=
  Descr v (pid x) (tid x) (sched x) (current x) (is_bound x) (sigpipe x) (sched_lock x) (is_running x) (is_bounded x) (do_yield x) (bounded_thread x).
Definition set_pid (v : Z) (x : pth_descr_st) : pth_descr_st :=
  Descr (is_used x) v (tid x) (sched x) (current x) (is_bound x) (sigpipe x) (sched_lock x) (is_running x) (is_bounded x) (do_yield x) (bounded_thread x).
Definition set_tid (v : Z) (x : pth_descr_st) : pth_descr_st :=
  Descr (is_used x) (pid x) v (sched x) (current x) (is_bound x) (sigpipe x) (sched_lock x) (is_running x) (is_bounded x) (do_yield x) (bounded_thread x).
Definition set_sched (v : option nat) (x : pth_descr_st) : pth_descr_st :=
  Descr (is_used x) (pid x) (tid x) v (current x) (is_bound x) (sigpipe x) (sched_lock x) (is_running x) (is_bounded x) (do_yield x) (bounded_thread x).
Definition set_current (v : option nat) (x : pth_descr_st) : pth_descr_st :=
  Descr (is_used x) (pid x) (tid x) (sched x) v (is_bound x) (sigpipe x) (sched_lock x) (is_running x) (is_bounded x) (do_yield x) (bounded_thread x).
Definition set_is_bound (v : bool) (x : pth_descr_st) : pth_descr_st :=
  Descr (is_used x) (pid x) (tid x) (sched x) (current x) v (sigpipe x) (sched_lock x) (is_running x) (is_bounded x) (do_yield x) (bounded_thread x).
Definition set_sigpipe (v : Z) (x : pth_descr_st) : pth_descr_st :=
  Descr (is_used x) (pid x) (tid x) (sched x) (current x) (is_bound x) v (sched_lock x) (is_running x) (is_bounded x) (do_yield x) (bounded_thread x).
Definition set_sched_lock (v : pth_qlock_st) (x : pth_descr_st) : pth_descr_st :=
  Descr (is_used x) (pid x) (tid x) (sched x) (current x) (is_bound x) (sigpipe x) v (is_running x) (is_bounded x) (do_yield x) (bounded_thread x).
Definition set_is_running (v : bool) (x : pth_descr_st) : pth_descr_st :=
  Descr (is_used x) (pid x) (tid x) (sched x) (current x) (is_bound x) (sigpipe x) (sched_lock x) v (is_bounded x) (do_yield x) (bounded_thread x).
Definition set_is_bounded (v : bool) (x : pth_descr_st) : pth_descr_st :=
  Descr (is_used x) (pid x) (tid x) (sched x) (current x) (is_bound x) (sigpipe x) (sched_lock x) (is_running x) v (do_yield x) (bounded_thread x).
Definition set_do_yield (v : bool) (x : pth_descr_st) : pth_descr_st :=
  Descr (is_used x) (pid x) (tid x) (sched x) (current x) (is_bound x) (sigpipe x) (sched_lock x) (is_running x) (is_bounded x) v (bounded_thread x).
Definition set_bounded_thread (v : option nat) (x : pth_descr_st) : pth_descr_st :=
  Descr (is_used x) (pid x) (tid x) (sched x) (current x) (is_bound x) (sigpipe x) (sched_lock x) (is_running x) (is_bounded x) (do_yield x) v.

Record rfutex_st : Set := RFutex {
  futex : futex_st;
  pshared : bool;
  rtype : Z }.

Definition set_futex (v : futex_st) (x : rfutex_st) : rfutex_st :=
  RFutex v (pshared x) (rtype x).
Definition set_pshared (v : bool) (x : rfutex_st) : rfutex_st :=
  RFutex (futex x) v (rtype x).
Definition set_rtype (v : Z) (x : rfutex_st) : rfutex_st :=
  RFutex (futex x) (pshared x) v.

Record pth_mutex_st : Set := Mutex {
  mx_state : Z;
  mx_index : Z;
  mx_type : Z;
  mx_owner : option nat;
  mx_owner_pid : Z;
  mx_lock : pth_qlock_st;
  mx_shared : rfutex_st;
  mx_count : Z;
  mx_waitcount : Z }.

Definition set_mx_state (v : Z) (x : pth_mutex_st) : pth_mutex_st :=
  Mutex v (mx_index x) (mx_type x) (mx_owner x) (mx_owner_pid x) (mx_lock x) (mx_shared x) (mx_count x) (mx_waitcount x).
Definition set_mx_index (v : Z) (x : pth_mutex_st) : pth_mutex_st :=
  Mutex (mx_state x) v (mx_type x) (mx_owner x) (mx_owner_pid x) (mx_lock x) (mx_shared x) (mx_count x) (mx_waitcount x).
Definition set_mx_type (v : Z) (x : pth_mutex_st) : pth_mutex_st :=
  Mutex (mx_state x) (mx_index x) v (mx_owner x) (mx_owner_pid x) (mx_lock x) (mx_shared x) (mx_count x) (mx_waitcount x).
Definition set_mx_owner (v : option nat) (x : pth_mutex_st) : pth_mutex_st :=
  Mutex (mx_state x) (mx_index x) (mx_type x) v (mx_owner_pid x) (mx_lock x) (mx_shared x) (mx_count x) (mx_waitcount x).
Definition set_mx_owner_pid (v : Z) (x : pth_mutex_st) : pth_mutex_st :=
  Mutex (mx_state x) (mx_index x) (mx_type x) (mx_owner x) v (mx_lock x) (mx_shared x) (mx_count x) (mx_waitcount x).
Definition set_mx_lock (v : pth_qlock_st) (x : pth_mutex_st) : pth_mutex_st :=
  Mutex (mx_state x) (mx_index x) (mx_type x) (mx_owner x) (mx_owner_pid x) v (mx_shared x) (mx_count x) (mx_waitcount x).
Definition set_mx_shared (v : rfutex_st) (x : pth_mutex_st) : pth_mutex_st :=
  Mutex (mx_state x) (mx_index x) (mx_type x) (mx_owner x) (mx_owner_pid x) (mx_lock x) v (mx_count x) (mx_waitcount x).
Definition set_mx_count (v : Z) (x : pth_mutex_st) : pth_mutex_st :=
  Mutex (mx_state x) (mx_index x) (mx_type x) (mx_owner x) (mx_owner_pid x) (mx_lock x) (mx_shared x) v (mx_waitcount x).
Definition set_mx_waitcount (v : Z) (x : pth_mutex_st) : pth_mutex_st :=
  Mutex (mx_state x) (mx_index x) (mx_type x) (mx_owner x) (mx_owner_pid x) (mx_lock x) (mx_shared x) (mx_count x) v.

Record pth_cond_st : Set := Cond {
  cn_state : Z;
  cn_waiters : Z;
  cn_index : Z;
  cn_lock : pth_qlock_st;
  cn_shared : rfutex_st;
  cn_wakecnt : Z }.

Definition set_cn_state (v : Z) (x : pth_cond_st) : pth_cond_st :=
  Cond v (cn_waiters x) (cn_index x) (cn_lock x) (cn_shared x) (cn_wakecnt x).
Definition set_cn_waiters (v : Z) (x : pth_cond_st) : pth_cond_st :=
  Cond (cn_state x) v (cn_index x) (cn_lock x) (cn_shared x) (cn_wakecnt x).
Definition set_cn_index (v : Z) (x : pth_cond_st) : pth_cond_st :=
  Cond (cn_state x) (cn_waiters x) v (cn_lock x) (cn_shared x) (cn_wakecnt x).
Definition set_cn_lock (v : pth_qlock_st) (x : pth_cond_st) : pth_cond_st :=
  Cond (cn_state x) (cn_waiters x) (cn_index x) v (cn_shared x) (cn_wakecnt x).
Definition set_cn_shared (v : rfutex_st) (x : pth_cond_st) : pth_cond_st :=
  Cond (cn_state x) (cn_waiters x) (cn_index x) (cn_lock x) v (cn_wakecnt x).
Definition set_cn_wakecnt (v : Z) (x : pth_cond_st) : pth_cond_st :=
  Cond (cn_state x) (cn_waiters x) (cn_index x) (cn_lock x) (cn_shared x) v.

Record pth_rwlock_st : Set := RWLock {
  rw_readers : Z;
  rw_mode : Z;
  rw_mutex_rd : option nat;
  rw_mutex_rw : option nat;
  rw_state : Z;
  rw_pshared : bool }.

Definition set_rw_readers (v : Z) (x : pth_rwlock_st) : pth_rwlock_st :=
  RWLock v (rw_mode x) (rw_mutex_rd x) (rw_mutex_rw x) (rw_state x) (rw_pshared x).
Definition set_rw_mode (v : Z) (x : pth_rwlock_st) : pth_rwlock_st :=
  RWLock (rw_readers x) v (rw_mutex_rd x) (rw_mutex_rw x) (rw_state x) (rw_pshared x).
Definition set_rw_mutex_rd (v : option nat) (x : pth_rwlock_st) : pth_rwlock_st :=
  RWLock (rw_readers x) (rw_mode x) v (rw_mutex_rw x) (rw_state x) (rw_pshared x).
Definition set_rw_mutex_rw (v : option nat) (x : pth_rwlock_st) : pth_rwlock_st :=
  RWLock (rw_readers x) (rw_mode x) (rw_mutex_rd x) v (rw_state x) (rw_pshared x).
Definition set_rw_state (v : Z) (x : pth_rwlock_st) : pth_rwlock_st :=
  RWLock (rw_readers x) (rw_mode x) (rw_mutex_rd x) (rw_mutex_rw x) v (rw_pshared x).
Definition set_rw_pshared (v : bool) (x : pth_rwlock_st) : pth_rwlock_st :=
  RWLock (rw_readers x) (rw_mode x) (rw_mutex_rd x) (rw_mutex_rw x) (rw_state x) v.

Record pth_barrier_st : Set := Barrier {
  br_state : Z;
  br_threshold : Z;
  br_count : Z;
  br_cycle : bool;
  br_cond : nat;
  br_mutex : nat }.

Definition set_br_state (v : Z) (x : pth_barrier_st) : pth_barrier_st :=
  Barrier v (br_threshold x) (br_count x) (br_cycle x) (br_cond x) (br_mutex x).
Definition set_br_threshold (v : Z) (x : pth_barrier_st) : pth_barrier_st :=
  Barrier (br_state x) v (br_count x) (br_cycle x) (br_cond x) (br_mutex x).
Definition set_br_count (v : Z) (x : pth_barrier_st) : pth_barrier_st :=
  Barrier (br_state x) (br_threshold x) v (br_cycle x) (br_cond x) (br_mutex x).
Definition set_br_cycle (v : bool) (x : pth_barrier_st) : pth_barrier_st :=
  Barrier (br_state x) (br_threshold x) (br_count x) v (br_cond x) (br_mutex x).
Definition set_br_cond (v : nat) (x : pth_barrier_st) : pth_barrier_st :=
  Barrier (br_state x) (br_threshold x) (br_count x) (br_cycle x) v (br_mutex x).
Definition set_br_mutex (v : nat) (x : pth_barrier_st) : pth_barrier_st :=
  Barrier (br_state x) (br_threshold x) (br_count x) (br_cycle x) (br_cond x) v.

(** An object of the shared area: whether it is used, the mutex and the
    condition variable that share its memory. *)
Record pth_shared_sync_st : Set := Slot {
  sl_used : bool;
  sl_mx : nat;
  sl_cn : nat }.

Definition set_sl_used (v : bool) (x : pth_shared_sync_st) : pth_shared_sync_st :=
  Slot v (sl_mx x) (sl_cn x).
Definition set_sl_mx (v : nat) (x : pth_shared_sync_st) : pth_shared_sync_st :=
  Slot (sl_used x) v (sl_cn x).
Definition set_sl_cn (v : nat) (x : pth_shared_sync_st) : pth_shared_sync_st :=
  Slot (sl_used x) (sl_mx x) v.

(** [mx_mallocs]: what the next requests for two mutexes in one block
    ([pth_rwlock_init]) yield. *)
Record world : Set := World {
  threads : gmap nat pth_st;
  natives : list pth_descr_st;
  self : option nat;
  mutexes : gmap nat pth_mutex_st;
  conds : gmap nat pth_cond_st;
  mnodes : gmap nat (link nat);
  rwlocks : gmap nat pth_rwlock_st;
  barriers : gmap nat pth_barrier_st;
  waits : gmap waddr (link waddr);
  qm : qmem;
  pth_number_of_natives : Z;
  shared_objs : list pth_shared_sync_st;
  shared_lock : pth_qlock_st;
  mx_mallocs : list (option (nat * nat)) }.

Definition set_threads (v : gmap nat pth_st) (x : world) : world :=
  World v (natives x) (self x) (mutexes x) (conds x) (mnodes x) (rwlocks x) (barriers x) (waits x) (qm x) (pth_number_of_natives x) (shared_objs x) (shared_lock x) (mx_mallocs x).
Definition set_natives (v : list pth_descr_st) (x : world) : world :=
  World (threads x) v (self x) (mutexes x) (conds x) (mnodes x) (rwlocks x) (barriers x) (waits x) (qm x) (pth_number_of_natives x) (shared_objs x) (shared_lock x) (mx_mallocs x).
Definition set_self (v : option nat) (x : world) : world :=
  World (threads x) (natives x) v (mutexes x) (conds x) (mnodes x) (rwlocks x) (barriers x) (waits x) (qm x) (pth_number_of_natives x) (shared_objs x) (shared_lock x) (mx_mallocs x).
Definition set_mutexes (v : gmap nat pth_mutex_st) (x : world) : world :=
  World (threads x) (natives x) (self x) v (conds x) (mnodes x) (rwlocks x) (barriers x) (waits x) (qm x) (pth_number_of_natives x) (shared_objs x) (shared_lock x) (mx_mallocs x).
Definition set_conds (v : gmap nat pth_cond_st) (x : world) : world :=
  World (threads x) (natives x) (self x) (mutexes x) v (mnodes x) (rwlocks x) (barriers x) (waits x) (qm x) (pth_number_of_natives x) (shared_objs x) (shared_lock x) (mx_mallocs x).
Definition set_mnodes (v : gmap nat (link nat)) (x : world) : world :=
  World (threads x) (natives x) (self x) (mutexes x) (conds x) v (rwlocks x) (barriers x) (waits x) (qm x) (pth_number_of_natives x) (shared_objs x) (shared_lock x) (mx_mallocs x).
Definition set_rwlocks (v : gmap nat pth_rwlock_st) (x : world) : world :=
  World (threads x) (natives x) (self x) (mutexes x) (conds x) (mnodes x) v (barriers x) (waits x) (qm x) (pth_number_of_natives x) (shared_objs x) (shared_lock x) (mx_mallocs x).
Definition set_barriers (v : gmap nat pth_barrier_st) (x : world) : world :=
  World (threads x) (natives x) (self x) (mutexes x) (conds x) (mnodes x) (rwlocks x) v (waits x) (qm x) (pth_number_of_natives x) (shared_objs x) (shared_lock x) (mx_mallocs x).
Definition set_waits (v : gmap waddr (link waddr)) (x : world) : world :=
  World (threads x) (natives x) (self x) (mutexes x) (conds x) (mnodes x) (rwlocks x) (barriers x) v (qm x) (pth_number_of_natives x) (shared_objs x) (shared_lock x) (mx_mallocs x).
Definition set_qm (v : qmem) (x : world) : world :=
  World (threads x) (natives x) (self x) (mutexes x) (conds x) (mnodes x) (rwlocks x) (barriers x) (waits x) v (pth_number_of_natives x) (shared_objs x) (shared_lock x) (mx_mallocs x).
Definition set_pth_number_of_natives (v : Z) (x : world) : world :=
  World (threads x) (natives x) (self x) (mutexes x) (conds x) (mnodes x) (rwlocks x) (barriers x) (waits x) (qm x) v (shared_objs x) (shared_lock x) (mx_mallocs x).
Definition set_shared_objs (v : list pth_shared_sync_st) (x : world) : world :=
  World (threads x) (natives x) (self x) (mutexes x) (conds x) (mnodes x) (rwlocks x) (barriers x) (waits x) (qm x) (pth_number_of_natives x) v (shared_lock x) (mx_mallocs x).
Definition set_shared_lock (v : pth_qlock_st) (x : world) : world :=
  World (threads x) (natives x) (self x) (mutexes x) (conds x) (mnodes x) (rwlocks x) (barriers x) (waits x) (qm x) (pth_number_of_natives x) (shared_objs x) v (mx_mallocs x).
Definition set_mx_mallocs (v : list (option (nat * nat))) (x : world) : world :=
  World (threads x) (natives x) (self x) (mutexes x) (conds x) (mnodes x) (rwlocks x) (barriers x) (waits x) (qm x) (pth_number_of_natives x) (shared_objs x) (shared_lock x) v.

(** ** Constants *)

Definition EPERM : Z := 1.
Definition ESRCH : Z := 3.
Definition EINTR : Z := 4.
Definition EBUSY : Z := 16.
Definition EINVAL : Z := 22.
Definition ENOMEM : Z := 12.
Definition EDEADLK : Z := 35.
Definition EOWNERDEAD : Z := 131.
Definition ENOTRECOVERABLE : Z := 132.

Definition PTH_MUTEX_INITIALIZED : Z := BIT 0.
Definition PTH_MUTEX_LOCKED : Z := BIT 1.
Definition PTH_MUTEX_INTERNAL_LOCKED : Z := BIT 2.
Definition PTH_MUTEX_NOT_CONSISTENT : Z := BIT 3.
Definition PTH_MUTEX_NORMAL : Z := 0.
Definition PTH_MUTEX_RECURSIVE_NP : Z := 1.
Definition PTH_MUTEX_ROBUST_NP : Z := 64.
Definition PTH_COND_INITIALIZED : Z := BIT 0.
Definition PTH_COND_SIGNALED : Z := BIT 1.
Definition PTH_COND_BROADCAST : Z := BIT 2.
Definition PTH_COND_HANDLED : Z := BIT 3.
Definition PTH_RWLOCK_INITIALIZED : Z := BIT 0.
Definition PTH_RWLOCK_RD : Z := 0.
Definition PTH_RWLOCK_RW : Z := 1.
Definition PTH_BARRIER_INITIALIZED : Z := BIT 0.
Definition PTH_BARRIER_HEADLIGHT : Z := -1.
Definition PTH_BARRIER_TAILLIGHT : Z := -2.
Definition PTH_CANCEL_ENABLE : Z := BIT 0.
Definition PTH_CANCEL_DISABLE : Z := BIT 1.
Definition PTH_CANCEL_ASYNCHRONOUS : Z := BIT 2.
Definition PTH_CANCEL_DEFERRED : Z := BIT 3.

(** ** Access *)

Definition get_t (t : nat) : M world pth_st :=
  w ← get; of_option BadDeref (threads w !! t).
Definition upd_t (t : nat) (f : pth_st -> pth_st) : M world unit :=
  x ← get_t t; modify (fun w => set_threads (<[t := f x]> (threads w)) w).
Definition get_d (n : nat) : M world pth_descr_st :=
  w ← get; of_option OutOfBounds (natives w !! n).
Definition upd_d (n : nat) (f : pth_descr_st -> pth_descr_st) : M world unit :=
  x ← get_d n; modify (fun w => set_natives (<[n := f x]> (natives w)) w).
Definition get_m (m : nat) : M world pth_mutex_st :=
  w ← get; of_option BadDeref (mutexes w !! m).
Definition upd_m (m : nat) (f : pth_mutex_st -> pth_mutex_st) : M world unit :=
  x ← get_m m; modify (fun w => set_mutexes (<[m := f x]> (mutexes w)) w).
Definition get_c (c : nat) : M world pth_cond_st :=
  w ← get; of_option BadDeref (conds w !! c).
Definition upd_c (c : nat) (f : pth_cond_st -> pth_cond_st) : M world unit :=
  x ← get_c c; modify (fun w => set_conds (<[c := f x]> (conds w)) w).

Definition get_rw (r : nat) : M world pth_rwlock_st :=
  w ← get; of_option BadDeref (rwlocks w !! r).
Definition upd_rw (r : nat) (f : pth_rwlock_st -> pth_rwlock_st) : M world unit :=
  x ← get_rw r; modify (fun w => set_rwlocks (<[r := f x]> (rwlocks w)) w).
Definition get_br (b : nat) : M world pth_barrier_st :=
  w ← get; of_option BadDeref (barriers w !! b).
Definition upd_br (b : nat) (f : pth_barrier_st -> pth_barrier_st) : M world unit :=
  x ← get_br b; modify (fun w => set_barriers (<[b := f x]> (barriers w)) w).

(** Code on the priority queues, and on the wait lists. *)
Definition on_queues {A} : M qmem A -> M world A := zoom qm set_qm.
Definition write_waits (f : gmap waddr (link waddr) -> res (gmap waddr (link waddr))) : M world unit :=
  fun w => match f (waits w) with Ok h => Ok (tt, set_waits h w) | Err e => Err e end.
Definition read_waits {A} (f : gmap waddr (link waddr) -> res A) : M world A :=
  fun w => match f (waits w) with Ok a => Ok (a, w) | Err e => Err e end.

(** [pth_get_native_descr()], and the descriptor when it has to exist. *)
Definition pth_get_native_descr : M world (option nat) := gets self.
Definition my_descr : M world (nat * pth_descr_st) :=
  n ← pth_get_native_descr; n ← of_option BadDeref n; d ← get_d n; mret (n, d).
(** [pth_get_current()] *)
Definition pth_get_current : M world (option nat) :=
  n ← pth_get_native_descr;
  match n with None => mret None | Some n => d ← get_d n; mret (current d) end.

(** [pth_sc(write)(ds->sigpipe[1], &c, sizeof(char))]: wakes a native that
    sleeps in [select]. *)
Definition pipe_write (n : nat) : M world unit := upd_d n (fun d => set_sigpipe (sigpipe d + 1) d).
(** [while (pth_sc(read)(ds->sigpipe[0], minibuf, sizeof(minibuf)) > 0) ;] *)
Definition pipe_drain (n : nat) : M world unit := upd_d n (set_sigpipe 0).

(** ** Locks (pth_p.h)

    The spin lock is taken with a test-and-set; in the model nobody else runs
    meanwhile. *)

Definition qlock_free : pth_qlock_st := QLock 0 0 0.

Definition raw_lock (l : pth_qlock_st) : res pth_qlock_st :=
  if bool_decide (spinlock l = 0) then Ok (set_spinlock 1 l) else Err Deadlock.
Definition raw_unlock (l : pth_qlock_st) : pth_qlock_st := set_spinlock 0 l.

Definition _pth_acquire_lock (tid : Z) (l : pth_qlock_st) : res pth_qlock_st :=
  if bool_decide (tid = owner l) then Ok (set_qcount (swrap 32 (qcount l + 1)) l)
  else l' ← raw_lock l; Ok (QLock (spinlock l') tid 1).

Definition _pth_try_lock (tid : Z) (l : pth_qlock_st) : Z * pth_qlock_st :=
  if bool_decide (tid = owner l) then (0, set_qcount (swrap 32 (qcount l + 1)) l)
  else if bool_decide (spinlock l = 0) then (0, QLock 1 tid 1) else (11, l).

Definition _pth_release_lock (tid : Z) (l : pth_qlock_st) : Z * pth_qlock_st :=
  if bool_decide (owner l = tid) then
    let c := swrap 32 (qcount l - 1) in
    (0, if bool_decide (c = 0) then QLock 0 0 c else set_qcount c l)
  else (-1, l).

(** ** schedule.h *)

Definition thread_by_node (n : option nat) : option nat := n.

Definition __thread_prio_get (t : nat) : M world Z := x ← get_t t; mret (prio x).
Definition __thread_prio_set (t : nat) (p : Z) : M world unit := upd_t t (set_prio p).
Definition __thread_eprio_get (t : nat) : M world Z := on_queues (__pqueue_node_priority_get t).
Definition __thread_eprio_set (t : nat) (p : Z) : M world unit :=
  on_queues (__pqueue_node_priority_set t p).

(** Both branches of the source are the same. *)
Definition __thread_eprio_recalculate (t : nat) : M world Z :=
  x ← get_t t;
  (if bool_decide (schedpolicy x = SCHED_OTHER) then
     p ← __thread_prio_get t; __thread_eprio_set t p
   else
     p ← __thread_prio_get t; __thread_eprio_set t p);;
  mret 0.

(** The variants that lock the thread. *)
Definition lock_thread (t : nat) (tid : Z) : M world unit :=
  x ← get_t t; l ← of_res (_pth_acquire_lock tid (tlock x)); upd_t t (set_tlock l).
Definition unlock_thread (t : nat) (tid : Z) : M world unit :=
  x ← get_t t; upd_t t (set_tlock (_pth_release_lock tid (tlock x)).2).
Definition with_thread {A} (t : nat) (tid : Z) (c : M world A) : M world A :=
  lock_thread t tid;; a ← c; unlock_thread t tid;; mret a.

Definition thread_prio_get (t : nat) (tid : Z) : M world Z := with_thread t tid (__thread_prio_get t).
Definition thread_prio_set (t : nat) (p tid : Z) : M world unit := with_thread t tid (__thread_prio_set t p).
Definition thread_eprio_get (t : nat) (tid : Z) : M world Z := with_thread t tid (__thread_eprio_get t).
Definition thread_eprio_set (t : nat) (p tid : Z) : M world unit := with_thread t tid (__thread_eprio_set t p).
Definition thread_eprio_recalculate (t : nat) (tid : Z) : M world Z :=
  with_thread t tid (__thread_eprio_recalculate t).

(** ** Waking threads *)

(** [pth_wakeup_anative]: the natives from [i] on. *)
Fixpoint wakeup_scan (fuel : nat) (i : nat) : M world Z :=
  match fuel with
  | O => fail Stuck
  | S fuel =>
      d ← get_d i;
      if is_used d then
        if negb (is_bound d) && negb (is_bounded d) then pipe_write i;; mret 1
        else wakeup_scan fuel (S i)
      else mret 0
  end.
Definition pth_wakeup_anative : M world Z :=
  w ← get; wakeup_scan (length (natives w)) 1.

(** The fragment "move waiting thread from wait-queue to ready-queue" of
    [pth_mutex_release], [pth_cond_notify] and [pth_scheduler]: [ds] is the
    native in whose wait queue the thread was seen; [handled] is done when the
    thread is still there; [rq] is the ready queue. *)
Definition wait_to_ready (ds t : nat) (rq : qid) (handled : M world unit) : M world bool :=
  on_queues (spin_lock (WaitQ ds));;
  x ← get_t t;
  if bool_decide (waited_native x <> None) then
    handled;;
    on_queues (__pqueue_delete_node t);;
    upd_t t (set_waited_native None);;
    on_queues (spin_unlock (WaitQ ds));;
    on_queues (spin_lock rq);;
    upd_t t (set_state PTH_STATE_READY);;
    __thread_eprio_recalculate t;;
    on_queues (__pqueue_append_node rq t);;
    on_queues (spin_unlock rq);;
    mret true
  else
    on_queues (spin_unlock (WaitQ ds));;
    mret false.
