(* ===== verification/Sync.v ===== *)
(** * Mutexes, read-write locks, condition variables and barriers (pth_sync.c)

    A blocked thread gives up its native thread: other threads run, and other
    natives run at any time.  In the model this happens at the points where
    the code sleeps ([pth_wait], [select], [pth_yield]): the state carries, next
    to the world, a list of what the others do each time the running thread
    sleeps ([env]); the thread may continue on another native.  An operation
    that would sleep for ever uses the list up and ends with the fault
    [Stuck].  Between two such points an operation is executed alone: every
    object is protected by a spin lock, and the model checks that the lock is
    taken and released properly. *)

From S2P Require Import Prelude Bitmap Dll LinkedList Ring Priorities PQueue Futex World.

(** What happens while the thread sleeps, and whether the event it waited for
    (and not the additional one of the caller) occurred. *)
Record wakeup : Type := Wakeup { others : world -> world; ev_occurred : bool }.

Record sys : Type := Sys {
  wld : world;
  env : list wakeup;
  fds : list Z }.   (** the answers of the next [FUTEX_FD] system calls *)

Definition lift {A} : M world A -> M sys A := zoom wld (fun w s => Sys w (env s) (fds s)).

(** [pth_wait(ev)], also [select] and [pth_yield] *)
Definition sleep : M sys bool :=
  fun s => match env s with
           | [] => Err Stuck
           | k :: rest => Ok (ev_occurred k, Sys (others k (wld s)) rest (fds s))
           end.

(** ** Mutexes *)

Record pth_mutexattr_st : Set := MAttr { a_type : Z; a_pshared : bool; a_robustness : Z }.

(** The spin lock of a mutex: [_pth_acquire], [_pth_release]. *)
Definition mx_acquire (m : nat) : M world unit :=
  x ← get_m m; l ← of_res (raw_lock (mx_lock x)); upd_m m (set_mx_lock l).
Definition mx_release (m : nat) : M world unit :=
  upd_m m (fun x => set_mx_lock (raw_unlock (mx_lock x)) x).

(** [rfutex_init] *)
Definition rfutex_init (ps : bool) (r : rfutex_st) : rfutex_st := RFutex (futex_init (futex r)) ps (rtype r).
Definition rfutex_destroy (r : rfutex_st) : rfutex_st := RFutex (futex_destroy (futex r)) false (rtype r).

Definition is_locked (x : pth_mutex_st) : bool := flag (mx_state x) PTH_MUTEX_LOCKED.

Definition pth_mutex_init (mutex : option nat) (pattr : option pth_mutexattr_st) : M world bool :=
  match mutex with
  | None => mret false
  | Some m =>
      let ps := match pattr with Some a => a_pshared a | None => false end in
      upd_m m (fun x => set_mx_shared (rfutex_init ps (mx_shared x)) x);;
      ok ← (if ps then
              x ← get_m m;
              c ← pth_get_current;
              if bool_decide (mx_count x > 0) && negb (bool_decide (mx_owner x = c)) then mret false
              else
                (match pattr with
                 | Some a =>
                     if bool_decide (a_robustness a = PTH_MUTEX_ROBUST_NP) then
                       upd_m m (fun x => set_mx_shared (set_rtype (set_flag (rtype (mx_shared x)) PTH_MUTEX_ROBUST_NP) (mx_shared x)) x)
                     else mret tt
                 | None => mret tt
                 end);;
                mret true
            else upd_m m (set_mx_index (-1));; mret true);
      if (ok : bool) then
        upd_m m (set_mx_type (match pattr with Some a => a_type a | None => PTH_MUTEX_NORMAL end));;
        modify (fun w => set_mnodes (<[m := Link None None]> (mnodes w)) w);;
        upd_m m (set_mx_state PTH_MUTEX_INITIALIZED);;
        upd_m m (set_mx_owner None);;
        upd_m m (set_mx_count 0);;
        upd_m m (set_mx_owner_pid 0);;
        upd_m m (set_mx_lock qlock_free);;
        modify (fun w => set_waits (<[WMutex m := Link (Some (WMutex m)) (Some (WMutex m))]> (waits w)) w);;
        upd_m m (set_mx_waitcount 0);;
        mret true
      else mret false
  end.

(** Code on the ring of the mutexes of thread [t]. *)
Definition on_mutexring (t : nat) (f : pth_ring_t nat * gmap nat (link nat) -> res (pth_ring_t nat * gmap nat (link nat))) : M world unit :=
  x ← get_t t;
  w ← get;
  '(r, h) ← of_res (f (mutexring x, mnodes w));
  modify (set_mnodes h);;
  upd_t t (set_mutexring r).

(** The thread becomes the owner of the mutex (three places of the source). *)
Definition take_mutex (m t : nat) (pid : Z) : M world unit :=
  upd_m m (fun x => set_mx_state (set_flag (mx_state x) PTH_MUTEX_LOCKED) x);;
  upd_m m (set_mx_owner (Some t));;
  upd_m m (set_mx_owner_pid pid);;
  upd_m m (set_mx_count 1);;
  x ← get_t t;
  match mutex_owned x with
  | None => upd_t t (set_mutex_owned (Some m))
  | Some _ => on_mutexring t (pth_ring_append (Some m))
  end.

(** [PTH_ELEMENT_INSERT(&current->mutex_cond_wait, list)] and
    [PTH_ELEMENT_DELETE(&current->mutex_cond_wait)], done only when there are
    several natives *)
Definition wait_insert (t : nat) (w : waddr) : M world unit :=
  s ← get;
  when (bool_decide (pth_number_of_natives s > 1)) (write_waits (pth_element_insert (Some (WThread t)) (Some w))).
Definition wait_delete (t : nat) : M world unit :=
  s ← get;
  when (bool_decide (pth_number_of_natives s > 1)) (write_waits (pth_element_delete (Some (WThread t)))).

(** The wait loop of an unbounded thread: the native it continues on, or the
    result when it gives up. *)
Fixpoint mutex_wait (fuel m t : nat) (extra : bool) : M sys (nat + Z) :=
  lift (mx_release m);;
  occ ← sleep;
  if extra && negb occ then mret (inr EINTR)
  else
    '(n, _) ← lift my_descr;
    lift (mx_acquire m);;
    x ← lift (get_m m);
    if is_locked x then
      match fuel with O => fail Stuck | S fuel => mutex_wait fuel m t extra end
    else
      lift (wait_delete t);;
      mret (inl n).

(** The wait loop of a thread that is bound to its native [n], which sleeps in
    [select] itself. *)
Fixpoint mutex_wait_bound (fuel m t n : nat) : M sys unit :=
  lift (upd_m m (fun x => set_mx_waitcount (wrap 32 (mx_waitcount x + 1)) x));;
  lift (upd_d n (set_is_bound false));;
  lift (upd_t t (set_state PTH_STATE_WAITING));;
  lift (mx_release m);;
  x ← lift (get_m m);
  (if is_locked x then sleep;; lift (pipe_drain n) else mret tt);;
  lift (mx_acquire m);;
  lift (upd_m m (fun x => set_mx_waitcount (wrap 32 (mx_waitcount x - 1)) x));;
  lift (upd_d n (set_is_bound true));;
  lift (upd_t t (set_state PTH_STATE_READY));;
  x ← lift (get_m m);
  if is_locked x then
    match fuel with O => fail Stuck | S fuel => mutex_wait_bound fuel m t n end
  else lift (wait_delete t).

(** The final part: the mutex is free and its spin lock is held; [n] is the
    native the thread runs on. *)
Definition take_and_release (m t n : nat) : M world unit :=
  d ← get_d n; take_mutex m t (pid d);; mx_release m.

(** A mutex that is not shared between processes, once the descriptor [n] is
    known. *)
Definition mutex_acquire_local (fuel m n : nat) (tryonly extra : bool) : M sys Z :=
  d ← lift (get_d n);
  t ← lift (of_option BadDeref (current d));
  lift (mx_acquire m);;
  x ← lift (get_m m);
  if negb (is_locked x) && bool_decide (mx_waitcount x = 0) then
    lift (take_mutex m t (pid d);; mx_release m);; mret 0
  else if bool_decide (mx_owner x = Some t) && bool_decide (mx_count x >= 1) then
    rc ← lift (if bool_decide (mx_type x = PTH_MUTEX_RECURSIVE_NP) then
                 upd_m m (fun x => set_mx_count (wrap 32 (mx_count x + 1)) x);; mret 0
               else mret (if tryonly then EBUSY else EDEADLK));
    lift (mx_release m);; mret rc
  else if tryonly then lift (mx_release m);; mret EBUSY
  else
    lift (wait_insert t (WMutex m));;
    if is_bounded d then
      mutex_wait_bound fuel m t n;; lift (take_and_release m t n);; mret 0
    else
      r ← mutex_wait fuel m t extra;
      match r with
      | inr rc => mret rc
      | inl n => lift (take_and_release m t n);; mret 0
      end.

(** ** Mutexes shared between processes *)

(** [futex_acquire(&mutex->mx_shared.futex, FALSE)]; the system is asked for a
    descriptor only if the futex is not free. *)
Definition futex_acquire_m (m : nat) : M sys Z :=
  x ← lift (get_m m);
  let f := futex (mx_shared x) in
  fd ← (if bool_decide ((futex_trydown f).1 = 0) then mret 0
        else ((fun s => match fds s with
                        | [] => Err Undefined
                        | fd :: rest => Ok (fd, Sys (wld s) (env s) rest)
                        end) : M sys Z));
  let '(r, f) := futex_acquire f false fd in
  lift (upd_m m (fun x => set_mx_shared (set_futex f (mx_shared x)) x));;
  mret r.

(** The wait loops.  The result is the native the thread continues on with
    the futex, or the result when it gives up. *)
Fixpoint shared_wait (fuel m t : nat) (need : bool) (fd : Z) (extra : bool) : M sys (nat + Z) :=
  lift (mx_release m);;
  fd ← (if need then futex_acquire_m m else mret fd);
  if need && bool_decide (fd = 0) then
    lift (mx_acquire m);; '(n, _) ← lift my_descr; mret (inl n)
  else if need && bool_decide (fd = -1) then mret (inr EINVAL)
  else
    occ ← sleep;
    if extra && negb occ then mret (inr EINTR)
    else
      lift my_descr;;
      lift (mx_acquire m);;
      x ← lift (get_m m);
      if flag (mx_state x) PTH_MUTEX_NOT_CONSISTENT then
        lift (mx_release m);; mret (inr ENOTRECOVERABLE)
      else
        match fuel with O => fail Stuck | S fuel => shared_wait fuel m t true fd extra end.

Fixpoint shared_wait_bound (fuel m t n : nat) (need : bool) (fd : Z) : M sys (nat + Z) :=
  fd ← (if need then lift (mx_release m);; fd ← futex_acquire_m m; lift (mx_acquire m);; mret fd
        else mret fd);
  if need && bool_decide (fd = 0) then mret (inl n)
  else if need && bool_decide (fd = -1) then lift (mx_release m);; mret (inr EINVAL)
  else
    lift (upd_m m (fun x => set_mx_waitcount (wrap 32 (mx_waitcount x + 1)) x));;
    lift (upd_d n (set_is_bound false));;
    lift (upd_t t (set_state PTH_STATE_WAITING));;
    lift (mx_release m);;
    x ← lift (get_m m);
    (if bool_decide (fd > 0) || is_locked x then sleep;; lift (pipe_drain n) else mret tt);;
    lift (mx_acquire m);;
    lift (upd_m m (fun x => set_mx_waitcount (wrap 32 (mx_waitcount x - 1)) x));;
    lift (upd_d n (set_is_bound true));;
    lift (upd_t t (set_state PTH_STATE_READY));;
    x ← lift (get_m m);
    if flag (mx_state x) PTH_MUTEX_NOT_CONSISTENT then
      lift (mx_release m);; mret (inr ENOTRECOVERABLE)
    else
      match fuel with O => fail Stuck | S fuel => shared_wait_bound fuel m t n true fd end.

Section processes.
(** Whether a process exists: [kill(pid, 0) != -1]. *)
Context (alive : Z -> bool).

(** The part after the label [wait]. *)
Definition shared_mutex_wait (fuel m n t : nat) (tryonly extra need : bool) (fd : Z) : M sys Z :=
  d ← lift (get_d n);
  x ← lift (get_m m);
  if bool_decide (mx_owner x = Some t) && bool_decide (mx_count x >= 1) &&
     bool_decide (mx_owner_pid x = pid d) then
    rc ← lift (if bool_decide (mx_type x = PTH_MUTEX_RECURSIVE_NP) then
                 upd_m m (fun x => set_mx_count (wrap 32 (mx_count x + 1)) x);; mret 0
               else mret (if tryonly then EBUSY else EDEADLK));
    lift (mx_release m);; mret rc
  else if tryonly then lift (mx_release m);; mret EBUSY
  else if flag (rtype (mx_shared x)) PTH_MUTEX_ROBUST_NP && negb (alive (mx_owner_pid x)) then
    lift (modify (fun w => set_mnodes (<[m := Link None None]> (mnodes w)) w));;
    lift (upd_m m (fun x => set_mx_state (set_flag (mx_state x) PTH_MUTEX_NOT_CONSISTENT) x));;
    lift (take_and_release m t n);; mret EOWNERDEAD
  else
    r ← (if is_bounded d then shared_wait_bound fuel m t n need fd
         else shared_wait fuel m t need fd extra);
    match r with
    | inr rc => mret rc
    | inl n => lift (take_and_release m t n);; mret 0
    end.

Definition pth_shared_mutex_acquire (fuel m n : nat) (tryonly extra : bool) : M sys Z :=
  d ← lift (get_d n);
  t ← lift (of_option BadDeref (current d));
  lift (mx_acquire m);;
  x ← lift (get_m m);
  if negb (is_locked x) && bool_decide (mx_waitcount x = 0) then
    lift (mx_release m);;
    fd ← futex_acquire_m m;
    lift (mx_acquire m);;
    if bool_decide (fd > 0) then shared_mutex_wait fuel m n t tryonly extra false fd
    else if bool_decide (fd = -1) then lift (mx_release m);; mret EINVAL
    else lift (take_and_release m t n);; mret 0
  else shared_mutex_wait fuel m n t tryonly extra true 0.

(** The lock of a mutex whose static initialiser asks for it. *)
Definition internal_lock (m : nat) : M world unit :=
  '(_, d) ← my_descr;
  x ← get_m m; l ← of_res (_pth_acquire_lock (tid d) (mx_lock x)); upd_m m (set_mx_lock l).
Definition internal_unlock (m : nat) : M world unit :=
  '(_, d) ← my_descr;
  upd_m m (fun x => set_mx_lock (_pth_release_lock (tid d) (mx_lock x)).2 x).

Definition pth_mutex_acquire (fuel m : nat) (tryonly extra : bool) : M sys Z :=
  n ← lift pth_get_native_descr;
  x ← lift (get_m m);
  if flag (mx_state x) PTH_MUTEX_INTERNAL_LOCKED then lift (internal_lock m);; mret 0
  else
    match n with
    | None => mret EINVAL
    | Some n =>
        if pshared (mx_shared x) then pth_shared_mutex_acquire fuel m n tryonly extra
        else mutex_acquire_local fuel m n tryonly extra
    end.
End processes.

(** ** Release *)

(** The thread whose wait list node this is; the list head is no thread. *)
Definition waiting_thread (a : option waddr) : M world nat :=
  match a with Some (WThread t) => mret t | _ => fail Undefined end.

(** The part of [pth_mutex_release] that wakes the thread that has waited
    longest, with several natives. *)
Definition mutex_wake (m n : nat) : M world Z :=
  mq ← read_waits (fun h => get_prev h (Some (WMutex m)));
  if bool_decide (mq = Some (WMutex m)) then mx_release m;; mret 0
  else
    tmp ← waiting_thread mq;
    x ← get_t tmp;
    match boundnative x with
    | Some ds => mx_release m;; pipe_write ds;; mret 0
    | None =>
        (match waited_native x with
         | Some ds => wait_to_ready ds tmp RQ (mret tt);; mret tt
         | None => mret tt
         end);;
        mx_release m;;
        d ← get_d n;
        c ← of_option BadDeref (current d);
        cx ← get_t c;
        (if bool_decide (boundnative cx <> None) then pth_wakeup_anative;; mret tt else mret tt);;
        mret 0
    end.

Definition futex_release_m (m : nat) : M world unit :=
  upd_m m (fun x => set_mx_shared (set_futex (futex_release (futex (mx_shared x)) 0).1.2 (mx_shared x)) x).

(** The owner [t] gives the mutex up. *)
Definition drop_mutex (m t : nat) : M world unit :=
  upd_m m (fun x => set_mx_state (clear_flag (mx_state x) PTH_MUTEX_LOCKED) x);;
  upd_m m (set_mx_owner None);;
  upd_m m (set_mx_owner_pid 0);;
  upd_m m (set_mx_count 0);;
  x ← get_t t;
  if bool_decide (mutex_owned x = Some m) then upd_t t (set_mutex_owned None)
  else on_mutexring t (pth_ring_delete (Some m)).

Definition pth_mutex_release (m : nat) : M world Z :=
  x ← get_m m;
  if negb (is_locked x) then
    if flag (mx_state x) PTH_MUTEX_INTERNAL_LOCKED then internal_unlock m;; mret 0
    else mret EPERM
  else
    '(n, d) ← my_descr;
    if negb (bool_decide (current d = mx_owner x)) then mret EPERM
    else
      mx_acquire m;;
      upd_m m (fun x => set_mx_count (wrap 32 (mx_count x - 1)) x);;
      x ← get_m m;
      if bool_decide (mx_count x <= 0) then
        t ← of_option BadDeref (current d);
        drop_mutex m t;;
        if negb (pshared (mx_shared x)) then
          w ← get;
          if bool_decide (pth_number_of_natives w > 1) then mutex_wake m n
          else mx_release m;; mret 0
        else mx_release m;; futex_release_m m;; mret 0
      else mx_release m;; mret 0.

(** The loop of [pth_mutex_releaseall] over the ring, from the node [rn]. *)
Fixpoint releaseall_loop (fuel t : nat) (rn rnf : option nat) : M world unit :=
  match rn with
  | None => mret tt
  | Some m =>
      match fuel with
      | O => fail Stuck
      | S fuel =>
          pth_mutex_release m;;
          x ← get_m m;
          if bool_decide (mx_count x > 0) then releaseall_loop fuel t rn rnf
          else
            y ← get_t t;
            w ← get;
            rn ← of_res (pth_ring_next (mutexring y) (mnodes w) rn);
            if bool_decide (rn = rnf) then mret tt else releaseall_loop fuel t rn rnf
      end
  end.

Definition pth_mutex_releaseall (fuel : nat) (thread : option nat) : M world unit :=
  match thread with
  | None => mret tt
  | Some t =>
      '(_, d) ← my_descr;
      lock_thread t (tid d);;
      x ← get_t t;
      (match mutex_owned x with Some m => pth_mutex_release m;; mret tt | None => mret tt end);;
      x ← get_t t;
      let rn := pth_ring_first (mutexring x) in
      releaseall_loop fuel t rn rn;;
      '(_, d) ← my_descr;
      unlock_thread t (tid d)
  end.

Definition free_slot (i : Z) : M world unit :=
  w ← get;
  s ← of_option OutOfBounds (if bool_decide (0 <= i) then shared_objs w !! Z.to_nat i else None);
  modify (fun w => set_shared_objs (<[Z.to_nat i := set_sl_used false s]> (shared_objs w)) w).

Definition pth_mutex_destroy (m : nat) : M world Z :=
  x ← get_m m;
  if negb (pshared (mx_shared x)) then mret EINVAL
  else
    free_slot (mx_index x);;
    upd_m m (fun x => Mutex 0 0 (mx_type x) None 0 qlock_free (mx_shared x) 0 0);;
    upd_m m (fun x => set_mx_shared (set_futex (futex_destroy (futex (mx_shared x))) (mx_shared x)) x);;
    mret 0.

(** ** The shared area *)

Definition lock_shared : M world unit :=
  '(_, d) ← my_descr; w ← get; l ← of_res (_pth_acquire_lock (tid d) (shared_lock w)); modify (set_shared_lock l).
Definition unlock_shared : M world unit :=
  '(_, d) ← my_descr; modify (fun w => set_shared_lock (_pth_release_lock (tid d) (shared_lock w)).2 w).

(** The first object from index [i] on that is not used. *)
Fixpoint free_index (i : nat) (l : list pth_shared_sync_st) : option (nat * pth_shared_sync_st) :=
  match l with
  | [] => None
  | s :: l => if sl_used s then free_index (S i) l else Some (i, s)
  end.

Definition PTH_SHARED_TYPE_MUTEX : Z := 0.
Definition PTH_SHARED_TYPE_COND : Z := 1.

Definition pth_find_shared_mutex (m : nat) : M world bool :=
  lock_shared;;
  w ← get;
  unlock_shared;;
  mret (existsb (fun s => sl_used s && bool_decide (sl_mx s = m)) (shared_objs w)).

Definition pth_alloc_shared_mutex : M world (option nat) :=
  lock_shared;;
  w ← get;
  r ← (match free_index 0 (shared_objs w) with
       | None => mret None
       | Some (i, s) =>
           upd_m (sl_mx s) (set_mx_index (Z.of_nat i));;
           upd_m (sl_mx s) (fun x => set_mx_shared (set_rtype PTH_SHARED_TYPE_MUTEX (mx_shared x)) x);;
           modify (fun w => set_shared_objs (<[i := set_sl_used true s]> (shared_objs w)) w);;
           mret (Some (sl_mx s))
       end);
  unlock_shared;;
  mret r.

Definition pth_alloc_shared_cond : M world (option nat) :=
  lock_shared;;
  w ← get;
  r ← (match free_index 0 (shared_objs w) with
       | None => mret None
       | Some (i, s) =>
           upd_c (sl_cn s) (set_cn_index (Z.of_nat i));;
           upd_c (sl_cn s) (fun x => set_cn_shared (set_rtype PTH_SHARED_TYPE_COND (cn_shared x)) x);;
           modify (fun w => set_shared_objs (<[i := set_sl_used true s]> (shared_objs w)) w);;
           mret (Some (sl_cn s))
       end);
  unlock_shared;;
  mret r.

(** ** Read-write locks *)

Definition pth_rwlock_init (r : nat) (ps : bool) : M world Z :=
  upd_rw r (set_rw_state PTH_RWLOCK_INITIALIZED);;
  upd_rw r (set_rw_readers 0);;
  if ps then
    let a := MAttr 0 true 0 in
    rd ← pth_alloc_shared_mutex;
    upd_rw r (set_rw_mutex_rd rd);;
    match rd with
    | None => mret ENOMEM
    | Some rd =>
        pth_mutex_init (Some rd) (Some a);;
        rw ← pth_alloc_shared_mutex;
        upd_rw r (set_rw_mutex_rw rw);;
        match rw with
        | None => pth_mutex_destroy rd;; mret ENOMEM
        | Some rw =>
            pth_mutex_init (Some rw) (Some a);;
            upd_rw r (set_rw_pshared true);;
            mret 0
        end
    end
  else
    p ← ((fun w => match mx_mallocs w with
                   | [] => Err Undefined
                   | p :: rest => Ok (p, set_mx_mallocs rest w)
                   end) : M world (option (nat * nat)));
    upd_rw r (set_rw_mutex_rd (fst <$> p));;
    match p with
    | None => mret ENOMEM
    | Some (rd, rw) =>
        upd_rw r (set_rw_mutex_rw (Some rw));;
        pth_mutex_init (Some rd) None;;
        pth_mutex_init (Some rw) None;;
        upd_rw r (set_rw_pshared false);;
        mret 0
    end.

(** [rwlock->rw_mutex_rd], [rwlock->rw_mutex_rw], to be dereferenced *)
Definition get_rd (r : nat) : M world nat := x ← get_rw r; of_option BadDeref (rw_mutex_rd x).
Definition get_wr (r : nat) : M world nat := x ← get_rw r; of_option BadDeref (rw_mutex_rw x).

(** The memory of the two mutexes goes back to the allocator (see Alloc for
    the size it is released with). *)
Definition pth_rwlock_destroy (r : nat) : M world Z :=
  x ← get_rw r;
  rd ← get_rd r;
  rw ← get_wr r;
  rx ← get_m rd;
  wx ← get_m rw;
  if is_locked rx || is_locked wx then mret EBUSY
  else if negb (rw_pshared x) then
    modify (fun w => set_mutexes (delete rd (delete rw (mutexes w))) w);;
    mret 0
  else pth_mutex_destroy rd;; pth_mutex_destroy rw;; mret 0.

Section locks.
Context (alive : Z -> bool).

Definition pth_rwlock_acquire (fuel r : nat) (op : Z) (tryonly extra : bool) : M sys Z :=
  x ← lift (get_rw r);
  if negb (flag (rw_state x) PTH_RWLOCK_INITIALIZED) then mret EINVAL
  else if bool_decide (op = PTH_RWLOCK_RW) then
    m ← lift (get_wr r); rc ← pth_mutex_acquire alive fuel m tryonly extra;
    if bool_decide (rc <> 0) then mret rc
    else lift (upd_rw r (set_rw_mode PTH_RWLOCK_RW));; mret 0
  else
    m ← lift (get_rd r); rc ← pth_mutex_acquire alive fuel m tryonly extra;
    if bool_decide (rc <> 0) then mret rc
    else
      lift (upd_rw r (fun x => set_rw_readers (wrap 32 (rw_readers x + 1)) x));;
      x ← lift (get_rw r);
      rc ← (if bool_decide (rw_readers x = 1) then m ← lift (get_wr r); pth_mutex_acquire alive fuel m tryonly extra
            else mret 0);
      if bool_decide (rc <> 0) then
        lift (upd_rw r (fun x => set_rw_readers (wrap 32 (rw_readers x - 1)) x));;
        lift (m ← get_rd r; pth_mutex_release m);;
        mret rc
      else
        lift (upd_rw r (set_rw_mode PTH_RWLOCK_RD));;
        lift (m ← get_rd r; pth_mutex_release m);;
        mret 0.

Definition pth_rwlock_release (fuel r : nat) : M sys Z :=
  x ← lift (get_rw r);
  if negb (flag (rw_state x) PTH_RWLOCK_INITIALIZED) then mret EINVAL
  else if bool_decide (rw_mode x = PTH_RWLOCK_RW) then lift (m ← get_wr r; pth_mutex_release m)
  else
    m ← lift (get_rd r); rc ← pth_mutex_acquire alive fuel m false false;
    if bool_decide (rc <> 0) then mret rc
    else
      lift (upd_rw r (fun x => set_rw_readers (wrap 32 (rw_readers x - 1)) x));;
      x ← lift (get_rw r);
      rc ← (if bool_decide (rw_readers x = 0) then lift (m ← get_wr r; pth_mutex_release m) else mret 0);
      if bool_decide (rc <> 0) then
        lift (upd_rw r (fun x => set_rw_readers (wrap 32 (rw_readers x + 1)) x));;
        lift (m ← get_rd r; pth_mutex_release m);;
        mret rc
      else
        lift (upd_rw r (set_rw_mode PTH_RWLOCK_RD));;
        lift (m ← get_rd r; pth_mutex_release m);;
        mret 0.
End locks.

(** ** Condition variables *)

Definition _pth_cond_init (c : nat) (ps : bool) : M world bool :=
  upd_c c (fun x => set_cn_shared (rfutex_init ps (cn_shared x)) x);;
  (if ps then mret tt else upd_c c (set_cn_index (-1)));;
  upd_c c (set_cn_state PTH_COND_INITIALIZED);;
  upd_c c (set_cn_waiters 0);;
  upd_c c (set_cn_wakecnt 0);;
  upd_c c (set_cn_lock qlock_free);;
  modify (fun w => set_waits (<[WCond c := Link (Some (WCond c)) (Some (WCond c))]> (waits w)) w);;
  mret true.

Definition pth_cond_destroy (c : nat) : M world Z :=
  x ← get_c c;
  if negb (pshared (cn_shared x)) then mret EINVAL
  else
    free_slot (cn_index x);;
    upd_c c (fun x => Cond 0 0 0 qlock_free (cn_shared x) 0);;
    upd_c c (fun x => set_cn_shared (rfutex_destroy (cn_shared x)) x);;
    mret 0.

Definition cn_acquire (c : nat) : M world unit :=
  x ← get_c c; l ← of_res (raw_lock (cn_lock x)); upd_c c (set_cn_lock l).
Definition cn_release (c : nat) : M world unit :=
  upd_c c (fun x => set_cn_lock (raw_unlock (cn_lock x)) x).

Definition is_signaled (x : pth_cond_st) : bool := flag (cn_state x) PTH_COND_SIGNALED.

(** A thread stops waiting: it leaves the wait list and the count, and the last
    one takes the signal with it. *)
Definition cond_leave (c t : nat) : M world unit :=
  x ← get_c c;
  when (negb (pshared (cn_shared x))) (wait_delete t);;
  upd_c c (fun x => set_cn_waiters (wrap 32 (cn_waiters x - 1)) x);;
  x ← get_c c;
  when ((bool_decide (cn_waiters x = 0) || flag (cn_state x) PTH_COND_HANDLED) && is_signaled x)
    (upd_c c (fun x => set_cn_state (clear_flag (clear_flag (cn_state x) PTH_COND_BROADCAST) PTH_COND_HANDLED) x);;
     upd_c c (fun x => set_cn_wakecnt (wrap 32 (cn_wakecnt x - 1)) x);;
     x ← get_c c;
     when (bool_decide (cn_wakecnt x = 0))
       (upd_c c (fun x => set_cn_state (clear_flag (cn_state x) PTH_COND_SIGNALED) x))).

(** The wait of an unbounded thread; [occ] is [PTH_EVENT_OCCURRED(ev)]. *)
Fixpoint cond_wait (fuel c : nat) : M sys unit :=
  occ ← sleep;
  lift my_descr;;
  lift (cn_acquire c);;
  x ← lift (get_c c);
  if negb (is_signaled x) && occ && negb (pshared (cn_shared x)) then
    lift (cn_release c);;
    match fuel with O => fail Stuck | S fuel => cond_wait fuel c end
  else mret tt.

Section conds.
Context (alive : Z -> bool).
(** What [pth_cancel_point] does: it does not return if the thread is to be
    cancelled. *)
Context (pth_cancel_point : M sys unit).

(** An additional event of the caller shows only in [ev_occurred]. *)
Definition pth_cond_await (fuel c m : nat) : M sys bool :=
  '(n, d) ← lift my_descr;
  t ← lift (of_option BadDeref (current d));
  x ← lift (get_c c);
  mx ← lift (get_m m);
  if negb (flag (cn_state x) PTH_COND_INITIALIZED) || negb (bool_decide (mx_owner mx = Some t)) then mret false
  else
    lift (cn_acquire c);;
    lift (upd_c c (fun x => set_cn_waiters (wrap 32 (cn_waiters x + 1)) x));;
    fd ← (if pshared (cn_shared x) then
            ((fun s => match fds s with
                       | [] => Err Undefined
                       | fd :: rest => Ok (futex_add_waiter (futex (cn_shared x)) fd, Sys (wld s) (env s) rest)
                       end) : M sys Z)
          else lift (wait_insert t (WCond c));; mret 0);
    if bool_decide (fd < 0) then lift (cn_release c);; mret false
    else
      (if is_bounded d then
         lift (upd_d n (set_is_bound false));;
         lift (upd_t t (set_state PTH_STATE_WAITING));;
         lift (cn_release c);;
         lift (pth_mutex_release m);;
         sleep;;
         lift (pipe_drain n);;
         lift (cn_acquire c);;
         lift (upd_d n (set_is_bound true));;
         lift (upd_t t (set_state PTH_STATE_READY))
       else
         lift (cn_release c);;
         lift (pth_mutex_release m);;
         cond_wait fuel c);;
      lift (cond_leave c t);;
      lift (cn_release c);;
      pth_mutex_acquire alive fuel m false false;;
      y ← lift (get_t t);
      (if cancelreq y then pth_cancel_point else mret tt);;
      mret true.

(** [pth_cond_cleanup_handler], run when a waiting thread is cancelled *)
Definition pth_cond_cleanup_handler (fuel m c : nat) : M sys unit :=
  '(_, d) ← lift my_descr;
  t ← lift (of_option BadDeref (current d));
  lift (x ← get_c c; l ← of_res (_pth_acquire_lock (tid d) (cn_lock x)); upd_c c (set_cn_lock l));;
  lift (upd_c c (fun x => set_cn_waiters (wrap 32 (cn_waiters x - 1)) x));;
  x ← lift (get_c c);
  lift (when (negb (pshared (cn_shared x))) (wait_delete t));;
  lift (when ((bool_decide (cn_waiters x = 0) || flag (cn_state x) PTH_COND_HANDLED) && is_signaled x)
    (upd_c c (fun x => set_cn_state
       (clear_flag (clear_flag (clear_flag (cn_state x) PTH_COND_SIGNALED) PTH_COND_BROADCAST) PTH_COND_HANDLED) x)));;
  lift (upd_c c (fun x => set_cn_lock (_pth_release_lock (tid d) (cn_lock x)).2 x));;
  pth_mutex_acquire alive fuel m false false;;
  mret tt.
End conds.

(** The walk of [pth_cond_notify] over the waiting threads, the one that has
    waited longest first.  The result: the variable [ds] at the end of the
    loop, or [inr] the native to wake when the notification is complete. *)
Fixpoint notify_loop (fuel c : nat) (broadcast : bool) (cq : option waddr) (ds : option nat) : M world (option nat + nat) :=
  if bool_decide (cq = Some (WCond c)) then mret (inl ds)
  else
    match fuel with
    | O => fail Stuck
    | S fuel =>
        tmp ← waiting_thread cq;
        x ← get_t tmp;
        match boundnative x with
        | Some b =>
            if negb broadcast then
              upd_c c (fun x => set_cn_wakecnt (wrap 32 (cn_wakecnt x + 1)) x);;
              cn_release c;;
              pipe_write b;;
              mret (inr b)
            else
              pipe_write b;;
              cq ← read_waits (fun h => get_prev h cq);
              notify_loop fuel c broadcast cq None
        | None =>
            let ds := waited_native x in
            (match ds with
             | Some n =>
                 wait_to_ready n tmp RQ
                   (if broadcast then mret tt
                    else upd_c c (fun x => set_cn_state (set_flag (cn_state x) PTH_COND_HANDLED) x));;
                 mret tt
             | None => mret tt
             end);;
            if negb broadcast then mret (inl ds)
            else
              cq ← read_waits (fun h => get_prev h cq);
              notify_loop fuel c broadcast cq ds
        end
    end.

(** [while (cond->cn_waiters > 0) pth_yield(NULL);] *)
Fixpoint yield_until_awake (fuel c : nat) : M sys unit :=
  x ← lift (get_c c);
  if bool_decide (cn_waiters x > 0) then
    sleep;;
    match fuel with O => fail Stuck | S fuel => yield_until_awake fuel c end
  else mret tt.

(** The end of [pth_cond_notify], after the spin lock was released. *)
Definition notify_finish (fuel c n : nat) (broadcast : bool) (ds : option nat) : M sys unit :=
  x ← lift (get_c c);
  d ← lift (get_d n);
  if pshared (cn_shared x) then
    lift (upd_c c (fun x => set_cn_shared (set_futex
      (if broadcast then (futex_notify_all (futex (cn_shared x)) 0).1 else (futex_notify (futex (cn_shared x)) 0).1)
      (cn_shared x)) x));;
    x ← lift (get_c c);
    if broadcast && bool_decide (cn_waiters x > 0) then
      lift pth_wakeup_anative;; yield_until_awake fuel c
    else mret tt
  else if negb broadcast then
    if is_bounded d then lift (pth_wakeup_anative;; mret tt)
    else
      match ds with
      | Some b => e ← lift (get_d b); if negb (is_bound e) then lift (pipe_write b) else mret tt
      | None => mret tt
      end
  else if bool_decide (cn_waiters x > 0) then
    t ← lift (of_option BadDeref (current d));
    y ← lift (get_t t);
    if bool_decide (boundnative y = None) then
      (* an event that occurs when [cn_waiters] is zero *)
      sleep;; mret tt
    else lift pth_wakeup_anative;; yield_until_awake fuel c
  else mret tt.

(** The flags [pth_cond_notify] sets. *)
Definition notify_flags (broadcast : bool) (s : Z) : Z :=
  clear_flag
    (if broadcast then set_flag (set_flag s PTH_COND_SIGNALED) PTH_COND_BROADCAST
     else clear_flag (set_flag s PTH_COND_SIGNALED) PTH_COND_BROADCAST)
    PTH_COND_HANDLED.

Definition pth_cond_notify (fuel c : nat) (broadcast : bool) : M sys bool :=
  x ← lift (get_c c);
  if negb (flag (cn_state x) PTH_COND_INITIALIZED) then mret false
  else
    '(n, d) ← lift my_descr;
    lift (cn_acquire c);;
    x ← lift (get_c c);
    if bool_decide (cn_waiters x > 0) then
      lift (upd_c c (fun x => set_cn_state (notify_flags broadcast (cn_state x)) x));;
      w ← lift get;
      r ← lift (if bool_decide (pth_number_of_natives w > 1) && negb (pshared (cn_shared x)) then
                  cq ← read_waits (fun h => get_prev h (Some (WCond c)));
                  notify_loop fuel c broadcast cq None
                else mret (inl None));
      match r with
      | inr _ => mret true
      | inl ds =>
          lift (upd_c c (fun x => set_cn_wakecnt (wrap 32 (cn_wakecnt x + 1)) x));;
          lift (cn_release c);;
          notify_finish fuel c n broadcast ds;;
          mret true
      end
    else lift (cn_release c);; mret true.

(** ** Barriers *)

Definition pth_barrier_init (b : option nat) (threshold : Z) : M world bool :=
  match b with
  | None => mret false
  | Some b =>
      if bool_decide (threshold <= 0) then mret false
      else
        x ← get_br b;
        ok ← pth_mutex_init (Some (br_mutex x)) None;
        if negb ok then mret false
        else
          ok ← _pth_cond_init (br_cond x) false;
          if negb ok then mret false
          else
            upd_br b (fun x => Barrier PTH_BARRIER_INITIALIZED threshold threshold false (br_cond x) (br_mutex x));;
            mret true
  end.

(** [pth_cancel_state] *)
Definition pth_cancel_state (newstate : Z) : M world Z :=
  t ← pth_get_current;
  t ← of_option BadDeref t;
  x ← get_t t;
  (if bool_decide (newstate <> 0) then upd_t t (set_cancelstate newstate) else mret tt);;
  mret (cancelstate x).

Section barriers.
Context (alive : Z -> bool) (pth_cancel_point : M sys unit).

(** [while (cycle == barrier->br_cycle)], with the result of the last wait *)
Fixpoint barrier_wait (fuel b : nat) (cycle : bool) (rv : Z) : M sys Z :=
  x ← lift (get_br b);
  if bool_decide (cycle = br_cycle x) then
    ok ← pth_cond_await alive pth_cancel_point fuel (br_cond x) (br_mutex x);
    if (ok : bool) then
      match fuel with O => fail Stuck | S fuel => barrier_wait fuel b cycle 1 end
    else mret 0
  else mret rv.

Definition pth_barrier_reach (fuel : nat) (b : option nat) : M sys Z :=
  match b with
  | None => mret 0
  | Some b =>
      x ← lift (get_br b);
      if negb (flag (br_state x) PTH_BARRIER_INITIALIZED) then mret 0
      else
        rc ← pth_mutex_acquire alive fuel (br_mutex x) false false;
        if bool_decide (rc = 0) then mret 0
        else
          x ← lift (get_br b);
          let cycle := br_cycle x in
          lift (upd_br b (fun x => set_br_count (swrap 32 (br_count x - 1)) x));;
          x ← lift (get_br b);
          rv ← (if bool_decide (br_count x = 0) then
                  lift (upd_br b (fun x => set_br_count (br_threshold x) (set_br_cycle (negb (br_cycle x)) x)));;
                  ok ← pth_cond_notify fuel (br_cond x) true;
                  mret (if (ok : bool) then PTH_BARRIER_TAILLIGHT else 0)
                else
                  old ← lift (pth_cancel_state PTH_CANCEL_DISABLE);
                  let rv := if bool_decide (br_threshold x = br_count x) then PTH_BARRIER_HEADLIGHT else 1 in
                  rv ← barrier_wait fuel b cycle rv;
                  lift (pth_cancel_state old);;
                  mret rv);
          lift (pth_mutex_release (br_mutex x));;
          mret rv
  end.
End barriers.
