(* ===== verification/MutexProofs.v ===== *)
(** * Mutexes: the proofs about pth_sync.c

    The invariant of the mutexes and of the threads that hold them, the
    operations on a mutex that is local to the process, and what they mean
    for the programs that use them. *)

From S2P Require Import Prelude Bitmap Dll LinkedList Ring Priorities PQueue Futex World Sync.

(** ** Running code on the world *)

Section runs.
Context (w : world).

Lemma get_t_run t x : threads w !! t = Some x -> get_t t w = Ok (x, w).
Proof. intros E. unfold get_t, get, mbind, M_bind. by rewrite E. Qed.
Lemma upd_t_run t x f : threads w !! t = Some x ->
  upd_t t f w = Ok (tt, set_threads (<[t := f x]> (threads w)) w).
Proof. intros E. unfold upd_t. by rewrite (bind_run _ _ _ _ _ (get_t_run t x E)). Qed.
Lemma get_d_run n d : natives w !! n = Some d -> get_d n w = Ok (d, w).
Proof. intros E. unfold get_d, get, mbind, M_bind. by rewrite E. Qed.
Lemma upd_d_run n d f : natives w !! n = Some d ->
  upd_d n f w = Ok (tt, set_natives (<[n := f d]> (natives w)) w).
Proof. intros E. unfold upd_d. by rewrite (bind_run _ _ _ _ _ (get_d_run n d E)). Qed.
Lemma get_m_run m x : mutexes w !! m = Some x -> get_m m w = Ok (x, w).
Proof. intros E. unfold get_m, get, mbind, M_bind. by rewrite E. Qed.
Lemma upd_m_run m x f : mutexes w !! m = Some x ->
  upd_m m f w = Ok (tt, set_mutexes (<[m := f x]> (mutexes w)) w).
Proof. intros E. unfold upd_m. by rewrite (bind_run _ _ _ _ _ (get_m_run m x E)). Qed.
Lemma my_descr_run n d : self w = Some n -> natives w !! n = Some d -> my_descr w = Ok ((n, d), w).
Proof.
  intros E1 E2. unfold my_descr, pth_get_native_descr, gets, of_option, mbind, M_bind. rewrite E1.
  by rewrite (get_d_run n d E2).
Qed.
Lemma mx_acquire_run m x : mutexes w !! m = Some x -> spinlock (mx_lock x) = 0 ->
  mx_acquire m w = Ok (tt, set_mutexes (<[m := set_mx_lock (set_spinlock 1 (mx_lock x)) x]> (mutexes w)) w).
Proof.
  intros E Hl. unfold mx_acquire. rewrite (bind_run _ _ _ _ _ (get_m_run m x E)).
  unfold raw_lock. rewrite bool_decide_eq_true_2 by done.
  erewrite bind_run; [|reflexivity]. exact (upd_m_run m x _ E).
Qed.
Lemma mx_release_run m x : mutexes w !! m = Some x ->
  mx_release m w = Ok (tt, set_mutexes (<[m := set_mx_lock (set_spinlock 0 (mx_lock x)) x]> (mutexes w)) w).
Proof. intros E. unfold mx_release. exact (upd_m_run m x _ E). Qed.
End runs.

Lemma lift_run {A} (c : M world A) s a w : c (wld s) = Ok (a, w) -> lift c s = Ok (a, Sys w (env s) (fds s)).
Proof. unfold lift, zoom. by intros ->. Qed.

(** A queue lock that is free can be taken, and is free again afterwards. *)
Lemma qlock_cycle tid' : exists k, _pth_acquire_lock tid' qlock_free = Ok k /\ (_pth_release_lock tid' k).2 = qlock_free.
Proof.
  unfold _pth_acquire_lock. case_bool_decide as H0.
  - eexists. split; [reflexivity|]. cbn in H0. subst tid'. by vm_compute.
  - eexists. split; [reflexivity|]. unfold _pth_release_lock. cbn. by rewrite bool_decide_eq_true_2 by done.
Qed.

Lemma qlock_first tid' k : _pth_acquire_lock tid' qlock_free = Ok k -> qcount k = 1.
Proof. unfold _pth_acquire_lock. case_bool_decide; vm_compute; by intros [= <-]. Qed.

(** Two writes to the same mutex, in one world. *)
Lemma set_mutexes_twice a b w : set_mutexes a (set_mutexes b w) = set_mutexes a w.
Proof. done. Qed.

(** ** Invariant *)

(** What a thread holds: the mutex in [mutex_owned] and those in its ring. *)
Abbreviation holdings := (gmap nat (option nat * list nat)).
Definition held (H : holdings) (t : nat) : list nat :=
  match H !! t with Some (o, l) => option_list o ++ l | None => [] end.

(** [b]: the mutex whose spin lock is taken, if any. *)
Definition mutex_ok (b : option nat) (H : holdings) (m : nat) (x : pth_mutex_st) : Prop :=
  spinlock (mx_lock x) = (if bool_decide (b = Some m) then 1 else 0) /\
  if is_locked x then exists t, mx_owner x = Some t /\ 1 <= mx_count x < 2 ^ 32 /\ m ∈ held H t
  else mx_owner x = None /\ mx_count x = 0.

Record sinv (b : option nat) (w : world) (H : holdings) : Prop := {
  si_thread : forall t o l, H !! t = Some (o, l) ->
    exists x, threads w !! t = Some x /\ mutex_owned x = o /\ rng (mutexring x) (mnodes w) l;
  si_mutex : forall m x, mutexes w !! m = Some x -> mutex_ok b H m x /\ is_Some (mnodes w !! m);
  si_held : forall t m, m ∈ held H t ->
    exists x, mutexes w !! m = Some x /\ is_locked x = true /\ mx_owner x = Some t;
  si_nodup : forall t, NoDup (held H t);
  si_size : Z.of_nat (size (mutexes w)) < 2 ^ 32 - 1 }.

(** A mutex is held by at most one thread. *)
Lemma held_unique b w H t t' m : sinv b w H -> m ∈ held H t -> m ∈ held H t' -> t = t'.
Proof.
  intros Hi H1 H2. destruct (si_held _ _ _ Hi _ _ H1) as (x & E & _ & O).
  destruct (si_held _ _ _ Hi _ _ H2) as (x' & E' & _ & O'). congruence.
Qed.

Lemma held_bound b w H t : sinv b w H -> Z.of_nat (length (held H t)) < 2 ^ 32 - 1.
Proof.
  intros Hi. eapply Z.le_lt_trans; [|apply (si_size _ _ _ Hi)].
  rewrite <- size_dom, <- (size_list_to_set (C := gset nat)) by apply (si_nodup _ _ _ Hi).
  apply Nat2Z.inj_le, subseteq_size. intros m. rewrite elem_of_list_to_set, elem_of_dom.
  intros (x & -> & _)%(si_held _ _ _ Hi). by eexists.
Qed.

Lemma is_locked_set x :
  is_locked (set_mx_state (set_flag (mx_state x) PTH_MUTEX_LOCKED) x) = true.
Proof.
  unfold is_locked, flag, set_flag. simpl. rewrite bool_decide_eq_false_2; [done|].
  change PTH_MUTEX_LOCKED with 2. intros E. apply (f_equal (fun z => Z.testbit z 1)) in E.
  rewrite Z.land_spec, Z.lor_spec in E. simpl in E. by rewrite orb_true_r in E.
Qed.
Lemma is_locked_clear x :
  is_locked (set_mx_state (clear_flag (mx_state x) PTH_MUTEX_LOCKED) x) = false.
Proof.
  unfold is_locked, flag, clear_flag. simpl. rewrite bool_decide_eq_true_2; [done|].
  apply Z.bits_inj'. intros i Hi. rewrite Z.land_spec, Z.ldiff_spec, Z.bits_0.
  destruct (Z.testbit PTH_MUTEX_LOCKED i); [|by rewrite andb_false_r]. by rewrite andb_false_r.
Qed.

Definition put_m (m : nat) (x : pth_mutex_st) (w : world) : world := set_mutexes (<[m := x]> (mutexes w)) w.

Lemma put_m_twice m x y w : put_m m x (put_m m y w) = put_m m x w.
Proof. unfold put_m. simpl. by rewrite insert_insert_eq. Qed.

Lemma put_m_lookup m x w : mutexes (put_m m x w) !! m = Some x.
Proof. apply lookup_insert_eq. Qed.

(** A mutex changes but not whom it belongs to. *)
Lemma sinv_keep b b' w H m x x' :
  sinv b w H -> mutexes w !! m = Some x ->
  is_locked x' = is_locked x -> mx_owner x' = mx_owner x ->
  (if is_locked x then 1 <= mx_count x' < 2 ^ 32 else mx_count x' = 0) ->
  spinlock (mx_lock x') = (if bool_decide (b' = Some m) then 1 else 0) ->
  (forall m', m' <> m -> b = Some m' <-> b' = Some m') ->
  sinv b' (put_m m x' w) H.
Proof.
  intros Hi Hm El Eo Hc Hs Hb. split.
  - apply (si_thread _ _ _ Hi).
  - intros m' y. unfold put_m. simpl. destruct (decide (m = m')) as [<-|E].
    + rewrite lookup_insert_eq. intros Hy. injection Hy as <-. destruct (si_mutex _ _ _ Hi _ _ Hm) as [[_ Hok] Hn]. split; [|done].
      split; [done|]. rewrite El. destruct (is_locked x).
      * destruct Hok as (u & Hu & _ & Hin). exists u. split; [congruence|]. by split.
      * split; [|done]. rewrite Eo. tauto.
    + rewrite lookup_insert_ne by done. intros Hy. destruct (si_mutex _ _ _ Hi _ _ Hy) as [[Hsp Hok] Hn]. split; [|done].
      split; [|done]. rewrite Hsp. rewrite (bool_decide_ext (b = Some m') (b' = Some m')); [done|].
      apply Hb. congruence.
  - intros u m' (y & Hy & Hl & Ho)%(si_held _ _ _ Hi). unfold put_m. simpl.
    destruct (decide (m = m')) as [<-|E]; [|exists y; by rewrite lookup_insert_ne].
    rewrite lookup_insert_eq. simplify_eq. exists x'. split; [done|]. by rewrite El, Eo.
  - apply (si_nodup _ _ _ Hi).
  - unfold put_m. simpl. rewrite map_size_insert_Some by (by eexists). apply (si_size _ _ _ Hi).
Qed.

Definition spun (v : Z) (x : pth_mutex_st) : pth_mutex_st := set_mx_lock (set_spinlock v (mx_lock x)) x.

Lemma mx_acquire_spec w H m x : sinv None w H -> mutexes w !! m = Some x ->
  mx_acquire m w = Ok (tt, put_m m (spun 1 x) w) /\ sinv (Some m) (put_m m (spun 1 x) w) H.
Proof.
  intros Hi Hm. destruct (si_mutex _ _ _ Hi _ _ Hm) as [[Hs Hok] _]. split.
  - by apply mx_acquire_run.
  - eapply sinv_keep; [done|done|done|done| | |].
    + change (mx_count (spun 1 x)) with (mx_count x). destruct (is_locked x); [|tauto].
      by destruct Hok as (? & _ & ? & _).
    + simpl. by rewrite bool_decide_eq_true_2.
    + intros m' Hne. split; [done|]. congruence.
Qed.

Lemma mx_release_spec w H m x : sinv (Some m) w H -> mutexes w !! m = Some x ->
  mx_release m w = Ok (tt, put_m m (spun 0 x) w) /\ sinv None (put_m m (spun 0 x) w) H.
Proof.
  intros Hi Hm. destruct (si_mutex _ _ _ Hi _ _ Hm) as [[Hs Hok] _]. split.
  - by apply mx_release_run.
  - eapply sinv_keep; [done|done|done|done| |done|].
    + change (mx_count (spun 0 x)) with (mx_count x). destruct (is_locked x); [|tauto].
      by destruct Hok as (? & _ & ? & _).
    + intros m' Hne. split; [congruence|done].
Qed.

(** ** Taking and dropping *)

Definition taken (t : nat) (p : Z) (x : pth_mutex_st) : pth_mutex_st :=
  Mutex (set_flag (mx_state x) PTH_MUTEX_LOCKED) (mx_index x) (mx_type x) (Some t) p (mx_lock x) (mx_shared x) 1
    (mx_waitcount x).
Definition dropped (x : pth_mutex_st) : pth_mutex_st :=
  Mutex (clear_flag (mx_state x) PTH_MUTEX_LOCKED) (mx_index x) (mx_type x) None 0 (mx_lock x) (mx_shared x) 0
    (mx_waitcount x).

Definition put_t (t : nat) (x : pth_st) (w : world) : world := set_threads (<[t := x]> (threads w)) w.

Definition take_held (t m : nat) (H : holdings) : holdings :=
  match H !! t with
  | Some (None, l) => <[t := (Some m, l)]> H
  | Some (Some k, l) => <[t := (Some k, l ++ [m])]> H
  | None => H
  end.

Lemma held_take H t m o l : H !! t = Some (o, l) ->
  (held (take_held t m H) t ≡ₚ m :: held H t) /\ forall u, u <> t -> held (take_held t m H) u = held H u.
Proof.
  intros E. unfold take_held, held. rewrite E. destruct o as [k|]; simpl.
  - rewrite lookup_insert_eq. split; [simpl; rewrite Permutation_app_comm; simpl; by constructor|].
    intros u Hu. by rewrite lookup_insert_ne.
  - rewrite lookup_insert_eq. split; [done|]. intros u Hu. by rewrite lookup_insert_ne.
Qed.

(** The writes to the mutex, before those to the thread. *)
Lemma take_writes w m x t p : mutexes w !! m = Some x ->
  take_mutex m t p w =
  (y ← get_t t;
   match mutex_owned y with
   | None => upd_t t (set_mutex_owned (Some m))
   | Some _ => on_mutexring t (pth_ring_append (Some m))
   end) (put_m m (taken t p x) w).
Proof.
  intros Hm. unfold take_mutex. rewrite (bind_run _ _ _ _ _ (upd_m_run _ _ _ _ Hm)).
  do 3 (erewrite bind_run; [|apply upd_m_run, lookup_insert_eq]).
  unfold put_m. simpl. by rewrite !insert_insert_eq.
Qed.

Lemma on_mutexring_run w t y f r h : threads w !! t = Some y -> f (mutexring y, mnodes w) = Ok (r, h) ->
  on_mutexring t f w = Ok (tt, put_t t (set_mutexring r y) (set_mnodes h w)).
Proof.
  intros Hy E. unfold on_mutexring.
  rewrite (bind_run _ _ _ _ _ (get_t_run w t y Hy)), (bind_run get _ _ _ _ eq_refl).
  unfold of_res. rewrite E. erewrite bind_run; [|reflexivity]. cbv beta iota.
  rewrite (bind_run (modify (set_mnodes h)) _ w tt (set_mnodes h w) eq_refl). by apply upd_t_run.
Qed.

(** What code on the mutexes leaves alone: everything but the mutexes, their
    ring nodes and the members of the threads that say which ones they
    hold. *)
Definition sched_view (x : pth_st) : pth_st := set_mutex_owned None (set_mutexring pth_ring_init x).

Record frame (w w' : world) : Prop := {
  fr_natives : natives w' = natives w;
  fr_self : self w' = self w;
  fr_waits : waits w' = waits w;
  fr_qm : qm w' = qm w;
  fr_nn : pth_number_of_natives w' = pth_number_of_natives w;
  fr_conds : conds w' = conds w;
  fr_rwlocks : rwlocks w' = rwlocks w;
  fr_barriers : barriers w' = barriers w;
  fr_threads : sched_view <$> threads w' = sched_view <$> threads w }.

#[global] Instance frame_preorder : PreOrder frame.
Proof.
  split; [by split|]. intros a b c H1 H2. split; etransitivity; [apply H2|apply H1|..].
  all: first [apply H1|apply H2].
Qed.

Lemma frame_put_m m x w : frame w (put_m m x w).
Proof. by split. Qed.

(** Mutex [m] comes into or goes out of the possession of thread [t]. *)
Lemma sinv_move b w w' H H' t m x x' y' :
  sinv b w H -> mutexes w !! m = Some x -> mutexes w' = <[m := x']> (mutexes w) ->
  threads w' = <[t := y']> (threads w) -> mx_lock x' = mx_lock x ->
  (forall u, u <> t -> H' !! u = H !! u) ->
  (exists o l, H' !! t = Some (o, l) /\ mutex_owned y' = o /\ rng (mutexring y') (mnodes w') l) ->
  (if is_locked x' then mx_owner x' = Some t /\ mx_count x' = 1 /\ m ∈ held H' t
   else mx_owner x' = None /\ mx_count x' = 0 /\ m ∉ held H' t) ->
  (forall m', m' <> m -> m' ∈ held H' t <-> m' ∈ held H t) ->
  (forall u, u <> t -> m ∉ held H u) -> NoDup (held H' t) ->
  same_dom (mnodes w) (mnodes w') ->
  (forall u, u <> t -> forall o l, H !! u = Some (o, l) -> forall k, k ∈ l -> mnodes w' !! k = mnodes w !! k) ->
  sinv b w' H'.
Proof.
  intros Hi Hm Em Et El HHu HHt Hx Hheld Hnot Hnd Hd Hf.
  assert (forall u, u <> t -> held H' u = held H u) as Hhu.
  { intros u Hu. unfold held. by rewrite HHu. }
  assert (forall u m', m' <> m -> m' ∈ held H' u <-> m' ∈ held H u) as Hin.
  { intros u m' Hne. destruct (decide (u = t)) as [->|Hu]; [by apply Hheld|]. by rewrite Hhu. }
  split.
  - intros u o l Hu. rewrite Et. destruct (decide (u = t)) as [->|Hne].
    + rewrite lookup_insert_eq. destruct HHt as (o' & l' & E & Ho & Hr). simplify_eq. by exists y'.
    + rewrite HHu in Hu by done. rewrite lookup_insert_ne by done.
      destruct (si_thread _ _ _ Hi _ _ _ Hu) as (z & Hz & Ho & Hr). exists z. split_and!; [done..|].
      eapply rng_agree; [|done]. by apply (Hf u Hne o l).
  - intros m' z. rewrite Em. destruct (decide (m = m')) as [<-|Hne].
    + rewrite lookup_insert_eq. intros E. injection E as <-.
      destruct (si_mutex _ _ _ Hi _ _ Hm) as [[Hs _] Hn]. split; [|by apply Hd].
      split; [by rewrite El|]. destruct (is_locked x').
      * exists t. destruct Hx as (? & Hc & ?). rewrite Hc. by split_and!.
      * by destruct Hx as (? & ? & _).
    + rewrite lookup_insert_ne by done. intros Hz.
      destruct (si_mutex _ _ _ Hi _ _ Hz) as [[Hs Hok] Hn]. split; [|by apply Hd].
      split; [done|]. destruct (is_locked z); [|done]. destruct Hok as (u & Hu & Hc & Hmem).
      exists u. split_and!; [done|lia|lia|]. apply Hin; [congruence|done].
  - intros u m' Hmem. rewrite Em. destruct (decide (m = m')) as [<-|Hne].
    + destruct (decide (u = t)) as [->|Hu]; [|rewrite Hhu in Hmem by done; by apply Hnot in Hmem].
      rewrite lookup_insert_eq. exists x'. split; [done|].
      destruct (is_locked x'); [|by destruct Hx as (_ & _ & ?)]. by destruct Hx as (? & _ & _).
    + rewrite lookup_insert_ne by done. apply (si_held _ _ _ Hi). apply Hin; [congruence|done].
  - intros u. destruct (decide (u = t)) as [->|Hu]; [done|]. rewrite Hhu by done. apply (si_nodup _ _ _ Hi).
  - rewrite Em, map_size_insert_Some by (by eexists). apply (si_size _ _ _ Hi).
Qed.

Lemma take_mutex_spec b w H m x t o l p :
  sinv b w H -> mutexes w !! m = Some x -> is_locked x = false -> H !! t = Some (o, l) ->
  exists w', take_mutex m t p w = Ok (tt, w') /\ sinv b w' (take_held t m H) /\
    mutexes w' = <[m := taken t p x]> (mutexes w) /\ frame w w'.
Proof.
  intros Hi Hm Hl HH. destruct (si_mutex _ _ _ Hi _ _ Hm) as [[Hs Hok] Hn]. rewrite Hl in Hok.
  assert (forall u, m ∉ held H u) as Hnot.
  { intros u (y & Hy & Hl' & _)%(si_held _ _ _ Hi). congruence. }
  destruct (si_thread _ _ _ Hi _ _ _ HH) as (y & Hy & Ho & Hr).
  destruct (held_take H t m o l HH) as [Hht Hhu].
  set (w1 := put_m m (taken t p x) w).
  (* the world after the writes to the thread and to the ring nodes *)
  assert (exists y' h', take_mutex m t p w = Ok (tt, put_t t y' (set_mnodes h' w1)) /\
    sched_view y' = sched_view y /\
    (exists o' l', take_held t m H !! t = Some (o', l') /\ mutex_owned y' = o' /\ rng (mutexring y') h' l') /\
    same_dom (mnodes w) h' /\
    (forall u, u <> t -> forall o l, H !! u = Some (o, l) -> forall k, k ∈ l -> h' !! k = mnodes w !! k))
    as (y' & h' & E & Hv & Ht & Hd & Hf).
  { assert (threads w1 !! t = Some y) as Hy1 by done.
    rewrite (take_writes w m x t p Hm). fold w1. rewrite (bind_run _ _ _ _ _ (get_t_run w1 t y Hy1)), Ho.
    destruct o as [k|].
    - assert (m ∉ l) as Hml.
      { intros Hin. apply (Hnot t). unfold held. rewrite HH. set_solver. }
      destruct (pth_ring_append_spec (mutexring y) (mnodes w) l m Hr Hn Hml) as (r & h & Ea & Hr' & Hd & Hf).
      { pose proof (held_bound _ _ _ t Hi) as Hb. unfold held in Hb. rewrite HH in Hb. simpl in Hb. lia. }
      exists (set_mutexring r y), h. split_and!; [|done| |done|].
      + by apply on_mutexring_run.
      + unfold take_held. rewrite HH, lookup_insert_eq. by eexists _, _.
      + intros u Hu o' l' Hu' j Hj. apply Hf. intros [->|Hin]%elem_of_cons.
        * apply (Hnot u). unfold held. rewrite Hu'. set_solver.
        * apply Hu. eapply (held_unique _ _ _ u t j Hi); unfold held; rewrite ?Hu', ?HH; set_solver.
    - exists (set_mutex_owned (Some m) y), (mnodes w). split_and!; [|done| |done|done].
      + by apply upd_t_run.
      + unfold take_held. rewrite HH, lookup_insert_eq. by eexists _, _. }
  exists (put_t t y' (set_mnodes h' w1)). split; [done|]. split; [|split; [done|]].
  - eapply (sinv_move b w _ H _ t m x (taken t p x) y'); try done.
    + intros u Hu. unfold take_held. rewrite HH. destruct o; by rewrite lookup_insert_ne.
    + assert (is_locked (taken t p x) = true) as -> by apply (is_locked_set x).
      split_and!; [done..|]. rewrite Hht. set_solver.
    + intros m' Hne. rewrite Hht, elem_of_cons. tauto.
    + rewrite Hht. apply NoDup_cons. split; [apply Hnot|apply (si_nodup _ _ _ Hi)].
  - split; try done. simpl. rewrite fmap_insert, Hv. apply insert_id. by rewrite lookup_fmap, Hy.
Qed.

(** ** Dropping *)

Definition drop_held (t m : nat) (H : holdings) : holdings :=
  match H !! t with
  | Some (o, l) =>
      if bool_decide (o = Some m) then <[t := (None, l)]> H
      else <[t := (o, filter (fun k => k <> m) l)]> H
  | None => H
  end.

Lemma drop_writes w m x t : mutexes w !! m = Some x ->
  drop_mutex m t w =
  (y ← get_t t;
   if bool_decide (mutex_owned y = Some m) then upd_t t (set_mutex_owned None)
   else on_mutexring t (pth_ring_delete (Some m))) (put_m m (dropped x) w).
Proof.
  intros Hm. unfold drop_mutex. rewrite (bind_run _ _ _ _ _ (upd_m_run _ _ _ _ Hm)).
  do 3 (erewrite bind_run; [|apply upd_m_run, lookup_insert_eq]).
  unfold put_m. simpl. by rewrite !insert_insert_eq.
Qed.

Lemma filter_out (l1 l2 : list nat) m : m ∉ l1 -> m ∉ l2 ->
  filter (fun k => k <> m) (l1 ++ m :: l2) = l1 ++ l2.
Proof.
  intros H1 H2. assert (forall l : list nat, m ∉ l -> filter (fun k => k <> m) l = l) as Hid.
  { intros l. induction l as [|k l IH]; intros Hn; [done|]. rewrite filter_cons, decide_True by set_solver.
    f_equal. apply IH. set_solver. }
  rewrite filter_app, filter_cons, decide_False by tauto. by rewrite !Hid.
Qed.

Lemma drop_mutex_spec b w H m x t o l :
  sinv b w H -> mutexes w !! m = Some x -> H !! t = Some (o, l) -> m ∈ held H t ->
  exists w', drop_mutex m t w = Ok (tt, w') /\ sinv b w' (drop_held t m H) /\
    mutexes w' = <[m := dropped x]> (mutexes w) /\ frame w w'.
Proof.
  intros Hi Hm HH Hin.
  destruct (si_mutex _ _ _ Hi _ _ Hm) as [[Hs Hok] Hn].
  destruct (si_thread _ _ _ Hi _ _ _ HH) as (y & Hy & Ho & Hr).
  pose proof (si_nodup _ _ _ Hi t) as Hnd. unfold held in Hnd, Hin. rewrite HH in Hnd, Hin.
  set (w1 := put_m m (dropped x) w).
  assert (threads w1 !! t = Some y) as Hy1 by done.
  assert (forall u, u <> t -> forall o' l', H !! u = Some (o', l') -> forall k, k ∈ l' -> k ∈ l -> False) as Hsep.
  { intros u Hu o' l' Hu' k Hk Hk'. apply Hu.
    eapply (held_unique _ _ _ u t k Hi); unfold held; rewrite ?Hu', ?HH; set_solver. }
  assert (exists y' h', drop_mutex m t w = Ok (tt, put_t t y' (set_mnodes h' w1)) /\
    sched_view y' = sched_view y /\
    (exists o' l', drop_held t m H !! t = Some (o', l') /\ mutex_owned y' = o' /\ rng (mutexring y') h' l' /\
       NoDup (option_list o' ++ l') /\ m ∉ option_list o' ++ l' /\
       forall k, k <> m -> k ∈ option_list o' ++ l' <-> k ∈ option_list o ++ l) /\
    same_dom (mnodes w) h' /\
    (forall u, u <> t -> forall o l, H !! u = Some (o, l) -> forall k, k ∈ l -> h' !! k = mnodes w !! k))
    as (y' & h' & E' & Hv & (o' & l' & Ht & Ho' & Hr' & Hnd' & Hni & Hmem) & Hd & Hf).
  { rewrite (drop_writes w m x t Hm). fold w1. rewrite (bind_run _ _ _ _ _ (get_t_run w1 t y Hy1)), Ho.
    destruct (decide (o = Some m)) as [->|Hne].
    - exists (set_mutex_owned None y), (mnodes w). split_and!; [|done| |done|done].
      + rewrite bool_decide_eq_true_2 by done. by apply upd_t_run.
      + unfold drop_held. rewrite HH, bool_decide_eq_true_2, lookup_insert_eq by done.
        exists None, l. simpl in *. apply NoDup_cons in Hnd as [Hml Hnd].
        split_and!; [done..|]. intros k Hk. set_solver.
    - assert (m ∈ l) as Hml. { apply elem_of_app in Hin as [Hin|]; [|done]. destruct o; set_solver. }
      apply list_elem_of_split in Hml as (l1 & l2 & ->).
      apply NoDup_app in Hnd as (Hnd1 & Hnd2 & Hnd3).
      apply NoDup_app in Hnd3 as (Hnl1 & Hn12 & [Hm2 Hnl2]%NoDup_cons).
      assert (m ∉ l1) as Hm1 by (intros Hk; apply (Hn12 m Hk); set_solver).
      destruct (pth_ring_delete_spec (mutexring y) (mnodes w) l1 m l2 Hr) as (r & h & Ea & Hr' & Hd & Hf).
      exists (set_mutexring r y), h. split_and!; [|done| |done|].
      + rewrite bool_decide_eq_false_2 by done. by apply on_mutexring_run.
      + unfold drop_held. rewrite HH, bool_decide_eq_false_2, lookup_insert_eq by done.
        exists o, (filter (fun k => k <> m) (l1 ++ m :: l2)). rewrite filter_out by done.
        split_and!; [done|done|done| | |intros k Hk; set_solver].
        * apply NoDup_app. split_and!; [done|set_solver|]. apply NoDup_app. split_and!; [done|set_solver|done].
        * intros [Hk|Hk]%elem_of_app; [|set_solver]. apply (Hnd2 m Hk). set_solver.
      + intros u Hu o' l' Hu' j Hj. apply Hf. right. intros Hin'. apply (Hsep u Hu o' l' Hu' j Hj). set_solver. }
  exists (put_t t y' (set_mnodes h' w1)). split; [done|]. split; [|split; [done|]].
  - eapply (sinv_move b w _ H _ t m x (dropped x) y'); try done.
    + intros u Hu. unfold drop_held. rewrite HH. destruct (bool_decide (o = Some m)); by rewrite lookup_insert_ne.
    + by exists o', l'.
    + assert (is_locked (dropped x) = false) as -> by apply (is_locked_clear x).
      split_and!; [done..|]. unfold held. by rewrite Ht.
    + intros k Hk. unfold held. rewrite Ht, HH. by apply Hmem.
    + intros u Hu Hin'. apply Hu. eapply (held_unique _ _ _ u t m Hi); [done|]. unfold held. by rewrite HH.
    + unfold held. by rewrite Ht.
  - split; try done. simpl. rewrite fmap_insert, Hv. apply insert_id. by rewrite lookup_fmap, Hy.
Qed.

(** ** Acquisition without waiting *)

(** A mutex of this process that is not used as an internal lock. *)
Definition local (x : pth_mutex_st) : Prop :=
  pshared (mx_shared x) = false /\ flag (mx_state x) PTH_MUTEX_INTERNAL_LOCKED = false.

(** Thread [t] runs on native [n]. *)
Definition running (w : world) (n t : nat) (d : pth_descr_st) : Prop :=
  self w = Some n /\ natives w !! n = Some d /\ current d = Some t.

Lemma flag_other s a b : Z.land a b = 0 -> flag (set_flag s a) b = flag s b /\ flag (clear_flag s a) b = flag s b.
Proof.
  intros Hab. assert (forall i, Z.testbit a i && Z.testbit b i = false) as Hbit.
  { intros i. by rewrite <- Z.land_spec, Hab, Z.bits_0. }
  assert (Z.land (Z.lor s a) b = Z.land s b /\ Z.land (Z.ldiff s a) b = Z.land s b) as [E1 E2].
  { split; apply Z.bits_inj'; intros i Hi; rewrite !Z.land_spec, ?Z.lor_spec, ?Z.ldiff_spec;
      specialize (Hbit i); by destruct (Z.testbit s i), (Z.testbit a i), (Z.testbit b i). }
  unfold flag, set_flag, clear_flag. by rewrite E1, E2.
Qed.

Lemma local_taken t p x : local x -> local (taken t p x).
Proof. intros [H1 H2]. split; [done|]. simpl. by rewrite (proj1 (flag_other _ PTH_MUTEX_LOCKED PTH_MUTEX_INTERNAL_LOCKED eq_refl)). Qed.
Lemma local_dropped x : local x -> local (dropped x).
Proof. intros [H1 H2]. split; [done|]. simpl. by rewrite (proj2 (flag_other _ PTH_MUTEX_LOCKED PTH_MUTEX_INTERNAL_LOCKED eq_refl)). Qed.

Lemma spun_back x : spinlock (mx_lock x) = 0 -> spun 0 (spun 1 x) = x.
Proof. destruct x as [? ? ? ? ? [] ? ? ?]. simpl. by intros ->. Qed.

Lemma put_m_same m x w : mutexes w !! m = Some x -> put_m m x w = w.
Proof. intros E. unfold put_m. rewrite insert_id by done. by destruct w. Qed.

(** The beginning of [pth_mutex_acquire] on a local mutex: the spin lock is
    taken. *)
Lemma acquire_enter alive fuel m try extra w E F H n t d x :
  sinv None w H -> running w n t d -> mutexes w !! m = Some x -> local x ->
  pth_mutex_acquire alive fuel m try extra (Sys w E F) =
  (if negb (is_locked x) && bool_decide (mx_waitcount x = 0) then
     lift (take_mutex m t (pid d);; mx_release m);; mret 0
   else if bool_decide (mx_owner x = Some t) && bool_decide (mx_count x >= 1) then
     rc ← lift (if bool_decide (mx_type x = PTH_MUTEX_RECURSIVE_NP) then
                  upd_m m (fun x => set_mx_count (wrap 32 (mx_count x + 1)) x);; mret 0
                else mret (if try then EBUSY else EDEADLK));
     lift (mx_release m);; mret rc
   else if try then lift (mx_release m);; mret EBUSY
   else
     lift (wait_insert t (WMutex m));;
     if is_bounded d then
       mutex_wait_bound fuel m t n;; lift (take_and_release m t n);; mret 0
     else
       r ← mutex_wait fuel m t extra;
       match r with
       | inr rc => mret rc
       | inl n => lift (take_and_release m t n);; mret 0
       end) (Sys (put_m m (spun 1 x) w) E F).
Proof.
  intros Hi (Hs & Hn & Hc) Hm [Hp Hf]. unfold pth_mutex_acquire.
  rewrite (bind_run _ _ _ _ _ (lift_run pth_get_native_descr (Sys w E F) (Some n) w ltac:(unfold pth_get_native_descr, gets; simpl; by rewrite Hs))).
  rewrite (bind_run _ _ _ _ _ (lift_run _ (Sys w E F) _ _ (get_m_run w m x Hm))). simpl wld; simpl env; simpl fds.
  rewrite Hf, Hp. unfold mutex_acquire_local.
  rewrite (bind_run _ _ _ _ _ (lift_run _ (Sys w E F) _ _ (get_d_run w n d Hn))). simpl env; simpl fds.
  rewrite Hc. rewrite (bind_run _ _ _ _ _ (lift_run _ (Sys w E F) t w eq_refl)). simpl env; simpl fds.
  destruct (mx_acquire_spec w H m x Hi Hm) as [Ea _].
  rewrite (bind_run _ _ _ _ _ (lift_run _ (Sys w E F) _ _ Ea)). simpl env; simpl fds.
  by rewrite (bind_run _ _ _ _ _ (lift_run _ (Sys _ E F) _ _ (get_m_run _ m (spun 1 x) (put_m_lookup _ _ _)))).
Qed.

Lemma take_release_run w H m x t o l p :
  sinv (Some m) (put_m m (spun 1 x) w) H -> spinlock (mx_lock x) = 0 -> is_locked x = false ->
  H !! t = Some (o, l) ->
  exists w', (take_mutex m t p;; mx_release m) (put_m m (spun 1 x) w) = Ok (tt, w') /\
    sinv None w' (take_held t m H) /\ mutexes w' = <[m := taken t p x]> (mutexes w) /\ frame w w'.
Proof.
  intros Hi Hsp Hl HH.
  destruct (take_mutex_spec _ _ _ m (spun 1 x) t o l p Hi (put_m_lookup _ _ _) Hl HH) as (w1 & E1 & Hi1 & Em & Hf).
  assert (mutexes w1 !! m = Some (taken t p (spun 1 x))) as Hm1 by (rewrite Em; apply lookup_insert_eq).
  destruct (mx_release_spec w1 _ m _ Hi1 Hm1) as [E2 Hi2].
  exists (put_m m (spun 0 (taken t p (spun 1 x))) w1). split; [by rewrite (bind_run _ _ _ _ _ E1)|].
  assert (spun 0 (taken t p (spun 1 x)) = taken t p x) as Et.
  { destruct x as [? ? ? ? ? [] ? ? ?]. simpl in Hsp. subst. done. }
  rewrite Et in *. split_and!; [done| |].
  - simpl. rewrite Em. simpl. by rewrite !insert_insert_eq.
  - etransitivity; [|apply frame_put_m]. etransitivity; [apply frame_put_m|done].
Qed.

Section acquire.
Context (alive : Z -> bool) (fuel m : nat) (extra : bool) (E : list wakeup) (F : list Z).
Context (w : world) (H : holdings) (n t : nat) (d : pth_descr_st) (x : pth_mutex_st).
Context (Hi : sinv None w H) (Hrun : running w n t d) (Hm : mutexes w !! m = Some x) (Hloc : local x).
Context (HH : is_Some (H !! t)).

Lemma mutex_spin_free : spinlock (mx_lock x) = 0.
Proof. destruct (si_mutex _ _ _ Hi _ _ Hm) as [[Hs _] _]. by rewrite Hs. Qed.

(** The spin lock is released and nothing else has changed. *)
Lemma release_back : mx_release m (put_m m (spun 1 x) w) = Ok (tt, w).
Proof.
  destruct (mx_acquire_spec w H m x Hi Hm) as [_ Hi1].
  destruct (mx_release_spec _ H m (spun 1 x) Hi1 (put_m_lookup _ _ _)) as [Er _].
  rewrite Er, put_m_twice, spun_back by apply mutex_spin_free. by rewrite put_m_same.
Qed.

Lemma acquire_free try : is_locked x = false -> mx_waitcount x = 0 ->
  exists w', pth_mutex_acquire alive fuel m try extra (Sys w E F) = Ok (0, Sys w' E F) /\
    sinv None w' (take_held t m H) /\ mutexes w' = <[m := taken t (pid d) x]> (mutexes w) /\ frame w w'.
Proof.
  intros Hl Hw. rewrite (acquire_enter _ _ _ _ _ _ _ _ _ _ _ _ _ Hi Hrun Hm Hloc).
  rewrite Hl, (bool_decide_eq_true_2 (mx_waitcount x = 0)) by done. cbn [negb andb].
  destruct (mx_acquire_spec w H m x Hi Hm) as [_ Hi1]. destruct HH as [[o l] Ht].
  destruct (take_release_run w H m x t o l (pid d) Hi1 mutex_spin_free Hl Ht) as (w' & Er & Hi' & Em & Hf).
  exists w'. split; [|done]. rewrite (bind_run _ _ _ _ _ (lift_run _ (Sys _ E F) _ _ Er)). done.
Qed.

Lemma acquire_again try : mx_owner x = Some t -> is_locked x = true ->
  mx_type x = PTH_MUTEX_RECURSIVE_NP -> mx_count x + 1 < 2 ^ 32 ->
  exists w', pth_mutex_acquire alive fuel m try extra (Sys w E F) = Ok (0, Sys w' E F) /\
    sinv None w' H /\ mutexes w' = <[m := set_mx_count (mx_count x + 1) x]> (mutexes w) /\ frame w w'.
Proof.
  intros Ho Hl Hty Hc. rewrite (acquire_enter _ _ _ _ _ _ _ _ _ _ _ _ _ Hi Hrun Hm Hloc).
  destruct (si_mutex _ _ _ Hi _ _ Hm) as [[_ Hok] _]. rewrite Hl in Hok. destruct Hok as (_ & _ & Hcount & _).
  rewrite Hl. cbn [negb andb]. rewrite Ho, (bool_decide_eq_true_2 (Some t = Some t)), (bool_decide_eq_true_2 (mx_count x >= 1)) by (done || lia). cbn [andb].
  rewrite bool_decide_eq_true_2 by done.
  destruct (mx_acquire_spec w H m x Hi Hm) as [_ Hi1].
  set (x1 := set_mx_count (mx_count x + 1) (spun 1 x)).
  assert ((upd_m m (fun x => set_mx_count (wrap 32 (mx_count x + 1)) x);; mret 0) (put_m m (spun 1 x) w)
          = Ok (0, put_m m x1 (put_m m (spun 1 x) w))) as Eu.
  { rewrite (bind_run _ _ _ _ _ (upd_m_run _ m (spun 1 x) _ (put_m_lookup _ _ _))). simpl mx_count.
    by rewrite wrap_small by lia. }
  rewrite (bind_run _ _ _ _ _ (lift_run _ (Sys _ E F) _ _ Eu)). simpl env; simpl fds.
  assert (sinv (Some m) (put_m m x1 (put_m m (spun 1 x) w)) H) as Hi2.
  { eapply sinv_keep; [exact Hi1|apply put_m_lookup|done|done| |by simpl; rewrite bool_decide_eq_true_2|done].
    change (is_locked (spun 1 x)) with (is_locked x). rewrite Hl. simpl. lia. }
  destruct (mx_release_spec _ H m x1 Hi2 (put_m_lookup _ _ _)) as [Er Hi3].
  rewrite (bind_run _ _ _ _ _ (lift_run _ (Sys _ E F) _ _ Er)). simpl env; simpl fds.
  rewrite !put_m_twice in *. assert (spun 0 x1 = set_mx_count (mx_count x + 1) x) as Ex.
  { pose proof mutex_spin_free as Hsp. unfold x1. destruct x as [? ? ? ? ? [] ? ? ?]. simpl in *. by subst. }
  rewrite Ex in *. eexists. split; [reflexivity|]. split_and!; [done|done|apply frame_put_m].
Qed.

Lemma acquire_refused try : mx_owner x = Some t -> is_locked x = true ->
  mx_type x <> PTH_MUTEX_RECURSIVE_NP ->
  pth_mutex_acquire alive fuel m try extra (Sys w E F) = Ok (if try then EBUSY else EDEADLK, Sys w E F).
Proof.
  intros Ho Hl Hty. rewrite (acquire_enter _ _ _ _ _ _ _ _ _ _ _ _ _ Hi Hrun Hm Hloc).
  destruct (si_mutex _ _ _ Hi _ _ Hm) as [[_ Hok] _]. rewrite Hl in Hok. destruct Hok as (_ & _ & Hcount & _).
  rewrite Hl. cbn [negb andb]. rewrite Ho, (bool_decide_eq_true_2 (Some t = Some t)), (bool_decide_eq_true_2 (mx_count x >= 1)) by (done || lia). cbn [andb].
  rewrite bool_decide_eq_false_2 by done.
  rewrite (bind_run _ _ _ _ _ (lift_run (mret _) (Sys _ E F) _ _ eq_refl)). simpl env; simpl fds.
  by rewrite (bind_run _ _ _ _ _ (lift_run _ (Sys _ E F) _ _ release_back)).
Qed.

Lemma acquire_busy u : mx_owner x = Some u -> u <> t -> is_locked x = true ->
  pth_mutex_acquire alive fuel m true extra (Sys w E F) = Ok (EBUSY, Sys w E F).
Proof.
  intros Ho Hne Hl. rewrite (acquire_enter _ _ _ _ _ _ _ _ _ _ _ _ _ Hi Hrun Hm Hloc).
  rewrite Hl. cbn [negb andb]. rewrite Ho, bool_decide_eq_false_2 by congruence. cbn [andb].
  by rewrite (bind_run _ _ _ _ _ (lift_run _ (Sys _ E F) _ _ release_back)).
Qed.

(** ** Release *)

Lemma release_refused : mx_owner x <> Some t -> pth_mutex_release m w = Ok (EPERM, w).
Proof.
  intros Ho. destruct Hrun as (Hs & Hn & Hc). unfold pth_mutex_release.
  rewrite (bind_run _ _ _ _ _ (get_m_run w m x Hm)). destruct (is_locked x); cbn [negb].
  - rewrite (bind_run _ _ _ _ _ (my_descr_run w n d Hs Hn)). cbv beta iota.
    rewrite Hc, bool_decide_eq_false_2 by congruence. done.
  - by rewrite (proj2 Hloc).
Qed.

(** Up to the decrement. *)
Lemma release_enter : mx_owner x = Some t -> is_locked x = true ->
  pth_mutex_release m w =
  (if bool_decide (mx_count x - 1 <= 0) then
     drop_mutex m t;;
     w ← get;
     if bool_decide (pth_number_of_natives w > 1) then mutex_wake m n else mx_release m;; mret 0
   else mx_release m;; mret 0) (put_m m (set_mx_count (mx_count x - 1) (spun 1 x)) w).
Proof.
  intros Ho Hl. destruct Hrun as (Hs & Hn & Hc). unfold pth_mutex_release.
  destruct (si_mutex _ _ _ Hi _ _ Hm) as [[_ Hok] _]. rewrite Hl in Hok. destruct Hok as (_ & _ & Hcount & _).
  rewrite (bind_run _ _ _ _ _ (get_m_run w m x Hm)), Hl. cbn [negb].
  rewrite (bind_run _ _ _ _ _ (my_descr_run w n d Hs Hn)). cbv beta iota.
  rewrite Hc, Ho, bool_decide_eq_true_2 by done. cbn [negb].
  rewrite (bind_run _ _ _ _ _ (proj1 (mx_acquire_spec w H m x Hi Hm))).
  rewrite (bind_run _ _ _ _ _ (upd_m_run _ m (spun 1 x) _ (put_m_lookup _ _ _))).
  change (mx_count (spun 1 x)) with (mx_count x). rewrite wrap_small by lia.
  fold (put_m m (set_mx_count (mx_count x - 1) (spun 1 x)) (put_m m (spun 1 x) w)). rewrite put_m_twice.
  rewrite (bind_run _ _ _ _ _ (get_m_run _ m _ (put_m_lookup _ _ _))).
  change (mx_count (set_mx_count (mx_count x - 1) (spun 1 x))) with (mx_count x - 1).
  change (pshared (mx_shared (set_mx_count (mx_count x - 1) (spun 1 x)))) with (pshared (mx_shared x)).
  rewrite (proj1 Hloc). case_bool_decide; [|done]. cbn [negb].
  by rewrite (bind_run (of_option BadDeref (Some t)) _ _ t _ eq_refl).
Qed.

Lemma release_nested : mx_owner x = Some t -> is_locked x = true -> 1 < mx_count x ->
  exists w', pth_mutex_release m w = Ok (0, w') /\ sinv None w' H /\
    mutexes w' = <[m := set_mx_count (mx_count x - 1) x]> (mutexes w) /\ frame w w'.
Proof.
  intros Ho Hl Hc. rewrite release_enter by done. rewrite bool_decide_eq_false_2 by lia.
  destruct (si_mutex _ _ _ Hi _ _ Hm) as [[_ Hok] _]. rewrite Hl in Hok. destruct Hok as (_ & _ & Hcount & _).
  set (x1 := set_mx_count (mx_count x - 1) (spun 1 x)).
  assert (sinv (Some m) (put_m m x1 w) H) as Hi1.
  { eapply sinv_keep; [exact Hi|exact Hm|done|done| |by simpl; rewrite bool_decide_eq_true_2|].
    - rewrite Hl. simpl. lia.
    - intros m' Hne. split; congruence. }
  destruct (mx_release_spec _ H m x1 Hi1 (put_m_lookup _ _ _)) as [Er Hi2].
  rewrite (bind_run _ _ _ _ _ Er). rewrite !put_m_twice in *.
  assert (spun 0 x1 = set_mx_count (mx_count x - 1) x) as Ex.
  { pose proof mutex_spin_free as Hsp. unfold x1. destruct x as [? ? ? ? ? [] ? ? ?]. simpl in *. by subst. }
  rewrite Ex in *. eexists. split; [reflexivity|]. split_and!; [done|done|apply frame_put_m].
Qed.
End acquire.

(** The outermost release, up to the wake-up. *)
Lemma release_drop m w H n t d x :
  sinv None w H -> running w n t d -> mutexes w !! m = Some x -> local x -> is_Some (H !! t) ->
  mx_owner x = Some t -> is_locked x = true -> mx_count x = 1 ->
  exists w1, pth_mutex_release m w =
      (if bool_decide (pth_number_of_natives w > 1) then mutex_wake m n else mx_release m;; mret 0) w1 /\
    sinv (Some m) w1 (drop_held t m H) /\ mutexes w1 = <[m := spun 1 (dropped x)]> (mutexes w) /\ frame w w1.
Proof.
  intros Hi Hrun Hm Hloc [[o l] HH] Ho Hl Hc.
  rewrite (release_enter m w H n t d x Hi Hrun Hm Hloc Ho Hl).
  rewrite bool_decide_eq_true_2 by lia.
  destruct (si_mutex _ _ _ Hi _ _ Hm) as [[Hsp Hok] _]. rewrite Hl in Hok.
  destruct Hok as (u & Hu & _ & Hin). rewrite Ho in Hu. injection Hu as <-.
  destruct (mx_acquire_spec w H m x Hi Hm) as [_ Hi1].
  destruct (drop_mutex_spec (Some m) _ H m _ t o l Hi1 (put_m_lookup _ _ _) HH Hin)
    as (w1 & E1 & Hi2 & Em & Hf).
  (* the count is zero for a moment: the drop sets it again *)
  assert (drop_mutex m t (put_m m (set_mx_count (mx_count x - 1) (spun 1 x)) w) = Ok (tt, w1)) as E2.
  { rewrite <- E1, !(drop_writes _ _ _ _ (put_m_lookup _ _ _)), !put_m_twice. done. }
  rewrite (bind_run _ _ _ _ _ E2). exists w1. split; [|split; [done|split]].
  - rewrite (bind_run get _ _ _ _ eq_refl), (fr_nn _ _ Hf). done.
  - rewrite Em. simpl. by rewrite insert_insert_eq.
  - etransitivity; [apply frame_put_m|done].
Qed.

(** ** Mutexes as abstract locks *)

(** No mutex has a waiting thread, none is shared between processes. *)
Definition idle (w : world) (m : nat) (x : pth_mutex_st) : Prop :=
  local x /\ mx_waitcount x = 0 /\ prv (waits w) (WMutex m) = Some (WMutex m).

Record quiet (w : world) (H : holdings) : Prop := {
  qu_inv : sinv None w H;
  qu_idle : forall m x, mutexes w !! m = Some x -> idle w m x;
  qu_natives : forall n d, natives w !! n = Some d -> exists t, current d = Some t /\ is_Some (H !! t) }.

(** [None]: free; [Some (t, c)]: locked [c] times by thread [t]. *)
Abbreviation locks := (gmap nat (option (nat * Z))).
Definition lock_of (x : pth_mutex_st) : option (nat * Z) := t ← mx_owner x; Some (t, mx_count x).
Definition locks_of (w : world) : locks := lock_of <$> mutexes w.

Inductive mx_op : Set := OLock (tryonly : bool) (m : nat) | OUnlock (m : nat).

(** The promise: [rec] says which mutexes are recursive.  [None]: the call
    would block, or count beyond the width of the counter. *)
Definition lk_step (rec : nat -> bool) (t : nat) (op : mx_op) (s : locks) : option (Z * locks) :=
  match op with
  | OLock tryonly m =>
      l ← s !! m;
      match l with
      | None => Some (0, <[m := Some (t, 1)]> s)
      | Some (u, c) =>
          if decide (u = t) then
            if rec m then
              if decide (c + 1 < 2 ^ 32) then Some (0, <[m := Some (t, c + 1)]> s) else None
            else Some (if tryonly then EBUSY else EDEADLK, s)
          else if tryonly then Some (EBUSY, s) else None
      end
  | OUnlock m =>
      l ← s !! m;
      match l with
      | Some (u, c) =>
          if decide (u = t) then
            Some (0, <[m := if decide (c = 1) then None else Some (t, c - 1)]> s)
          else Some (EPERM, s)
      | None => Some (EPERM, s)
      end
  end.

(** The library: the thread that runs on native [n] makes the call. *)
Definition mx_exec (alive : Z -> bool) (n : nat) (op : mx_op) : M sys Z :=
  lift (modify (set_self (Some n)));;
  match op with
  | OLock tryonly m => pth_mutex_acquire alive 0 m tryonly false
  | OUnlock m => lift (pth_mutex_release m)
  end.

Fixpoint mx_run (alive : Z -> bool) (ops : list (nat * mx_op)) : M sys (list Z) :=
  match ops with
  | [] => mret []
  | (n, op) :: ops => r ← mx_exec alive n op; rs ← mx_run alive ops; mret (r :: rs)
  end.

Fixpoint lk_run (rec : nat -> bool) (on : nat -> option nat) (ops : list (nat * mx_op)) (s : locks) : option (list Z * locks) :=
  match ops with
  | [] => Some ([], s)
  | (n, op) :: ops =>
      t ← on n;
      '(r, s) ← lk_step rec t op s;
      '(rs, s) ← lk_run rec on ops s;
      Some (r :: rs, s)
  end.

Definition is_recursive (w : world) (m : nat) : bool :=
  match mutexes w !! m with Some x => bool_decide (mx_type x = PTH_MUTEX_RECURSIVE_NP) | None => false end.
Definition runs_on (w : world) (n : nat) : option nat := d ← natives w !! n; current d.

(** The library state represents the locks [s]. *)
Record lk_rel (rec : nat -> bool) (on : nat -> option nat) (w : world) (H : holdings) (s : locks) : Prop := {
  lr_quiet : quiet w H;
  lr_locks : locks_of w = s;
  lr_rec : forall m, is_recursive w m = rec m;
  lr_on : forall n, runs_on w n = on n }.

Section lk_sim.
Context (alive : Z -> bool) (E : list wakeup) (F : list Z) (rec : nat -> bool) (on : nat -> option nat).

(** One mutex is replaced: it stays idle, and keeps its type. *)
Lemma lk_rel_put w w' H H' s m x x' :
  lk_rel rec on w H s -> sinv None w' H' -> frame w w' -> mutexes w !! m = Some x ->
  mutexes w' = <[m := x']> (mutexes w) -> local x' -> mx_waitcount x' = mx_waitcount x ->
  mx_type x' = mx_type x -> (forall t, is_Some (H !! t) -> is_Some (H' !! t)) ->
  lk_rel rec on w' H' (<[m := lock_of x']> s).
Proof.
  intros [[Hi Hid Hnat] Hs Hr Ho] Hi' Hf Hm Em Hl Hw Ht HH. split; [split|..].
  - done.
  - intros k y. rewrite Em. unfold idle. rewrite (fr_waits _ _ Hf).
    destruct (decide (m = k)) as [<-|Hne].
    + rewrite lookup_insert_eq. intros Hy. injection Hy as <-. rewrite Hw.
      destruct (Hid _ _ Hm) as (_ & ? & ?). by split_and!.
    + rewrite lookup_insert_ne by done. apply Hid.
  - intros n d. rewrite (fr_natives _ _ Hf). intros (t & Hc & ?)%Hnat. eauto.
  - unfold locks_of in *. by rewrite Em, fmap_insert, Hs.
  - intros k. rewrite <- Hr. unfold is_recursive. rewrite Em.
    destruct (decide (m = k)) as [<-|Hne]; [|by rewrite lookup_insert_ne].
    by rewrite lookup_insert_eq, Hm, Ht.
  - intros n. rewrite <- Ho. unfold runs_on. by rewrite (fr_natives _ _ Hf).
Qed.

(** The switch to another native changes nothing. *)
Lemma lk_rel_self w H s n : lk_rel rec on w H s -> lk_rel rec on (set_self (Some n) w) H s.
Proof. intros [[[] Hid Hnat] Hs Hr Ho]. split; [split; [by split|done|done]|done..]. Qed.

(** The entry of a mutex in the abstract state. *)
Lemma lk_rel_lookup w H s m l : lk_rel rec on w H s -> s !! m = Some l ->
  exists x, mutexes w !! m = Some x /\ idle w m x /\ l = lock_of x /\
    match l with
    | None => is_locked x = false
    | Some (t, c) => is_locked x = true /\ mx_owner x = Some t /\ mx_count x = c /\ 1 <= c
    end.
Proof.
  intros [[Hi Hid _] Hs _ _]. rewrite <- Hs. unfold locks_of. rewrite lookup_fmap.
  destruct (mutexes w !! m) as [x|] eqn:Hm; [|done]. intros Hl. injection Hl as <-.
  exists x. split_and!; [done|by apply Hid|done|].
  destruct (si_mutex _ _ _ Hi _ _ Hm) as [[_ Hok] _]. unfold lock_of.
  destruct (is_locked x); [|by destruct Hok as [-> _]].
  destruct Hok as (t & -> & Hc & _). simpl. split_and!; [done..|lia].
Qed.

Lemma is_Some_take t m (H : holdings) u : is_Some (H !! u) -> is_Some (take_held t m H !! u).
Proof.
  unfold take_held. destruct (H !! t) as [[[k|] l]|] eqn:Ht; [..|done]; intros Hu;
    (destruct (decide (t = u)) as [<-|]; [rewrite lookup_insert_eq|rewrite lookup_insert_ne by done]); by eauto.
Qed.
Lemma is_Some_drop t m (H : holdings) u : is_Some (H !! u) -> is_Some (drop_held t m H !! u).
Proof.
  unfold drop_held. destruct (H !! t) as [[o l]|] eqn:Ht; [|done]. intros Hu.
  destruct (bool_decide _);
    (destruct (decide (t = u)) as [<-|]; [rewrite lookup_insert_eq|rewrite lookup_insert_ne by done]); by eauto.
Qed.

(** The outermost release with no thread waiting. *)
Lemma release_idle m w H n t d x :
  sinv None w H -> running w n t d -> mutexes w !! m = Some x -> idle w m x -> is_Some (H !! t) ->
  mx_owner x = Some t -> is_locked x = true -> mx_count x = 1 ->
  exists w', pth_mutex_release m w = Ok (0, w') /\ sinv None w' (drop_held t m H) /\
    mutexes w' = <[m := dropped x]> (mutexes w) /\ frame w w'.
Proof.
  intros Hi Hrun Hm (Hloc & _ & Hp) HH Ho Hl Hc.
  destruct (release_drop m w H n t d x Hi Hrun Hm Hloc HH Ho Hl Hc) as (w1 & E1 & Hi1 & Em & Hf).
  assert (mutexes w1 !! m = Some (spun 1 (dropped x))) as Hm1 by (rewrite Em; apply lookup_insert_eq).
  destruct (mx_release_spec w1 _ m _ Hi1 Hm1) as [Er Hi2].
  assert (spun 0 (spun 1 (dropped x)) = dropped x) as Ex.
  { apply spun_back. destruct (si_mutex _ _ _ Hi _ _ Hm) as [[Hs _] _]. exact Hs. }
  rewrite Ex in *. exists (put_m m (dropped x) w1). split_and!; [|done| |].
  - rewrite E1. case_bool_decide; [|by rewrite (bind_run _ _ _ _ _ Er)]. unfold mutex_wake.
    erewrite (bind_run (read_waits _)); [|unfold read_waits; rewrite (fr_waits _ _ Hf), (get_prev_spec _ _ _ Hp); reflexivity].
    rewrite bool_decide_eq_true_2 by done. by rewrite (bind_run _ _ _ _ _ Er).
  - simpl. rewrite Em. by rewrite insert_insert_eq.
  - etransitivity; [exact Hf|apply frame_put_m].
Qed.

Lemma is_recursive_type w H s m x : lk_rel rec on w H s -> mutexes w !! m = Some x ->
  rec m = bool_decide (mx_type x = PTH_MUTEX_RECURSIVE_NP).
Proof. intros Hr Hm. rewrite <- (lr_rec _ _ _ _ _ Hr). unfold is_recursive. by rewrite Hm. Qed.

Lemma lock_step fuel w H s n t d try m r s' :
  lk_rel rec on w H s -> running w n t d -> is_Some (H !! t) -> lk_step rec t (OLock try m) s = Some (r, s') ->
  exists w' H', pth_mutex_acquire alive fuel m try false (Sys w E F) = Ok (r, Sys w' E F) /\ lk_rel rec on w' H' s' /\ frame w w'.
Proof.
  intros Hrel Hrun HH. unfold lk_step. destruct (s !! m) as [l|] eqn:Hl; [|done].
  destruct (lk_rel_lookup _ _ _ _ _ Hrel Hl) as (x & Hm & (Hloc & Hw & Hp) & El & Hx). simpl.
  pose proof (qu_inv _ _ (lr_quiet _ _ _ _ _ Hrel)) as Hi.
  destruct l as [[u c]|].
  - destruct Hx as (Hlk & Ho & Hc & Hc1). destruct (decide (u = t)) as [->|Hne].
    + rewrite (is_recursive_type _ _ _ _ _ Hrel Hm). case_bool_decide as Hty.
      * destruct (decide (c + 1 < 2 ^ 32)); [|done]. intros Es. injection Es as <- <-.
        destruct (acquire_again alive fuel m false E F w H n t d x Hi Hrun Hm Hloc try Ho Hlk Hty ltac:(lia))
          as (w' & Er & Hi' & Em & Hf).
        exists w', H. split; [done|]. split; [|done].
        replace (Some (t, c + 1)) with (lock_of (set_mx_count (mx_count x + 1) x))
          by (unfold lock_of; simpl; by rewrite Ho, Hc).
        by eapply lk_rel_put.
      * intros Es. injection Es as <- <-. exists w, H. split; [|by split].
        by apply (acquire_refused alive fuel m false E F w H n t d x).
    + destruct try; [|done]. intros Es. injection Es as <- <-. exists w, H. split; [|by split].
      by apply (acquire_busy alive fuel m false E F w H n t d x) with u.
  - intros Es. injection Es as <- <-.
    destruct (acquire_free alive fuel m false E F w H n t d x Hi Hrun Hm Hloc HH try Hx Hw) as (w' & Er & Hi' & Em & Hf).
    exists w', (take_held t m H). split; [done|]. split; [|done].
    change (Some (t, 1)) with (lock_of (taken t (pid d) x)).
    eapply lk_rel_put; try done; [by apply local_taken|]. intros. by apply is_Some_take.
Qed.

Lemma unlock_step w H s n t d m r s' :
  lk_rel rec on w H s -> running w n t d -> is_Some (H !! t) -> lk_step rec t (OUnlock m) s = Some (r, s') ->
  exists w' H', pth_mutex_release m w = Ok (r, w') /\ lk_rel rec on w' H' s' /\ frame w w'.
Proof.
  intros Hrel Hrun HH. unfold lk_step. destruct (s !! m) as [l|] eqn:Hl; [|done].
  destruct (lk_rel_lookup _ _ _ _ _ Hrel Hl) as (x & Hm & Hid & El & Hx). simpl.
  pose proof (qu_inv _ _ (lr_quiet _ _ _ _ _ Hrel)) as Hi. destruct Hid as (Hloc & Hw & Hp).
  destruct l as [[u c]|].
  - destruct Hx as (Hlk & Ho & Hc & Hc1). destruct (decide (u = t)) as [->|Hne].
    + intros Es. injection Es as <- <-. destruct (decide (c = 1)) as [Hc'|Hc'].
      * destruct (release_idle m w H n t d x) as (w' & Er & Hi' & Em & Hf); [done..|congruence|].
        exists w', (drop_held t m H). split; [done|]. split; [|done]. change None with (lock_of (dropped x)).
        eapply lk_rel_put; try done; [by apply local_dropped|]. intros. by apply is_Some_drop.
      * destruct (release_nested m w H n t d x Hi Hrun Hm Hloc Ho Hlk ltac:(lia)) as (w' & Er & Hi' & Em & Hf).
        exists w', H. split; [done|]. split; [|done].
        replace (Some (t, c - 1)) with (lock_of (set_mx_count (mx_count x - 1) x))
          by (unfold lock_of; simpl; by rewrite Ho, Hc).
        by eapply lk_rel_put.
    + intros Es. injection Es as <- <-. exists w, H. split; [|by split].
      apply (release_refused m w n t d x Hrun Hm Hloc). congruence.
  - intros Es. injection Es as <- <-. exists w, H. split; [|by split].
    apply (release_refused m w n t d x Hrun Hm Hloc). unfold lock_of in El. destruct (mx_owner x); [done|congruence].
Qed.

Lemma mx_exec_refines w H s n t op r s' :
  lk_rel rec on w H s -> on n = Some t -> lk_step rec t op s = Some (r, s') ->
  exists w' H', mx_exec alive n op (Sys w E F) = Ok (r, Sys w' E F) /\ lk_rel rec on w' H' s'.
Proof.
  intros Hrel Hon Hs. rewrite <- (lr_on _ _ _ _ _ Hrel) in Hon. unfold runs_on in Hon.
  destruct (natives w !! n) as [d|] eqn:Hd; [|done]. simpl in Hon.
  destruct (qu_natives _ _ (lr_quiet _ _ _ _ _ Hrel) _ _ Hd) as (t' & Hc & HH). simplify_eq.
  apply (lk_rel_self w H s n) in Hrel. set (w0 := set_self (Some n) w) in *.
  assert (running w0 n t d) as Hrun by done.
  unfold mx_exec. rewrite (bind_run (lift (modify (set_self (Some n)))) _ (Sys w E F) tt (Sys w0 E F) eq_refl).
  destruct op as [try m|m].
  - destruct (lock_step 0 w0 H s n t d try m r s' Hrel Hrun HH Hs) as (w' & H' & Er & Hr & _). by exists w', H'.
  - destruct (unlock_step w0 H s n t d m r s' Hrel Hrun HH Hs) as (w' & H' & Er & Hr & _).
    exists w', H'. split; [|done]. exact (lift_run _ (Sys w0 E F) _ _ Er).
Qed.
End lk_sim.

(** C1: Any sequence of calls of pth_mutex_acquire and pth_mutex_release by the
    threads of any natives, on mutexes of any types that are local to the
    process, returns what abstract locks with an owner and a depth return, and
    the library represents the abstract locks afterwards: a lock has one owner,
    is recursive only if its type says so, is released by as many calls as it
    was taken by, and only by its owner; EBUSY, EDEADLK and EPERM otherwise.
    (A call that blocks ends the sequence.) *)
Theorem mutex_refines alive E F rec on ops w H s rs s' :
  lk_rel rec on w H s -> lk_run rec on ops s = Some (rs, s') ->
  exists w' H', mx_run alive ops (Sys w E F) = Ok (rs, Sys w' E F) /\ lk_rel rec on w' H' s'.
Proof.
  revert w H s rs. induction ops as [|[n op] ops IH]; intros w H s rs Hrel Hs; simpl in Hs.
  - injection Hs as <- <-. by exists w, H.
  - destruct (on n) as [t|] eqn:Hon; [|done]. simpl in Hs.
    destruct (lk_step rec t op s) as [[r s1]|] eqn:Es; [|done]. simpl in Hs.
    destruct (lk_run rec on ops s1) as [[rs1 s2]|] eqn:Er; [|done]. simpl in Hs. injection Hs as <- <-.
    destruct (mx_exec_refines alive E F rec on w H s n t op r s1 Hrel Hon Es) as (w1 & H1 & Ex & Hrel1).
    destruct (IH w1 H1 s1 rs1 Hrel1 Er) as (w2 & H2 & Ex2 & Hrel2).
    exists w2, H2. split; [|done]. simpl. rewrite (bind_run _ _ _ _ _ Ex). by rewrite (bind_run _ _ _ _ _ Ex2).
Qed.

(** A process with two natives, on which the threads 1 and 2 run, and with two
    mutexes, 10 and 11, as [pth_mutex_init] leaves them; [ty]: the type of 11. *)
Definition a_thread : pth_st :=
  Pth None 5 SCHED_OTHER PTH_STATE_READY false false (Z.lor PTH_CANCEL_ENABLE PTH_CANCEL_DEFERRED) 1 0 0 None None None None
    pth_ring_init qlock_free true.
Definition a_native (pid : Z) (t : nat) : pth_descr_st :=
  Descr true pid pid None (Some t) true 0 qlock_free true false false None.
Definition raw_mutex : pth_mutex_st := Mutex 0 0 0 None 0 qlock_free (RFutex (Futex 0) false 0) 0 0.
Definition raw_world (ts ms : list nat) : world :=
  World (list_to_map ((fun t => (t, a_thread)) <$> ts)) (imap (fun i t => a_native (100 + Z.of_nat i) t) ts) (Some 0%nat)
    (list_to_map ((fun m => (m, raw_mutex)) <$> ms)) ∅ ∅ ∅ ∅ ∅ (QMem ∅ ∅ ∅) (Z.of_nat (length ts)) [] qlock_free [].
Definition init_all (ms : list (nat * Z)) (w : world) : world :=
  foldr (fun '(m, ty) w => match pth_mutex_init (Some m) (Some (MAttr ty false 0)) w with Ok (_, w') => w' | Err _ => w end) w ms.
Definition two_threads (ty : Z) : world :=
  init_all [(10%nat, PTH_MUTEX_NORMAL); (11%nat, ty)] (raw_world [1%nat; 2%nat] [10%nat; 11%nat]).
Definition two_holdings : holdings := {[ 1%nat := (None, []); 2%nat := (None, []) ]}.

Lemma two_threads_mutexes ty m x : mutexes (two_threads ty) !! m = Some x ->
  (m = 10%nat \/ m = 11%nat) /\ is_locked x = false /\ mx_owner x = None /\ mx_count x = 0 /\
  spinlock (mx_lock x) = 0 /\ idle (two_threads ty) m x /\ is_Some (mnodes (two_threads ty) !! m).
Proof.
  intros Hm.
  destruct (decide (m = 10%nat)) as [->|H1]; [|destruct (decide (m = 11%nat)) as [->|H2]].
  - vm_compute in Hm. injection Hm as <-. by repeat split; vm_compute; eauto.
  - vm_compute in Hm. injection Hm as <-. by repeat split; vm_compute; eauto.
  - exfalso. assert (mutexes (two_threads ty) = {[ 10%nat := default raw_mutex (mutexes (two_threads ty) !! 10%nat);
      11%nat := default raw_mutex (mutexes (two_threads ty) !! 11%nat) ]}) as E by by vm_compute.
    rewrite E, lookup_insert_ne, lookup_singleton_ne in Hm by done. done.
Qed.

Lemma two_threads_rel ty :
  lk_rel (is_recursive (two_threads ty)) (runs_on (two_threads ty)) (two_threads ty) two_holdings {[ 10%nat := None; 11%nat := None ]}.
Proof.
  assert (forall t o l, two_holdings !! t = Some (o, l) -> (t = 1%nat \/ t = 2%nat) /\ o = None /\ l = []) as Hh.
  { unfold two_holdings. intros t o l [[<- E]|[_ [<- E]%lookup_singleton_Some]]%lookup_insert_Some; simplify_eq; eauto. }
  assert (forall t, held two_holdings t = []) as Hnone.
  { intros t. unfold held. destruct (two_holdings !! t) as [[o l]|] eqn:Et; [|done].
    by destruct (Hh _ _ _ Et) as (_ & -> & ->). }
  split; [split; [split|..]|by vm_compute|done|done].
  - intros t o l ([-> | ->] & -> & ->)%Hh; exists a_thread; by vm_compute.
  - intros m x (_ & Hl & Ho & Hc & Hs & _ & Hn)%two_threads_mutexes. split; [|done]. split; [done|]. by rewrite Hl.
  - intros t m. rewrite Hnone. set_solver.
  - intros t. rewrite Hnone. constructor.
  - by vm_compute.
  - intros m x Hm. by apply two_threads_mutexes.
  - intros [|[|n]] d Hd; vm_compute in Hd; [..|by destruct n]; injection Hd as <-; eexists; (split; [reflexivity|]); vm_compute; by eexists.
Qed.

(** Two threads, a plain and a recursive mutex. *)
Definition mx_script : list (nat * mx_op) :=
  [(0%nat, OLock false 10); (1%nat, OLock true 10); (0%nat, OLock false 10); (1%nat, OLock false 11); (1%nat, OLock true 11);
   (1%nat, OUnlock 10); (1%nat, OUnlock 11); (0%nat, OLock true 11); (0%nat, OUnlock 10); (1%nat, OLock false 10);
   (1%nat, OUnlock 11); (1%nat, OUnlock 10); (1%nat, OUnlock 10)]%nat.

Definition mx_world : world := two_threads PTH_MUTEX_RECURSIVE_NP.

Lemma mutex_refines_witness :
  exists w' H', mx_run (fun _ => true) mx_script (Sys mx_world [] []) =
      Ok ([0; EBUSY; EDEADLK; 0; 0; EPERM; 0; EBUSY; 0; 0; 0; 0; EPERM], Sys w' [] []) /\
    lk_rel (is_recursive mx_world) (runs_on mx_world) w' H' {[ 10%nat := None; 11%nat := None ]}.
Proof.
  apply (mutex_refines (fun _ => true) [] [] _ _ mx_script mx_world two_holdings _ _ _ (two_threads_rel _)).
  vm_compute. reflexivity.
Defined.
