(* ===== verification/LockProofs.v ===== *)
(** * Read-write locks and barriers: the proofs about pth_sync.c

    Read-write locks and barriers are built from mutexes; their calls are
    followed through the calls of the mutex functions with the lemmas of
    MutexProofs. *)

From S2P Require Import Prelude Bitmap Dll LinkedList Ring Priorities PQueue Futex World Sync MutexProofs.

(** ** A running thread and the locks *)

Section sits.
Context (alive : Z -> bool) (E : list wakeup) (F : list Z) (rec : nat -> bool) (on : nat -> option nat).

(** Thread [t] runs on native [n], the mutexes represent [s]. *)
Definition sits (w : world) (s : locks) (n t : nat) : Prop :=
  exists H d, lk_rel rec on w H s /\ running w n t d.

(** What the mutex functions leave alone, as far as their callers care. *)
Definition same_users (w w' : world) : Prop :=
  rwlocks w' = rwlocks w /\ barriers w' = barriers w /\ conds w' = conds w.

Lemma sits_thread w H s n t d : lk_rel rec on w H s -> running w n t d -> is_Some (H !! t).
Proof.
  intros Hrel (_ & Hn & Hc). destruct (qu_natives _ _ (lr_quiet _ _ _ _ _ Hrel) _ _ Hn) as (t' & Hc' & HH). congruence.
Qed.

Lemma sits_lock fuel w s n t try m r s' : sits w s n t -> lk_step rec t (OLock try m) s = Some (r, s') ->
  exists w', pth_mutex_acquire alive fuel m try false (Sys w E F) = Ok (r, Sys w' E F) /\ sits w' s' n t /\ same_users w w'.
Proof.
  intros (H & d & Hrel & Hrun) Hs.
  destruct (lock_step alive E F rec on fuel w H s n t d try m r s' Hrel Hrun (sits_thread _ _ _ _ _ _ Hrel Hrun) Hs)
    as (w' & H' & Er & Hrel' & Hf).
  exists w'. split_and!; [done| |by destruct Hf]. exists H', d. split; [done|]. unfold running.
  by rewrite (fr_self _ _ Hf), (fr_natives _ _ Hf).
Qed.

Lemma sits_unlock w s n t m r s' : sits w s n t -> lk_step rec t (OUnlock m) s = Some (r, s') ->
  exists w', pth_mutex_release m w = Ok (r, w') /\ sits w' s' n t /\ same_users w w'.
Proof.
  intros (H & d & Hrel & Hrun) Hs.
  destruct (unlock_step rec on w H s n t d m r s' Hrel Hrun (sits_thread _ _ _ _ _ _ Hrel Hrun) Hs)
    as (w' & H' & Er & Hrel' & Hf).
  exists w'. split_and!; [done| |by destruct Hf]. exists H', d. split; [done|]. unfold running.
  by rewrite (fr_self _ _ Hf), (fr_natives _ _ Hf).
Qed.

Lemma sits_rwlocks w s n t h : sits w s n t -> sits (set_rwlocks h w) s n t.
Proof. intros (H & d & [[[] Hid Hnat] Hs Hr Ho] & Hrun). exists H, d. split; [|done]. split; [split; [by split|done|done]|done..]. Qed.

Lemma sits_self w s n t n' t' : sits w s n t -> on n' = Some t' -> sits (set_self (Some n') w) s n' t'.
Proof.
  intros (H & d & Hrel & Hrun) Hon. pose proof (lr_on _ _ _ _ _ Hrel n') as Hn. unfold runs_on in Hn. rewrite Hon in Hn.
  destruct (natives w !! n') as [d'|] eqn:Hd; [|done]. exists H, d'. split; [by apply lk_rel_self|]. done.
Qed.
End sits.

(** ** Read-write locks *)

Lemma get_rw_run w r x : rwlocks w !! r = Some x -> get_rw r w = Ok (x, w).
Proof. intros H. unfold get_rw, get, mbind, M_bind. by rewrite H. Qed.
Lemma upd_rw_run w r x f : rwlocks w !! r = Some x ->
  upd_rw r f w = Ok (tt, set_rwlocks (<[r := f x]> (rwlocks w)) w).
Proof. intros H. unfold upd_rw. by rewrite (bind_run _ _ _ _ _ (get_rw_run w r x H)). Qed.

(** What a read-write lock promises.  [RWFree mode]: [mode] is the one of its
    last use; [RWRead u k]: [k] readers, [u] was the first; [RWWrite u]. *)
Inductive rw_abs : Set := RWFree (mode : Z) | RWRead (first : nat) (k : Z) | RWWrite (u : nat).

Inductive rw_op : Set := OWrLock (tryonly : bool) | ORdLock (tryonly : bool) | ORwUnlock.

(** A lock held by [u] refuses thread [t]; [None]: the call blocks. *)
Definition refuse (tryonly : bool) (u t : nat) (a : rw_abs) : option (Z * rw_abs) :=
  if tryonly then Some (EBUSY, a) else if decide (u = t) then Some (EDEADLK, a) else None.

Definition rw_step (t : nat) (op : rw_op) (a : rw_abs) : option (Z * rw_abs) :=
  match op, a with
  | OWrLock _, RWFree _ => Some (0, RWWrite t)
  | OWrLock try, RWRead u _ => refuse try u t a
  | OWrLock try, RWWrite u => refuse try u t a
  | ORdLock _, RWFree _ => Some (0, RWRead t 1)
  | ORdLock _, RWRead u k => if decide (k + 1 < 2 ^ 32) then Some (0, RWRead u (k + 1)) else None
  | ORdLock try, RWWrite u => refuse try u t a
  | ORwUnlock, RWFree mode => if decide (mode = PTH_RWLOCK_RW) then Some (EPERM, a) else None
  | ORwUnlock, RWWrite u => if decide (u = t) then Some (0, RWFree PTH_RWLOCK_RW) else Some (EPERM, a)
  | ORwUnlock, RWRead u k =>
      if decide (k = 1) then
        if decide (u = t) then Some (0, RWFree PTH_RWLOCK_RD) else Some (EPERM, a)
      else Some (0, RWRead u (k - 1))
  end.

Definition rw_exec (alive : Z -> bool) (r n : nat) (op : rw_op) : M sys Z :=
  lift (modify (set_self (Some n)));;
  match op with
  | OWrLock try => pth_rwlock_acquire alive 0 r PTH_RWLOCK_RW try false
  | ORdLock try => pth_rwlock_acquire alive 0 r PTH_RWLOCK_RD try false
  | ORwUnlock => pth_rwlock_release alive 0 r
  end.

Definition holder (a : rw_abs) : option (nat * Z) :=
  match a with RWFree _ => None | RWRead u _ => Some (u, 1) | RWWrite u => Some (u, 1) end.
Definition readers (a : rw_abs) : Z := match a with RWRead _ k => k | _ => 0 end.
Definition mode_ok (mode : Z) (a : rw_abs) : Prop :=
  match a with RWFree md => mode = md | RWRead _ k => mode = PTH_RWLOCK_RD /\ 1 <= k < 2 ^ 32 | RWWrite _ => mode = PTH_RWLOCK_RW end.

Section rwlock.
Context (alive : Z -> bool) (E : list wakeup) (F : list Z) (rec : nat -> bool) (on : nat -> option nat).
Context (r rd wr : nat) (Hne : rd <> wr) (Hrd : rec rd = false) (Hwr : rec wr = false).

(** The read-write lock [r] in state [a]. *)
Record rw_ok (x : pth_rwlock_st) (a : rw_abs) : Prop := {
  ro_init : flag (rw_state x) PTH_RWLOCK_INITIALIZED = true;
  ro_rd : rw_mutex_rd x = Some rd;
  ro_wr : rw_mutex_rw x = Some wr;
  ro_readers : rw_readers x = readers a;
  ro_mode : mode_ok (rw_mode x) a }.

(** The mutexes while no call is in progress. *)
Definition rw_locks (s : locks) (a : rw_abs) : Prop := s !! rd = Some None /\ s !! wr = Some (holder a).

Definition rw_rel (w : world) (n t : nat) (s : locks) (a : rw_abs) : Prop :=
  sits rec on w s n t /\ rw_locks s a /\ exists x, rwlocks w !! r = Some x /\ rw_ok x a.

Definition put_rw (x : pth_rwlock_st) (w : world) : world := set_rwlocks (<[r := x]> (rwlocks w)) w.

Lemma put_rw_lookup x w : rwlocks (put_rw x w) !! r = Some x.
Proof. apply lookup_insert_eq. Qed.

Lemma get_rd_run w x : rwlocks w !! r = Some x -> rw_mutex_rd x = Some rd -> get_rd r w = Ok (rd, w).
Proof. intros Hx Ha. unfold get_rd. rewrite (bind_run _ _ _ _ _ (get_rw_run w r x Hx)). by rewrite Ha. Qed.
Lemma get_wr_run w x : rwlocks w !! r = Some x -> rw_mutex_rw x = Some wr -> get_wr r w = Ok (wr, w).
Proof. intros Hx Ha. unfold get_wr. rewrite (bind_run _ _ _ _ _ (get_rw_run w r x Hx)). by rewrite Ha. Qed.

Lemma lk_free m s t try : s !! m = Some None -> lk_step rec t (OLock try m) s = Some (0, <[m := Some (t, 1)]> s).
Proof. intros Hm. unfold lk_step. by rewrite Hm. Qed.

Lemma lk_refuse s u t try a res a' : s !! wr = Some (Some (u, 1)) -> refuse try u t a = Some (res, a') ->
  a' = a /\ res <> 0 /\ lk_step rec t (OLock try wr) s = Some (res, s).
Proof.
  intros Hm. unfold refuse, lk_step. rewrite Hm. simpl. rewrite Hwr.
  destruct try, (decide (u = t)); intros Hr; simplify_eq; done.
Qed.

Lemma lk_release m s t : s !! m = Some (Some (t, 1)) -> lk_step rec t (OUnlock m) s = Some (0, <[m := None]> s).
Proof. intros Hm. unfold lk_step. rewrite Hm. simpl. by rewrite decide_True. Qed.

(** The beginning of both functions. *)
Lemma rwlock_enter {A} (f : M sys A) (g : pth_rwlock_st -> M sys A) w x a : rwlocks w !! r = Some x -> rw_ok x a ->
  (x ← lift (get_rw r); if negb (flag (rw_state x) PTH_RWLOCK_INITIALIZED) then f else g x) (Sys w E F) = g x (Sys w E F).
Proof.
  intros Hx Ha. rewrite (bind_run _ _ _ _ _ (lift_run _ (Sys w E F) _ _ (get_rw_run w r x Hx))).
  by rewrite (ro_init _ _ Ha).
Qed.

Lemma wr_lock_step w n t s a try res a' :
  rw_rel w n t s a -> rw_step t (OWrLock try) a = Some (res, a') ->
  exists w' s', pth_rwlock_acquire alive 0 r PTH_RWLOCK_RW try false (Sys w E F) = Ok (res, Sys w' E F) /\
    rw_rel w' n t s' a'.
Proof.
  intros (Hsit & [Hlrd Hlwr] & x & Hx & Ha) Hstep. unfold pth_rwlock_acquire.
  rewrite (rwlock_enter _ _ _ _ _ Hx Ha), bool_decide_eq_true_2 by done.
  rewrite (bind_run _ _ _ _ _ (lift_run _ (Sys w E F) _ _ (get_wr_run w x Hx (ro_wr _ _ Ha)))). simpl env; simpl fds.
  destruct a as [md|u k|u]; simpl in Hstep, Hlwr.
  - injection Hstep as <- <-.
    destruct (sits_lock alive E F rec on 0 w s n t try wr _ _ Hsit (lk_free wr s t try Hlwr)) as (w1 & E1 & Hs1 & Hu & _).
    rewrite (bind_run _ _ _ _ _ E1). rewrite <- Hu in Hx.
    rewrite (bool_decide_eq_false_2 (0 <> 0)) by lia.
    rewrite (bind_run _ _ _ _ _ (lift_run _ (Sys w1 E F) _ _ (upd_rw_run w1 r x _ Hx))).
    eexists _, _. split; [reflexivity|]. split; [by apply sits_rwlocks|]. split.
    + split; [by rewrite lookup_insert_ne|]. by rewrite lookup_insert_eq.
    + eexists. split; [apply lookup_insert_eq|]. destruct Ha. by split.
  - destruct (lk_refuse s u t try _ res a' Hlwr Hstep) as (-> & Hr & Hlk).
    destruct (sits_lock alive E F rec on 0 w s n t try wr _ _ Hsit Hlk) as (w1 & E1 & Hs1 & Hu & _).
    rewrite (bind_run _ _ _ _ _ E1), (bool_decide_eq_true_2 (res <> 0)) by done. exists w1, s. split; [done|].
    split; [done|]. split; [done|]. rewrite Hu. by exists x.
  - destruct (lk_refuse s u t try _ res a' Hlwr Hstep) as (-> & Hr & Hlk).
    destruct (sits_lock alive E F rec on 0 w s n t try wr _ _ Hsit Hlk) as (w1 & E1 & Hs1 & Hu & _).
    rewrite (bind_run _ _ _ _ _ E1), (bool_decide_eq_true_2 (res <> 0)) by done. exists w1, s. split; [done|].
    split; [done|]. split; [done|]. rewrite Hu. by exists x.
Qed.

(** The reader's part: the lock of the reader count is taken and the count
    changed. *)
Lemma rd_enter w n t s a try fr (g : M sys Z) :
  rw_rel w n t s a ->
  exists w' x, (m ← lift (get_rd r); rc ← pth_mutex_acquire alive 0 m try false;
     if bool_decide (rc <> 0) then mret rc
     else lift (upd_rw r (fun x => set_rw_readers (wrap 32 (fr (rw_readers x))) x));; g) (Sys w E F)
    = g (Sys w' E F) /\
    sits rec on w' (<[rd := Some (t, 1)]> s) n t /\
    rwlocks w' !! r = Some (set_rw_readers (wrap 32 (fr (readers a))) x) /\ rw_ok x a.
Proof.
  intros (Hsit & [Hlrd Hlwr] & x & Hx & Ha).
  destruct (sits_lock alive E F rec on 0 w s n t try rd _ _ Hsit (lk_free rd s t try Hlrd)) as (w1 & E1 & Hs1 & Hu & _).
  rewrite (bind_run _ _ _ _ _ (lift_run _ (Sys w E F) _ _ (get_rd_run w x Hx (ro_rd _ _ Ha)))). simpl env; simpl fds.
  rewrite (bind_run _ _ _ _ _ E1), (bool_decide_eq_false_2 (0 <> 0)) by lia. rewrite <- Hu in Hx.
  rewrite (bind_run _ _ _ _ _ (lift_run _ (Sys w1 E F) _ _ (upd_rw_run w1 r x _ Hx))). simpl env; simpl fds.
  eexists _, x. split; [reflexivity|]. split; [by apply sits_rwlocks|]. split; [|done].
  simpl. rewrite (ro_readers _ _ Ha). apply lookup_insert_eq.
Qed.

(** ... and released. *)
Lemma rd_leave w n t s x (v : Z) :
  sits rec on w s n t -> s !! rd = Some (Some (t, 1)) -> rwlocks w !! r = Some x -> rw_mutex_rd x = Some rd ->
  exists w', (lift (m ← get_rd r; pth_mutex_release m);; mret v) (Sys w E F) = Ok (v, Sys w' E F) /\
    sits rec on w' (<[rd := None]> s) n t /\ rwlocks w' !! r = Some x.
Proof.
  intros Hsit Hs Hx Hr. destruct (sits_unlock rec on w s n t rd _ _ Hsit (lk_release rd s t Hs)) as (w1 & E1 & Hs1 & Hu & _).
  assert ((m ← get_rd r; pth_mutex_release m) w = Ok (0, w1)) as Er.
  { by rewrite (bind_run _ _ _ _ _ (get_rd_run w x Hx Hr)). }
  exists w1. rewrite (bind_run _ _ _ _ _ (lift_run _ (Sys w E F) _ _ Er)). rewrite Hu. done.
Qed.

Lemma leave_again (s : locks) v : s !! rd = Some None -> <[rd := None]> (<[rd := v]> s) = s.
Proof. intros Hs. by rewrite insert_insert_eq, insert_id. Qed.
Lemma leave_commute (s : locks) v (l : option (nat * Z)) : s !! rd = Some None ->
  <[rd := None]> (<[wr := l]> (<[rd := v]> s)) = <[wr := l]> s.
Proof. intros Hs. rewrite insert_insert_ne by congruence. by rewrite leave_again. Qed.

(** The end of a successful call of a reader. *)
Lemma rd_finish w n t s1 s a x :
  sits rec on w s1 n t -> rwlocks w !! r = Some x -> s1 !! rd = Some (Some (t, 1)) -> <[rd := None]> s1 = s ->
  rw_locks s a -> rw_ok (set_rw_mode PTH_RWLOCK_RD x) a ->
  exists w', (lift (upd_rw r (set_rw_mode PTH_RWLOCK_RD));; lift (m ← get_rd r; pth_mutex_release m);; mret 0) (Sys w E F)
     = Ok (0, Sys w' E F) /\ rw_rel w' n t s a.
Proof.
  intros Hsit Hx Hs <- Hl Ha.
  rewrite (bind_run _ _ _ _ _ (lift_run _ (Sys w E F) _ _ (upd_rw_run w r x _ Hx))). simpl env; simpl fds.
  destruct (rd_leave (put_rw (set_rw_mode PTH_RWLOCK_RD x) w) n t s1 _ 0 (sits_rwlocks _ _ _ _ _ _ _ Hsit) Hs (put_rw_lookup _ _) (ro_rd _ _ Ha)) as (w' & Er & Hs' & Hx').
  exists w'. split; [exact Er|]. split; [done|]. split; [done|]. eauto.
Qed.

(** ... and of one that failed. *)
Lemma rd_undo w n t s1 s a x fr (v : Z) :
  sits rec on w s1 n t -> rwlocks w !! r = Some x -> s1 !! rd = Some (Some (t, 1)) -> <[rd := None]> s1 = s ->
  rw_locks s a -> rw_ok (set_rw_readers (wrap 32 (fr (rw_readers x))) x) a ->
  exists w', (lift (upd_rw r (fun x => set_rw_readers (wrap 32 (fr (rw_readers x))) x));;
      lift (m ← get_rd r; pth_mutex_release m);; mret v) (Sys w E F) = Ok (v, Sys w' E F) /\ rw_rel w' n t s a.
Proof.
  intros Hsit Hx Hs <- Hl Ha.
  rewrite (bind_run _ _ _ _ _ (lift_run _ (Sys w E F) _ _ (upd_rw_run w r x _ Hx))). simpl env; simpl fds.
  destruct (rd_leave (put_rw (set_rw_readers (wrap 32 (fr (rw_readers x))) x) w) n t s1 _ v (sits_rwlocks _ _ _ _ _ _ _ Hsit) Hs (put_rw_lookup _ _) (ro_rd _ _ Ha)) as (w' & Er & Hs' & Hx').
  exists w'. split; [exact Er|]. split; [done|]. split; [done|]. eauto.
Qed.

Lemma wr_acquire_run w x try : rwlocks w !! r = Some x -> rw_mutex_rw x = Some wr ->
  (m ← lift (get_wr r); pth_mutex_acquire alive 0 m try false) (Sys w E F) = pth_mutex_acquire alive 0 wr try false (Sys w E F).
Proof. intros Hx Hr. by rewrite (bind_run _ _ _ _ _ (lift_run _ (Sys w E F) _ _ (get_wr_run w x Hx Hr))). Qed.
Lemma wr_release_run w x : rwlocks w !! r = Some x -> rw_mutex_rw x = Some wr ->
  lift (m ← get_wr r; pth_mutex_release m) (Sys w E F) = lift (pth_mutex_release wr) (Sys w E F).
Proof. intros Hx Hr. unfold lift, zoom. simpl. by rewrite (bind_run _ _ _ _ _ (get_wr_run w x Hx Hr)). Qed.

(** A call continues as another computation. *)
Lemma continue (c c' : res (Z * sys)) res (P : world -> locks -> Prop) : c = c' ->
  (exists w' s', c' = Ok (res, Sys w' E F) /\ P w' s') -> exists w' s', c = Ok (res, Sys w' E F) /\ P w' s'.
Proof. by intros ->. Qed.

Lemma rd_lock_step w n t s a try res a' :
  rw_rel w n t s a -> rw_step t (ORdLock try) a = Some (res, a') ->
  exists w' s', pth_rwlock_acquire alive 0 r PTH_RWLOCK_RD try false (Sys w E F) = Ok (res, Sys w' E F) /\
    rw_rel w' n t s' a'.
Proof.
  intros Hrel Hstep. pose proof Hrel as (_ & [Hlrd Hlwr] & x0 & Hx0 & Ha0). unfold pth_rwlock_acquire.
  rewrite (rwlock_enter _ _ _ _ _ Hx0 Ha0), bool_decide_eq_false_2 by done. clear x0 Hx0 Ha0.
  edestruct (rd_enter w n t s a try (fun z => z + 1)) as (w1 & x & E1 & Hs1 & Hx & Ha); [done|].
  eapply continue; [exact E1|].
  rewrite (bind_run _ _ _ _ _ (lift_run _ (Sys w1 E F) _ _ (get_rw_run w1 r _ Hx))). simpl env; simpl fds.
  set (s1 := <[rd := Some (t, 1)]> s) in *.
  assert (s1 !! rd = Some (Some (t, 1))) as Hr1 by apply lookup_insert_eq.
  assert (s1 !! wr = Some (holder a)) as Hw1 by (unfold s1; by rewrite lookup_insert_ne).
  destruct a as [md|u k|u]; simpl in Hstep, Hlwr, Hw1.
  - injection Hstep as <- <-. simpl readers.
    destruct (sits_lock alive E F rec on 0 w1 s1 n t try wr _ _ Hs1 (lk_free wr s1 t try Hw1)) as (w2 & E2 & Hs2 & Hu & _).
    rewrite (bool_decide_eq_true_2 (_ = 1)) by done.
    rewrite (bind_run _ _ _ _ _ (eq_trans (wr_acquire_run w1 _ try Hx (ro_wr _ _ Ha)) E2)).
    rewrite (bool_decide_eq_false_2 (0 <> 0)) by lia. rewrite <- Hu in Hx.
    edestruct (rd_finish w2 n t _ (<[wr := Some (t, 1)]> s) (RWRead t 1) _ Hs2 Hx) as (w3 & E3 & Hrel3);
      [by rewrite lookup_insert_ne|by apply leave_commute| | |by eauto].
    + split; [by rewrite lookup_insert_ne|]. by rewrite lookup_insert_eq.
    + destruct Ha. by split.
  - destruct (decide (k + 1 < 2 ^ 32)) as [Hk|]; [|done]. injection Hstep as <- <-.
    pose proof (ro_mode _ _ Ha) as [_ Hk1]. simpl readers in *. rewrite wrap_small in * by lia.
    rewrite (bool_decide_eq_false_2 (_ = 1)) by (simpl; lia).
    rewrite (bind_run (mret 0) _ _ _ _ eq_refl), (bool_decide_eq_false_2 (0 <> 0)) by lia.
    edestruct (rd_finish w1 n t _ s (RWRead u (k + 1)) _ Hs1 Hx) as (w3 & E3 & Hrel3);
      [done|by apply leave_again|done| |by eauto].
    destruct Ha. split; simpl; try done. by split; [done|lia].
  - destruct (lk_refuse s1 u t try _ res a' Hw1 Hstep) as (-> & Hr & Hlk).
    destruct (sits_lock alive E F rec on 0 w1 s1 n t try wr _ _ Hs1 Hlk) as (w2 & E2 & Hs2 & Hu & _).
    rewrite (bool_decide_eq_true_2 (_ = 1)) by done.
    rewrite (bind_run _ _ _ _ _ (eq_trans (wr_acquire_run w1 _ try Hx (ro_wr _ _ Ha)) E2)).
    rewrite (bool_decide_eq_true_2 (res <> 0)) by done. rewrite <- Hu in Hx.
    edestruct (rd_undo w2 n t _ s (RWWrite u) _ (fun z => z - 1) res Hs2 Hx) as (w3 & E3 & Hrel3);
      [done|by apply leave_again|done| |by eauto].
    destruct Ha. by split.
Qed.

Lemma rw_unlock_step w n t s a res a' :
  rw_rel w n t s a -> rw_step t ORwUnlock a = Some (res, a') ->
  exists w' s', pth_rwlock_release alive 0 r (Sys w E F) = Ok (res, Sys w' E F) /\ rw_rel w' n t s' a'.
Proof.
  intros Hrel Hstep. pose proof Hrel as (Hsit & [Hlrd Hlwr] & x0 & Hx0 & Ha0). unfold pth_rwlock_release.
  rewrite (rwlock_enter _ _ _ _ _ Hx0 Ha0). pose proof (ro_mode _ _ Ha0) as Hmode.
  destruct (decide (rw_mode x0 = PTH_RWLOCK_RW)) as [Hm|Hm].
  - (* written *) rewrite bool_decide_eq_true_2 by done.
    rewrite (wr_release_run w x0 Hx0 (ro_wr _ _ Ha0)).
    assert (exists s', lk_step rec t (OUnlock wr) s = Some (res, s') /\ rw_locks s' a' /\ rw_ok x0 a') as (s' & Hlk & Hl & Ha).
    { unfold lk_step. rewrite Hlwr. destruct a as [md|u k|u]; simpl in *.
      - subst md. rewrite decide_True in Hstep by done. injection Hstep as <- <-. by exists s.
      - destruct Hmode as [Hmd _]. by rewrite Hmd in Hm.
      - destruct (decide (u = t)) as [->|]; injection Hstep as <- <-; [|by exists s].
        eexists. split; [done|]. split; [|destruct Ha0; by split].
        split; [by rewrite lookup_insert_ne|]. by rewrite lookup_insert_eq. }
    destruct (sits_unlock rec on w s n t wr _ _ Hsit Hlk) as (w1 & E1 & Hs1 & Hu & _).
    exists w1, s'. split; [exact (lift_run _ (Sys w E F) _ _ E1)|]. split; [done|]. split; [done|].
    exists x0. by rewrite Hu.
  - (* read *) rewrite bool_decide_eq_false_2 by done.
    destruct a as [md|u k|u]; simpl in Hstep, Hmode; [by rewrite decide_False in Hstep by congruence| |done].
    destruct Hmode as [_ Hk]. clear x0 Hx0 Ha0 Hm.
    edestruct (rd_enter w n t s (RWRead u k) false (fun z => z - 1)) as (w1 & x & E1 & Hs1 & Hx & Ha); [done|].
    eapply continue; [exact E1|]. clear E1.
    rewrite (bind_run _ _ _ _ _ (lift_run _ (Sys w1 E F) _ _ (get_rw_run w1 r _ Hx))). simpl env; simpl fds.
    set (s1 := <[rd := Some (t, 1)]> s) in *.
    assert (s1 !! rd = Some (Some (t, 1))) as Hr1 by apply lookup_insert_eq.
    assert (s1 !! wr = Some (Some (u, 1))) as Hw1 by (unfold s1; by rewrite lookup_insert_ne).
    simpl readers in *. rewrite wrap_small in * by lia.
    destruct (decide (k = 1)) as [->|Hk1].
    + rewrite (bool_decide_eq_true_2 (_ = 0)) by done. destruct (decide (u = t)) as [->|Hut]; injection Hstep as <- <-.
      * destruct (sits_unlock rec on w1 s1 n t wr _ _ Hs1 (lk_release wr s1 t Hw1)) as (w2 & E2 & Hs2 & Hu & _).
        rewrite (bind_run _ _ _ _ _ (eq_trans (wr_release_run w1 _ Hx (ro_wr _ _ Ha)) (lift_run _ (Sys w1 E F) _ _ E2))).
        simpl env; simpl fds. rewrite (bool_decide_eq_false_2 (0 <> 0)) by lia. rewrite <- Hu in Hx.
        edestruct (rd_finish w2 n t _ (<[wr := None]> s) (RWFree PTH_RWLOCK_RD) _ Hs2 Hx) as (w3 & E3 & Hrel3);
          [by rewrite lookup_insert_ne|by apply leave_commute| | |by eauto].
        -- split; [by rewrite lookup_insert_ne|]. by rewrite lookup_insert_eq.
        -- destruct Ha. by split.
      * assert (lk_step rec t (OUnlock wr) s1 = Some (EPERM, s1)) as Hlk.
        { unfold lk_step. rewrite Hw1. simpl. by rewrite decide_False. }
        destruct (sits_unlock rec on w1 s1 n t wr _ _ Hs1 Hlk) as (w2 & E2 & Hs2 & Hu & _).
        rewrite (bind_run _ _ _ _ _ (eq_trans (wr_release_run w1 _ Hx (ro_wr _ _ Ha)) (lift_run _ (Sys w1 E F) _ _ E2))).
        simpl env; simpl fds. rewrite (bool_decide_eq_true_2 (EPERM <> 0)) by done. rewrite <- Hu in Hx.
        edestruct (rd_undo w2 n t _ s (RWRead u 1) _ (fun z => z + 1) EPERM Hs2 Hx) as (w3 & E3 & Hrel3);
          [done|by apply leave_again|done| |by eauto].
        destruct Ha. by split.
    + injection Hstep as <- <-. rewrite (bool_decide_eq_false_2 (_ = 0)) by (simpl; lia).
      rewrite (bind_run (mret 0) _ _ _ _ eq_refl), (bool_decide_eq_false_2 (0 <> 0)) by lia.
      edestruct (rd_finish w1 n t _ s (RWRead u (k - 1)) _ Hs1 Hx) as (w3 & E3 & Hrel3);
        [done|by apply leave_again|done| |by eauto].
      destruct Ha. split; simpl; try done. by split; [done|lia].
Qed.

Lemma rw_rel_self w n t s a n' t' : rw_rel w n t s a -> on n' = Some t' -> rw_rel (set_self (Some n') w) n' t' s a.
Proof. intros (Hs & Hl & Hx) Hon. split; [by eapply sits_self|done]. Qed.
End rwlock.

Fixpoint rw_run (alive : Z -> bool) (r : nat) (ops : list (nat * rw_op)) : M sys (list Z) :=
  match ops with
  | [] => mret []
  | (n, op) :: ops => v ← rw_exec alive r n op; vs ← rw_run alive r ops; mret (v :: vs)
  end.

Fixpoint rwa_run (on : nat -> option nat) (ops : list (nat * rw_op)) (a : rw_abs) : option (list Z * rw_abs) :=
  match ops with
  | [] => Some ([], a)
  | (n, op) :: ops =>
      t ← on n;
      '(v, a) ← rw_step t op a;
      '(vs, a) ← rwa_run on ops a;
      Some (v :: vs, a)
  end.

(** C3: Any sequence of calls of pth_rwlock_acquire and pth_rwlock_release by the
    threads of any natives returns what the abstract read-write lock returns:
    readers share the lock, a writer excludes all others, and a release by a
    thread that does not write is refused.  The abstract lock also says
    whom the last release of a group of readers is granted to: only to the
    thread that was the first of them.  (A call that blocks ends the
    sequence, as does a release of a free lock in read mode.) *)
Theorem rwlock_refines alive E F rec on r rd wr ops w n t s a vs a' :
  rd <> wr -> rec rd = false -> rec wr = false ->
  rw_rel rec on r rd wr w n t s a -> rwa_run on ops a = Some (vs, a') ->
  exists w' n' t' s', rw_run alive r ops (Sys w E F) = Ok (vs, Sys w' E F) /\ rw_rel rec on r rd wr w' n' t' s' a'.
Proof.
  intros Hne Hrd Hwr. revert w n t s a vs. induction ops as [|[n' op] ops IH]; intros w n t s a vs Hrel Hs; simpl in Hs.
  - injection Hs as <- <-. by exists w, n, t, s.
  - destruct (on n') as [t'|] eqn:Hon; [|done]. simpl in Hs.
    destruct (rw_step t' op a) as [[v a1]|] eqn:Es; [|done]. simpl in Hs.
    destruct (rwa_run on ops a1) as [[vs1 a2]|] eqn:Er; [|done]. simpl in Hs. injection Hs as <- <-.
    apply (rw_rel_self rec on r rd wr w n t s a n' t') in Hrel; [|done].
    assert (exists w1 s1, rw_exec alive r n' op (Sys w E F) = Ok (v, Sys w1 E F) /\
      rw_rel rec on r rd wr w1 n' t' s1 a1) as (w1 & s1 & Ex & Hrel1).
    { unfold rw_exec.
      rewrite (bind_run (lift (modify (set_self (Some n')))) _ (Sys w E F) tt (Sys (set_self (Some n') w) E F) eq_refl).
      destruct op; [by eapply wr_lock_step|by eapply rd_lock_step|by eapply rw_unlock_step]. }
    destruct (IH w1 n' t' s1 a1 vs1 Hrel1 Er) as (w2 & n2 & t2 & s2 & Ex2 & Hrel2).
    exists w2, n2, t2, s2. split; [|done]. simpl. rewrite (bind_run _ _ _ _ _ Ex). by rewrite (bind_run _ _ _ _ _ Ex2).
Qed.

(** The relation of the locks depends on the following members only. *)
Lemma lk_rel_ext rec on w w' H s : lk_rel rec on w H s ->
  threads w' = threads w -> natives w' = natives w -> mutexes w' = mutexes w -> mnodes w' = mnodes w ->
  (forall m, waits w' !! WMutex m = waits w !! WMutex m) -> lk_rel rec on w' H s.
Proof.
  intros [[[H1 H2 H3 H4 H5] Hid Hnat] Hs Hr Ho] Et En Em Emn Ew.
  split; [split; [split|..]|..]; unfold idle, locks_of, is_recursive, runs_on in *; rewrite ?Et, ?En, ?Em, ?Emn; try done.
  intros m x Hm. unfold prv. rewrite Ew. by apply Hid.
Qed.

(** Two threads and a read-write lock as [pth_rwlock_init] leaves it. *)
Definition rw_world : world :=
  let raw := RWLock 77 PTH_RWLOCK_RD None None 0 false in
  match pth_rwlock_init 5 false (set_mx_mallocs [Some (10, 11)%nat] (set_rwlocks {[ 5%nat := raw ]} (raw_world [1%nat; 2%nat] [10%nat; 11%nat]))) with
  | Ok (_, w) => w
  | Err _ => raw_world [] []
  end.
Definition rw_plain (m : nat) : bool := is_recursive (two_threads PTH_MUTEX_NORMAL) m.
Definition rw_on (n : nat) : option nat := runs_on (two_threads PTH_MUTEX_NORMAL) n.

Lemma rw_world_rel : rw_rel rw_plain rw_on 5 10 11 rw_world 0 1 {[ 10%nat := None; 11%nat := None ]} (RWFree PTH_RWLOCK_RD).
Proof.
  split.
  - exists two_holdings, (a_native 100 1). split; [|by vm_compute].
    eapply lk_rel_ext; [apply (two_threads_rel PTH_MUTEX_NORMAL)|by vm_compute..].
  - split; [by vm_compute|]. eexists. split; [vm_compute; reflexivity|]. by split.
Qed.

(** Thread 2 reads after thread 1; the last one to leave is refused. *)
Definition rw_script : list (nat * rw_op) :=
  [(0%nat, ORdLock false); (1%nat, ORdLock true); (1%nat, OWrLock true); (0%nat, ORwUnlock); (1%nat, ORwUnlock);
   (0%nat, ORwUnlock); (1%nat, OWrLock false); (0%nat, ORdLock true); (0%nat, ORwUnlock); (1%nat, ORwUnlock)].

Lemma rwlock_refines_witness :
  exists w' n' t' s', rw_run (fun _ => true) 5 rw_script (Sys rw_world [] []) =
      Ok ([0; 0; EBUSY; 0; EPERM; 0; 0; EBUSY; EPERM; 0], Sys w' [] []) /\
    rw_rel rw_plain rw_on 5 10 11 w' n' t' s' (RWFree PTH_RWLOCK_RW).
Proof.
  apply (rwlock_refines (fun _ => true) [] [] rw_plain rw_on 5 10 11 rw_script rw_world 0 1 {[ 10%nat := None; 11%nat := None ]} (RWFree PTH_RWLOCK_RD));
    [done|reflexivity|reflexivity|exact rw_world_rel|vm_compute; reflexivity].
Defined.

(** ** Barriers *)

(** pth_barrier_reach takes the success of pth_mutex_acquire for a failure:
    called when the mutex of the barrier is free, by any thread and for any
    threshold, it returns FALSE at once, the thread is not counted, and the
    mutex stays locked. *)
Theorem barrier_reach_fails alive cancel_point E F rec on fuel w s n t b x :
  sits rec on w s n t -> barriers w !! b = Some x -> flag (br_state x) PTH_BARRIER_INITIALIZED = true ->
  s !! br_mutex x = Some None ->
  exists w', pth_barrier_reach alive cancel_point fuel (Some b) (Sys w E F) = Ok (0, Sys w' E F) /\
    barriers w' = barriers w /\ sits rec on w' (<[br_mutex x := Some (t, 1)]> s) n t.
Proof.
  intros Hsit Hb Hinit Hfree. unfold pth_barrier_reach.
  assert (get_br b w = Ok (x, w)) as Eb by (unfold get_br, get, mbind, M_bind; by rewrite Hb).
  rewrite (bind_run _ _ _ _ _ (lift_run _ (Sys w E F) _ _ Eb)), Hinit. simpl env; simpl fds. cbn [negb].
  destruct (sits_lock alive E F rec on fuel w s n t false _ _ _ Hsit (lk_free rec _ s t false Hfree)) as (w1 & E1 & Hs1 & _ & Hu & _).
  rewrite (bind_run _ _ _ _ _ E1), bool_decide_eq_true_2 by done. exists w1. done.
Qed.

(** A barrier for two threads as [pth_barrier_init] leaves it. *)
Definition br_world : world :=
  let raw := Barrier 0 0 0 false 30 10 in
  let cond := Cond 0 0 0 qlock_free (RFutex (Futex 0) false 0) 0 in
  match pth_barrier_init (Some 6%nat) 2 (set_conds {[ 30%nat := cond ]} (set_barriers {[ 6%nat := raw ]} (two_threads PTH_MUTEX_NORMAL))) with
  | Ok (_, w) => w
  | Err _ => raw_world [] []
  end.

Lemma br_world_sits : sits rw_plain rw_on br_world {[ 10%nat := None; 11%nat := None ]} 0 1.
Proof.
  exists two_holdings, (a_native 100 1). split; [|by vm_compute].
  eapply lk_rel_ext; [apply (two_threads_rel PTH_MUTEX_NORMAL)|by vm_compute..|].
  intros m. assert (waits br_world = <[WCond 30 := Link (Some (WCond 30)) (Some (WCond 30))]> (waits (two_threads PTH_MUTEX_NORMAL)))
    as -> by by vm_compute.
  by rewrite lookup_insert_ne.
Qed.

Lemma barrier_reach_fails_witness :
  exists w', pth_barrier_reach (fun _ => true) (mret tt) 0 (Some 6%nat) (Sys br_world [] []) = Ok (0, Sys w' [] []) /\
    barriers w' = barriers br_world /\
    sits rw_plain rw_on w' (<[10%nat := Some (1%nat, 1)]> {[ 10%nat := None; 11%nat := None ]}) 0 1.
Proof.
  apply (barrier_reach_fails (fun _ => true) (mret tt) [] [] rw_plain rw_on 0 br_world {[ 10%nat := None; 11%nat := None ]}
    0 1 6 (Barrier PTH_BARRIER_INITIALIZED 2 2 false 30 10));
    [exact br_world_sits|vm_compute; reflexivity|reflexivity|reflexivity].
Defined.

(** ** Releasing all mutexes of a thread *)

(** Nobody has locked the thread structure of [u]. *)
Definition thread_unlocked (w : world) (u : nat) : Prop :=
  forall y, threads w !! u = Some y -> tlock y = qlock_free.

(** The release of a mutex of another thread changes nothing. *)
Lemma release_foreign w n t d u m x : running w n t d -> mutexes w !! m = Some x -> local x ->
  mx_owner x = Some u -> u <> t -> pth_mutex_release m w = Ok (EPERM, w).
Proof. intros Hrun Hm Hl Ho Hne. eapply release_refused; [done..|]. congruence. Qed.

Lemma releaseall_loop_stuck w n t d u v m x rnf fuel : running w n t d -> mutexes w !! m = Some x -> local x ->
  mx_owner x = Some u -> u <> t -> 1 <= mx_count x -> releaseall_loop fuel v (Some m) rnf w = Err Stuck.
Proof.
  intros Hrun Hm Hl Ho Hne Hc. induction fuel as [|fuel IH]; [done|]. cbn [releaseall_loop].
  rewrite (bind_run _ _ _ _ _ (release_foreign w n t d u m x Hrun Hm Hl Ho Hne)).
  rewrite (bind_run _ _ _ _ _ (get_m_run w m x Hm)). by rewrite bool_decide_eq_true_2 by lia.
Qed.

(** pth_mutex_releaseall on another thread than the one that runs never ends
    when the thread holds a mutex in its ring: the release is refused, because
    the running thread is not the owner, and is tried again for ever. *)
Theorem releaseall_foreign_stuck w H n t d u o m l fuel :
  sinv None w H -> running w n t d -> H !! u = Some (o, m :: l) -> u <> t ->
  (forall k x, mutexes w !! k = Some x -> local x) ->
  thread_unlocked w u -> tid d <> 0 ->
  pth_mutex_releaseall fuel (Some u) w = Err Stuck.
Proof.
  intros Hi Hrun HH Hne Hloc Hlock Htid. pose proof Hrun as (Hs & Hn & Hc).
  destruct (si_thread _ _ _ Hi _ _ _ HH) as (y & Hy & Ho & (_ & _ & Hhook & _)).
  assert (forall k, k ∈ held H u -> exists x, mutexes w !! k = Some x /\ local x /\ mx_owner x = Some u /\ 1 <= mx_count x) as Hheld.
  { intros k (x & Hx & Hlk & Hox)%(si_held _ _ _ Hi). exists x. split_and!; [done|by eapply Hloc|done|].
    destruct (si_mutex _ _ _ Hi _ _ Hx) as [[_ Hok] _]. rewrite Hlk in Hok. destruct Hok as (? & _ & ? & _). lia. }
  set (y1 := set_tlock (QLock 1 (tid d) 1) y). set (w1 := put_t u y1 w).
  assert (lock_thread u (tid d) w = Ok (tt, w1)) as El.
  { unfold lock_thread. rewrite (bind_run _ _ _ _ _ (get_t_run w u y Hy)), (Hlock y Hy).
    unfold _pth_acquire_lock. simpl owner. rewrite bool_decide_eq_false_2 by done.
    by rewrite (bind_run (of_res (Ok (QLock 1 (tid d) 1))) _ w _ w eq_refl), (upd_t_run w u y _ Hy). }
  assert (threads w1 !! u = Some y1) as Hy1 by apply lookup_insert_eq.
  assert (running w1 n t d) as Hrun1 by done.
  unfold pth_mutex_releaseall. rewrite (bind_run _ _ _ _ _ (my_descr_run w n d Hs Hn)). cbv beta iota.
  rewrite (bind_run _ _ _ _ _ El), (bind_run _ _ _ _ _ (get_t_run w1 u y1 Hy1)).
  assert ((match mutex_owned y1 with Some m => pth_mutex_release m;; mret tt | None => mret tt end) w1 = Ok (tt, w1)) as Er.
  { change (mutex_owned y1) with (mutex_owned y). rewrite Ho. destruct o as [k|]; [|done].
    destruct (Hheld k) as (x & Hx & Hl & Hox & _); [unfold held; rewrite HH; set_solver|].
    by rewrite (bind_run _ _ _ _ _ (release_foreign w1 n t d u k x Hrun1 Hx Hl Hox Hne)). }
  rewrite (bind_run _ _ _ _ _ Er), (bind_run _ _ _ _ _ (get_t_run w1 u y1 Hy1)).
  change (pth_ring_first (mutexring y1)) with (r_hook (mutexring y)). rewrite Hhook.
  destruct (Hheld m) as (x & Hx & Hl & Hox & Hcnt); [unfold held; rewrite HH; set_solver|].
  unfold mbind, M_bind at 1. by rewrite (releaseall_loop_stuck w1 n t d u u m x (Some m) fuel Hrun1 Hx Hl Hox Hne Hcnt).
Qed.

(** Thread 2 has locked the mutexes 10 and 11, thread 1 runs. *)
Definition foreign_world (w : world) : world :=
  match (lift (modify (set_self (Some 1%nat)));;
         pth_mutex_acquire (fun _ => true) 0 10 false false;; pth_mutex_acquire (fun _ => true) 0 11 false false;;
         lift (modify (set_self (Some 0%nat)))) (Sys w [] []) with
  | Ok (_, s) => wld s
  | Err _ => raw_world [] []
  end.

Lemma sinv_self b w H n : sinv b w H -> sinv b (set_self n w) H.
Proof. intros []. by split. Qed.

(** The state of that process. *)
Lemma foreign_world_state w x10 x11 y :
  sinv None w two_holdings -> (forall m x, mutexes w !! m = Some x -> local x /\ is_locked x = false /\ mx_waitcount x = 0) ->
  mutexes w !! 10%nat = Some x10 -> mutexes w !! 11%nat = Some x11 -> natives w !! 1%nat = Some (a_native 101 2) ->
  threads w !! 2%nat = Some y ->
  exists w2, foreign_world w = set_self (Some 0%nat) w2 /\ sinv None w2 (take_held 2 11 (take_held 2 10 two_holdings)) /\
  (forall k x, mutexes w2 !! k = Some x -> local x) /\ natives w2 = natives w /\
  (forall y', threads w2 !! 2%nat = Some y' -> tlock y' = tlock y).
Proof.
  intros Hi Hmx E10 E11 Hn Hy.
  set (w0 := set_self (Some 1%nat) w). apply (sinv_self _ _ _ (Some 1%nat)) in Hi. fold w0 in Hi.
  assert (running w0 1 2 (a_native 101 2)) as Hrun by done.
  destruct (Hmx _ _ E10) as (Hl10 & L10 & Hw10). destruct (Hmx _ _ E11) as (Hl11 & L11 & Hw11).
  destruct (acquire_free (fun _ => true) 0 10 false [] [] w0 two_holdings 1 2 _ x10 Hi Hrun E10 Hl10 ltac:(by eexists) false L10 Hw10)
    as (w1 & Er1 & Hi1 & Em1 & Hf1).
  assert (running w1 1 2 (a_native 101 2)) as Hrun1 by (unfold running; by rewrite (fr_self _ _ Hf1), (fr_natives _ _ Hf1)).
  assert (mutexes w1 !! 11%nat = Some x11) as E11' by (rewrite Em1; by rewrite lookup_insert_ne).
  destruct (acquire_free (fun _ => true) 0 11 false [] [] w1 _ 1 2 _ x11 Hi1 Hrun1 E11' Hl11 ltac:(by eexists) false L11 Hw11)
    as (w2 & Er2 & Hi2 & Em2 & Hf2).
  exists w2. split_and!; [|done| | |].
  - unfold foreign_world. rewrite (bind_run (lift (modify (set_self (Some 1%nat)))) _ (Sys w [] []) tt (Sys w0 [] []) eq_refl).
    rewrite (bind_run _ _ _ _ _ Er1), (bind_run _ _ _ _ _ Er2). done.
  - intros k x. rewrite Em2, Em1. intros [[<- <-]|[_ [[<- <-]|[_ Hk]]%lookup_insert_Some]]%lookup_insert_Some;
      [by apply local_taken..|]. by apply (Hmx _ _ Hk).
  - by rewrite (fr_natives _ _ Hf2), (fr_natives _ _ Hf1).
  - intros y' Hy'. pose proof (fr_threads _ _ Hf2) as Ht. rewrite (fr_threads _ _ Hf1) in Ht.
    apply (f_equal (lookup 2%nat)) in Ht. rewrite !lookup_fmap, Hy' in Ht.
    change (threads w0) with (threads w) in Ht. rewrite Hy in Ht. simpl in Ht. by injection Ht.
Qed.

Lemma releaseall_foreign_stuck_witness :
  pth_mutex_releaseall 1000 (Some 2%nat) (foreign_world (two_threads PTH_MUTEX_NORMAL)) = Err Stuck.
Proof.
  pose proof (qu_inv _ _ (lr_quiet _ _ _ _ _ (two_threads_rel PTH_MUTEX_NORMAL))) as Hi0.
  edestruct (foreign_world_state (two_threads PTH_MUTEX_NORMAL)) as (w & -> & Hi & Hl & Hn & Ht);
    [exact Hi0| |vm_compute; reflexivity|vm_compute; reflexivity|vm_compute; reflexivity|vm_compute; reflexivity|].
  { intros m x (_ & ? & _ & _ & _ & (? & ? & _) & _)%two_threads_mutexes. done. }
  clear Hi0. assert (natives w !! 0%nat = Some (a_native 100 1)) as Hn0 by (rewrite Hn; vm_compute; reflexivity). clear Hn.
  apply (releaseall_foreign_stuck _ _ 0 1 (a_native 100 1) 2 (Some 10%nat) 11 [] 1000 (sinv_self _ _ _ _ Hi));
    [done|vm_compute; reflexivity|done|done|exact Ht|done].
Defined.
