(* ===== verification/Wake.v ===== *)
(** * Waking a thread: from the wait queue to the ready queue

    The fragment that pth_mutex_release, pth_cond_notify and the scheduler
    share, and the release of a mutex that threads wait for. *)

From S2P Require Import Prelude Bitmap Dll LinkedList Ring Priorities PQueue Futex World Sync MutexProofs.

(** ** The locks of the queues *)

Definition lock_word (m : qmem) (q : qid) : option Z := lock <$> queues m !! q.

(** Only the lock of queue [q] differs, and it has the value [v]. *)
Definition relocked (q : qid) (v : Z) (m m' : qmem) : Prop :=
  nodes m' = nodes m /\ lock_word m' q = Some v /\ forall q', q' <> q -> lock_word m' q' = lock_word m q'.

Lemma relocked_set m q x v : queues m !! q = Some x -> relocked q v m (set_lock q v x m).
Proof.
  intros Hx. unfold relocked, lock_word, set_lock. simpl. split; [done|]. split; [by rewrite lookup_insert_eq|].
  intros q' Hne. by rewrite lookup_insert_ne.
Qed.

Lemma spin_lock_spec m Q q : pq_inv m Q -> lock_word m q = Some 0 ->
  exists m', spin_lock q m = Ok (tt, m') /\ pq_inv m' Q /\ relocked q 1 m m'.
Proof.
  intros Hinv Hl. unfold lock_word in Hl. destruct (queues m !! q) as [x|] eqn:Hx; [|done]. injection Hl as Hl.
  exists (set_lock q 1 x m). split_and!; [|by apply pq_inv_set_lock|by apply relocked_set].
  unfold spin_lock. rewrite (bind_run _ _ _ _ _ (get_queue_run q x m Hx)), bool_decide_eq_true_2 by done. done.
Qed.

Lemma spin_unlock_spec m Q q v : pq_inv m Q -> lock_word m q = Some v ->
  exists m', spin_unlock q m = Ok (tt, m') /\ pq_inv m' Q /\ relocked q 0 m m'.
Proof.
  intros Hinv Hl. unfold lock_word in Hl. destruct (queues m !! q) as [x|] eqn:Hx; [|done].
  exists (set_lock q 0 x m). split_and!; [|by apply pq_inv_set_lock|by apply relocked_set].
  unfold spin_unlock. by rewrite (bind_run _ _ _ _ _ (get_queue_run q x m Hx)).
Qed.

Lemma on_queues_run {A} (f : M qmem A) w a m : f (qm w) = Ok (a, m) -> on_queues f w = Ok (a, set_qm m w).
Proof. intros E. unfold on_queues, zoom. by rewrite E. Qed.

(** A thread that is in no queue gets another effective priority. *)
Lemma priority_set_free_inv m Q t n v : pq_inv m Q -> nodes m !! t = Some n -> free_node n ->
  exists m', __pqueue_node_priority_set t v m = Ok (tt, m') /\ pq_inv m' Q /\
    nodes m' = <[t := Node None v node_lt_nowhere]> (nodes m) /\ same_locks m m'.
Proof.
  intros Hinv Hn [Hb Hlt]. destruct (__pqueue_node_priority_set_free m t n v Hn Hb) as (m' & E & El & Eq & En).
  exists m'. rewrite Hlt in En. split_and!; [done| |done|by intros q; rewrite Eq].
  assert (forall q p, ~ member Q q p t) as Hnm by (intros; by eapply free_not_member).
  destruct Hinv as [H1 H2 H3 H4]. split; rewrite ?El, ?Eq, ?En; [done|done| |].
  - intros q p u Hm. rewrite lookup_insert_ne; [by apply H3|]. intros <-. by eapply Hnm.
  - intros u n'. destruct (decide (t = u)) as [<-|].
    + rewrite lookup_insert_eq. intros En'. injection En' as <-. split; [by eapply H4|]. by left.
    + rewrite lookup_insert_ne by done. apply H4.
Qed.

(** ** The move *)

(** [handled] may change the condition variables only. *)
Definition on_conds (handled : M world unit) (w : world) (c : gmap nat pth_cond_st) : Prop :=
  forall v, conds v = conds w -> handled v = Ok (tt, set_conds c v).

Lemma on_conds_ret w : on_conds (mret tt) w (conds w).
Proof. intros v E. rewrite <- E. by destruct v. Qed.

Definition woken (y : pth_st) : pth_st := set_state PTH_STATE_READY (set_waited_native None y).

Lemma wait_to_ready_spec w Q ds t rq handled c y Ls p l1 l2 Rs k l :
  pq_inv (qm w) Q -> Q !! WaitQ ds = Some Ls -> Ls !! p = Some (l1 ++ t :: l2) ->
  Q !! rq = Some Rs -> rq <> WaitQ ds -> Rs !! k = Some l ->
  threads w !! t = Some y -> waited_native y <> None -> prio y = Z.of_nat k ->
  lock_word (qm w) (WaitQ ds) = Some 0 -> lock_word (qm w) rq = Some 0 -> on_conds handled w c ->
  exists m', wait_to_ready ds t rq handled w =
      Ok (true, set_qm m' (set_threads (<[t := woken y]> (threads w)) (set_conds c w))) /\
    pq_inv m' (<[rq := <[k := l ++ [t]]> Rs]> (<[WaitQ ds := <[p := l1 ++ l2]> Ls]> Q)) /\
    (forall q, lock_word m' q = lock_word (qm w) q).
Proof.
  intros Hinv HW Hp HR Hne Hk Hy Hwn Hprio HlW HlR Hh. unfold wait_to_ready.
  destruct (spin_lock_spec _ _ _ Hinv HlW) as (m1 & E1 & Hi1 & Hn1 & HW1 & Ho1).
  rewrite (bind_run _ _ _ _ _ (on_queues_run _ w _ _ E1)). set (w1 := set_qm m1 w).
  rewrite (bind_run _ _ _ _ _ (get_t_run w1 t y Hy)), bool_decide_eq_true_2 by done.
  rewrite (bind_run _ _ _ _ _ (Hh w1 eq_refl)). set (w2 := set_conds c w1).
  destruct (__pqueue_delete_node_spec m1 Q _ _ _ _ _ _ Hi1 HW Hp) as (m3 & E3 & Hi3 & Hn3 & Hs3).
  rewrite (bind_run _ _ _ _ _ (on_queues_run _ w2 _ _ E3)). set (w3 := set_qm m3 w2).
  rewrite (bind_run _ _ _ _ _ (upd_t_run w3 t y _ Hy)). set (w4 := set_threads _ w3).
  assert (lock_word m3 (WaitQ ds) = Some 1) as HW3 by (unfold lock_word; by rewrite Hs3).
  destruct (spin_unlock_spec m3 _ _ _ Hi3 HW3) as (m5 & E5 & Hi5 & Hn5 & HW5 & Ho5).
  rewrite (bind_run _ _ _ _ _ (on_queues_run _ w4 _ _ E5)). set (w5 := set_qm m5 w4).
  assert (lock_word m5 rq = Some 0) as HR5.
  { rewrite Ho5 by done. unfold lock_word. rewrite Hs3. change (lock_word m1 rq = Some 0). by rewrite Ho1. }
  destruct (spin_lock_spec m5 _ _ Hi5 HR5) as (m6 & E6 & Hi6 & Hn6 & HR6 & Ho6).
  rewrite (bind_run _ _ _ _ _ (on_queues_run _ w5 _ _ E6)). set (w6 := set_qm m6 w5).
  assert (threads w6 !! t = Some (set_waited_native None y)) as Hy6 by apply lookup_insert_eq.
  rewrite (bind_run _ _ _ _ _ (upd_t_run w6 t _ _ Hy6)). set (w7 := set_threads _ w6).
  assert (threads w7 !! t = Some (woken y)) as Hy7 by apply lookup_insert_eq.
  assert (nodes m6 !! t = Some (Node None (Z.of_nat p) node_lt_nowhere)) as Hnd.
  { rewrite Hn6, Hn5, Hn3. apply lookup_insert_eq. }
  destruct (priority_set_free_inv m6 _ t _ (prio y) Hi6 Hnd ltac:(done)) as (m8 & E8 & Hi8 & Hn8 & Hs8).
  assert (__thread_eprio_recalculate t w7 = Ok (0, set_qm m8 w7)) as Er.
  { unfold __thread_eprio_recalculate, __thread_prio_get, __thread_eprio_set.
    rewrite (bind_run _ _ _ _ _ (get_t_run w7 t _ Hy7)).
    assert ((p ← (x ← get_t t; mret (prio x)); on_queues (__pqueue_node_priority_set t p)) w7 = Ok (tt, set_qm m8 w7)) as E.
    { erewrite bind_run; [|by rewrite (bind_run _ _ _ _ _ (get_t_run w7 t _ Hy7))].
      exact (on_queues_run _ w7 _ _ E8). }
    case_bool_decide; by rewrite (bind_run _ _ _ _ _ E). }
  rewrite (bind_run _ _ _ _ _ Er). set (w8 := set_qm m8 w7).
  destruct (pqueue_enter_spec _ _ m8 _ rq Rs t (Node None (prio y) node_lt_nowhere) k l
    __pqueue_insert_tail_links place_tail_perm Hi8) as (m9 & E9 & Hi9 & Hn9 & Hs9);
    [by rewrite lookup_insert_ne|rewrite Hn8; apply lookup_insert_eq|done|done|done|].
  rewrite (bind_run _ _ _ _ _ (on_queues_run _ w8 _ _ E9)). set (w9 := set_qm m9 w8).
  assert (lock_word m9 rq = Some 1) as HR9 by (unfold lock_word; by rewrite Hs9, Hs8).
  destruct (spin_unlock_spec m9 _ _ _ Hi9 HR9) as (m10 & E10 & Hi10 & Hn10 & HR10 & Ho10).
  rewrite (bind_run _ _ _ _ _ (on_queues_run _ w9 _ _ E10)).
  exists m10. split_and!; [|exact Hi10|].
  - unfold w9, w8, w7, w6, w5, w4, w3, w2, w1, mret, M_ret. simpl. by rewrite insert_insert_eq.
  - intros q. destruct (decide (q = rq)) as [->|Hq]; [by rewrite HR10, HlR|].
    rewrite Ho10 by done. unfold lock_word. rewrite Hs9, Hs8. change (lock_word m6 q = lock_word (qm w) q).
    rewrite Ho6 by done. destruct (decide (q = WaitQ ds)) as [->|Hq']; [by rewrite HW5, HlW|].
    rewrite Ho5 by done. unfold lock_word. rewrite Hs3. change (lock_word m1 q = lock_word (qm w) q). by rewrite Ho1.
Qed.

(** ** Releasing a mutex that threads wait for *)

(** The writes of the wake-up do not touch the mutexes and what threads hold. *)
Lemma sinv_woken b w H t y m c : sinv b w H -> threads w !! t = Some y ->
  sinv b (set_qm m (set_threads (<[t := woken y]> (threads w)) (set_conds c w))) H.
Proof.
  intros [H1 H2 H3 H4 H5] Hy. split; [|done..].
  intros u o l Hu. destruct (H1 _ _ _ Hu) as (x & Hx & Ho & Hr). simpl.
  destruct (decide (t = u)) as [<-|]; [|rewrite lookup_insert_ne by done; eauto].
  rewrite lookup_insert_eq. rewrite Hy in Hx. injection Hx as <-. exists (woken y). split; [done|]. split; [exact Ho|exact Hr].
Qed.

(** A thread as the frame of the mutex code knows it. *)
Lemma frame_thread w w' t y : frame w w' -> threads w !! t = Some y ->
  exists y', threads w' !! t = Some y' /\ sched_view y' = sched_view y.
Proof.
  intros Hf Hy. pose proof (f_equal (lookup t) (fr_threads _ _ Hf)) as E. rewrite !lookup_fmap, Hy in E.
  destruct (threads w' !! t) as [y'|]; [|done]. apply (inj Some) in E. by exists y'.
Qed.

Section wakes.
Context (w : world) (H : holdings) (n t : nat) (d : pth_descr_st) (m : nat) (x : pth_mutex_st).
Context (Hi : sinv None w H) (Hrun : running w n t d) (Hm : mutexes w !! m = Some x) (Hloc : local x).
Context (HH : is_Some (H !! t)) (Ho : mx_owner x = Some t) (Hl : is_locked x = true) (Hc : mx_count x = 1).
Context (Hnn : pth_number_of_natives w > 1).
(** Thread [u] has waited longest; it is in the wait queue of native [ds]. *)
Context (ws : list waddr) (u ds : nat) (y : pth_st).
Context (Hring : ring (waits w) (WMutex m) (ws ++ [WThread u])).
Context (Hu : threads w !! u = Some y) (Hb : boundnative y = None) (Hw : waited_native y = Some ds).
Context (Q : gmap qid contents) (Ls Rs : contents) (p k : nat) (l1 l2 l : list nat).
Context (Hinv : pq_inv (qm w) Q) (HW : Q !! WaitQ ds = Some Ls) (Hp : Ls !! p = Some (l1 ++ u :: l2)).
Context (HR : Q !! RQ = Some Rs) (Hk : Rs !! k = Some l) (Hprio : prio y = Z.of_nat k).
Context (HlW : lock_word (qm w) (WaitQ ds) = Some 0) (HlR : lock_word (qm w) RQ = Some 0).
(** The running thread is not bound to its native. *)
Context (z : pth_st) (Hz : threads w !! t = Some z) (Hzb : boundnative z = None).

(** C4: Where there are several natives, the release of a process-local mutex
    that its owner has acquired once, and for which threads wait, makes the
    mutex free and moves the thread that has waited longest, which is bound to
    no native and stands in the wait queue of a native, from there to the end
    of the list of its priority in the ready queue; it is then ready, no other
    thread is moved, and every queue lock is as before.  The releasing thread
    is not bound either.  (With one native, or with a bound thread on either
    side, the release moves nobody to this queue: [mutex_wake].) *)
Theorem release_wakes_longest :
  exists w' m' y', pth_mutex_release m w = Ok (0, w') /\ sinv None w' (drop_held t m H) /\
    mutexes w' = <[m := dropped x]> (mutexes w) /\ waits w' = waits w /\
    threads w' !! u = Some y' /\ state y' = PTH_STATE_READY /\ waited_native y' = None /\ qm w' = m' /\
    pq_inv m' (<[RQ := <[k := l ++ [u]]> Rs]> (<[WaitQ ds := <[p := l1 ++ l2]> Ls]> Q)) /\
    forall q, lock_word m' q = lock_word (qm w) q.
Proof.
  destruct (release_drop m w H n t d x Hi Hrun Hm Hloc HH Ho Hl Hc) as (w1 & E1 & Hi1 & Em1 & Hf1).
  rewrite E1, bool_decide_eq_true_2 by done. clear E1. unfold mutex_wake.
  assert (prv (waits w) (WMutex m) = Some (WThread u)) as Hprv.
  { rewrite (ring_prev _ _ _ Hring). by rewrite List.last_last. }
  erewrite (bind_run (read_waits _)); [|unfold read_waits; rewrite (fr_waits _ _ Hf1), (get_prev_spec _ _ _ Hprv); reflexivity].
  rewrite bool_decide_eq_false_2 by done. rewrite (bind_run (waiting_thread (Some (WThread u))) _ w1 u w1 eq_refl).
  destruct (frame_thread _ _ _ _ Hf1 Hu) as (y1 & Hu1 & Hv1).
  rewrite (bind_run _ _ _ _ _ (get_t_run w1 u y1 Hu1)).
  assert (boundnative y1 = None /\ waited_native y1 = Some ds /\ prio y1 = Z.of_nat k) as (Hb1 & Hw1 & Hp1).
  { apply (f_equal boundnative) in Hv1 as ?. apply (f_equal waited_native) in Hv1 as ?. apply (f_equal prio) in Hv1 as ?.
    simpl in *. split_and!; congruence. }
  rewrite Hb1, Hw1. rewrite <- (fr_qm _ _ Hf1) in Hinv, HlW, HlR.
  destruct (wait_to_ready_spec w1 Q ds u RQ (mret tt) (conds w1) y1 Ls p l1 l2 Rs k l) as (m2 & E2 & Hinv2 & Hlk2);
    [done|done|done|done|done|done|done|congruence|done|done|done|apply on_conds_ret|].
  erewrite bind_run; [|erewrite bind_run; [|exact E2]; reflexivity]. set (w2 := set_qm m2 _).
  assert (sinv (Some m) w2 (drop_held t m H)) as Hi2 by by apply sinv_woken.
  assert (mutexes w2 !! m = Some (spun 1 (dropped x))) as Hm2 by (change (mutexes w2) with (mutexes w1); rewrite Em1; apply lookup_insert_eq).
  destruct (mx_release_spec w2 _ m _ Hi2 Hm2) as [E3 Hi3].
  assert (spun 0 (spun 1 (dropped x)) = dropped x) as Ex.
  { apply spun_back. destruct (si_mutex _ _ _ Hi _ _ Hm) as [[Hs _] _]. exact Hs. }
  rewrite Ex in *. rewrite (bind_run _ _ _ _ _ E3). set (w3 := put_m m (dropped x) w2) in *.
  destruct Hrun as (Hself & Hn & Hcur).
  assert (natives w3 !! n = Some d) as Hn3 by (change (natives w3) with (natives w1); by rewrite (fr_natives _ _ Hf1)).
  rewrite (bind_run _ _ _ _ _ (get_d_run w3 n d Hn3)), Hcur. rewrite (bind_run (of_option BadDeref (Some t)) _ w3 t w3 eq_refl).
  assert (exists z3, threads w3 !! t = Some z3 /\ boundnative z3 = None) as (z3 & Hz3 & Hzb3).
  { destruct (frame_thread _ _ _ _ Hf1 Hz) as (z1 & Hz1 & Hvz). apply (f_equal boundnative) in Hvz. simpl in Hvz.
    destruct (decide (u = t)) as [<-|Hne].
    - exists (woken y1). split; [apply lookup_insert_eq|done].
    - exists z1. split; [simpl; by rewrite lookup_insert_ne|congruence]. }
  rewrite (bind_run _ _ _ _ _ (get_t_run w3 t z3 Hz3)), Hzb3. rewrite bool_decide_eq_false_2 by tauto.
  exists w3, m2, (woken y1). split; [done|]. split_and!; try done.
  - simpl. rewrite Em1. by rewrite insert_insert_eq.
  - simpl. apply (fr_waits _ _ Hf1).
  - simpl. apply lookup_insert_eq.
  - intros q. by rewrite Hlk2, (fr_qm _ _ Hf1).
Qed.
End wakes.

(** *** An example: thread 3, of priority 5, waits for mutex 10 of thread 1 *)

Definition two_queues (prios : list nat) : qmem :=
  QMem (links (raw_mem RQ prios) ∪ links (raw_mem (WaitQ 1) prios)) (nodes (raw_mem RQ prios))
    {[ RQ := PQ 0 (bitmap_zero 32) 0; WaitQ 1 := PQ 0 (bitmap_zero 32) 0 ]}.

Lemma two_queues_mem : exists m Ls Rs, pq_inv m {[ RQ := Rs; WaitQ 1 := <[5%nat := [3%nat]]> Ls ]} /\
  Rs !! 5%nat = Some [] /\ Ls !! 5%nat = Some [] /\ lock_word m RQ = Some 0 /\ lock_word m (WaitQ 1) = Some 0.
Proof.
  set (prios := [0; 0; 0; 5]%nat). set (E := replicate (Z.to_nat PRIO_TOTAL) ([] : list nat)).
  assert (forall q, q = RQ \/ q = WaitQ 1 -> raw_heads q (links (two_queues prios))) as Hraw.
  { intros q Hq p Hp. unfold two_queues. cbn [links]. apply lookup_union_is_Some.
    destruct Hq as [-> | ->]; [left|right]; apply raw_mem_link; eauto. }
  assert (pq_inv (two_queues prios) ∅) as Hi0.
  { destruct (raw_mem_inv RQ prios) as [_ _ H3 H4]. split; [done|done|done|]. intros t n Hn.
    destruct (H4 t n Hn) as [Hs Hf]. split; [|done]. apply lookup_union_is_Some. by left. }
  destruct (pqueue_init_spec _ _ (WaitQ 1) (PQ 0 (bitmap_zero 32) 0) Hi0) as (m1 & _ & Hi1 & Hn1 & Hq1 & Hd1);
    [done|by vm_compute|done|by apply Hraw; right|].
  destruct (pqueue_init_spec _ _ RQ (PQ 0 (bitmap_zero 32) 0) Hi1) as (m2 & _ & Hi2 & Hn2 & Hq2 & Hd2);
    [by vm_compute|by rewrite Hq1; vm_compute|done| |].
  { intros p Hp. apply Hd1. apply (Hraw RQ); [by left|done]. }
  assert (E !! 5%nat = Some []) as HE by by vm_compute.
  destruct (pqueue_enter_spec _ _ m2 _ (WaitQ 1) E 3 (Node None 5 node_lt_nowhere) 5 []
    __pqueue_insert_tail_links place_tail_perm Hi2) as (m3 & _ & Hi3 & Hn3 & Hs3);
    [by rewrite lookup_insert_ne, lookup_insert_eq|rewrite Hn2, Hn1; by vm_compute|done|done|done|].
  exists m3, E, E. split_and!; [|done|done| |].
  - by rewrite insert_insert_ne in Hi3 by done; rewrite insert_insert_eq in Hi3.
  - unfold lock_word. rewrite Hs3, Hq2. by rewrite lookup_insert_eq.
  - unfold lock_word. rewrite Hs3, Hq2, lookup_insert_ne, Hq1 by done. by rewrite lookup_insert_eq.
Qed.

Lemma sinv_add_thread b w H t y : sinv b w H -> H !! t = None -> sinv b (set_threads (<[t := y]> (threads w)) w) H.
Proof.
  intros [H1 H2 H3 H4 H5] Ht. split; [|done..]. intros u o l Hu. simpl.
  rewrite lookup_insert_ne by congruence. eauto.
Qed.

Definition waiter : pth_st := set_state PTH_STATE_WAITING (set_waited_native (Some 1%nat) a_thread).
Definition waiting_list : gmap waddr (link waddr) :=
  {[ WMutex 10 := Link (Some (WThread 3)) (Some (WThread 3)); WThread 3 := Link (Some (WMutex 10)) (Some (WMutex 10)) ]}.

(** Mutex 10 is locked by thread 1, which runs, and thread 3 waits for it. *)
Lemma wait_example w0 x z : sinv None w0 two_holdings -> mutexes w0 !! 10%nat = Some x -> local x -> is_locked x = false ->
  mx_waitcount x = 0 -> self w0 = Some 0%nat -> natives w0 !! 0%nat = Some (a_native 100 1) ->
  threads w0 !! 1%nat = Some z -> boundnative z = None ->
  exists w H x z, sinv None w H /\ running w 0 1 (a_native 100 1) /\ mutexes w !! 10%nat = Some x /\ local x /\
    is_Some (H !! 1%nat) /\ mx_owner x = Some 1%nat /\ is_locked x = true /\ mx_count x = 1 /\
    pth_number_of_natives w = 2 /\ waits w = waiting_list /\ threads w !! 3%nat = Some waiter /\
    threads w !! 1%nat = Some z /\ boundnative z = None.
Proof.
  intros Hi Hx Hloc Hl Hw Hs Hn Hz Hzb. assert (running w0 0 1 (a_native 100 1)) as Hrun by done.
  destruct (acquire_free (fun _ => true) 0 10 false [] [] w0 two_holdings 0 1 _ x Hi Hrun Hx Hloc ltac:(by eexists) false Hl Hw)
    as (w1 & _ & Hi1 & Em1 & Hf1).
  destruct (frame_thread _ _ _ _ Hf1 Hz) as (z1 & Hz1 & Hv%(f_equal boundnative)). simpl in Hv.
  exists (set_pth_number_of_natives 2 (set_waits waiting_list (set_threads (<[3%nat := waiter]> (threads w1)) w1))),
    (take_held 1 10 two_holdings), (taken 1 100 x), z1.
  split_and!; try done.
  - assert (sinv None (set_threads (<[3%nat := waiter]> (threads w1)) w1) (take_held 1 10 two_holdings)) as []
      by (apply sinv_add_thread; [done|by vm_compute]). by split.
  - unfold running. simpl. by rewrite (fr_self _ _ Hf1), (fr_natives _ _ Hf1).
  - simpl. rewrite Em1. apply lookup_insert_eq.
  - by apply local_taken.
  - apply (is_locked_set x).
  - apply lookup_insert_eq.
  - simpl. by rewrite lookup_insert_ne.
  - congruence.
Qed.

Lemma release_wakes_longest_witness :
  exists w w' Rs Ls y', pth_mutex_release 10 w = Ok (0, w') /\ threads w !! 3%nat = Some waiter /\
    threads w' !! 3%nat = Some y' /\ state y' = PTH_STATE_READY /\
    pq_inv (qm w') {[ RQ := <[5%nat := [3%nat]]> Rs; WaitQ 1 := <[5%nat := []]> Ls ]}.
Proof.
  destruct two_queues_mem as (qmem0 & Ls & Rs & Hinv & HRs & HLs & HlR & HlW).
  pose proof (qu_inv _ _ (lr_quiet _ _ _ _ _ (two_threads_rel PTH_MUTEX_NORMAL))) as Hi0.
  edestruct (wait_example (two_threads PTH_MUTEX_NORMAL)) as (w0 & H & x & z & Hi & Hrun & Hx & Hloc & HH & Ho & Hl & Hc & Hnn & Hw & Hu & Hz & Hzb);
    [exact Hi0|vm_compute; reflexivity|vm_compute; split; reflexivity|vm_compute; reflexivity|vm_compute; reflexivity
    |vm_compute; reflexivity|vm_compute; reflexivity|vm_compute; reflexivity|vm_compute; reflexivity|].
  set (w := set_qm qmem0 w0).
  assert (sinv None w H) as Hi' by (destruct Hi; by split).
  assert (<[5%nat := [3%nat]]> Ls !! 5%nat = Some [3%nat]) as HLs' by (rewrite list_lookup_insert_eq; [done|by eapply lookup_lt_Some]).
  destruct (release_wakes_longest w H 0 1 _ 10 x Hi' Hrun Hx Hloc HH Ho Hl Hc ltac:(simpl; lia)
    [] 3 1 waiter ltac:(simpl; rewrite Hw; split; [by repeat constructor; set_solver|done]) Hu eq_refl eq_refl
    _ _ Rs 5 5 [] [] [] Hinv eq_refl HLs' eq_refl HRs eq_refl HlW HlR z Hz Hzb)
    as (w' & m' & y' & Er & _ & _ & _ & Hy' & Hst & _ & <- & Hinv' & _).
  exists w, w', Rs, Ls, y'. split_and!; [exact Er|exact Hu|exact Hy'|exact Hst|].
  simpl app in Hinv'. rewrite list_insert_insert_eq in Hinv'.
  rewrite (insert_insert_ne _ (WaitQ 1) RQ), (insert_insert_eq _ RQ) in Hinv' by done. 
  exact Hinv'.
Defined.
