(* ===== verification/Util.v ===== *)
(** * Utilities (pth_util.c)

    The functions on descriptor sets, which the event manager uses to merge
    what the threads select on and to give every thread its part of the
    result, and the copying of strings.

    A descriptor set is a number whose bits are the members; the sets of the
    callers are in their memory, under their address (0 is NULL), since the
    same set may be passed several times.  [FD_SET] and the like index an
    array: descriptors beyond [FD_SETSIZE] are out of its bounds. *)

From S2P Require Import Prelude.

Definition FD_SETSIZE : Z := 1024.

Definition pth_util_min (a b : Z) : Z := if bool_decide (a > b) then b else a.

Definition fd_ok (s : Z) : bool := bool_decide (0 <= s < FD_SETSIZE).
Definition FD_ISSET (s : Z) (set : Z) : res bool := if fd_ok s then Ok (Z.testbit set s) else Err OutOfBounds.
Definition FD_SET (s : Z) (set : Z) : res Z := if fd_ok s then Ok (Z.setbit set s) else Err OutOfBounds.
Definition FD_CLR (s : Z) (set : Z) : res Z := if fd_ok s then Ok (Z.clearbit set s) else Err OutOfBounds.

(** The memory of the callers. *)
Abbreviation umem := (gmap Z Z).
Implicit Types (um : umem).

(** [p != NULL && FD_ISSET(s, p)] *)
Definition ptr_isset (p s : Z) um : res bool :=
  if bool_decide (p = 0) then Ok false else set ← or_fault BadDeref (um !! p); FD_ISSET s set.

(** ** Merging *)

Definition merge_one (s p o : Z) um : res Z := b ← ptr_isset p s um; if (b : bool) then FD_SET s o else Ok o.

Fixpoint merge_loop (ss : list Z) (i1 i2 i3 : Z) um (o : Z * Z * Z) : res (Z * Z * Z) :=
  match ss with
  | [] => Ok o
  | s :: ss =>
      let '(o1, o2, o3) := o in
      o1 ← merge_one s i1 o1 um;
      o2 ← merge_one s i2 o2 um;
      o3 ← merge_one s i3 o3 um;
      merge_loop ss i1 i2 i3 um (o1, o2, o3)
  end.

Definition pth_util_fds_merge (nfd i1 i2 i3 : Z) um (o : Z * Z * Z) : res (Z * Z * Z) :=
  merge_loop (seqZ 0 nfd) i1 i2 i3 um o.

(** ** Testing *)

Definition test_one (s p o : Z) um : res bool := b ← ptr_isset p s um; if (b : bool) then FD_ISSET s o else Ok false.

Fixpoint test_loop (ss : list Z) (i1 i2 i3 : Z) um (o : Z * Z * Z) : res bool :=
  match ss with
  | [] => Ok false
  | s :: ss =>
      let '(o1, o2, o3) := o in
      b ← test_one s i1 o1 um;
      if (b : bool) then Ok true else
      b ← test_one s i2 o2 um;
      if (b : bool) then Ok true else
      b ← test_one s i3 o3 um;
      if (b : bool) then Ok true else
      test_loop ss i1 i2 i3 um o
  end.

Definition pth_util_fds_test (nfd i1 i2 i3 : Z) um (o : Z * Z * Z) : res bool :=
  test_loop (seqZ 0 nfd) i1 i2 i3 um o.

(** ** Selecting *)

Definition select_one (s p o n : Z) um : res (Z * umem) :=
  b ← ptr_isset p s um;
  if (b : bool) then
    c ← FD_ISSET s o;
    if (c : bool) then Ok (n + 1, um)
    else set ← or_fault BadDeref (um !! p); set ← FD_CLR s set; Ok (n, <[p := set]> um)
  else Ok (n, um).

Fixpoint select_loop (ss : list Z) (i1 i2 i3 : Z) (o : Z * Z * Z) (n : Z) um : res (Z * umem) :=
  match ss with
  | [] => Ok (n, um)
  | s :: ss =>
      let '(o1, o2, o3) := o in
      '(n, um) ← select_one s i1 o1 n um;
      '(n, um) ← select_one s i2 o2 n um;
      '(n, um) ← select_one s i3 o3 n um;
      select_loop ss i1 i2 i3 o n um
  end.

Definition pth_util_fds_select (nfd i1 i2 i3 : Z) (o : Z * Z * Z) um : res (Z * umem) :=
  select_loop (seqZ 0 nfd) i1 i2 i3 o 0 um.

(** ** Strings

    [src] is the text up to and including the terminating 0 and what follows
    it; [dst] the buffer, of which [dst_size] bytes are used.  The result is
    the buffer and the position of the terminating 0 in it. *)

Fixpoint cpystrn_loop (n : nat) (d : nat) (src dst : list Z) : res (nat * list Z) :=
  match n with
  | O => if decide (d < length dst)%nat then Ok (d, <[d := 0]> dst) else Err OutOfBounds
  | S n =>
      c ← or_fault OutOfBounds (head src);
      if decide (d < length dst)%nat then
        let dst := <[d := c]> dst in
        if bool_decide (c = 0) then Ok (d, dst) else cpystrn_loop n (S d) (tail src) dst
      else Err OutOfBounds
  end.

Definition pth_util_cpystrn (dst src : list Z) (dst_size : nat) : res (nat * list Z) :=
  match dst_size with O => Ok (O, dst) | S n => cpystrn_loop n 0 src dst end.

(** ** What the functions compute *)

Section sets.
Context (um : umem).

(** The members of the set at [p]; NULL is the empty set. *)
Definition members (p : Z) : Z := if bool_decide (p = 0) then 0 else default 0 (um !! p).
Definition readable (p : Z) : Prop := p = 0 \/ is_Some (um !! p).

Lemma ptr_isset_run p s : readable p -> fd_ok s = true -> ptr_isset p s um = Ok (Z.testbit (members p) s).
Proof.
  intros Hr Hs. unfold ptr_isset, members, FD_ISSET. case_bool_decide as Hp; [by rewrite Z.testbit_0_l|].
  destruct Hr as [?|[v Hv]]; [done|]. rewrite Hv. cbn. by rewrite Hs.
Qed.

Lemma merge_one_run s p o : readable p -> fd_ok s = true ->
  merge_one s p o um = Ok (if Z.testbit (members p) s then Z.setbit o s else o).
Proof.
  intros Hr Hs. unfold merge_one. rewrite ptr_isset_run by done. cbn.
  case_match; [|done]. unfold FD_SET. by rewrite Hs.
Qed.

Lemma test_one_run s p o : readable p -> fd_ok s = true ->
  test_one s p o um = Ok (Z.testbit (Z.land (members p) o) s).
Proof.
  intros Hr Hs. unfold test_one. rewrite ptr_isset_run by done. cbn. rewrite Z.land_spec.
  case_match; [|done]. unfold FD_ISSET. by rewrite Hs.
Qed.
End sets.

Lemma fds_ok nfd : 0 <= nfd <= FD_SETSIZE -> Forall (fun s => fd_ok s = true) (seqZ 0 nfd).
Proof.
  intros H. apply Forall_forall. intros s Hs%elem_of_seqZ. apply bool_decide_eq_true. unfold FD_SETSIZE in *. lia.
Qed.

(** The members of [i] among the descriptors [ss] are added to [o]. *)
Definition merged (ss : list Z) (i o : Z) : Z := foldl (fun o s => if Z.testbit i s then Z.setbit o s else o) o ss.

Lemma merged_testbit ss i o k : Forall (fun s => fd_ok s = true) ss -> 0 <= k ->
  Z.testbit (merged ss i o) k = Z.testbit o k || (bool_decide (k ∈ ss) && Z.testbit i k).
Proof.
  revert o. induction ss as [|s ss IH]; intros o Hs Hk; [cbn; by rewrite orb_false_r|].
  inversion_clear Hs as [|? ? H1 H2]. apply bool_decide_eq_true in H1.
  change (merged (s :: ss) i o) with (merged ss i (if Z.testbit i s then Z.setbit o s else o)). rewrite IH by done.
  rewrite (bool_decide_ext (k ∈ s :: ss) (k = s \/ k ∈ ss)) by apply elem_of_cons.
  destruct (decide (k = s)) as [->|Hne].
  - rewrite (bool_decide_eq_true_2 (s = s \/ s ∈ ss)) by tauto. cbn.
    destruct (Z.testbit i s) eqn:E; [rewrite Z.setbit_eq by lia; by rewrite orb_true_r|].
    by rewrite andb_false_r.
  - rewrite (bool_decide_ext (k = s \/ k ∈ ss) (k ∈ ss)) by tauto.
    destruct (Z.testbit i s); [|done]. by rewrite Z.setbit_neq by lia.
Qed.

Lemma merge_loop_run ss i1 i2 i3 um o1 o2 o3 :
  Forall (fun s => fd_ok s = true) ss -> readable um i1 -> readable um i2 -> readable um i3 ->
  merge_loop ss i1 i2 i3 um (o1, o2, o3) =
    Ok (merged ss (members um i1) o1, merged ss (members um i2) o2, merged ss (members um i3) o3).
Proof.
  intros Hs H1 H2 H3. revert o1 o2 o3. induction Hs as [|s ss Hs _ IH]; intros o1 o2 o3; [done|].
  cbn [merge_loop]. rewrite merge_one_run by done. cbn [mbind res_bind].
  rewrite merge_one_run by done. cbn [mbind res_bind]. rewrite merge_one_run by done. cbn [mbind res_bind].
  apply IH.
Qed.

(** [pth_util_fds_merge] adds to each output set exactly the members of its
    input set that are below [nfd]; a NULL input adds nothing. *)
Theorem fds_merge_union nfd i1 i2 i3 um o1 o2 o3 :
  0 <= nfd <= FD_SETSIZE -> readable um i1 -> readable um i2 -> readable um i3 ->
  exists r1 r2 r3, pth_util_fds_merge nfd i1 i2 i3 um (o1, o2, o3) = Ok (r1, r2, r3) /\
    forall k, 0 <= k ->
      Z.testbit r1 k = Z.testbit o1 k || (bool_decide (k < nfd) && Z.testbit (members um i1) k) /\
      Z.testbit r2 k = Z.testbit o2 k || (bool_decide (k < nfd) && Z.testbit (members um i2) k) /\
      Z.testbit r3 k = Z.testbit o3 k || (bool_decide (k < nfd) && Z.testbit (members um i3) k).
Proof.
  intros Hn H1 H2 H3. pose proof (fds_ok nfd Hn) as Hs. unfold pth_util_fds_merge.
  rewrite merge_loop_run by done. eexists _, _, _. split; [done|]. intros k Hk.
  rewrite !merged_testbit by done.
  rewrite (bool_decide_ext (k ∈ seqZ 0 nfd) (k < nfd)) by (rewrite elem_of_seqZ; lia). done.
Qed.

Lemma fds_merge_union_witness :
  exists r1 r2 r3, pth_util_fds_merge 5 1 0 2 {[1 := 14; 2 := 33]} (16, 0, 0) = Ok (r1, r2, r3) /\
    Z.testbit r1 3 = true /\ Z.testbit r3 5 = false.
Proof.
  destruct (fds_merge_union 5 1 0 2 {[1 := 14; 2 := 33]} 16 0 0) as (r1 & r2 & r3 & E & H).
  - unfold FD_SETSIZE. lia.
  - right. by eexists.
  - by left.
  - right. by eexists.
  - exists r1, r2, r3. split; [exact E|]. destruct (H 3) as [-> _]; [lia|]. destruct (H 5) as (_ & _ & ->); [lia|].
    split; reflexivity.
Defined.

(** *** Test and selection *)

(** How many of the descriptors [ss] are in both sets. *)
Definition common (ss : list Z) (i o : Z) : Z := Z.of_nat (length (filter (fun s => Z.testbit (Z.land i o) s = true) ss)).

Lemma common_cons s ss i o : common (s :: ss) i o = Z.b2z (Z.testbit (Z.land i o) s) + common ss i o.
Proof. unfold common. rewrite filter_cons. case_decide as H; [rewrite H|apply not_true_is_false in H; rewrite H]; cbn; lia. Qed.

Lemma common_nonneg ss i o : 0 <= common ss i o.
Proof. unfold common. lia. Qed.

Lemma test_loop_run ss i1 i2 i3 um o1 o2 o3 :
  Forall (fun s => fd_ok s = true) ss -> readable um i1 -> readable um i2 -> readable um i3 ->
  test_loop ss i1 i2 i3 um (o1, o2, o3) =
    Ok (bool_decide (0 < common ss (members um i1) o1 + common ss (members um i2) o2 + common ss (members um i3) o3)).
Proof.
  intros Hs H1 H2 H3. induction Hs as [|s ss Hs _ IH]; [done|].
  cbn [test_loop]. rewrite !test_one_run by done. rewrite !common_cons.
  pose proof (common_nonneg ss (members um i1) o1). pose proof (common_nonneg ss (members um i2) o2).
  pose proof (common_nonneg ss (members um i3) o3).
  destruct (Z.testbit (Z.land (members um i1) o1) s), (Z.testbit (Z.land (members um i2) o2) s),
    (Z.testbit (Z.land (members um i3) o3) s); cbn [Z.b2z mbind res_bind];
    first [by rewrite bool_decide_eq_true_2 by lia|rewrite IH; f_equal; apply bool_decide_ext; lia].
Qed.

(** The members of [i] among [ss] that are not in [o] are removed. *)
Definition kept (ss : list Z) (i o : Z) : Z :=
  foldl (fun i s => if Z.testbit i s && negb (Z.testbit o s) then Z.clearbit i s else i) i ss.

Lemma kept_testbit ss i o k : Forall (fun s => fd_ok s = true) ss -> 0 <= k ->
  Z.testbit (kept ss i o) k = Z.testbit i k && (negb (bool_decide (k ∈ ss)) || Z.testbit o k).
Proof.
  revert i. induction ss as [|s ss IH]; intros i Hs Hk; [cbn; by rewrite andb_true_r|].
  inversion_clear Hs as [|? ? H1 H2]. apply bool_decide_eq_true in H1.
  change (kept (s :: ss) i o) with (kept ss (if Z.testbit i s && negb (Z.testbit o s) then Z.clearbit i s else i) o).
  rewrite IH by done. rewrite (bool_decide_ext (k ∈ s :: ss) (k = s \/ k ∈ ss)) by apply elem_of_cons.
  destruct (decide (k = s)) as [->|Hne].
  - rewrite (bool_decide_eq_true_2 (s = s \/ s ∈ ss)) by tauto.
    destruct (Z.testbit i s) eqn:Ei, (Z.testbit o s) eqn:Eo; cbn; rewrite ?Ei, ?orb_true_r; try done.
    by rewrite Z.clearbit_eq.
  - rewrite (bool_decide_ext (k = s \/ k ∈ ss) (k ∈ ss)) by tauto.
    destruct (Z.testbit i s && negb (Z.testbit o s)); [|done]. by rewrite Z.clearbit_neq.
Qed.

(** The counted descriptors do not change when others are removed. *)
Lemma common_agree ss i i' o : (forall s, s ∈ ss -> Z.testbit (Z.land i' o) s = Z.testbit (Z.land i o) s) ->
  common ss i' o = common ss i o.
Proof.
  intros H. induction ss as [|s ss IH]; [done|]. rewrite !common_cons, H by set_solver.
  rewrite IH; [done|]. set_solver.
Qed.

(** A set of the caller after [select_one]. *)
Definition drop_one (s i o : Z) : Z := if Z.testbit i s && negb (Z.testbit o s) then Z.clearbit i s else i.
Definition put_set (p v : Z) um : umem := if bool_decide (p = 0) then um else <[p := v]> um.

Lemma select_one_run s p o n um : readable um p -> fd_ok s = true ->
  select_one s p o n um =
    Ok (n + Z.b2z (Z.testbit (Z.land (members um p) o) s), put_set p (drop_one s (members um p) o) um).
Proof.
  intros Hr Hs. unfold select_one. rewrite ptr_isset_run by done. cbn [mbind res_bind].
  unfold put_set, drop_one, members. rewrite Z.land_spec. destruct Hr as [->|[v Hv]].
  { rewrite bool_decide_eq_true_2 by done. rewrite Z.testbit_0_l. cbn. by rewrite Z.add_0_r. }
  case_bool_decide as Hp; [rewrite Z.testbit_0_l; cbn; by rewrite Z.add_0_r|]. rewrite Hv. cbn [default id].
  unfold FD_ISSET, FD_CLR. rewrite Hs.
  destruct (Z.testbit v s); cbn; [|rewrite Z.add_0_r; by rewrite insert_id].
  destruct (Z.testbit o s); cbn; [by rewrite insert_id|]. by rewrite Z.add_0_r.
Qed.

Lemma members_put p p' v um : p = 0 \/ p <> p' -> members (put_set p v um) p' = members um p'.
Proof.
  intros Hne. unfold put_set, members. repeat case_bool_decide; try done. destruct Hne as [?|Hne]; [done|].
  by rewrite lookup_insert_ne.
Qed.

Lemma members_put_same s p o um :
  members (put_set p (drop_one s (members um p) o) um) p = drop_one s (members um p) o.
Proof.
  unfold put_set, members. case_bool_decide; [|by rewrite lookup_insert_eq].
  unfold drop_one. by rewrite Z.testbit_0_l.
Qed.

Lemma dom_put p v um : readable um p -> dom (put_set p v um) = dom um.
Proof.
  unfold readable, put_set. case_bool_decide; [done|]. intros [?|[w Hw]]; [done|].
  rewrite dom_insert_L. apply elem_of_dom_2 in Hw. set_solver.
Qed.

Lemma readable_put p p' v um : readable um p' -> readable (put_set p v um) p'.
Proof.
  unfold readable, put_set. case_bool_decide; [done|]. intros [?|?]; [by left|right].
  destruct (decide (p = p')) as [->|]; [by rewrite lookup_insert_eq|by rewrite lookup_insert_ne].
Qed.

(** The sets are different objects. *)
Definition three_sets (um : umem) (i1 i2 i3 : Z) : Prop :=
  readable um i1 /\ readable um i2 /\ readable um i3 /\
  (i1 = 0 \/ i1 <> i2) /\ (i1 = 0 \/ i1 <> i3) /\ (i2 = 0 \/ i2 <> i3).

(** One round on three different sets. *)
Lemma select_round s i1 i2 i3 o1 o2 o3 n um : fd_ok s = true -> three_sets um i1 i2 i3 ->
  exists um', ('(n, um) ← select_one s i1 o1 n um; '(n, um) ← select_one s i2 o2 n um; select_one s i3 o3 n um) =
      Ok (n + Z.b2z (Z.testbit (Z.land (members um i1) o1) s) + Z.b2z (Z.testbit (Z.land (members um i2) o2) s)
            + Z.b2z (Z.testbit (Z.land (members um i3) o3) s), um') /\
    three_sets um' i1 i2 i3 /\ dom um' = dom um /\ members um' i1 = drop_one s (members um i1) o1 /\
    members um' i2 = drop_one s (members um i2) o2 /\ members um' i3 = drop_one s (members um i3) o3.
Proof.
  intros Hs (H1 & H2 & H3 & D12 & D13 & D23).
  assert (forall a b : Z, a = 0 \/ a <> b -> b = 0 \/ b <> a) as Hsym by lia.
  set (u1 := put_set i1 (drop_one s (members um i1) o1) um).
  set (u2 := put_set i2 (drop_one s (members u1 i2) o2) u1).
  set (u3 := put_set i3 (drop_one s (members u2 i3) o3) u2).
  assert (members u1 i2 = members um i2) as E2 by (by apply members_put).
  assert (members u2 i3 = members um i3) as E3 by (unfold u2; rewrite members_put by done; by apply members_put).
  assert (forall p, readable um p -> readable u3 p) as Hr by (intros; by repeat apply readable_put).
  exists u3. split_and!.
  - rewrite select_one_run by done. cbn [mbind res_bind]. fold u1.
    rewrite select_one_run by (done || by apply readable_put). cbn [mbind res_bind]. fold u2.
    rewrite select_one_run by (done || by repeat apply readable_put). fold u3. by rewrite E2, E3.
  - split_and!; auto.
  - unfold u3, u2, u1. rewrite !dom_put by (repeat apply readable_put; done). done.
  - unfold u3, u2. rewrite !members_put by auto. apply members_put_same.
  - unfold u3. rewrite members_put by auto. unfold u2. by rewrite members_put_same, E2.
  - unfold u3. by rewrite members_put_same, E3.
Qed.

Lemma drop_one_other s s' i o : s' <> s -> 0 <= s -> Z.testbit (drop_one s i o) s' = Z.testbit i s'.
Proof. intros. unfold drop_one. case_match; [|done]. by rewrite Z.clearbit_neq. Qed.

Lemma common_drop s ss i o : s ∉ ss -> fd_ok s = true -> common ss (drop_one s i o) o = common ss i o.
Proof.
  intros Hn Hs%bool_decide_eq_true. apply common_agree. intros s' Hs'. rewrite !Z.land_spec, drop_one_other; [done|set_solver|lia].
Qed.

Lemma select_loop_run ss i1 i2 i3 o1 o2 o3 n um :
  Forall (fun s => fd_ok s = true) ss -> NoDup ss -> three_sets um i1 i2 i3 ->
  exists um', select_loop ss i1 i2 i3 (o1, o2, o3) n um =
      Ok (n + common ss (members um i1) o1 + common ss (members um i2) o2 + common ss (members um i3) o3, um') /\ dom um' = dom um /\
    members um' i1 = kept ss (members um i1) o1 /\ members um' i2 = kept ss (members um i2) o2 /\
    members um' i3 = kept ss (members um i3) o3.
Proof.
  intros Hs. revert n um. induction Hs as [|s ss Hs _ IH]; intros n um Hnd H3.
  { exists um. split_and!; try done. cbn. by rewrite !Z.add_0_r. }
  apply NoDup_cons in Hnd as [Hn Hnd].
  destruct (select_round s i1 i2 i3 o1 o2 o3 n um Hs H3) as (u & E & Hu & Du & M1 & M2 & M3).
  destruct (IH (n + Z.b2z (Z.testbit (Z.land (members um i1) o1) s) + Z.b2z (Z.testbit (Z.land (members um i2) o2) s)
            + Z.b2z (Z.testbit (Z.land (members um i3) o3) s)) u Hnd Hu) as (um' & E' & Dm & K1 & K2 & K3).
  exists um'. rewrite M1, M2, M3 in *. rewrite !common_drop in E' by done. split_and!; [|congruence|done..].
  rewrite !common_cons. cbn [select_loop]. 
  destruct (select_one s i1 o1 n um) as [[n1 u1]|]; [|done]. cbn [mbind res_bind] in *.
  destruct (select_one s i2 o2 n1 u1) as [[n2 u2]|]; [|done]. cbn [mbind res_bind] in *.
  rewrite E. cbn [mbind res_bind]. rewrite E'. do 2 f_equal. lia.
Qed.

(** [pth_util_fds_test] says whether [pth_util_fds_select] would find
    anything; the selection keeps exactly the descriptors of each input set
    that are in its output set (those beyond [nfd] are left alone), and counts
    them, a descriptor in two sets twice. *)
Theorem fds_test_select nfd i1 i2 i3 um o1 o2 o3 :
  0 <= nfd <= FD_SETSIZE -> three_sets um i1 i2 i3 ->
  exists n um', pth_util_fds_select nfd i1 i2 i3 (o1, o2, o3) um = Ok (n, um') /\
    pth_util_fds_test nfd i1 i2 i3 um (o1, o2, o3) = Ok (bool_decide (0 < n)) /\
    n = common (seqZ 0 nfd) (members um i1) o1 + common (seqZ 0 nfd) (members um i2) o2
          + common (seqZ 0 nfd) (members um i3) o3 /\
    forall p o, (p, o) ∈ [(i1, o1); (i2, o2); (i3, o3)] -> forall k, 0 <= k ->
      Z.testbit (members um' p) k = Z.testbit (members um p) k && (negb (bool_decide (k < nfd)) || Z.testbit o k).
Proof.
  intros Hn H3. pose proof (fds_ok nfd Hn) as Hs. unfold pth_util_fds_select, pth_util_fds_test.
  destruct (select_loop_run (seqZ 0 nfd) i1 i2 i3 o1 o2 o3 0 um Hs (NoDup_seqZ _ _) H3) as (um' & E & _ & K1 & K2 & K3).
  eexists _, um'. split; [exact E|]. destruct H3 as (R1 & R2 & R3 & _).
  rewrite test_loop_run by done. split; [done|]. split; [lia|].
  intros p o Hpo k Hk. assert (members um' p = kept (seqZ 0 nfd) (members um p) o) as ->.
  { rewrite !elem_of_cons, elem_of_nil in Hpo. destruct_or! Hpo; try done; by injection Hpo as -> ->. }
  rewrite kept_testbit by done. by rewrite (bool_decide_ext (k ∈ seqZ 0 nfd) (k < nfd)) by (rewrite elem_of_seqZ; lia).
Qed.

Lemma fds_test_select_witness :
  exists n um', pth_util_fds_select 8 1 2 0 (2, 8, 255) {[1 := 14; 2 := 8]} = Ok (n, um') /\ n = 2 /\
    pth_util_fds_test 8 1 2 0 {[1 := 14; 2 := 8]} (2, 8, 255) = Ok true.
Proof.
  destruct (fds_test_select 8 1 2 0 {[1 := 14; 2 := 8]} 2 8 255) as (n & um' & E & Et & En & _).
  - unfold FD_SETSIZE. lia.
  - split_and!; [right; by eexists|right; by eexists|by left|right; lia|right; lia|right; lia].
  - exists n, um'. vm_compute in En. subst n. split; [exact E|]. split; [reflexivity|exact Et].
Defined.

(** *** Strings *)

Lemma cpystrn_loop_run n d text junk dst :
  (d + n < length dst)%nat -> Forall (fun c => c <> 0) text ->
  cpystrn_loop n d (text ++ 0 :: junk) dst =
    Ok ((d + length (take n text))%nat,
        take d dst ++ take n text ++ 0 :: drop (S (d + length (take n text))) dst).
Proof.
  intros Hl Ht. revert d dst Hl text Ht. induction n as [|n IH]; intros d dst Hl text Ht; cbn [cpystrn_loop].
  { rewrite decide_True by lia. rewrite take_0. cbn. rewrite Nat.add_0_r. by rewrite insert_take_drop by lia. }
  destruct Ht as [|c text Hc Ht]; cbn [app head or_fault mbind res_bind].
  { rewrite decide_True by lia. rewrite take_nil. cbn. rewrite Nat.add_0_r. by rewrite insert_take_drop by lia. }
  rewrite decide_True, bool_decide_eq_false_2 by (done || lia). cbn [tail].
  rewrite IH by (done || rewrite length_insert; lia). cbn [take length]. f_equal. f_equal; [lia|].
  rewrite (take_S_r _ _ c) by (apply list_lookup_insert_eq; lia). rewrite take_insert_ge by lia.
  rewrite drop_insert_lt by lia. rewrite <- app_assoc. cbn. by rewrite Nat.add_succ_r.
Qed.

(** [pth_util_cpystrn] always terminates the copy: the buffer starts with
    as much of the text as fits into one byte less than its size, then a 0, at
    the position returned; the bytes behind are as before. *)
Theorem cpystrn_spec dst text junk size :
  (0 < size <= length dst)%nat -> Forall (fun c => c <> 0) text ->
  pth_util_cpystrn dst (text ++ 0 :: junk) size =
    Ok (length (take (size - 1) text),
        take (size - 1) text ++ 0 :: drop (S (length (take (size - 1) text))) dst).
Proof.
  intros Hs Ht. destruct size as [|n]; [lia|]. cbn [pth_util_cpystrn]. rewrite cpystrn_loop_run by (done || lia).
  by replace (S n - 1)%nat with n by lia.
Qed.

Lemma cpystrn_spec_witness :
  pth_util_cpystrn [9; 9; 9; 9] ([104; 101; 108] ++ 0 :: [7]) 3 = Ok (2%nat, [104; 101; 0; 9]).
Proof. rewrite (cpystrn_spec [9; 9; 9; 9] [104; 101; 108] [7] 3); [reflexivity|simpl; lia|by repeat constructor]. Defined.
