(* ===== verification/Sched.v ===== *)
(** * The scheduler (pth_sched.c)

    Every native thread runs [pth_scheduler]: it moves new threads to the ready
    queue, takes the next thread from it, lets it run, and puts it where it
    belongs afterwards; then the event manager moves the threads whose events
    occurred from the wait queues to the ready queues.

    One native is executed in the model.  What the other natives and the
    threads do is what the parameters of the section at the end do to the
    state: a thread that runs ([run]), [select] while the native sleeps in it,
    a function event.  Natives are their index in [pth_native_list], so
    [pth_first_native] is number 0. *)

From S2P Require Import Prelude Bitmap Dll LinkedList Ring Priorities Msg PQueue Futex World Event Time Util.

(** The members of [struct pth_st] that only the scheduler and the signal
    functions use.  A set of signals is a number with a bit for each;
    [mctx_sigs] is [mctx.sigs]; [stackguard] tells whether the guard word of the
    stack, if there is one, is intact; [is_scheduler]: [start_func] is
    [pth_scheduler]. *)
Record tcb : Set := Tcb {
  events : option nat;
  sigpending : Z;
  sigpendcnt : Z;
  mctx_sigs : Z;
  sigactionmask : Z;
  sigthread : option nat;
  lastran : Z;
  running : Z;
  stackguard : option bool;
  lastrannative : Z;
  is_scheduler : bool }.

Definition set_events (v : option nat) (x : tcb) : tcb := Tcb v (sigpending x) (sigpendcnt x) (mctx_sigs x) (sigactionmask x) (sigthread x) (lastran x) (running x) (stackguard x) (lastrannative x) (is_scheduler x).
Definition set_sigpending (v : Z) (x : tcb) : tcb := Tcb (events x) v (sigpendcnt x) (mctx_sigs x) (sigactionmask x) (sigthread x) (lastran x) (running x) (stackguard x) (lastrannative x) (is_scheduler x).
Definition set_sigpendcnt (v : Z) (x : tcb) : tcb := Tcb (events x) (sigpending x) v (mctx_sigs x) (sigactionmask x) (sigthread x) (lastran x) (running x) (stackguard x) (lastrannative x) (is_scheduler x).
Definition set_mctx_sigs (v : Z) (x : tcb) : tcb := Tcb (events x) (sigpending x) (sigpendcnt x) v (sigactionmask x) (sigthread x) (lastran x) (running x) (stackguard x) (lastrannative x) (is_scheduler x).
Definition set_sigactionmask (v : Z) (x : tcb) : tcb := Tcb (events x) (sigpending x) (sigpendcnt x) (mctx_sigs x) v (sigthread x) (lastran x) (running x) (stackguard x) (lastrannative x) (is_scheduler x).
Definition set_sigthread (v : option nat) (x : tcb) : tcb := Tcb (events x) (sigpending x) (sigpendcnt x) (mctx_sigs x) (sigactionmask x) v (lastran x) (running x) (stackguard x) (lastrannative x) (is_scheduler x).
Definition set_lastran (v : Z) (x : tcb) : tcb := Tcb (events x) (sigpending x) (sigpendcnt x) (mctx_sigs x) (sigactionmask x) (sigthread x) v (running x) (stackguard x) (lastrannative x) (is_scheduler x).
Definition set_running (v : Z) (x : tcb) : tcb := Tcb (events x) (sigpending x) (sigpendcnt x) (mctx_sigs x) (sigactionmask x) (sigthread x) (lastran x) v (stackguard x) (lastrannative x) (is_scheduler x).
Definition set_stackguard (v : option bool) (x : tcb) : tcb := Tcb (events x) (sigpending x) (sigpendcnt x) (mctx_sigs x) (sigactionmask x) (sigthread x) (lastran x) (running x) v (lastrannative x) (is_scheduler x).
Definition set_lastrannative (v : Z) (x : tcb) : tcb := Tcb (events x) (sigpending x) (sigpendcnt x) (mctx_sigs x) (sigactionmask x) (sigthread x) (lastran x) (running x) (stackguard x) v (is_scheduler x).
Definition set_is_scheduler (v : bool) (x : tcb) : tcb := Tcb (events x) (sigpending x) (sigpendcnt x) (mctx_sigs x) (sigactionmask x) (sigthread x) (lastran x) (running x) (stackguard x) (lastrannative x) v.

(** The members of a native descriptor that only the scheduler uses. *)
Record dcb : Set := Dcb {
  nexttimer_thread : option nat;
  sigraised : Z;
  d_sigpending : Z }.

Definition set_nexttimer_thread (v : option nat) (x : dcb) : dcb := Dcb v (sigraised x) (d_sigpending x).
Definition set_sigraised (v : Z) (x : dcb) : dcb := Dcb (nexttimer_thread x) v (d_sigpending x).
Definition set_d_sigpending (v : Z) (x : dcb) : dcb := Dcb (nexttimer_thread x) (sigraised x) v.

(** The state of the scheduler: the threads, natives, queues and locks ([wo]),
    the events ([evs]), the message ports ([mps]), the members above, the memory
    of the callers, and the state of the kernel: the signals that are pending
    for the process, the signal mask of the native and the signals for which
    the action of the event manager is installed. *)
Record sst : Set := SSt {
  wo : world;
  evs : emem;
  mps : mstate;
  tx : gmap nat tcb;
  dx : gmap nat dcb;
  um : umem;
  kpending : Z;
  kmask : Z;
  kcaught : Z;
  pth_sigblock : Z;
  pth_exit_count : Z;
  pth_threads_count : Z;
  pth_main : option nat;
  pth_max_native_threads : Z }.

Definition set_wo (v : world) (x : sst) : sst := SSt v (evs x) (mps x) (tx x) (dx x) (um x) (kpending x) (kmask x) (kcaught x) (pth_sigblock x) (pth_exit_count x) (pth_threads_count x) (pth_main x) (pth_max_native_threads x).
Definition set_evs (v : emem) (x : sst) : sst := SSt (wo x) v (mps x) (tx x) (dx x) (um x) (kpending x) (kmask x) (kcaught x) (pth_sigblock x) (pth_exit_count x) (pth_threads_count x) (pth_main x) (pth_max_native_threads x).
Definition set_mps (v : mstate) (x : sst) : sst := SSt (wo x) (evs x) v (tx x) (dx x) (um x) (kpending x) (kmask x) (kcaught x) (pth_sigblock x) (pth_exit_count x) (pth_threads_count x) (pth_main x) (pth_max_native_threads x).
Definition set_tx (v : gmap nat tcb) (x : sst) : sst := SSt (wo x) (evs x) (mps x) v (dx x) (um x) (kpending x) (kmask x) (kcaught x) (pth_sigblock x) (pth_exit_count x) (pth_threads_count x) (pth_main x) (pth_max_native_threads x).
Definition set_dx (v : gmap nat dcb) (x : sst) : sst := SSt (wo x) (evs x) (mps x) (tx x) v (um x) (kpending x) (kmask x) (kcaught x) (pth_sigblock x) (pth_exit_count x) (pth_threads_count x) (pth_main x) (pth_max_native_threads x).
Definition set_um (v : umem) (x : sst) : sst := SSt (wo x) (evs x) (mps x) (tx x) (dx x) v (kpending x) (kmask x) (kcaught x) (pth_sigblock x) (pth_exit_count x) (pth_threads_count x) (pth_main x) (pth_max_native_threads x).
Definition set_kpending (v : Z) (x : sst) : sst := SSt (wo x) (evs x) (mps x) (tx x) (dx x) (um x) v (kmask x) (kcaught x) (pth_sigblock x) (pth_exit_count x) (pth_threads_count x) (pth_main x) (pth_max_native_threads x).
Definition set_kmask (v : Z) (x : sst) : sst := SSt (wo x) (evs x) (mps x) (tx x) (dx x) (um x) (kpending x) v (kcaught x) (pth_sigblock x) (pth_exit_count x) (pth_threads_count x) (pth_main x) (pth_max_native_threads x).
Definition set_kcaught (v : Z) (x : sst) : sst := SSt (wo x) (evs x) (mps x) (tx x) (dx x) (um x) (kpending x) (kmask x) v (pth_sigblock x) (pth_exit_count x) (pth_threads_count x) (pth_main x) (pth_max_native_threads x).
Definition set_pth_sigblock (v : Z) (x : sst) : sst := SSt (wo x) (evs x) (mps x) (tx x) (dx x) (um x) (kpending x) (kmask x) (kcaught x) v (pth_exit_count x) (pth_threads_count x) (pth_main x) (pth_max_native_threads x).
Definition set_pth_exit_count (v : Z) (x : sst) : sst := SSt (wo x) (evs x) (mps x) (tx x) (dx x) (um x) (kpending x) (kmask x) (kcaught x) (pth_sigblock x) v (pth_threads_count x) (pth_main x) (pth_max_native_threads x).
Definition set_pth_threads_count (v : Z) (x : sst) : sst := SSt (wo x) (evs x) (mps x) (tx x) (dx x) (um x) (kpending x) (kmask x) (kcaught x) (pth_sigblock x) (pth_exit_count x) v (pth_main x) (pth_max_native_threads x).
Definition set_pth_main (v : option nat) (x : sst) : sst := SSt (wo x) (evs x) (mps x) (tx x) (dx x) (um x) (kpending x) (kmask x) (kcaught x) (pth_sigblock x) (pth_exit_count x) (pth_threads_count x) v (pth_max_native_threads x).
Definition set_pth_max_native_threads (v : Z) (x : sst) : sst := SSt (wo x) (evs x) (mps x) (tx x) (dx x) (um x) (kpending x) (kmask x) (kcaught x) (pth_sigblock x) (pth_exit_count x) (pth_threads_count x) (pth_main x) v.

(** The local variables of [pth_sched_eventmanager]. *)
Record loc : Set := Loc {
  rfds : Z;
  wfds : Z;
  efds : Z;
  fdmax : Z;
  nexttimer_ev : option nat;
  nexttimer_value : Z;
  sigs_we_block : Z;
  sigcatch : Z;
  any_event_occurred : bool;
  mutex_event : bool;
  lRQ : qid }.

Definition set_rfds (v : Z) (x : loc) : loc := Loc v (wfds x) (efds x) (fdmax x) (nexttimer_ev x) (nexttimer_value x) (sigs_we_block x) (sigcatch x) (any_event_occurred x) (mutex_event x) (lRQ x).
Definition set_wfds (v : Z) (x : loc) : loc := Loc (rfds x) v (efds x) (fdmax x) (nexttimer_ev x) (nexttimer_value x) (sigs_we_block x) (sigcatch x) (any_event_occurred x) (mutex_event x) (lRQ x).
Definition set_efds (v : Z) (x : loc) : loc := Loc (rfds x) (wfds x) v (fdmax x) (nexttimer_ev x) (nexttimer_value x) (sigs_we_block x) (sigcatch x) (any_event_occurred x) (mutex_event x) (lRQ x).
Definition set_fdmax (v : Z) (x : loc) : loc := Loc (rfds x) (wfds x) (efds x) v (nexttimer_ev x) (nexttimer_value x) (sigs_we_block x) (sigcatch x) (any_event_occurred x) (mutex_event x) (lRQ x).
Definition set_nexttimer_ev (v : option nat) (x : loc) : loc := Loc (rfds x) (wfds x) (efds x) (fdmax x) v (nexttimer_value x) (sigs_we_block x) (sigcatch x) (any_event_occurred x) (mutex_event x) (lRQ x).
Definition set_nexttimer_value (v : Z) (x : loc) : loc := Loc (rfds x) (wfds x) (efds x) (fdmax x) (nexttimer_ev x) v (sigs_we_block x) (sigcatch x) (any_event_occurred x) (mutex_event x) (lRQ x).
Definition set_sigs_we_block (v : Z) (x : loc) : loc := Loc (rfds x) (wfds x) (efds x) (fdmax x) (nexttimer_ev x) (nexttimer_value x) v (sigcatch x) (any_event_occurred x) (mutex_event x) (lRQ x).
Definition set_sigcatch (v : Z) (x : loc) : loc := Loc (rfds x) (wfds x) (efds x) (fdmax x) (nexttimer_ev x) (nexttimer_value x) (sigs_we_block x) v (any_event_occurred x) (mutex_event x) (lRQ x).
Definition set_any_event_occurred (v : bool) (x : loc) : loc := Loc (rfds x) (wfds x) (efds x) (fdmax x) (nexttimer_ev x) (nexttimer_value x) (sigs_we_block x) (sigcatch x) v (mutex_event x) (lRQ x).
Definition set_mutex_event (v : bool) (x : loc) : loc := Loc (rfds x) (wfds x) (efds x) (fdmax x) (nexttimer_ev x) (nexttimer_value x) (sigs_we_block x) (sigcatch x) (any_event_occurred x) v (lRQ x).
Definition set_lRQ (v : qid) (x : loc) : loc := Loc (rfds x) (wfds x) (efds x) (fdmax x) (nexttimer_ev x) (nexttimer_value x) (sigs_we_block x) (sigcatch x) (any_event_occurred x) (mutex_event x) v.

(** ** Access *)

(** The state of the event manager: the global one and its local variables. *)
Record est : Set := Est { gs : sst; lo : loc }.

Definition onw {A} : M world A -> M sst A := zoom wo set_wo.
Definition one {A} : M emem A -> M sst A := zoom evs set_evs.
Definition onp {A} : M mstate A -> M sst A := zoom mps set_mps.
Definition onq {A} (c : M qmem A) : M sst A := onw (on_queues c).

Definition get_x (t : nat) : M sst tcb := s ← get; of_option BadDeref (tx s !! t).
Definition upd_x (t : nat) (f : tcb -> tcb) : M sst unit :=
  x ← get_x t; modify (fun s => set_tx (<[t := f x]> (tx s)) s).
Definition get_dx (n : nat) : M sst dcb := s ← get; of_option OutOfBounds (dx s !! n).
Definition upd_dx (n : nat) (f : dcb -> dcb) : M sst unit :=
  x ← get_dx n; modify (fun s => set_dx (<[n := f x]> (dx s)) s).

(** [*p = v] for a pointer of the caller *)
Definition user_write (p v : Z) : M sst unit :=
  s ← get; _ ← of_option BadDeref (um s !! p); modify (fun s => set_um (<[p := v]> (um s)) s).
Definition user_read (p : Z) : M sst Z := s ← get; of_option BadDeref (um s !! p).

(** ** Signals *)

Definition sigismember (set sig : Z) : bool := Z.testbit set sig.
Definition sigaddset (set sig : Z) : Z := Z.setbit set sig.
Definition sigdelset (set sig : Z) : Z := Z.clearbit set sig.
Definition sigispending (set sig : Z) : bool := Z.testbit set sig.
Definition sigaddpending (set sig : Z) : Z := Z.setbit set sig.
Definition sigdelpending (set sig : Z) : Z := Z.clearbit set sig.

(** A signal that is pending for the process is delivered to a handler that
    does nothing. *)
Definition pth_util_sigdelete (sig : Z) : M sst bool :=
  s ← get;
  if sigismember (kpending s) sig then modify (fun s => set_kpending (sigdelset (kpending s) sig) s);; mret true
  else mret false.

(** [sigpending(&descr->sigpending)] *)
Definition read_pending (n : nat) : M sst unit := s ← get; upd_dx n (set_d_sigpending (kpending s)).

(** The states of a thread as numbers. *)
Definition state_num (s : pth_state_t) : Z :=
  match s with
  | PTH_STATE_SCHEDULER => 0 | PTH_STATE_NEW => 1 | PTH_STATE_READY => 2 | PTH_STATE_WAITING => 3
  | PTH_STATE_MUTEX_WAITING => 4 | PTH_STATE_DEAD => 5 | PTH_STATE_EXIT => 6
  end.

Definition is_group_leader (n : nat) : bool := bool_decide (n = 0%nat).

(** ** Waiting threads *)

(** [pth_WQ_count]: the members of the wait queues of the natives in use. *)
Fixpoint count_waiting (fuel slot : nat) (count : Z) : M sst Z :=
  match fuel with
  | O => fail Stuck
  | S fuel =>
      d ← onw (get_d slot);
      if is_used d then c ← onq (pqueue_total (WaitQ slot)); count_waiting fuel (S slot) (count + c)
      else mret count
  end.
Definition pth_WQ_count : M sst Z :=
  s ← get;
  c ← count_waiting (S (length (natives (wo s)))) 0 0;
  c' ← onq (pqueue_total WQ);
  mret (c + c').

Fixpoint delete_waiting (fuel slot t : nat) : M sst bool :=
  match fuel with
  | O => fail Stuck
  | S fuel =>
      d ← onw (get_d slot);
      if is_used d then
        b ← onq (__pqueue_contains (WaitQ slot) t);
        if (b : bool) then
          onq (spin_lock (WaitQ slot));;
          onq (__pqueue_delete_node t);;
          onw (upd_t t (set_waited_native None));;
          onq (spin_unlock (WaitQ slot));;
          mret true
        else delete_waiting fuel (S slot) t
      else mret false
  end.
Definition pth_WQ_delete (t : nat) : M sst bool :=
  s ← get; delete_waiting (S (length (natives (wo s)))) 0 t.

(** ** Thread control blocks (pth_tcb.c) *)

(** [thread_exists] of schedule.h; every address of the memory of threads is
    accepted by [cal_verify_pointer]. *)
Definition thread_exists (t : option nat) : M sst bool :=
  match t with None => mret false | Some t => x ← onw (get_t t); mret (magic x) end.

(** [pth_active_threads] *)
Definition pth_active_threads : M sst Z := s ← get; c ← onq (pqueue_total DQ); mret (pth_threads_count s - c).

(** The natives that wait for a timer of [t] forget it. *)
Fixpoint forget_timer (fuel i t : nat) (tid' : Z) : M sst unit :=
  match fuel with
  | O => fail Stuck
  | S fuel =>
      d ← onw (get_d i);
      if is_used d then
        x ← get_dx i;
        (if negb (is_bounded d) && bool_decide (nexttimer_thread x = Some t) && negb (bool_decide (tid d = tid'))
         then upd_dx i (set_nexttimer_thread None) else mret tt);;
        forget_timer fuel (S i) t tid'
      else mret tt
  end.

(** The descriptor the loop ends with. *)
Fixpoint last_used (fuel i : nat) (last : nat) : M sst nat :=
  match fuel with
  | O => fail Stuck
  | S fuel => d ← onw (get_d i); if is_used d then last_used fuel (S i) i else mret last
  end.

(** What a freed thread still has to run: [pth_key_destroydata] and
    [pth_cleanup_popall] (see Keys and Clean). *)
Inductive last_call : Set := Destructors | Cleanups.

(** [pth_tcb_free].  [destroy] runs the destructors of the thread specific data
    and the cleanup handlers (see Keys and Clean); the stack and the memory of
    the block itself are returned to the allocator. *)
Definition pth_tcb_free (destroy : last_call -> nat -> M sst unit) (thread : option nat) : M sst unit :=
  match thread with
  | None => mret tt
  | Some t =>
      '(n, d) ← onw my_descr;
      onw (lock_thread t (tid d));;
      destroy Destructors t;;
      s ← get;
      (match edata (evs s) !! t with
       | Some (Some _, _) => one (pth_event_key_destroy t)
       | _ => mret tt
       end);;
      destroy Cleanups t;;
      x ← onw (get_t t);
      (match boundnative x with
       | Some ds =>
           b ← onw (get_d ds);
           if is_bounded b then onw (upd_d ds (set_bounded_thread None)) else mret tt
       | None => mret tt
       end);;
      next ← onw (read_waits (fun h => get_next h (Some (WThread t))));
      (if bool_decide (next = None) then mret tt else onw (write_waits (pth_element_delete (Some (WThread t)))));;
      onw (unlock_thread t (tid d));;
      s ← get;
      let fuel := S (length (natives (wo s))) in
      forget_timer fuel 0 t (tid d);;
      last ← last_used fuel 0 n;
      xt ← get_x t;
      (if is_scheduler xt then mret tt
       else onw (upd_t t (set_magic false));; modify (fun s => set_pth_threads_count (pth_threads_count s - 1) s));;
      s ← get;
      l ← onw (get_d last);
      (if bool_decide (pth_exit_count s > 0) && bool_decide (current l = Some t) && is_group_leader last
       then onw (upd_d last (set_current None)) else mret tt);;
      modify (fun s => set_wo (set_threads (delete t (threads (wo s))) (wo s)) s);;
      modify (fun s => set_tx (delete t (tx s)) s)
  end.

(** ** The event manager *)

(** What [select] is called with; no timeout means that it may block. *)
Record selarg : Set := SelArg {
  s_nfds : Z; s_rfds : Z; s_wfds : Z; s_efds : Z; s_timeout : option timeval }.

Section eventmanager.
(** The number of signals, the descriptor of the read end of a native's pipe,
    the clock, [select] (its result, the sets and the state afterwards; it is
    called again while it is interrupted), and the function of a function
    event. *)
Context (PTH_NSIG : Z) (pipe_fd : nat -> Z) (clk : clock) (time_now : sst -> Z).
Context (select : selarg -> sst -> Z * (Z * Z * Z) * sst).
Context (user_func : Z -> Z -> M sst bool).

Definition sigs : list Z := seqZ 1 (PTH_NSIG - 1).

Definition ong {A} : M sst A -> M est A := zoom gs (fun s x => Est s (lo x)).
Definition get_l : M est loc := gets lo.
Definition upd_l (f : loc -> loc) : M est unit := modify (fun x => Est (gs x) (f (lo x))).
Definition set_fds (f : Z -> Z * Z * Z -> res (Z * Z * Z)) (fd : Z) : M est unit :=
  l ← get_l;
  '(r, w, e) ← of_res (f fd (rfds l, wfds l, efds l));
  upd_l (fun l => set_rfds r (set_wfds w (set_efds e l))).
Definition raise_fdmax (fd : Z) : M est unit :=
  upd_l (fun l => if bool_decide (fdmax l < fd) then set_fdmax fd l else l).

(** The native [n] that runs the event manager, whether it serves the
    unbound threads, and the time. *)
Context (n : nat) (m_to_n : bool) (now : Z).

(** [t->sigpendcnt > 0]: whether a pending signal is not blocked.  The loop
    ends after [sigpendcnt] pending signals. *)
Fixpoint unblocked_loop (l : list Z) (cnt : Z) (x : tcb) (any : bool) : bool :=
  match l with
  | [] => any
  | sig :: l =>
      if sigispending (sigpending x) sig then
        let any := any || negb (sigismember (mctx_sigs x) sig) in
        if bool_decide (cnt = sigpendcnt x) then any else unblocked_loop l (cnt + 1) x any
      else unblocked_loop l cnt x any
  end.

(** A filedescriptor event is assembled in the sets. *)
Definition check_fd (x : pth_event_st) (fd : Z) : M est unit :=
  set_fds (fun fd '(r, w, e) =>
    if flag (ev_goal x) PTH_UNTIL_FD_READABLE then r ← FD_SET fd r; Ok (r, w, e)
    else if flag (ev_goal x) PTH_UNTIL_FD_WRITEABLE then w ← FD_SET fd w; Ok (r, w, e)
    else if flag (ev_goal x) PTH_UNTIL_FD_EXCEPTION then e ← FD_SET fd e; Ok (r, w, e)
    else Ok (r, w, e)) fd;;
  raise_fdmax fd.

Definition check_select (nfd r w e : Z) : M est unit :=
  s ← ong get;
  set_fds (fun nfd o => pth_util_fds_merge nfd r w e (um s) o) nfd;;
  raise_fdmax (nfd - 1).

(** A [sigwait]; [wake]: the first native has to be woken. *)
Fixpoint check_sigs (l : list Z) (t : nat) (set psig : Z) (this wake : bool) : M est (bool * bool) :=
  match l with
  | [] => mret (this, wake)
  | sig :: l =>
      if sigismember set sig then
        x ← ong (get_x t);
        let hit := sigispending (sigpending x) sig in
        (if hit then
           ong (user_write psig sig);;
           ong (upd_x t (set_sigpending (sigdelpending (sigpending x) sig)));;
           ong (upd_x t (set_sigpendcnt (swrap 32 (sigpendcnt x - 1))))
         else mret tt);;
        let this := this || hit in
        if hit && bool_decide (sigpendcnt x = 0) then mret (this, wake)
        else
          d ← ong (get_dx n);
          if sigismember (d_sigpending d) sig then
            (if bool_decide (psig = 0) then mret tt else ong (user_write psig sig));;
            ong (pth_util_sigdelete sig);;
            ong (upd_dx n (fun d => set_d_sigpending (sigdelset (d_sigpending d) sig) d));;
            check_sigs l t set psig true wake
          else if is_group_leader n then
            upd_l (fun l => set_sigs_we_block (sigdelset (sigs_we_block l) sig) l);;
            upd_l (fun l => set_sigcatch (sigaddset (sigcatch l) sig) l);;
            check_sigs l t set psig this wake
          else check_sigs l t set psig this true
      else check_sigs l t set psig this wake
  end.

(** The signals that interrupt a [sleep]. *)
Fixpoint check_time_sigs (l : list Z) (t : nat) (set : Z) (wake : bool) : M est bool :=
  match l with
  | [] => mret wake
  | sig :: l =>
      if sigismember set sig then
        if is_group_leader n then
          x ← ong (get_x t);
          (if sigismember (mctx_sigs x) sig then mret tt
           else
             upd_l (fun l => set_sigs_we_block (sigdelset (sigs_we_block l) sig) l);;
             upd_l (fun l => set_sigcatch (sigaddset (sigcatch l) sig) l));;
          check_time_sigs l t set wake
        else check_time_sigs l t set true
      else check_time_sigs l t set wake
  end.

(** The timer that elapses next is remembered; it is marked by its flag. *)
Definition note_timer (t ev : nat) (tv : Z) : M est unit :=
  s ← ong get;
  th ← ong (onw (get_t t));
  if m_to_n || bool_decide (pth_max_native_threads s = 1) || bool_decide (boundnative th = Some n) then
    d ← ong (get_dx n);
    l ← get_l;
    if (bool_decide (nexttimer_thread d = None) && bool_decide (nexttimer_ev l = None)) ||
       bool_decide (pth_time_cmp tv (nexttimer_value l) < 0)
    then
      (match nexttimer_thread d, nexttimer_ev l with
       | Some _, Some e => ong (one (upd_ev e (fun x => Event (ev_occurred x) (ev_type x) (ev_goal x) 0 (ev_args x))))
       | _, _ => mret tt
       end);;
      ong (upd_dx n (set_nexttimer_thread (Some t)));;
      upd_l (set_nexttimer_ev (Some ev));;
      ong (one (upd_ev ev (fun x => Event (ev_occurred x) (ev_type x) (ev_goal x) 1 (ev_args x))));;
      upd_l (set_nexttimer_value tv)
    else mret tt
  else mret tt.

Definition wake_first : M sst unit := onw (pipe_write 0).

(** Whether event [ev] of thread [t], which waits in the queue of native [ds],
    has occurred by now ([this_occurred]). *)
Definition check_event (ds t ev : nat) (x : pth_event_st) : M est bool :=
  if bool_decide (ev_type x = PTH_EVENT_FD) && bool_decide (ds = n) then
    match ev_args x with AFd fd => check_fd x fd;; mret false | _ => fail Undefined end
  else if bool_decide (ev_type x = PTH_EVENT_SELECT) then
    match ev_args x with ASelect _ nfd r w e => check_select nfd r w e;; mret false | _ => fail Undefined end
  else if bool_decide (ev_type x = PTH_EVENT_SIGS) then
    match ev_args x with
    | ASigs pset psig =>
        set ← ong (user_read pset);
        '(this, wake) ← check_sigs sigs t set psig false false;
        (if (wake : bool) then ong wake_first else mret tt);;
        mret this
    | _ => fail Undefined
    end
  else if bool_decide (ev_type x = PTH_EVENT_TIME) then
    match ev_args x with
    | ATime tv =>
        if bool_decide (pth_time_cmp tv now < 0) then mret true
        else if bool_decide (ev_flags x = 1) then mret false
        else note_timer t ev tv;; mret false
    | _ => fail Undefined
    end
  else if bool_decide (ev_type x = PTH_EVENT_MSG) then
    match ev_args x with
    | AMsg mp => p ← ong (onp (get_port mp)); mret (bool_decide (pth_ring_elements (mp_queue p) > 0))
    | _ => fail Undefined
    end
  else if bool_decide (ev_type x = PTH_EVENT_MUTEX) then
    match ev_args x with
    | AMutex m =>
        y ← ong (onw (get_m m));
        if flag (mx_state y) PTH_MUTEX_LOCKED then mret false
        else upd_l (set_mutex_event true);; mret true
    | _ => fail Undefined
    end
  else if bool_decide (ev_type x = PTH_EVENT_COND) then
    match ev_args x with
    | ACond c =>
        y ← ong (onw (get_c c));
        if negb (flag (cn_state y) PTH_COND_SIGNALED) then mret false
        else if flag (cn_state y) PTH_COND_BROADCAST then mret true
        else if flag (cn_state y) PTH_COND_HANDLED then mret false
        else
          ong (onw (upd_c c (fun y => set_cn_state (set_flag (cn_state y) PTH_COND_HANDLED) y)));;
          upd_l (set_mutex_event true);;
          mret true
    | _ => fail Undefined
    end
  else if bool_decide (ev_type x = PTH_EVENT_TID) then
    match ev_args x with
    | ATid tid =>
        b ← (match tid with
             | None => mret false
             | Some u => y ← ong (onw (get_t u)); mret (bool_decide (state_num (state y) = ev_goal x))
             end);
        if (b : bool) then mret true
        else
          s ← ong get;
          if bool_decide (pth_main s = Some t) then
            c ← ong pth_active_threads;
            if bool_decide (c = 1) then e ← ong (thread_exists tid); mret (negb e) else mret false
          else mret false
    | _ => fail Undefined
    end
  else if bool_decide (ev_type x = PTH_EVENT_FUNC) then
    match ev_args x with
    | AFunc f arg tv =>
        b ← ong (user_func f arg);
        if (b : bool) then mret true
        else
          x ← ong (one (get_ev ev));
          if bool_decide (ev_flags x = 1) then mret false
          else note_timer t ev (pth_time_add now tv);; mret false
    | _ => fail Undefined
    end
  else if bool_decide (ev_type x = PTH_EVENT_TIME_SIGS) then
    match ev_args x with
    | ASigs pset _ =>
        set ← ong (user_read pset);
        wake ← check_time_sigs sigs t set false;
        (if (wake : bool) then ong wake_first else mret tt);;
        mret false
    | _ => fail Undefined
    end
  else mret false.

Definition mark_occurred (ev : nat) : M sst unit :=
  one (upd_ev ev (fun x => Event true (ev_type x) (ev_goal x) (ev_flags x) (ev_args x))).

(** The events of the ring [evh] of a thread, from [ev] on ([any_occurred]). *)
Fixpoint check_ring (fuel ds t evh ev : nat) (any : bool) : M est bool :=
  match fuel with
  | O => fail Stuck
  | S fuel =>
      th ← ong (onw (get_t t));
      x ← ong (one (get_ev ev));
      if cancelreq th && negb (bool_decide (ev_type x = PTH_EVENT_MUTEX)) then mret true
      else
        xt ← ong (get_x t);
        let signalled := bool_decide (sigpendcnt xt > 0) && negb (bool_decide (ev_type x = PTH_EVENT_SIGS)) in
        let any := if signalled then unblocked_loop sigs 1 xt any else any in
        if signalled && any then mret true
        else
          any ← (if ev_occurred x then mret any
                 else
                   this ← check_event ds t ev x;
                   if (this : bool) then ong (mark_occurred ev);; mret true else mret any);
          nx ← ong (one (ev_link (fun h => get_next h (Some ev))));
          nx ← ong (of_option BadDeref nx);
          if bool_decide (nx = evh) then mret any else check_ring fuel ds t evh nx any
  end.

(** A thread leaves the wait queue and becomes ready. *)
Definition make_ready (t : nat) (rq : qid) : M sst unit :=
  d ← onw (get_d n);
  onq (__pqueue_delete_node t);;
  onw (upd_t t (set_waited_native None));;
  onw (upd_t t (set_state PTH_STATE_READY));;
  onw (thread_eprio_recalculate t (tid d));;
  onq (pqueue_append_node rq t).

(** The native of the woken thread sleeps in [select]. *)
Definition wake_native (ds : nat) : M sst unit :=
  d ← onw (get_d ds);
  if is_group_leader n && negb (is_bound d) then onw (pipe_write ds) else mret tt.

(** The threads of the wait queue of native [ds], from [t] on. *)
Fixpoint check_threads (fuel rfuel ds : nat) (rq : qid) (t : option nat) : M est unit :=
  match fuel with
  | O => fail Stuck
  | S fuel =>
      match t with
      | None => mret tt
      | Some t =>
          xt ← ong (get_x t);
          match events xt with
          | None => nx ← ong (onq (__pqueue_get_next_node t)); check_threads fuel rfuel ds rq nx
          | Some evh =>
              any ← check_ring rfuel ds t evh evh false;
              nx ← ong (onq (__pqueue_get_next_node t));
              (if (any : bool) then
                 ong (make_ready t rq);;
                 upd_l (set_any_event_occurred true);;
                 ong (wake_native ds)
               else mret tt);;
              check_threads fuel rfuel ds rq nx
          end
      end
  end.

(** Which ready queue belongs to the wait queue of a native; [None]: the
    native is passed over. *)
Definition queue_of (ds : nat) (d : pth_descr_st) : option qid :=
  if m_to_n && (is_bounded d || is_group_leader ds) then None
  else Some (if is_bounded d || is_group_leader ds then ReadyQ ds else RQ).

(** The wait queue of native [ds]. *)
Definition first_waiting (ds : nat) : M sst (option nat) :=
  c ← onq (pqueue_total (WaitQ ds));
  if bool_decide (c = 0) then mret None else onq (__pqueue_first_node (WaitQ ds)).

(** The natives from [slot] on; [bounded], [dopoll], [once]: the native serves
    its own queue only. *)
Fixpoint check_natives (fuel tfuel rfuel slot : nat) (bounded dopoll once : bool) : M est unit :=
  match fuel with
  | O => fail Stuck
  | S fuel =>
      d ← ong (onw (get_d slot));
      if negb (is_used d) then mret tt
      else
        match queue_of slot d with
        | None => check_natives fuel tfuel rfuel (S slot) bounded dopoll once
        | Some rq =>
            upd_l (set_lRQ rq);;
            ong (onq (spin_lock (WaitQ slot)));;
            t ← ong (first_waiting slot);
            check_threads tfuel rfuel slot rq t;;
            ong (onq (spin_unlock (WaitQ slot)));;
            l ← get_l;
            if (if m_to_n then once || mutex_event l || any_event_occurred l else bounded && negb dopoll)
            then mret tt
            else check_natives fuel tfuel rfuel (S slot) bounded dopoll once
        end
  end.

(** *** After [select] *)

(** The late check of an event that has not occurred, of a bounded native. *)
Definition late_bounded (ev : nat) (x : pth_event_st) : M est unit :=
  (if bool_decide (ev_type x = PTH_EVENT_MUTEX) then
     match ev_args x with
     | AMutex m =>
         y ← ong (onw (get_m m));
         if flag (mx_state y) PTH_MUTEX_LOCKED then mret tt else ong (mark_occurred ev)
     | _ => fail Undefined
     end
   else if bool_decide (ev_type x = PTH_EVENT_COND) then
     match ev_args x with
     | ACond c =>
         y ← ong (onw (get_c c));
         if negb (flag (cn_state y) PTH_COND_SIGNALED) then mret tt
         else if flag (cn_state y) PTH_COND_BROADCAST then ong (mark_occurred ev)
         else if flag (cn_state y) PTH_COND_HANDLED then mret tt
         else
           ong (onw (upd_c c (fun y => set_cn_state (set_flag (cn_state y) PTH_COND_HANDLED) y)));;
           ong (mark_occurred ev)
     | _ => fail Undefined
     end
   else mret tt);;
  if bool_decide (ev_type x = PTH_EVENT_TID) then
    match ev_args x with
    | ATid (Some u) =>
        y ← ong (onw (get_t u));
        if bool_decide (state_num (state y) = ev_goal x) then ong (mark_occurred ev) else mret tt
    | ATid None => mret tt
    | _ => fail Undefined
    end
  else mret tt.

(** The signals that the handler of the event manager saw. *)
Fixpoint late_sigs (l : list Z) (ev : nat) (set psig : Z) : M est unit :=
  match l with
  | [] => mret tt
  | sig :: l =>
      d ← ong (get_dx n);
      (if sigismember set sig && sigispending (sigraised d) sig then
         (if bool_decide (psig = 0) then mret tt else ong (user_write psig sig));;
         ong (upd_dx n (fun d => set_sigraised (sigdelpending (sigraised d) sig) d));;
         ong (mark_occurred ev)
       else mret tt);;
      late_sigs l ev set psig
  end.

Definition late_unbounded (ds ev : nat) (x : pth_event_st) : M est unit :=
  l ← get_l;
  if bool_decide (ev_type x = PTH_EVENT_FD) && bool_decide (ds = n) then
    match ev_args x with
    | AFd fd =>
        r ← (if flag (ev_goal x) PTH_UNTIL_FD_READABLE then of_res (FD_ISSET fd (rfds l)) else mret false);
        w ← (if negb r && flag (ev_goal x) PTH_UNTIL_FD_WRITEABLE then of_res (FD_ISSET fd (wfds l)) else mret false);
        e ← (if negb r && negb w && flag (ev_goal x) PTH_UNTIL_FD_EXCEPTION then of_res (FD_ISSET fd (efds l)) else mret false);
        if (r || w || e : bool) then ong (mark_occurred ev) else mret tt
    | _ => fail Undefined
    end
  else if bool_decide (ev_type x = PTH_EVENT_SELECT) then
    match ev_args x with
    | ASelect pn nfd r w e =>
        s ← ong get;
        b ← of_res (pth_util_fds_test nfd r w e (um s) (rfds l, wfds l, efds l));
        if (b : bool) then
          '(k, u) ← of_res (pth_util_fds_select nfd r w e (rfds l, wfds l, efds l) (um s));
          ong (modify (set_um u));;
          (if bool_decide (pn = 0) then mret tt else ong (user_write pn k));;
          ong (mark_occurred ev)
        else mret tt
    | _ => fail Undefined
    end
  else if bool_decide (ev_type x = PTH_EVENT_SIGS) || bool_decide (ev_type x = PTH_EVENT_TIME_SIGS) then
    match ev_args x with
    | ASigs pset psig => set ← ong (user_read pset); late_sigs sigs ev set psig
    | _ => fail Undefined
    end
  else mret tt.

Fixpoint late_ring (fuel ds evh ev : nat) (bounded any : bool) : M est bool :=
  match fuel with
  | O => fail Stuck
  | S fuel =>
      x ← ong (one (get_ev ev));
      (if ev_occurred x then mret tt
       else if bounded then late_bounded ev x else late_unbounded ds ev x);;
      x ← ong (one (get_ev ev));
      let any := any || ev_occurred x in
      nx ← ong (one (ev_link (fun h => get_next h (Some ev))));
      nx ← ong (of_option BadDeref nx);
      if bool_decide (nx = evh) then mret any else late_ring fuel ds evh nx bounded any
  end.

Fixpoint late_threads (fuel rfuel ds : nat) (rq : qid) (bounded : bool) (t : option nat) : M est unit :=
  match fuel with
  | O => fail Stuck
  | S fuel =>
      match t with
      | None => mret tt
      | Some t =>
          xt ← ong (get_x t);
          any ← (match events xt with
                 | None => mret false
                 | Some evh => late_ring rfuel ds evh evh bounded false
                 end);
          th ← ong (onw (get_t t));
          nx ← ong (onq (__pqueue_get_next_node t));
          (if any || cancelreq th then ong (make_ready t rq);; ong (wake_native ds) else mret tt);;
          late_threads fuel rfuel ds rq bounded nx
      end
  end.

(** The result is the index behind the last native that was looked at. *)
Fixpoint late_natives (fuel tfuel rfuel slot : nat) (bounded : bool) : M est nat :=
  match fuel with
  | O => fail Stuck
  | S fuel =>
      d ← ong (onw (get_d slot));
      if negb (is_used d) then mret slot
      else
        match queue_of slot d with
        | None => late_natives fuel tfuel rfuel (S slot) bounded
        | Some rq =>
            upd_l (set_lRQ rq);;
            ong (onq (spin_lock (WaitQ slot)));;
            t ← ong (first_waiting slot);
            late_threads tfuel rfuel slot rq bounded t;;
            ong (onq (spin_unlock (WaitQ slot)));;
            if bounded then mret (S slot) else late_natives fuel tfuel rfuel (S slot) bounded
        end
  end.

Definition clear_flag_of (ev : nat) : M sst unit :=
  one (upd_ev ev (fun x => Event (ev_occurred x) (ev_type x) (ev_goal x) 0 (ev_args x))).

(** How long [select] may wait. *)
Definition poll_delay (dopoll : bool) : M est (option timeval) :=
  l ← get_l;
  if dopoll then
    d ← ong (get_dx n);
    (match nexttimer_thread d, nexttimer_ev l with Some _, Some ev => ong (clear_flag_of ev) | _, _ => mret tt end);;
    mret (Some (Timeval 0 0))
  else
    match nexttimer_ev l with
    | Some _ => tv ← of_res (pth_time_to_timeval clk (pth_time_sub (nexttimer_value l) now)); mret (Some tv)
    | None => mret None
    end.

(** [select] itself; the lock of the scheduler is free meanwhile. *)
Definition do_select (pdelay : option timeval) : M est Z :=
  d ← ong (onw (get_d n));
  ong (onw (upd_d n (fun d => set_sched_lock (_pth_release_lock (tid d) (sched_lock d)).2 d)));;
  l ← get_l;
  s ← ong get;
  let '(rc, (r, w, e), s) := select (SelArg (fdmax l + 1) (rfds l) (wfds l) (efds l) pdelay) s in
  ong (fun _ => Ok (tt, s));;
  upd_l (fun l => set_rfds r (set_wfds w (set_efds e l)));;
  d ← ong (onw (get_d n));
  k ← of_res (_pth_acquire_lock (tid d) (sched_lock d));
  ong (onw (upd_d n (set_sched_lock k)));;
  dd ← ong (get_dx n);
  (if bool_decide (nexttimer_thread dd = None) then upd_l (set_nexttimer_ev None) else mret tt);;
  mret rc.

(** The timer that was waited for; the result tells whether the events have to
    be checked again. *)
Definition timer_elapsed (dopoll : bool) (rc : Z) : M est bool :=
  l ← get_l;
  match nexttimer_ev l with
  | Some ev =>
      if dopoll then mret false
      else if bool_decide (rc = 0) then
        x ← ong (one (get_ev ev));
        if bool_decide (ev_type x = PTH_EVENT_FUNC) then mret true
        else ong (clear_flag_of ev);; ong (mark_occurred ev);; mret false
      else
        d ← ong (get_dx n);
        (if bool_decide (nexttimer_thread d = None) then mret tt else ong (clear_flag_of ev));;
        mret false
  | None => mret false
  end.

(** The part of a round behind the check of the events.  [None]: the function
    returns; otherwise the variable [slot], and whether to check again. *)
Definition after_check (fuel tfuel rfuel : nat) (bounded dopoll : bool) : M est (option (nat * bool)) :=
  pdelay ← poll_delay dopoll;
  l ← get_l;
  r ← of_res (FD_SET (pipe_fd n) (rfds l));
  upd_l (set_rfds r);;
  if m_to_n && dopoll && bool_decide (fdmax l = -1) then mret None
  else
    raise_fdmax (pipe_fd n);;
    s0 ← ong get;
    (if is_group_leader n then
       ong (modify (set_kcaught (Z.lor (kcaught s0) (sigcatch l))));;
       ong (modify (set_kmask (sigs_we_block l)))
     else mret tt);;
    c ← ong (onq (pqueue_total (lRQ l)));
    if bounded && negb (bool_decide (c = 0)) then mret None
    else
      ong (onw (upd_d n (set_is_bound false)));;
      l' ← get_l;
      rc ← (if dopoll && bool_decide (fdmax l' = -1) then mret (-1) else do_select pdelay);
      ong (onw (upd_d n (set_is_bound true)));;
      ong (onw (pipe_drain n));;
      (if is_group_leader n then
         ong (modify (set_kmask (kmask s0)));;
         ong (modify (fun s => set_kcaught (Z.lor (Z.ldiff (kcaught s) (sigcatch l)) (Z.land (kcaught s0) (sigcatch l))) s))
       else mret tt);;
      again ← timer_elapsed dopoll rc;
      l ← get_l;
      hit ← of_res (FD_ISSET (pipe_fd n) (rfds l));
      r ← (if negb dopoll && bool_decide (rc > 0) && hit then of_res (FD_CLR (pipe_fd n) (rfds l)) else mret (rfds l));
      upd_l (set_rfds r);;
      let rc := if negb dopoll && bool_decide (rc > 0) && hit then rc - 1 else rc in
      (if bool_decide (rc <= 0) then upd_l (fun l => set_rfds 0 (set_wfds 0 (set_efds 0 l))) else mret tt);;
      c ← ong (onq (pqueue_total (lRQ l)));
      if bounded && negb (bool_decide (c = 0)) then mret None
      else
        slot ← late_natives fuel tfuel rfuel (if bounded then n else 0%nat) bounded;
        mret (Some (slot, again)).

(** One round; the variable [slot] keeps its value over the rounds, while
    [loop_once] is set in rounds that are not repeated only.  [None]: the
    function returns. *)
Definition event_round (fuel tfuel rfuel slot : nat) (bounded dopoll : bool) : M sst (option (nat * bool)) :=
  read_pending n;;
  upd_dx n (set_sigraised 0);;
  upd_dx n (set_nexttimer_thread None);;
  s ← get;
  let l := Loc 0 0 0 (-1) None 0 (pth_sigblock s) 0 false false (if bounded then ReadyQ n else RQ) in
  c ← onq (pqueue_total RQ);
  if bounded && dopoll then wake_first;; mret None
  else
    let own := negb bounded && m_to_n && dopoll && bool_decide (c > 1) in
    let slot := if bounded || own then n else slot in
    fun s =>
      match (check_natives fuel tfuel rfuel slot bounded dopoll own;;
             l ← get_l;
             after_check fuel tfuel rfuel bounded (dopoll || any_event_occurred l)) (Est s l) with
      | Ok (r, x) => Ok (r, gs x)
      | Err e => Err e
      end.
End eventmanager.

(** ** The scheduler *)

Section scheduler.
Context (PTH_NSIG : Z) (pipe_fd : nat -> Z) (clk : clock) (time_now : sst -> Z).
Context (select : selarg -> sst -> Z * (Z * Z * Z) * sst) (user_func : Z -> Z -> M sst bool).
(** Bounds of the loops over natives, queues and rings of events. *)
Context (nfuel tfuel rfuel : nat).

Fixpoint manager_loop (rounds : nat) (n : nat) (m_to_n bounded : bool) (now : Z) (slot : nat) (dopoll : bool) : M sst Z :=
  match rounds with
  | O => fail Stuck
  | S rounds =>
      r ← event_round PTH_NSIG pipe_fd clk select user_func n m_to_n now nfuel tfuel rfuel slot bounded dopoll;
      match r with
      | Some (slot, true) => s ← get; manager_loop rounds n m_to_n bounded (time_now s) slot dopoll
      | _ => mret now
      end
  end.

(** The result is the time in [*now] afterwards. *)
Definition pth_sched_eventmanager (rounds n : nat) (now : Z) (dopoll : bool) : M sst Z :=
  d ← onw (get_d n);
  manager_loop rounds n (negb (is_group_leader n) && negb (is_bounded d)) (is_bounded d) now 0 dopoll.

(** The handler of the signals that the event manager catches. *)
Definition pth_sched_eventmanager_sighandler (n : nat) (sig : Z) : M sst unit :=
  upd_dx n (fun x => set_sigraised (sigaddpending (sigraised x) sig) x);;
  onw (pipe_write 0);;
  d ← onw (get_d n);
  if bool_decide (tid d = pid d) then mret tt
  else modify (fun s => set_kpending (sigaddset (kpending s) sig) s).

(** New threads are moved to the ready queue. *)
Fixpoint move_new (fuel : nat) (nq rq : qid) : M sst unit :=
  match fuel with
  | O => fail Stuck
  | S fuel =>
      c ← onq (pqueue_total nq);
      if bool_decide (c = 0) then mret tt
      else
        t ← onq (__pqueue_first_node nq);
        t ← of_option BadDeref (thread_by_node t);
        onq (__pqueue_delete_node t);;
        onw (upd_t t (set_state PTH_STATE_READY));;
        onq (pqueue_prepend_second_node rq t);;
        move_new fuel nq rq
  end.

Definition start_new (n : nat) (nq rq : qid) : M sst unit :=
  d ← onw (get_d n);
  if is_bounded d then mret tt
  else onq (spin_lock nq);; move_new tfuel nq rq;; onq (spin_unlock nq).

(** [_pth_acquire_lock(&ds->sched_lock, tid); write(...); _pth_release_lock] *)
Definition wake_locked (ds : nat) (tid : Z) : M sst unit :=
  d ← onw (get_d ds);
  k ← of_res (_pth_acquire_lock tid (sched_lock d));
  onw (upd_d ds (set_sched_lock k));;
  onw (pipe_write ds);;
  d ← onw (get_d ds);
  onw (upd_d ds (set_sched_lock (_pth_release_lock tid (sched_lock d)).2)).

(** The next thread to run on native [n]; every path leaves the loop of the
    source in its first iteration. *)
Definition pick_next (n : nat) (rq : qid) : M sst (option nat) :=
  d ← onw (get_d n);
  onq (spin_lock rq);;
  c ← onq (__pqueue_total rq);
  cur ← (if bool_decide (c > 0) then onq (__pqueue_first_node rq) else mret None);
  match thread_by_node cur with
  | None => onq (spin_unlock rq);; mret None
  | Some t =>
      onq (__pqueue_delete_node t);;
      x ← onw (get_t t);
      match boundnative x with
      | None => onq (spin_unlock rq);; mret (Some t)
      | Some ds =>
          if bool_decide (ds = n) then onq (spin_unlock rq);; mret (Some t)
          else
            (if is_group_leader ds then onq (pqueue_prepend_second_node (ReadyQ ds) t)
             else onq (__pqueue_favor t));;
            onq (spin_unlock rq);;
            wake_locked ds (tid d);;
            mret None
      end
  end.

(** The thread's pending signals are raised, so that they are delivered when
    it runs: [tkill] or [kill]. *)
Fixpoint raise_loop (l : list Z) (cnt : Z) (n : nat) (x : tcb) : M sst unit :=
  match l with
  | [] => mret tt
  | sig :: l =>
      if sigispending (sigpending x) sig then
        d ← get_dx n;
        (if sigismember (d_sigpending d) sig then mret tt
         else modify (fun s => set_kpending (sigaddset (kpending s) sig) s));;
        if bool_decide (cnt = sigpendcnt x) then mret tt else raise_loop l (cnt + 1) n x
      else raise_loop l cnt n x
  end.

Definition raise_signals (n t : nat) (tid : Z) : M sst unit :=
  onw (lock_thread t tid);;
  x ← get_x t;
  (if bool_decide (sigpendcnt x > 0) then read_pending n;; raise_loop (seqZ 1 (PTH_NSIG - 1)) 1 n x else mret tt);;
  onw (unlock_thread t tid).

(** Thread [t] is entered. *)
Definition before_run (n t sched : nat) (snapshot : Z) : M sst unit :=
  d ← onw (get_d n);
  raise_signals n t (tid d);;
  s ← get;
  upd_x t (set_lastran (time_now s));;
  x ← get_x t;
  upd_x sched (fun y => set_running (pth_time_add (running y) (pth_time_sub (lastran x) snapshot)) y);;
  upd_x t (set_lastrannative (tid d));;
  onw (upd_d n (set_current (Some t)));;
  onw (upd_d n (fun d => set_sched_lock (_pth_release_lock (tid d) (sched_lock d)).2 d)).

(** The signals that were not delivered are taken back. *)
Fixpoint take_back_loop (l : list Z) (n t : nat) (still : Z) : M sst unit :=
  match l with
  | [] => mret tt
  | sig :: l =>
      x ← get_x t;
      d ← get_dx n;
      if negb (bool_decide (sigthread x = Some t)) && sigispending (sigpending x) sig then
        if negb (sigismember still sig) then
          upd_x t (set_sigpending (sigdelpending (sigpending x) sig));;
          upd_x t (set_sigpendcnt (swrap 32 (sigpendcnt x - 1)));;
          if bool_decide (sigpendcnt x = 0) then mret tt else take_back_loop l n t still
        else
          (if sigismember (d_sigpending d) sig then mret tt else pth_util_sigdelete sig;; mret tt);;
          take_back_loop l n t still
      else take_back_loop l n t still
  end.

Definition take_back_signals (n t : nat) (tid : Z) : M sst unit :=
  onw (lock_thread t tid);;
  x ← get_x t;
  s ← get;
  (if bool_decide (sigpendcnt x > 0) then take_back_loop (seqZ 1 (PTH_NSIG - 1)) n t (kpending s) else mret tt);;
  onw (unlock_thread t tid).

Definition SIGSEGV : Z := 11.

(** The guard word at the end of the stack was overwritten: the process is
    killed, or the thread is terminated if SIGSEGV is handled. *)
Definition check_stack (t : nat) (segv_handled : bool) : M sst unit :=
  x ← get_x t;
  match stackguard x with
  | Some false =>
      if negb segv_handled then fail Aborted
      else
        onw (upd_t t (set_join_arg 57005));;
        onw (upd_t t (set_state PTH_STATE_EXIT));;
        modify (fun s => set_kpending (sigaddset (kpending s) SIGSEGV) s)
  | _ => mret tt
  end.

(** A thread that has ended: it is freed, or moved to the queue of dead
    threads, and who waits for it is woken.  The result: whether the scheduler
    continues with its next iteration at once. *)
Definition bury (destroy : last_call -> nat -> M sst unit) (n t : nat) (rq : qid) : M sst bool :=
  x ← onw (get_t t);
  if bool_decide (joinable x = 0) then pth_tcb_free destroy (Some t);; mret false
  else
    d ← onw (get_d n);
    onq (spin_lock DQ);;
    onq (__pqueue_append_node DQ t);;
    onw (upd_t t (set_state PTH_STATE_DEAD));;
    woken ← (match joined_native x with
             | Some jn => onw (pipe_write jn);; mret false
             | None =>
                 match joined_thread x with
                 | Some u =>
                     if is_bounded d then mret false
                     else
                       y ← onw (get_t u);
                       match waited_native y with
                       | Some ds => onw (wait_to_ready ds u rq (mret tt))
                       | None => mret false
                       end
                 | None => mret false
                 end
             end);
    onq (spin_unlock DQ);;
    mret woken.

(** The first unbounded native but the first, if there is one. *)
Fixpoint find_unbounded (fuel i : nat) (total : Z) : M sst nat :=
  match fuel with
  | O => fail Stuck
  | S fuel =>
      if bool_decide (Z.of_nat i < total) then
        d ← onw (get_d i);
        if is_bounded d then find_unbounded fuel (S i) total else mret i
      else mret i
  end.

(** A thread that waits for events. *)
Definition put_waiting (n t : nat) : M sst unit :=
  x ← onw (get_t t);
  d ← onw (get_d n);
  s ← get;
  if bool_decide (boundnative x = Some 0%nat) && negb (is_group_leader n) then
    if bool_decide (pth_exit_count s > 0) then
      onq (pqueue_append_node (ReadyQ 0) t);;
      wake_locked 0 (tid d)
    else
      onq (spin_lock (WaitQ 0));;
      onq (__pqueue_append_node (WaitQ 0) t);;
      onw (upd_t t (set_waited_native (Some 0%nat)));;
      onq (spin_unlock (WaitQ 0))
  else if is_group_leader n && is_bounded d then
    ds ← find_unbounded nfuel 1 (pth_number_of_natives (wo s));
    onw (upd_d n (set_is_bounded false));;
    onq (pqueue_append_node RQ t);;
    e ← onw (get_d ds);
    if is_used e then onw (pipe_write ds) else mret tt
  else
    onq (spin_lock (WaitQ n));;
    onq (__pqueue_append_node (WaitQ n) t);;
    onw (upd_t t (set_waited_native (Some n)));;
    onq (spin_unlock (WaitQ n)).

(** Where the thread that ran goes.  The result is the number of ready
    threads, or [None] when the scheduler continues at once. *)
Definition after_thread (destroy : last_call -> nat -> M sst unit) (n t : nat) (rq : qid) : M sst (option Z) :=
  x ← onw (get_t t);
  '(cur, again) ← (if bool_decide (state x = PTH_STATE_DEAD) then mret (None, false)
                   else if bool_decide (state x = PTH_STATE_EXIT) then again ← bury destroy n t rq; mret (None, again)
                   else mret (Some t, false));
  if (again : bool) then mret None
  else
    (match cur with
     | Some t =>
         x ← onw (get_t t);
         if should_suspend x then onw (upd_t t (set_should_suspend false));; onq (pqueue_append_node SQ t) else mret tt
     | None => mret tt
     end);;
    cur ← (match cur with
           | Some t =>
               x ← onw (get_t t);
               if bool_decide (state x = PTH_STATE_WAITING) then put_waiting n t;; mret None else mret (Some t)
           | None => mret None
           end);
    onq (spin_lock rq);;
    (match cur with Some t => onq (__pqueue_append_node rq t) | None => mret tt end);;
    c ← onq (pqueue_total rq);
    onq (spin_unlock rq);;
    mret (Some c).

(** Whether the event manager is entered, and how; the result is [snapshot]. *)
Definition manage_events (rounds n : nat) (nq : qid) (rq_elements : Z) : M sst Z :=
  s ← get;
  let now := time_now s in
  c ← onq (pqueue_total nq);
  d ← onw (get_d n);
  if bool_decide (rq_elements = 0) && bool_decide (c = 0) then pth_sched_eventmanager rounds n now false
  else if bool_decide (rq_elements = 1) || do_yield d then
    onw (upd_d n (set_do_yield false));; pth_sched_eventmanager rounds n now true
  else mret now.

(** One iteration of the endless loop, for native [n] with scheduler thread
    [sched]; [run t] is what happens from the switch to thread [t] until it
    comes back.  The result: the queues and the time for the next iteration,
    [None] when the scheduler exits. *)
Definition sched_iteration (destroy : last_call -> nat -> M sst unit) (run : nat -> M sst unit) (segv_handled : bool) (rounds n sched : nat)
    (nq rq : qid) (snapshot : Z) : M sst (option (qid * qid * Z)) :=
  start_new n nq rq;;
  cur ← pick_next n rq;
  match cur with
  | None =>
      now ← manage_events rounds n nq 0;
      mret (Some (nq, rq, now))
  | Some t =>
      before_run n t sched snapshot;;
      run t;;
      onw (upd_d n (set_current (Some sched)));;
      d ← onw (get_d n);
      if negb (is_running d) then pth_tcb_free destroy (Some sched);; mret None
      else
        s ← get;
        let snapshot := time_now s in
        x ← get_x t;
        upd_x t (fun y => set_running (pth_time_add (running y) (pth_time_sub snapshot (lastran x))) y);;
        take_back_signals n t (tid d);;
        check_stack t segv_handled;;
        d ← onw (get_d n);
        let nq := if is_bounded d then NewQ n else nq in
        let rq := if is_bounded d then ReadyQ n else rq in
        r ← after_thread destroy n t rq;
        match r with
        | None => mret (Some (nq, rq, snapshot))
        | Some c => now ← manage_events rounds n nq c; mret (Some (nq, rq, now))
        end
  end.

(** The queues a scheduler starts with. *)
Definition sched_queues (n : nat) : M sst (qid * qid) :=
  d ← onw (get_d n);
  mret (if is_bounded d || is_group_leader n then (NewQ n, ReadyQ n) else (NQ, RQ)).
End scheduler.
