(* ===== verification/SchedProofs.v ===== *)
(** * The scheduler: which thread runs next, and where it goes afterwards

    Theorems about pth_sched.c (see Sched): the start of new threads, the
    choice of the next thread, and what happens to a thread that comes back. *)

From S2P Require Import Prelude Bitmap Dll LinkedList Ring Priorities Msg PQueue Futex World Event Time Util Sched.
From S2P Require Import MutexProofs Wake.

(** ** Rules for the queues

    [qview m Q L]: the queue memory holds the lists [Q], and its locks have the
    values [L]. *)

Record qview (m : qmem) (Q : gmap qid contents) (L : qid -> Z) : Prop := {
  qv_inv : pq_inv m Q;
  qv_lock : forall q, is_Some (Q !! q) -> lock_word m q = Some (L q);
  qv_size : Z.of_nat (size (nodes m)) < 2 ^ 32 }.

Definition upd_lock (L : qid -> Z) (q : qid) (v : Z) : qid -> Z := fun q' => if decide (q' = q) then v else L q'.

Lemma upd_lock_eq L q v : upd_lock L q v q = v.
Proof. unfold upd_lock. by rewrite decide_True. Qed.
Lemma upd_lock_ne L q v q' : q' <> q -> upd_lock L q v q' = L q'.
Proof. intros. unfold upd_lock. by rewrite decide_False. Qed.

Section queue_rules.
Context (m : qmem) (Q : gmap qid contents) (L : qid -> Z) (Hv : qview m Q L).
Implicit Types (q : qid) (Ls : contents) (t p : nat).

Lemma relocked_view q v m' : is_Some (Q !! q) -> pq_inv m' Q -> relocked q v m m' -> qview m' Q (upd_lock L q v).
Proof.
  intros Hq Hi (Hn & Hl & Ho). destruct Hv as [_ Hlk Hs]. split; [done| |by rewrite Hn].
  intros q' Hq'. unfold upd_lock. case_decide as E; [by subst|]. rewrite Ho by done. auto.
Qed.

Lemma wq_lock q (R : unit -> qmem -> Prop) : is_Some (Q !! q) -> L q = 0 ->
  (forall m', qview m' Q (upd_lock L q 1) -> nodes m' = nodes m -> R tt m') -> wp (spin_lock q) R m.
Proof.
  intros Hq H0 HR. destruct (spin_lock_spec m Q q (qv_inv _ _ _ Hv)) as (m' & E & Hi & Hr).
  { rewrite (qv_lock _ _ _ Hv) by done. by rewrite H0. }
  eapply wp_run; [exact E|]. apply HR; [by apply relocked_view|apply Hr].
Qed.

Lemma wq_unlock q (R : unit -> qmem -> Prop) : is_Some (Q !! q) ->
  (forall m', qview m' Q (upd_lock L q 0) -> nodes m' = nodes m -> R tt m') -> wp (spin_unlock q) R m.
Proof.
  intros Hq HR. destruct (spin_unlock_spec m Q q (L q) (qv_inv _ _ _ Hv)) as (m' & E & Hi & Hr).
  { by apply (qv_lock _ _ _ Hv). }
  eapply wp_run; [exact E|]. apply HR; [by apply relocked_view|apply Hr].
Qed.

Lemma view_size q Ls : Q !! q = Some Ls -> Z.of_nat (length (concat Ls)) < 2 ^ 32.
Proof. intros HQ. destruct Hv as [Hi _ Hs]. pose proof (queue_size _ _ _ _ Hi HQ). lia. Qed.

Lemma wq_total q Ls (R : Z -> qmem -> Prop) : Q !! q = Some Ls ->
  R (Z.of_nat (length (concat Ls))) m -> wp (__pqueue_total q) R m.
Proof.
  intros HQ HR. destruct (inv_queue _ _ (qv_inv _ _ _ Hv) _ _ HQ) as (x & Hx & _ & _ & _ & Ht).
  rewrite wrap_small in Ht by (split; [lia|by eapply view_size]).
  unfold __pqueue_total. apply wp_bind. eapply wp_run; [by apply get_queue_run|]. by rewrite Ht.
Qed.

Lemma wq_first q Ls (R : option nat -> qmem -> Prop) : Q !! q = Some Ls ->
  R (head (order Ls)) m -> wp (__pqueue_first_node q) R m.
Proof.
  intros HQ HR. eapply wp_run; [|exact HR].
  eapply __pqueue_first_node_spec; [apply Hv|done|by eapply view_size].
Qed.

Lemma wq_next q Ls p l1 t l2 (R : option nat -> qmem -> Prop) : Q !! q = Some Ls -> Ls !! p = Some (l1 ++ t :: l2) ->
  R (head (l2 ++ order (take p Ls))) m -> wp (__pqueue_get_next_node t) R m.
Proof. intros HQ HL HR. eapply wp_run; [|exact HR]. eapply __pqueue_get_next_node_spec; [apply Hv|done|done]. Qed.

(** The nodes and locks after a change of one node. *)
Lemma node_view m' Q' t n n' : pq_inv m' Q' -> (forall q, is_Some (Q' !! q) -> is_Some (Q !! q)) ->
  nodes m !! t = Some n -> nodes m' = <[t := n']> (nodes m) -> same_locks m m' -> qview m' Q' L.
Proof.
  intros Hi Hd Hn Hn' Hs. split; [done| |].
  - intros q Hq. unfold lock_word. rewrite Hs. by apply (qv_lock _ _ _ Hv), Hd.
  - rewrite Hn', map_size_insert_Some by done. apply Hv.
Qed.

Lemma view_member q Ls p l t : Q !! q = Some Ls -> Ls !! p = Some l -> t ∈ l ->
  nodes m !! t = Some (Node (Some q) (Z.of_nat p) node_lt_pqueue).
Proof. intros HQ HL Ht. apply (inv_member _ _ (qv_inv _ _ _ Hv)). by exists Ls, l. Qed.

Lemma is_Some_insert_queue q (Ls : contents) q' : is_Some (Q !! q) -> is_Some (<[q := Ls]> Q !! q') -> is_Some (Q !! q').
Proof. intros Hq. rewrite lookup_insert. case_decide; [by subst|done]. Qed.

Lemma wq_delete q Ls p l1 t l2 (R : unit -> qmem -> Prop) : Q !! q = Some Ls -> Ls !! p = Some (l1 ++ t :: l2) ->
  (forall m', qview m' (<[q := <[p := l1 ++ l2]> Ls]> Q) L ->
     nodes m' = <[t := Node None (Z.of_nat p) node_lt_nowhere]> (nodes m) -> R tt m') ->
  wp (__pqueue_delete_node t) R m.
Proof.
  intros HQ HL HR. destruct (__pqueue_delete_node_spec _ _ _ _ _ _ _ _ (qv_inv _ _ _ Hv) HQ HL) as (m' & E & Hi & Hn & Hs).
  assert (nodes m !! t = Some (Node (Some q) (Z.of_nat p) node_lt_pqueue)) as Ht
    by (eapply view_member; [exact HQ|exact HL|set_solver]).
  eapply wp_run; [exact E|]. apply HR; [|done]. eapply node_view; [done| |exact Ht|done|done].
  intros q' Hq'. eapply is_Some_insert_queue; [by eexists|done].
Qed.

(** The three places of insertion. *)
Lemma wq_enter ins place q Ls p l t n (R : unit -> qmem -> Prop) :
  links_in ins place -> (forall l t, place l t ≡ₚ t :: l) ->
  Q !! q = Some Ls -> Ls !! p = Some l -> nodes m !! t = Some n -> free_node n -> priority n = Z.of_nat p ->
  (forall m', qview m' (<[q := <[p := place l t]> Ls]> Q) L ->
     nodes m' = <[t := Node (Some q) (Z.of_nat p) node_lt_pqueue]> (nodes m) -> R tt m') ->
  wp (pqueue_enter ins q t) R m.
Proof.
  intros Hins Hpl HQ HL Hn Hf Hp HR.
  destruct (pqueue_enter_spec ins place _ _ _ _ _ _ _ _ Hins Hpl (qv_inv _ _ _ Hv) HQ Hn Hf Hp HL) as (m' & E & Hi & Hn' & Hs).
  eapply wp_run; [exact E|]. apply HR; [|by rewrite Hn', Hp]. eapply node_view; [done| |done|done|done].
  intros q' Hq'. eapply is_Some_insert_queue; [by eexists|done].
Qed.
End queue_rules.

Lemma qview_ext m Q L L' : qview m Q L -> (forall q, is_Some (Q !! q) -> L' q = L q) -> qview m Q L'.
Proof. intros [H1 H2 H3] HL. split; [done| |done]. intros q Hq. rewrite HL by done. auto. Qed.

Lemma wq_locked {A} m Q L q (c : M qmem A) (R : A -> qmem -> Prop) :
  qview m Q L -> is_Some (Q !! q) -> L q = 0 ->
  (forall m1, qview m1 Q (upd_lock L q 1) -> nodes m1 = nodes m ->
     wp c (fun a m2 => exists Q', qview m2 Q' (upd_lock L q 1) /\ is_Some (Q' !! q) /\
             forall m3, qview m3 Q' L -> nodes m3 = nodes m2 -> R a m3) m1) ->
  wp (locked q c) R m.
Proof.
  intros Hv Hq H0 Hc. unfold locked. apply wp_bind. eapply wq_lock; [done|done|done|]. intros m1 Hv1 Hn1.
  apply wp_bind. eapply wp_mono; [by apply Hc|]. intros a m2 (Q' & Hv2 & Hq2 & HR).
  apply wp_bind. eapply wq_unlock; [done|done|]. intros m3 Hv3 Hn3. apply wp_ret, HR; [|done].
  eapply qview_ext; [exact Hv3|]. intros q' _. unfold upd_lock. by repeat case_decide; subst.
Qed.

(** [pqueue_append_node] and [pqueue_prepend_second_node], with the lock. *)
Lemma wq_enter_locked ins place m Q L q Ls p l t n (R : unit -> qmem -> Prop) :
  links_in ins place -> (forall l t, place l t ≡ₚ t :: l) -> qview m Q L -> L q = 0 ->
  Q !! q = Some Ls -> Ls !! p = Some l -> nodes m !! t = Some n -> free_node n -> priority n = Z.of_nat p ->
  (forall m', qview m' (<[q := <[p := place l t]> Ls]> Q) L ->
     nodes m' = <[t := Node (Some q) (Z.of_nat p) node_lt_pqueue]> (nodes m) -> R tt m') ->
  wp (locked q (pqueue_enter ins q t)) R m.
Proof.
  intros Hins Hpl Hv H0 HQ HL Hn Hf Hp HR. eapply wq_locked; [done|by eexists|done|]. intros m1 Hv1 Hn1.
  eapply (wq_enter m1 _ _ Hv1 ins place); [done|done|done|done|by rewrite Hn1|done|done|]. intros m2 Hv2 Hn2.
  eexists. split; [exact Hv2|]. split; [rewrite lookup_insert_eq; by eexists|]. intros m3 Hv3 Hn3.
  apply HR; [done|]. by rewrite Hn3, Hn2, Hn1.
Qed.

(** The first thread of the walk is the first of the highest non-empty list. *)
Lemma order_first (Ls : contents) t rest : order Ls = t :: rest ->
  exists p l, Ls !! p = Some (t :: l) /\ (forall i, (p < i)%nat -> nonempty_at Ls i = false) /\
    order (<[p := l]> Ls) = rest.
Proof.
  induction Ls as [|l Ls IH] using rev_ind; [done|]. intros E.
  unfold order in E. rewrite reverse_app in E. cbn [reverse rev_append app concat] in E.
  destruct l as [|a l]; simpl in E.
  - destruct (IH E) as (p & l & HL & Hhi & Ho). exists p, l.
    pose proof (lookup_lt_Some _ _ _ HL) as Hlt. split; [by rewrite lookup_app_l|]. split.
    + intros i Hi. specialize (Hhi i Hi). unfold nonempty_at in *.
      destruct (decide (i < length Ls)%nat) as [Hl|Hl]; [by rewrite lookup_app_l|].
      rewrite lookup_app_r by lia. destruct (i - length Ls)%nat; [done|by simpl].
    + rewrite insert_app_l by done. unfold order in *. by rewrite reverse_app.
  - injection E as -> <-. exists (length Ls), l.
    split; [by rewrite lookup_app_r, Nat.sub_diag by lia|]. split.
    + intros i Hi. unfold nonempty_at. rewrite lookup_ge_None_2; [done|]. rewrite length_app. simpl. lia.
    + replace (length Ls) with (length Ls + 0)%nat by lia. rewrite insert_app_r.
      unfold order. by rewrite reverse_app.
Qed.

(** ** Lifting *)

Definition put_qm (m : qmem) (s : sst) : sst := set_wo (set_qm m (wo s)) s.
Definition put_threads (h : gmap nat pth_st) (s : sst) : sst := set_wo (set_threads h (wo s)) s.

Section lift.
Context {A : Type} (s : sst).

Lemma wp_onw (c : M world A) (R : A -> sst -> Prop) : wp c (fun a w => R a (set_wo w s)) (wo s) -> wp (onw c) R s.
Proof. apply wp_zoom. Qed.
Lemma wp_onq (c : M qmem A) (R : A -> sst -> Prop) : wp c (fun a m => R a (put_qm m s)) (qm (wo s)) -> wp (onq c) R s.
Proof. intros H. apply wp_onw. by apply wp_zoom. Qed.
Lemma wp_one (c : M emem A) (R : A -> sst -> Prop) : wp c (fun a m => R a (set_evs m s)) (evs s) -> wp (one c) R s.
Proof. apply wp_zoom. Qed.
End lift.

Section access.
Context (s : sst).
Lemma set_wo_id : set_wo (wo s) s = s.
Proof. by destruct s. Qed.
Lemma wp_get_t t y (R : pth_st -> sst -> Prop) : threads (wo s) !! t = Some y -> R y s -> wp (onw (get_t t)) R s.
Proof. intros Hy HR. apply wp_onw. eapply wp_run; [by apply get_t_run|]. by rewrite set_wo_id. Qed.
Lemma wp_get_d n d (R : pth_descr_st -> sst -> Prop) : natives (wo s) !! n = Some d -> R d s -> wp (onw (get_d n)) R s.
Proof. intros Hd HR. apply wp_onw. eapply wp_run; [by apply get_d_run|]. by rewrite set_wo_id. Qed.
Lemma wp_upd_t t y f (R : unit -> sst -> Prop) : threads (wo s) !! t = Some y ->
  R tt (put_threads (<[t := f y]> (threads (wo s))) s) -> wp (onw (upd_t t f)) R s.
Proof. intros Hy HR. apply wp_onw. eapply wp_run; [by apply upd_t_run|]. done. Qed.
Lemma wp_upd_d n d f (R : unit -> sst -> Prop) : natives (wo s) !! n = Some d ->
  R tt (set_wo (set_natives (<[n := f d]> (natives (wo s))) (wo s)) s) -> wp (onw (upd_d n f)) R s.
Proof. intros Hd HR. apply wp_onw. eapply wp_run; [by apply upd_d_run|]. done. Qed.
End access.

(** ** The choice of the next thread *)

Lemma put_qm_put m m' s : put_qm m' (put_qm m s) = put_qm m' s.
Proof. done. Qed.

Section pick.
Context (s : sst) (n : nat) (d : pth_descr_st) (rq : qid) (Q : gmap qid contents) (L : qid -> Z) (Ls : contents).
Context (Hv : qview (qm (wo s)) Q L) (HQ : Q !! rq = Some Ls) (HL : L rq = 0) (Hn : natives (wo s) !! n = Some d).

(** The beginning that all cases share: the first thread of the queue is taken
    out of it. *)
Lemma pick_taken t rest y (R : option nat -> sst -> Prop) :
  order Ls = t :: rest -> threads (wo s) !! t = Some y ->
  (forall p l m', Ls !! p = Some (t :: l) -> (forall i, (p < i)%nat -> nonempty_at Ls i = false) ->
     order (<[p := l]> Ls) = rest ->
     qview m' (<[rq := <[p := l]> Ls]> Q) (upd_lock L rq 1) ->
     nodes m' = <[t := Node None (Z.of_nat p) node_lt_nowhere]> (nodes (qm (wo s))) ->
     wp (match boundnative y with
         | None => onq (spin_unlock rq);; mret (Some t)
         | Some ds =>
             if bool_decide (ds = n) then onq (spin_unlock rq);; mret (Some t)
             else
               (if is_group_leader ds then onq (pqueue_prepend_second_node (ReadyQ ds) t)
                else onq (__pqueue_favor t));;
               onq (spin_unlock rq);;
               wake_locked ds (tid d);;
               mret None
         end) R (put_qm m' s)) ->
  wp (pick_next n rq) R s.
Proof.
  intros Ho Hy HR. destruct (order_first Ls t rest Ho) as (p & l & Hp & Hhi & Hr).
  unfold pick_next. apply wp_bind. eapply wp_get_d; [done|]. apply wp_bind, wp_onq.
  eapply wq_lock; [done|by eexists|done|]. intros m1 Hv1 Hn1. apply wp_bind, wp_onq.
  eapply wq_total; [done|done|]. rewrite put_qm_put.
  assert (length (concat Ls) = S (length rest)) as Hlen by (rewrite <- order_length, Ho; done).
  rewrite bool_decide_eq_true_2 by lia. apply wp_bind, wp_onq. eapply wq_first; [done|done|].
  rewrite Ho. cbn [head thread_by_node]. apply wp_bind, wp_onq.
  eapply (wq_delete m1 Q _ Hv1 rq Ls p []); [done|done|]. intros m2 Hv2 Hn2. rewrite !put_qm_put.
  apply wp_bind. eapply wp_get_t; [done|]. apply (HR p l); try done. by rewrite Hn2, Hn1.
Qed.

(** C5: if the first thread of the highest priority at which a thread is ready
    is bound to no native or to this one, the scheduler runs it; the thread
    leaves the ready queue, the others stay there in their order, and the
    queue is unlocked.  A first thread that is bound to another native is not
    run: [pick_next_loses_bound] below. *)
Theorem pick_next_highest t rest y :
  order Ls = t :: rest -> threads (wo s) !! t = Some y ->
  boundnative y = None \/ boundnative y = Some n ->
  exists p l m', pick_next n rq s = Ok (Some t, put_qm m' s) /\
    Ls !! p = Some (t :: l) /\ (forall i, (p < i)%nat -> nonempty_at Ls i = false) /\
    order (<[p := l]> Ls) = rest /\ qview m' (<[rq := <[p := l]> Ls]> Q) L.
Proof.
  intros Ho Hy Hb.
  assert (wp (pick_next n rq) (fun r s' => exists p l m', r = Some t /\ s' = put_qm m' s /\
    Ls !! p = Some (t :: l) /\ (forall i, (p < i)%nat -> nonempty_at Ls i = false) /\
    order (<[p := l]> Ls) = rest /\ qview m' (<[rq := <[p := l]> Ls]> Q) L) s) as Hwp.
  { eapply pick_taken; [done|done|]. intros p l m1 Hp Hhi Hr Hv1 _.
    assert (wp (onq (spin_unlock rq);; mret (Some t)) (fun r s' => exists p l m', r = Some t /\ s' = put_qm m' s /\
      Ls !! p = Some (t :: l) /\ (forall i, (p < i)%nat -> nonempty_at Ls i = false) /\
      order (<[p := l]> Ls) = rest /\ qview m' (<[rq := <[p := l]> Ls]> Q) L) (put_qm m1 s)) as H.
    { apply wp_bind, wp_onq. eapply wq_unlock; [done|by rewrite lookup_insert_eq|]. intros m2 Hv2 _.
      apply wp_ret. exists p, l, m2. split_and!; try done. eapply qview_ext; [exact Hv2|].
      intros q _. unfold upd_lock. by repeat case_decide; subst. }
    destruct Hb as [-> | ->]; [exact H|]. by rewrite bool_decide_eq_true_2. }
  apply wp_elim in Hwp as (r & s' & E & p & l & m' & -> & -> & ?). by exists p, l, m'.
Qed.

Lemma favor_free m t x : nodes m !! t = Some x -> bp x = None -> __pqueue_favor t m = Ok (tt, m).
Proof.
  intros Hx Hb. unfold __pqueue_favor, get_node. rewrite (bind_run _ _ m x m), Hb; [done|].
  rewrite (bind_run get _ _ _ _ eq_refl). by rewrite Hx.
Qed.

Lemma list_insert_at {A} (l : list A) i x y : l !! i = Some x -> <[i := y]> l !! i = Some y.
Proof. intros H. apply list_lookup_insert_eq. by eapply lookup_lt_Some. Qed.

(** A native whose lock is free is woken. *)
Lemma wp_wake_locked s1 ds e tid' (R : unit -> sst -> Prop) :
  natives (wo s1) !! ds = Some e -> sched_lock e = qlock_free ->
  (forall s2, threads (wo s2) = threads (wo s1) -> qm (wo s2) = qm (wo s1) -> tx s2 = tx s1 -> evs s2 = evs s1 -> R tt s2) ->
  wp (wake_locked ds tid') R s1.
Proof.
  intros He Hl HR. unfold wake_locked. apply wp_bind. eapply wp_get_d; [done|]. apply wp_bind. rewrite Hl.
  assert (exists k, _pth_acquire_lock tid' qlock_free = Ok k) as (k & Ek).
  { unfold _pth_acquire_lock, raw_lock. case_bool_decide; eexists; reflexivity. }
  eapply wp_of_res; [exact Ek|]. apply wp_bind. eapply wp_upd_d; [done|]. apply wp_bind, wp_onw.
  assert (forall x, <[ds := x]> (natives (wo s1)) !! ds = Some x) as Hat by (intros; by eapply list_insert_at).
  eapply wp_run; [eapply upd_d_run; apply Hat|]. cbn. rewrite list_insert_insert_eq.
  apply wp_bind. eapply wp_get_d; [apply Hat|]. eapply wp_upd_d; [apply Hat|]. by apply HR.
Qed.

(** a ready thread that is bound to another native than this one, and not
    to the first one, is lost: the scheduler takes it from the ready queue,
    wakes the other native, and the thread is in no queue any more
    ([__pqueue_favor] does nothing to a thread that is in no queue). *)
Theorem pick_next_loses_bound t rest y ds e :
  order Ls = t :: rest -> threads (wo s) !! t = Some y -> boundnative y = Some ds -> ds <> n -> ds <> 0%nat ->
  natives (wo s) !! ds = Some e -> sched_lock e = qlock_free ->
  exists s' Q', pick_next n rq s = Ok (None, s') /\ qview (qm (wo s')) Q' L /\ free_in Q' t /\
    threads (wo s') !! t = Some y.
Proof.
  intros Ho Hy Hb Hne H0 He Hlk.
  assert (wp (pick_next n rq) (fun r s' => r = None /\ exists Q', qview (qm (wo s')) Q' L /\ free_in Q' t /\
    threads (wo s') !! t = Some y) s) as Hwp.
  { eapply pick_taken; [done|done|]. intros p l m1 Hp Hhi Hr Hv1 Hn1. rewrite Hb.
    rewrite bool_decide_eq_false_2 by done. unfold is_group_leader. rewrite bool_decide_eq_false_2 by done.
    apply wp_bind, wp_onq. assert (nodes m1 !! t = Some (Node None (Z.of_nat p) node_lt_nowhere)) as Ht
      by (rewrite Hn1; apply lookup_insert_eq).
    eapply wp_run; [by eapply favor_free|]. apply wp_bind, wp_onq.
    eapply wq_unlock; [done|by rewrite lookup_insert_eq|]. intros m2 Hv2 Hn2. rewrite !put_qm_put.
    apply wp_bind. eapply (wp_wake_locked _ ds e); [done|done|]. intros s2 Et Eq _ _. apply wp_ret. split; [done|].
    exists (<[rq := <[p := l]> Ls]> Q). rewrite Et, Eq. split_and!; [|intros q p'|done].
    - eapply qview_ext; [exact Hv2|]. intros q _. unfold upd_lock. by repeat case_decide; subst.
    - eapply free_not_member; [apply Hv1|exact Ht|done]. }
  apply wp_elim in Hwp as (r & s' & E & -> & Q' & H1 & H2 & H3). by exists s', Q'.
Qed.
End pick.

(** ** Where a thread goes that comes back *)

(** Appending a thread that is in no queue ([fr]), or that is in one already
    and is left there. *)
Definition appended (fr : bool) (Q : gmap qid contents) (q : qid) (Ls : contents) (p : nat) (l : list nat) (t : nat) :
    gmap qid contents := if fr then <[q := <[p := l ++ [t]]> Ls]> Q else Q.

Definition node_state (fr : bool) (p : nat) (x : node_st) : Prop :=
  if fr then free_node x /\ priority x = Z.of_nat p else node_lt x <> node_lt_nowhere.

Section append.
Context (fr : bool) (m : qmem) (Q : gmap qid contents) (L : qid -> Z) (q : qid) (Ls : contents) (p : nat) (l : list nat) (t : nat).
Context (x : node_st) (Hv : qview m Q L) (HQ : Q !! q = Some Ls) (HL : Ls !! p = Some l).
Context (Hx : nodes m !! t = Some x) (Hst : node_state fr p x).

Lemma wq_append (R : unit -> qmem -> Prop) :
  (forall m' x', qview m' (appended fr Q q Ls p l t) L -> nodes m' !! t = Some x' -> node_lt x' <> node_lt_nowhere -> R tt m') ->
  wp (__pqueue_append_node q t) R m.
Proof.
  intros HR. destruct fr.
  - destruct Hst as [Hf Hp]. eapply (wq_enter m Q L Hv _ _ q); [apply __pqueue_insert_tail_links|apply place_tail_perm|done..|].
    intros m' Hv' Hn'. eapply HR; [exact Hv'|rewrite Hn'; apply lookup_insert_eq|done].
  - eapply wp_run; [by eapply pqueue_enter_refused|]. by eapply HR.
Qed.

Lemma wq_append_locked (R : unit -> qmem -> Prop) : L q = 0 ->
  (forall m' x', qview m' (appended fr Q q Ls p l t) L -> nodes m' !! t = Some x' -> node_lt x' <> node_lt_nowhere -> R tt m') ->
  wp (pqueue_append_node q t) R m.
Proof.
  intros H0 HR. unfold pqueue_append_node. destruct fr.
  - destruct Hst as [Hf Hp]. eapply wq_enter_locked; [apply __pqueue_insert_tail_links|apply place_tail_perm|done..|].
    intros m' Hv' Hn'. eapply HR; [exact Hv'|rewrite Hn'; apply lookup_insert_eq|done].
  - eapply wq_locked; [done|by eexists|done|]. intros m1 Hv1 Hn1. eapply wp_run; [eapply pqueue_enter_refused; [by rewrite Hn1|done]|].
    exists Q. split_and!; [done|by eexists|]. intros m3 Hv3 Hn3. eapply HR; [done|rewrite Hn3, Hn1; exact Hx|done].
Qed.
End append.

Lemma appended_lookup fr Q q Ls p l t q' : is_Some (Q !! q) -> is_Some (Q !! q') -> is_Some (appended fr Q q Ls p l t !! q').
Proof.
  intros H1 H2. unfold appended. destruct fr; [|done]. rewrite lookup_insert. case_decide; [by eexists|done].
Qed.

(** The native in whose wait queue a thread waits that ran on native [n]. *)
Definition wait_native (n : nat) (y : pth_st) : nat :=
  if bool_decide (boundnative y = Some 0%nat) then 0%nat else n.

Lemma upd_lock_back L q v w : L q = v -> forall q', upd_lock (upd_lock L q w) q v q' = L q'.
Proof. intros H q'. unfold upd_lock. by repeat case_decide; subst. Qed.

Section places.
Context (nfuel : nat) (fr : bool) (s : sst) (n t : nat) (d : pth_descr_st) (y : pth_st).
Context (Q : gmap qid contents) (L : qid -> Z) (p : nat) (x : node_st).
Context (Hv : qview (qm (wo s)) Q L) (Hn : natives (wo s) !! n = Some d) (Hy : threads (wo s) !! t = Some y).
Context (Hx : nodes (qm (wo s)) !! t = Some x) (Hst : node_state fr p x).
Context (Hexit : pth_exit_count s <= 0) (Hlead : n = 0%nat -> is_bounded d = false).

Lemma wp_put_waiting Ls l (R : unit -> sst -> Prop) :
  Q !! WaitQ (wait_native n y) = Some Ls -> Ls !! p = Some l -> L (WaitQ (wait_native n y)) = 0 ->
  (forall m' x', qview m' (appended fr Q (WaitQ (wait_native n y)) Ls p l t) L -> nodes m' !! t = Some x' ->
     node_lt x' <> node_lt_nowhere ->
     R tt (put_qm m' (put_threads (<[t := set_waited_native (Some (wait_native n y)) y]> (threads (wo s))) s))) ->
  wp (put_waiting nfuel n t) R s.
Proof.
  intros HQ Hp H0 HR. unfold put_waiting. apply wp_bind. eapply wp_get_t; [done|]. apply wp_bind.
  eapply wp_get_d; [done|]. apply wp_bind, wp_get.
  assert (forall k, k = wait_native n y ->
    wp (onq (spin_lock (WaitQ k));; onq (__pqueue_append_node (WaitQ k) t);;
        onw (upd_t t (set_waited_native (Some k)));; onq (spin_unlock (WaitQ k))) R s) as Hwait.
  { intros k ->. apply wp_bind, wp_onq. eapply wq_lock; [done|by eexists|done|]. intros m1 Hv1 Hn1.
    apply wp_bind, wp_onq. eapply (wq_append fr m1 _ _ _ _ p); [done|done|done|cbn; by rewrite Hn1|done|].
    intros m2 x2 Hv2 Hx2 Hlt2. rewrite put_qm_put. apply wp_bind. eapply wp_upd_t; [done|].
    apply wp_onq. eapply wq_unlock; [exact Hv2|apply appended_lookup; by eexists|].
    intros m3 Hv3 Hn3. eapply HR; [|rewrite Hn3; exact Hx2|done].
    eapply qview_ext; [exact Hv3|]. intros q _. symmetry. by apply upd_lock_back. }
  unfold wait_native in *. case_bool_decide as Hb; cbn [andb].
  - unfold is_group_leader. case_bool_decide as Hn0; cbn [negb andb].
    + subst n. rewrite (Hlead eq_refl). cbn. by apply Hwait.
    + rewrite bool_decide_eq_false_2 by lia. by apply Hwait.
  - unfold is_group_leader. case_bool_decide as Hn0; cbn [andb]; [rewrite (Hlead Hn0)|]; by apply Hwait.
Qed.
End places.

(** The last lines: the thread is appended to the ready queue if it is still
    the current one, and the ready threads are counted. *)
Definition finish_thread (cur : option nat) (rq : qid) : M sst (option Z) :=
  onq (spin_lock rq);;
  (match cur with Some t => onq (__pqueue_append_node rq t) | None => mret tt end);;
  c ← onq (pqueue_total rq);
  onq (spin_unlock rq);;
  mret (Some c).

Definition ready_count (Q : gmap qid contents) (rq : qid) : Z :=
  Z.of_nat (length (concat (default [] (Q !! rq)))).

Section finish.
Context (s : sst) (rq : qid) (t : nat) (Q : gmap qid contents) (L : qid -> Z).
Context (Hv : qview (qm (wo s)) Q L) (H0 : L rq = 0).

Lemma wp_finish_none (R : option Z -> sst -> Prop) : is_Some (Q !! rq) ->
  (forall m', qview m' Q L -> R (Some (ready_count Q rq)) (put_qm m' s)) -> wp (finish_thread None rq) R s.
Proof.
  intros [Ls HQ] HR. unfold finish_thread. apply wp_bind, wp_onq. eapply wq_lock; [done|by eexists|done|]. intros m1 Hv1 Hn1.
  apply wp_bind, wp_ret. apply wp_bind, wp_onq. eapply wq_total; [exact Hv1|done|]. rewrite put_qm_put.
  apply wp_bind, wp_onq. eapply wq_unlock; [exact Hv1|by eexists|]. intros m3 Hv3 Hn3. apply wp_ret.
  replace (Z.of_nat (length (concat Ls))) with (ready_count Q rq) by (unfold ready_count; by rewrite HQ). rewrite put_qm_put. apply HR.
  eapply qview_ext; [exact Hv3|]. intros q _. symmetry. by apply upd_lock_back.
Qed.

Lemma wp_finish_some fr x p Ls l (R : option Z -> sst -> Prop) : Q !! rq = Some Ls -> Ls !! p = Some l ->
  nodes (qm (wo s)) !! t = Some x -> node_state fr p x ->
  (forall m', qview m' (appended fr Q rq Ls p l t) L -> R (Some (ready_count (appended fr Q rq Ls p l t) rq)) (put_qm m' s)) ->
  wp (finish_thread (Some t) rq) R s.
Proof.
  intros HQ Hp Hx Hst HR. unfold finish_thread. apply wp_bind, wp_onq. eapply wq_lock; [done|by eexists|done|]. intros m1 Hv1 Hn1.
  apply wp_bind, wp_onq. eapply (wq_append fr m1 _ _ _ _ p); [done|done|done|cbn; by rewrite Hn1|done|].
  intros m2 x2 Hv2 Hx2 Hlt2. rewrite put_qm_put.
  assert (is_Some (appended fr Q rq Ls p l t !! rq)) as [Ls' HQ'] by (apply appended_lookup; by eexists).
  apply wp_bind, wp_onq. eapply wq_total; [exact Hv2|done|]. rewrite put_qm_put.
  apply wp_bind, wp_onq. eapply wq_unlock; [exact Hv2|by eexists|]. intros m3 Hv3 Hn3. apply wp_ret.
  replace (Z.of_nat (length (concat Ls'))) with (ready_count (appended fr Q rq Ls p l t) rq) by (unfold ready_count; by rewrite HQ').
  rewrite put_qm_put. apply HR. eapply qview_ext; [exact Hv3|]. intros q _. symmetry. by apply upd_lock_back.
Qed.
End finish.

(** The queue for a thread that has not ended. *)
Definition destination (n : nat) (rq : qid) (y : pth_st) : qid :=
  if should_suspend y then SQ
  else if bool_decide (state y = PTH_STATE_WAITING) then WaitQ (wait_native n y) else rq.

(** There is a list for priority [p] in queue [q], which is not locked. *)
Definition open_queue (Q : gmap qid contents) (L : qid -> Z) (p : nat) (q : qid) : Prop :=
  L q = 0 /\ exists Ls l, Q !! q = Some Ls /\ Ls !! p = Some l.

Lemma open_after fr Q L p q q' Ls l t : Q !! q = Some Ls -> Ls !! p = Some l -> open_queue Q L p q' ->
  open_queue (appended fr Q q Ls p l t) L p q'.
Proof.
  intros HQ HL [H0 (Ls' & l' & HQ' & HL')]. split; [done|]. unfold appended. destruct fr; [|by eauto].
  destruct (decide (q = q')) as [<-|Hne].
  - eexists _, _. split; [apply lookup_insert_eq|]. by eapply list_insert_at.
  - exists Ls', l'. by rewrite lookup_insert_ne.
Qed.

(** The thread waits, or it stays ready. *)
Lemma wp_wait_or_ready nfuel fr s n t d y rq Q L p x (R : option Z -> sst -> Prop) :
  qview (qm (wo s)) Q L -> natives (wo s) !! n = Some d -> threads (wo s) !! t = Some y ->
  nodes (qm (wo s)) !! t = Some x -> node_state fr p x ->
  pth_exit_count s <= 0 -> (n = 0%nat -> is_bounded d = false) ->
  open_queue Q L p rq -> open_queue Q L p (WaitQ (wait_native n y)) ->
  let q := if bool_decide (state y = PTH_STATE_WAITING) then WaitQ (wait_native n y) else rq in
  (forall s' Ls l y', Q !! q = Some Ls -> Ls !! p = Some l -> qview (qm (wo s')) (appended fr Q q Ls p l t) L ->
     threads (wo s') !! t = Some y' -> state y' = state y -> should_suspend y' = should_suspend y ->
     R (Some (ready_count (appended fr Q q Ls p l t) rq)) s') ->
  wp (cur ← (x ← onw (get_t t);
             if bool_decide (state x = PTH_STATE_WAITING) then put_waiting nfuel n t;; mret None else mret (Some t));
      finish_thread cur rq) R s.
Proof.
  intros Hv Hn Hy Hx Hst Hex Hld Hrq HW q HR. apply wp_bind, wp_bind. eapply wp_get_t; [done|].
  destruct (decide (state y = PTH_STATE_WAITING)) as [Hw|Hw]; subst q.
  - rewrite bool_decide_eq_true_2 in * by done. destruct HW as [HW0 (Ls & l & HQ & Hp)].
    apply wp_bind. eapply wp_put_waiting; [done..|]. intros m' x' Hv' Hx' Hlt'. apply wp_ret.
    eapply wp_finish_none; [exact Hv'|by destruct Hrq|apply appended_lookup; [by eexists|destruct Hrq as [_ (? & ? & ? & _)]; by eexists]|].
    intros m3 Hv3. eapply HR; [done|done|exact Hv3|apply lookup_insert_eq|done|done].
  - rewrite bool_decide_eq_false_2 in * by done. destruct Hrq as [H0 (Ls & l & HQ & Hp)]. apply wp_ret.
    eapply (wp_finish_some _ _ _ _ _ Hv H0 fr x p Ls l); [done..|]. intros m3 Hv3. by eapply HR.
Qed.

Section after.
Context (nfuel : nat) (destroy : last_call -> nat -> M sst unit) (s : sst) (n t : nat) (d : pth_descr_st) (y : pth_st) (rq : qid).
Context (Q : gmap qid contents) (L : qid -> Z) (p : nat) (x : node_st).
Context (Hv : qview (qm (wo s)) Q L) (Hn : natives (wo s) !! n = Some d) (Hy : threads (wo s) !! t = Some y).
Context (Hx : nodes (qm (wo s)) !! t = Some x) (Hfree : free_node x) (Hprio : priority x = Z.of_nat p).
Context (Hexit : pth_exit_count s <= 0) (Hlead : n = 0%nat -> is_bounded d = false).
Context (Hrq : open_queue Q L p rq) (HSQ : open_queue Q L p SQ) (HWQ : open_queue Q L p (WaitQ (wait_native n y))).

End after.

(** ** The end of a thread *)

Section join.
Context (nfuel : nat) (destroy : last_call -> nat -> M sst unit) (s : sst) (n t u ds : nat) (d : pth_descr_st) (y z : pth_st) (rq : qid).
Context (Q : gmap qid contents) (L : qid -> Z) (p k : nat) (x : node_st).
Context (Hv : qview (qm (wo s)) Q L) (Hn : natives (wo s) !! n = Some d) (Hy : threads (wo s) !! t = Some y).
Context (Hx : nodes (qm (wo s)) !! t = Some x) (Hfree : free_node x) (Hprio : priority x = Z.of_nat p).
(** Thread [t] has ended; thread [u] waits for it on native [ds]. *)
Context (Hst : state y = PTH_STATE_EXIT) (Hj : joinable y <> 0) (Hjn : joined_native y = None) (Hjt : joined_thread y = Some u).
Context (Hb : is_bounded d = false) (Hz : threads (wo s) !! u = Some z) (Hzw : waited_native z = Some ds) (Hzp : prio z = Z.of_nat k).
Context (Ds Ws Rs : contents) (pu : nat) (ld l1 l2 lr : list nat).
Context (HD : Q !! DQ = Some Ds) (HDp : Ds !! p = Some ld) (HD0 : L DQ = 0).
Context (HW : Q !! WaitQ ds = Some Ws) (HWp : Ws !! pu = Some (l1 ++ u :: l2)) (HW0 : L (WaitQ ds) = 0).
Context (HR : Q !! rq = Some Rs) (HRp : Rs !! k = Some lr) (HR0 : L rq = 0) (Hrq : rq <> DQ) (Hrw : rq <> WaitQ ds).

(** C8: when a joinable thread ends on a native that is not bounded, and a
    thread that waits for it in [pth_join] is noted in its [joined_thread]
    ([joined_native] is NULL) and stands in the wait queue of a native, the
    ended thread is dead and at the end of its priority in the dead queue, and
    the waiting one becomes ready at once, behind the ready threads of its
    priority; the scheduler goes on without looking for events. *)
Theorem exit_wakes_joiner :
  exists s', after_thread nfuel destroy n t rq s = Ok (None, s') /\
    pq_inv (qm (wo s')) (<[rq := <[k := lr ++ [u]]> Rs]> (<[WaitQ ds := <[pu := l1 ++ l2]> Ws]>
                          (<[DQ := <[p := ld ++ [t]]> Ds]> Q))) /\
    (forall q, is_Some (Q !! q) -> lock_word (qm (wo s')) q = Some (L q)) /\
    threads (wo s') !! t = Some (set_state PTH_STATE_DEAD y) /\ threads (wo s') !! u = Some (woken z).
Proof.
  assert (t <> u) as Htu.
  { intros ->. eapply (free_not_member _ _ (qv_inv _ _ _ Hv)); [exact Hx|done|].
    exists Ws, (l1 ++ u :: l2). split; [exact HW|]. split; [exact HWp|]. set_solver. }
  assert (wp (after_thread nfuel destroy n t rq) (fun r s' => r = None /\
    pq_inv (qm (wo s')) (<[rq := <[k := lr ++ [u]]> Rs]> (<[WaitQ ds := <[pu := l1 ++ l2]> Ws]>
                          (<[DQ := <[p := ld ++ [t]]> Ds]> Q))) /\
    (forall q, is_Some (Q !! q) -> lock_word (qm (wo s')) q = Some (L q)) /\
    threads (wo s') !! t = Some (set_state PTH_STATE_DEAD y) /\ threads (wo s') !! u = Some (woken z)) s) as Hwp.
  { unfold after_thread. apply wp_bind. eapply wp_get_t; [done|]. apply wp_bind.
    rewrite bool_decide_eq_false_2, bool_decide_eq_true_2 by (done || by rewrite Hst). apply wp_bind.
    unfold bury. apply wp_bind. eapply wp_get_t; [done|]. rewrite bool_decide_eq_false_2 by done. apply wp_bind. eapply wp_get_d; [done|].
    apply wp_bind, wp_onq. eapply wq_lock; [exact Hv|by eexists|done|]. intros m1 Hv1 Hn1.
    apply wp_bind, wp_onq. eapply (wq_append true m1 _ _ DQ Ds p ld t x Hv1); [done|done|by rewrite Hn1|done|].
    intros m2 x2 Hv2 Hx2 _. rewrite put_qm_put. apply wp_bind. eapply wp_upd_t; [done|]. apply wp_bind.
    rewrite Hjn, Hjt, Hb. apply wp_bind. eapply (wp_get_t _ u z); [cbn; by rewrite lookup_insert_ne|]. rewrite Hzw.
    set (s2 := put_threads _ _). apply wp_onw. unfold appended in Hv2.
    destruct (wait_to_ready_spec (wo s2) (<[DQ := <[p := ld ++ [t]]> Ds]> Q) ds u rq (mret tt) (conds (wo s2)) z Ws pu l1 l2 Rs k lr)
      as (m3 & E3 & Hi3 & Hl3); [apply Hv2|by rewrite lookup_insert_ne|done|by rewrite lookup_insert_ne|done|done
      |cbn; by rewrite lookup_insert_ne|congruence|done| | |apply on_conds_ret|].
    { cbn. rewrite (qv_lock _ _ _ Hv2) by (rewrite lookup_insert_ne by done; by eexists). by rewrite upd_lock_ne, HW0. }
    { cbn. rewrite (qv_lock _ _ _ Hv2) by (rewrite lookup_insert_ne by done; by eexists). by rewrite upd_lock_ne, HR0. }
    eapply wp_run; [exact E3|]. apply wp_bind, wp_onq. cbn [wo set_wo qm set_qm].
    assert (lock_word m3 DQ = Some 1) as HD3.
    { rewrite Hl3. cbn. rewrite (qv_lock _ _ _ Hv2) by (rewrite lookup_insert_eq; by eexists). by rewrite upd_lock_eq. }
    destruct (spin_unlock_spec m3 _ DQ _ Hi3 HD3) as (m4 & E4 & Hi4 & _ & HD4 & Ho4).
    eapply wp_run; [exact E4|]. apply wp_ret, wp_ret. cbn [wo set_wo qm set_qm put_qm]. split; [done|]. split_and!; [exact Hi4| | |].
    - intros q Hq. change (lock_word m4 q = Some (L q)).
      destruct (decide (q = DQ)) as [->|Hne]; [by rewrite HD4, HD0|]. rewrite Ho4 by done. rewrite Hl3. cbn.
      rewrite (qv_lock _ _ _ Hv2) by (rewrite lookup_insert_ne by done; done). by rewrite upd_lock_ne.
    - cbn. rewrite lookup_insert_ne by done. apply lookup_insert_eq.
    - cbn. apply lookup_insert_eq. }
  apply wp_elim in Hwp as (r & s' & E & -> & Hr). by exists s'.
Qed.
End join.

(** ** New threads *)

(** The lists [Rs'] are [Rs] with the threads [ts] added; the first thread of a
    list stays the first. *)
Definition joined_by (ts : list nat) (Rs Rs' : contents) : Prop :=
  length Rs' = length Rs /\ concat Rs' ≡ₚ ts ++ concat Rs /\
  forall p a l, Rs !! p = Some (a :: l) -> exists l', Rs' !! p = Some (a :: l').

Lemma joined_by_second t p l Rs : Rs !! p = Some l -> joined_by [t] Rs (<[p := place_second l t]> Rs).
Proof.
  intros Hp. split; [apply length_insert|]. split.
  - rewrite <- (take_drop_middle Rs p l Hp) at 2. rewrite insert_take_drop by (by eapply lookup_lt_Some).
    rewrite !concat_app. cbn [concat]. rewrite place_second_perm. solve_Permutation.
  - intros p' a l' Hp'. destruct (decide (p = p')) as [<-|Hne].
    + rewrite Hp in Hp'. injection Hp' as ->. exists (t :: l'). by eapply list_insert_at.
    + rewrite list_lookup_insert_ne by done. by eauto.
Qed.

Lemma joined_by_trans ts ts' Rs1 Rs2 Rs3 : joined_by ts Rs1 Rs2 -> joined_by ts' Rs2 Rs3 -> joined_by (ts ++ ts') Rs1 Rs3.
Proof.
  intros (L1 & P1 & H1) (L2 & P2 & H2). split; [congruence|]. split.
  - rewrite P2, P1. solve_Permutation.
  - intros p a l (l' & Hl')%H1. by eapply H2.
Qed.

Lemma joined_by_refl Rs : joined_by [] Rs Rs.
Proof. split; [done|]. split; [done|]. by eauto. Qed.

Section new.
Context (nq rq : qid) (Hne : nq <> rq).

Lemma move_new_spec ts : forall fuel s Q L Ns Rs,
  qview (qm (wo s)) Q L -> Q !! nq = Some Ns -> Q !! rq = Some Rs -> L rq = 0 ->
  order Ns = ts -> (forall t, t ∈ ts -> is_Some (threads (wo s) !! t)) -> (length ts < fuel)%nat ->
  wp (move_new fuel nq rq) (fun _ s' => exists Ns' Rs',
    qview (qm (wo s')) (<[rq := Rs']> (<[nq := Ns']> Q)) L /\ order Ns' = [] /\ joined_by ts Rs Rs' /\
    natives (wo s') = natives (wo s) /\
    (forall u y, threads (wo s) !! u = Some y ->
       threads (wo s') !! u = Some (if bool_decide (u ∈ ts) then set_state PTH_STATE_READY y else y))) s.
Proof.
  induction ts as [|t ts IH]; intros [|fuel] s Q L Ns Rs Hv HN HR HL Ho Ht Hf; simpl in Hf; [lia| |lia|]; cbn [move_new].
  - apply wp_bind, wp_onq. eapply wq_total; [done|done|]. rewrite <- order_length, Ho. apply wp_ret.
    exists Ns, Rs. rewrite (insert_id Q nq), insert_id by (done || rewrite lookup_insert_ne; done).
    split_and!; [done|done|apply joined_by_refl|done|]. intros u y Hu. by rewrite bool_decide_eq_false_2 by set_solver.
  - destruct (order_first Ns t ts Ho) as (p & l & Hp & _ & Ho').
    destruct (Ht t ltac:(set_solver)) as [y Hy].
    assert (exists lr, Rs !! p = Some lr) as [lr Hlr].
    { apply lookup_lt_is_Some_2. destruct (inv_queue _ _ (qv_inv _ _ _ Hv) _ _ HR) as (? & _ & -> & _).
      destruct (inv_queue _ _ (qv_inv _ _ _ Hv) _ _ HN) as (? & _ & <- & _). by eapply lookup_lt_Some. }
    apply wp_bind, wp_onq. eapply wq_total; [done|done|]. rewrite <- order_length, Ho. cbn [length].
    rewrite bool_decide_eq_false_2 by lia. apply wp_bind, wp_onq. eapply wq_first; [done|done|].
    rewrite Ho. cbn [head thread_by_node]. apply wp_bind. apply wp_of_option with (a := t); [done|].
    apply wp_bind, wp_onq. eapply (wq_delete _ Q _ Hv nq Ns p []); [done|done|]. intros m1 Hv1 Hn1.
    apply wp_bind. eapply wp_upd_t; [done|]. apply wp_bind, wp_onq.
    eapply (wq_enter_locked _ _ m1 _ _ rq Rs p lr t); [apply __pqueue_insert_second_links|apply place_second_perm|exact Hv1
      |done|by rewrite lookup_insert_ne|done|cbn; rewrite Hn1; apply lookup_insert_eq|done|done|].
    intros m2 Hv2 Hn2. set (s2 := put_qm m2 _).
    eapply wp_mono; [eapply (IH fuel s2 _ L (<[p := l]> Ns) (<[p := place_second lr t]> Rs));
      [exact Hv2|by rewrite lookup_insert_ne, lookup_insert_eq|by rewrite lookup_insert_eq|done|done| |lia]|].
    { intros u Hu. unfold s2. cbn. destruct (decide (t = u)) as [<-|]; [rewrite lookup_insert_eq; by eexists|].
      rewrite lookup_insert_ne by done. apply Ht. set_solver. }
    intros _ s' (Ns' & Rs' & Hv' & Hon & Hj & Hnat & Hth). exists Ns', Rs'. split_and!; [|done| |done|].
    + rewrite (insert_insert_ne _ nq rq), !insert_insert_eq in Hv' by done. exact Hv'.
    + change (t :: ts) with ([t] ++ ts). eapply joined_by_trans; [by apply joined_by_second|done].
    + intros u z Hu. destruct (decide (t = u)) as [<-|Htu].
      * rewrite Hy in Hu. injection Hu as <-. rewrite (Hth t (set_state PTH_STATE_READY y)) by apply lookup_insert_eq.
        rewrite (bool_decide_eq_true_2 (t ∈ t :: ts)) by set_solver. by case_bool_decide.
      * rewrite (Hth u z) by (unfold s2; cbn; by rewrite lookup_insert_ne).
        by rewrite (bool_decide_ext (u ∈ t :: ts) (u ∈ ts)) by set_solver.
Qed.

(** C10: at the start of an iteration a native that is not bounded moves all
    new threads to its ready queue: the new queue is empty afterwards, every
    new thread is ready and in the ready queue, behind the first thread of its
    priority, and nothing else changes place. *)
Theorem start_new_moves_all fuel s n d Q L Ns Rs :
  natives (wo s) !! n = Some d -> is_bounded d = false ->
  qview (qm (wo s)) Q L -> Q !! nq = Some Ns -> Q !! rq = Some Rs -> L rq = 0 -> L nq = 0 ->
  (forall t, t ∈ order Ns -> is_Some (threads (wo s) !! t)) -> (length (order Ns) < fuel)%nat ->
  exists s' Ns' Rs', start_new fuel n nq rq s = Ok (tt, s') /\
    qview (qm (wo s')) (<[rq := Rs']> (<[nq := Ns']> Q)) L /\ order Ns' = [] /\ joined_by (order Ns) Rs Rs' /\
    forall u y, threads (wo s) !! u = Some y ->
      threads (wo s') !! u = Some (if bool_decide (u ∈ order Ns) then set_state PTH_STATE_READY y else y).
Proof.
  intros Hn Hb Hv HN HR HL0 HLN Ht Hf.
  assert (wp (start_new fuel n nq rq) (fun _ s' => exists Ns' Rs',
    qview (qm (wo s')) (<[rq := Rs']> (<[nq := Ns']> Q)) L /\ order Ns' = [] /\ joined_by (order Ns) Rs Rs' /\
    forall u y, threads (wo s) !! u = Some y ->
      threads (wo s') !! u = Some (if bool_decide (u ∈ order Ns) then set_state PTH_STATE_READY y else y)) s) as Hwp.
  { unfold start_new. apply wp_bind. eapply wp_get_d; [done|]. rewrite Hb. apply wp_bind, wp_onq.
    eapply wq_lock; [done|by eexists|done|]. intros m1 Hv1 Hn1. apply wp_bind. eapply wp_mono.
    { eapply (move_new_spec (order Ns) fuel (put_qm m1 s)); [exact Hv1|done|done| |done|done|done]. by rewrite upd_lock_ne. }
    intros _ s2 (Ns' & Rs' & Hv2 & Ho & Hj & _ & Hth). apply wp_onq.
    eapply wq_unlock; [exact Hv2|rewrite lookup_insert_ne, lookup_insert_eq by done; by eexists|]. intros m3 Hv3 _.
    exists Ns', Rs'. split_and!; [|done|done|done]. eapply qview_ext; [exact Hv3|]. intros q _. symmetry. by apply upd_lock_back. }
  apply wp_elim in Hwp as ([] & s' & E & Ns' & Rs' & Hr). by exists s', Ns', Rs'.
Qed.
End new.

(** ** Examples

    Queues that were just initialised, and threads that are in none of them. *)

Definition raw_mems (qs : list qid) (prios : list nat) : qmem :=
  QMem
    (list_to_map (((fun '(q, p) => (AHead q p, Link None None)) <$> (q ← qs; pair q <$> seqZ 0 PRIO_TOTAL)) ++
                  ((fun t => (ANode t, Link None None)) <$> seq 0 (length prios))))
    (map_seq 0 ((fun p => Node None (Z.of_nat p) node_lt_nowhere) <$> prios))
    (list_to_map ((fun q => (q, PQ 0 (bitmap_zero 32) 0)) <$> qs)).

Definition empty_lists : contents := replicate (Z.to_nat PRIO_TOTAL) [].
Definition fresh_lists (qs : list qid) : gmap qid contents := list_to_map ((fun q => (q, empty_lists)) <$> qs).

Lemma raw_mems_link qs prios a :
  (exists q p, q ∈ qs /\ a = AHead q p /\ 0 <= p < PRIO_TOTAL) \/ (exists t, a = ANode t /\ (t < length prios)%nat) ->
  is_Some (links (raw_mems qs prios) !! a).
Proof.
  unfold raw_mems. cbn [links]. rewrite <- elem_of_dom, dom_list_to_map_L, elem_of_list_to_set.
  rewrite fmap_app, elem_of_app, <- !list_fmap_compose, !list_elem_of_fmap.
  intros [(q & p & Hq & -> & Hp)|(t & -> & Ht)]; [left|right].
  - exists (q, p). split; [done|]. apply list_elem_of_bind. exists q. split; [|done].
    apply list_elem_of_fmap. exists p. split; [done|]. by apply elem_of_seqZ_prio.
  - exists t. split; [done|]. apply elem_of_seq. lia.
Qed.

Lemma raw_mems_inv qs prios : pq_inv (raw_mems qs prios) ∅.
Proof.
  split.
  - intros q' Ls E. by rewrite lookup_empty in E.
  - intros q' Ls p l E. by rewrite lookup_empty in E.
  - intros q' p t (Ls & l & E & _). by rewrite lookup_empty in E.
  - intros t n Hn. cbn [nodes raw_mems] in Hn.
    rewrite lookup_map_seq_0, list_lookup_fmap in Hn.
    destruct (prios !! t) as [p|] eqn:Hp; [|done]. simpl in Hn. simplify_eq.
    split; [|by left]. apply raw_mems_link. right. exists t. split; [done|]. by eapply lookup_lt_Some.
Qed.

(** The queues [done] are initialised one after the other. *)
Lemma fresh_queues_inv all prios todo : NoDup todo -> (forall q, q ∈ todo -> q ∈ all) ->
  exists m, pq_inv m (fresh_lists todo) /\ nodes m = nodes (raw_mems all prios) /\
    (forall q, q ∈ all -> queues m !! q = Some (PQ 0 (bitmap_zero 32) 0)) /\
    same_dom (links (raw_mems all prios)) (links m).
Proof.
  intros Hnd Hin. induction Hnd as [|q todo Hq Hnd IH].
  - exists (raw_mems all prios). split_and!; [apply raw_mems_inv|done| |apply same_dom_refl].
    intros q Hq. cbn [queues raw_mems]. apply elem_of_list_to_map_1'; [|apply list_elem_of_fmap; eauto].
    intros y (q' & E & _)%list_elem_of_fmap. congruence.
  - destruct IH as (m & Hi & Hn & Hqs & Hd); [set_solver|].
    destruct (pqueue_init_spec m _ q (PQ 0 (bitmap_zero 32) 0) Hi) as (m' & _ & Hi' & Hn' & Hq' & Hd').
    + apply not_elem_of_list_to_map_1. rewrite <- list_fmap_compose. intros (q' & -> & ?)%list_elem_of_fmap. done.
    + apply Hqs. set_solver.
    + done.
    + intros p Hp. apply Hd, raw_mems_link. left. exists q, p. split; [apply Hin; set_solver|done].
    + exists m'. split_and!; [exact Hi'|by rewrite Hn'| |by eapply same_dom_trans].
      intros q' Hq''. rewrite Hq', lookup_insert. case_decide; [done|]. by apply Hqs.
Qed.

Lemma fresh_queues qs prios : NoDup qs -> Z.of_nat (length prios) < 2 ^ 32 ->
  exists m, qview m (fresh_lists qs) (fun _ => 0) /\
    nodes m = map_seq 0 ((fun p => Node None (Z.of_nat p) node_lt_nowhere) <$> prios).
Proof.
  intros Hnd Hlen. destruct (fresh_queues_inv qs prios qs Hnd) as (m & Hi & Hn & Hq & _); [done|].
  exists m. split; [split; [done| |]|exact Hn].
  - intros q [Ls HQ]. apply elem_of_list_to_map_2, list_elem_of_fmap in HQ as (q' & [= <- _] & Hin).
    unfold lock_word. by rewrite Hq.
  - rewrite Hn. cbn [nodes raw_mems]. rewrite <- size_dom, dom_seq_L, length_fmap, size_set_seq. done.
Qed.

Lemma fresh_lists_at qs q : q ∈ qs -> fresh_lists qs !! q = Some empty_lists.
Proof.
  intros Hq. unfold fresh_lists. apply elem_of_list_to_map_1'; [|apply list_elem_of_fmap; eauto].
  intros y (q' & E & _)%list_elem_of_fmap. congruence.
Qed.

(** A thread that is in no queue is put into one. *)
Lemma view_append m Q L q Ls p l t : qview m Q L -> Q !! q = Some Ls -> Ls !! p = Some l ->
  nodes m !! t = Some (Node None (Z.of_nat p) node_lt_nowhere) ->
  exists m', qview m' (<[q := <[p := l ++ [t]]> Ls]> Q) L /\ forall u, u <> t -> nodes m' !! u = nodes m !! u.
Proof.
  intros Hv HQ Hp Hn.
  assert (wp (__pqueue_append_node q t) (fun _ m' => qview m' (<[q := <[p := l ++ [t]]> Ls]> Q) L /\
    forall u, u <> t -> nodes m' !! u = nodes m !! u) m) as H.
  { eapply (wq_enter m Q L Hv _ _ q Ls p l t); [apply __pqueue_insert_tail_links|apply place_tail_perm|done..|].
    intros m' Hv' Hn'. split; [exact Hv'|]. intros u Hu. by rewrite Hn', lookup_insert_ne. }
  apply wp_elim in H as ([] & m' & _ & H). by exists m'.
Qed.

Definition demo (m : qmem) (ths : gmap nat pth_st) : sst :=
  SSt (World ths [a_native 100 1; a_native 101 2; a_native 102 3] (Some 1%nat) ∅ ∅ ∅ ∅ ∅ ∅ m 3 [] qlock_free [])
    (EMem ∅ ∅ ∅ [] ∅ false [] []) (MState ∅ ∅ ∅ pth_ring_init None []) ∅ ∅ ∅ 0 0 0 0 0 0 None 3.

(** Thread 1, of priority 5, is in queue [q]; thread 2 is in none. *)
Lemma one_queued qs q : NoDup qs -> q ∈ qs ->
  exists m, qview m (<[q := <[5%nat := [1%nat]]> empty_lists]> (fresh_lists qs)) (fun _ => 0) /\
    nodes m !! 2%nat = Some (Node None 5 node_lt_nowhere).
Proof.
  intros Hnd Hq. destruct (fresh_queues qs [5; 5; 5]%nat Hnd) as (m & Hv & Hn); [simpl; lia|].
  destruct (view_append m _ _ q empty_lists 5 [] 1 Hv (fresh_lists_at _ _ Hq)) as (m' & Hv' & Hn');
    [done|by rewrite Hn|].
  exists m'. split; [exact Hv'|]. rewrite Hn' by done. by rewrite Hn.
Qed.

Lemma pick_next_highest_witness :
  exists s m', pick_next 1 RQ s = Ok (Some 1%nat, put_qm m' s).
Proof.
  destruct (one_queued [RQ] RQ) as (m & Hv & _); [by repeat constructor; set_solver|set_solver|].
  destruct (pick_next_highest (demo m {[1%nat := a_thread]}) 1 (a_native 101 2) RQ _ _ _ Hv (lookup_insert_eq _ _ _)
    eq_refl eq_refl 1 [] a_thread) as (p & l & m' & E & _); [vm_compute; reflexivity|reflexivity|by left|].
  eexists _, m'. exact E.
Defined.

Lemma pick_next_loses_bound_witness :
  exists s s' Q', pick_next 1 RQ s = Ok (None, s') /\ qview (qm (wo s')) Q' (fun _ => 0) /\ free_in Q' 1.
Proof.
  destruct (one_queued [RQ] RQ) as (m & Hv & _); [by repeat constructor; set_solver|set_solver|].
  destruct (pick_next_loses_bound (demo m {[1%nat := set_boundnative (Some 2%nat) a_thread]}) 1 (a_native 101 2) RQ _ _ _ Hv
    (lookup_insert_eq _ _ _) eq_refl eq_refl 1 [] (set_boundnative (Some 2%nat) a_thread) 2 (a_native 102 3))
    as (s' & Q' & E & Hv' & Hf & _); [vm_compute; reflexivity|reflexivity|reflexivity|done|done|reflexivity|reflexivity|].
  eexists _, s', Q'. split; [exact E|]. by split.
Defined.


Lemma exit_wakes_joiner_witness :
  exists s s' y, after_thread 5 (fun _ _ => mret tt) 1 2 RQ s = Ok (None, s') /\
    threads (wo s') !! 1%nat = Some y /\ state y = PTH_STATE_READY.
Proof.
  destruct (one_queued [RQ; DQ; WaitQ 2] (WaitQ 2)) as (m & Hv & Hn); [by repeat constructor; set_solver|set_solver|].
  set (y := set_state PTH_STATE_EXIT (set_joined_thread (Some 1%nat) a_thread)).
  set (z := set_waited_native (Some 2%nat) (set_state PTH_STATE_WAITING a_thread)).
  destruct (exit_wakes_joiner 5 (fun _ _ => mret tt) (demo m {[2%nat := y; 1%nat := z]}) 1 2 1 2 (a_native 101 2) y z RQ
    _ _ 5 5 _ Hv eq_refl (lookup_insert_eq _ _ _) Hn ltac:(done) eq_refl eq_refl ltac:(done) eq_refl eq_refl eq_refl
    ltac:(vm_compute; reflexivity) eq_refl eq_refl
    empty_lists (<[5%nat := [1%nat]]> empty_lists) empty_lists 5 [] [] [] []) as (s' & E & _ & _ & _ & Hz).
  - rewrite lookup_insert_ne by done. by apply fresh_lists_at; set_solver.
  - vm_compute; reflexivity.
  - reflexivity.
  - apply lookup_insert_eq.
  - vm_compute; reflexivity.
  - reflexivity.
  - rewrite lookup_insert_ne by done. by apply fresh_lists_at; set_solver.
  - vm_compute; reflexivity.
  - reflexivity.
  - done.
  - done.
  - eexists _, s', _. split; [exact E|]. split; [exact Hz|reflexivity].
Defined.

Lemma start_new_moves_all_witness :
  exists s s' y, start_new 5 1 NQ RQ s = Ok (tt, s') /\ threads (wo s') !! 1%nat = Some y /\ state y = PTH_STATE_READY.
Proof.
  destruct (one_queued [NQ; RQ] NQ) as (m & Hv & Hn); [by repeat constructor; set_solver|set_solver|].
  set (y := set_state PTH_STATE_NEW a_thread).
  destruct (start_new_moves_all NQ RQ ltac:(done) 5 (demo m {[1%nat := y]}) 1 (a_native 101 2) _ _
    (<[5%nat := [1%nat]]> empty_lists) empty_lists eq_refl eq_refl Hv) as (s' & Ns' & Rs' & E & _ & _ & _ & Hth).
  - apply lookup_insert_eq.
  - rewrite lookup_insert_ne by done. by apply fresh_lists_at; set_solver.
  - reflexivity.
  - reflexivity.
  - assert (order (<[5%nat := [1%nat]]> empty_lists) = [1%nat]) as -> by (vm_compute; reflexivity).
    intros t ->%list_elem_of_singleton. by eexists.
  - vm_compute. lia.
  - eexists _, s', _. split; [exact E|]. split; [apply (Hth 1%nat y); reflexivity|]. vm_compute. reflexivity.
Defined.
