(* ===== verification/EventMgr.v ===== *)
(** * The event manager

    Theorems about [pth_sched_eventmanager] (see Sched): which threads it makes
    ready, and what it does when a timer elapsed. *)

From S2P Require Import Prelude Bitmap Dll LinkedList Ring Priorities Msg PQueue Futex World Event Time Util Sched.
From S2P Require Import MutexProofs Wake SchedProofs.

Lemma get_d_inv x slot d x' : ong (onw (get_d slot)) x = Ok (d, x') -> x' = x /\ natives (wo (gs x)) !! slot = Some d.
Proof.
  unfold ong, onw, zoom, get_d, mbind, M_bind, get, of_option. destruct x as [s l]. cbn.
  destruct (natives (wo s) !! slot); [|done]. intros [= -> <-]. split; [by destruct s|done].
Qed.

(** ** Function events

    A function event is checked again when the time it names has passed; the
    variable [slot], however, still has the value of the last loop. *)

Section recheck.
Context (PTH_NSIG : Z) (pipe_fd : nat -> Z) (clk : clock).
Context (n : nat) (m_to_n : bool) (now : Z) (fuel tfuel rfuel : nat).

(** The last loop of an unbounded native ends at the first unused one. *)
Lemma late_natives_slot f slot x slot' x' :
  late_natives PTH_NSIG n m_to_n f tfuel rfuel slot false x = Ok (slot', x') ->
  exists d, natives (wo (gs x')) !! slot' = Some d /\ is_used d = false.
Proof.
  revert slot x. induction f as [|f IH]; intros slot x E; [done|]. cbn [late_natives] in E.
  apply bind_inv in E as (d & x1 & Ed & E). apply get_d_inv in Ed as [-> Hd].
  destruct (is_used d) eqn:Eu; cbn [negb] in E; [|injection E as <- <-; by eauto].
  destruct (queue_of m_to_n slot d) as [rq|]; [|by eapply IH].
  do 5 (apply bind_inv in E as (? & ? & _ & E)). by eapply IH.
Qed.

Lemma after_check_slot select now' x dopoll slot again x' :
  after_check PTH_NSIG pipe_fd clk select n m_to_n now' fuel tfuel rfuel false dopoll x = Ok (Some (slot, again), x') ->
  exists d, natives (wo (gs x')) !! slot = Some d /\ is_used d = false.
Proof.
  intros E. unfold after_check in E. do 4 (apply bind_inv in E as (? & ? & _ & E)).
  destruct (m_to_n && _ && _); [done|]. do 4 (apply bind_inv in E as (? & ? & _ & E)). cbn [andb] in E.
  do 13 (apply bind_inv in E as (? & ? & _ & E)). cbn [andb] in E.
  apply bind_inv in E as (? & ? & Es & E). injection E as -> -> ->. by eapply late_natives_slot.
Qed.

(** Without a timeout it does not matter what [select] would do with one. *)
Lemma do_select_no_timeout select select' x :
  (forall a s, s_timeout a = None -> select a s = select' a s) ->
  do_select select n None x = do_select select' n None x.
Proof.
  intros H. unfold do_select. do 4 (apply bind_ext; intros). by rewrite H.
Qed.

Lemma after_check_no_timer select select' x :
  (forall a s, s_timeout a = None -> select a s = select' a s) -> nexttimer_ev (lo x) = None ->
  after_check PTH_NSIG pipe_fd clk select n m_to_n now fuel tfuel rfuel false false x =
  after_check PTH_NSIG pipe_fd clk select' n m_to_n now fuel tfuel rfuel false false x.
Proof.
  intros H Hn. unfold after_check.
  assert (poll_delay clk n now false x = Ok (None, x)) as E.
  { unfold poll_delay, get_l. rewrite (bind_run (gets lo) _ x (lo x) x eq_refl). by rewrite Hn. }
  rewrite !(bind_run _ _ _ _ _ E). do 3 (apply bind_ext; intros). rewrite andb_false_r. cbn [andb].
  do 6 (apply bind_ext; intros). unfold mbind at 1 3, M_bind.
  rewrite (do_select_no_timeout select select') by done. done.
Qed.

Lemma upd_dx_wo k f s a s' : upd_dx k f s = Ok (a, s') -> wo s' = wo s.
Proof.
  unfold upd_dx, get_dx. intros E. apply bind_inv in E as (y & s1 & E1 & E2).
  apply bind_inv in E1 as (s2 & s3 & E3 & E4). injection E3 as <- <-.
  unfold of_option in E4. destruct (dx s !! k); [|done]. injection E4 as <- <-. by injection E2 as <- <-.
Qed.

(** Native [slot] is not used. *)
Definition unused (slot : nat) (w : world) : Prop := exists d, natives w !! slot = Some d /\ is_used d = false.

Lemma check_natives_unused func slot dopoll once x : (0 < fuel)%nat -> unused slot (wo (gs x)) ->
  check_natives PTH_NSIG func n m_to_n now fuel tfuel rfuel slot false dopoll once x = Ok (tt, x).
Proof.
  intros Hf (d & Hd & Hu). destruct fuel as [|f]; [lia|]. cbn [check_natives].
  rewrite (bind_run _ _ x d x); [by rewrite Hu|].
  unfold ong, onw, zoom. rewrite (get_d_run _ slot d Hd). by destruct x as [[] ?].
Qed.

(** A round that starts at an unused native looks at no thread at all. *)
Lemma round_blind select select' func func' slot s : (0 < fuel)%nat ->
  (forall a s, s_timeout a = None -> select a s = select' a s) -> unused slot (wo s) ->
  event_round PTH_NSIG pipe_fd clk select func n m_to_n now fuel tfuel rfuel slot false false s =
  event_round PTH_NSIG pipe_fd clk select' func' n m_to_n now fuel tfuel rfuel slot false false s.
Proof.
  intros Hf H Hs. unfold event_round.
  apply bind_ext. intros a1 s1 E1. apply bind_ext. intros a2 s2 E2. apply bind_ext. intros a3 s3 E3.
  assert (wo s3 = wo s) as Hw.
  { rewrite (upd_dx_wo _ _ _ _ _ E3), (upd_dx_wo _ _ _ _ _ E2).
    apply bind_inv in E1 as (? & ? & E & E1). injection E as <- <-. by eapply upd_dx_wo. }
  apply bind_ext. intros a4 s4 E4. injection E4 as <- <-. apply bind_ext. intros c s5 E5.
  assert (natives (wo s5) = natives (wo s)) as Hn.
  { unfold onq, onw, on_queues, zoom in E5. destruct (pqueue_total RQ (qm (wo s3))) as [[? ?]|]; [|done].
    injection E5 as <- <-. cbn. by rewrite Hw. }
  cbn [andb orb negb]. rewrite andb_false_r. cbn [andb].
  rewrite !(bind_run _ _ _ _ _ (check_natives_unused _ slot _ _ (Est s5 _) Hf ltac:(unfold unused; cbn; by rewrite Hn))).
  unfold get_l. rewrite !(bind_run (gets lo) _ _ _ _ eq_refl). cbn [lo any_event_occurred orb].
  by rewrite (after_check_no_timer select select').
Qed.

(** when the time of a function event has passed, its function is not
    called again: after a round that asks for another one, the next round of
    an unbounded native calls no function of an event at all (the result does
    not depend on what the functions would return), and it calls [select]
    without a timeout (the result does not depend on what [select] would do
    with one).  The variable [slot] is not reset, so the loop over the natives
    ends at once. *)
Theorem function_event_not_rechecked select func now' dopoll slot slot' s s' :
  (0 < fuel)%nat ->
  event_round PTH_NSIG pipe_fd clk select func n m_to_n now' fuel tfuel rfuel slot false dopoll s = Ok (Some (slot', true), s') ->
  forall select' func', (forall a s, s_timeout a = None -> select a s = select' a s) ->
  event_round PTH_NSIG pipe_fd clk select func n m_to_n now fuel tfuel rfuel slot' false false s' =
  event_round PTH_NSIG pipe_fd clk select' func' n m_to_n now fuel tfuel rfuel slot' false false s'.
Proof.
  intros Hf E select' func' H. apply round_blind; [done|done|]. unfold event_round in E.
  do 5 (apply bind_inv in E as (? & ? & _ & E)). cbn [andb orb] in E.
  match type of E with match ?c with _ => _ end = _ => destruct c as [[r xe]|] eqn:Ec; [|done] end. injection E as -> <-.
  apply bind_inv in Ec as (? & ? & _ & Ec). apply bind_inv in Ec as (? & ? & _ & Ec).
  by eapply after_check_slot.
Qed.
End recheck.

(** *** An example: thread 1 waits for a function event, with one native *)

Definition queue_script : M qmem unit :=
  pqueue_init RQ;; pqueue_init DQ;; pqueue_init (ReadyQ 0);; pqueue_init (WaitQ 0);; __pqueue_append_node (WaitQ 0) 1.
Definition queue_demo : qmem :=
  let m := raw_mems [RQ; DQ; ReadyQ 0; WaitQ 0] [5; 5]%nat in
  match queue_script m with Ok (_, m) => m | Err _ => m end.

(** The function returns TRUE when the word at address 1 is not 0. *)
Definition func_demo : Z -> Z -> M sst bool := fun _ arg => v ← user_read arg; mret (negb (bool_decide (v = 0))).
Definition tcb_demo (ev : nat) : tcb := Tcb (Some ev) 0 0 0 0 None 0 0 None 0 false.
Definition wait_in (m : qmem) (ev : pth_event_st) : sst :=
  SSt (World {[1%nat := set_state PTH_STATE_WAITING (set_waited_native (Some 0%nat) a_thread)]}
         [a_native 100 1; set_is_used false (a_native 101 2)] (Some 0%nat) ∅ ∅ ∅ ∅ ∅ ∅ m 1 [] qlock_free [])
    (EMem {[7%nat := Link (Some 7%nat) (Some 7%nat)]} {[7%nat := ev]} ∅ [] ∅ false [] [])
    (MState ∅ ∅ ∅ pth_ring_init None []) {[1%nat := tcb_demo 7]} {[0%nat := Dcb None 0 0]} {[1 := 0]} 0 0 0 0 0 1 None 1.
Definition wait_demo (ev : pth_event_st) : sst := wait_in queue_demo ev.
Definition func_event : pth_event_st := Event false PTH_EVENT_FUNC PTH_UNTIL_OCCURRED 0 (AFunc 1 1 500).

(** [select] with a timeout: nothing happens but that the word becomes 1. *)
Definition select_demo (a : selarg) (s : sst) : Z * (Z * Z * Z) * sst :=
  match s_timeout a with
  | Some _ => (0, (0, 0, 0), set_um {[1 := 1]} s)
  | None => (-1, (0, 0, 0), s)
  end.

Lemma function_event_not_rechecked_witness :
  exists s', event_round 65 (fun _ => 3) Microseconds select_demo func_demo 0 false 1000 3 5 5 0 false false (wait_demo func_event) =
      Ok (Some (1%nat, true), s') /\ um s' !! 1 = Some 1 /\
    event_round 65 (fun _ => 3) Microseconds select_demo func_demo 0 false 1501 3 5 5 1 false false s' =
    event_round 65 (fun _ => 3) Microseconds select_demo (fun _ _ => mret true) 0 false 1501 3 5 5 1 false false s'.
Proof.
  assert ((fun r => (r.1, um r.2 !! 1)) <$> event_round 65 (fun _ => 3) Microseconds select_demo func_demo 0 false 1000 3 5 5 0 false false
    (wait_demo func_event) = Ok (Some (1%nat, true), Some 1)) as H by (vm_compute; reflexivity).
  destruct (event_round _ _ _ _ _ _ _ 1000 _ _ _ _ _ _ _) as [[r s']|] eqn:E; [|done]. cbn in H. injection H as -> Hum.
  exists s'. split; [reflexivity|]. split; [exact Hum|].
  eapply function_event_not_rechecked; [|exact E|reflexivity]. lia.
Defined.

(** ** The last pass

    After [select], a thread becomes ready exactly if one of its events has
    occurred or its cancellation is requested. *)

(** The objects that events refer to. *)
Record objects : Set := Objects {
  o_um : gset Z; o_mutexes : gset nat; o_conds : gset nat; o_threads : gset nat }.
Definition objects_of (s : sst) : objects :=
  Objects (dom (um s)) (dom (mutexes (wo s))) (dom (conds (wo s))) (dom (threads (wo s))).

Definition ptr_ok (O : objects) (p : Z) : Prop := p = 0 \/ p ∈ o_um O.

(** The arguments of an event fit its type, and what they refer to exists. *)
Definition event_ok (O : objects) (x : pth_event_st) : Prop :=
  match ev_args x with
  | AFd fd => ev_type x = PTH_EVENT_FD /\ fd_ok fd = true
  | ASelect pn nfd r w e =>
      ev_type x = PTH_EVENT_SELECT /\ ptr_ok O pn /\ 0 <= nfd <= FD_SETSIZE /\ ptr_ok O r /\ ptr_ok O w /\ ptr_ok O e /\
      (r = 0 \/ r <> w) /\ (r = 0 \/ r <> e) /\ (w = 0 \/ w <> e)
  | ASigs pset psig => (ev_type x = PTH_EVENT_SIGS \/ ev_type x = PTH_EVENT_TIME_SIGS) /\ pset ∈ o_um O /\ ptr_ok O psig
  | AMutex m => ev_type x = PTH_EVENT_MUTEX /\ m ∈ o_mutexes O
  | ACond c => ev_type x = PTH_EVENT_COND /\ c ∈ o_conds O
  | ATid t => ev_type x = PTH_EVENT_TID /\ (forall u, t = Some u -> u ∈ o_threads O)
  | ATime _ => ev_type x = PTH_EVENT_TIME
  | AMsg _ => ev_type x = PTH_EVENT_MSG
  | AFunc _ _ _ => ev_type x = PTH_EVENT_FUNC
  end.

(** The types differ from each other. *)
Ltac type_cases :=
  repeat match goal with
  | H : ev_type ?x = _ |- context [ev_type ?x] => rewrite H
  | |- context [bool_decide (?a = ?a)] => rewrite (bool_decide_eq_true_2 (a = a)) by reflexivity
  | |- context [bool_decide (?a = ?b)] => rewrite (bool_decide_eq_false_2 (a = b)) by (vm_compute; discriminate)
  end; cbn [andb orb negb].

Definition with_occurred (b : bool) (x : pth_event_st) : pth_event_st :=
  Event b (ev_type x) (ev_goal x) (ev_flags x) (ev_args x).

(** ** What has happened

    The tests of the last pass, as a function of the state: of a bounded native
    mutexes, condition variables and threads are looked at, of the others the
    answer of [select] and the signals that were seen. *)
Definition fd_hit (goal fd : Z) (l : loc) : bool :=
  (flag goal PTH_UNTIL_FD_READABLE && Z.testbit (rfds l) fd) || (flag goal PTH_UNTIL_FD_WRITEABLE && Z.testbit (wfds l) fd) ||
  (flag goal PTH_UNTIL_FD_EXCEPTION && Z.testbit (efds l) fd).

(** Some descriptor below [nfd] is asked for and ready. *)
Definition select_hit (nfd r w e : Z) (l : loc) (u : umem) : bool :=
  let k := common (seqZ 0 nfd) in bool_decide (0 < k (members u r) (rfds l) + k (members u w) (wfds l) + k (members u e) (efds l)).

Definition cond_hit (c : pth_cond_st) : bool :=
  flag (cn_state c) PTH_COND_SIGNALED && (flag (cn_state c) PTH_COND_BROADCAST || negb (flag (cn_state c) PTH_COND_HANDLED)).

Definition signal_hit (set raised sig : Z) : bool := sigismember set sig && sigispending raised sig.

Definition happens (PTH_NSIG : Z) (n : nat) (bounded : bool) (l : loc) (ds : nat) (s : sst) (x : pth_event_st) : bool :=
  match ev_args x with
  | AFd fd => negb bounded && bool_decide (ds = n) && fd_hit (ev_goal x) fd l
  | ASelect _ nfd r w e => negb bounded && select_hit nfd r w e l (um s)
  | ASigs pset _ =>
      match um s !! pset, dx s !! n with
      | Some set, Some d => negb bounded && existsb (signal_hit set (sigraised d)) (sigs PTH_NSIG)
      | _, _ => false
      end
  | AMutex m => match mutexes (wo s) !! m with Some y => bounded && negb (flag (mx_state y) PTH_MUTEX_LOCKED) | None => false end
  | ACond c => match conds (wo s) !! c with Some y => bounded && cond_hit y | None => false end
  | ATid (Some u) => match threads (wo s) !! u with Some y => bounded && bool_decide (state_num (state y) = ev_goal x) | None => false end
  | ATid None | ATime _ | AMsg _ | AFunc _ _ _ => false
  end.

Definition handled (c : pth_cond_st) : pth_cond_st := set_cn_state (set_flag (cn_state c) PTH_COND_HANDLED) c.
Definition writes_words (a : event_args) : bool := match a with ASelect _ _ _ _ _ | ASigs _ _ => true | _ => false end.

(** What is left of what the tests look at, when events with arguments in [P]
    have occurred and threads were made ready. *)
Record touched (P : event_args -> Prop) (s s' : sst) : Prop := {
  to_mutexes : mutexes (wo s') = mutexes (wo s);
  to_conds : forall c, conds (wo s') !! c = conds (wo s) !! c \/ (P (ACond c) /\ conds (wo s') !! c = handled <$> conds (wo s) !! c);
  to_um : um s' = um s \/ exists a, P a /\ writes_words a = true;
  to_dx : dx s' = dx s \/ exists pset psig, P (ASigs pset psig);
  to_threads : forall u, threads (wo s') !! u = threads (wo s) !! u \/ threads (wo s') !! u = woken <$> threads (wo s) !! u }.

Lemma touched_refl P s : touched P s s.
Proof. split; auto. Qed.

Lemma touched_mono (P P' : event_args -> Prop) s s' : touched P s s' -> (forall a, P a -> P' a) -> touched P' s s'.
Proof. intros [] H. split; naive_solver. Qed.

Lemma touched_trans (P : event_args -> Prop) s1 s2 s3 : touched P s1 s2 -> touched P s2 s3 -> touched P s1 s3.
Proof.
  intros [M1 C1 U1 D1 T1] [M2 C2 U2 D2 T2]. split; [congruence| |destruct U1, U2; auto; left; congruence|destruct D1, D2; auto; left; congruence|].
  - intros c. destruct (C1 c) as [E1|[HP E1]], (C2 c) as [E2|[HP' E2]]; rewrite E2, E1; [by left|by right..|].
    right. split; [done|]. destruct (conds (wo s1) !! c) as [z|]; [|done]. cbn. unfold handled, set_flag. cbn.
    by rewrite <- Z.lor_assoc, Z.lor_diag.
  - intros u. destruct (T1 u) as [E1|E1], (T2 u) as [E2|E2]; rewrite E2, E1; [by left|by right..|].
    right. destruct (threads (wo s1) !! u) as [[]|]; done.
Qed.

(** What the check of one event may change: whether it has occurred, which is
    [b] afterwards, and, if it has, the condition variable, the words its
    arguments point to, and the signals that were seen. *)
Record checked (b : bool) (ev : nat) (x : pth_event_st) (s s' : sst) : Prop := {
  ck_conds : exists c, wo s' = set_conds c (wo s) /\ dom c = dom (conds (wo s));
  ck_tx : tx s' = tx s;
  ck_links : elinks (evs s') = elinks (evs s);
  ck_body : ebody (evs s') = <[ev := with_occurred b x]> (ebody (evs s));
  ck_um : dom (um s') = dom (um s);
  ck_dx : dom (dx s') = dom (dx s);
  ck_touched : touched (fun a => b = true /\ a = ev_args x) s s' }.

Lemma set_conds_id w : set_conds (conds w) w = w.
Proof. by destruct w. Qed.

Lemma with_occurred_id y : with_occurred (ev_occurred y) y = y.
Proof. by destruct y. Qed.

Lemma checked_refl ev x s : ebody (evs s) !! ev = Some x -> checked (ev_occurred x) ev x s s.
Proof.
  intros Hx. split; try done.
  - exists (conds (wo s)). split; [by rewrite set_conds_id|done].
  - by rewrite with_occurred_id, insert_id.
  - apply touched_refl.
Qed.

(** Nothing has happened. *)
Lemma checked_none b ev x s : ebody (evs s) !! ev = Some x -> ev_occurred x = b -> checked b ev x s s.
Proof. intros Hx <-. by apply checked_refl. Qed.

(** Whatever the event looks like in between, the check is one of [x]. *)
Lemma checked_trans (b1 b2 : bool) ev x s1 s2 s3 : (b1 = true -> b2 = true) ->
  checked b1 ev x s1 s2 -> checked b2 ev (with_occurred b1 x) s2 s3 -> checked b2 ev x s1 s3.
Proof.
  intros Hb [(c & W1 & C1) T1 E1 B1 U1 D1 P1] [(c' & W2 & C2) T2 E2 B2 U2 D2 P2]. split; try congruence.
  - exists c'. rewrite W2, W1. split; [done|]. rewrite C2, W1. done.
  - rewrite B2, B1. apply insert_insert_eq.
  - eapply touched_trans; [|exact P2]. eapply touched_mono; [exact P1|]. naive_solver.
Qed.

Lemma wp_mark_occurred ev x s (R : unit -> sst -> Prop) :
  ebody (evs s) !! ev = Some x -> R tt (set_evs (set_ebody (<[ev := with_occurred true x]> (ebody (evs s))) (evs s)) s) ->
  wp (mark_occurred ev) R s.
Proof. intros Hx HR. apply wp_one. eapply wp_run; [by apply upd_ev_run|]. exact HR. Qed.

Lemma checked_mark ev x s :
  ebody (evs s) !! ev = Some x -> checked true ev x s (set_evs (set_ebody (<[ev := with_occurred true x]> (ebody (evs s))) (evs s)) s).
Proof.
  intros Hx. split; try done.
  - exists (conds (wo s)). split; [by rewrite set_conds_id|done].
  - split; auto.
Qed.

Section lift_est.
Context {A : Type} (x : est).
Lemma wp_ong (c : M sst A) (R : A -> est -> Prop) : wp c (fun a s => R a (Est s (lo x))) (gs x) -> wp (ong c) R x.
Proof. exact (wp_zoom gs (fun s x => Est s (lo x)) c R x). Qed.
End lift_est.
(** Reading does not change the state. *)
Lemma wp_read {A} (c : M sst A) a x (R : A -> est -> Prop) : c (gs x) = Ok (a, gs x) -> R a x -> wp (ong c) R x.
Proof. intros E HR. apply wp_ong. eapply wp_run; [exact E|]. by destruct x. Qed.
Lemma onw_read {A} (c : M world A) a s : c (wo s) = Ok (a, wo s) -> onw c s = Ok (a, s).
Proof. unfold onw, zoom. intros ->. by rewrite set_wo_id. Qed.
Lemma one_read {A} (c : M emem A) a s : c (evs s) = Ok (a, evs s) -> one c s = Ok (a, s).
Proof. unfold one, zoom. intros ->. by destruct s. Qed.
Lemma est_eta x : Est (gs x) (lo x) = x.
Proof. by destruct x. Qed.

(** ** One event *)

Lemma get_c_run w c x : conds w !! c = Some x -> get_c c w = Ok (x, w).
Proof. intros E. unfold get_c, get, mbind, M_bind. by rewrite E. Qed.
Lemma upd_c_run w c x f : conds w !! c = Some x -> upd_c c f w = Ok (tt, set_conds (<[c := f x]> (conds w)) w).
Proof. intros E. unfold upd_c. by rewrite (bind_run _ _ _ _ _ (get_c_run w c x E)). Qed.

Section late_event.
Context (PTH_NSIG : Z) (n : nat).
Notation hit := (happens PTH_NSIG n).

Lemma late_bounded_ok ds ev y x : ebody (evs (gs x)) !! ev = Some y -> ev_occurred y = false -> event_ok (objects_of (gs x)) y ->
  wp (late_bounded ev y) (fun _ x' => lo x' = lo x /\ checked (hit true (lo x) ds (gs x) y) ev y (gs x) (gs x')) x.
Proof.
  intros Hy Hno Hok. unfold late_bounded, happens.
  assert (forall b x', x' = x -> b = false -> lo x' = lo x /\ checked b ev y (gs x) (gs x')) as Hsame
    by (intros b x' -> ->; split; [done|by apply checked_none]).
  assert (forall b, b = true -> wp (ong (mark_occurred ev)) (fun _ x' => lo x' = lo x /\ checked b ev y (gs x) (gs x')) x) as Hmark.
  { intros b ->. apply wp_ong. eapply wp_mark_occurred; [done|]. split; [done|by apply checked_mark]. }
  assert (forall b, b = false -> wp (mret tt) (fun _ x' => lo x' = lo x /\ checked b ev y (gs x) (gs x')) x) as Hnone
    by (intros b Hb; by apply wp_ret, Hsame).
  unfold event_ok in Hok. destruct (ev_args y) as [fd|pn nfd r w e|pset psig|tv|mp|m|c|t|f arg tv] eqn:Ea;
    cbn [objects_of o_um o_mutexes o_conds o_threads] in Hok;
    match type of Hok with _ /\ _ => destruct Hok as [Ht Hok] | _ => rename Hok into Ht end.
  - type_cases. apply wp_bind, wp_ret. by apply Hnone.
  - type_cases. apply wp_bind, wp_ret. by apply Hnone.
  - assert (match um (gs x) !! pset, dx (gs x) !! n with Some set, Some d => false | _, _ => false end = false) as E by (by repeat case_match).
    destruct Ht as [Ht|Ht]; type_cases; apply wp_bind, wp_ret; by apply Hnone.
  - type_cases. apply wp_bind, wp_ret. by apply Hnone.
  - type_cases. apply wp_bind, wp_ret. by apply Hnone.
  - apply elem_of_dom in Hok as [z Hz]. rewrite Hz. type_cases. apply wp_bind, wp_bind. eapply wp_read; [apply onw_read, get_m_run, Hz|].
    destruct (flag _ _); [apply wp_ret, wp_ret; by apply Hsame|]. eapply wp_mono; [by apply Hmark|]. intros [] x1 Hx1. by apply wp_ret.
  - apply elem_of_dom in Hok as [z Hz]. rewrite Hz. unfold cond_hit. type_cases. apply wp_bind, wp_bind. eapply wp_read; [apply onw_read, get_c_run, Hz|].
    destruct (flag _ PTH_COND_SIGNALED); cbn [negb]; [|apply wp_ret, wp_ret; by apply Hsame].
    destruct (flag _ PTH_COND_BROADCAST); [eapply wp_mono; [by apply Hmark|]; intros [] x1 Hx1; by apply wp_ret|].
    destruct (flag _ PTH_COND_HANDLED); [apply wp_ret, wp_ret; by apply Hsame|].
    apply wp_bind, wp_ong, wp_onw. eapply wp_run; [by apply upd_c_run|]. apply wp_ong. eapply wp_mark_occurred; [done|].
    apply wp_ret. split; [done|]. split; try done.
    + eexists. split; [reflexivity|]. rewrite dom_insert_L. apply elem_of_dom_2 in Hz. set_solver.
    + split; auto. intros c'. cbn. destruct (decide (c' = c)) as [->|]; [right|left; by rewrite lookup_insert_ne].
      split; [by rewrite Ea|]. by rewrite lookup_insert_eq, Hz.
  - type_cases. apply wp_bind, wp_ret. destruct t as [u|]; [|by apply Hnone]. destruct (proj1 (elem_of_dom _ _) (Hok u eq_refl)) as [z Hz].
    rewrite Hz. apply wp_bind. eapply wp_read; [apply onw_read, get_t_run, Hz|]. case_bool_decide; [by apply Hmark|by apply Hnone].
  - type_cases. apply wp_bind, wp_ret. by apply Hnone.
Qed.

(** The word at a pointer of the caller is written. *)
Lemma wp_user_write p v s (R : unit -> sst -> Prop) : p ∈ dom (um s) ->
  (forall u, dom u = dom (um s) -> R tt (set_um u s)) -> wp (user_write p v) R s.
Proof.
  intros [w Hw]%elem_of_dom HR. unfold user_write. apply wp_bind, wp_get, wp_bind.
  eapply wp_of_option; [exact Hw|]. apply wp_modify, HR. rewrite dom_insert_L. apply elem_of_dom_2 in Hw. set_solver.
Qed.

Lemma checked_body b ev y s s' : checked b ev y s s' -> ebody (evs s') !! ev = Some (with_occurred b y).
Proof. intros [_ _ _ -> _ _ _]. apply lookup_insert_eq. Qed.

(** The event is marked after its words were written. *)
Lemma checked_mark_um ev y s u : ebody (evs s) !! ev = Some y -> writes_words (ev_args y) = true -> dom u = dom (um s) ->
  checked true ev y s (set_evs (set_ebody (<[ev := with_occurred true y]> (ebody (evs s))) (evs s)) (set_um u s)).
Proof.
  intros Hy Hw Hu. split; try done.
  - exists (conds (wo s)). split; [by rewrite set_conds_id|done].
  - split; auto. right. by exists (ev_args y).
Qed.

Lemma late_sigs_ok l ev set pset psig : forall y d x, ebody (evs (gs x)) !! ev = Some y -> ev_args y = ASigs pset psig ->
  psig = 0 \/ psig ∈ dom (um (gs x)) -> dx (gs x) !! n = Some d ->
  wp (late_sigs n l ev set psig) (fun _ x' => lo x' = lo x /\
    checked (ev_occurred y || existsb (signal_hit set (sigraised d)) l) ev y (gs x) (gs x')) x.
Proof.
  induction l as [|sig l IH]; intros y d x Hy Ea Hp Hd; cbn [late_sigs existsb].
  { apply wp_ret. split; [done|]. rewrite orb_false_r. by apply checked_refl. }
  apply wp_bind. eapply wp_read.
  { unfold get_dx. rewrite (bind_run get _ _ _ _ eq_refl), Hd. done. }
  fold (signal_hit set (sigraised d) sig). destruct (signal_hit set (sigraised d) sig); cbn [orb].
  2:{ apply wp_bind, wp_ret. by apply IH. }
  rewrite orb_true_r. apply wp_bind, wp_bind.
  eapply (wp_mono _ (fun _ x1 => lo x1 = lo x /\ exists u, gs x1 = set_um u (gs x) /\ dom u = dom (um (gs x)))).
  { case_bool_decide as H0; [apply wp_ret; split; [done|]; exists (um (gs x)); split; [by destruct (gs x)|done]|].
    apply wp_ong, wp_user_write; [by destruct Hp|]. intros u Hu. split; [done|]. by exists u. }
  intros _ x1 (El & u & Eu & Hu). destruct x1 as [s1 l1]. cbn in *. subst s1 l1.
  apply wp_bind, wp_ong. unfold upd_dx, get_dx. apply wp_bind, wp_bind, wp_get. eapply wp_of_option; [exact Hd|]. apply wp_modify.
  apply wp_ong. eapply wp_mark_occurred; [exact Hy|]. set (s2 := set_evs _ _).
  assert (checked true ev y (gs x) s2) as Hc1.
  { split; try done.
    - exists (conds (wo (gs x))). by rewrite set_conds_id.
    - cbn. rewrite dom_insert_L. apply elem_of_dom_2 in Hd. set_solver.
    - split; auto; right; [by exists (ev_args y); rewrite Ea|by exists pset, psig; rewrite Ea]. }
  eapply wp_mono; [apply (IH (with_occurred true y) (set_sigraised (sigdelpending (sigraised d) sig) d) (Est s2 (lo x)))|].
  - cbn. apply lookup_insert_eq.
  - done.
  - cbn. by rewrite Hu.
  - cbn. apply lookup_insert_eq.
  - intros _ x2 [El2 Hc2]. split; [exact El2|]. by eapply checked_trans; [|exact Hc1|exact Hc2].
Qed.

Lemma ptr_readable s p : ptr_ok (objects_of s) p -> readable (um s) p.
Proof. intros [->|H]; [by left|right]. by apply elem_of_dom. Qed.

Lemma fd_isset_ok fd set : fd_ok fd = true -> FD_ISSET fd set = Ok (Z.testbit set fd).
Proof. unfold FD_ISSET. by intros ->. Qed.

(** A test that is made only if a flag is set. *)
Lemma wp_test (c : bool) (r : res bool) b (R : bool -> est -> Prop) x : r = Ok b ->
  R (c && b) x -> wp (if c then of_res r else mret false) R x.
Proof. intros -> HR. destruct c; [eapply wp_of_res; [reflexivity|]|apply wp_ret]; apply HR. Qed.

Lemma late_select_ok ev y x pn nfd r w e :
  ebody (evs (gs x)) !! ev = Some y -> ev_occurred y = false -> event_ok (objects_of (gs x)) y -> ev_args y = ASelect pn nfd r w e ->
  wp (s ← ong get;
      b ← of_res (pth_util_fds_test nfd r w e (um s) (rfds (lo x), wfds (lo x), efds (lo x)));
      if (b : bool) then
        '(k, u) ← of_res (pth_util_fds_select nfd r w e (rfds (lo x), wfds (lo x), efds (lo x)) (um s));
        ong (modify (set_um u));;
        (if bool_decide (pn = 0) then mret tt else ong (user_write pn k));;
        ong (mark_occurred ev)
      else mret tt) (fun _ x' => lo x' = lo x /\ checked (select_hit nfd r w e (lo x) (um (gs x))) ev y (gs x) (gs x')) x.
Proof.
  intros Hy Hno Hok Ea. unfold event_ok in Hok. rewrite Ea in Hok. destruct Hok as (_ & Hpn & Hn & Hr & Hw & He & D1 & D2 & D3).
  apply wp_bind. eapply wp_read; [reflexivity|]. unfold pth_util_fds_test, pth_util_fds_select.
  pose proof (fds_ok nfd Hn) as Hs. apply wp_bind.
  eapply wp_of_res; [apply test_loop_run; [exact Hs|by apply ptr_readable..]|]. fold (select_hit nfd r w e (lo x) (um (gs x))).
  destruct (select_hit nfd r w e (lo x) (um (gs x))); [|apply wp_ret; split; [done|by apply checked_none]].
  assert (three_sets (um (gs x)) r w e) as H3 by (split_and!; try done; by apply ptr_readable).
  destruct (select_loop_run (seqZ 0 nfd) r w e (rfds (lo x)) (wfds (lo x)) (efds (lo x)) 0 (um (gs x)) Hs (NoDup_seqZ _ _) H3)
    as (u & E & Du & _). apply wp_bind. eapply wp_of_res; [exact E|].
  apply wp_bind, wp_ong, wp_modify. apply wp_bind.
  eapply (wp_mono _ (fun _ x1 => lo x1 = lo x /\ exists u, gs x1 = set_um u (gs x) /\ dom u = dom (um (gs x)))).
  - case_bool_decide as H0; [apply wp_ret; split; [done|]; by exists u|].
    apply wp_ong, wp_user_write; [cbn; rewrite Du; by destruct Hpn|]. intros u' Hu'. split; [done|]. exists u'. split; [done|]. cbn in Hu'. congruence.
  - intros _ x1 (El & u1 & Eu & Hu1). apply wp_ong. rewrite Eu. eapply wp_mark_occurred; [exact Hy|]. split; [done|].
    refine (checked_mark_um ev y (gs x) u1 Hy _ Hu1). by rewrite Ea.
Qed.

Lemma late_unbounded_ok ds ev y x : ebody (evs (gs x)) !! ev = Some y -> ev_occurred y = false -> event_ok (objects_of (gs x)) y -> n ∈ dom (dx (gs x)) ->
  wp (late_unbounded PTH_NSIG n ds ev y) (fun _ x' => lo x' = lo x /\ checked (hit false (lo x) ds (gs x) y) ev y (gs x) (gs x')) x.
Proof.
  intros Hy Hno Hok Hn. unfold late_unbounded. apply wp_bind. unfold get_l. apply wp_gets.
  assert (forall b, b = false -> wp (mret tt) (fun _ x' => lo x' = lo x /\ checked b ev y (gs x) (gs x')) x) as Hnone
    by (intros b ->; apply wp_ret; split; [done|by apply checked_none]).
  assert (forall b, b = true -> wp (ong (mark_occurred ev)) (fun _ x' => lo x' = lo x /\ checked b ev y (gs x) (gs x')) x) as Hmark.
  { intros b ->. apply wp_ong. eapply wp_mark_occurred; [done|]. split; [done|by apply checked_mark]. }
  pose proof (late_select_ok ev y x) as Hsel. pose proof Hok as Hok'. unfold event_ok in Hok. unfold happens.
  destruct (ev_args y) as [fd|pn nfd r w e|pset psig|tv|mp|m|c|t|f arg tv] eqn:Ea;
    cbn [objects_of o_um o_mutexes o_conds o_threads] in Hok;
    match type of Hok with _ /\ _ => destruct Hok as [Ht Hok] | _ => rename Hok into Ht end.
  - type_cases. destruct (bool_decide (ds = n)); [|by apply Hnone]. cbn [andb negb]. unfold fd_hit.
    apply wp_bind. eapply wp_test; [by apply fd_isset_ok|]. apply wp_bind. eapply wp_test; [by apply fd_isset_ok|].
    apply wp_bind. eapply wp_test; [by apply fd_isset_ok|].
    destruct (flag (ev_goal y) PTH_UNTIL_FD_READABLE && Z.testbit (rfds (lo x)) fd); [by apply Hmark|]. cbn [orb negb andb].
    destruct (flag (ev_goal y) PTH_UNTIL_FD_WRITEABLE && Z.testbit (wfds (lo x)) fd); [by apply Hmark|]. cbn [orb negb andb].
    destruct (flag (ev_goal y) PTH_UNTIL_FD_EXCEPTION && Z.testbit (efds (lo x)) fd); [by apply Hmark|by apply Hnone].
  - type_cases. by apply (Hsel pn).
  - destruct Hok as [[v Hv]%elem_of_dom Hp]. apply elem_of_dom in Hn as [d Hd].
    pose proof (late_sigs_ok (sigs PTH_NSIG) ev v pset psig y d x Hy Ea Hp Hd) as Hsig. rewrite Hno in Hsig. rewrite Hv, Hd.
    destruct Ht as [Ht|Ht]; type_cases; apply wp_bind;
      (eapply wp_read; [unfold user_read; rewrite (bind_run get _ _ _ _ eq_refl), Hv; reflexivity|]); exact Hsig.
  - type_cases. by apply Hnone.
  - type_cases. by apply Hnone.
  - type_cases. apply Hnone. by case_match.
  - type_cases. apply Hnone. by case_match.
  - type_cases. apply Hnone. by repeat case_match.
  - type_cases. by apply Hnone.
Qed.
End late_event.

Lemma checked_objects b ev y s s' : checked b ev y s s' -> objects_of s' = objects_of s.
Proof. intros [(c & W & C) _ _ _ U _ _]. unfold objects_of. rewrite W, U. cbn. by rewrite C. Qed.

(** ** The events of a thread *)

(** Whether event [e] has occurred. *)
Definition occurred (s : sst) (e : nat) : bool := occurs (evs s) e.

(** All events of the list exist and are right. *)
Definition events_ok (s : sst) (es : list nat) : Prop :=
  forall e, e ∈ es -> exists y, ebody (evs s) !! e = Some y /\ event_ok (objects_of s) y.

(** An event of [es] with the arguments [a] has occurred between the two states. *)
Definition newly (es : list nat) (s s' : sst) (a : event_args) : Prop :=
  exists e y, e ∈ es /\ ebody (evs s) !! e = Some y /\ ev_occurred y = false /\ ev_args y = a /\ occurred s' e = true.

(** Events are only marked. *)
Definition marked (s s' : sst) : Prop :=
  forall e y, ebody (evs s) !! e = Some y -> exists b, ebody (evs s') !! e = Some (with_occurred b y) /\ (ev_occurred y = true -> b = true).

Lemma marked_refl s : marked s s.
Proof. intros e y Hy. exists (ev_occurred y). by rewrite with_occurred_id. Qed.

Lemma marked_trans s1 s2 s3 : marked s1 s2 -> marked s2 s3 -> marked s1 s3.
Proof.
  intros S1 S2 e y (b & Hb & M)%S1. destruct (S2 _ _ Hb) as (b' & Hb' & M'). exists b'. split; [done|]. auto.
Qed.

Lemma newly_l es es' s1 s2 s3 a : marked s2 s3 -> newly es s1 s2 a -> newly (es ++ es') s1 s3 a.
Proof.
  intros M (e & y & He & Hy & Hno & Ha & Hocc). exists e, y. split_and!; try done; [set_solver|].
  unfold occurred, occurs in *. destruct (ebody (evs s2) !! e) as [z|] eqn:Ez; [|done].
  destruct (M e z Ez) as (b & -> & Hb). by apply Hb.
Qed.

Lemma newly_r es es' s1 s2 s3 a : marked s1 s2 -> (forall e, is_Some (ebody (evs s2) !! e) -> is_Some (ebody (evs s1) !! e)) ->
  newly es' s2 s3 a -> newly (es ++ es') s1 s3 a.
Proof.
  intros M Hdom (e & y & He & Hy & Hno & Ha & Hocc). destruct (Hdom e ltac:(by eexists)) as [z Hz].
  destruct (M e z Hz) as (b & Hb & Hm). rewrite Hy in Hb. injection Hb as ->. exists e, z. split_and!; try done; [set_solver|].
  destruct (ev_occurred z); [by rewrite Hm in Hno|done].
Qed.

(** What the check of the events [es] leaves alone, and what it may change. *)
Record scan_frame (es : list nat) (s s' : sst) : Prop := {
  sf_objects : objects_of s' = objects_of s;
  sf_tx : tx s' = tx s;
  sf_links : elinks (evs s') = elinks (evs s);
  sf_other : forall e, e ∉ es -> ebody (evs s') !! e = ebody (evs s) !! e;
  sf_same : marked s s';
  sf_bodies : dom (ebody (evs s')) = dom (ebody (evs s));
  sf_dx : dom (dx s') = dom (dx s);
  sf_pipes : set_sigpipe 0 <$> natives (wo s') = set_sigpipe 0 <$> natives (wo s);
  sf_touched : touched (newly es s s') s s' }.

Lemma sf_natives es s s' : scan_frame es s s' -> length (natives (wo s')) = length (natives (wo s)).
Proof. intros Hf. by rewrite <- (length_fmap (set_sigpipe 0)), (sf_pipes _ _ _ Hf), length_fmap. Qed.

Lemma scan_frame_refl es s : scan_frame es s s.
Proof. split; try done; [apply marked_refl|apply touched_refl]. Qed.

Lemma scan_frame_trans es es' s1 s2 s3 : scan_frame es s1 s2 -> scan_frame es' s2 s3 -> scan_frame (es ++ es') s1 s3.
Proof.
  intros [A1 T1 E1 O1 S1 B1 D1 N1 P1] [A2 T2 E2 O2 S2 B2 D2 N2 P2]. split; try congruence.
  - intros e He. rewrite O2, O1 by set_solver. done.
  - by eapply marked_trans.
  - eapply touched_trans.
    + eapply touched_mono; [exact P1|]. intros a. by apply newly_l.
    + eapply touched_mono; [exact P2|]. intros a. apply newly_r; [done|]. intros e. rewrite <- !elem_of_dom. by rewrite B1.
Qed.

(** The same without threads that become ready: the world changes in the
    condition variables only. *)
Record ring_checked (es : list nat) (s s' : sst) : Prop := {
  rc_conds : exists c, wo s' = set_conds c (wo s);
  rc_frame : scan_frame es s s' }.

Lemma ring_checked_one b ev y s s' : ebody (evs s) !! ev = Some y -> ev_occurred y = false -> checked b ev y s s' -> ring_checked [ev] s s'.
Proof.
  intros Hy Hno Hc. pose proof (checked_objects _ _ _ _ _ Hc) as HO. pose proof Hc as [(c & W & C) H2 H3 H4 H5 H6 H7]. split; [by exists c|]. split; try done.
  - intros e He. rewrite H4, lookup_insert_ne by set_solver. done.
  - intros e z Hz. rewrite H4. destruct (decide (ev = e)) as [<-|].
    + rewrite Hy in Hz. injection Hz as <-. exists b. rewrite lookup_insert_eq. split; [done|congruence].
    + exists (ev_occurred z). rewrite lookup_insert_ne by done. by rewrite with_occurred_id.
  - rewrite H4, dom_insert_L. apply elem_of_dom_2 in Hy. set_solver.
  - by rewrite W.
  - eapply touched_mono; [exact H7|]. intros a [-> ->]. exists ev, y. split_and!; try done; [set_solver|].
    unfold occurred, occurs. by rewrite H4, lookup_insert_eq.
Qed.

Lemma ring_checked_refl es s : ring_checked es s s.
Proof. split; [exists (conds (wo s)); by rewrite set_conds_id|apply scan_frame_refl]. Qed.

Lemma ring_checked_trans es es' s1 s2 s3 : ring_checked es s1 s2 -> ring_checked es' s2 s3 -> ring_checked (es ++ es') s1 s3.
Proof.
  intros [(c & W1) F1] [(c' & W2) F2]. split; [|by eapply scan_frame_trans]. exists c'. by rewrite W2, W1.
Qed.

Lemma events_ok_checked es' es s s' : scan_frame es' s s' -> events_ok s es -> events_ok s' es.
Proof.
  intros Hf Hok e (y & Hy & He)%Hok. destruct (sf_same _ _ _ Hf _ _ Hy) as (b & Hb & _).
  exists (with_occurred b y). split; [done|]. by rewrite (sf_objects _ _ _ Hf).
Qed.

(** ** Why an event has occurred

    [evs]: the events that are checked, each with the slot of the native in whose
    wait queue its thread is.  Each of them has occurred afterwards if it had before,
    or if it happens in the state in which it is checked, which is the one before
    but for what events earlier in the list, and threads made ready, have changed. *)
Section explained.
Context (PTH_NSIG : Z) (n : nat) (bounded : bool) (l : loc).

Definition explained (es : list (nat * nat)) (s s' : sst) : Prop :=
  forall es1 ds e es2 y, es = es1 ++ (ds, e) :: es2 -> ebody (evs s) !! e = Some y ->
    exists s1, scan_frame es1.*2 s s1 /\ occurred s' e = ev_occurred y || happens PTH_NSIG n bounded l ds s1 y.

Lemma explained_nil s s' : explained [] s s'.
Proof. intros es1 ds e es2 y E. by destruct es1. Qed.

Lemma explained_one ds e y s s' : ebody (evs s) !! e = Some y ->
  occurred s' e = ev_occurred y || happens PTH_NSIG n bounded l ds s y -> explained [(ds, e)] s s'.
Proof.
  intros Hy Ho [|? []] ds' e' es2 z E Hz; simplify_eq/=. exists s. split; [apply scan_frame_refl|done].
Qed.

Lemma explained_app es es' s1 s2 s3 : (forall e, e ∈ es.*2 -> e ∉ es'.*2) ->
  scan_frame es.*2 s1 s2 -> scan_frame es'.*2 s2 s3 -> explained es s1 s2 -> explained es' s2 s3 -> explained (es ++ es') s1 s3.
Proof.
  intros Hdis F1 F2 X1 X2 esa ds e esb y E Hy.
  destruct (app_eq_inv es es' esa ((ds, e) :: esb) E) as [(k & E1 & E2)|(k & E1 & E2)].
  - destruct k as [|x k]; cbn [app] in E2; [|injection E2 as <- ->]; subst es.
    + rewrite app_nil_r in *. subst es'. destruct (X2 [] ds e esb y eq_refl) as (sa & Ha & Ho).
      { rewrite (sf_other _ _ _ F1); [done|]. intros Hin. apply (Hdis e Hin). cbn. by left. }
      exists sa. split; [|exact Ho]. rewrite <- (app_nil_r esa.*2). by eapply scan_frame_trans.
    + destruct (X1 esa ds e k y eq_refl Hy) as (sa & Ha & Ho). exists sa. split; [done|].
      rewrite <- Ho. unfold occurred, occurs. rewrite (sf_other _ _ _ F2); [done|]. apply Hdis. rewrite fmap_app. set_solver.
  - subst. destruct (X2 k ds e esb y eq_refl) as (sa & Ha & Ho).
    { rewrite (sf_other _ _ _ F1); [done|]. intros Hin. apply (Hdis e Hin). rewrite fmap_app. set_solver. }
    exists sa. split; [|exact Ho]. rewrite fmap_app. by eapply scan_frame_trans.
Qed.
End explained.

Lemma pairs_snd (ds : nat) (es : list nat) : (pair ds <$> es).*2 = es.
Proof. rewrite <- list_fmap_compose. apply list_fmap_id. Qed.

Section late_ring.
Context (PTH_NSIG : Z) (n ds : nat) (bounded : bool).
Notation explained := (explained PTH_NSIG n bounded).

Lemma get_ev_read s e y : ebody (evs s) !! e = Some y -> one (get_ev e) s = Ok (y, s).
Proof. intros Hy. by apply one_read, get_ev_run. Qed.

(** The check of one event, whether it is needed or not. *)
Lemma late_one ev y x : ebody (evs (gs x)) !! ev = Some y -> event_ok (objects_of (gs x)) y -> n ∈ dom (dx (gs x)) ->
  wp (if ev_occurred y then mret tt else if bounded then late_bounded ev y else late_unbounded PTH_NSIG n ds ev y)
    (fun _ x' => lo x' = lo x /\ ring_checked [ev] (gs x) (gs x') /\ explained (lo x) [(ds, ev)] (gs x) (gs x') /\
      exists b, ebody (evs (gs x')) !! ev = Some (with_occurred b y)) x.
Proof.
  intros Hy Hok Hn. destruct (ev_occurred y) eqn:Hno.
  { apply wp_ret. split; [done|]. split; [apply ring_checked_refl|]. split; [|exists true; rewrite <- Hno; by rewrite with_occurred_id].
    eapply explained_one; [done|]. unfold occurred, occurs. by rewrite Hy, Hno. }
  assert (wp (if bounded then late_bounded ev y else late_unbounded PTH_NSIG n ds ev y)
    (fun _ x' => lo x' = lo x /\ checked (happens PTH_NSIG n bounded (lo x) ds (gs x) y) ev y (gs x) (gs x')) x) as H
    by (destruct bounded; [by apply late_bounded_ok|by apply late_unbounded_ok]).
  eapply wp_mono; [exact H|]. intros _ x' [El Hc]. pose proof (checked_body _ _ _ _ _ Hc) as Hb. split_and!; [done|by eapply ring_checked_one| |by eexists].
  eapply explained_one; [done|]. unfold occurred, occurs. by rewrite Hb, Hno.
Qed.

Lemma late_ring_from evh ys : forall fuel ev any x,
  chain (elinks (evs (gs x))) ev ys evh -> NoDup (ev :: ys) -> evh ∉ ys -> events_ok (gs x) (ev :: ys) ->
  n ∈ dom (dx (gs x)) -> (length ys < fuel)%nat ->
  wp (late_ring PTH_NSIG n fuel ds evh ev bounded any) (fun r x' => lo x' = lo x /\
    ring_checked (ev :: ys) (gs x) (gs x') /\ explained (lo x) (pair ds <$> ev :: ys) (gs x) (gs x') /\
    r = any || existsb (occurred (gs x')) (ev :: ys)) x.
Proof.
  induction ys as [|e ys IH]; intros [|fuel] ev any x Hc Hnd Hh Hok Hn Hf; simpl in Hf; try lia; cbn [late_ring].
  all: destruct (Hok ev ltac:(set_solver)) as (y & Hy & Hoy).
  all: apply wp_bind; (eapply wp_read; [by apply get_ev_read|]); apply wp_bind.
  all: (eapply wp_mono; [by apply late_one|]); intros _ x1 (El & Hr1 & Hx1 & b & Hb).
  all: pose proof (rc_frame _ _ _ Hr1) as Hf1.
  all: apply wp_bind; (eapply wp_read; [by apply get_ev_read|]); apply wp_bind.
  all: assert (ev_occurred (with_occurred b y) = occurred (gs x1) ev) as -> by (unfold occurred, occurs; by rewrite Hb).
  - destruct Hc as [Hnx _].
    eapply wp_read; [apply one_read, ev_link_run; rewrite (sf_links _ _ _ Hf1); by apply get_next_spec|].
    apply wp_bind. eapply wp_read; [reflexivity|]. rewrite bool_decide_eq_true_2 by done. apply wp_ret.
    split_and!; try done. cbn. by rewrite orb_false_r.
  - destruct Hc as [[Hnx _] Hc].
    eapply wp_read; [apply one_read, ev_link_run; rewrite (sf_links _ _ _ Hf1); by apply get_next_spec|].
    apply wp_bind. eapply wp_read; [reflexivity|]. rewrite bool_decide_eq_false_2 by set_solver.
    apply NoDup_cons in Hnd as [He Hnd].
    eapply wp_mono; [apply (IH fuel e _ x1)|].
    + by rewrite (sf_links _ _ _ Hf1).
    + done.
    + set_solver.
    + eapply events_ok_checked; [exact Hf1|]. intros e' He'. apply Hok. set_solver.
    + by rewrite (sf_dx _ _ _ Hf1).
    + lia.
    + intros r x2 (El2 & Hr2 & Hx2 & ->). pose proof (rc_frame _ _ _ Hr2) as Hf2.
      split; [congruence|]. split; [exact (ring_checked_trans [ev] _ _ _ _ Hr1 Hr2)|]. split.
      * change (pair ds <$> ev :: e :: ys) with ([(ds, ev)] ++ (pair ds <$> e :: ys)). rewrite El in Hx2.
        eapply explained_app; [|exact Hf1|by rewrite pairs_snd|exact Hx1|exact Hx2]. rewrite pairs_snd. intros e' ->%list_elem_of_singleton. done.
      * cbn. assert (occurred (gs x2) ev = occurred (gs x1) ev) as ->; [|by rewrite <- !orb_assoc].
        unfold occurred, occurs. by rewrite (sf_other _ _ _ Hf2) by done.
Qed.
End late_ring.

(** ** A thread becomes ready *)

Lemma wq_priority_free m Q L t x v (R : unit -> qmem -> Prop) : qview m Q L -> nodes m !! t = Some x -> free_node x ->
  (forall m', qview m' Q L -> nodes m' = <[t := Node None v node_lt_nowhere]> (nodes m) -> R tt m') ->
  wp (__pqueue_node_priority_set t v) R m.
Proof.
  intros Hv Hx Hf HR. destruct (priority_set_free_inv m Q t x v (qv_inv _ _ _ Hv) Hx Hf) as (m' & E & Hi & Hn & Hs).
  eapply wp_run; [exact E|]. apply HR; [|done]. by eapply (node_view m Q L Hv).
Qed.

(** The effective priority of a thread that is in no queue becomes its
    priority; its lock is free before and afterwards. *)
Lemma wp_eprio_recalculate s t tid' y x Q L (R : Z -> sst -> Prop) :
  qview (qm (wo s)) Q L -> threads (wo s) !! t = Some y -> tlock y = qlock_free ->
  nodes (qm (wo s)) !! t = Some x -> free_node x ->
  (forall m', qview m' Q L -> nodes m' = <[t := Node None (prio y) node_lt_nowhere]> (nodes (qm (wo s))) ->
     R 0 (put_qm m' (put_threads (<[t := y]> (threads (wo s))) s))) ->
  wp (onw (thread_eprio_recalculate t tid')) R s.
Proof.
  intros Hv Hy Hl Hx Hf HR. destruct (qlock_cycle tid') as (k & Ek & Er).
  apply wp_onw. unfold thread_eprio_recalculate, with_thread, lock_thread, unlock_thread.
  apply wp_bind, wp_bind. eapply wp_run; [by apply get_t_run|]. apply wp_bind. rewrite Hl. eapply wp_of_res; [exact Ek|].
  eapply wp_run; [by apply upd_t_run|]. apply wp_bind. unfold __thread_eprio_recalculate. apply wp_bind.
  eapply wp_run; [apply get_t_run, lookup_insert_eq|]. apply wp_bind.
  assert (forall (R' : unit -> world -> Prop),
    (forall m', qview m' Q L -> nodes m' = <[t := Node None (prio y) node_lt_nowhere]> (nodes (qm (wo s))) ->
       R' tt (set_qm m' (set_threads (<[t := set_tlock k y]> (threads (wo s))) (wo s)))) ->
    wp (p ← __thread_prio_get t; __thread_eprio_set t p) R' (set_threads (<[t := set_tlock k y]> (threads (wo s))) (wo s))) as Hset.
  { intros R' HR'. unfold __thread_prio_get, __thread_eprio_set. apply wp_bind, wp_bind.
    eapply wp_run; [apply get_t_run, lookup_insert_eq|]. apply wp_ret, wp_zoom.
    eapply wq_priority_free; [exact Hv|exact Hx|done|]. apply HR'. }
  assert (forall m', qview m' Q L -> nodes m' = <[t := Node None (prio y) node_lt_nowhere]> (nodes (qm (wo s))) ->
    wp (mret 0) (fun a w' => wp (x ← get_t t; upd_t t (set_tlock (_pth_release_lock tid' (tlock x)).2)) (fun _ w'' => wp (mret a) (fun a w => R a (set_wo w s)) w'') w')
      (set_qm m' (set_threads (<[t := set_tlock k y]> (threads (wo s))) (wo s)))) as Hend.
  { intros m' Hv' Hn'. apply wp_ret, wp_bind. eapply wp_run; [apply get_t_run, lookup_insert_eq|].
    eapply wp_run; [apply upd_t_run, lookup_insert_eq|]. apply wp_ret. cbn. rewrite Er, insert_insert_eq.
    replace (set_tlock qlock_free (set_tlock k y)) with y by (destruct y; cbn in *; by subst). by apply HR. }
  case_bool_decide; apply Hset; intros m' Hv' Hn'; eapply wp_mono; [by apply Hend| |by apply Hend|]; intros a w' H'; by apply wp_bind.
Qed.

Section ready.
Context (s : sst) (n ds t : nat) (rq : qid) (d : pth_descr_st) (y : pth_st) (Q : gmap qid contents) (L : qid -> Z).
Context (Hv : qview (qm (wo s)) Q L) (Hn : natives (wo s) !! n = Some d) (Hy : threads (wo s) !! t = Some y).
Context (Hl : tlock y = qlock_free) (Hne : rq <> WaitQ ds) (HL : L rq = 0).
Context (Ws Rs : contents) (p k : nat) (l1 l2 lr : list nat).
Context (HW : Q !! WaitQ ds = Some Ws) (Hp : Ws !! p = Some (l1 ++ t :: l2)).
Context (HR : Q !! rq = Some Rs) (Hk : Rs !! k = Some lr) (Hprio : prio y = Z.of_nat k).

Lemma wp_make_ready (R : unit -> sst -> Prop) :
  (forall m', qview m' (<[rq := <[k := lr ++ [t]]> Rs]> (<[WaitQ ds := <[p := l1 ++ l2]> Ws]> Q)) L ->
     R tt (put_qm m' (put_threads (<[t := woken y]> (threads (wo s))) s))) ->
  wp (make_ready n t rq) R s.
Proof.
  intros Hpost. unfold make_ready. apply wp_bind. eapply wp_get_d; [done|]. apply wp_bind, wp_onq.
  eapply (wq_delete _ _ _ Hv (WaitQ ds) Ws p l1 t l2); [done|done|]. intros m1 Hv1 Hn1.
  apply wp_bind. eapply wp_upd_t; [done|]. apply wp_bind. eapply wp_upd_t; [apply lookup_insert_eq|].
  apply wp_bind. eapply (wp_eprio_recalculate _ t (tid d) (woken y)); [exact Hv1|apply lookup_insert_eq|done
    |cbn; rewrite Hn1; apply lookup_insert_eq|done|]. intros m2 Hv2 Hn2. apply wp_onq.
  eapply (wq_enter_locked _ _ m2 _ _ rq Rs k lr t); [apply __pqueue_insert_tail_links|apply place_tail_perm|exact Hv2|done
    |by rewrite lookup_insert_ne|done|cbn; rewrite Hn2; apply lookup_insert_eq|done|done|].
  intros m3 Hv3 Hn3. cbn. rewrite !insert_insert_eq. by apply Hpost.
Qed.
End ready.

(** The native is woken or not; only its pipe changes. *)
Lemma wp_wake_native s n ds e (R : unit -> sst -> Prop) : natives (wo s) !! ds = Some e ->
  (forall c, R tt (set_wo (set_natives (<[ds := set_sigpipe c e]> (natives (wo s))) (wo s)) s)) ->
  wp (wake_native n ds) R s.
Proof.
  intros He HR. unfold wake_native. apply wp_bind. eapply wp_get_d; [done|]. destruct (_ && _).
  - apply wp_onw. unfold pipe_write. eapply wp_run; [by apply upd_d_run|]. apply HR.
  - apply wp_ret. specialize (HR (sigpipe e)).
    replace (set_sigpipe (sigpipe e) e) with e in HR by (by destruct e).
    rewrite list_insert_id in HR by done. destruct s as [[]]. exact HR.
Qed.

(** ** The walk over a wait queue from which threads are taken *)

(** The lists without the threads [M]. *)
Definition without (M : list nat) (Ws : contents) : contents := (fun l => filter (fun t => t ∉ M) l) <$> Ws.
(** The threads [M] are appended, each to the list of its priority. *)
Definition enqueue (pr : nat -> nat) (M : list nat) (Rs : contents) : contents :=
  foldl (fun Rs t => alter (fun l => l ++ [t]) (pr t) Rs) Rs M.

(** [W] are the threads from some place of the walk on. *)
Definition rest_of (Ws : contents) (W : list nat) : Prop :=
  match W with
  | [] => True
  | t :: W => exists p l1 l2, Ws !! p = Some (l1 ++ t :: l2) /\ W = l2 ++ order (take p Ws)
  end.

Lemma rest_of_next (Ws Ws1 : contents) p l1 l1' l2 : Ws !! p = Some (l1 ++ l2) -> Ws1 !! p = Some (l1' ++ l2) ->
  (forall i, (i < p)%nat -> Ws1 !! i = Ws !! i) -> rest_of Ws1 (l2 ++ order (take p Ws)).
Proof.
  intros Hp Hp1 Hag. assert (forall i, (i <= p)%nat -> take i Ws1 = take i Ws) as Htake.
  { intros i Hi. apply list_eq. intros j. destruct (decide (j < i)%nat).
    - rewrite !lookup_take_lt by done. apply Hag. lia.
    - by rewrite !lookup_take_ge by lia. }
  destruct l2 as [|b l2]; cbn [app].
  - destruct (order (take p Ws)) as [|b r] eqn:Er; [done|].
    destruct (order_head_take Ws _ _ _ Er) as (p' & l & Hlt & Hb & ->).
    exists p', [], l. rewrite Hag, Htake by lia. done.
  - exists p, l1', l2. by rewrite Htake.
Qed.

Lemma rest_of_order Ws : rest_of Ws (order Ws).
Proof.
  destruct (order Ws) as [|t r] eqn:E; [done|]. 
  rewrite <- (take_ge Ws (length Ws)) in E by done. destruct (order_head_take Ws _ _ _ E) as (p & l & _ & Hp & ->).
  exists p, [], l. done.
Qed.

Lemma without_nil Ws : without [] Ws = Ws.
Proof.
  unfold without. rewrite <- (list_fmap_id Ws) at 2. apply list_fmap_ext. intros _ l _.
  induction l as [|t l IH]; [done|]. rewrite filter_cons, decide_True by set_solver. by rewrite IH.
Qed.

Lemma without_without M M' Ws : without M' (without M Ws) = without (M ++ M') Ws.
Proof.
  unfold without. rewrite <- list_fmap_compose. apply list_fmap_ext. intros _ l _. cbn.
  rewrite list_filter_filter. apply list_filter_iff. intros t. set_solver.
Qed.

(** Taking one thread out. *)
Lemma without_one m Q q Ws p l1 t l2 : pq_inv m Q -> Q !! q = Some Ws -> Ws !! p = Some (l1 ++ t :: l2) ->
  <[p := l1 ++ l2]> Ws = without [t] Ws.
Proof.
  intros Hi HQ Hp. apply list_eq. intros i. unfold without. rewrite list_lookup_fmap.
  assert (forall l : list nat, t ∉ l -> filter (fun u => u ∉ [t]) l = l) as Hout.
  { intros l Hl. induction l as [|u l IH]; [done|]. rewrite filter_cons, decide_True by set_solver. rewrite IH; [done|set_solver]. }
  destruct (decide (p = i)) as [<-|Hne].
  - rewrite list_lookup_insert_eq by (by eapply lookup_lt_Some). rewrite Hp. cbn. f_equal.
    pose proof (member_nodup m Q q Ws p _ Hi HQ Hp) as Hnd. apply NoDup_app in Hnd as (_ & H1 & [H2 _]%NoDup_cons).
    rewrite filter_app, filter_cons, decide_False by set_solver. rewrite !Hout; [done|done|]. intros Hin. apply (H1 t Hin). set_solver.
  - rewrite list_lookup_insert_ne by done. destruct (Ws !! i) as [l|] eqn:Ei; [|done]. cbn. f_equal. symmetry. apply Hout.
    intros Hin. destruct (member_unique m Q Hi q p q i t) as [_ ?]; [exists Ws, (l1 ++ t :: l2)|exists Ws, l|done]; split_and!; try done. set_solver.
Qed.

(** ** The threads of a wait queue *)

(** Moving a thread does not touch the events. *)
Lemma ready_scan es s t m k e ds c : threads (wo s) !! t = Some k -> natives (wo s) !! ds = Some e ->
  scan_frame es s (set_wo (set_natives (<[ds := set_sigpipe c e]> (natives (wo s)))
    (set_qm m (set_threads (<[t := woken k]> (threads (wo s))) (wo s)))) s).
Proof.
  intros Ht He. destruct (scan_frame_refl es s). split; try done.
  - unfold objects_of. cbn. rewrite dom_insert_L. apply elem_of_dom_2 in Ht. f_equal. set_solver.
  - cbn. rewrite list_fmap_insert, list_insert_id; [done|]. by rewrite list_lookup_fmap, He.
  - split; auto. intros u. cbn. destruct (decide (u = t)) as [->|]; [right; by rewrite lookup_insert_eq, Ht|left; by rewrite lookup_insert_ne].
Qed.

(** Nor does locking a queue. *)
Lemma lock_frame m s : scan_frame [] s (put_qm m s).
Proof. destruct (scan_frame_refl [] s). split; try done. split; auto. Qed.

(** The events of the threads [W] *)
Definition evts (E : nat -> list nat) (W : list nat) : list nat := concat (E <$> W).

Lemma elem_of_evts E e W : e ∈ evts E W <-> exists t, t ∈ W /\ e ∈ E t.
Proof.
  unfold evts. rewrite list_elem_of_In, in_concat. setoid_rewrite <- list_elem_of_In. setoid_rewrite list_elem_of_fmap. naive_solver.
Qed.

Section scan.
Context (PTH_NSIG : Z) (n ds : nat) (rq : qid) (bounded : bool) (rfuel : nat) (Hne : rq <> WaitQ ds).
(** The events and the priority of every thread, and whether its cancellation
    is requested. *)
Context (E : nat -> list nat) (pr : nat -> nat) (cn : nat -> bool).

Notation explained := (explained PTH_NSIG n bounded).

(** Thread [t] waits properly. *)
Definition waits_ok (s : sst) (t : nat) : Prop :=
  exists y xt, threads (wo s) !! t = Some y /\ tlock y = qlock_free /\ prio y = Z.of_nat (pr t) /\
    (pr t < Z.to_nat PRIO_TOTAL)%nat /\ cancelreq y = cn t /\ tx s !! t = Some xt /\
    match events xt with
    | None => E t = []
    | Some evh => exists xs, E t = evh :: xs /\ ring (elinks (evs s)) evh xs /\ events_ok s (E t) /\ (length xs < rfuel)%nat
    end.

(** A thread becomes ready if an event occurred or it is cancelled. *)
Definition due (s : sst) (t : nat) : bool := cn t || existsb (occurred s) (E t).

Lemma waits_ok_frame es s s' t : scan_frame es s s' -> threads (wo s') !! t = threads (wo s) !! t -> waits_ok s t -> waits_ok s' t.
Proof using rfuel E pr cn.
  intros Hf Ht (y & xt & Hy & Hl & Hp & Hb & Hc & Hx & He). exists y, xt. rewrite Ht, (sf_tx _ _ _ Hf). split_and!; try done.
  destruct (events xt) as [evh|]; [|done]. destruct He as (xs & HE & Hr & Hok & Hlen). exists xs.
  rewrite (sf_links _ _ _ Hf). split_and!; try done. intros e (z & Hz & Hoz)%Hok.
  destruct (sf_same _ _ _ Hf _ _ Hz) as (b & Hb' & _). exists (with_occurred b z). split; [done|]. by rewrite (sf_objects _ _ _ Hf).
Qed.

Lemma due_frame es s s' t : scan_frame es s s' -> (forall e, e ∈ E t -> e ∉ es) -> due s' t = due s t.
Proof using E cn.
  clear Hne pr.
  intros Hf Hd. unfold due. f_equal.
  assert (forall l, (forall e, e ∈ l -> e ∉ es) -> existsb (occurred s') l = existsb (occurred s) l) as H; [|by apply H].
  intros l. induction l as [|e l IH]; intros He; [done|]. cbn. rewrite IH by set_solver.
  unfold occurred, occurs. by rewrite (sf_other _ _ _ Hf) by set_solver.
Qed.

(** The events of one thread. *)
Lemma late_thread_events t xt x : waits_ok (gs x) t -> tx (gs x) !! t = Some xt -> n ∈ dom (dx (gs x)) ->
  wp (match events xt with
      | None => mret false
      | Some evh => late_ring PTH_NSIG n rfuel ds evh evh bounded false
      end) (fun any x' => lo x' = lo x /\ ring_checked (E t) (gs x) (gs x') /\ explained (lo x) (pair ds <$> E t) (gs x) (gs x') /\
        any = existsb (occurred (gs x')) (E t)) x.
Proof.
  intros (y & xt' & Hy & Hl & Hp & Hb & Hc & Hx & He) Hx' Hn. rewrite Hx in Hx'. injection Hx' as ->.
  destruct (events xt) as [evh|]; [|apply wp_ret; rewrite He; split_and!; try done; [apply ring_checked_refl|apply explained_nil]].
  destruct He as (xs & HE & Hr & Hok & Hlen). pose proof Hr as [Hnd Hch].
  eapply wp_mono; [apply (late_ring_from PTH_NSIG n ds bounded evh xs rfuel evh false x); try done|].
  - apply NoDup_cons in Hnd. tauto.
  - by rewrite <- HE.
  - intros r x' (El & Hrc & Hex & ->). rewrite HE. done.
Qed.

Definition scanned (l : loc) (W : list nat) (Ws Rs : contents) (Q : gmap qid contents) (L : qid -> Z) (s s' : sst) : Prop :=
  let M := filter (fun t => due s' t = true) W in
  scan_frame (evts E W) s s' /\ explained l (pair ds <$> evts E W) s s' /\
  qview (qm (wo s')) (<[rq := enqueue pr M Rs]> (<[WaitQ ds := without M Ws]> Q)) L /\
  forall u y, threads (wo s) !! u = Some y -> threads (wo s') !! u = Some (if bool_decide (u ∈ M) then woken y else y).

Lemma scanned_nil l Ws Rs Q L s : qview (qm (wo s)) Q L -> Q !! WaitQ ds = Some Ws -> Q !! rq = Some Rs -> scanned l [] Ws Rs Q L s s.
Proof.
  intros Hv HW HR. split; [apply scan_frame_refl|]. split; [apply explained_nil|]. cbn. split.
  - rewrite without_nil, (insert_id Q (WaitQ ds)), insert_id by done. done.
  - intros u y Hu. by rewrite bool_decide_eq_false_2 by set_solver.
Qed.

(** One thread of the walk has been dealt with ([s1]), then the others. *)
Lemma scanned_cons l t W Ws Rs Ws1 Rs1 Q Q1 L s s1 s' (b : bool) y :
  t ∉ W -> (forall u e, u ∈ W -> e ∈ E t -> e ∉ E u) ->
  scan_frame (E t) s s1 -> explained l (pair ds <$> E t) s s1 -> due s1 t = b ->
  Ws1 = without (if b then [t] else []) Ws -> Rs1 = enqueue pr (if b then [t] else []) Rs ->
  Q1 = <[rq := Rs1]> (<[WaitQ ds := Ws1]> Q) ->
  threads (wo s) !! t = Some y -> threads (wo s1) = <[t := if b then woken y else y]> (threads (wo s)) ->
  scanned l W Ws1 Rs1 Q1 L s1 s' -> scanned l (t :: W) Ws Rs Q L s s'.
Proof.
  intros Ht Hdis Hf1 Hx1 Hb -> -> -> Hy Hth (Hf2 & Hx2 & Hv & Hth2).
  assert (forall e, e ∈ E t -> e ∉ evts E W) as Hsep by (intros e He (u & Hu & Hin)%elem_of_evts; by apply (Hdis u e)).
  assert (due s' t = b) as Hb' by (rewrite <- Hb; by eapply due_frame).
  unfold scanned. rewrite filter_cons. rewrite Hb'. change (evts E (t :: W)) with (E t ++ evts E W).
  set (M := filter (fun t => due s' t = true) W) in *.
  assert (t ∉ M) as HtM by (unfold M; rewrite list_elem_of_filter; tauto).
  split; [by eapply scan_frame_trans|].
  split; [rewrite fmap_app; eapply (explained_app _ _ _ _ _ _ s s1 s'); rewrite ?pairs_snd; done|].
  assert ((if decide (b = true) then t :: M else M) = (if b then [t] else []) ++ M) as ->.
  { destruct b; [by rewrite decide_True|by rewrite decide_False]. }
  split.
  - rewrite without_without in Hv. unfold enqueue in *. rewrite foldl_app.
    rewrite (insert_insert_ne _ (WaitQ ds) rq), !insert_insert_eq in Hv by done. exact Hv.
  - intros u z Hu. destruct (decide (t = u)) as [<-|Hne'].
    + rewrite Hy in Hu. injection Hu as <-. rewrite (Hth2 t (if b then woken y else y)) by (rewrite Hth; apply lookup_insert_eq).
      rewrite (bool_decide_eq_false_2 (t ∈ M)) by done. destruct b.
      * by rewrite bool_decide_eq_true_2 by set_solver.
      * by rewrite bool_decide_eq_false_2 by set_solver.
    + rewrite (Hth2 u z) by (rewrite Hth, lookup_insert_ne; done).
      rewrite (bool_decide_ext (u ∈ (if b then [t] else []) ++ M) (u ∈ M)); [done|]. destruct b; set_solver.
Qed.

Lemma put_qm_id s : put_qm (qm (wo s)) s = s.
Proof. by destruct s as [[]]. Qed.

Lemma late_threads_scan W : forall fuel x Q L Ws Rs,
  qview (qm (wo (gs x))) Q L -> Q !! WaitQ ds = Some Ws -> Q !! rq = Some Rs -> L rq = 0 ->
  rest_of Ws W -> NoDup W -> (forall t, t ∈ W -> waits_ok (gs x) t) ->
  (forall t u e, t ∈ W -> u ∈ W -> t <> u -> e ∈ E t -> e ∉ E u) ->
  n ∈ dom (dx (gs x)) -> (n < length (natives (wo (gs x))))%nat -> (ds < length (natives (wo (gs x))))%nat -> (length W < fuel)%nat ->
  wp (late_threads PTH_NSIG n fuel rfuel ds rq bounded (head W)) (fun _ x' =>
    lo x' = lo x /\ scanned (lo x) W Ws Rs Q L (gs x) (gs x')) x.
Proof.
  induction W as [|t W IH]; intros [|fuel] x Q L Ws Rs Hv HW HR HL Hrest Hnd Hok Hdis Hdx Hnn Hds Hfuel; simpl in Hfuel; try lia;
    cbn [late_threads head].
  { apply wp_ret. split; [done|]. by apply scanned_nil. }
  apply NoDup_cons in Hnd as [Ht Hnd]. destruct Hrest as (p & l1 & l2 & Hp & HW').
  pose proof (Hok t ltac:(set_solver)) as Hokt. pose proof Hokt as (y & xt & Hy & Hl & Hprio & Hbound & Hcn & Hx & _).
  apply wp_bind. eapply wp_read; [unfold get_x; rewrite (bind_run get _ _ _ _ eq_refl), Hx; reflexivity|].
  apply wp_bind. eapply wp_mono; [by apply late_thread_events|]. intros any x1 (El1 & Hrc & Hex & Hany).
  destruct (rc_conds _ _ _ Hrc) as (c & Ew). pose proof (rc_frame _ _ _ Hrc) as Hf1.
  assert (threads (wo (gs x1)) = threads (wo (gs x)) /\ qm (wo (gs x1)) = qm (wo (gs x)) /\ natives (wo (gs x1)) = natives (wo (gs x)))
    as (Eth & Eqm & Enat) by (by rewrite Ew).
  apply wp_bind. eapply wp_read; [apply onw_read, (get_t_run _ t y); by rewrite Eth|].
  apply wp_bind, wp_ong, wp_onq. rewrite Eqm. eapply (wq_next _ _ _ Hv _ Ws p l1 t l2); [exact HW|exact Hp|].
  rewrite <- Eqm.
  rewrite put_qm_id, est_eta.
  assert (any || cancelreq y = due (gs x1) t) as Hdue by (unfold due; rewrite Hcn, Hany; apply orb_comm).
  rewrite Hdue. rewrite <- HW'.
  (* the rest of the walk from any state that results *)
  assert (forall s2 Ws1 Rs1 Q1, scan_frame (E t) (gs x) s2 -> explained (lo x) (pair ds <$> E t) (gs x) s2 -> due s2 t = due (gs x1) t ->
    Ws1 = without (if due (gs x1) t then [t] else []) Ws -> Rs1 = enqueue pr (if due (gs x1) t then [t] else []) Rs ->
    Q1 = <[rq := Rs1]> (<[WaitQ ds := Ws1]> Q) ->
    threads (wo s2) = <[t := if due (gs x1) t then woken y else y]> (threads (wo (gs x))) ->
    qview (qm (wo s2)) Q1 L -> rest_of Ws1 W ->
    wp (late_threads PTH_NSIG n fuel rfuel ds rq bounded (head W)) (fun _ x' =>
      lo x' = lo x /\ scanned (lo x) (t :: W) Ws Rs Q L (gs x) (gs x')) (Est s2 (lo x1))) as Hcont.
  { intros s2 Ws1 Rs1 Q1 Hf2 Hx2 Hd2 EWs ERs EQ Eth2 Hv2 Hr2.
    eapply wp_mono; [apply (IH fuel (Est s2 (lo x1)) Q1 L Ws1 Rs1)|]; cbn [gs lo].
    - done.
    - rewrite EQ. by rewrite lookup_insert_ne, lookup_insert_eq.
    - rewrite EQ. apply lookup_insert_eq.
    - done.
    - done.
    - done.
    - intros u Hu. eapply waits_ok_frame; [exact Hf2| |apply Hok; set_solver]. rewrite Eth2. apply lookup_insert_ne. set_solver.
    - intros u v e Hu Hw'. apply Hdis; set_solver.
    - by rewrite (sf_dx _ _ _ Hf2).
    - by rewrite (sf_natives _ _ _ Hf2).
    - by rewrite (sf_natives _ _ _ Hf2).
    - lia.
    - intros _ x' [El Hs]. split; [congruence|]. rewrite El1 in Hs.
      eapply (scanned_cons (lo x) t W Ws Rs Ws1 Rs1 Q Q1 L (gs x) s2); [done| |exact Hf2|exact Hx2|exact Hd2|done|done|done|exact Hy|exact Eth2|exact Hs].
      intros u e Hu He. apply (Hdis t u e); [set_solver|set_solver|set_solver|done]. }
  apply wp_bind. destruct (due (gs x1) t) eqn:Ed.
  - assert (is_Some (natives (wo (gs x1)) !! n)) as [dn Hdn] by (apply lookup_lt_is_Some_2; by rewrite Enat).
    assert (is_Some (natives (wo (gs x1)) !! ds)) as [dd Hdd] by (apply lookup_lt_is_Some_2; by rewrite Enat).
    destruct (lookup_lt_is_Some_2 Rs (pr t)) as [lr Hlr]; [by destruct (inv_queue _ _ (qv_inv _ _ _ Hv) _ _ HR) as (? & _ & -> & _)|].
    apply wp_bind, wp_ong.
    eapply (wp_make_ready (gs x1) n ds t rq dn y Q L); [by rewrite Eqm|done|by rewrite Eth|done..|exact HW|exact Hp|exact HR|exact Hlr|done|].
    intros m' Hv'. cbn. apply wp_ong. eapply wp_wake_native; [exact Hdd|]. intros c'. cbn.
    pose proof (without_one _ _ _ _ _ _ _ _ (qv_inv _ _ _ Hv) HW Hp) as Hwo.
    match goal with |- wp _ _ (Est ?s2 _) => assert (scan_frame [] (gs x1) s2) as Hf0
      by (refine (ready_scan [] (gs x1) t m' y dd ds c' _ Hdd); by rewrite Eth) end.
    eapply (Hcont _ (without [t] Ws) (enqueue pr [t] Rs)); [| |done|done|done|reflexivity| | |].
    + rewrite <- (app_nil_r (E t)). by eapply scan_frame_trans.
    + rewrite <- (app_nil_r (pair ds <$> E t)). eapply explained_app; [|by rewrite pairs_snd|exact Hf0|exact Hex|apply explained_nil].
      intros e _. apply not_elem_of_nil.
    + cbn. by rewrite Eth.
    + rewrite <- Hwo. unfold enqueue. cbn [foldl]. replace (alter _ (pr t) Rs) with (<[pr t := lr ++ [t]]> Rs); [exact Hv'|].
      rewrite list_insert_alter. apply list_alter_ext; [|done]. intros l Hl'. congruence.
    + rewrite HW', <- Hwo. eapply (rest_of_next _ _ p (l1 ++ [t]) l1 l2).
      * by rewrite <- app_assoc.
      * apply list_lookup_insert_eq. by eapply lookup_lt_Some.
      * intros i Hi. apply list_lookup_insert_ne. lia.
  - apply wp_ret. rewrite <- (est_eta x1). eapply Hcont; [exact Hf1|exact Hex|done|by rewrite without_nil|done| | | |].
    + rewrite (insert_id Q (WaitQ ds)), insert_id by done. reflexivity.
    + by rewrite Eth, insert_id.
    + by rewrite Eqm.
    + rewrite HW'. apply (rest_of_next _ _ p (l1 ++ [t]) (l1 ++ [t]) l2); try done; by rewrite <- app_assoc.
Qed.

Lemma wp_first_waiting s Q L Ws (R : option nat -> sst -> Prop) :
  qview (qm (wo s)) Q L -> Q !! WaitQ ds = Some Ws -> R (head (order Ws)) s -> wp (first_waiting ds) R s.
Proof.
  intros Hv HW HR. unfold first_waiting, pqueue_total. apply wp_bind, wp_onq. eapply wq_total; [exact Hv|exact HW|].
  rewrite put_qm_id. case_bool_decide as H0.
  - apply wp_ret. rewrite <- order_length in H0. destruct (order Ws); [exact HR|cbn in H0; lia].
  - apply wp_onq. eapply wq_first; [exact Hv|exact HW|]. by rewrite put_qm_id.
Qed.

(** All threads of the wait queue, with the queue locked meanwhile. *)
Lemma late_queue {B} fuel x Q L Ws Rs (k : M est B) (R : B -> est -> Prop) :
  qview (qm (wo (gs x))) Q L -> Q !! WaitQ ds = Some Ws -> Q !! rq = Some Rs -> L rq = 0 -> L (WaitQ ds) = 0 ->
  (forall t, t ∈ order Ws -> waits_ok (gs x) t) ->
  (forall t u e, t ∈ order Ws -> u ∈ order Ws -> t <> u -> e ∈ E t -> e ∉ E u) ->
  n ∈ dom (dx (gs x)) -> (n < length (natives (wo (gs x))))%nat -> (ds < length (natives (wo (gs x))))%nat ->
  (length (order Ws) < fuel)%nat ->
  (forall x', lo x' = lo x -> scanned (lo x) (order Ws) Ws Rs Q L (gs x) (gs x') -> wp k R x') ->
  wp (ong (onq (spin_lock (WaitQ ds)));;
      t ← ong (first_waiting ds);
      late_threads PTH_NSIG n fuel rfuel ds rq bounded t;;
      ong (onq (spin_unlock (WaitQ ds)));; k) R x.
Proof.
  intros Hv HW HR HLr HLw Hok Hdis Hdx Hnn Hds Hfuel HR'. apply wp_bind, wp_ong, wp_onq.
  eapply wq_lock; [exact Hv|by eexists|exact HLw|]. intros m1 Hv1 Hn1. apply wp_bind, wp_ong.
  eapply wp_first_waiting; [exact Hv1|exact HW|]. apply wp_bind.
  eapply wp_mono; [apply (late_threads_scan (order Ws) fuel (Est (put_qm m1 (gs x)) (lo x)) Q _ Ws Rs Hv1 HW HR)|]; cbn.
  - unfold upd_lock. by rewrite decide_False.
  - apply rest_of_order.
  - eapply order_nodup; [apply Hv|exact HW].
  - intros t Ht. apply (Hok t Ht).
  - exact Hdis.
  - exact Hdx.
  - exact Hnn.
  - exact Hds.
  - exact Hfuel.
  - intros _ x' (El & Hf & Hex & Hv' & Hth). apply wp_bind, wp_ong, wp_onq. eapply wq_unlock; [exact Hv'| |].
    { rewrite lookup_insert_ne, lookup_insert_eq by done. by eexists. }
    intros m3 Hv3 _. pose proof (lock_frame m1 (gs x)) as F1. pose proof (lock_frame m3 (gs x')) as F3.
    apply HR'; [exact El|]. split_and!.
    + rewrite <- (app_nil_r (evts E (order Ws))). eapply (scan_frame_trans []); [exact F1|]. by eapply scan_frame_trans.
    + rewrite <- (app_nil_r (pair ds <$> _)).
      eapply (explained_app _ _ _ _ [] ((pair ds <$> evts E (order Ws)) ++ [])); [intros e He; by apply elem_of_nil in He|exact F1| |apply explained_nil|].
      * rewrite fmap_app, pairs_snd. by eapply scan_frame_trans.
      * eapply explained_app; [intros e _; apply not_elem_of_nil|by rewrite pairs_snd|exact F3|exact Hex|apply explained_nil].
    + eapply qview_ext; [exact Hv3|]. intros q _. symmetry. by apply upd_lock_back.
    + exact Hth.
Qed.
End scan.

(** ** The natives *)

Section walk.
Context (m_to_n bounded : bool).

(** The natives from [slot] on whose wait queues the pass walks, each with the
    queue their threads get ready in, and where the pass ends: behind a bounded
    native, or at the first one that is not used. *)
Fixpoint walk (slot : nat) (l : list pth_descr_st) : option (list (nat * qid) * nat) :=
  match l with
  | [] => None
  | d :: l =>
      if negb (is_used d) then Some ([], slot)
      else
        match queue_of m_to_n slot d with
        | None => walk (S slot) l
        | Some rq =>
            if bounded then Some ([(slot, rq)], S slot)
            else '(w, e) ← walk (S slot) l; Some ((slot, rq) :: w, e)
        end
  end.

Lemma walk_pipes l : forall slot l', set_sigpipe 0 <$> l' = set_sigpipe 0 <$> l -> walk slot l' = walk slot l.
Proof.
  induction l as [|d l IH]; intros slot [|d' l'] Hp; try done. apply (inj2 cons) in Hp as [Hd Hp]. cbn [walk].
  pose proof (f_equal is_used Hd) as Hu. pose proof (f_equal is_bounded Hd) as Hb. cbn in Hu, Hb.
  unfold queue_of. by rewrite Hu, Hb, (IH _ _ Hp).
Qed.

(** The natives of the walk lie behind each other. *)
Lemma walk_slots l : forall slot w e ds rq, walk slot l = Some (w, e) -> (ds, rq) ∈ w -> (slot <= ds)%nat /\ rq <> WaitQ ds /\ forall i, rq <> WaitQ i.
Proof.
  induction l as [|d l IH]; intros slot w e ds rq Hw Hin; [done|]. cbn [walk] in Hw.
  destruct (is_used d); cbn [negb] in Hw; [|injection Hw as <- _; by apply elem_of_nil in Hin].
  assert (forall q, queue_of m_to_n slot d = Some q -> forall i, q <> WaitQ i) as Hq
    by (unfold queue_of; intros q Hq i ->; repeat case_match; congruence).
  destruct (queue_of m_to_n slot d) as [q|]; [|destruct (IH _ _ _ _ _ Hw Hin) as [? ?]; split; [lia|done]].
  specialize (Hq q eq_refl). destruct bounded.
  - injection Hw as <- _. apply list_elem_of_singleton in Hin. injection Hin as -> ->. by split_and!.
  - destruct (walk (S slot) l) as [[w' e']|] eqn:Hw'; [|done]. injection Hw as <- _.
    apply elem_of_cons in Hin as [Hin|Hin]; [injection Hin as -> ->; by split_and!|].
    destruct (IH _ _ _ _ _ Hw' Hin) as [? ?]. split; [lia|done].
Qed.
End walk.

Definition queue_at (Q : gmap qid contents) (q : qid) : contents := default [] (Q !! q).
(** The threads of a wait queue, in the order of the walk *)
Definition waiters (Q : gmap qid contents) (x : nat * qid) : list nat := order (queue_at Q (WaitQ x.1)).
Definition waiting (Q : gmap qid contents) (w : list (nat * qid)) : list nat := concat (waiters Q <$> w).

Lemma elem_of_waiting Q w t : t ∈ waiting Q w <-> exists x, x ∈ w /\ t ∈ waiters Q x.
Proof.
  unfold waiting. rewrite list_elem_of_In, in_concat. setoid_rewrite <- list_elem_of_In. setoid_rewrite list_elem_of_fmap. naive_solver.
Qed.


Section late_pass.
Context (PTH_NSIG : Z) (n : nat) (m_to_n bounded : bool) (tfuel rfuel : nat).
Context (E : nat -> list nat) (pr : nat -> nat) (cn : nat -> bool).
Implicit Types (Q : gmap qid contents) (w : list (nat * qid)).

(** Their events, each with the slot of the native *)
Definition pass_events Q w : list (nat * nat) := concat ((fun x => pair x.1 <$> evts E (waiters Q x)) <$> w).
(** The threads that are due in [s] go from the wait queue of one native to the
    ready queue. *)
Definition move_due (s : sst) Q (x : nat * qid) : gmap qid contents :=
  let M := filter (fun t => due E cn s t = true) (waiters Q x) in
  <[x.2 := enqueue pr M (queue_at Q x.2)]> (<[WaitQ x.1 := without M (queue_at Q (WaitQ x.1))]> Q).

Definition passed (l : loc) w Q (L : qid -> Z) (s s' : sst) : Prop :=
  scan_frame (pass_events Q w).*2 s s' /\ explained PTH_NSIG n bounded l (pass_events Q w) s s' /\
  qview (qm (wo s')) (foldl (move_due s') Q w) L /\
  forall u y, threads (wo s) !! u = Some y ->
    threads (wo s') !! u = Some (if bool_decide (u ∈ filter (fun t => due E cn s' t = true) (waiting Q w)) then woken y else y).

Lemma pass_events_snd Q w : (pass_events Q w).*2 = evts E (waiting Q w).
Proof.
  unfold pass_events, waiting, evts. induction w as [|x w IH]; [done|]. cbn. by rewrite !fmap_app, concat_app, IH, pairs_snd.
Qed.

(** What the walk needs: the queues are there, unlocked, and the threads wait
    properly, for events of their own. *)
Record pass_ok w Q (L : qid -> Z) (s : sst) : Prop := {
  po_queues : forall ds rq, (ds, rq) ∈ w -> is_Some (Q !! WaitQ ds) /\ is_Some (Q !! rq) /\ L rq = 0 /\ L (WaitQ ds) = 0;
  po_lengths : forall x, x ∈ w -> (length (waiters Q x) < tfuel)%nat;
  po_waits : forall t, t ∈ waiting Q w -> waits_ok rfuel E pr cn s t;
  po_events : forall t u e, t ∈ waiting Q w -> u ∈ waiting Q w -> t <> u -> e ∈ E t -> e ∉ E u;
  po_dx : n ∈ dom (dx s);
  po_native : (n < length (natives (wo s)))%nat }.

Lemma passed_nil l Q L s : qview (qm (wo s)) Q L -> passed l [] Q L s s.
Proof.
  intros Hv. split; [apply scan_frame_refl|]. split; [apply explained_nil|]. split; [done|]. intros u y Hy.
  by rewrite bool_decide_eq_false_2 by (apply not_elem_of_nil).
Qed.

Lemma waiters_later ds rq Q Ws Rs w x : (forall i, rq <> WaitQ i) -> (forall y, y ∈ w -> (ds < y.1)%nat) -> x ∈ w ->
  waiters (<[rq := Rs]> (<[WaitQ ds := Ws]> Q)) x = waiters Q x.
Proof.
  intros Hq Hl Hx. specialize (Hl x Hx). unfold waiters, queue_at. rewrite !lookup_insert_ne; [done|intros [= ?]; lia|apply Hq].
Qed.

Lemma waiting_later ds rq Q Ws Rs w : (forall i, rq <> WaitQ i) -> (forall y, y ∈ w -> (ds < y.1)%nat) ->
  waiting (<[rq := Rs]> (<[WaitQ ds := Ws]> Q)) w = waiting Q w /\ pass_events (<[rq := Rs]> (<[WaitQ ds := Ws]> Q)) w = pass_events Q w.
Proof.
  intros Hq Hl. unfold waiting, pass_events. split; f_equal; apply list_fmap_ext; intros i x Hx%list_elem_of_lookup_2;
    by rewrite (waiters_later ds rq Q Ws Rs w x Hq Hl Hx).
Qed.

Lemma elem_of_order (Ls : contents) t : t ∈ order Ls <-> exists p l, Ls !! p = Some l /\ t ∈ l.
Proof.
  unfold order. rewrite list_elem_of_In, in_concat. setoid_rewrite <- list_elem_of_In. setoid_rewrite elem_of_reverse.
  setoid_rewrite list_elem_of_lookup at 1. naive_solver.
Qed.

(** The waiters of different natives are different. *)
Lemma waiters_apart m ds rq Q w t : pq_inv m Q -> (forall y, y ∈ w -> (ds < y.1)%nat) -> t ∈ waiters Q (ds, rq) -> t ∉ waiting Q w.
Proof.
  intros Hi Hl Ht (x & Hx & Htx)%elem_of_waiting. unfold waiters, queue_at in *. cbn [fst] in *.
  destruct (Q !! WaitQ ds) as [Ws|] eqn:HW; [|by apply elem_of_nil in Ht]. destruct (Q !! WaitQ x.1) as [Ws'|] eqn:HW'; [|by apply elem_of_nil in Htx].
  cbn [default] in *. apply elem_of_order in Ht as (p & l & Hp & Ht). apply elem_of_order in Htx as (p' & l' & Hp' & Ht').
  destruct (member_unique m Q Hi (WaitQ ds) p (WaitQ x.1) p' t) as [[= E1] _]; [exists Ws, l; by split_and!|exists Ws', l'; by split_and!|].
  specialize (Hl x Hx). lia.
Qed.

Lemma passed_cons l ds rq w Q L Ws Rs s s1 s' :
  qview (qm (wo s)) Q L -> Q !! WaitQ ds = Some Ws -> Q !! rq = Some Rs -> (forall i, rq <> WaitQ i) -> (forall y, y ∈ w -> (ds < y.1)%nat) ->
  (forall t u e, t ∈ order Ws -> u ∈ waiting Q w -> e ∈ E t -> e ∉ E u) ->
  scanned PTH_NSIG n ds rq bounded E pr cn l (order Ws) Ws Rs Q L s s1 ->
  passed l w (move_due s1 Q (ds, rq)) L s1 s' -> passed l ((ds, rq) :: w) Q L s s'.
Proof.
  intros Hv HW HR Hq Hl Hdis (Hf1 & Hx1 & _ & Hth1) (Hf2 & Hx2 & Hv2 & Hth2).
  assert (waiters Q (ds, rq) = order Ws) as EW by (unfold waiters, queue_at; cbn [fst]; by rewrite HW).
  destruct (waiting_later ds rq Q (without (filter (fun t => due E cn s1 t = true) (order Ws)) Ws)
    (enqueue pr (filter (fun t => due E cn s1 t = true) (order Ws)) Rs) w Hq Hl) as [Ewt Epe].
  assert (move_due s1 Q (ds, rq) = <[rq := enqueue pr (filter (fun t => due E cn s1 t = true) (order Ws)) Rs]>
    (<[WaitQ ds := without (filter (fun t => due E cn s1 t = true) (order Ws)) Ws]> Q)) as Emd.
  { unfold move_due, queue_at. rewrite EW. cbn [fst snd]. by rewrite HW, HR. }
  rewrite Emd, ?Ewt, ?Epe in *. rewrite <- Emd in Hv2. clear Emd.
  assert (forall e, e ∈ evts E (order Ws) -> e ∉ (pass_events Q w).*2) as Hsep.
  { intros e Hin1. rewrite pass_events_snd. intros Hin2. apply (elem_of_evts E) in Hin1 as (t & Ht & He). apply (elem_of_evts E) in Hin2 as (u & Hu & Hin). exact (Hdis t u e Ht Hu He Hin). }
  assert (forall t, t ∈ order Ws -> due E cn s' t = due E cn s1 t) as Hdue.
  { intros t Ht. eapply due_frame; [exact Hf2|]. intros e He. apply Hsep, elem_of_evts. by exists t. }
  assert (filter (fun t => due E cn s' t = true) (order Ws) = filter (fun t => due E cn s1 t = true) (order Ws)) as EM.
  { apply filter_iff_in. intros t Ht. by rewrite Hdue. }
  assert (pass_events Q ((ds, rq) :: w) = (pair ds <$> evts E (order Ws)) ++ pass_events Q w) as Ep by (unfold pass_events; cbn; by rewrite EW).
  unfold passed. rewrite Ep, fmap_app, pairs_snd. split; [by eapply scan_frame_trans|].
  split; [by eapply explained_app; rewrite ?pairs_snd|]. split.
  - cbn [foldl]. assert (move_due s' Q (ds, rq) = move_due s1 Q (ds, rq)) as -> by (unfold move_due; by rewrite EW, EM). exact Hv2.
  - intros u y Hu. rewrite (Hth2 u _ (Hth1 u y Hu)). assert (waiting Q ((ds, rq) :: w) = order Ws ++ waiting Q w) as -> by (unfold waiting; cbn; by rewrite EW).
    rewrite filter_app, EM. destruct (decide (u ∈ waiting Q w)) as [Hw|Hw].
    + rewrite (bool_decide_eq_false_2 (u ∈ filter _ (order Ws))).
      * do 2 f_equal. apply (f_equal (fun b : bool => if b then woken y else y)), bool_decide_ext. rewrite elem_of_app. split; [auto|intros [Hin|]; [|done]].
        apply list_elem_of_filter in Hin as [_ Hin]. exfalso. eapply (waiters_apart _ ds rq Q w u (qv_inv _ _ _ Hv) Hl); [by rewrite EW|done].
      * intros [_ Hin]%list_elem_of_filter. eapply (waiters_apart _ ds rq Q w u (qv_inv _ _ _ Hv) Hl); [by rewrite EW|done].
    + rewrite (bool_decide_eq_false_2 (u ∈ filter _ (waiting Q w))) by (rewrite list_elem_of_filter; tauto).
      f_equal. apply (f_equal (fun b : bool => if b then woken y else y)), bool_decide_ext. rewrite elem_of_app, !list_elem_of_filter. tauto.
Qed.

Lemma pass_ok_later l ds rq w Q L Ws Rs s s1 :
  qview (qm (wo s)) Q L -> Q !! WaitQ ds = Some Ws -> Q !! rq = Some Rs -> (forall i, rq <> WaitQ i) ->
  (forall ds' q, (ds', q) ∈ w -> (ds < ds')%nat) -> pass_ok ((ds, rq) :: w) Q L s ->
  scanned PTH_NSIG n ds rq bounded E pr cn l (order Ws) Ws Rs Q L s s1 -> pass_ok w (move_due s1 Q (ds, rq)) L s1.
Proof.
  intros Hv HW HR Hq Hl [P1 P2 P3 P4 P5 P6] (Hf & _ & _ & Hth).
  assert (forall y, y ∈ w -> (ds < y.1)%nat) as Hl' by (intros [ds' q] Hin; by apply (Hl ds' q)).
  assert (forall t, t ∈ waiting Q w -> t ∈ waiting Q ((ds, rq) :: w)) as Hsub.
  { intros t (x & Hx & Ht)%elem_of_waiting. apply elem_of_waiting. exists x. split; [by right|done]. }
  destruct (waiting_later ds rq Q (without (filter (fun t => due E cn s1 t = true) (waiters Q (ds, rq))) (queue_at Q (WaitQ ds)))
    (enqueue pr (filter (fun t => due E cn s1 t = true) (waiters Q (ds, rq))) (queue_at Q rq)) w Hq Hl') as [Ewt _].
  change (waiting (move_due s1 Q (ds, rq)) w = waiting Q w) in Ewt. split; rewrite ?Ewt.
  - intros ds' q Hin. destruct (P1 ds' q ltac:(by right)) as (A & B & C & D). pose proof (Hl ds' q Hin). unfold move_due. cbn [fst snd]. split_and!; try done.
    + rewrite !lookup_insert_ne; [done|intros [= ?]; lia|apply Hq].
    + rewrite lookup_insert. case_decide; [by eexists|]. rewrite lookup_insert. case_decide; [by eexists|done].
  - intros x Hx. unfold move_due. cbn [fst snd]. rewrite (waiters_later _ _ _ _ _ w x Hq Hl' Hx). apply P2. by right.
  - intros t Ht. pose proof (P3 t (Hsub t Ht)) as Hok. eapply waits_ok_frame; [exact Hf| |exact Hok].
    destruct Hok as (y & _ & Hy & _). rewrite (Hth t y Hy), Hy. rewrite bool_decide_eq_false_2; [done|].
    intros [_ Hin]%list_elem_of_filter. eapply (waiters_apart _ ds rq Q w t (qv_inv _ _ _ Hv) Hl'); [|exact Ht].
    unfold waiters, queue_at. cbn [fst]. by rewrite HW.
  - intros t u e Ht Hu. apply P4; by apply Hsub.
  - by rewrite (sf_dx _ _ _ Hf).
  - by rewrite (sf_natives _ _ _ Hf).
Qed.

Lemma late_natives_walk : forall fuel slot x w e Q L,
  walk m_to_n bounded slot (drop slot (natives (wo (gs x)))) = Some (w, e) -> (length (natives (wo (gs x))) < fuel + slot)%nat ->
  qview (qm (wo (gs x))) Q L -> pass_ok w Q L (gs x) ->
  wp (late_natives PTH_NSIG n m_to_n fuel tfuel rfuel slot bounded) (fun r x' => r = e /\ passed (lo x) w Q L (gs x) (gs x')) x.
Proof.
  intros fuel. induction fuel as [|fuel IH]; intros slot x w e Q L Hw Hf Hv Hok.
  { rewrite drop_ge in Hw by lia. done. }
  destruct (natives (wo (gs x)) !! slot) as [d|] eqn:Hd; [|apply lookup_ge_None in Hd; by rewrite drop_ge in Hw].
  rewrite (drop_S _ _ _ Hd) in Hw. cbn [walk] in Hw. cbn [late_natives]. apply wp_bind. eapply wp_read; [by apply onw_read, get_d_run|].
  destruct (is_used d); cbn [negb] in *; [|injection Hw as <- <-; apply wp_ret; split; [done|by apply passed_nil]].
  destruct (queue_of m_to_n slot d) as [rq|] eqn:Hrq; [|apply IH; [done|lia|done|done]].
  assert (exists w', w = (slot, rq) :: w' /\ (if bounded then w' = [] /\ e = S slot else walk m_to_n bounded (S slot) (drop (S slot) (natives (wo (gs x)))) = Some (w', e)))
    as (w' & -> & Hw').
  { destruct bounded; [injection Hw as <- <-; by exists []|]. destruct (walk _ _ (S slot) _) as [[w' e']|]; [|done]. injection Hw as <- <-. by exists w'. }
  assert (forall i, rq <> WaitQ i) as Hq by (unfold queue_of in Hrq; intros i ->; repeat case_match; congruence).
  assert (forall ds' q, (ds', q) ∈ w' -> (slot < ds')%nat) as Hl.
  { intros ds' q Hin. destruct bounded; [destruct Hw' as [-> _]; by apply elem_of_nil in Hin|]. by destruct (walk_slots _ _ _ _ _ _ _ _ Hw' Hin). }
  destruct (po_queues _ _ _ _ Hok slot rq ltac:(by left)) as ([Ws HW] & [Rs HR] & HLr & HLw).
  assert (waiters Q (slot, rq) = order Ws) as EW by (unfold waiters, queue_at; cbn [fst]; by rewrite HW).
  assert (forall t, t ∈ order Ws -> t ∈ waiting Q ((slot, rq) :: w')) as Hin1.
  { intros t Ht. apply elem_of_waiting. exists (slot, rq). split; [by left|by rewrite EW]. }
  assert (forall t, t ∈ waiting Q w' -> t ∈ waiting Q ((slot, rq) :: w')) as Hin2.
  { intros t (x' & Hx' & Ht)%elem_of_waiting. apply elem_of_waiting. exists x'. split; [by right|done]. }
  apply wp_bind. unfold upd_l. apply wp_modify.
  eapply (late_queue PTH_NSIG n slot rq bounded rfuel (Hq slot) E pr cn tfuel _ Q L Ws Rs); cbn [gs];
    [exact Hv|exact HW|exact HR|exact HLr|exact HLw|intros t Ht; apply (po_waits _ _ _ _ Hok); auto
    |intros t u ev Ht Hu; apply (po_events _ _ _ _ Hok); auto|apply (po_dx _ _ _ _ Hok)|apply (po_native _ _ _ _ Hok)
    |by eapply lookup_lt_Some|rewrite <- EW; apply (po_lengths _ _ _ _ Hok); by left|].
  intros x1 El Hs. cbn [lo] in El, Hs. change (scanned PTH_NSIG n slot rq bounded E pr cn (lo x) (order Ws) Ws Rs Q L (gs x) (gs x1)) in Hs.
  assert (forall t u ev, t ∈ order Ws -> u ∈ waiting Q w' -> ev ∈ E t -> ev ∉ E u) as Hdis.
  { intros t u ev Ht Hu. apply (po_events _ _ _ _ Hok); [auto|auto|]. intros ->.
    eapply (waiters_apart _ slot rq Q w' u (qv_inv _ _ _ Hv)); [|by rewrite EW|done]. intros [ds' q] Hin. by apply (Hl ds' q). }
  assert (forall s', passed (lo x) w' (move_due (gs x1) Q (slot, rq)) L (gs x1) s' -> passed (lo x) ((slot, rq) :: w') Q L (gs x) s') as Hcons.
  { intros s'. eapply passed_cons; [done|exact HW|exact HR|done| |exact Hdis|exact Hs]. intros [ds' q] Hin. by apply (Hl ds' q). }
  assert (qview (qm (wo (gs x1))) (move_due (gs x1) Q (slot, rq)) L) as Hv1.
  { destruct Hs as (_ & _ & Hv1 & _). unfold move_due, queue_at. rewrite EW. cbn [fst snd]. by rewrite HW, HR. }
  assert (pass_ok w' (move_due (gs x1) Q (slot, rq)) L (gs x1)) as Hok1 by by eapply pass_ok_later.
  destruct bounded.
  - destruct Hw' as [-> ->]. apply wp_ret. split; [done|]. by apply Hcons, passed_nil.
  - pose proof (proj1 Hs) as Hf1. eapply wp_mono; [apply (IH (S slot) x1 w' e (move_due (gs x1) Q (slot, rq)) L)|].
    + rewrite (walk_pipes _ _ (drop (S slot) (natives (wo (gs x))))); [done|]. by rewrite !fmap_drop, (sf_pipes _ _ _ Hf1).
    + rewrite (sf_natives _ _ _ Hf1). lia.
    + done.
    + done.
    + intros r x' [-> Hp]. split; [done|]. apply Hcons. by rewrite El in Hp.
Qed.

(** C6: the pass over the waiting threads after [select], from the native [slot]
    on, goes over the wait queues of the natives [w] of the walk ([walk]: the bounded
    native itself, else those up to the first unused one that are not passed over)
    and makes ready exactly the threads that are due: those of which an event has
    occurred or the cancellation is requested.  They leave their wait queues and
    are appended, in the order of the walk, to the ready queue that belongs to
    the native, at their own priority; their state is READY and they wait in no
    native any more; all other threads stay where they are.  An event has
    occurred afterwards exactly if it had occurred before or happens ([happens];
    in an unbounded native: its descriptor is in the answer of [select], or its
    signal was seen; in a bounded one: its mutex is free, its condition is
    signaled, or its thread is in the state) when it is looked at, in a state that differs from the one before only by what the
    events before it in the walk ([touched]) and the threads made ready change. *)
Theorem late_pass_wakes_due fuel slot x w e Q L :
  walk m_to_n bounded slot (drop slot (natives (wo (gs x)))) = Some (w, e) -> (length (natives (wo (gs x))) < fuel + slot)%nat ->
  qview (qm (wo (gs x))) Q L -> pass_ok w Q L (gs x) ->
  exists x', late_natives PTH_NSIG n m_to_n fuel tfuel rfuel slot bounded x = Ok (e, x') /\
    (let M := filter (fun t => due E cn (gs x') t = true) (waiting Q w) in
     qview (qm (wo (gs x'))) (foldl (move_due (gs x')) Q w) L /\
     forall u y, threads (wo (gs x)) !! u = Some y -> threads (wo (gs x')) !! u = Some (if bool_decide (u ∈ M) then woken y else y)) /\
    (forall es1 ds ev es2 y, pass_events Q w = es1 ++ (ds, ev) :: es2 -> ebody (evs (gs x)) !! ev = Some y ->
       exists s1, touched (newly es1.*2 (gs x) s1) (gs x) s1 /\ marked (gs x) s1 /\
         occurred (gs x') ev = ev_occurred y || happens PTH_NSIG n bounded (lo x) ds s1 y).
Proof.
  intros Hw Hf Hv Hok. destruct (wp_elim _ _ _ (late_natives_walk fuel slot x w e Q L Hw Hf Hv Hok)) as (r & x' & Ex & -> & Hfr & Hex & Hv' & Hth).
  exists x'. split; [done|]. split; [done|]. intros es1 ds ev es2 y Es Hy. destruct (Hex es1 ds ev es2 y Es Hy) as (s1 & Hs1 & Ho).
  exists s1. split_and!; [apply (sf_touched _ _ _ Hs1)|apply (sf_same _ _ _ Hs1)|done].
Qed.
End late_pass.

(** *** An example: thread 1 waits until descriptor 4 is readable, and [select]
    reported it *)

Definition fd_event : pth_event_st := Event false PTH_EVENT_FD PTH_UNTIL_FD_READABLE 0 (AFd 4).
Definition loc_demo : loc := Loc 16 0 0 4 None 0 0 0 false false RQ.

Definition two_natives (s : sst) : sst :=
  set_wo (set_natives [a_native 100 1; a_native 101 2; set_is_used false (a_native 102 3)] (wo s)) s.

Lemma late_pass_wakes_due_witness :
  exists m x', late_natives 65 0 false 4 2 1 0 false (Est (two_natives (wait_in m fd_event)) loc_demo) = Ok (2%nat, x') /\
    occurred (gs x') 7 = true /\ threads (wo (gs x')) !! 1%nat = woken <$> threads (wo (wait_in m fd_event)) !! 1%nat.
Proof.
  destruct (one_queued [RQ; ReadyQ 0; WaitQ 0; WaitQ 1] (WaitQ 0)) as (m & Hv & _); [by repeat constructor; set_solver|set_solver|].
  set (Ws := <[5%nat := [1%nat]]> empty_lists) in *. set (Q := <[WaitQ 0 := Ws]> (fresh_lists [RQ; ReadyQ 0; WaitQ 0; WaitQ 1])) in *.
  assert (order Ws = [1%nat]) as Ho by (vm_compute; reflexivity). assert (order empty_lists = []) as He by (vm_compute; reflexivity).
  assert (Q !! WaitQ 0 = Some Ws /\ Q !! WaitQ 1 = Some empty_lists /\ Q !! RQ = Some empty_lists /\ Q !! ReadyQ 0 = Some empty_lists) as (H0 & H1 & HR & HR0).
  { unfold Q. split; [apply lookup_insert_eq|]. rewrite !lookup_insert_ne by done. split_and!; apply fresh_lists_at; set_solver. }
  assert (forall t, t ∈ waiting Q [(0%nat, ReadyQ 0); (1%nat, RQ)] -> t = 1%nat) as Hone.
  { intros t (x & Hx & Ht)%elem_of_waiting. unfold waiters, queue_at in Ht. rewrite !elem_of_cons, elem_of_nil in Hx. destruct Hx as [-> | [-> | []]]; cbn [fst] in Ht.
    - rewrite H0 in Ht. change (default [] (Some Ws)) with Ws in Ht. rewrite Ho in Ht. by apply list_elem_of_singleton.
    - rewrite H1 in Ht. change (t ∈ order empty_lists) in Ht. rewrite He in Ht. by apply elem_of_nil in Ht. }
  set (x := Est (two_natives (wait_in m fd_event)) loc_demo).
  destruct (late_pass_wakes_due 65 0 false false 2 1 (fun _ => [7%nat]) (fun _ => 5%nat) (fun _ => false)
    4 0 x [(0%nat, ReadyQ 0); (1%nat, RQ)] 2 Q (fun _ => 0)) as (x' & E & [_ Hth] & Hocc).
  - reflexivity.
  - cbn. lia.
  - exact Hv.
  - split.
    + intros ds rq Hin. rewrite !elem_of_cons, elem_of_nil in Hin. destruct Hin as [[= -> ->] | [[= -> ->] | []]]; by split_and!.
    + intros y Hin. rewrite !elem_of_cons, elem_of_nil in Hin. unfold waiters, queue_at. destruct Hin as [-> | [-> | []]]; cbn [fst]; [rewrite H0|rewrite H1];
        [change (default [] (Some Ws)) with Ws; rewrite Ho; cbn; lia|vm_compute; lia].
    + intros t ->%Hone. eexists _, _. split_and!; [apply lookup_singleton_eq|reflexivity..|vm_compute; lia|reflexivity|apply lookup_singleton_eq|].
      exists []. split_and!; [done| | |cbn; lia].
      * split; [repeat constructor; set_solver|]. by vm_compute.
      * intros e ->%list_elem_of_singleton. exists fd_event. by split.
    + intros t u e ->%Hone ->%Hone. done.
    + cbn. set_solver.
    + cbn. lia.
  - assert (occurred (gs x') 7 = true) as H7.
    { destruct (Hocc [] 0%nat 7%nat [] fd_event) as (s1 & _ & _ & ->); [|reflexivity|reflexivity].
      unfold pass_events, waiters, queue_at. cbn [fmap list_fmap fst concat]. rewrite H0, H1. change (default [] (Some Ws)) with Ws. rewrite Ho. reflexivity. }
    exists m, x'. split; [exact E|]. split; [exact H7|]. rewrite (Hth 1%nat (set_waited_native (Some 0%nat) (set_state PTH_STATE_WAITING a_thread)) eq_refl).
    rewrite bool_decide_eq_true_2; [reflexivity|]. apply list_elem_of_filter. split; [unfold due; cbn; by rewrite H7|].
    apply elem_of_waiting. exists (0%nat, ReadyQ 0). split; [by left|]. unfold waiters, queue_at. cbn [fst]. rewrite H0. change (default [] (Some Ws)) with Ws. rewrite Ho. by left.
Defined.
