(* ===== verification/Attr.v ===== *)
(** * Thread attributes (pth_attr.c and the attribute functions of pthread.c)

    An attribute object belongs to no thread, and holds values for a thread
    that is created later, or it belongs to a thread ([a_tid]) and stands for
    the members of its control block.

    The memory a caller passes pointers to is [cells], by address; strings are
    in [strs].  An argument of [pth_attr_set] or [pth_attr_get] is one machine
    word, a number or an address, and is read as what the operation asks for.
    A new attribute object has the contents the allocator leaves in it: an
    answer of [pth_malloc] is an address and these contents. *)

From S2P Require Import Prelude Bitmap Dll LinkedList Ring Priorities Msg PQueue Futex World Event Time Util Sched.

Definition PTH_TCB_NAMELEN : nat := 16.
Definition PTH_CANCEL_DEFAULT : Z := Z.lor PTH_CANCEL_ENABLE PTH_CANCEL_DEFERRED.
Definition PTH_SCOPE_SYSTEM : Z := 0.
Definition PTH_SCOPE_PROCESS : Z := 1.

Inductive attr_cmd : Set := PTH_ATTR_GET | PTH_ATTR_SET.

(** The attributes; [PTH_ATTR_UNKNOWN n] is any other number. *)
Inductive attr_op : Set :=
  | PTH_ATTR_SCHEDPOLICY | PTH_ATTR_INHERITSCHED | PTH_ATTR_PRIO | PTH_ATTR_NAME | PTH_ATTR_JOINABLE
  | PTH_ATTR_CANCEL_STATE | PTH_ATTR_STACK_SIZE | PTH_ATTR_STACK_ADDR | PTH_ATTR_TIME_SPAWN | PTH_ATTR_TIME_LAST
  | PTH_ATTR_TIME_RAN | PTH_ATTR_START_FUNC | PTH_ATTR_START_ARG | PTH_ATTR_STATE | PTH_ATTR_EVENTS
  | PTH_ATTR_BOUND | PTH_ATTR_CREATE_SUSPENDED | PTH_ATTR_SCOPE | PTH_ATTR_UNKNOWN (n : Z).

#[global] Instance attr_op_eq_dec : EqDecision attr_op.
Proof. solve_decision. Defined.

(** The members of [struct pth_st] that only the attributes use; [tname] is
    [name], [tscope] is [scope]. *)
Record tattr : Set := TAttr {
  tname : list Z;
  inheritsched : Z;
  tscope : Z;
  tstacksize : Z;
  tstack : Z;
  start_func : Z;
  start_arg : Z }.

Definition set_tname (v : list Z) (x : tattr) : tattr := TAttr v (inheritsched x) (tscope x) (tstacksize x) (tstack x) (start_func x) (start_arg x).
Definition set_inheritsched (v : Z) (x : tattr) : tattr := TAttr (tname x) v (tscope x) (tstacksize x) (tstack x) (start_func x) (start_arg x).
Definition set_tscope (v : Z) (x : tattr) : tattr := TAttr (tname x) (inheritsched x) v (tstacksize x) (tstack x) (start_func x) (start_arg x).
Definition set_tstacksize (v : Z) (x : tattr) : tattr := TAttr (tname x) (inheritsched x) (tscope x) v (tstack x) (start_func x) (start_arg x).
Definition set_tstack (v : Z) (x : tattr) : tattr := TAttr (tname x) (inheritsched x) (tscope x) (tstacksize x) v (start_func x) (start_arg x).
Definition set_start_func (v : Z) (x : tattr) : tattr := TAttr (tname x) (inheritsched x) (tscope x) (tstacksize x) (tstack x) v (start_arg x).
Definition set_start_arg (v : Z) (x : tattr) : tattr := TAttr (tname x) (inheritsched x) (tscope x) (tstacksize x) (tstack x) (start_func x) v.

Record pth_attr_st : Set := Attr {
  a_tid : option nat;
  a_prio : Z;
  a_schedpolicy : Z;
  a_inheritsched : Z;
  a_name : list Z;
  a_joinable : Z;
  a_cancelstate : Z;
  a_stacksize : Z;
  a_suspendstate : Z;
  a_stackaddr : Z;
  a_scope : Z }.

Definition set_a_tid (v : option nat) (x : pth_attr_st) : pth_attr_st := Attr v (a_prio x) (a_schedpolicy x) (a_inheritsched x) (a_name x) (a_joinable x) (a_cancelstate x) (a_stacksize x) (a_suspendstate x) (a_stackaddr x) (a_scope x).
Definition set_a_prio (v : Z) (x : pth_attr_st) : pth_attr_st := Attr (a_tid x) v (a_schedpolicy x) (a_inheritsched x) (a_name x) (a_joinable x) (a_cancelstate x) (a_stacksize x) (a_suspendstate x) (a_stackaddr x) (a_scope x).
Definition set_a_schedpolicy (v : Z) (x : pth_attr_st) : pth_attr_st := Attr (a_tid x) (a_prio x) v (a_inheritsched x) (a_name x) (a_joinable x) (a_cancelstate x) (a_stacksize x) (a_suspendstate x) (a_stackaddr x) (a_scope x).
Definition set_a_inheritsched (v : Z) (x : pth_attr_st) : pth_attr_st := Attr (a_tid x) (a_prio x) (a_schedpolicy x) v (a_name x) (a_joinable x) (a_cancelstate x) (a_stacksize x) (a_suspendstate x) (a_stackaddr x) (a_scope x).
Definition set_a_name (v : list Z) (x : pth_attr_st) : pth_attr_st := Attr (a_tid x) (a_prio x) (a_schedpolicy x) (a_inheritsched x) v (a_joinable x) (a_cancelstate x) (a_stacksize x) (a_suspendstate x) (a_stackaddr x) (a_scope x).
Definition set_a_joinable (v : Z) (x : pth_attr_st) : pth_attr_st := Attr (a_tid x) (a_prio x) (a_schedpolicy x) (a_inheritsched x) (a_name x) v (a_cancelstate x) (a_stacksize x) (a_suspendstate x) (a_stackaddr x) (a_scope x).
Definition set_a_cancelstate (v : Z) (x : pth_attr_st) : pth_attr_st := Attr (a_tid x) (a_prio x) (a_schedpolicy x) (a_inheritsched x) (a_name x) (a_joinable x) v (a_stacksize x) (a_suspendstate x) (a_stackaddr x) (a_scope x).
Definition set_a_stacksize (v : Z) (x : pth_attr_st) : pth_attr_st := Attr (a_tid x) (a_prio x) (a_schedpolicy x) (a_inheritsched x) (a_name x) (a_joinable x) (a_cancelstate x) v (a_suspendstate x) (a_stackaddr x) (a_scope x).
Definition set_a_suspendstate (v : Z) (x : pth_attr_st) : pth_attr_st := Attr (a_tid x) (a_prio x) (a_schedpolicy x) (a_inheritsched x) (a_name x) (a_joinable x) (a_cancelstate x) (a_stacksize x) v (a_stackaddr x) (a_scope x).
Definition set_a_stackaddr (v : Z) (x : pth_attr_st) : pth_attr_st := Attr (a_tid x) (a_prio x) (a_schedpolicy x) (a_inheritsched x) (a_name x) (a_joinable x) (a_cancelstate x) (a_stacksize x) (a_suspendstate x) v (a_scope x).
Definition set_a_scope (v : Z) (x : pth_attr_st) : pth_attr_st := Attr (a_tid x) (a_prio x) (a_schedpolicy x) (a_inheritsched x) (a_name x) (a_joinable x) (a_cancelstate x) (a_stacksize x) (a_suspendstate x) (a_stackaddr x) v.

(** What a word of the callers' memory holds: a number, the address of the name
    of an attribute object or of a thread, an event ring, an attribute object. *)
Inductive cell : Set :=
  | CNum (v : Z) | CAttrName (a : nat) | CThreadName (t : nat) | CEvents (e : option nat) | CAttr (a : option nat).

Record ast : Set := ASt {
  ss : sst;
  ta : gmap nat tattr;
  attrs : gmap nat pth_attr_st;
  cells : gmap Z cell;
  strs : gmap Z (list Z);
  attr_mallocs : list (option (nat * pth_attr_st)) }.

Definition set_ss (v : sst) (x : ast) : ast := ASt v (ta x) (attrs x) (cells x) (strs x) (attr_mallocs x).
Definition set_ta (v : gmap nat tattr) (x : ast) : ast := ASt (ss x) v (attrs x) (cells x) (strs x) (attr_mallocs x).
Definition set_attrs (v : gmap nat pth_attr_st) (x : ast) : ast := ASt (ss x) (ta x) v (cells x) (strs x) (attr_mallocs x).
Definition set_cells (v : gmap Z cell) (x : ast) : ast := ASt (ss x) (ta x) (attrs x) v (strs x) (attr_mallocs x).
Definition set_strs (v : gmap Z (list Z)) (x : ast) : ast := ASt (ss x) (ta x) (attrs x) (cells x) v (attr_mallocs x).
Definition set_attr_mallocs (v : list (option (nat * pth_attr_st))) (x : ast) : ast := ASt (ss x) (ta x) (attrs x) (cells x) (strs x) v.

Definition ona {A} : M sst A -> M ast A := zoom ss set_ss.
Definition get_a (a : nat) : M ast pth_attr_st := s ← get; of_option BadDeref (attrs s !! a).
Definition upd_a (a : nat) (f : pth_attr_st -> pth_attr_st) : M ast unit :=
  x ← get_a a; modify (fun s => set_attrs (<[a := f x]> (attrs s)) s).
Definition get_ta (t : nat) : M ast tattr := s ← get; of_option BadDeref (ta s !! t).
Definition upd_ta (t : nat) (f : tattr -> tattr) : M ast unit :=
  x ← get_ta t; modify (fun s => set_ta (<[t := f x]> (ta s)) s).
Definition read_cell (p : Z) : M ast cell := s ← get; of_option BadDeref (if bool_decide (p = 0) then None else cells s !! p).
Definition write_cell (p : Z) (c : cell) : M ast unit :=
  read_cell p;; modify (fun s => set_cells (<[p := c]> (cells s)) s).
Definition read_str (p : Z) : M ast (list Z) := s ← get; of_option BadDeref (if bool_decide (p = 0) then None else strs s !! p).

(** [pth_malloc(sizeof(struct pth_attr_st))] *)
Definition malloc_attr : M ast (option nat) :=
  s ← get;
  match attr_mallocs s with
  | [] => fail Stuck
  | None :: l => modify (set_attr_mallocs l);; mret None
  | Some (a, x) :: l => modify (fun s => set_attr_mallocs l (set_attrs (<[a := x]> (attrs s)) s));; mret (Some a)
  end.

Definition pth_attr_of (t : option nat) : M ast (option nat) :=
  match t with
  | None => mret None
  | Some t =>
      a ← malloc_attr;
      match a with
      | None => mret None
      | Some a => upd_a a (set_a_tid (Some t));; mret (Some a)
      end
  end.

Section attributes.
(** [pth_default_stacksize], in kilobytes. *)
Context (pth_default_stacksize PTHREAD_STACK_MIN : Z).

(** "unknown" *)
Definition unknown_name : list Z := [117; 110; 107; 110; 111; 119; 110; 0].

Definition pth_attr_init (a : option nat) : M ast bool :=
  match a with
  | None => mret false
  | Some a =>
      x ← get_a a;
      match a_tid x with
      | Some _ => mret false
      | None =>
          upd_a a (set_a_prio (xprio_get_default SCHED_OTHER 0).1);;
          upd_a a (set_a_schedpolicy SCHED_OTHER);;
          x ← get_a a;
          '(_, name) ← of_res (pth_util_cpystrn (a_name x) unknown_name PTH_TCB_NAMELEN);
          upd_a a (set_a_name name);;
          upd_a a (set_a_joinable 1);;
          upd_a a (set_a_cancelstate PTH_CANCEL_DEFAULT);;
          upd_a a (set_a_stacksize (wrap 32 (pth_default_stacksize * 1024)));;
          upd_a a (set_a_stackaddr 0);;
          upd_a a (set_a_scope PTH_SCOPE_PROCESS);;
          mret true
      end
  end.

Definition pth_attr_new : M ast (option nat) :=
  a ← malloc_attr;
  match a with
  | None => mret None
  | Some a => upd_a a (set_a_tid None);; pth_attr_init (Some a);; mret (Some a)
  end.

Definition pth_attr_destroy (a : option nat) : M ast bool :=
  match a with
  | None => mret false
  | Some a => get_a a;; modify (fun s => set_attrs (delete a (attrs s)) s);; mret true
  end.

(** [*dst = *src], where one of them is the member and the other one is given
    by the argument [v]. *)
Definition num_member (cmd : attr_cmd) (v : Z) (rd : M ast Z) (wr : Z -> M ast unit) : M ast bool :=
  match cmd with
  | PTH_ATTR_SET => wr v;; mret true
  | PTH_ATTR_GET => x ← rd; write_cell v (CNum x);; mret true
  end.

(** A member that is only read. *)
Definition read_only (cmd : attr_cmd) (v : Z) (rd : M ast cell) : M ast bool :=
  match cmd with
  | PTH_ATTR_SET => mret false
  | PTH_ATTR_GET => x ← rd; write_cell v x;; mret true
  end.

(** The same, of a thread; without a thread it fails. *)
Definition thread_only (cmd : attr_cmd) (v : Z) (t : option nat) (rd : nat -> M ast cell) : M ast bool :=
  match cmd, t with
  | PTH_ATTR_SET, _ => mret false
  | PTH_ATTR_GET, None => mret false
  | PTH_ATTR_GET, Some t => x ← rd t; write_cell v x;; mret true
  end.

Definition set_name_of (src : Z) (dst : list Z) (wr : list Z -> M ast unit) : M ast bool :=
  str ← read_str src;
  '(_, name) ← of_res (pth_util_cpystrn dst str PTH_TCB_NAMELEN);
  wr name;; mret true.

Definition last_run (t : option nat) : M ast cell :=
  match t with None => mret (CNum 0) | Some t => x ← ona (get_x t); mret (CNum (lastran x)) end.

(** [pth_attr_ctrl]; [v] is the word that [va_arg] reads.  The members of a
    control block have the widths of their bit fields. *)
Definition pth_attr_ctrl (cmd : attr_cmd) (a : option nat) (op : attr_op) (v : Z) : M ast bool :=
  match a with
  | None => mret false
  | Some a =>
      x ← get_a a;
      match op with
      | PTH_ATTR_PRIO =>
          match a_tid x with
          | Some t => ona (onw (get_t t));; fail BadDeref (* [thread_prio_set] and [thread_prio_get] read [NULL->tid] *)
          | None => num_member cmd v (mret (a_prio x)) (fun v => upd_a a (set_a_prio v))
          end
      | PTH_ATTR_SCHEDPOLICY =>
          match a_tid x with
          | Some t => num_member cmd v (th ← ona (onw (get_t t)); mret (schedpolicy th))
                        (fun v => ona (onw (upd_t t (set_schedpolicy (wrap 2 v)))))
          | None => num_member cmd v (mret (a_schedpolicy x)) (fun v => upd_a a (set_a_schedpolicy v))
          end
      | PTH_ATTR_INHERITSCHED =>
          match a_tid x with
          | Some t => num_member cmd v (th ← get_ta t; mret (inheritsched th)) (fun v => upd_ta t (set_inheritsched (wrap 1 v)))
          | None => num_member cmd v (mret (a_inheritsched x)) (fun v => upd_a a (set_a_inheritsched v))
          end
      | PTH_ATTR_NAME =>
          match cmd, a_tid x with
          | PTH_ATTR_SET, Some t => th ← get_ta t; set_name_of v (tname th) (fun n => upd_ta t (set_tname n))
          | PTH_ATTR_SET, None => set_name_of v (a_name x) (fun n => upd_a a (set_a_name n))
          | PTH_ATTR_GET, Some t => write_cell v (CThreadName t);; mret true
          | PTH_ATTR_GET, None => write_cell v (CAttrName a);; mret true
          end
      | PTH_ATTR_JOINABLE =>
          match a_tid x with
          | Some t => num_member cmd v (th ← ona (onw (get_t t)); mret (joinable th)) (fun v => ona (onw (upd_t t (set_joinable v))))
          | None => num_member cmd v (mret (a_joinable x)) (fun v => upd_a a (set_a_joinable v))
          end
      | PTH_ATTR_CANCEL_STATE =>
          match a_tid x with
          | Some t => num_member cmd v (th ← ona (onw (get_t t)); mret (cancelstate th)) (fun v => ona (onw (upd_t t (set_cancelstate v))))
          | None => num_member cmd v (mret (a_cancelstate x)) (fun v => upd_a a (set_a_cancelstate v))
          end
      | PTH_ATTR_STACK_SIZE =>
          match cmd, a_tid x with
          | PTH_ATTR_SET, Some _ => mret false
          | PTH_ATTR_GET, Some t => num_member cmd v (th ← get_ta t; mret (tstacksize th)) (fun _ => mret tt)
          | _, None => num_member cmd v (mret (a_stacksize x)) (fun v => upd_a a (set_a_stacksize v))
          end
      | PTH_ATTR_STACK_ADDR =>
          match cmd, a_tid x with
          | PTH_ATTR_SET, Some _ => mret false
          | PTH_ATTR_GET, Some t => num_member cmd v (th ← get_ta t; mret (tstack th)) (fun _ => mret tt)
          | _, None => num_member cmd v (mret (a_stackaddr x)) (fun v => upd_a a (set_a_stackaddr v))
          end
      | PTH_ATTR_CREATE_SUSPENDED => num_member cmd v (mret (a_suspendstate x)) (fun v => upd_a a (set_a_suspendstate v))
      | PTH_ATTR_TIME_SPAWN | PTH_ATTR_TIME_LAST | PTH_ATTR_TIME_RAN => read_only cmd v (last_run (a_tid x))
      | PTH_ATTR_START_FUNC => thread_only cmd v (a_tid x) (fun t => th ← get_ta t; mret (CNum (start_func th)))
      | PTH_ATTR_START_ARG => thread_only cmd v (a_tid x) (fun t => th ← get_ta t; mret (CNum (start_arg th)))
      | PTH_ATTR_STATE => thread_only cmd v (a_tid x) (fun t => th ← ona (onw (get_t t)); mret (CNum (state_num (state th))))
      | PTH_ATTR_EVENTS => thread_only cmd v (a_tid x) (fun t => th ← ona (get_x t); mret (CEvents (events th)))
      | PTH_ATTR_BOUND => read_only cmd v (mret (CNum (if a_tid x then 1 else 0)))
      | PTH_ATTR_SCOPE => num_member cmd v (mret (a_scope x)) (fun v => upd_a a (set_a_scope v))
      | PTH_ATTR_UNKNOWN _ => mret false
      end
  end.

Definition pth_attr_get (a : option nat) (op : attr_op) (v : Z) : M ast bool := pth_attr_ctrl PTH_ATTR_GET a op v.
Definition pth_attr_set (a : option nat) (op : attr_op) (v : Z) : M ast bool := pth_attr_ctrl PTH_ATTR_SET a op v.

(** ** The POSIX functions

    [attr] points to a variable of the caller that holds the attribute object;
    a local variable of a function is a cell of its own. *)

Definition OK : Z := 0.
Definition ENOSYS : Z := 38.
Definition PTHREAD_CREATE_JOINABLE : Z := 0.
Definition PTHREAD_CREATE_DETACHED : Z := 1.
Definition PTHREAD_CREATE_SUSPENDED : Z := 2.
Definition PTHREAD_INHERIT_SCHED : Z := 0.
Definition PTHREAD_EXPLICIT_SCHED : Z := 1.
Definition PTHREAD_SCOPE_SYSTEM : Z := 0.
Definition PTHREAD_SCOPE_PROCESS : Z := 1.

(** [( *attr)] *)
Definition attr_var (attr : Z) : M ast (option nat) :=
  c ← read_cell attr; match c with CAttr a => mret a | _ => fail Undefined end.
Definition num_of (c : cell) : M ast Z := match c with CNum v => mret v | _ => fail Undefined end.

Definition __pthread_attr_init_2_1 (attr : Z) : M ast Z :=
  if bool_decide (attr = 0) then mret EINVAL
  else
    na ← pth_attr_new;
    match na with
    | None => mret ENOMEM
    | Some a => write_cell attr (CAttr (Some a));; mret OK
    end.

Definition pthread_attr_destroy (attr : Z) : M ast Z :=
  if bool_decide (attr = 0) then mret EINVAL
  else
    na ← attr_var attr;
    match na with
    | None => mret EINVAL
    | Some a => pth_attr_destroy (Some a);; write_cell attr (CAttr None);; mret OK
    end.

(** Sets an attribute, and fails with EINVAL if that fails. *)
Definition set_or_einval (attr : Z) (op : attr_op) (v : Z) : M ast Z :=
  a ← attr_var attr;
  b ← pth_attr_set a op v;
  mret (if (b : bool) then OK else EINVAL).

(** The value of an attribute in a local variable. *)
Definition get_local (attr : Z) (op : attr_op) (init : Z) : M ast (option Z) :=
  s ← get;
  a ← attr_var attr;
  let p := fresh ({[0]} ∪ dom (cells s)) in
  modify (fun s => set_cells (<[p := CNum init]> (cells s)) s);;
  b ← pth_attr_get a op p;
  c ← read_cell p;
  v ← num_of c;
  modify (fun s => set_cells (delete p (cells s)) s);;
  mret (if (b : bool) then Some v else None).

(** The value of an attribute in a variable of the caller. *)
Definition get_or_einval (attr : Z) (op : attr_op) (p : Z) : M ast Z :=
  a ← attr_var attr;
  b ← pth_attr_get a op p;
  mret (if (b : bool) then OK else EINVAL).

Definition pthread_attr_setinheritsched (attr inh : Z) : M ast Z :=
  if bool_decide (attr = 0) then mret EINVAL
  else if negb (bool_decide (inh = PTHREAD_EXPLICIT_SCHED)) then mret ENOSYS
  else if bool_decide (inh = PTHREAD_INHERIT_SCHED) || bool_decide (inh = PTHREAD_EXPLICIT_SCHED)
  then set_or_einval attr PTH_ATTR_INHERITSCHED inh
  else mret EINVAL.

(** A getter that copies the value from a local variable. *)
Definition copy_out (attr : Z) (op : attr_op) (init p : Z) (f : Z -> Z) : M ast Z :=
  o ← get_local attr op init;
  match o with
  | None => mret EINVAL
  | Some v => write_cell p (CNum (f v));; mret OK
  end.

Definition pthread_attr_getinheritsched (attr p : Z) : M ast Z :=
  if bool_decide (attr = 0) || bool_decide (p = 0) then mret EINVAL else copy_out attr PTH_ATTR_INHERITSCHED 0 p id.

(** The number [schedpolicy], which is 0, is passed where its address is meant. *)
Definition pthread_attr_setprio_np (attr xprio : Z) : M ast Z :=
  let schedpolicy := 0 in
  if bool_decide (attr = 0) then mret EINVAL
  else
    a ← attr_var attr;
    b ← pth_attr_get a PTH_ATTR_SCHEDPOLICY schedpolicy;
    if negb b then mret EINVAL
    else if negb (bool_decide ((prio_validate schedpolicy xprio 0).1 = 0)) then mret EINVAL
    else set_or_einval attr PTH_ATTR_PRIO xprio.

(** [schedparam] points to the priority. *)
Definition pthread_attr_setschedparam (attr schedparam : Z) : M ast Z :=
  c ← read_cell schedparam;
  xprio ← num_of c;
  pthread_attr_setprio_np attr xprio.

Definition pthread_attr_getschedparam (attr schedparam : Z) : M ast Z :=
  if bool_decide (attr = 0) || bool_decide (schedparam = 0) then mret EINVAL else copy_out attr PTH_ATTR_PRIO 0 schedparam id.
Definition pthread_attr_getprio_np (attr p : Z) : M ast Z :=
  if bool_decide (attr = 0) || bool_decide (p = 0) then mret EINVAL else copy_out attr PTH_ATTR_PRIO 0 p id.

Definition pthread_attr_setschedpolicy (attr pol : Z) : M ast Z :=
  if bool_decide (attr = 0) then mret EINVAL
  else if bool_decide (pol = SCHED_OTHER) || bool_decide (pol = SCHED_FIFO) || bool_decide (pol = SCHED_RR)
  then set_or_einval attr PTH_ATTR_SCHEDPOLICY pol
  else mret EINVAL.
Definition pthread_attr_getschedpolicy (attr p : Z) : M ast Z :=
  if bool_decide (attr = 0) || bool_decide (p = 0) then mret EINVAL else copy_out attr PTH_ATTR_SCHEDPOLICY 0 p id.

Definition pthread_attr_setscope (attr scope : Z) : M ast Z :=
  if bool_decide (attr = 0) then mret EINVAL
  else if bool_decide (scope < PTHREAD_SCOPE_SYSTEM) || bool_decide (scope > PTHREAD_SCOPE_PROCESS) then mret EINVAL
  else
    s ← get;
    if bool_decide (scope = PTHREAD_SCOPE_SYSTEM) && bool_decide (pth_max_native_threads (ss s) = 1) then mret EINVAL
    else set_or_einval attr PTH_ATTR_SCOPE scope.
Definition pthread_attr_getscope (attr p : Z) : M ast Z :=
  if bool_decide (attr = 0) || bool_decide (p = 0) then mret EINVAL else get_or_einval attr PTH_ATTR_SCOPE p.

Definition pthread_attr_setstacksize (attr stacksize : Z) : M ast Z :=
  if bool_decide (attr = 0) then mret EINVAL
  else if bool_decide (stacksize < PTHREAD_STACK_MIN) || bool_decide (stacksize > 268435456) then mret EINVAL
  else set_or_einval attr PTH_ATTR_STACK_SIZE stacksize.
(** The size is written as an [unsigned int], which is a [size_t] on this machine. *)
Definition pthread_attr_getstacksize (attr p : Z) : M ast Z :=
  if bool_decide (attr = 0) || bool_decide (p = 0) then mret EINVAL else get_or_einval attr PTH_ATTR_STACK_SIZE p.

Definition pthread_attr_setstackaddr (attr stackaddr : Z) : M ast Z :=
  if bool_decide (attr = 0) then mret EINVAL else set_or_einval attr PTH_ATTR_STACK_ADDR stackaddr.
Definition pthread_attr_getstackaddr (attr p : Z) : M ast Z :=
  if bool_decide (attr = 0) || bool_decide (p = 0) then mret EINVAL else get_or_einval attr PTH_ATTR_STACK_ADDR p.

Definition pthread_attr_setdetachstate (attr detachstate : Z) : M ast Z :=
  if bool_decide (attr = 0) then mret EINVAL
  else if bool_decide (detachstate = PTHREAD_CREATE_DETACHED) then set_or_einval attr PTH_ATTR_JOINABLE 0
  else if bool_decide (detachstate = PTHREAD_CREATE_JOINABLE) then set_or_einval attr PTH_ATTR_JOINABLE 1
  else mret EINVAL.
Definition pthread_attr_getdetachstate (attr p : Z) : M ast Z :=
  if bool_decide (attr = 0) || bool_decide (p = 0) then mret EINVAL
  else copy_out attr PTH_ATTR_JOINABLE 0 p
         (fun s => if bool_decide (s = 1) then PTHREAD_CREATE_JOINABLE else PTHREAD_CREATE_DETACHED).

Definition pthread_attr_setguardsize (attr stacksize : Z) : M ast Z := mret ENOSYS.

Definition pthread_attr_setname_np (attr name : Z) : M ast Z :=
  if bool_decide (attr = 0) || bool_decide (name = 0) then mret EINVAL else set_or_einval attr PTH_ATTR_NAME name.
Definition pthread_attr_getname_np (attr p : Z) : M ast Z :=
  if bool_decide (attr = 0) || bool_decide (p = 0) then mret EINVAL else get_or_einval attr PTH_ATTR_NAME p.

Definition pthread_attr_setweight_np (attr weight : Z) : M ast Z := mret 0.

(** The argument [suspendstate] is not used. *)
Definition pthread_attr_setsuspendstate_np (attr suspendstate : Z) : M ast Z :=
  if bool_decide (attr = 0) then mret EINVAL else set_or_einval attr PTH_ATTR_CREATE_SUSPENDED 1.
Definition pthread_attr_getsuspendstate_np (attr p : Z) : M ast Z :=
  if bool_decide (attr = 0) then mret EINVAL
  else
    o ← get_local attr PTH_ATTR_CREATE_SUSPENDED 0;
    match o with
    | None => mret EINVAL
    | Some s => (if bool_decide (s = 1) then write_cell p (CNum PTHREAD_CREATE_SUSPENDED) else mret tt);; mret OK
    end.
End attributes.

(** ** What the functions compute *)

Definition put_a (a : nat) (x : pth_attr_st) (s : ast) : ast := set_attrs (<[a := x]> (attrs s)) s.
Definition put_cell (p : Z) (c : cell) (s : ast) : ast := set_cells (<[p := c]> (cells s)) s.

Lemma get_a_run a x s : attrs s !! a = Some x -> get_a a s = Ok (x, s).
Proof. intros H. unfold get_a. rewrite (bind_run get _ _ _ _ eq_refl). by rewrite H. Qed.
Lemma upd_a_run a f x s : attrs s !! a = Some x -> upd_a a f s = Ok (tt, put_a a (f x) s).
Proof. intros H. unfold upd_a. by rewrite (bind_run _ _ _ _ _ (get_a_run _ _ _ H)). Qed.
Lemma read_cell_run p c s : p <> 0 -> cells s !! p = Some c -> read_cell p s = Ok (c, s).
Proof. intros H0 H. unfold read_cell. rewrite (bind_run get _ _ _ _ eq_refl), bool_decide_eq_false_2 by done. by rewrite H. Qed.
Lemma write_cell_run p c c' s : p <> 0 -> cells s !! p = Some c -> write_cell p c' s = Ok (tt, put_cell p c' s).
Proof. intros H0 H. unfold write_cell. by rewrite (bind_run _ _ _ _ _ (read_cell_run _ _ _ H0 H)). Qed.

(** The attributes that are numbers: how they are read and written in an
    object that belongs to no thread. *)
Definition field (op : attr_op) : option ((pth_attr_st -> Z) * (Z -> pth_attr_st -> pth_attr_st)) :=
  match op with
  | PTH_ATTR_PRIO => Some (a_prio, set_a_prio)
  | PTH_ATTR_SCHEDPOLICY => Some (a_schedpolicy, set_a_schedpolicy)
  | PTH_ATTR_INHERITSCHED => Some (a_inheritsched, set_a_inheritsched)
  | PTH_ATTR_JOINABLE => Some (a_joinable, set_a_joinable)
  | PTH_ATTR_CANCEL_STATE => Some (a_cancelstate, set_a_cancelstate)
  | PTH_ATTR_STACK_SIZE => Some (a_stacksize, set_a_stacksize)
  | PTH_ATTR_STACK_ADDR => Some (a_stackaddr, set_a_stackaddr)
  | PTH_ATTR_CREATE_SUSPENDED => Some (a_suspendstate, set_a_suspendstate)
  | PTH_ATTR_SCOPE => Some (a_scope, set_a_scope)
  | _ => None
  end.

Section unbound.
Context (s : ast) (attr : Z) (a : nat) (x : pth_attr_st).
Context (Ha0 : attr <> 0) (Hattr : cells s !! attr = Some (CAttr (Some a))) (Hx : attrs s !! a = Some x) (Hu : a_tid x = None).

Lemma attr_var_run : attr_var attr s = Ok (Some a, s).
Proof. unfold attr_var. by rewrite (bind_run _ _ _ _ _ (read_cell_run _ _ _ Ha0 Hattr)). Qed.

Lemma ctrl_set_run op g st v : field op = Some (g, st) ->
  pth_attr_set (Some a) op v s = Ok (true, put_a a (st v x) s).
Proof.
  intros Hf. unfold pth_attr_set, pth_attr_ctrl. rewrite (bind_run _ _ _ _ _ (get_a_run _ _ _ Hx)), Hu.
  destruct op; try discriminate; cbn in Hf; injection Hf as <- <-; cbn [num_member]; by rewrite (bind_run _ _ _ _ _ (upd_a_run _ _ _ _ Hx)).
Qed.

Lemma ctrl_get_run op g st p c : field op = Some (g, st) -> p <> 0 -> cells s !! p = Some c ->
  pth_attr_get (Some a) op p s = Ok (true, put_cell p (CNum (g x)) s).
Proof.
  intros Hf H0 Hp. unfold pth_attr_get, pth_attr_ctrl. rewrite (bind_run _ _ _ _ _ (get_a_run _ _ _ Hx)), Hu.
  destruct op; try discriminate; cbn in Hf; injection Hf as <- <-; cbn [num_member];
    rewrite (bind_run (mret _) _ _ _ _ eq_refl); by rewrite (bind_run _ _ _ _ _ (write_cell_run _ _ _ _ H0 Hp)).
Qed.

Lemma set_or_einval_run op g st v : field op = Some (g, st) -> set_or_einval attr op v s = Ok (OK, put_a a (st v x) s).
Proof.
  intros Hf. unfold set_or_einval. rewrite (bind_run _ _ _ _ _ attr_var_run).
  by rewrite (bind_run _ _ _ _ _ (ctrl_set_run _ _ _ _ Hf)).
Qed.

Lemma get_or_einval_run op g st p c : field op = Some (g, st) -> p <> 0 -> cells s !! p = Some c ->
  get_or_einval attr op p s = Ok (OK, put_cell p (CNum (g x)) s).
Proof.
  intros Hf H0 Hp. unfold get_or_einval. rewrite (bind_run _ _ _ _ _ attr_var_run).
  by rewrite (bind_run _ _ _ _ _ (ctrl_get_run _ _ _ _ _ Hf H0 Hp)).
Qed.
End unbound.

Lemma get_local_run s attr a x op g st i : attr <> 0 -> cells s !! attr = Some (CAttr (Some a)) -> attrs s !! a = Some x ->
  a_tid x = None -> field op = Some (g, st) -> get_local attr op i s = Ok (Some (g x), s).
Proof.
  intros Ha0 Hattr Hx Hu Hf. unfold get_local. rewrite (bind_run get _ _ _ _ eq_refl).
  rewrite (bind_run _ _ _ _ _ (attr_var_run s attr a Ha0 Hattr)).
  set (p := fresh ({[0]} ∪ dom (cells s))). pose proof (is_fresh ({[0]} ∪ dom (cells s))) as Hp. fold p in Hp.
  assert (p <> 0) as Hp0 by set_solver. assert (cells s !! p = None) as Hpn by (apply not_elem_of_dom; set_solver).
  rewrite (bind_run (modify _) _ _ tt (put_cell p (CNum i) s) eq_refl).
  rewrite (bind_run _ _ _ _ _ (ctrl_get_run (put_cell p (CNum i) s) a x Hx Hu op g st p (CNum i) Hf Hp0 (lookup_insert_eq _ _ _))).
  rewrite (bind_run _ _ _ _ _ (read_cell_run p (CNum (g x)) _ Hp0 (lookup_insert_eq _ _ _))).
  rewrite (bind_run (num_of (CNum (g x))) _ _ (g x) _ eq_refl), (bind_run (modify _) _ _ _ _ eq_refl).
  unfold mret, M_ret, put_cell. cbn. rewrite insert_insert_eq, delete_insert_id by done. by destruct s.
Qed.

Lemma copy_out_run s attr a x op g st i p c f : attr <> 0 -> cells s !! attr = Some (CAttr (Some a)) -> attrs s !! a = Some x ->
  a_tid x = None -> field op = Some (g, st) -> p <> 0 -> cells s !! p = Some c ->
  copy_out attr op i p f s = Ok (OK, put_cell p (CNum (f (g x))) s).
Proof.
  intros Ha0 Hattr Hx Hu Hf H0 Hp. unfold copy_out. erewrite bind_run; [|by eapply get_local_run]. cbv beta iota.
  by rewrite (bind_run _ _ _ _ _ (write_cell_run _ _ _ _ H0 Hp)).
Qed.

(** ** Setting and getting through the POSIX functions *)

Inductive attr_prop : Set := Inherit | Policy | Scope | StackSize | StackAddr | Detach.

Section posix.
Context (PTHREAD_STACK_MIN : Z).

Definition setter (k : attr_prop) : Z -> Z -> M ast Z :=
  match k with
  | Inherit => pthread_attr_setinheritsched
  | Policy => pthread_attr_setschedpolicy
  | Scope => pthread_attr_setscope
  | StackSize => pthread_attr_setstacksize PTHREAD_STACK_MIN
  | StackAddr => pthread_attr_setstackaddr
  | Detach => pthread_attr_setdetachstate
  end.
Definition getter (k : attr_prop) : Z -> Z -> M ast Z :=
  match k with
  | Inherit => pthread_attr_getinheritsched
  | Policy => pthread_attr_getschedpolicy
  | Scope => pthread_attr_getscope
  | StackSize => pthread_attr_getstacksize
  | StackAddr => pthread_attr_getstackaddr
  | Detach => pthread_attr_getdetachstate
  end.

(** The values the setters accept. *)
Definition accepts (natives : Z) (k : attr_prop) (v : Z) : bool :=
  match k with
  | Inherit => bool_decide (v = PTHREAD_EXPLICIT_SCHED)
  | Policy => bool_decide (v ∈ [SCHED_OTHER; SCHED_FIFO; SCHED_RR])
  | Scope => bool_decide (v = PTHREAD_SCOPE_PROCESS) || (bool_decide (v = PTHREAD_SCOPE_SYSTEM) && negb (bool_decide (natives = 1)))
  | StackSize => bool_decide (PTHREAD_STACK_MIN <= v <= 2 ^ 28)
  | StackAddr => true
  | Detach => bool_decide (v ∈ [PTHREAD_CREATE_JOINABLE; PTHREAD_CREATE_DETACHED])
  end.

(** The attribute behind a property, and the number that stands for a value. *)
Definition prop_op (k : attr_prop) : attr_op :=
  match k with
  | Inherit => PTH_ATTR_INHERITSCHED | Policy => PTH_ATTR_SCHEDPOLICY | Scope => PTH_ATTR_SCOPE
  | StackSize => PTH_ATTR_STACK_SIZE | StackAddr => PTH_ATTR_STACK_ADDR | Detach => PTH_ATTR_JOINABLE
  end.
Definition encode (k : attr_prop) (v : Z) : Z := match k with Detach => 1 - v | _ => v end.
Definition decode (k : attr_prop) (v : Z) : Z :=
  match k with Detach => if bool_decide (v = 1) then PTHREAD_CREATE_JOINABLE else PTHREAD_CREATE_DETACHED | _ => v end.

Lemma prop_field k : exists g st, field (prop_op k) = Some (g, st) /\ forall v x, g (st v x) = v /\ a_tid (st v x) = a_tid x.
Proof. destruct k; eexists _, _; split; reflexivity || (intros v x; by destruct x). Qed.

Section on_object.
Context (s : ast) (attr : Z) (a : nat) (x : pth_attr_st).
Context (Ha0 : attr <> 0) (Hattr : cells s !! attr = Some (CAttr (Some a))) (Hx : attrs s !! a = Some x) (Hu : a_tid x = None).

Lemma setter_accepts k v g st : field (prop_op k) = Some (g, st) -> accepts (pth_max_native_threads (ss s)) k v = true ->
  setter k attr v s = Ok (OK, put_a a (st (encode k v) x) s).
Proof.
  intros Hf Hv. pose proof (fun v => set_or_einval_run s attr a x Ha0 Hattr Hx Hu _ g st v Hf) as Hrun.
  destruct k; cbn [accepts setter prop_op encode] in *.
  - apply bool_decide_eq_true in Hv as ->. unfold pthread_attr_setinheritsched. rewrite bool_decide_eq_false_2 by done. apply Hrun.
  - apply bool_decide_eq_true in Hv. unfold pthread_attr_setschedpolicy. rewrite bool_decide_eq_false_2 by done.
    rewrite !elem_of_cons, elem_of_nil in Hv. destruct Hv as [->|[->|[->|[]]]]; apply Hrun.
  - unfold pthread_attr_setscope. rewrite bool_decide_eq_false_2 by done.
    apply orb_true_iff in Hv as [->%bool_decide_eq_true|[->%bool_decide_eq_true Hn%negb_true_iff]%andb_true_iff].
    + rewrite (bool_decide_eq_false_2 (_ < _)), (bool_decide_eq_false_2 (_ > _)) by done. cbn [orb].
      rewrite (bind_run get _ _ _ _ eq_refl). apply Hrun.
    + rewrite (bool_decide_eq_false_2 (_ < _)), (bool_decide_eq_false_2 (_ > _)) by done. cbn [orb].
      rewrite (bind_run get _ _ _ _ eq_refl), Hn, andb_false_r. apply Hrun.
  - apply bool_decide_eq_true in Hv. unfold pthread_attr_setstacksize. rewrite !bool_decide_eq_false_2 by lia. apply Hrun.
  - unfold pthread_attr_setstackaddr. rewrite bool_decide_eq_false_2 by done. apply Hrun.
  - apply bool_decide_eq_true in Hv. unfold pthread_attr_setdetachstate. rewrite bool_decide_eq_false_2 by done.
    rewrite !elem_of_cons, elem_of_nil in Hv. destruct Hv as [->|[->|[]]]; apply Hrun.
Qed.

Ltac rejected := eexists; split; [reflexivity|first [by left|by right]].

Lemma setter_rejects k v : accepts (pth_max_native_threads (ss s)) k v = false ->
  exists e, setter k attr v s = Ok (e, s) /\ (e = EINVAL \/ e = ENOSYS).
Proof.
  intros Hv. destruct k; cbn [accepts setter] in *.
  - apply bool_decide_eq_false in Hv. unfold pthread_attr_setinheritsched. rewrite !(bool_decide_eq_false_2 _) by done. rejected.
  - apply bool_decide_eq_false in Hv. unfold pthread_attr_setschedpolicy. rewrite bool_decide_eq_false_2 by done.
    rewrite !bool_decide_eq_false_2 by (intros ->; apply Hv; set_solver). rejected.
  - unfold pthread_attr_setscope. rewrite bool_decide_eq_false_2 by done. apply orb_false_iff in Hv as [H1%bool_decide_eq_false H2].
    destruct (bool_decide (v < _) || _) eqn:Er; [rejected|]. rewrite (bind_run get _ _ _ _ eq_refl).
    apply orb_false_iff in Er as [H3%bool_decide_eq_false H4%bool_decide_eq_false].
    unfold PTHREAD_SCOPE_SYSTEM, PTHREAD_SCOPE_PROCESS in *. assert (v = 0) as -> by lia.
    cbn in H2. apply negb_false_iff in H2. rewrite H2. rejected.
  - apply bool_decide_eq_false in Hv. unfold pthread_attr_setstacksize. rewrite (bool_decide_eq_false_2 (attr = 0)) by done.
    change 268435456 with (2 ^ 28). repeat case_bool_decide; cbn [orb]; [rejected..|lia].
  - done.
  - apply bool_decide_eq_false in Hv. unfold pthread_attr_setdetachstate.
    rewrite !bool_decide_eq_false_2 by (done || (intros ->; apply Hv; set_solver)). rejected.
Qed.

Lemma getter_run k g st p c : field (prop_op k) = Some (g, st) -> p <> 0 -> cells s !! p = Some c ->
  getter k attr p s = Ok (OK, put_cell p (CNum (decode k (g x))) s).
Proof.
  intros Hf H0 Hp. pose proof (get_or_einval_run s attr a x Ha0 Hattr Hx Hu _ _ _ _ _ Hf H0 Hp) as Hg.
  pose proof (fun i f => copy_out_run s attr a x _ _ _ i _ _ f Ha0 Hattr Hx Hu Hf H0 Hp) as Hc.
  destruct k; cbn [getter prop_op decode] in *;
    (unfold pthread_attr_getinheritsched, pthread_attr_getschedpolicy, pthread_attr_getscope, pthread_attr_getstacksize,
       pthread_attr_getstackaddr, pthread_attr_getdetachstate;
     rewrite !bool_decide_eq_false_2 by done; cbn [orb]; apply Hg || apply Hc).
Qed.
End on_object.

Section roundtrip.
Context (s : ast) (attr : Z) (a : nat) (x : pth_attr_st).
Context (Ha0 : attr <> 0) (Hattr : cells s !! attr = Some (CAttr (Some a))) (Hx : attrs s !! a = Some x) (Hu : a_tid x = None).

(** C16: for the scheduling policy and its inheritance, the scope, the size and
    address of the stack and the detach state: a value that the set function
    accepts is what the get function stores afterwards; a value it does not
    accept is refused with an error and changes nothing.  The values accepted:
    explicit scheduling only, the three policies, the scope of the process or,
    with more than one native, of the system, at least the smallest and at most
    2^28 bytes of stack, both detach states. *)
Theorem attr_posix_roundtrip k v p c : p <> 0 -> p <> attr -> cells s !! p = Some c ->
  if accepts (pth_max_native_threads (ss s)) k v then
    exists x', (r ← setter k attr v; r' ← getter k attr p; mret (r, r')) s = Ok (OK, OK, put_cell p (CNum v) (put_a a x' s))
  else exists e, setter k attr v s = Ok (e, s) /\ (e = EINVAL \/ e = ENOSYS).
Proof.
  intros H0 Hne Hp. destruct (accepts _ k v) eqn:Hv; [|by eapply setter_rejects].
  destruct (prop_field k) as (g & st & Hf & Hgs). exists (st (encode k v) x).
  rewrite (bind_run _ _ _ _ _ (setter_accepts s attr a x Ha0 Hattr Hx Hu k v g st Hf Hv)).
  erewrite bind_run; [|eapply (getter_run (put_a a (st (encode k v) x) s) attr a (st (encode k v) x)); try done].
  - unfold mret, M_ret. rewrite (proj1 (Hgs _ _)). do 4 f_equal. destruct k; try done. cbn in *. unfold decode, encode.
    apply bool_decide_eq_true in Hv. rewrite !elem_of_cons, elem_of_nil in Hv. by destruct Hv as [->|[->|[]]].
  - apply lookup_insert_eq.
  - rewrite (proj2 (Hgs _ _)). done.
Qed.
End roundtrip.
End posix.

Lemma attr_posix_roundtrip_witness :
  exists s x', (r ← setter 16384 StackSize 4 65536; r' ← getter StackSize 4 8; mret (r, r')) s =
    Ok (OK, OK, put_cell 8 (CNum 65536) (put_a 1 x' s)).
Proof.
  set (x := Attr None 20 0 0 [] 1 9 65536 0 0 1).
  set (s0 := SSt (World ∅ [] None ∅ ∅ ∅ ∅ ∅ ∅ (QMem ∅ ∅ ∅) 0 [] qlock_free []) (EMem ∅ ∅ ∅ [] ∅ false [] [])
    (MState ∅ ∅ ∅ pth_ring_init None []) ∅ ∅ ∅ 0 0 0 0 0 0 None 1).
  exists (ASt s0 ∅ {[1%nat := x]} {[4 := CAttr (Some 1%nat); 8 := CNum 0]} ∅ []).
  exact (attr_posix_roundtrip 16384 (ASt s0 ∅ {[1%nat := x]} {[4 := CAttr (Some 1%nat); 8 := CNum 0]} ∅ []) 4 1 x
    ltac:(done) eq_refl eq_refl eq_refl StackSize 65536 8 (CNum 0) ltac:(done) ltac:(done) eq_refl).
Defined.

Lemma attr_setprio_np_crashes s attr a x xprio : attr <> 0 -> cells s !! attr = Some (CAttr (Some a)) -> attrs s !! a = Some x ->
  (forall t, a_tid x = Some t -> is_Some (threads (wo (ss s)) !! t)) -> pthread_attr_setprio_np attr xprio s = Err BadDeref.
Proof.
  intros Ha0 Hattr Hx Ht. unfold pthread_attr_setprio_np. rewrite bool_decide_eq_false_2 by done.
  rewrite (bind_run _ _ _ _ _ (attr_var_run s attr a Ha0 Hattr)). apply bind_err.
  unfold pth_attr_get, pth_attr_ctrl. rewrite (bind_run _ _ _ _ _ (get_a_run _ _ _ Hx)).
  destruct (a_tid x) as [t|]; cbn [num_member]; [|by rewrite (bind_run (mret _) _ _ _ _ eq_refl)].
  destruct (Ht t eq_refl) as [y Hy].
  rewrite (bind_run _ _ s (schedpolicy y) s); [done|]. rewrite (bind_run _ _ s y s); [done|].
  unfold ona, onw, zoom, get_t. rewrite (bind_run get _ _ _ _ eq_refl), Hy. by destruct s as [[]].
Qed.

(** [pthread_attr_setprio_np] and [pthread_attr_setschedparam] crash for
    every attribute object and every priority: they pass the value of the
    variable [schedpolicy], 0, where [pth_attr_get] expects its address, and
    the NULL pointer is written through. *)
Theorem attr_setprio_crashes s attr a x xprio p :
  attr <> 0 -> cells s !! attr = Some (CAttr (Some a)) -> attrs s !! a = Some x ->
  (forall t, a_tid x = Some t -> is_Some (threads (wo (ss s)) !! t)) ->
  p <> 0 -> cells s !! p = Some (CNum xprio) ->
  pthread_attr_setprio_np attr xprio s = Err BadDeref /\ pthread_attr_setschedparam attr p s = Err BadDeref.
Proof.
  intros Ha0 Hattr Hx Ht H0 Hp. pose proof (attr_setprio_np_crashes s attr a x xprio Ha0 Hattr Hx Ht) as H.
  split; [exact H|]. unfold pthread_attr_setschedparam. by rewrite (bind_run _ _ _ _ _ (read_cell_run _ _ _ H0 Hp)).
Qed.

(** ** Attribute objects stay well typed *)

Section typed.
Context (pth_default_stacksize PTHREAD_STACK_MIN : Z).
(** What the two members that [pth_attr_init] leaves out held before, and the
    stack addresses the program sets *)
Context (inherit0 suspend0 : Z) (addrs : list Z).

(** What [pth_attr_init] and the set functions guarantee, of every member. *)
Record typed (x : pth_attr_st) : Prop := {
  ty_tid : a_tid x = None;
  ty_policy : policy (a_schedpolicy x);
  ty_prio : a_prio x = 20;
  ty_scope : a_scope x = PTH_SCOPE_SYSTEM \/ a_scope x = PTH_SCOPE_PROCESS;
  ty_joinable : a_joinable x = 0 \/ a_joinable x = 1;
  ty_stack : PTHREAD_STACK_MIN <= a_stacksize x <= 2 ^ 28;
  ty_inherit : a_inheritsched x = inherit0 \/ a_inheritsched x = PTHREAD_EXPLICIT_SCHED;
  ty_suspend : a_suspendstate x = suspend0 \/ a_suspendstate x = 1;
  ty_stackaddr : a_stackaddr x = 0 \/ a_stackaddr x ∈ addrs;
  ty_cancel : a_cancelstate x = PTH_CANCEL_DEFAULT;
  ty_name : length (a_name x) = PTH_TCB_NAMELEN /\ 0 ∈ a_name x }.

(** Every function on attribute objects but [pthread_attr_init], [pthread_attr_destroy]
    and the two that crash; [pthread_attr_getschedparam] is CGetPrio. *)
Inductive attr_call : Set :=
  | CSet (k : attr_prop) (v : Z) | CGet (k : attr_prop) (p : Z) | CSetName (p : Z) | CGetName (p : Z)
  | CSetSuspend (v : Z) | CGetSuspend (p : Z) | CGetPrio (p : Z) | CSetGuard (v : Z) | CSetWeight (v : Z).

Definition attr_exec (attr : Z) (c : attr_call) : M ast Z :=
  match c with
  | CSet k v => setter PTHREAD_STACK_MIN k attr v
  | CGet k p => getter k attr p
  | CSetName p => pthread_attr_setname_np attr p
  | CGetName p => pthread_attr_getname_np attr p
  | CSetSuspend v => pthread_attr_setsuspendstate_np attr v
  | CGetSuspend p => pthread_attr_getsuspendstate_np attr p
  | CGetPrio p => pthread_attr_getprio_np attr p
  | CSetGuard v => pthread_attr_setguardsize attr v
  | CSetWeight v => pthread_attr_setweight_np attr v
  end.

Fixpoint attr_run (attr : Z) (cs : list attr_call) : M ast (list Z) :=
  match cs with
  | [] => mret []
  | c :: cs => r ← attr_exec attr c; rs ← attr_run attr cs; mret (r :: rs)
  end.

(** The pointers of a call are valid; names are terminated. *)
Definition call_ok (attr : Z) (s : ast) (c : attr_call) : Prop :=
  match c with
  | CSet StackAddr v => v ∈ addrs
  | CGet _ p | CGetName p | CGetSuspend p | CGetPrio p => p <> 0 /\ p <> attr /\ p ∈ dom (cells s)
  | CSetName p => exists text junk, strs s !! p = Some (text ++ 0 :: junk) /\ Forall (fun c => c <> 0) text
  | _ => True
  end.

(** [attr] holds the attribute object [a], which is well typed. *)
Definition attr_ok (attr : Z) (a : nat) (s : ast) : Prop :=
  attr <> 0 /\ cells s !! attr = Some (CAttr (Some a)) /\ exists x, attrs s !! a = Some x /\ typed x.

(** What a call leaves alone. *)
Definition call_frame (attr : Z) (a : nat) (s s' : ast) : Prop :=
  ss s' = ss s /\ ta s' = ta s /\ strs s' = strs s /\ dom (cells s') = dom (cells s) /\
  forall b, b <> a -> attrs s' !! b = attrs s !! b.

Lemma call_frame_refl attr a s : call_frame attr a s s.
Proof. by repeat split. Qed.
Lemma call_frame_trans attr a s1 s2 s3 : call_frame attr a s1 s2 -> call_frame attr a s2 s3 -> call_frame attr a s1 s3.
Proof.
  intros (A1 & B1 & C1 & D1 & E1) (A2 & B2 & C2 & D2 & E2). repeat split; try congruence.
  intros b Hb. by rewrite E2, E1.
Qed.
Lemma call_ok_frame attr a s s' c : call_frame attr a s s' -> call_ok attr s c -> call_ok attr s' c.
Proof. intros (_ & _ & Hs & Hd & _). destruct c; cbn; try done; by rewrite ?Hd, ?Hs. Qed.

(** The two ways a call changes the state. *)
Lemma put_cell_ok attr a s p c : p <> attr -> p ∈ dom (cells s) -> attr_ok attr a s ->
  attr_ok attr a (put_cell p c s) /\ call_frame attr a s (put_cell p c s).
Proof.
  intros Hne Hp (H0 & Hc & Hx). split; [split_and!; [done|cbn; by rewrite lookup_insert_ne|done]|].
  repeat split; try done. cbn. rewrite dom_insert_L. set_solver.
Qed.
Lemma put_a_ok attr a s x : typed x -> attr_ok attr a s -> attr_ok attr a (put_a a x s) /\ call_frame attr a s (put_a a x s).
Proof.
  intros Hx (H0 & Hc & _). split; [split_and!; [done|done|]; exists x; split; [apply lookup_insert_eq|done]|].
  repeat split; try done. intros b Hb. cbn. by rewrite lookup_insert_ne.
Qed.

Definition code_ok (r : Z) : Prop := r = OK \/ r = EINVAL \/ r = ENOSYS.

(** A call returns, with one of the three codes, and keeps the object typed. *)
Definition returns (attr : Z) (a : nat) (s : ast) (m : M ast Z) : Prop :=
  exists r s', m s = Ok (r, s') /\ code_ok r /\ attr_ok attr a s' /\ call_frame attr a s s'.

Lemma returns_same attr a s m r : m s = Ok (r, s) -> code_ok r -> attr_ok attr a s -> returns attr a s m.
Proof. intros H Hr Ha. exists r, s. split_and!; done. Qed.

Lemma returns_cell attr a s m p c : m s = Ok (OK, put_cell p c s) -> p <> attr -> p ∈ dom (cells s) -> attr_ok attr a s -> returns attr a s m.
Proof. intros H H1 H2 H3. destruct (put_cell_ok attr a s p c H1 H2 H3). exists OK, (put_cell p c s). split_and!; try done. by left. Qed.

Lemma returns_attr attr a s m x : m s = Ok (OK, put_a a x s) -> typed x -> attr_ok attr a s -> returns attr a s m.
Proof. intros H H1 H2. destruct (put_a_ok attr a s x H1 H2). exists OK, (put_a a x s). split_and!; try done. by left. Qed.

Lemma setter_typed a s x k v g st : attrs s !! a = Some x -> typed x -> field (prop_op k) = Some (g, st) -> (k = StackAddr -> v ∈ addrs) ->
  accepts PTHREAD_STACK_MIN (pth_max_native_threads (ss s)) k v = true -> typed (st (encode k v) x).
Proof.
  intros Hx Hty Hf Hin Hv. destruct Hty as [H1 H2 H3 H4 H5 H6 H7 H8 H9 H10 H11].
  destruct k; cbn in Hf; injection Hf as <- <-; cbn [accepts encode] in *; split; try done; cbn.
  - right. by apply bool_decide_eq_true in Hv.
  - apply bool_decide_eq_true in Hv. rewrite !elem_of_cons, elem_of_nil in Hv. unfold policy. naive_solver.
  - apply orb_true_iff in Hv as [->%bool_decide_eq_true|[->%bool_decide_eq_true _]%andb_true_iff]; [by right|by left].
  - by apply bool_decide_eq_true in Hv.
  - right. by apply Hin.
  - apply bool_decide_eq_true in Hv. rewrite !elem_of_cons, elem_of_nil in Hv. destruct Hv as [->|[->|[]]]; [by right|by left].
Qed.

Lemma name_typed x text : typed x -> typed (set_a_name (take 15 text ++ 0 :: drop (S (length (take 15 text))) (a_name x)) x).
Proof.
  intros Hty. pose proof (ty_name _ Hty) as [Hl _]. destruct Hty. split; try done. cbn. unfold PTH_TCB_NAMELEN in *. split; [|set_solver].
  rewrite length_app. cbn. rewrite length_drop, length_take. lia.
Qed.

Lemma attr_exec_returns attr a s c : attr_ok attr a s -> call_ok attr s c -> returns attr a s (attr_exec attr c).
Proof.
  intros Hok Hc. pose proof Hok as (H0 & Hattr & x & Hx & Hty). pose proof (ty_tid _ Hty) as Hu.
  destruct c as [k v|k p|p|p|v|p|p|v|v]; cbn [attr_exec call_ok] in *.
  - destruct (prop_field k) as (g & st & Hf & _).
    destruct (accepts PTHREAD_STACK_MIN (pth_max_native_threads (ss s)) k v) eqn:Hv.
    + eapply returns_attr; [by eapply setter_accepts| |done]. eapply setter_typed; [done..| |done]. intros ->. exact Hc.
    + edestruct (setter_rejects PTHREAD_STACK_MIN s attr a x) as (e & E & He); [done..|exact Hv|].
      eapply returns_same; [exact E|by right|done].
  - destruct Hc as (Hp0 & Hp & [c Hc]%elem_of_dom). destruct (prop_field k) as (g & st & Hf & _).
    eapply returns_cell; [by eapply getter_run|done|by eapply elem_of_dom_2|done].
  - destruct Hc as (text & junk & Hs & Htext). unfold pthread_attr_setname_np. rewrite bool_decide_eq_false_2 by done. cbn [orb].
    case_bool_decide as Hp; [eapply returns_same; [reflexivity|by right; left|done]|].
    eapply (returns_attr _ _ _ _ (set_a_name (take 15 text ++ 0 :: drop (S (length (take 15 text))) (a_name x)) x)); [|by apply name_typed|done].
    unfold set_or_einval. rewrite (bind_run _ _ _ _ _ (attr_var_run s attr a H0 Hattr)). unfold pth_attr_set, pth_attr_ctrl.
    refine (bind_run _ _ s true _ _). rewrite (bind_run _ _ _ _ _ (get_a_run _ _ _ Hx)), Hu. unfold set_name_of.
    erewrite bind_run; [|unfold read_str; rewrite (bind_run get _ _ _ _ eq_refl), bool_decide_eq_false_2, Hs by done; reflexivity].
    rewrite (cpystrn_spec (a_name x)) by (done || (rewrite (proj1 (ty_name _ Hty)); unfold PTH_TCB_NAMELEN; lia)).
    erewrite bind_run; [|reflexivity]. cbn. by rewrite (bind_run _ _ _ _ _ (upd_a_run _ _ _ _ Hx)).
  - destruct Hc as (Hp0 & Hp & [c Hc]%elem_of_dom). unfold pthread_attr_getname_np. rewrite !bool_decide_eq_false_2 by done. cbn [orb].
    eapply (returns_cell _ _ _ _ p (CAttrName a)); [|done|by eapply elem_of_dom_2|done].
    unfold get_or_einval. rewrite (bind_run _ _ _ _ _ (attr_var_run s attr a H0 Hattr)). unfold pth_attr_get, pth_attr_ctrl.
    refine (bind_run _ _ s true _ _). rewrite (bind_run _ _ _ _ _ (get_a_run _ _ _ Hx)), Hu.
    by rewrite (bind_run _ _ _ _ _ (write_cell_run _ _ _ _ Hp0 Hc)).
  - unfold pthread_attr_setsuspendstate_np. rewrite bool_decide_eq_false_2 by done.
    eapply returns_attr; [by eapply (set_or_einval_run s attr a x)| |done]. destruct Hty. split; try done. by right.
  - destruct Hc as (Hp0 & Hp & [c Hc]%elem_of_dom). unfold pthread_attr_getsuspendstate_np. rewrite bool_decide_eq_false_2 by done.
    assert (get_local attr PTH_ATTR_CREATE_SUSPENDED 0 s = Ok (Some (a_suspendstate x), s)) as E by (by eapply get_local_run).
    case (decide (a_suspendstate x = 1)) as [Es|Es].
    + eapply (returns_cell _ _ _ _ p (CNum PTHREAD_CREATE_SUSPENDED)); [|done|by eapply elem_of_dom_2|done].
      rewrite (bind_run _ _ _ _ _ E). cbv beta iota. rewrite bool_decide_eq_true_2 by done.
      by rewrite (bind_run _ _ _ _ _ (write_cell_run _ _ _ _ Hp0 Hc)).
    + eapply (returns_same _ _ _ _ OK); [|by left|done].
      rewrite (bind_run _ _ _ _ _ E). cbv beta iota. by rewrite bool_decide_eq_false_2 by done.
  - destruct Hc as (Hp0 & Hp & [c Hc]%elem_of_dom). unfold pthread_attr_getprio_np. rewrite !bool_decide_eq_false_2 by done. cbn [orb].
    eapply returns_cell; [by eapply (copy_out_run s attr a x)|done|by eapply elem_of_dom_2|done].
  - by eapply (returns_same _ _ _ _ ENOSYS); [|right; right|].
  - by eapply (returns_same _ _ _ _ 0); [|left|].
Qed.

Lemma attr_run_returns attr a cs : forall s, attr_ok attr a s -> Forall (call_ok attr s) cs ->
  exists rs s', attr_run attr cs s = Ok (rs, s') /\ Forall code_ok rs /\ attr_ok attr a s' /\ call_frame attr a s s'.
Proof.
  induction cs as [|c cs IH]; intros s Hok Hcs; [exists [], s; split_and!; done|]. apply Forall_cons in Hcs as [Hc Hcs].
  destruct (attr_exec_returns attr a s c Hok Hc) as (r & s1 & E & Hr & Hok1 & Hf1).
  destruct (IH s1 Hok1) as (rs & s2 & E2 & Hrs & Hok2 & Hf2).
  { eapply Forall_impl; [exact Hcs|]. intros c' Hc'. by eapply call_ok_frame. }
  exists (r :: rs), s2. cbn. rewrite (bind_run _ _ _ _ _ E), (bind_run _ _ _ _ _ E2). split_and!; try done; [by constructor|].
  by eapply call_frame_trans.
Qed.

(** The object after [pth_attr_init]; two members are those of the junk. *)
Definition initial (junk : pth_attr_st) : pth_attr_st :=
  Attr None 20 SCHED_OTHER (a_inheritsched junk) (unknown_name ++ drop 8 (a_name junk)) 1 PTH_CANCEL_DEFAULT
    (wrap 32 (pth_default_stacksize * 1024)) (a_suspendstate junk) 0 PTH_SCOPE_PROCESS.

Lemma put_a_put a x y s : put_a a y (put_a a x s) = put_a a y s.
Proof. unfold put_a. cbn. by rewrite insert_insert_eq. Qed.

Lemma pth_attr_new_run s a junk l : attr_mallocs s = Some (a, junk) :: l -> length (a_name junk) = PTH_TCB_NAMELEN ->
  pth_attr_new pth_default_stacksize s = Ok (Some a, set_attr_mallocs l (put_a a (initial junk) s)).
Proof.
  intros Hm Hl. unfold pth_attr_new. set (s1 := set_attr_mallocs l (put_a a junk s)).
  assert (malloc_attr s = Ok (Some a, s1)) as Em by (unfold malloc_attr; by rewrite (bind_run get _ _ _ _ eq_refl), Hm).
  rewrite (bind_run _ _ _ _ _ Em). cbv beta iota.
  assert (forall x (s : ast), attrs (put_a a x s) !! a = Some x) as Hat by (intros; apply lookup_insert_eq).
  assert (attrs s1 !! a = Some junk) as H1 by apply Hat.
  rewrite (bind_run _ _ _ _ _ (upd_a_run _ _ _ _ H1)). unfold pth_attr_init.
  refine (bind_run _ _ _ true _ _). rewrite (bind_run _ _ _ _ _ (get_a_run _ _ _ (Hat _ _))). cbn [a_tid set_a_tid].
  do 2 (rewrite (bind_run _ _ _ _ _ (upd_a_run _ _ _ _ (Hat _ _))), put_a_put).
  rewrite (bind_run _ _ _ _ _ (get_a_run _ _ _ (Hat _ _))). cbn [a_name set_a_schedpolicy set_a_prio set_a_tid].
  rewrite (cpystrn_spec (a_name junk) [117; 110; 107; 110; 111; 119; 110] []) by
    (repeat constructor; (done || (rewrite Hl; unfold PTH_TCB_NAMELEN; lia))).
  erewrite bind_run; [|reflexivity]. cbv beta iota.
  do 6 (rewrite (bind_run _ _ _ _ _ (upd_a_run _ _ _ _ (Hat _ _))), put_a_put).
  transitivity (Ok (true, set_attr_mallocs l (put_a a (initial junk) (put_a a junk s)))); [reflexivity|by rewrite put_a_put].
Qed.

Lemma initial_typed junk : length (a_name junk) = PTH_TCB_NAMELEN ->
  PTHREAD_STACK_MIN <= pth_default_stacksize * 1024 <= 2 ^ 28 -> 0 <= PTHREAD_STACK_MIN ->
  a_inheritsched junk = inherit0 -> a_suspendstate junk = suspend0 -> typed (initial junk).
Proof.
  intros Hl Hs H0 Hi Hu. split; cbn; try done; [by left|by right|by right|by rewrite wrap_small by lia|by left|by left|by left|].
  rewrite length_drop, Hl. split; [done|]. apply elem_of_cons. right. set_solver.
Qed.

Lemma attr_destroy_run attr a s : attr_ok attr a s ->
  pthread_attr_destroy attr s = Ok (OK, put_cell attr (CAttr None) (set_attrs (delete a (attrs s)) s)).
Proof.
  intros (H0 & Hc & x & Hx & _). unfold pthread_attr_destroy. rewrite bool_decide_eq_false_2 by done.
  rewrite (bind_run _ _ _ _ _ (attr_var_run s attr a H0 Hc)). unfold pth_attr_destroy.
  rewrite (bind_run _ _ s true (set_attrs (delete a (attrs s)) s)) by by rewrite (bind_run _ _ _ _ _ (get_a_run _ _ _ Hx)).
  by rewrite (bind_run _ _ _ _ _ (write_cell_run attr (CAttr (Some a)) _ (set_attrs (delete a (attrs s)) s) H0 Hc)).
Qed.
End typed.

(** C15: an attribute object has a type that [pthread_attr_init] establishes,
    whatever the allocator left in its memory, and that every sequence of calls of
    the set and get functions keeps, whatever values they are called with and
    with valid pointers: every call returns, with 0, EINVAL or ENOSYS; the policy is
    one of the three with the default priority, which is valid for it; scope,
    detach state and stack size are in their ranges, the cancellation state is
    the default, and the name is terminated; the stack address is NULL or one that
    was set; the inheritance and the suspended state are set ones or what the
    memory held before, since [pthread_attr_init] leaves these two out.  No other
    object, thread or string is touched.  The calls left out of the sequence are
    [pthread_attr_setprio_np] and [pthread_attr_setschedparam], which write through
    NULL on every such object, and [pthread_attr_destroy], which frees it. *)
Theorem attr_calls_typed pth_default_stacksize PTHREAD_STACK_MIN addrs attr s a junk l cs c :
  PTHREAD_STACK_MIN <= pth_default_stacksize * 1024 <= 2 ^ 28 -> 0 <= PTHREAD_STACK_MIN ->
  attr <> 0 -> cells s !! attr = Some c ->
  attr_mallocs s = Some (a, junk) :: l -> length (a_name junk) = PTH_TCB_NAMELEN -> Forall (call_ok addrs attr s) cs ->
  exists rs s' x, (r ← __pthread_attr_init_2_1 pth_default_stacksize attr; rs ← attr_run PTHREAD_STACK_MIN attr cs; mret (r :: rs)) s = Ok (OK :: rs, s') /\
    Forall code_ok rs /\ attrs s' !! a = Some x /\
    typed PTHREAD_STACK_MIN (a_inheritsched junk) (a_suspendstate junk) addrs x /\ (prio_validate (a_schedpolicy x) (a_prio x) 0).1 = 0 /\
    (ss s' = ss s /\ ta s' = ta s /\ strs s' = strs s /\ forall b, b <> a -> attrs s' !! b = attrs s !! b) /\
    (forall xprio, pthread_attr_setprio_np attr xprio s' = Err BadDeref) /\
    (forall p v, p <> 0 -> cells s' !! p = Some (CNum v) -> pthread_attr_setschedparam attr p s' = Err BadDeref) /\
    pthread_attr_destroy attr s' = Ok (OK, put_cell attr (CAttr None) (set_attrs (delete a (attrs s')) s')).
Proof.
  intros Hst Hmin H0 Hc Hm Hl Hcs. set (s1 := put_cell attr (CAttr (Some a)) (set_attr_mallocs l (put_a a (initial pth_default_stacksize junk) s))).
  assert (__pthread_attr_init_2_1 pth_default_stacksize attr s = Ok (OK, s1)) as Ei.
  { unfold __pthread_attr_init_2_1. rewrite bool_decide_eq_false_2 by done.
    rewrite (bind_run _ _ _ _ _ (pth_attr_new_run _ _ _ _ _ Hm Hl)). cbv beta iota.
    by rewrite (bind_run _ _ _ _ _ (write_cell_run attr c _ (set_attr_mallocs l (put_a a (initial pth_default_stacksize junk) s)) H0 Hc)). }
  assert (attr_ok PTHREAD_STACK_MIN (a_inheritsched junk) (a_suspendstate junk) addrs attr a s1) as Hok.
  { split_and!; [done|apply lookup_insert_eq|]. eexists. split; [apply lookup_insert_eq|by apply initial_typed]. }
  destruct (attr_run_returns _ _ _ _ attr a cs s1 Hok) as (rs & s' & E & Hrs & Hok' & (F1 & F2 & F3 & _ & F5)).
  { eapply Forall_impl; [exact Hcs|]. intros [] Hp; cbn in *; try done; rewrite dom_insert_L; set_solver. }
  pose proof Hok' as (_ & Hcell & x & Hx & Hty). pose proof (ty_tid _ _ _ _ _ Hty) as Hu.
  assert (forall xprio, pthread_attr_setprio_np attr xprio s' = Err BadDeref) as Hcrash.
  { intros xprio. eapply attr_setprio_np_crashes; [done|done|done|]. by rewrite Hu. }
  exists rs, s', x. rewrite (bind_run _ _ _ _ _ Ei), (bind_run _ _ _ _ _ E). split_and!; try done.
  - rewrite (ty_prio _ _ _ _ _ Hty). by destruct (ty_policy _ _ _ _ _ Hty) as [->|[->| ->]].
  - intros b Hb. rewrite F5 by done. apply lookup_insert_ne. congruence.
  - intros p v Hp0 Hp. unfold pthread_attr_setschedparam. rewrite (bind_run _ _ _ _ _ (read_cell_run _ _ _ Hp0 Hp)). exact (Hcrash v).
  - by eapply attr_destroy_run.
Qed.


(** An example: an object with an arbitrary name. *)
Definition attr_junk : pth_attr_st := Attr (Some 3%nat) 7 7 7 (replicate 16 65) 7 7 7 7 7 7.
Definition attr_demo : ast :=
  ASt (SSt (World ∅ [] None ∅ ∅ ∅ ∅ ∅ ∅ (QMem ∅ ∅ ∅) 0 [] qlock_free []) (EMem ∅ ∅ ∅ [] ∅ false [] [])
    (MState ∅ ∅ ∅ pth_ring_init None []) ∅ ∅ ∅ 0 0 0 0 0 0 None 1)
    ∅ ∅ {[4 := CNum 0; 8 := CNum 5]} {[100 := [97; 0]]} [Some (1%nat, attr_junk)].

Lemma attr_calls_typed_witness :
  exists rs s' x, (r ← __pthread_attr_init_2_1 64 4;
    rs ← attr_run 16384 4 [CSet Policy 1; CSet StackSize 5; CSetName 100; CGet Detach 8]; mret (r :: rs)) attr_demo =
      Ok (OK :: rs, s') /\ attrs s' !! 1%nat = Some x /\ typed 16384 7 7 [] x.
Proof.
  destruct (attr_calls_typed 64 16384 [] 4 attr_demo 1 attr_junk [] [CSet Policy 1; CSet StackSize 5; CSetName 100; CGet Detach 8] (CNum 0))
    as (rs & s' & x & E & _ & Hx & Hty & _ & _ & _ & _ & _).
  - lia.
  - lia.
  - done.
  - reflexivity.
  - reflexivity.
  - reflexivity.
  - rewrite !Forall_cons, Forall_nil. cbn [call_ok]. split_and!; try done.
    exists [97], []. split; [reflexivity|by repeat constructor].
  - exists rs, s', x. by split.
Defined.

Lemma attr_setprio_crashes_witness :
  exists s, pthread_attr_setprio_np 4 20 s = Err BadDeref /\ pthread_attr_setschedparam 4 8 s = Err BadDeref.
Proof.
  exists (set_cells {[4 := CAttr (Some 1%nat); 8 := CNum 20]} (set_attrs {[1%nat := set_a_tid None attr_junk]} attr_demo)).
  by eapply (attr_setprio_crashes _ 4 1 (set_a_tid None attr_junk) 20 8); [|reflexivity|reflexivity| | |reflexivity].
Defined.
