(* ===== verification/Lib.v ===== *)
(** * The thread library (pth_lib.c, pth_cancel.c, pth_wait of pth_event.c)

    What a running thread calls to give up its native, to wait, to end, to join,
    cancel, suspend and resume other threads, and to create them.

    A call that switches to the scheduler comes back when the scheduler switches
    to the thread again; what happens in between is the parameter [switch], and
    the thread may continue on another native ([self]).  [popall] runs the
    cleanup handlers of a thread.  A call that does not return, since the thread
    is gone, has the result [None]. *)

From S2P Require Import Prelude Bitmap Dll LinkedList Ring Priorities Msg PQueue Futex World Sync Event Time Util Sched Attr.

Definition EINPROGRESS : Z := 115.
Definition PTH_CANCELED : Z := 2 ^ 32 - 1.
Definition SIGSTOP : Z := 19.

(** How a thread ends: the process exits, or the scheduler takes over. *)
Inductive gone : Set := Process_exit | Thread_exit.

Section library.
Context (switch : M sst unit) (popall : nat -> M sst unit) (destroy : last_call -> nat -> M sst unit).
(** Iteration budgets: of [pth_mutex_releaseall], for the events of a ring, for
    the natives. *)
Context (mfuel efuel nfuel : nat).
(** The static event key of [pth_join] and of [pth_nap]; the number of signals;
    the clock. *)
Context (join_key nap_key : nat) (PTH_NSIG : Z) (time_now : sst -> Z).

Definition lock_sched (n : nat) (tid : Z) : M sst unit :=
  d ← onw (get_d n); k ← of_res (_pth_acquire_lock tid (sched_lock d)); onw (upd_d n (set_sched_lock k)).
Definition unlock_sched (n : nat) (tid : Z) : M sst unit :=
  onw (upd_d n (fun d => set_sched_lock (_pth_release_lock tid (sched_lock d)).2 d)).

(** ** Giving up the native *)

Definition pth_yield (to : option nat) : M sst bool :=
  '(n, d) ← onw my_descr;
  if bool_decide (to = current d) then mret true
  else
    match to with
    | None => lock_sched n (tid d);; switch;; mret true
    | Some u =>
        x ← onw (get_t u);
        bound ← (match boundnative x with
                 | Some ds => b ← onw (get_d ds); mret (if is_bounded b then Some ds else None)
                 | None => mret None
                 end);
        match bound with
        | Some ds =>
            lock_sched ds (tid d);;
            onq (pqueue_favor u);;
            onw (pipe_write ds);;
            unlock_sched ds (tid d);;
            mret true
        | None => onq (pqueue_favor u);; lock_sched n (tid d);; switch;; mret true
        end
    end.

(** ** The end of a thread *)

Definition pth_thread_cleanup (t : nat) : M sst unit :=
  popall t;; onw (pth_mutex_releaseall mfuel (Some t)).

Definition pth_exit (value : Z) (wait_flag : bool) : M sst gone :=
  '(n, d) ← onw my_descr;
  t ← of_option BadDeref (current d);
  s ← get;
  a ← pth_active_threads;
  if (bool_decide (pth_main s = Some t) && negb wait_flag) || negb (bool_decide (a > 1)) then
    pth_thread_cleanup t;; mret Process_exit
  else
    x ← onw (get_t t);
    (if bool_decide (state x = PTH_STATE_DEAD) then mret tt
     else
       pth_thread_cleanup t;;
       onw (upd_t t (set_join_arg value));;
       onw (upd_t t (set_state PTH_STATE_EXIT)));;
    '(n, d) ← onw my_descr;
    lock_sched n (tid d);;
    mret Thread_exit.

(** ** Cancellation *)

(** The result: whether the thread is gone. *)
Definition pth_cancel_point (set_yield : bool) : M sst bool :=
  '(n, d) ← onw my_descr;
  t ← of_option BadDeref (current d);
  x ← onw (get_t t);
  if cancelreq x && flag (cancelstate x) PTH_CANCEL_ENABLE then
    onw (upd_t t (set_cancelreq false));;
    pth_exit PTH_CANCELED false;;
    mret true
  else (if set_yield then onw (upd_d n (set_do_yield true)) else mret tt);; mret false.

(** The thread has been found in queue [q], where it has not started yet. *)
Definition cancel_found (t : nat) (q : qid) : M sst (option bool) :=
  onq (spin_lock q);;
  b ← onq (__pqueue_contains q t);
  if negb b then onq (spin_unlock q);; mret (Some false)
  else
    onq (__pqueue_delete_node t);;
    onq (spin_unlock q);;
    pth_thread_cleanup t;;
    x ← onw (get_t t);
    (if bool_decide (joinable x = 0) then pth_tcb_free destroy (Some t)
     else
       onw (upd_t t (set_join_arg PTH_CANCELED));;
       onq (spin_lock DQ);;
       onw (upd_t t (set_state PTH_STATE_DEAD));;
       onq (__pqueue_append_node DQ t);;
       x ← onw (get_t t);
       (match joined_native x with Some jn => onw (pipe_write jn) | None => mret tt end);;
       onq (spin_unlock DQ));;
    mret (Some true).

Definition pth_cancel (thread : option nat) : M sst (option bool) :=
  '(n, d) ← onw my_descr;
  match thread with
  | None => mret (Some false)
  | Some t =>
      e ← thread_exists (Some t);
      if negb e then mret (Some false)
      else
        x ← onw (get_t t);
        if bool_decide (state x = PTH_STATE_DEAD) || cancelreq x then mret (Some true)
        else
          onw (upd_t t (set_cancelreq true));;
          bounded ← (match boundnative x with
                     | Some ds => b ← onw (get_d ds); mret (if is_bounded b then Some (ds, is_bound b) else None)
                     | None => mret None
                     end);
          (match bounded with Some (ds, false) => onw (pipe_write ds) | _ => mret tt end);;
          if flag (cancelstate x) PTH_CANCEL_ENABLE && flag (cancelstate x) PTH_CANCEL_ASYNCHRONOUS then
            if bool_decide (current d = Some t) then
              g ← pth_cancel_point false;
              mret (if (g : bool) then None else Some true)
            else
              match bounded with
              | Some (ds, _) =>
                  if bool_decide (state x = PTH_STATE_NEW) then cancel_found t (ReadyQ ds) else mret (Some true)
              | None =>
                  w ← onw get;
                  match state x with
                  | PTH_STATE_NEW => cancel_found t (if bool_decide (pth_number_of_natives w > 1) then NQ else NewQ n)
                  | PTH_STATE_READY | PTH_STATE_WAITING | PTH_STATE_MUTEX_WAITING => mret (Some true)
                  | _ => mret (Some false)
                  end
              end
          else mret (Some true)
  end.

(** ** Waiting *)

Definition pth_wait (ev_ring : option nat) : M sst (option Z) :=
  match ev_ring with
  | None => mret (Some (-1))
  | Some ev =>
      c ← onw pth_get_current;
      t ← of_option BadDeref c;
      one (mark_loop efuel (Some ev) ev);;
      upd_x t (set_events (Some ev));;
      onw (upd_t t (set_state PTH_STATE_WAITING));;
      pth_yield None;;
      x ← one (get_ev ev);
      g ← (if bool_decide (ev_type x = PTH_EVENT_MUTEX) || bool_decide (ev_type x = PTH_EVENT_FUNC) ||
              bool_decide (ev_type x = PTH_EVENT_COND) then mret false else pth_cancel_point false);
      if (g : bool) then mret None
      else
        upd_x t (set_events None);;
        k ← one (count_loop efuel (Some ev) ev 0);
        mret (Some k)
  end.

(** [pth_event(spec|PTH_MODE_STATIC, &key, ...)] of the running thread, which
    yields when it gets no memory (the last thing [pth_event] does then). *)
Definition static_ev (spec : Z) (key : nat) (args : event_args) : M sst (option nat) :=
  c ← onw pth_get_current;
  t ← of_option BadDeref c;
  ev ← one (pth_event (mret tt) t (Z.lor spec PTH_MODE_STATIC) [VCell key; VArgs args 0]);
  match ev with Some e => mret (Some e) | None => pth_yield None;; mret None end.

Definition pth_nap (naptime : Z) : M sst (option bool) :=
  if bool_decide (naptime = 0) then mret (Some false)
  else
    s ← get;
    ev ← static_ev PTH_EVENT_TIME nap_key (ATime (pth_time_add (time_now s) naptime));
    r ← pth_wait ev;
    mret (match r with None => None | Some _ => Some true end).

(** ** Joining *)

(** The part of [pth_join] with the queue of dead threads locked. *)
Definition join_reap (t : nat) (value : Z) : M sst Z :=
  b ← onq (__pqueue_contains DQ t);
  if negb b then onq (spin_unlock DQ);; mret ESRCH
  else
    x ← onw (get_t t);
    let k := swrap 32 (joined_count x - 1) in
    onw (upd_t t (set_joined_count k));;
    if bool_decide (k > 0) then onq (spin_unlock DQ);; mret ESRCH
    else if negb (bool_decide (state x = PTH_STATE_DEAD)) then onq (spin_unlock DQ);; mret ESRCH
    else
      (if bool_decide (value = 0) then mret tt else user_write value (join_arg x));;
      onq (__pqueue_delete_node t);;
      onq (spin_unlock DQ);;
      pth_tcb_free destroy (Some t);;
      mret 0.

Definition pth_join (thread : option nat) (value : Z) : M sst (option Z) :=
  '(n, d) ← onw my_descr;
  if bool_decide (thread = current d) then mret (Some EDEADLK)
  else
    thread ← (match thread with Some t => mret (Some t) | None => onq (pqueue_first_node DQ) end);
    match thread with
    | None => mret (Some ESRCH)
    | Some t =>
        onq (spin_lock DQ);;
        e ← thread_exists (Some t);
        if negb e then onq (spin_unlock DQ);; mret (Some ESRCH)
        else
          x ← onw (get_t t);
          s ← get;
          if bool_decide (joinable x = 0) then onq (spin_unlock DQ);; mret (Some EINVAL)
          else if bool_decide (pth_threads_count s = 1) then onq (spin_unlock DQ);; mret (Some EDEADLK)
          else if bool_decide (state x = PTH_STATE_DEAD) then r ← join_reap t value; mret (Some r)
          else
            ev ← static_ev (Z.lor PTH_EVENT_TID PTH_UNTIL_TID_DEAD) join_key (ATid (Some t));
            (if is_bounded d || (bool_decide (pth_number_of_natives (wo s) > 1) && is_group_leader n)
             then onw (upd_t t (set_joined_native (Some n)))
             else onw (upd_t t (set_joined_thread (current d))));;
            onw (upd_t t (fun x => set_joined_count (swrap 32 (joined_count x + 1)) x));;
            onq (spin_unlock DQ);;
            w ← pth_wait ev;
            match w with
            | None => mret None
            | Some _ => onq (spin_lock DQ);; r ← join_reap t value; mret (Some r)
            end
    end.

(** ** Suspending and resuming *)

(** Whether [t] runs on one of the natives. *)
Fixpoint runs_somewhere (fuel slot : nat) (total : Z) (t : nat) : M sst bool :=
  match fuel with
  | O => fail Stuck
  | S fuel =>
      if bool_decide (Z.of_nat slot < total) then
        d ← onw (get_d slot);
        if bool_decide (current d = Some t) then mret true else runs_somewhere fuel (S slot) total t
      else mret false
  end.

(** [pqueue_contains], then to the queue of suspended threads. *)
Definition suspend_from (t : nat) (q : qid) : M sst Z :=
  b ← onq (__pqueue_contains q t);
  if negb b then mret ESRCH
  else onq (pqueue_delete_node t);; onq (pqueue_append_node SQ t);; mret 0.

Definition pth_suspend (thread : option nat) : M sst Z :=
  '(n, d) ← onw my_descr;
  match thread with
  | None => mret EINVAL
  | Some t =>
      if bool_decide (current d = Some t) || bool_decide (sched d = Some t) then mret EPERM
      else
        s ← get;
        let total := pth_number_of_natives (wo s) in
        r ← runs_somewhere nfuel 0 total t;
        if (r : bool) then onw (upd_t t (set_should_suspend true));; mret EINPROGRESS
        else
          x ← onw (get_t t);
          bounded ← (match boundnative x with
                     | Some ds => b ← onw (get_d ds); mret (if is_bounded b then Some ds else None)
                     | None => mret None
                     end);
          match bounded with
          | Some ds =>
              match state x with
              | PTH_STATE_NEW => suspend_from t (ReadyQ ds)
              | PTH_STATE_WAITING => suspend_from t (WaitQ ds)
              | _ => mret EPERM
              end
          | None =>
              match state x with
              | PTH_STATE_NEW => suspend_from t (if bool_decide (total > 1) then NQ else NewQ n)
              | PTH_STATE_READY => suspend_from t (if bool_decide (total > 1) then RQ else ReadyQ n)
              | PTH_STATE_WAITING =>
                  b ← pth_WQ_delete t;
                  if negb b then mret ESRCH else onq (pqueue_append_node SQ t);; mret 0
              | _ => mret EPERM
              end
          end
  end.

(** The queue a resumed thread goes to. *)
Definition resume_queue (n : nat) (total : Z) (x : pth_st) (bounded : option nat) : option qid :=
  match bounded with
  | Some ds =>
      match state x with
      | PTH_STATE_NEW => Some (ReadyQ ds)
      | PTH_STATE_WAITING => Some (WaitQ ds)
      | _ => None
      end
  | None =>
      match state x with
      | PTH_STATE_NEW => Some (if bool_decide (total > 1) then NQ else NewQ n)
      | PTH_STATE_READY => Some (if bool_decide (total > 1) then RQ else ReadyQ n)
      | PTH_STATE_WAITING => Some (WaitQ n)
      | _ => None
      end
  end.

Definition pth_resume (thread : option nat) : M sst Z :=
  n ← onw pth_get_native_descr;
  match thread, n with
  | None, _ | _, None => mret EINVAL
  | Some t, Some n =>
      d ← onw (get_d n);
      if bool_decide (current d = Some t) || bool_decide (sched d = Some t) then mret EPERM
      else
        b ← onq (__pqueue_contains SQ t);
        if negb b then mret EPERM
        else
          onq (pqueue_delete_node t);;
          x ← onw (get_t t);
          s ← get;
          bounded ← (match boundnative x with
                     | Some ds => b ← onw (get_d ds); mret (if is_bounded b then Some ds else None)
                     | None => mret None
                     end);
          match resume_queue n (pth_number_of_natives (wo s)) x bounded with
          | None => mret EPERM
          | Some q => onq (pqueue_append_node q t);; pth_yield (Some t);; mret 0
          end
  end.

(** ** Aborting, signals, binding, queries, once *)

Definition pth_abort (thread : option nat) : M sst (option bool) :=
  match thread with
  | None => mret (Some false)
  | Some t =>
      c ← onw pth_get_current;
      if bool_decide (c = Some t) then mret (Some false)
      else
        x ← onw (get_t t);
        if bool_decide (state x = PTH_STATE_DEAD) && negb (bool_decide (joinable x = 0)) then
          r ← pth_join (Some t) 0;
          mret (match r with None => None | Some r => Some (negb (bool_decide (r = 0))) end)
        else
          onw (upd_t t (set_joinable 0));;
          onw (upd_t t (set_cancelstate (Z.lor PTH_CANCEL_ENABLE PTH_CANCEL_ASYNCHRONOUS)));;
          pth_cancel (Some t)
  end.

(** [action]: what [sigaction] says of a signal, [None] for an error, [Some
    true] when it is ignored. *)
Definition pth_raise (action : Z -> option bool) (thread : option nat) (sig : Z) : M sst Z :=
  e ← thread_exists thread;
  match thread with
  | None => mret ESRCH
  | Some t =>
      if negb e then mret ESRCH
      else if bool_decide (sig < 0) || bool_decide (sig > PTH_NSIG) then mret EINVAL
      else if bool_decide (sig = 0) then mret 0
      else
        '(n, d) ← onw my_descr;
        c ← of_option BadDeref (current d);
        match action sig with
        | None => mret EINVAL
        | Some true => mret 0
        | Some false =>
            onw (lock_thread t (tid d));;
            x ← get_x t;
            (if sigispending (sigpending x) sig then mret tt
             else
               upd_x t (set_sigpending (sigaddpending (sigpending x) sig));;
               upd_x t (fun x => set_sigpendcnt (swrap 32 (sigpendcnt x + 1)) x);;
               upd_x t (set_sigthread (Some c)));;
            onw (unlock_thread t (tid d));;
            y ← onw (get_t c);
            (if bool_decide (sig = SIGSTOP) && negb (is_group_leader n) && bool_decide (boundnative y = None)
             then onw (upd_t c (set_boundnative (Some 0%nat))) else mret tt);;
            pth_yield (if bool_decide (t = c) then None else Some t);;
            upd_x t (set_sigthread None);;
            onw (upd_t c (set_boundnative (boundnative y)));;
            mret 0
        end
  end.

Definition pth_bindtonative (thread : option nat) : M sst bool :=
  '(n, d) ← onw my_descr;
  s ← get;
  if bool_decide (pth_max_native_threads s = 1) then mret false
  else if is_bounded d then mret true
  else
    match thread with
    | None => mret false
    | Some t =>
        if is_group_leader n then mret false
        else
          c ← onq (pqueue_total (WaitQ n));
          if negb (bool_decide (c = 0)) then mret false
          else
            onw (upd_t t (set_boundnative (Some n)));;
            onw (upd_d n (set_is_bounded true));;
            onw (upd_d n (set_bounded_thread (Some t)));;
            modify (fun s => set_pth_max_native_threads (pth_max_native_threads s + 1) s);;
            mret true
    end.

Definition BIT_ctrl (k : Z) : Z := Z.shiftl 1 k.
Definition PTH_CTRL_GETAVLOAD : Z := BIT_ctrl 1.
Definition PTH_CTRL_GETPRIO : Z := BIT_ctrl 2.
Definition PTH_CTRL_GETTHREADS_NEW : Z := BIT_ctrl 4.
Definition PTH_CTRL_GETTHREADS_READY : Z := BIT_ctrl 5.
Definition PTH_CTRL_GETTHREADS_RUNNING : Z := BIT_ctrl 6.
Definition PTH_CTRL_GETTHREADS_WAITING : Z := BIT_ctrl 7.
Definition PTH_CTRL_GETTHREADS_SUSPENDED : Z := BIT_ctrl 8.
Definition PTH_CTRL_GETTHREADS_DEAD : Z := BIT_ctrl 9.
Definition PTH_CTRL_GETTHREADS : Z :=
  fold_right Z.lor 0 [PTH_CTRL_GETTHREADS_NEW; PTH_CTRL_GETTHREADS_READY; PTH_CTRL_GETTHREADS_RUNNING;
    PTH_CTRL_GETTHREADS_WAITING; PTH_CTRL_GETTHREADS_SUSPENDED; PTH_CTRL_GETTHREADS_DEAD].

(** The natives that run a thread. *)
Fixpoint count_running (fuel slot : nat) (rc : Z) : M sst Z :=
  match fuel with
  | O => fail Stuck
  | S fuel =>
      d ← onw (get_d slot);
      if is_used d then
        count_running fuel (S slot)
          (if negb (bool_decide (current d = None)) && negb (bool_decide (current d = sched d)) then rc + 1 else rc)
      else mret rc
  end.

(** [pth_ctrl] for the queries that have a number as their result. *)
Definition pth_ctrl (query : Z) (arg : option nat) : M sst Z :=
  s ← get;
  if bool_decide (query = PTH_CTRL_GETTHREADS) then mret (pth_threads_count s)
  else if flag query PTH_CTRL_GETTHREADS_NEW then
    onq (pqueue_total (if bool_decide (pth_max_native_threads s > 1) then NQ else NewQ 0))
  else if flag query PTH_CTRL_GETTHREADS_READY then
    onq (pqueue_total (if bool_decide (pth_max_native_threads s > 1) then RQ else ReadyQ 0))
  else if flag query PTH_CTRL_GETTHREADS_RUNNING then count_running nfuel 0 0
  else if flag query PTH_CTRL_GETTHREADS_WAITING then pth_WQ_count
  else if flag query PTH_CTRL_GETTHREADS_SUSPENDED then onq (pqueue_total SQ)
  else if flag query PTH_CTRL_GETTHREADS_DEAD then onq (pqueue_total DQ)
  else if flag query PTH_CTRL_GETPRIO then t ← of_option BadDeref arg; onw (__thread_prio_get t)
  else mret (-1).

(** [oncectrl] is a word of the caller; [constructor] does not fail. *)
Definition pth_once (oncectrl : Z) (constructor : option (M sst unit)) : M sst Z :=
  match constructor with
  | None => mret EINVAL
  | Some f =>
      if bool_decide (oncectrl = 0) then mret EINVAL
      else
        v ← user_read oncectrl;
        user_write oncectrl 1;;
        (if bool_decide (v = 1) then mret tt else f);;
        mret 0
  end.
End library.

(** ** Creating threads *)

(** What [pth_malloc] answers when a control block is allocated: its identity,
    the contents of the memory (the members in the three stores, those of the
    node but the links, and the backward link of the wait list), and for the stack its address. *)
Record tcb_block : Set := TcbBlock {
  b_id : nat; b_pth : pth_st; b_tcb : tcb; b_attr : tattr; b_prio : Z; b_wprev : option waddr;
  b_stack : option Z }.

Definition SIGSTKSZ : Z := 8192.

Section spawn.
Context (switch : M sst unit) (destroy : last_call -> nat -> M sst unit).
Context (pth_default_stacksize pth_threads_per_native : Z) (time_now : sst -> Z).
(** [pth_new_native] (system calls): the descriptor of a new native; whether
    [pth_mctx_set] succeeds; the names that [pth_snprintf] writes. *)
Context (new_native : Z -> option nat -> M ast (option nat)) (mctx_set : bool) (child_name : list Z).

(** [pth_tcb_alloc]; the members that are not set keep the contents of the
    memory; those that only pth_clean.c and pth_data.c use are not in this state.  The node is in no queue: memory that was never used is zero, and a
    freed block has left its queue; its priority is what it was. *)
Definition pth_tcb_alloc (block : option tcb_block) (stacksize stackaddr : Z) : M ast (option nat) :=
  let stacksize := if bool_decide (0 < stacksize) && bool_decide (stacksize < SIGSTKSZ) then SIGSTKSZ else stacksize in
  match block with
  | None => mret None
  | Some b =>
      let t := b_id b in
      let x := set_tlock qlock_free (set_boundnative None (set_joined_native None (set_joined_count 0
                 (set_joined_thread None (set_waited_native None (set_mutex_owned None (set_should_suspend false (b_pth b)))))))) in
      let stack := if bool_decide (0 < stacksize)
                   then (if bool_decide (stackaddr <> 0) then Some stackaddr else b_stack b) else Some 0 in
      match stack with
      | None => mret None
      | Some st =>
          let y := set_lastrannative 0 (set_stackguard (if bool_decide (0 < stacksize) then Some true else None) (b_tcb b)) in
          let z := set_tstacksize stacksize (set_tstack st (b_attr b)) in
          ona (modify (fun s => set_wo (set_waits (<[WThread t := Link None (b_wprev b)]> (waits (wo s)))
            (set_threads (<[t := x]> (threads (wo s)))
            (set_qm (QMem (<[ANode t := Link (Some (ANode t)) (Some (ANode t))]> (links (qm (wo s))))
               (<[t := Node None (b_prio b) node_lt_nowhere]> (nodes (qm (wo s)))) (queues (qm (wo s)))) (wo s))))
            (set_tx (<[t := y]> (tx s)) s)));;
          modify (fun s => set_ta (<[t := z]> (ta s)) s);;
          mret (Some t)
      end
  end.

Definition upd_th (t : nat) (f : pth_st -> pth_st) : M ast unit := ona (onw (upd_t t f)).
Definition upd_tx (t : nat) (f : tcb -> tcb) : M ast unit := ona (upd_x t f).

(** The attributes of the new thread [t]; the result is its scope, and whether
    it is created suspended. *)
Definition spawn_attributes (attr : option nat) (t : nat) (cur : option nat) (tid' : Z) : M ast (Z * Z) :=
  match attr with
  | Some a =>
      x ← get_a a;
      scope ← (match (if bool_decide (a_inheritsched x = 0) then None else cur) with
               | Some c =>
                   z ← get_ta c;
                   y ← ona (onw (get_t c));
                   upd_ta t (set_tscope (tscope z));;
                   upd_th t (set_schedpolicy (schedpolicy y));;
                   p ← ona (onw (thread_prio_get c tid'));
                   upd_th t (set_prio p);;
                   mret (tscope z)
               | None =>
                   upd_ta t (set_tscope (a_scope x));;
                   upd_th t (set_schedpolicy (a_schedpolicy x));;
                   upd_th t (set_prio (wrap 8 (xprio_to_iprio (a_schedpolicy x) (a_prio x) 0).1));;
                   mret (a_scope x)
               end);
      upd_th t (set_joinable (a_joinable x));;
      upd_th t (set_cancelstate (a_cancelstate x));;
      z ← get_ta t;
      '(_, name) ← of_res (pth_util_cpystrn (tname z) (a_name x) PTH_TCB_NAMELEN);
      upd_ta t (set_tname name);;
      mret (scope, a_suspendstate x)
  | None =>
      upd_ta t (set_tscope PTH_SCOPE_PROCESS);;
      upd_th t (set_schedpolicy SCHED_OTHER);;
      (match cur with
       | Some c =>
           y ← ona (onw (get_t c));
           upd_th t (set_prio (prio y));;
           upd_th t (set_joinable (joinable y));;
           upd_th t (set_cancelstate (cancelstate y))
       | None =>
           upd_th t (set_prio (wrap 8 (iprio_get_default SCHED_OTHER 0).1));;
           upd_th t (set_joinable 1);;
           upd_th t (set_cancelstate PTH_CANCEL_DEFAULT)
       end);;
      upd_ta t (set_tname child_name);;
      mret (PTH_SCOPE_PROCESS, 0)
  end.

(** Times, signals, start routine and the like. *)
Definition spawn_init (t : nat) (cur : option nat) (func arg : Z) (is_sched : bool) : M ast unit :=
  s ← get;
  upd_tx t (set_lastran (time_now (ss s)));;
  upd_tx t (set_running 0);;
  upd_tx t (set_events None);;
  m ← (match cur with Some c => x ← ona (get_x c); mret (sigactionmask x) | None => mret 0 end);
  upd_tx t (set_sigactionmask m);;
  upd_tx t (set_sigpending 0);;
  upd_tx t (set_sigpendcnt 0);;
  upd_tx t (set_sigthread None);;
  upd_tx t (set_is_scheduler is_sched);;
  upd_ta t (set_start_func func);;
  upd_ta t (set_start_arg arg);;
  upd_th t (set_join_arg 0);;
  upd_th t (set_cancelreq false);;
  upd_th t (set_mutexring pth_ring_init).

(** A further native, when there are threads enough; [false]: there is none to
    be had. *)
Definition spawn_native (n : nat) (scope : Z) : M ast bool :=
  s ← get;
  a ← ona pth_active_threads;
  let s := ss s in
  if bool_decide (pth_max_native_threads s > 1) && bool_decide (a > 1) &&
     (bool_decide (Z.rem a pth_threads_per_native = 0) || bool_decide (a - 1 = 1)) &&
     bool_decide (pth_number_of_natives (wo s) < pth_max_native_threads s) && bool_decide (pth_number_of_natives (wo s) < a)
  then
    d ← new_native scope None;
    match d with
    | None => mret false
    | Some _ =>
        c ← ona (onw pth_get_current);
        (if is_group_leader n && bool_decide (c = pth_main s) then
           m ← of_option BadDeref (pth_main s);
           ona (onw (upd_d n (set_is_bounded true)));;
           upd_th m (set_state PTH_STATE_WAITING);;
           upd_th m (set_boundnative None);;
           ona (pth_yield switch None);;
           '(k, _) ← ona (onw my_descr);
           if is_group_leader k then fail Aborted else upd_th m (set_state PTH_STATE_READY)
         else mret tt);;
        mret true
    end
  else mret true.

(** The thread is put into its queue. *)
Definition spawn_enqueue (t : nat) (q : qid) (tid' : Z) : M ast unit :=
  upd_th t (set_state PTH_STATE_NEW);;
  ona (onq (pqueue_append_node q t));;
  x ← ona (onw (get_t t));
  match boundnative x with
  | None => mret tt
  | Some ds =>
      upd_th t (set_state PTH_STATE_READY);;
      d ← ona (onw (get_d ds));
      if is_running d && negb (is_bound d) then
        ona (lock_sched ds tid');; ona (onw (pipe_write ds));; ona (unlock_sched ds tid')
      else mret tt
  end.

(** [pth_spawn]; [is_sched]: [func] is [pth_scheduler]. *)
Definition pth_spawn (block : option tcb_block) (attr : option nat) (func arg : Z) (is_sched : bool) : M ast (option nat) :=
  '(stacksize, stackaddr) ← (match attr with
                             | None => mret (wrap 32 (pth_default_stacksize * 1024), 0)
                             | Some a => x ← get_a a; mret (a_stacksize x, a_stackaddr x)
                             end);
  thread ← pth_tcb_alloc block stacksize stackaddr;
  match thread with
  | None => mret None
  | Some t =>
      '(n, d) ← ona (onw my_descr);
      let cur := current d in
      '(scope, suspended) ← spawn_attributes attr t cur (tid d);
      spawn_init t cur func arg is_sched;;
      s ← get;
      z ← get_ta t;
      let cq := if bool_decide (pth_max_native_threads (ss s) = 1) then NewQ n else NQ in
      if bool_decide (0 < tstacksize z) && negb mctx_set then
        modify (fun s => set_ta (delete t (ta s)) (set_ss (set_wo (set_threads (delete t (threads (wo (ss s)))) (wo (ss s)))
                  (set_tx (delete t (tx (ss s))) (ss s))) s));;
        mret None
      else
        let cq := if bool_decide (0 < tstacksize z) then cq else NewQ n in
        upd_tx t (set_mctx_sigs (kmask (ss s)));;
        if is_sched then mret (Some t)
        else
          upd_th t (set_magic true);;
          ona (modify (fun s => set_pth_threads_count (pth_threads_count s + 1) s));;
          let cq := if bool_decide (suspended = 1) then SQ else cq in
          if bool_decide (scope = PTH_SCOPE_PROCESS) then
            ok ← spawn_native n scope;
            if negb ok then ona (pth_tcb_free destroy (Some t));; mret None
            else
              '(_, d) ← ona (onw my_descr);
              spawn_enqueue t cq (tid d);; mret (Some t)
          else
            ds ← new_native scope (Some t);
            upd_th t (set_boundnative ds);;
            match ds with
            | None => ona (pth_tcb_free destroy (Some t));; mret None
            | Some k =>
                ona (modify (fun s => set_pth_max_native_threads (pth_max_native_threads s + 1) s));;
                spawn_enqueue t (ReadyQ k) (tid d);; mret (Some t)
            end
  end.
End spawn.
