(* ===== verification/LibProofs.v ===== *)
(** * The thread library: proofs

    Theorems about pth_lib.c and pth_cancel.c (see Lib): suspending and
    resuming, joining, cancelling and creating threads. *)

From S2P Require Import Prelude Bitmap Dll LinkedList Ring Priorities Msg PQueue Futex World Sync Event Time Util Sched Attr Lib.
From S2P Require Import MutexProofs Wake SchedProofs EventMgr.

(** ** Queue operations, as runs *)

Lemma onq_run {A} (c : M qmem A) s a m : c (qm (wo s)) = Ok (a, m) -> onq c s = Ok (a, put_qm m s).
Proof. unfold onq, onw, on_queues, zoom. by intros ->. Qed.
Lemma onq_read {A} (c : M qmem A) s a : c (qm (wo s)) = Ok (a, qm (wo s)) -> onq c s = Ok (a, s).
Proof. intros E. rewrite (onq_run _ _ _ _ E). unfold put_qm. by destruct s as [[]]. Qed.
Lemma onw_same {A} (c : M world A) s a : c (wo s) = Ok (a, wo s) -> onw c s = Ok (a, s).
Proof. unfold onw, zoom. intros ->. by rewrite set_wo_id. Qed.

Lemma get_current_run (w : world) n d : self w = Some n -> natives w !! n = Some d -> pth_get_current w = Ok (current d, w).
Proof.
  intros E1 E2. unfold pth_get_current, pth_get_native_descr, gets, mbind, M_bind. rewrite E1. by rewrite (get_d_run _ n d E2).
Qed.

Lemma contains_run m q t x : nodes m !! t = Some x ->
  __pqueue_contains q t m = Ok (bool_decide (node_lt x = node_lt_pqueue) && bool_decide (bp x = Some q), m).
Proof.
  intros Hx. unfold __pqueue_contains. qunfold. qrun. case_bool_decide; cbn [negb andb]; [|done]. by qrun.
Qed.

Section runs.
Context (m : qmem) (Q : gmap qid contents) (L : qid -> Z) (Hv : qview m Q L).

Lemma contains_member q Ls p l t : Q !! q = Some Ls -> Ls !! p = Some l -> t ∈ l -> __pqueue_contains q t m = Ok (true, m).
Proof.
  intros HQ HL Ht. rewrite (contains_run m q t _ (view_member m Q L Hv q Ls p l t HQ HL Ht)). cbn.
  by rewrite !bool_decide_eq_true_2.
Qed.

Lemma delete_locked_run q Ls p l1 t l2 : Q !! q = Some Ls -> Ls !! p = Some (l1 ++ t :: l2) -> L q = 0 ->
  exists m', pqueue_delete_node t m = Ok (tt, m') /\ qview m' (<[q := <[p := l1 ++ l2]> Ls]> Q) L /\
    nodes m' = <[t := Node None (Z.of_nat p) node_lt_nowhere]> (nodes m).
Proof.
  intros HQ HL H0. pose proof (view_member m Q L Hv q Ls p _ t HQ HL ltac:(set_solver)) as Hx.
  assert (wp (locked q (__pqueue_delete_node t)) (fun _ m' => qview m' (<[q := <[p := l1 ++ l2]> Ls]> Q) L /\
    nodes m' = <[t := Node None (Z.of_nat p) node_lt_nowhere]> (nodes m)) m) as Hwp.
  { eapply wq_locked; [exact Hv|by eexists|exact H0|]. intros m1 Hv1 Hn1. eapply (wq_delete m1 Q _ Hv1 q Ls p l1 t l2 _ HQ HL).
    intros m2 Hv2 Hn2. eexists. split; [exact Hv2|]. split; [rewrite lookup_insert_eq; by eexists|]. intros m3 Hv3 Hn3.
    split; [exact Hv3|]. by rewrite Hn3, Hn2, Hn1. }
  apply wp_elim in Hwp as ([] & m' & E & H). exists m'. split; [|exact H]. unfold pqueue_delete_node. qunfold. qrun. exact E.
Qed.

Lemma append_locked_run q Ls p l t x : Q !! q = Some Ls -> Ls !! p = Some l -> L q = 0 ->
  nodes m !! t = Some x -> free_node x -> priority x = Z.of_nat p ->
  exists m', pqueue_append_node q t m = Ok (tt, m') /\ qview m' (<[q := <[p := l ++ [t]]> Ls]> Q) L /\
    nodes m' = <[t := Node (Some q) (Z.of_nat p) node_lt_pqueue]> (nodes m).
Proof.
  intros HQ HL H0 Hx Hf Hp.
  assert (wp (pqueue_append_node q t) (fun _ m' => qview m' (<[q := <[p := l ++ [t]]> Ls]> Q) L /\
    nodes m' = <[t := Node (Some q) (Z.of_nat p) node_lt_pqueue]> (nodes m)) m) as Hwp.
  { eapply wq_enter_locked; [apply __pqueue_insert_tail_links|apply place_tail_perm|done..|]. by intros. }
  apply wp_elim in Hwp as ([] & m' & E & H). by exists m'.
Qed.

Lemma favor_locked_run q Ls p l1 t l2 : Q !! q = Some Ls -> Ls !! p = Some (l1 ++ t :: l2) -> L q = 0 ->
  exists m', pqueue_favor t m = Ok (tt, m') /\ qview m' (<[q := <[p := favored (l1 ++ t :: l2) t]> Ls]> Q) L /\ nodes m' = nodes m.
Proof.
  intros HQ HL H0. pose proof (view_member m Q L Hv q Ls p _ t HQ HL ltac:(set_solver)) as Hx.
  assert (wp (locked q (__pqueue_favor t)) (fun _ m' => qview m' (<[q := <[p := favored (l1 ++ t :: l2) t]> Ls]> Q) L /\
    nodes m' = nodes m) m) as Hwp.
  { eapply wq_locked; [exact Hv|by eexists|exact H0|]. intros m1 Hv1 Hn1.
    destruct (__pqueue_favor_spec m1 Q q Ls p l1 t l2 (qv_inv _ _ _ Hv1) HQ HL) as (m2 & E & Hi & Hn2 & Hq2).
    eapply wp_run; [exact E|]. eexists. split; [|split; [rewrite lookup_insert_eq; by eexists|]].
    - split; [exact Hi| |rewrite Hn2; apply Hv1]. intros q' Hq'. unfold lock_word. rewrite Hq2. apply Hv1.
      by eapply is_Some_insert_queue; [by eexists|exact Hq'].
    - intros m3 Hv3 Hn3. split; [exact Hv3|]. by rewrite Hn3, Hn2, Hn1. }
  apply wp_elim in Hwp as ([] & m' & E & H). exists m'. split; [|exact H]. unfold pqueue_favor. qunfold. qrun. exact E.
Qed.
End runs.

(** ** Suspending and resuming *)

Lemma runs_nowhere s t total : (forall i, Z.of_nat i < total -> exists d, natives (wo s) !! i = Some d /\ current d <> Some t) ->
  forall fuel slot, (Z.to_nat total - slot < fuel)%nat -> runs_somewhere fuel slot total t s = Ok (false, s).
Proof.
  intros Hd fuel. induction fuel as [|fuel IH]; intros slot Hf; [lia|]. cbn [runs_somewhere].
  case_bool_decide as Hs; [|done]. destruct (Hd slot Hs) as (d & Hi & Hc).
  rewrite (bind_run _ _ s d s) by (by apply onw_same, get_d_run).
  rewrite bool_decide_eq_false_2 by done. apply IH. lia.
Qed.

(** A lock that is free, taken once and given back *)
Lemma lock_free_take tid : tid <> 0 -> _pth_acquire_lock tid qlock_free = Ok (QLock 1 tid 1).
Proof. intros Ht. unfold _pth_acquire_lock, raw_lock. cbn [owner qlock_free]. by rewrite bool_decide_eq_false_2. Qed.
Lemma lock_taken_release tid : _pth_release_lock tid (QLock 1 tid 1) = (0, qlock_free).
Proof. unfold _pth_release_lock. cbn [owner]. by rewrite bool_decide_eq_true_2. Qed.
Lemma lock_free_run tid : exists k, _pth_acquire_lock tid qlock_free = Ok k.
Proof. unfold _pth_acquire_lock, raw_lock. case_bool_decide; eexists; reflexivity. Qed.

Definition put_d (n : nat) (d : pth_descr_st) (s : sst) : sst := set_wo (set_natives (<[n := d]> (natives (wo s))) (wo s)) s.

Lemma lock_sched_run s n d tid k : natives (wo s) !! n = Some d -> _pth_acquire_lock tid (sched_lock d) = Ok k ->
  lock_sched n tid s = Ok (tt, put_d n (set_sched_lock k d) s).
Proof.
  intros Hd Ek. unfold lock_sched. rewrite (bind_run _ _ s d s) by (by apply onw_same, get_d_run).
  rewrite (bind_run _ _ s k s) by (by rewrite Ek). unfold onw, zoom. by rewrite (upd_d_run _ n d _ Hd).
Qed.

(** Yielding to an unbound thread that does not run. *)
Lemma yield_to_run switch s n d t y m' k :
  self (wo s) = Some n -> natives (wo s) !! n = Some d -> _pth_acquire_lock (tid d) (sched_lock d) = Ok k ->
  threads (wo s) !! t = Some y -> boundnative y = None -> current d <> Some t -> pqueue_favor t (qm (wo s)) = Ok (tt, m') ->
  pth_yield switch (Some t) s = (switch;; mret true) (put_d n (set_sched_lock k d) (put_qm m' s)).
Proof.
  intros Hs Hd Ek Hy Hb Hc Ef. unfold pth_yield. rewrite (bind_run _ _ s (n, d) s) by (by apply onw_same, my_descr_run). cbv beta iota.
  rewrite bool_decide_eq_false_2 by congruence. rewrite (bind_run _ _ s y s) by (by apply onw_same, get_t_run).
  rewrite Hb, (bind_run (mret _) _ _ _ _ eq_refl). rewrite (bind_run _ _ _ _ _ (onq_run _ _ _ _ Ef)).
  by rewrite (bind_run _ _ _ _ _ (lock_sched_run (put_qm m' s) n d (tid d) k Hd Ek)).
Qed.

(** A scheduler that runs the thread again at once *)
Definition reschedule (n : nat) : M sst unit :=
  modify (fun l => set_wo (set_natives (alter (set_sched_lock qlock_free) n (natives (wo l))) (wo l)) l).

(** A thread that yields: the scheduler starts with its lock taken. *)
Lemma yield_run switch n t d l : self (wo l) = Some n -> natives (wo l) !! n = Some d -> current d = Some t -> sched_lock d = qlock_free ->
  exists k, forall l', switch (put_d n (set_sched_lock k d) l) = Ok (tt, l') -> pth_yield switch None l = Ok (true, l').
Proof.
  intros Hs Hd Hc Hfree. destruct (lock_free_run (tid d)) as [k Ek]. rewrite <- Hfree in Ek. exists k. intros l' Esw.
  unfold pth_yield. rewrite (bind_run _ _ l (n, d) l) by (by apply onw_same, my_descr_run). cbv beta iota.
  rewrite bool_decide_eq_false_2 by congruence.
  by rewrite (bind_run _ _ _ _ _ (lock_sched_run l n d (tid d) k Hd Ek)), (bind_run _ _ _ _ _ Esw).
Qed.

Section suspend.
Context (switch : M sst unit) (nfuel : nat) (s : sst) (n t : nat) (d : pth_descr_st) (y : pth_st).
Context (Q : gmap qid contents) (L : qid -> Z) (q : qid) (p : nat) (Ls Ss : contents) (l1 l2 ls : list nat).
Context (Hself : self (wo s) = Some n) (Hn : natives (wo s) !! n = Some d) (Hfree : sched_lock d = qlock_free).
Context (Hy : threads (wo s) !! t = Some y) (Hb : boundnative y = None) (Hsched : sched d <> Some t).
Context (Hidle : forall i di, natives (wo s) !! i = Some di -> current di <> Some t).
Context (Htot : (Z.to_nat (pth_number_of_natives (wo s)) <= length (natives (wo s)))%nat).
Context (Hfuel : (Z.to_nat (pth_number_of_natives (wo s)) < nfuel)%nat).
Context (Hv : qview (qm (wo s)) Q L) (Hst : state y = PTH_STATE_NEW \/ state y = PTH_STATE_READY).
Context (Hq : resume_queue n (pth_number_of_natives (wo s)) y None = Some q).
Context (HQ : Q !! q = Some Ls) (HL : Ls !! p = Some (l1 ++ t :: l2)) (H0 : L q = 0).
Context (HS : Q !! SQ = Some Ss) (HSp : Ss !! p = Some ls) (HS0 : L SQ = 0).

Lemma queue_not_suspended : q <> SQ.
Proof. unfold resume_queue in Hq. intros ->. destruct Hst as [E|E]; rewrite E in Hq; case_match; discriminate. Qed.

Definition suspended_queues : gmap qid contents := <[SQ := <[p := ls ++ [t]]> Ss]> (<[q := <[p := l1 ++ l2]> Ls]> Q).

Lemma suspend_from_run : exists m', suspend_from t q s = Ok (0, put_qm m' s) /\ qview m' suspended_queues L /\
  nodes m' !! t = Some (Node (Some SQ) (Z.of_nat p) node_lt_pqueue).
Proof.
  pose proof queue_not_suspended as Hne.
  destruct (delete_locked_run _ _ _ Hv q Ls p l1 t l2 HQ HL H0) as (m1 & E1 & Hv1 & Hn1).
  destruct (append_locked_run m1 _ L Hv1 SQ Ss p ls t (Node None (Z.of_nat p) node_lt_nowhere)) as (m2 & E2 & Hv2 & Hn2);
    [by rewrite lookup_insert_ne|done|done|rewrite Hn1; apply lookup_insert_eq|done|done|].
  exists m2. split_and!; [|exact Hv2|rewrite Hn2; apply lookup_insert_eq]. unfold suspend_from.
  rewrite (bind_run _ _ s true s) by (eapply onq_read, contains_member; [exact Hv|exact HQ|exact HL|set_solver]). cbn [negb].
  rewrite (bind_run _ _ _ _ _ (onq_run _ _ _ _ E1)).
  by rewrite (bind_run _ _ _ _ _ (onq_run _ (put_qm m1 s) _ _ E2)).
Qed.

Lemma pth_suspend_run : pth_suspend nfuel (Some t) s = suspend_from t q s.
Proof.
  unfold pth_suspend. rewrite (bind_run _ _ s (n, d) s) by (by apply onw_same, my_descr_run). cbv beta iota.
  rewrite !bool_decide_eq_false_2 by (done || by eapply Hidle). cbn [orb].
  rewrite (bind_run get _ _ _ _ eq_refl). rewrite (bind_run _ _ s false s).
  2:{ apply runs_nowhere; [|lia]. intros i Hi. destruct (lookup_lt_is_Some_2 (natives (wo s)) i) as [di Hdi]; [lia|].
      exists di. split; [done|by eapply Hidle]. }
  rewrite (bind_run _ _ s y s) by (by apply onw_same, get_t_run). rewrite Hb. rewrite (bind_run (mret _) _ _ _ _ eq_refl).
  unfold resume_queue in Hq. destruct Hst as [E|E]; rewrite E in *; by injection Hq as <-.
Qed.

(** C13: a thread that is new or ready and does not run can be suspended, and
    resumed again.  The suspension moves it from the queue of its state to the
    queue of suspended threads, where the scheduler does not find it; resuming
    moves it back, to the second place of its priority, and gives up the native
    to it.  No other thread moves, and all locks are free. *)
Theorem suspend_resume :
  exists m1 s2, pth_suspend nfuel (Some t) s = Ok (0, put_qm m1 s) /\ qview m1 suspended_queues L /\
    pth_resume switch (Some t) (put_qm m1 s) = (switch;; mret 0) s2 /\
    qview (qm (wo s2)) (<[q := <[p := favored ((l1 ++ l2) ++ [t]) t]> Ls]> Q) L /\ threads (wo s2) = threads (wo s).
Proof.
  destruct suspend_from_run as (m1 & E1 & Hv1 & Hx1). exists m1. pose proof queue_not_suspended as Hne.
  destruct (delete_locked_run m1 suspended_queues L Hv1 SQ (<[p := ls ++ [t]]> Ss) p ls t []) as (m2 & E2 & Hv2 & Hn2);
    [apply lookup_insert_eq|by eapply list_insert_at|done|].
  rewrite app_nil_r, list_insert_insert_eq, list_insert_id in Hv2 by done. unfold suspended_queues in Hv2.
  rewrite insert_insert_eq, (insert_insert_ne _ SQ q), (insert_id Q SQ) in Hv2 by done.
  destruct (append_locked_run m2 _ L Hv2 q (<[p := l1 ++ l2]> Ls) p (l1 ++ l2) t (Node None (Z.of_nat p) node_lt_nowhere)) as (m3 & E3 & Hv3 & Hn3);
    [apply lookup_insert_eq|by eapply list_insert_at|done|rewrite Hn2; apply lookup_insert_eq|done|done|].
  rewrite insert_insert_eq, list_insert_insert_eq in Hv3.
  destruct (favor_locked_run m3 _ L Hv3 q (<[p := (l1 ++ l2) ++ [t]]> Ls) p (l1 ++ l2) t []) as (m4 & E4 & Hv4 & Hn4);
    [apply lookup_insert_eq|by eapply list_insert_at|done|]. rewrite insert_insert_eq, list_insert_insert_eq in Hv4.
  destruct (lock_free_run (tid d)) as [k Ek].
  exists (put_d n (set_sched_lock k d) (put_qm m4 s)).
  split; [by rewrite pth_suspend_run|]. split; [done|]. split; [|by split].
  unfold pth_resume. rewrite (bind_run _ _ (put_qm m1 s) (Some n) (put_qm m1 s)) by (by apply onw_same; rewrite <- Hself).
  rewrite (bind_run _ _ (put_qm m1 s) d (put_qm m1 s)) by (by apply onw_same, get_d_run).
  rewrite !bool_decide_eq_false_2 by (done || by eapply Hidle). cbn [orb].
  rewrite (bind_run _ _ (put_qm m1 s) true (put_qm m1 s)).
  2:{ eapply onq_read, contains_member; [exact Hv1|apply lookup_insert_eq|by eapply list_insert_at|set_solver]. }
  cbn [negb]. rewrite (bind_run _ _ _ _ _ (onq_run _ (put_qm m1 s) _ _ E2)).
  rewrite (bind_run _ _ (put_qm m2 s) y (put_qm m2 s)) by (by apply onw_same, get_t_run).
  rewrite (bind_run get _ _ _ _ eq_refl), Hb, (bind_run (mret _) _ _ _ _ eq_refl).
  cbv beta. change (pth_number_of_natives (wo (put_qm m2 s))) with (pth_number_of_natives (wo s)). rewrite Hq.
  rewrite (bind_run _ _ _ _ _ (onq_run _ (put_qm m2 s) _ _ E3)).
  rewrite <- Hfree in Ek. rewrite !put_qm_put.
  pose proof (yield_to_run switch (put_qm m3 s) n d t y m4 k Hself Hn Ek Hy Hb ltac:(by eapply Hidle) E4) as Ey.
  rewrite put_qm_put in Ey. unfold mbind at 1, M_bind at 1. rewrite Ey. unfold mbind, M_bind.
  by destruct (switch _) as [[]|].
Qed.
End suspend.

(** Two natives run the threads 7 and 8; the caller is on the second one. *)
Definition lib_demo (m : qmem) (ths : gmap nat pth_st) : sst :=
  SSt (World ths [a_native 100 7; a_native 101 8] (Some 1%nat) ∅ ∅ ∅ ∅ ∅ ∅ m 2 [] qlock_free [])
    (EMem ∅ ∅ ∅ [] ∅ false [] []) (MState ∅ ∅ ∅ pth_ring_init None []) ∅ ∅ ∅ 0 0 0 0 0 3 None 2.

Lemma lib_demo_idle m ths i di : natives (wo (lib_demo m ths)) !! i = Some di -> current di <> Some 1%nat.
Proof. destruct i as [|[|]]; cbn; intros [= <-]; done. Qed.

Lemma suspend_resume_witness :
  exists s m1 s2, pth_suspend 3 (Some 1%nat) s = Ok (0, put_qm m1 s) /\
    pth_resume (mret tt) (Some 1%nat) (put_qm m1 s) = Ok (0, s2).
Proof.
  destruct (one_queued [RQ; SQ] RQ) as (m & Hv & _); [by repeat constructor; set_solver|set_solver|].
  destruct (suspend_resume (mret tt) 3 (lib_demo m {[1%nat := a_thread]}) 1 1 (a_native 101 8) a_thread _ _ RQ 5
    (<[5%nat := [1%nat]]> empty_lists) empty_lists [] [] [] eq_refl eq_refl eq_refl (lookup_singleton_eq _ _) eq_refl ltac:(done)
    (lib_demo_idle m _) ltac:(cbn; lia) ltac:(cbn; lia) Hv ltac:(by right) eq_refl (lookup_insert_eq _ _ _))
    as (m1 & s2 & E1 & _ & E2 & _).
  - vm_compute; reflexivity.
  - reflexivity.
  - rewrite lookup_insert_ne by done. apply fresh_lists_at. set_solver.
  - vm_compute; reflexivity.
  - reflexivity.
  - eexists _, m1, s2. split; [exact E1|exact E2].
Defined.

(** ** Freeing a thread *)

(** The natives in use are those before [k]; each has the members the
    scheduler uses. *)
Definition natives_used (k : nat) (s : sst) : Prop :=
  (forall i, (i < k)%nat -> exists d, natives (wo s) !! i = Some d /\ is_used d = true /\ is_Some (dx s !! i)) /\ unused k (wo s).

Lemma natives_used_dx k s f : natives_used k s -> (forall i, is_Some (dx s !! i) -> is_Some (f !! i)) -> natives_used k (set_dx f s).
Proof.
  intros [H1 H2] Hf. split; [|exact H2]. intros i Hi. destruct (H1 i Hi) as (d & Hd & Hu & Hx). exists d. split_and!; [done|done|by apply Hf].
Qed.

Lemma wp_forget_timer k t tid' (R : unit -> sst -> Prop) : forall fuel i s, natives_used k s -> (i <= k)%nat -> (k - i < fuel)%nat ->
  (forall f, (forall i, is_Some (dx s !! i) -> is_Some (f !! i)) -> R tt (set_dx f s)) -> wp (forget_timer fuel i t tid') R s.
Proof.
  induction fuel as [|fuel IH]; intros i s Hs Hi Hf HR; [lia|]. cbn [forget_timer]. apply wp_bind.
  destruct (decide (i = k)) as [->|Hne].
  - destruct Hs as [_ (d & Hd & Hu)]. eapply wp_get_d; [done|]. rewrite Hu. apply wp_ret. specialize (HR (dx s) (fun _ H => H)). by destruct s.
  - destruct (proj1 Hs i) as (d & Hd & Hu & [x Hx]); [lia|]. eapply wp_get_d; [done|]. rewrite Hu. apply wp_bind.
    assert (get_dx i s = Ok (x, s)) as Eg by (unfold get_dx; by rewrite (bind_run get _ _ _ _ eq_refl), Hx).
    eapply wp_run; [exact Eg|]. apply wp_bind. destruct (_ && _).
    + unfold upd_dx. apply wp_bind. eapply wp_run; [exact Eg|]. apply wp_modify. apply IH; [|lia|lia|].
      * apply natives_used_dx; [done|]. intros j [z Hz]. rewrite lookup_insert. case_decide; by eexists.
      * intros f Hf'. apply HR. intros j [z Hz]. apply Hf'. cbn. rewrite lookup_insert. case_decide; by eexists.
    + apply wp_ret. apply IH; [done|lia|lia|done].
Qed.

Lemma wp_last_used k (R : nat -> sst -> Prop) : forall fuel i last s, natives_used k s -> (i <= k)%nat -> (k - i < fuel)%nat ->
  (i = 0%nat \/ (last < k)%nat) -> (forall l, (0 < k -> l < k)%nat -> (k = 0%nat -> l = last) -> R l s) -> wp (last_used fuel i last) R s.
Proof.
  induction fuel as [|fuel IH]; intros i last s Hs Hi Hf Hl HR; [lia|]. cbn [last_used]. apply wp_bind.
  destruct (decide (i = k)) as [->|Hne].
  - destruct Hs as [_ (d & Hd & Hu)]. eapply wp_get_d; [done|]. rewrite Hu. apply wp_ret. apply HR; [lia|done].
  - destruct (proj1 Hs i) as (d & Hd & Hu & _); [lia|]. eapply wp_get_d; [done|]. rewrite Hu. apply IH; try done; [lia|lia|by right; lia|].
    intros l H1 H2. apply HR; [done|lia].
Qed.

(** What freeing a thread leaves behind. *)
Record freed (t : nat) (s s' : sst) : Prop := {
  fr_threads : threads (wo s') = delete t (threads (wo s));
  fr_queues : qm (wo s') = qm (wo s);
  fr_natives : natives (wo s') = natives (wo s);
  fr_tx : tx s' = delete t (tx s);
  fr_um : um s' = um s;
  fr_count : pth_threads_count s' = pth_threads_count s - 1 }.

Section tcb_free.
Context (destroy : last_call -> nat -> M sst unit) (s : sst) (n k t : nat) (d : pth_descr_st) (y : pth_st) (xt : tcb) (w : option waddr).
Context (Hdes : forall c s, destroy c t s = Ok (tt, s)).
Context (Hself : self (wo s) = Some n) (Hn : natives (wo s) !! n = Some d) (Hk : natives_used k s) (Hnk : (n < k)%nat).
Context (Hy : threads (wo s) !! t = Some y) (Hl : tlock y = qlock_free) (Hb : boundnative y = None).
Context (Hx : tx s !! t = Some xt) (Hsc : is_scheduler xt = false) (Hexit : pth_exit_count s = 0).
Context (Hev : edata (evs s) !! t = None) (Hw : waits (wo s) !! WThread t = Some (Link None w)).

(** A thread that waits on no list and has no destructors to run. *)
Lemma wp_tcb_free (R : unit -> sst -> Prop) : (forall s', freed t s s' -> R tt s') -> wp (pth_tcb_free destroy (Some t)) R s.
Proof.
  intros HR. destruct (qlock_cycle (tid d)) as (q & Eq & Er). unfold pth_tcb_free.
  apply wp_bind. eapply wp_run; [by apply onw_same, my_descr_run|]. cbv beta iota.
  apply wp_bind, wp_onw. unfold lock_thread. apply wp_bind. eapply wp_run; [by apply get_t_run|]. apply wp_bind.
  rewrite Hl. eapply wp_of_res; [exact Eq|]. eapply wp_run; [by apply upd_t_run|].
  apply wp_bind. eapply wp_run; [apply Hdes|]. apply wp_bind, wp_get. cbn [set_wo evs]. rewrite Hev.
  apply wp_bind, wp_ret. apply wp_bind. eapply wp_run; [apply Hdes|].
  apply wp_bind. eapply wp_get_t; [apply lookup_insert_eq|]. cbn [set_tlock boundnative]. rewrite Hb.
  apply wp_bind, wp_ret. apply wp_bind, wp_onw. eapply wp_run.
  { unfold read_waits. cbn. unfold get_next, deref. rewrite Hw. reflexivity. }
  rewrite bool_decide_eq_true_2 by done. apply wp_bind, wp_ret. apply wp_bind, wp_onw. unfold unlock_thread. apply wp_bind.
  eapply wp_run; [apply get_t_run, lookup_insert_eq|]. eapply wp_run; [apply upd_t_run, lookup_insert_eq|].
  match goal with |- wp _ _ ?E => replace E with s end.
  2:{ cbn. rewrite Er, insert_insert_eq. replace (set_tlock qlock_free (set_tlock q y)) with y by (destruct y; cbn in *; by subst).
      rewrite insert_id by done. by destruct s as [[]]. }
  apply wp_bind, wp_get. cbv zeta. apply wp_bind. destruct (proj2 Hk) as (e & He & _). apply lookup_lt_Some in He.
  eapply wp_forget_timer; [exact Hk|lia|lia|]. intros f Hf. apply wp_bind.
  assert (wp (last_used (S (length (natives (wo s)))) 0 n) (fun l s' => (l < k)%nat /\ s' = set_dx f s) (set_dx f s)) as Hlast.
  { apply wp_last_used with (k := k); [by apply natives_used_dx|lia|lia|by left|]. intros l H1 _. split; [lia|done]. }
  eapply wp_mono; [exact Hlast|]. intros l s1 [Hlk ->]. apply wp_bind. eapply wp_run.
  { unfold get_x. rewrite (bind_run get _ _ _ _ eq_refl). cbn. rewrite Hx. reflexivity. }
  rewrite Hsc. apply wp_bind, wp_bind. eapply wp_upd_t; [exact Hy|]. apply wp_modify. apply wp_bind, wp_get.
  destruct (proj1 Hk l Hlk) as (dl & Hdl & _). apply wp_bind. eapply wp_get_d; [exact Hdl|]. cbn [set_pth_threads_count put_threads set_wo pth_exit_count].
  rewrite (bool_decide_eq_false_2 (_ > 0)) by (cbn; lia). apply wp_bind, wp_ret. apply wp_bind, wp_modify. apply wp_modify.
  apply HR. split; cbn; try done. by rewrite delete_insert_eq.
Qed.
End tcb_free.

(** ** Joining a thread that has ended *)

Section join.
Context (switch : M sst unit) (popall : nat -> M sst unit) (destroy : last_call -> nat -> M sst unit) (mfuel efuel join_key : nat).
Context (s : sst) (n k t : nat) (d : pth_descr_st) (y : pth_st) (xt : tcb) (w : option waddr).
Context (Hdes : forall c s, destroy c t s = Ok (tt, s)).
Context (Hself : self (wo s) = Some n) (Hn : natives (wo s) !! n = Some d) (Hk : natives_used k s) (Hnk : (n < k)%nat).
Context (Hy : threads (wo s) !! t = Some y) (Hl : tlock y = qlock_free) (Hb : boundnative y = None).
Context (Hx : tx s !! t = Some xt) (Hsc : is_scheduler xt = false) (Hexit : pth_exit_count s = 0).
Context (Hev : edata (evs s) !! t = None) (Hw : waits (wo s) !! WThread t = Some (Link None w)).
Context (Q : gmap qid contents) (L : qid -> Z) (p : nat) (Ds : contents) (l1 l2 : list nat).
Context (Hv : qview (qm (wo s)) Q L) (HD : Q !! DQ = Some Ds) (HDp : Ds !! p = Some (l1 ++ t :: l2)) (HD0 : L DQ = 0).

(** C12: joining a thread that is dead and that nobody else joins succeeds: the
    value it ended with is stored for the caller, and the thread is taken from
    the queue of dead threads and freed.  The other dead threads stay, and the
    queue is not locked. *)
Theorem join_dead value :
  current d <> Some t -> magic y = true -> joinable y <> 0 -> state y = PTH_STATE_DEAD -> joined_count y = 0 ->
  pth_threads_count s <> 1 -> value <> 0 -> value ∈ dom (um s) ->
  exists s', pth_join switch popall destroy mfuel efuel join_key (Some t) value s = Ok (Some 0, s') /\
    um s' !! value = Some (join_arg y) /\ threads (wo s') = delete t (threads (wo s)) /\
    pth_threads_count s' = pth_threads_count s - 1 /\ qview (qm (wo s')) (<[DQ := <[p := l1 ++ l2]> Ds]> Q) L.
Proof.
  intros Hc Hm Hj Hst Hjc Hcnt Hv0 [u Hu]%elem_of_dom.
  set (Post := fun (r : option Z) s' => r = Some 0 /\ um s' !! value = Some (join_arg y) /\ threads (wo s') = delete t (threads (wo s)) /\
    pth_threads_count s' = pth_threads_count s - 1 /\ qview (qm (wo s')) (<[DQ := <[p := l1 ++ l2]> Ds]> Q) L).
  assert (wp (pth_join switch popall destroy mfuel efuel join_key (Some t) value) Post s) as Hwp;
    [|apply wp_elim in Hwp as (r & s' & E & -> & ?); by exists s'].
  unfold pth_join. apply wp_bind. eapply wp_run; [by apply onw_same, my_descr_run|]. cbv beta iota.
  rewrite bool_decide_eq_false_2 by congruence. apply wp_bind, wp_ret. apply wp_bind, wp_onq.
  eapply wq_lock; [exact Hv|by eexists|exact HD0|]. intros m1 Hv1 Hn1. apply wp_bind. unfold thread_exists. apply wp_bind.
  eapply wp_get_t; [exact Hy|]. apply wp_ret. rewrite Hm. cbn [negb]. apply wp_bind. eapply wp_get_t; [exact Hy|].
  apply wp_bind, wp_get. rewrite (bool_decide_eq_false_2 (joinable y = 0)) by done.
  rewrite bool_decide_eq_false_2 by exact Hcnt. rewrite bool_decide_eq_true_2 by done.
  apply wp_bind. unfold join_reap. apply wp_bind. eapply wp_run; [eapply onq_read, contains_member; [exact Hv1|exact HD|exact HDp|set_solver]|].
  cbn [negb]. apply wp_bind. eapply wp_get_t; [exact Hy|]. rewrite Hjc. cbv zeta. change (swrap 32 (0 - 1)) with (-1).
  apply wp_bind. eapply wp_upd_t; [exact Hy|]. rewrite bool_decide_eq_false_2 by lia. rewrite bool_decide_eq_true_2 by done. cbn [negb].
  rewrite bool_decide_eq_false_2 by done. apply wp_bind. eapply wp_run.
  { unfold user_write. rewrite (bind_run get _ _ _ _ eq_refl). cbn. rewrite Hu. reflexivity. }
  apply wp_bind, wp_onq. eapply (wq_delete m1 Q _ Hv1 DQ Ds p l1 t l2 _ HD HDp). intros m2 Hv2 Hn2.
  apply wp_bind, wp_onq. eapply wq_unlock; [exact Hv2|rewrite lookup_insert_eq; by eexists|]. intros m3 Hv3 Hn3.
  apply wp_bind. eapply (wp_tcb_free destroy _ n k t d (set_joined_count (-1) y) xt w);
    [exact Hdes|exact Hself|exact Hn|exact Hk|exact Hnk|apply lookup_insert_eq|exact Hl|exact Hb|exact Hx|exact Hsc|exact Hexit|exact Hev|exact Hw|].
  intros s' [F1 F2 F3 F4 F5 F6]. apply wp_ret, wp_ret. unfold Post. split_and!; [done| | | |].
  - rewrite F5. apply lookup_insert_eq.
  - rewrite F1. cbn. by rewrite delete_insert_eq.
  - by rewrite F6.
  - rewrite F2. eapply qview_ext; [exact Hv3|]. intros q _. symmetry. by apply upd_lock_back.
Qed.
End join.

(** Thread 1 is dead and ended with the value 77. *)
Definition dead_demo (m : qmem) : sst :=
  SSt (World {[1%nat := set_join_arg 77 (set_state PTH_STATE_DEAD a_thread)]} [a_native 100 7; a_native 101 8; set_is_used false (a_native 102 9)]
      (Some 1%nat) ∅ ∅ ∅ ∅ ∅ {[WThread 1 := Link None None]} m 2 [] qlock_free [])
    (EMem ∅ ∅ ∅ [] ∅ false [] []) (MState ∅ ∅ ∅ pth_ring_init None []) {[1%nat := Tcb None 0 0 0 0 None 0 0 None 0 false]}
    {[0%nat := Dcb None 0 0; 1%nat := Dcb None 0 0]} {[16 := 0]} 0 0 0 0 0 3 None 2.

Lemma dead_demo_used m : natives_used 2 (dead_demo m).
Proof.
  split; [|by eexists]. intros i Hi. assert (i = 0%nat \/ i = 1%nat) as [->| ->] by lia; eexists; (split; [reflexivity|]); split; [done|by eexists..].
Qed.

Lemma join_dead_witness :
  exists s s', pth_join (mret tt) (fun _ => mret tt) (fun _ _ => mret tt) 1 1 0 (Some 1%nat) 16 s = Ok (Some 0, s') /\ um s' !! 16 = Some 77.
Proof.
  destruct (one_queued [DQ] DQ) as (m & Hv & _); [by repeat constructor; set_solver|set_solver|].
  destruct (join_dead (mret tt) (fun _ => mret tt) (fun _ _ => mret tt) 1 1 0 (dead_demo m) 1 2 1 (a_native 101 8)
    (set_join_arg 77 (set_state PTH_STATE_DEAD a_thread)) (Tcb None 0 0 0 0 None 0 0 None 0 false) None
    ltac:(done) eq_refl eq_refl (dead_demo_used m) ltac:(lia) (lookup_singleton_eq _ _) eq_refl eq_refl (lookup_singleton_eq _ _) eq_refl
    eq_refl eq_refl (lookup_singleton_eq _ _) _ _ 5 (<[5%nat := [1%nat]]> empty_lists) [] [] Hv (lookup_insert_eq _ _ _)
    ltac:(vm_compute; reflexivity) eq_refl 16) as (s' & E & Hu & _).
  1-7: done.
  - cbn. set_solver.
  - exists (dead_demo m), s'. by split.
Defined.

(** ** Cancellation *)

(** A thread that holds no mutex has none to release. *)
Lemma releaseall_none_run w n d t y mfuel : self w = Some n -> natives w !! n = Some d -> threads w !! t = Some y ->
  tlock y = qlock_free -> mutex_owned y = None -> r_hook (mutexring y) = None -> pth_mutex_releaseall mfuel (Some t) w = Ok (tt, w).
Proof.
  intros Hs Hd Hy Hl Ho Hr. destruct (qlock_cycle (tid d)) as (q & Eq & Er). unfold pth_mutex_releaseall.
  rewrite (bind_run _ _ _ _ _ (my_descr_run _ _ _ Hs Hd)). cbv beta iota. unfold lock_thread.
  set (w1 := set_threads (<[t := set_tlock q y]> (threads w)) w).
  erewrite (bind_run _ _ w tt w1).
  2:{ rewrite (bind_run _ _ _ _ _ (get_t_run _ _ _ Hy)), Hl. rewrite (bind_run _ _ w q w) by (by rewrite Eq). by rewrite (upd_t_run _ _ _ _ Hy). }
  assert (threads w1 !! t = Some (set_tlock q y)) as H1 by apply lookup_insert_eq.
  rewrite (bind_run _ _ _ _ _ (get_t_run _ _ _ H1)). cbn [set_tlock mutex_owned]. rewrite Ho, (bind_run (mret tt) _ _ _ _ eq_refl).
  rewrite (bind_run _ _ _ _ _ (get_t_run _ _ _ H1)). cbn [set_tlock mutexring]. unfold pth_ring_first. rewrite Hr.
  rewrite (bind_run _ _ w1 tt w1) by (by destruct mfuel).
  rewrite (bind_run _ _ _ _ _ (my_descr_run w1 _ _ Hs Hd)). cbv beta iota. unfold unlock_thread.
  rewrite (bind_run _ _ _ _ _ (get_t_run _ _ _ H1)), (upd_t_run _ _ _ _ H1). do 2 f_equal. unfold w1. cbn.
  rewrite insert_insert_eq, Er. replace (set_tlock qlock_free (set_tlock q y)) with y by (destruct y; cbn in *; by subst).
  rewrite insert_id by done. by destruct w.
Qed.

Lemma active_run s Q L Ds : qview (qm (wo s)) Q L -> Q !! DQ = Some Ds ->
  pth_active_threads s = Ok (pth_threads_count s - Z.of_nat (length (concat Ds)), s).
Proof.
  intros Hv HD.
  assert (wp (pth_active_threads) (fun a s' => a = pth_threads_count s - Z.of_nat (length (concat Ds)) /\ s' = s) s) as H.
  { unfold pth_active_threads. apply wp_bind, wp_get. apply wp_bind, wp_onq. eapply wq_total; [exact Hv|exact HD|].
    rewrite put_qm_id. apply wp_ret. by split. }
  apply wp_elim in H as (a & s' & E & -> & ->). exact E.
Qed.

Lemma put_threads_run s t y f : threads (wo s) !! t = Some y -> onw (upd_t t f) s = Ok (tt, put_threads (<[t := f y]> (threads (wo s))) s).
Proof. intros Hy. unfold onw, zoom. by rewrite (upd_t_run _ _ _ _ Hy). Qed.
Lemma put_threads_put a b s : put_threads a (put_threads b s) = put_threads a s.
Proof. reflexivity. Qed.

(** The end of a thread that is not the last one, nor the main thread: it has no
    cleanup handlers and holds no mutex. *)
Lemma exit_run popall mfuel s n t d y k Q L Ds v :
  self (wo s) = Some n -> natives (wo s) !! n = Some d -> threads (wo s) !! t = Some y -> current d = Some t ->
  tlock y = qlock_free -> mutex_owned y = None -> r_hook (mutexring y) = None -> (forall s, popall t s = Ok (tt, s)) ->
  _pth_acquire_lock (tid d) (sched_lock d) = Ok k -> qview (qm (wo s)) Q L -> Q !! DQ = Some Ds ->
  pth_main s <> Some t -> pth_threads_count s - Z.of_nat (length (concat Ds)) > 1 -> state y <> PTH_STATE_DEAD ->
  pth_exit popall mfuel v false s =
    Ok (Thread_exit, put_d n (set_sched_lock k d) (put_threads (<[t := set_state PTH_STATE_EXIT (set_join_arg v y)]> (threads (wo s))) s)).
Proof.
  intros Hs Hd Hy Hc Hl Ho Hr Hp Ek Hv HD Hm Ha Hst. unfold pth_exit.
  rewrite (bind_run _ _ s (n, d) s) by (by apply onw_same, my_descr_run). cbv beta iota.
  rewrite Hc, (bind_run (of_option BadDeref (Some t)) _ s t s eq_refl), (bind_run get _ _ _ _ eq_refl).
  rewrite (bind_run _ _ _ _ _ (active_run s Q L Ds Hv HD)).
  rewrite (bool_decide_eq_false_2 (pth_main s = Some t)), (bool_decide_eq_true_2 (_ > 1)) by done. cbn [andb orb negb].
  rewrite (bind_run _ _ s y s) by (by apply onw_same, get_t_run). rewrite bool_decide_eq_false_2 by done.
  set (y1 := set_join_arg v y). set (s1 := put_threads (<[t := y1]> (threads (wo s))) s).
  set (s2 := put_threads (<[t := set_state PTH_STATE_EXIT y1]> (threads (wo s))) s).
  rewrite (bind_run _ _ s tt s2).
  2:{ rewrite (bind_run _ _ s tt s).
      2:{ unfold pth_thread_cleanup. rewrite (bind_run _ _ _ _ _ (Hp s)). by apply onw_same, (releaseall_none_run _ n d t y). }
      rewrite (bind_run _ _ _ _ _ (put_threads_run s t y _ Hy)).
      rewrite (put_threads_run s1 t y1) by apply lookup_insert_eq. unfold s1. rewrite put_threads_put. cbn [wo threads put_threads set_wo set_threads].
      by rewrite insert_insert_eq. }
  rewrite (bind_run _ _ s2 (n, d) s2) by (by apply onw_same, my_descr_run). cbv beta iota.
  by rewrite (bind_run _ _ _ _ _ (lock_sched_run s2 n d (tid d) k Hd Ek)).
Qed.

Section cancel.
Context (switch : M sst unit) (popall : nat -> M sst unit) (destroy : last_call -> nat -> M sst unit) (mfuel : nat).
Context (s : sst) (n t : nat) (d : pth_descr_st) (y : pth_st).
Context (Hself : self (wo s) = Some n) (Hn : natives (wo s) !! n = Some d) (Hy : threads (wo s) !! t = Some y).

(** the cancellation of a thread that is not bound to a native and whose
    cancellation is deferred or disabled only leaves a request with it: whatever
    state the thread is in, nothing else changes; of a thread that has ended, or
    that has a request already, nothing changes at all. *)
Theorem cancel_deferred : magic y = true -> boundnative y = None ->
  flag (cancelstate y) PTH_CANCEL_ENABLE && flag (cancelstate y) PTH_CANCEL_ASYNCHRONOUS = false ->
  pth_cancel popall destroy mfuel (Some t) s =
    Ok (Some true, if bool_decide (state y = PTH_STATE_DEAD) || cancelreq y then s
                   else put_threads (<[t := set_cancelreq true y]> (threads (wo s))) s).
Proof.
  intros Hm Hb Hc. unfold pth_cancel. rewrite (bind_run _ _ s (n, d) s) by (by apply onw_same, my_descr_run). cbv beta iota.
  rewrite (bind_run _ _ s true s).
  2:{ unfold thread_exists. rewrite (bind_run _ _ s y s) by (by apply onw_same, get_t_run). by rewrite Hm. }
  cbn [negb]. rewrite (bind_run _ _ s y s) by (by apply onw_same, get_t_run). destruct (_ || _) eqn:E; [done|].
  rewrite (bind_run _ _ s tt (put_threads (<[t := set_cancelreq true y]> (threads (wo s))) s)).
  2:{ unfold onw, zoom. by rewrite (upd_t_run _ _ _ _ Hy). }
  rewrite Hb, (bind_run (mret None) _ _ _ _ eq_refl), (bind_run (mret tt) _ _ _ _ eq_refl). by rewrite Hc.
Qed.

Context (Hcur : current d = Some t) (Hl : tlock y = qlock_free) (Ho : mutex_owned y = None) (Hr : r_hook (mutexring y) = None).
Context (Hpop : forall s, popall t s = Ok (tt, s)) (Hsl : sched_lock d = qlock_free).
Context (Q : gmap qid contents) (L : qid -> Z) (Ds : contents) (Hv : qview (qm (wo s)) Q L) (HD : Q !! DQ = Some Ds).
Context (Hmain : pth_main s <> Some t) (Hact : pth_threads_count s - Z.of_nat (length (concat Ds)) > 1) (Hlive : state y <> PTH_STATE_DEAD).

(** C14: at a cancellation point the running thread ends if, and only if, there
    is a request and cancellation is enabled: it is marked as ended with the
    value PTH_CANCELED, the request is withdrawn, so that cleanup handlers with
    cancellation points do not start over, and the scheduler takes over with its
    lock held.  Otherwise the thread goes on; the native is told to poll for
    events next time if the caller asks for it. *)
Theorem cancel_point_acts set_yield :
  exists k, _pth_acquire_lock (tid d) qlock_free = Ok k /\ pth_cancel_point popall mfuel set_yield s =
    if cancelreq y && flag (cancelstate y) PTH_CANCEL_ENABLE then
      Ok (true, put_d n (set_sched_lock k d) (put_threads (<[t := set_state PTH_STATE_EXIT (set_join_arg PTH_CANCELED
                            (set_cancelreq false y))]> (threads (wo s))) s))
    else Ok (false, if set_yield then put_d n (set_do_yield true d) s else s).
Proof.
  destruct (lock_free_run (tid d)) as [k Ek]. exists k. split; [exact Ek|]. rewrite <- Hsl in Ek.
  unfold pth_cancel_point. rewrite (bind_run _ _ s (n, d) s) by (by apply onw_same, my_descr_run). cbv beta iota.
  rewrite Hcur, (bind_run (of_option BadDeref (Some t)) _ s t s eq_refl). rewrite (bind_run _ _ s y s) by (by apply onw_same, get_t_run).
  destruct (_ && _) eqn:E.
  - rewrite (bind_run _ _ _ _ _ (put_threads_run s t y _ Hy)).
    set (s1 := put_threads (<[t := set_cancelreq false y]> (threads (wo s))) s).
    rewrite (bind_run _ _ s1 Thread_exit
      (put_d n (set_sched_lock k d) (put_threads (<[t := set_state PTH_STATE_EXIT (set_join_arg PTH_CANCELED (set_cancelreq false y))]> (threads (wo s1))) s1))).
    2:{ apply (exit_run popall mfuel s1 n t d (set_cancelreq false y) k Q L Ds); try done. apply lookup_insert_eq. }
    unfold s1. rewrite put_threads_put. cbn [wo threads put_threads set_wo set_threads]. by rewrite insert_insert_eq.
  - destruct set_yield; [|by rewrite (bind_run (mret tt) _ _ _ _ eq_refl)].
    rewrite (bind_run _ _ s tt (put_d n (set_do_yield true d) s)); [done|]. unfold onw, zoom. by rewrite (upd_d_run _ n d _ Hn).
Qed.
End cancel.

Lemma cancel_deferred_witness :
  exists s, pth_cancel (fun _ => mret tt) (fun _ _ => mret tt) 1 (Some 1%nat) s =
    Ok (Some true, put_threads (<[1%nat := set_cancelreq true a_thread]> (threads (wo s))) s).
Proof.
  destruct (one_queued [DQ] DQ) as (m & Hv & _); [by repeat constructor; set_solver|set_solver|].
  exists (lib_demo m {[1%nat := a_thread]}).
  exact (cancel_deferred (fun _ => mret tt) (fun _ _ => mret tt) 1 (lib_demo m {[1%nat := a_thread]}) 1 1 (a_native 101 8) a_thread
    eq_refl eq_refl (lookup_singleton_eq _ _) eq_refl eq_refl eq_refl).
Defined.

(** Thread 8 runs, and has been cancelled. *)
Definition canceled_thread : pth_st := set_cancelreq true a_thread.

Lemma cancel_point_acts_witness :
  exists s s', pth_cancel_point (fun _ => mret tt) 1 true s = Ok (true, s') /\
    threads (wo s') !! 8%nat = Some (set_state PTH_STATE_EXIT (set_join_arg PTH_CANCELED (set_cancelreq false canceled_thread))).
Proof.
  destruct (one_queued [DQ] DQ) as (m & Hv & _); [by repeat constructor; set_solver|set_solver|].
  set (s := lib_demo m {[8%nat := canceled_thread]}).
  destruct (cancel_point_acts (fun _ => mret tt) 1 s 1 8 (a_native 101 8) canceled_thread
    eq_refl eq_refl (lookup_singleton_eq _ _) eq_refl eq_refl eq_refl eq_refl ltac:(done) eq_refl _ _ _ Hv (lookup_insert_eq _ _ _)
    ltac:(done) ltac:(vm_compute; reflexivity) ltac:(done) true) as (k & _ & E).
  exists s. eexists. split; [exact E|]. cbn. apply lookup_insert_eq.
Defined.
