(* ===== verification/SpawnProofs.v ===== *)
(** * Creating threads: proofs

    [pth_spawn] of pth_lib.c (see Lib), where it makes no new native: the
    attributes of the new thread and its place in the queues. *)

From S2P Require Import Prelude Bitmap Dll LinkedList Ring Priorities Msg PQueue Futex World Sync Event Time Util Sched Attr Lib.
From S2P Require Import MutexProofs Wake SchedProofs EventMgr LibProofs.

(** ** The memory of a new control block *)

(** The node of a new thread is in no queue. *)
Definition add_node (t : nat) (p : Z) (m : qmem) : qmem :=
  QMem (<[ANode t := Link (Some (ANode t)) (Some (ANode t))]> (links m)) (<[t := Node None p node_lt_nowhere]> (nodes m)) (queues m).

Lemma add_node_view m Q L t p : qview m Q L -> nodes m !! t = None -> Z.of_nat (size (nodes m)) + 1 < 2 ^ 32 ->
  qview (add_node t p m) Q L.
Proof.
  intros [Hi Hl _] Ht Hsz. assert (forall q k, ~ member Q q k t) as Hno.
  { intros q k Hm. apply (inv_member _ _ Hi) in Hm. by rewrite Ht in Hm. }
  split; [split| |].
  - apply Hi.
  - intros q Ls k l HQ HL. eapply ring_agree, (inv_ring _ _ Hi); [|exact HQ|exact HL].
    intros b Hb. cbn. apply lookup_insert_ne. intros <-.
    apply elem_of_cons in Hb as [|(t' & [= ->] & Ht')%list_elem_of_fmap]; [done|]. apply (Hno q k). by exists Ls, l.
  - intros q k u Hm. cbn. rewrite lookup_insert_ne by (intros ->; by eapply Hno). by apply (inv_member _ _ Hi).
  - intros u n. cbn. destruct (decide (t = u)) as [<-|Hne].
    + rewrite !lookup_insert_eq. intros [= <-]. split; [by eexists|by left].
    + rewrite !lookup_insert_ne by congruence. apply (inv_node _ _ Hi).
  - apply Hl.
  - cbn. rewrite map_size_insert_None by done. lia.
Qed.

(** The state in which the new thread [t] has the control block [y], [x], [z],
    and its node is in the queue memory [m]. *)
Definition newborn (s : ast) (t : nat) (y : pth_st) (x : tcb) (z : tattr) (m : qmem) (c : Z) : ast :=
  set_ta (<[t := z]> (ta s)) (set_ss (set_pth_threads_count c (set_wo (set_threads (<[t := y]> (threads (wo (ss s)))) (set_qm m (wo (ss s))))
    (set_tx (<[t := x]> (tx (ss s))) (ss s)))) s).

Section newborn.
Context (s : ast) (t : nat) (y : pth_st) (x : tcb) (z : tattr) (m : qmem) (c : Z).

Lemma upd_th_run f : upd_th t f (newborn s t y x z m c) = Ok (tt, newborn s t (f y) x z m c).
Proof.
  unfold upd_th, ona, onw, zoom. rewrite (upd_t_run _ t y f) by apply lookup_insert_eq. unfold newborn. cbn. by rewrite insert_insert_eq.
Qed.

Lemma upd_tx_run f : upd_tx t f (newborn s t y x z m c) = Ok (tt, newborn s t y (f x) z m c).
Proof.
  unfold upd_tx, ona, zoom, upd_x, get_x. unfold mbind, M_bind, get, modify, of_option. cbn. rewrite lookup_insert_eq. unfold newborn. cbn.
  by rewrite insert_insert_eq.
Qed.

Lemma upd_ta_run f : upd_ta t f (newborn s t y x z m c) = Ok (tt, newborn s t y x (f z) m c).
Proof.
  unfold upd_ta, get_ta. unfold mbind, M_bind, get, modify, of_option. cbn. rewrite lookup_insert_eq. unfold newborn. cbn.
  by rewrite insert_insert_eq.
Qed.

Lemma get_ta_run : get_ta t (newborn s t y x z m c) = Ok (z, newborn s t y x z m c).
Proof. unfold get_ta, mbind, M_bind, get, of_option. cbn. by rewrite lookup_insert_eq. Qed.

Lemma count_up_run c' : ona (modify (fun s => set_pth_threads_count (pth_threads_count s + c') s)) (newborn s t y x z m c) =
  Ok (tt, newborn s t y x z m (c + c')).
Proof. reflexivity. Qed.
End newborn.

Lemma ona_same {A} (c : M sst A) s a : c (ss s) = Ok (a, ss s) -> ona c s = Ok (a, s).
Proof. unfold ona, zoom. intros ->. by destruct s. Qed.

Lemma with_thread_read {A} w t y tid' (c : M world A) a : threads w !! t = Some y -> tlock y = qlock_free ->
  (forall w', threads w' !! t = Some (set_tlock (tlock (default y (threads w' !! t))) y) -> c w' = Ok (a, w')) ->
  with_thread t tid' c w = Ok (a, w).
Proof.
  intros Hy Hl Hc. destruct (qlock_cycle tid') as (k & Ek & Er). unfold with_thread, lock_thread, unlock_thread.
  set (w1 := set_threads (<[t := set_tlock k y]> (threads w)) w). assert (threads w1 !! t = Some (set_tlock k y)) as H1 by apply lookup_insert_eq.
  rewrite (bind_run _ _ w tt w1).
  2:{ rewrite (bind_run _ _ _ _ _ (get_t_run _ _ _ Hy)), Hl, (bind_run _ _ w k w) by (by rewrite Ek). by rewrite (upd_t_run _ _ _ _ Hy). }
  rewrite (bind_run c _ w1 a w1) by (apply Hc; by rewrite H1).
  rewrite (bind_run _ _ w1 tt w); [done|]. rewrite (bind_run _ _ _ _ _ (get_t_run _ _ _ H1)), (upd_t_run _ _ _ _ H1). unfold w1. cbn.
  rewrite insert_insert_eq, Er. replace (set_tlock qlock_free (set_tlock k y)) with y by (destruct y; cbn in *; by subst).
  rewrite insert_id by done. by destruct w.
Qed.

(** One call that changes the new thread only. *)
Ltac newborn_step :=
  first
    [ rewrite (bind_run _ _ _ _ _ (upd_th_run _ _ _ _ _ _ _ _))
    | rewrite (bind_run _ _ _ _ _ (upd_tx_run _ _ _ _ _ _ _ _))
    | rewrite (bind_run _ _ _ _ _ (upd_ta_run _ _ _ _ _ _ _ _))
    | rewrite (bind_run _ _ _ _ _ (get_ta_run _ _ _ _ _ _ _))
    | rewrite (bind_run _ _ _ _ _ (count_up_run _ _ _ _ _ _ _ _)) ].

(** ** Creating a thread *)

Section spawn_proofs.
Context (switch : M sst unit) (destroy : last_call -> nat -> M sst unit).
Context (pth_default_stacksize pth_threads_per_native : Z) (time_now : sst -> Z).
Context (new_native : Z -> option nat -> M ast (option nat)) (child_name : list Z).
(** The caller runs thread [c] on native [n]; its attribute object is [a]; the
    memory for the control block and the stack is there. *)
Context (s : ast) (n c a : nat) (d : pth_descr_st) (yc : pth_st) (xc : tcb) (zc : tattr) (x : pth_attr_st) (b : tcb_block) (stk : Z).
Context (Hself : self (wo (ss s)) = Some n) (Hn : natives (wo (ss s)) !! n = Some d) (Hcur : current d = Some c).
Context (Hyc : threads (wo (ss s)) !! c = Some yc) (Hlc : tlock yc = qlock_free).
Context (Hxc : tx (ss s) !! c = Some xc) (Hzc : ta s !! c = Some zc) (Ha : attrs s !! a = Some x).
Context (Hnew : b_id b <> c) (Hstk : a_stackaddr x = 0) (Hblk : b_stack b = Some stk) (Hsz : 0 < a_stacksize x).
Notation t := (b_id b).

(** The link of the new thread for the wait lists. *)
Definition base : ast :=
  set_ss (set_wo (set_waits (<[WThread t := Link None (b_wprev b)]> (waits (wo (ss s)))) (wo (ss s))) (ss s)) s.

Definition fresh_pth : pth_st :=
  set_tlock qlock_free (set_boundnative None (set_joined_native None (set_joined_count 0
    (set_joined_thread None (set_waited_native None (set_mutex_owned None (set_should_suspend false (b_pth b)))))))).
Definition fresh_tcb : tcb := set_lastrannative 0 (set_stackguard (Some true) (b_tcb b)).
Definition fresh_attr : tattr :=
  set_tstacksize (if bool_decide (a_stacksize x < SIGSTKSZ) then SIGSTKSZ else a_stacksize x) (set_tstack stk (b_attr b)).

Lemma fresh_stacksize : 0 < tstacksize fresh_attr.
Proof. unfold fresh_attr, SIGSTKSZ. cbn. case_bool_decide; lia. Qed.

Lemma tcb_alloc_run : pth_tcb_alloc (Some b) (a_stacksize x) (a_stackaddr x) s =
  Ok (Some t, newborn base t fresh_pth fresh_tcb fresh_attr (add_node t (b_prio b) (qm (wo (ss s)))) (pth_threads_count (ss s))).
Proof.
  pose proof fresh_stacksize as Hf. unfold pth_tcb_alloc. rewrite (bool_decide_eq_true_2 (0 < a_stacksize x)) by done. cbn [andb].
  change (if bool_decide (a_stacksize x < SIGSTKSZ) then SIGSTKSZ else a_stacksize x) with (tstacksize fresh_attr).
  rewrite (bool_decide_eq_true_2 (0 < tstacksize fresh_attr)) by done.
  rewrite Hstk, (bool_decide_eq_false_2 (0 <> 0)) by lia. rewrite Hblk. reflexivity.
Qed.

(** The policy, the priority and the scope of the new thread. *)
Definition new_sched : Z * Z * Z :=
  if bool_decide (a_inheritsched x = 0)
  then (a_schedpolicy x, wrap 8 (xprio_to_iprio (a_schedpolicy x) (a_prio x) 0).1, a_scope x)
  else (schedpolicy yc, prio yc, tscope zc).

Definition new_pth (y : pth_st) : pth_st :=
  set_cancelstate (a_cancelstate x) (set_joinable (a_joinable x) (set_prio new_sched.1.2 (set_schedpolicy new_sched.1.1 y))).

Context (text junk : list Z) (Htext : a_name x = text ++ 0 :: junk) (Hnz : Forall (fun k => k <> 0) text).
Context (Hname : length (tname (b_attr b)) = PTH_TCB_NAMELEN).

Definition new_name : list Z := take 15 text ++ 0 :: drop (S (length (take 15 text))) (tname (b_attr b)).

Lemma attributes_run m k : spawn_attributes child_name (Some a) t (Some c) (tid d) (newborn base t fresh_pth fresh_tcb fresh_attr m k) =
  Ok ((new_sched.2, a_suspendstate x), newborn base t (new_pth fresh_pth) fresh_tcb (set_tname new_name (set_tscope new_sched.2 fresh_attr)) m k).
Proof.
  unfold spawn_attributes. set (s0 := newborn base t fresh_pth fresh_tcb fresh_attr m k).
  rewrite (bind_run _ _ s0 x s0) by (unfold get_a, mbind, M_bind, get, of_option; cbn; by rewrite Ha).
  rewrite (bind_run _ _ s0 new_sched.2
    (newborn base t (set_prio new_sched.1.2 (set_schedpolicy new_sched.1.1 fresh_pth)) fresh_tcb (set_tscope new_sched.2 fresh_attr) m k)).
  - do 2 newborn_step. newborn_step. cbn [tname set_tscope]. rewrite Htext.
    rewrite (cpystrn_spec (tname fresh_attr) text junk) by (done || (cbn; rewrite Hname; unfold PTH_TCB_NAMELEN; lia)).
    rewrite (bind_run (of_res (Ok _)) _ _ _ _ eq_refl). cbv beta iota.
    newborn_step. reflexivity.
  - unfold new_sched. case_bool_decide; unfold s0.
    + do 3 newborn_step. reflexivity.
    + rewrite (bind_run _ _ s0 zc s0).
      2:{ unfold get_ta, mbind, M_bind, get, of_option. cbn. rewrite lookup_insert_ne by done. by rewrite Hzc. }
      rewrite (bind_run _ _ s0 yc s0).
      2:{ apply ona_same, onw_same, get_t_run. cbn. by rewrite lookup_insert_ne. }
      unfold s0. do 2 newborn_step.
      rewrite (bind_run _ _ _ (prio yc) (newborn base t (set_schedpolicy (schedpolicy yc) fresh_pth) fresh_tcb (set_tscope (tscope zc) fresh_attr) m k)).
      * newborn_step. reflexivity.
      * apply ona_same, onw_same, (with_thread_read _ _ yc); [cbn; by rewrite lookup_insert_ne|done|].
        intros w' Hw'. unfold __thread_prio_get. by rewrite (bind_run _ _ _ _ _ (get_t_run _ _ _ Hw')).
Qed.

Definition born_tcb (now : Z) : tcb :=
  set_is_scheduler false (set_sigthread None (set_sigpendcnt 0 (set_sigpending 0 (set_sigactionmask (sigactionmask xc)
    (set_events None (set_running 0 (set_lastran now fresh_tcb))))))).

Lemma init_run func arg y z m k :
  spawn_init time_now t (Some c) func arg false (newborn base t y fresh_tcb z m k) =
    Ok (tt, newborn base t (set_mutexring pth_ring_init (set_cancelreq false (set_join_arg 0 y)))
              (born_tcb (time_now (ss (newborn base t y fresh_tcb z m k)))) (set_start_arg arg (set_start_func func z)) m k).
Proof.
  unfold spawn_init. rewrite (bind_run get _ _ _ _ eq_refl). do 3 newborn_step.
  set (s1 := newborn base t y _ z m k). rewrite (bind_run _ _ s1 (sigactionmask xc) s1).
  2:{ rewrite (bind_run _ _ s1 xc s1); [reflexivity|].
      apply ona_same. unfold get_x, mbind, M_bind, get, of_option. cbn. rewrite lookup_insert_ne by done. by rewrite Hxc. }
  unfold s1. do 9 newborn_step. rewrite upd_th_run. reflexivity.
Qed.

Context (Q : gmap qid contents) (L : qid -> Z) (Ds Ls : contents) (p : nat) (l : list nat).
Context (Hv : qview (qm (wo (ss s))) Q L) (Hfresh : nodes (qm (wo (ss s))) !! t = None).
Context (Hsize : Z.of_nat (size (nodes (qm (wo (ss s))))) + 1 < 2 ^ 32) (HD : Q !! DQ = Some Ds).

(** No further native is to be created. *)
Context (Hfull : pth_max_native_threads (ss s) <= 1 \/ pth_max_native_threads (ss s) <= pth_number_of_natives (wo (ss s))).

Lemma native_run y z x1 m k v : qview m Q L -> spawn_native switch pth_threads_per_native new_native v PTH_SCOPE_PROCESS (newborn base t y x1 z m k) =
  Ok (true, newborn base t y x1 z m k).
Proof.
  intros Hm. unfold spawn_native. rewrite (bind_run get _ _ _ _ eq_refl).
  rewrite (bind_run _ _ _ _ _ (ona_same _ _ _ (active_run (ss (newborn base t y x1 z m k)) Q L Ds Hm HD))).
  cbv zeta. change (pth_max_native_threads (ss (newborn base t y x1 z m k))) with (pth_max_native_threads (ss s)).
  change (pth_number_of_natives (wo (ss (newborn base t y x1 z m k)))) with (pth_number_of_natives (wo (ss s))).
  destruct Hfull as [H|H].
  - by rewrite (bool_decide_eq_false_2 (_ > 1)) by lia.
  - rewrite (bool_decide_eq_false_2 (_ < pth_max_native_threads _)) by lia. by rewrite !andb_false_r.
Qed.

(** The queue of the new thread. *)
Definition new_queue : qid :=
  if bool_decide (a_suspendstate x = 1) then SQ else if bool_decide (pth_max_native_threads (ss s) = 1) then NewQ n else NQ.
Context (HQ : Q !! new_queue = Some Ls) (Hlock : L new_queue = 0) (Hp : b_prio b = Z.of_nat p) (Hl : Ls !! p = Some l).
Context (Hscope : new_sched.2 = PTH_SCOPE_PROCESS).

Lemma enqueue_run y x1 z k : boundnative y = None ->
  exists m, spawn_enqueue t new_queue (tid d) (newborn base t y x1 z (add_node t (b_prio b) (qm (wo (ss s)))) k) =
    Ok (tt, newborn base t (set_state PTH_STATE_NEW y) x1 z m k) /\ qview m (<[new_queue := <[p := l ++ [t]]> Ls]> Q) L.
Proof.
  intros Hb. destruct (append_locked_run (add_node t (b_prio b) (qm (wo (ss s)))) Q L (add_node_view _ _ _ _ _ Hv Hfresh Hsize)
    new_queue Ls p l t (Node None (b_prio b) node_lt_nowhere) HQ Hl Hlock (lookup_insert_eq _ _ _)) as (m & E & Hm & _); [done..|].
  exists m. split; [|exact Hm]. unfold spawn_enqueue. newborn_step.
  rewrite (bind_run _ _ _ tt (newborn base t (set_state PTH_STATE_NEW y) x1 z m k)).
  2:{ unfold ona, zoom. erewrite onq_run by exact E. reflexivity. }
  rewrite (bind_run _ _ _ (set_state PTH_STATE_NEW y) (newborn base t (set_state PTH_STATE_NEW y) x1 z m k)).
  2:{ apply ona_same, onw_same, get_t_run, lookup_insert_eq. }
  cbn [boundnative set_state]. by rewrite Hb.
Qed.

(** C11: [pth_spawn] with an attribute object, where no native is created,
    returns the new thread.  It has the policy, the priority and the scope of
    the attributes, or, when the attributes do not say 0 for the inheritance, of
    the creating thread; it is joinable and cancellable as the attributes say,
    has its name cut at 15 characters, no signal pending and the creator's
    signal mask.  It is the last of its priority in the queue of new threads, or
    of suspended threads: but that priority is whatever was in the memory of the
    control block, not the priority the thread was given.  The thread is
    counted, no other thread changes, and all locks are free. *)
Theorem spawn_enqueues func arg :
  exists s' y x1 z,
    pth_spawn switch destroy pth_default_stacksize pth_threads_per_native time_now new_native true child_name (Some b) (Some a) func arg false s =
      Ok (Some t, s') /\
    threads (wo (ss s')) = <[t := y]> (threads (wo (ss s))) /\ tx (ss s') = <[t := x1]> (tx (ss s)) /\ ta s' = <[t := z]> (ta s) /\
    qview (qm (wo (ss s'))) (<[new_queue := <[p := l ++ [t]]> Ls]> Q) L /\
    pth_threads_count (ss s') = pth_threads_count (ss s) + 1 /\
    state y = PTH_STATE_NEW /\ magic y = true /\ boundnative y = None /\ (schedpolicy y, prio y, tscope z) = new_sched /\
    joinable y = a_joinable x /\ cancelstate y = a_cancelstate x /\ cancelreq y = false /\ mutex_owned y = None /\ tlock y = qlock_free /\
    tname z = new_name /\ start_func z = func /\ start_arg z = arg /\
    sigactionmask x1 = sigactionmask xc /\ sigpending x1 = 0 /\ events x1 = None.
Proof.
  set (z := set_start_arg arg (set_start_func func (set_tname new_name (set_tscope new_sched.2 fresh_attr)))).
  pose proof (init_run func arg (new_pth fresh_pth) (set_tname new_name (set_tscope new_sched.2 fresh_attr)) (add_node t (b_prio b) (qm (wo (ss s))))
    (pth_threads_count (ss s))) as Ei. set (x1 := born_tcb _) in Ei.
  set (y := set_magic true (set_mutexring pth_ring_init (set_cancelreq false (set_join_arg 0 (new_pth fresh_pth))))).
  set (x2 := set_mctx_sigs (kmask (ss s)) x1).
  destruct (enqueue_run y x2 z (pth_threads_count (ss s) + 1) eq_refl) as (m & Ee & Hm).
  exists (newborn base t (set_state PTH_STATE_NEW y) x2 z m (pth_threads_count (ss s) + 1)), (set_state PTH_STATE_NEW y), x2, z.
  split; [|split_and!; try done; unfold y, z, new_pth; cbn; by destruct new_sched as [[]]].
  unfold pth_spawn. rewrite (bind_run _ _ s (a_stacksize x, a_stackaddr x) s).
  2:{ rewrite (bind_run _ _ s x s) by (unfold get_a, mbind, M_bind, get, of_option; by rewrite Ha). done. }
  cbv beta iota. rewrite (bind_run _ _ _ _ _ tcb_alloc_run).
  rewrite (bind_run _ _ _ (n, d) (newborn base t fresh_pth fresh_tcb fresh_attr (add_node t (b_prio b) (qm (wo (ss s)))) (pth_threads_count (ss s)))).
  2:{ by apply ona_same, onw_same, my_descr_run. }
  cbv beta iota zeta. rewrite Hcur, (bind_run _ _ _ _ _ (attributes_run _ _)). cbv beta iota.
  rewrite (bind_run _ _ _ _ _ Ei), (bind_run get _ _ _ _ eq_refl). newborn_step. fold z.
  change (tstacksize z) with (tstacksize fresh_attr). pose proof fresh_stacksize as Hf.
  rewrite (bool_decide_eq_true_2 (0 < _)) by done. cbn [andb negb]. do 2 newborn_step. newborn_step. fold y.
  change (kmask (ss (newborn _ _ _ _ _ _ _))) with (kmask (ss s)). fold x2.
  change (pth_max_native_threads (ss (newborn _ _ _ _ _ _ _))) with (pth_max_native_threads (ss s)). rewrite Hscope.
  rewrite (bool_decide_eq_true_2 (PTH_SCOPE_PROCESS = PTH_SCOPE_PROCESS)) by done.
  rewrite (bind_run _ _ _ _ _ (native_run _ _ _ _ _ _ (add_node_view _ _ _ _ _ Hv Hfresh Hsize))). cbn [negb].
  rewrite (bind_run _ _ _ (n, d) (newborn base t y x2 z (add_node t (b_prio b) (qm (wo (ss s)))) (pth_threads_count (ss s) + 1))).
  2:{ by apply ona_same, onw_same, my_descr_run. }
  cbv beta iota. fold new_queue. rewrite (bind_run _ _ _ _ _ Ee). reflexivity.
Qed.
End spawn_proofs.

(** Thread 8 creates thread 2 with an attribute object that asks for the policy
    SCHED_FIFO and priority 40, and for explicit scheduling. *)
Definition fifo_attr : pth_attr_st := Attr None 40 1 PTHREAD_EXPLICIT_SCHED [97; 98; 0] 1 9 65536 0 0 PTH_SCOPE_PROCESS.
Definition junk_tcb : tcb := Tcb None 7 7 7 7 None 7 7 None 7 true.
Definition raw_block : tcb_block := TcbBlock 2 a_thread junk_tcb (TAttr (replicate 16 65) 7 7 7 7 7 7) 3 None (Some 4096).
Definition spawn_demo (m : qmem) : ast :=
  ASt (SSt (World {[8%nat := a_thread]} [a_native 100 7; a_native 101 8] (Some 1%nat) ∅ ∅ ∅ ∅ ∅ ∅ m 2 [] qlock_free [])
    (EMem ∅ ∅ ∅ [] ∅ false [] []) (MState ∅ ∅ ∅ pth_ring_init None []) {[8%nat := junk_tcb]} ∅ ∅ 0 0 0 0 0 3 None 1)
    {[8%nat := TAttr (replicate 16 65) 0 PTH_SCOPE_PROCESS 65536 4096 7 7]} {[1%nat := fifo_attr]} ∅ ∅ [].

Lemma spawn_enqueues_witness :
  exists s s' y z, pth_spawn (mret tt) (fun _ _ => mret tt) 64 1 (fun _ => 0) (fun _ _ => mret None) true [] (Some raw_block) (Some 1%nat) 16 17 false s =
      Ok (Some 2%nat, s') /\ threads (wo (ss s')) !! 2%nat = Some y /\ (schedpolicy y, prio y, tscope z) = (SCHED_OTHER, 5, PTH_SCOPE_PROCESS).
Proof.
  destruct (fresh_queues [NewQ 1; DQ] []) as (m & Hv & Hn); [by repeat constructor; set_solver|simpl; lia|].
  destruct (spawn_enqueues (mret tt) (fun _ _ => mret tt) 64 1 (fun _ => 0) (fun _ _ => mret None) [] (spawn_demo m) 1 8 1 (a_native 101 8)
    a_thread junk_tcb (TAttr (replicate 16 65) 0 PTH_SCOPE_PROCESS 65536 4096 7 7) fifo_attr raw_block 4096
    eq_refl eq_refl eq_refl (lookup_singleton_eq _ _) eq_refl (lookup_singleton_eq _ _) (lookup_singleton_eq _ _) (lookup_singleton_eq _ _)
    ltac:(done) eq_refl eq_refl ltac:(done) [97; 98] [] eq_refl ltac:(by repeat constructor) eq_refl (fresh_lists [NewQ 1; DQ]) (fun _ => 0)
    empty_lists empty_lists 3 [] Hv ltac:(cbn; by rewrite Hn) ltac:(cbn; by rewrite Hn)
    (fresh_lists_at [NewQ 1; DQ] DQ ltac:(set_solver)) ltac:(by left) (fresh_lists_at [NewQ 1; DQ] (NewQ 1) ltac:(set_solver))
    eq_refl eq_refl eq_refl eq_refl 16 17) as (s' & y & x1 & z & E & Ht & _ & _ & _ & _ & _ & _ & _ & Hs & _).
  exists (spawn_demo m), s', y, z. split; [exact E|]. split; [rewrite Ht; apply lookup_insert_eq|exact Hs].
Defined.
