(* ===== verification/Posix.v ===== *)
(** * The POSIX interface: synchronisation objects (pthread.c, semaphore.c)

    The objects of the program are handles: a [pthread_mutex_t] points to a
    [pth_mutex_t], which is allocated when the handle is initialised, or at the
    first use of a handle with a static initialiser.  A semaphore is a counter
    with a mutex and a condition variable.

    The state is that of Sync, with the handles and the memory the allocator will
    answer with.  When the running thread sleeps, other threads run: the list
    [pothers] says what they do to the handles and semaphores, one entry for
    each time the thread sleeps, next to [env] of Sync. *)

From S2P Require Import Prelude Bitmap Dll LinkedList Ring Priorities PQueue Futex World Sync.

Definition OK : Z := 0.
Definition ENOSYS : Z := 38.
Definition EAGAIN : Z := 11.
Definition ETIMEDOUT : Z := 110.
Definition PTHREAD_MUTEX_NORMAL : Z := 0.
Definition PTHREAD_MUTEX_RECURSIVE : Z := 1.
Definition PTHREAD_PROCESS_PRIVATE : Z := 0.
Definition PTHREAD_PROCESS_SHARED : Z := 1.
Definition PTHREAD_MUTEX_STALL_NP : Z := 0.
Definition PTHREAD_MUTEX_ROBUST_NP : Z := 64.
Definition SEM_VALUE_MAX : Z := 2 ^ 31 - 1.

(** ** Data *)

Record pthread_mutex_st : Set := PMutex {
  pm_mutex : option nat;
  pm_init : Z;
  pm_kind : Z;
  pm_init_lock : Z }.

Definition set_pm_mutex (v : option nat) (x : pthread_mutex_st) : pthread_mutex_st := PMutex v (pm_init x) (pm_kind x) (pm_init_lock x).
Definition set_pm_init (v : Z) (x : pthread_mutex_st) : pthread_mutex_st := PMutex (pm_mutex x) v (pm_kind x) (pm_init_lock x).
Definition set_pm_kind (v : Z) (x : pthread_mutex_st) : pthread_mutex_st := PMutex (pm_mutex x) (pm_init x) v (pm_init_lock x).
Definition set_pm_init_lock (v : Z) (x : pthread_mutex_st) : pthread_mutex_st := PMutex (pm_mutex x) (pm_init x) (pm_kind x) v.

Record pthread_cond_st : Set := PCond {
  pc_cond : option nat;
  pc_init : Z }.

Definition set_pc_cond (v : option nat) (x : pthread_cond_st) : pthread_cond_st := PCond v (pc_init x).
Definition set_pc_init (v : Z) (x : pthread_cond_st) : pthread_cond_st := PCond (pc_cond x) v.

Record sem_t : Set := Sem {
  sem_value : Z;
  sem_waiting : option (nat * nat) }.

Definition set_sem_value (v : Z) (x : sem_t) : sem_t := Sem v (sem_waiting x).
Definition set_sem_waiting (v : option (nat * nat)) (x : sem_t) : sem_t := Sem (sem_value x) v.

(** [struct pth_mutexattr_st]; a [pthread_mutexattr_t] is a pointer to it. *)
Record mutexattr : Set := MutexAttr {
  ma_type : Z;
  ma_priority : Z;
  ma_protocol : Z;
  ma_pshared : Z;
  ma_robustness : Z }.

Definition set_ma_type (v : Z) (x : mutexattr) : mutexattr := MutexAttr v (ma_priority x) (ma_protocol x) (ma_pshared x) (ma_robustness x).
Definition set_ma_priority (v : Z) (x : mutexattr) : mutexattr := MutexAttr (ma_type x) v (ma_protocol x) (ma_pshared x) (ma_robustness x).
Definition set_ma_protocol (v : Z) (x : mutexattr) : mutexattr := MutexAttr (ma_type x) (ma_priority x) v (ma_pshared x) (ma_robustness x).
Definition set_ma_pshared (v : Z) (x : mutexattr) : mutexattr := MutexAttr (ma_type x) (ma_priority x) (ma_protocol x) v (ma_robustness x).
Definition set_ma_robustness (v : Z) (x : mutexattr) : mutexattr := MutexAttr (ma_type x) (ma_priority x) (ma_protocol x) (ma_pshared x) v.

(** The members [rw_init] of read-write locks are here, the others are in the
    [pth_rwlock_st] of the same address. *)
Record pobjs : Set := PObjs {
  pmx : gmap nat pthread_mutex_st;
  pcn : gmap nat pthread_cond_st;
  rw_init : gmap nat Z;
  sems : gmap nat sem_t }.

Definition set_pmx (v : gmap nat pthread_mutex_st) (x : pobjs) : pobjs := PObjs v (pcn x) (rw_init x) (sems x).
Definition set_pcn (v : gmap nat pthread_cond_st) (x : pobjs) : pobjs := PObjs (pmx x) v (rw_init x) (sems x).
Definition set_rw_init (v : gmap nat Z) (x : pobjs) : pobjs := PObjs (pmx x) (pcn x) v (sems x).
Definition set_sems (v : gmap nat sem_t) (x : pobjs) : pobjs := PObjs (pmx x) (pcn x) (rw_init x) v.

(** [mavars]: variables of type [pthread_mutexattr_t]; [ivars]: variables of type
    [int], [pthread_condattr_t] and [pthread_rwlockattr_t].  [mx_mem] to
    [sem_mem]: the next answers of [pth_malloc] for each kind of object, NULL or
    an address with the contents of the memory there; [timed]: whether the next
    timed waits time out.  [starting]: the library is being initialised or shut
    down. *)
Record px : Type := Px {
  sy : sys;
  ob : pobjs;
  pothers : list (pobjs -> pobjs);
  mattrs : gmap nat mutexattr;
  mavars : gmap nat (option nat);
  ivars : gmap nat Z;
  mx_mem : list (option (nat * pth_mutex_st));
  cn_mem : list (option (nat * pth_cond_st));
  ma_mem : list (option nat);
  sem_mem : list (option ((nat * pthread_mutex_st) * (nat * pthread_cond_st)));
  timed : list bool;
  mutex_index : nat;
  init_lock : pth_qlock_st;
  starting : bool;
  errno : Z }.

Definition set_sy (v : sys) (x : px) : px := Px v (ob x) (pothers x) (mattrs x) (mavars x) (ivars x) (mx_mem x) (cn_mem x) (ma_mem x) (sem_mem x) (timed x) (mutex_index x) (init_lock x) (starting x) (errno x).
Definition set_ob (v : pobjs) (x : px) : px := Px (sy x) v (pothers x) (mattrs x) (mavars x) (ivars x) (mx_mem x) (cn_mem x) (ma_mem x) (sem_mem x) (timed x) (mutex_index x) (init_lock x) (starting x) (errno x).
Definition set_pothers (v : list (pobjs -> pobjs)) (x : px) : px := Px (sy x) (ob x) v (mattrs x) (mavars x) (ivars x) (mx_mem x) (cn_mem x) (ma_mem x) (sem_mem x) (timed x) (mutex_index x) (init_lock x) (starting x) (errno x).
Definition set_mattrs (v : gmap nat mutexattr) (x : px) : px := Px (sy x) (ob x) (pothers x) v (mavars x) (ivars x) (mx_mem x) (cn_mem x) (ma_mem x) (sem_mem x) (timed x) (mutex_index x) (init_lock x) (starting x) (errno x).
Definition set_mavars (v : gmap nat (option nat)) (x : px) : px := Px (sy x) (ob x) (pothers x) (mattrs x) v (ivars x) (mx_mem x) (cn_mem x) (ma_mem x) (sem_mem x) (timed x) (mutex_index x) (init_lock x) (starting x) (errno x).
Definition set_ivars (v : gmap nat Z) (x : px) : px := Px (sy x) (ob x) (pothers x) (mattrs x) (mavars x) v (mx_mem x) (cn_mem x) (ma_mem x) (sem_mem x) (timed x) (mutex_index x) (init_lock x) (starting x) (errno x).
Definition set_mx_mem (v : list (option (nat * pth_mutex_st))) (x : px) : px := Px (sy x) (ob x) (pothers x) (mattrs x) (mavars x) (ivars x) v (cn_mem x) (ma_mem x) (sem_mem x) (timed x) (mutex_index x) (init_lock x) (starting x) (errno x).
Definition set_cn_mem (v : list (option (nat * pth_cond_st))) (x : px) : px := Px (sy x) (ob x) (pothers x) (mattrs x) (mavars x) (ivars x) (mx_mem x) v (ma_mem x) (sem_mem x) (timed x) (mutex_index x) (init_lock x) (starting x) (errno x).
Definition set_ma_mem (v : list (option nat)) (x : px) : px := Px (sy x) (ob x) (pothers x) (mattrs x) (mavars x) (ivars x) (mx_mem x) (cn_mem x) v (sem_mem x) (timed x) (mutex_index x) (init_lock x) (starting x) (errno x).
Definition set_sem_mem (v : list (option ((nat * pthread_mutex_st) * (nat * pthread_cond_st)))) (x : px) : px := Px (sy x) (ob x) (pothers x) (mattrs x) (mavars x) (ivars x) (mx_mem x) (cn_mem x) (ma_mem x) v (timed x) (mutex_index x) (init_lock x) (starting x) (errno x).
Definition set_timed (v : list bool) (x : px) : px := Px (sy x) (ob x) (pothers x) (mattrs x) (mavars x) (ivars x) (mx_mem x) (cn_mem x) (ma_mem x) (sem_mem x) v (mutex_index x) (init_lock x) (starting x) (errno x).
Definition set_mutex_index (v : nat) (x : px) : px := Px (sy x) (ob x) (pothers x) (mattrs x) (mavars x) (ivars x) (mx_mem x) (cn_mem x) (ma_mem x) (sem_mem x) (timed x) v (init_lock x) (starting x) (errno x).
Definition set_init_lock (v : pth_qlock_st) (x : px) : px := Px (sy x) (ob x) (pothers x) (mattrs x) (mavars x) (ivars x) (mx_mem x) (cn_mem x) (ma_mem x) (sem_mem x) (timed x) (mutex_index x) v (starting x) (errno x).
Definition set_starting (v : bool) (x : px) : px := Px (sy x) (ob x) (pothers x) (mattrs x) (mavars x) (ivars x) (mx_mem x) (cn_mem x) (ma_mem x) (sem_mem x) (timed x) (mutex_index x) (init_lock x) v (errno x).
Definition set_errno (v : Z) (x : px) : px := Px (sy x) (ob x) (pothers x) (mattrs x) (mavars x) (ivars x) (mx_mem x) (cn_mem x) (ma_mem x) (sem_mem x) (timed x) (mutex_index x) (init_lock x) (starting x) v.

(** ** Access *)

Definition blocking {A} (c : M sys A) : M px A :=
  fun s => match c (sy s) with
           | Ok (a, y) =>
               let k := (length (env (sy s)) - length (env y))%nat in
               Ok (a, set_sy y (set_ob (foldl (fun o f => f o) (ob s) (take k (pothers s))) (set_pothers (drop k (pothers s)) s)))
           | Err e => Err e
           end.
Definition onx {A} (c : M world A) : M px A := blocking (lift c).

Definition get_pm (m : nat) : M px pthread_mutex_st := s ← get; of_option BadDeref (pmx (ob s) !! m).
Definition upd_pm (m : nat) (f : pthread_mutex_st -> pthread_mutex_st) : M px unit :=
  x ← get_pm m; modify (fun s => set_ob (set_pmx (<[m := f x]> (pmx (ob s))) (ob s)) s).
Definition get_pc (c : nat) : M px pthread_cond_st := s ← get; of_option BadDeref (pcn (ob s) !! c).
Definition upd_pc (c : nat) (f : pthread_cond_st -> pthread_cond_st) : M px unit :=
  x ← get_pc c; modify (fun s => set_ob (set_pcn (<[c := f x]> (pcn (ob s))) (ob s)) s).
Definition get_rwi (r : nat) : M px Z := s ← get; of_option BadDeref (rw_init (ob s) !! r).
Definition put_rwi (r : nat) (v : Z) : M px unit :=
  get_rwi r;; modify (fun s => set_ob (set_rw_init (<[r := v]> (rw_init (ob s))) (ob s)) s).
Definition get_sem (x : nat) : M px sem_t := s ← get; of_option BadDeref (sems (ob s) !! x).
Definition upd_sem (x : nat) (f : sem_t -> sem_t) : M px unit :=
  y ← get_sem x; modify (fun s => set_ob (set_sems (<[x := f y]> (sems (ob s))) (ob s)) s).
Definition get_ma (a : nat) : M px mutexattr := s ← get; of_option BadDeref (mattrs s !! a).
Definition upd_ma (a : nat) (f : mutexattr -> mutexattr) : M px unit :=
  x ← get_ma a; modify (fun s => set_mattrs (<[a := f x]> (mattrs s)) s).
Definition read_mavar (v : nat) : M px (option nat) := s ← get; of_option BadDeref (mavars s !! v).
Definition write_mavar (v : nat) (a : option nat) : M px unit := modify (fun s => set_mavars (<[v := a]> (mavars s)) s).
Definition read_int (v : nat) : M px Z := s ← get; of_option BadDeref (ivars s !! v).
Definition write_int (v : option nat) (x : Z) : M px unit :=
  v ← of_option BadDeref v; read_int v;; modify (fun s => set_ivars (<[v := x]> (ivars s)) s).

(** The next answer of the allocator. *)
Definition next_of {A} (get_l : px -> list A) (set_l : list A -> px -> px) : M px A :=
  s ← get;
  match get_l s with
  | [] => fail Undefined
  | a :: rest => modify (set_l rest);; mret a
  end.

Definition malloc_mutex : M px (option nat) :=
  p ← next_of mx_mem set_mx_mem;
  match p with
  | None => mret None
  | Some (m, junk) => onx (modify (fun w => set_mutexes (<[m := junk]> (mutexes w)) w));; mret (Some m)
  end.
Definition free_mutex (m : nat) : M px unit :=
  onx (get_m m);; onx (modify (fun w => set_mutexes (delete m (mutexes w)) w)).
Definition malloc_cond : M px (option nat) :=
  p ← next_of cn_mem set_cn_mem;
  match p with
  | None => mret None
  | Some (c, junk) => onx (modify (fun w => set_conds (<[c := junk]> (conds w)) w));; mret (Some c)
  end.
Definition free_cond (c : nat) : M px unit :=
  onx (get_c c);; onx (modify (fun w => set_conds (delete c (conds w)) w)).

(** ** Mutex attributes *)

Definition pthread_mutexattr_init (attr : option nat) : M px Z :=
  match attr with
  | None => mret EINVAL
  | Some v =>
      a ← next_of ma_mem set_ma_mem;
      match a with
      | None => mret ENOMEM
      | Some a =>
          modify (fun s => set_mattrs (<[a := MutexAttr PTHREAD_MUTEX_NORMAL 0 0 PTHREAD_PROCESS_PRIVATE PTHREAD_MUTEX_STALL_NP]> (mattrs s)) s);;
          write_mavar v (Some a);;
          mret OK
      end
  end.

(** [if (attr == NULL || *attr == NULL) return EINVAL; a = *attr;] *)
Definition with_mattr (attr : option nat) (f : nat -> M px Z) : M px Z :=
  match attr with
  | None => mret EINVAL
  | Some v => p ← read_mavar v; match p with None => mret EINVAL | Some a => f a end
  end.

(** The last assignment of the function sets its parameter to NULL, not the
    variable of the caller. *)
Definition pthread_mutexattr_destroy (attr : option nat) : M px Z :=
  with_mattr attr (fun a => get_ma a;; modify (fun s => set_mattrs (delete a (mattrs s)) s);; mret OK).

Definition set_member (attr : option nat) (f : Z -> mutexattr -> mutexattr) (v : Z) : M px Z :=
  with_mattr attr (fun a => upd_ma a (f v);; mret OK).
(** The pointer for the result is tested after the attribute. *)
Definition get_member (attr : option nat) (f : mutexattr -> Z) (p : option nat) : M px Z :=
  with_mattr attr (fun a => match p with
                            | None => mret EINVAL
                            | Some _ => x ← get_ma a; write_int p (f x);; mret OK
                            end).

Definition pthread_mutexattr_setprioceiling (attr : option nat) (prioceiling : Z) : M px Z := set_member attr set_ma_priority prioceiling.
Definition pthread_mutexattr_getprioceiling (attr prioceiling : option nat) : M px Z := get_member attr ma_priority prioceiling.
Definition pthread_mutexattr_setprotocol (attr : option nat) (protocol : Z) : M px Z := set_member attr set_ma_protocol protocol.
Definition pthread_mutexattr_getprotocol (attr protocol : option nat) : M px Z := get_member attr ma_protocol protocol.
Definition pthread_mutexattr_setpshared (attr : option nat) (ps : Z) : M px Z := set_member attr set_ma_pshared ps.
Definition pthread_mutexattr_getpshared (attr ps : option nat) : M px Z := get_member attr ma_pshared ps.
Definition pthread_mutexattr_settype (attr : option nat) (type : Z) : M px Z := set_member attr set_ma_type type.
Definition pthread_mutexattr_gettype (attr type : option nat) : M px Z := get_member attr ma_type type.
Definition pthread_mutexattr_setrobust_np (attr : option nat) (robustness : Z) : M px Z :=
  with_mattr attr (fun a =>
    if negb (bool_decide (robustness = PTHREAD_MUTEX_STALL_NP)) && negb (bool_decide (robustness = PTHREAD_MUTEX_ROBUST_NP))
    then mret EINVAL else upd_ma a (set_ma_robustness robustness);; mret OK).
Definition pthread_mutexattr_getrobust_np (attr robustness : option nat) : M px Z := get_member attr ma_robustness robustness.

Definition pthread_mutex_consistent_np (mutex : option nat) : M px Z :=
  match mutex with
  | None => mret EINVAL
  | Some mu =>
      h ← get_pm mu;
      match pm_mutex h with
      | None => mret EINVAL
      | Some m =>
          x ← onx (get_m m);
          if flag (mx_state x) PTH_MUTEX_NOT_CONSISTENT then
            onx (upd_m m (fun x => set_mx_state (clear_flag (mx_state x) PTH_MUTEX_NOT_CONSISTENT) x));; mret OK
          else mret EINVAL
      end
  end.

(** ** Mutexes *)

Section mutexes.
(** The other processes; the addresses of the array [init_mutex]; the address of
    the parameter [mutex] of [pthread_mutex_init], which is the owner of the
    initialisation lock. *)
Context (alive : Z -> bool) (init_mutex : nat -> nat) (frame : Z) (fuel : nat).

Definition lock_init : M px unit :=
  s ← get; k ← of_res (_pth_acquire_lock frame (init_lock s)); modify (set_init_lock k).
Definition unlock_init : M px unit :=
  modify (fun s => set_init_lock (_pth_release_lock frame (init_lock s)).2 s).

(** [m = &init_mutex[mutex_index++]], if there is one left *)
Definition static_slot : M px nat :=
  s ← get;
  if bool_decide (mutex_index s < 100)%nat then
    modify (fun s => set_mutex_index (S (mutex_index s)) s);; mret (init_mutex (mutex_index s))
  else fail Aborted.

(** The attributes for [pth_mutex_init]; [pshared] is an [int] there, every
    value but 0 asks for a shared mutex. *)
Definition pattr_of (x : mutexattr) : pth_mutexattr_st :=
  MAttr (ma_type x) (negb (bool_decide (ma_pshared x = 0))) (ma_robustness x).

(** The memory of a mutex that is not a static one: the result is the mutex, or
    what [pthread_mutex_init] returns. *)
Definition mutex_memory (h : pthread_mutex_st) (pattr : option mutexattr) : M px (nat + Z) :=
  match pattr with
  | Some x =>
      if bool_decide (ma_pshared x = PTHREAD_PROCESS_SHARED) then
        found ← (match pm_mutex h with
                 | Some m =>
                     if bool_decide (pm_init h = 1) then
                       e ← onx (pth_find_shared_mutex m);
                       mret (if (e : bool) then Some m else None)
                     else mret None
                 | None => mret None
                 end);
        match found with
        | Some m =>
            if bool_decide (ma_robustness x = PTHREAD_MUTEX_ROBUST_NP) then
              onx (upd_m m (fun y => if flag (mx_state y) PTH_MUTEX_NOT_CONSISTENT
                                     then set_mx_state (clear_flag (mx_state y) PTH_MUTEX_NOT_CONSISTENT) y else y));;
              mret (inr OK)
            else mret (inl m)
        | None =>
            m ← onx pth_alloc_shared_mutex;
            mret (match m with Some m => inl m | None => inr ENOMEM end)
        end
      else m ← malloc_mutex; mret (match m with Some m => inl m | None => inr ENOMEM end)
  | None => m ← malloc_mutex; mret (match m with Some m => inl m | None => inr ENOMEM end)
  end.

Definition pthread_mutex_init (mutex : option nat) (attr : option nat) : M px Z :=
  pattr ← (match attr with None => mret None | Some v => read_mavar v end);
  match mutex with
  | None => mret EINVAL
  | Some mu =>
      lock_init;;
      s ← get;
      pattr ← (match pattr with None => mret None | Some a => x ← get_ma a; mret (Some x) end);
      if negb (starting s) then
        r ← (if bool_decide (qcount (init_lock s) > 1) then m ← static_slot; mret (inl m)
             else h ← get_pm mu; mutex_memory h pattr);
        unlock_init;;
        match r with
        | inr rc => mret rc
        | inl m =>
            ok ← onx (pth_mutex_init (Some m) (pattr_of <$> pattr));
            if negb ok then mret EINVAL
            else upd_pm mu (set_pm_init 1);; upd_pm mu (set_pm_mutex (Some m));; mret OK
        end
      else
        m ← static_slot;
        unlock_init;;
        ok ← onx (pth_mutex_init (Some m) (pattr_of <$> pattr));
        if negb ok then mret EINVAL
        else
          onx (upd_m m (fun x => set_mx_state (set_flag (mx_state x) PTH_MUTEX_INTERNAL_LOCKED) x));;
          upd_pm mu (set_pm_init 1);;
          upd_pm mu (set_pm_mutex (Some m));;
          mret OK
  end.

(** [mutex->mx_mutex == NULL || mutex->mx_init == 0] *)
Definition uninit (h : pthread_mutex_st) : bool := bool_decide (pm_mutex h = None) || bool_decide (pm_init h = 0).
Definition known_kind (h : pthread_mutex_st) : bool :=
  bool_decide (pm_kind h = PTHREAD_MUTEX_NORMAL) || bool_decide (pm_kind h = PTHREAD_MUTEX_RECURSIVE).

(** [pthread_mutex_init], and the type from the handle. *)
Definition init_kind (mu : nat) : M px bool :=
  r ← pthread_mutex_init (Some mu) None;
  if bool_decide (r = OK) then
    h ← get_pm mu;
    (if bool_decide (pm_kind h = PTHREAD_MUTEX_RECURSIVE) then
       m ← of_option BadDeref (pm_mutex h); onx (upd_m m (set_mx_type PTHREAD_MUTEX_RECURSIVE))
     else mret tt);;
    mret true
  else mret false.

(** A handle with a static initialiser is initialised at its first use, under a
    lock; the result: whether there is a mutex now. *)
Definition first_use (mu : nat) : M px bool :=
  h ← get_pm mu;
  if negb (uninit h) then mret true
  else if negb (known_kind h) then mret false
  else
    (if bool_decide (pm_init_lock h = 0) then upd_pm mu (set_pm_init_lock 1) else fail Deadlock);;
    h ← get_pm mu;
    ok ← (if uninit h then init_kind mu else mret true);
    upd_pm mu (set_pm_init_lock 0);;
    mret ok.

(** [pthread_mutex_setprioceiling] and [pthread_mutex_getprioceiling], which are
    the same. *)
Definition prioceiling (mutex : option nat) : M px Z :=
  match mutex with
  | None => mret EINVAL
  | Some mu =>
      h ← get_pm mu;
      if negb (uninit h) then mret ENOSYS
      else if negb (known_kind h) then mret EINVAL
      else ok ← init_kind mu; mret (if (ok : bool) then ENOSYS else EINVAL)
  end.
Definition pthread_mutex_setprioceiling (mutex : option nat) (prioceiling_ : Z) (old_ceiling : option nat) : M px Z := prioceiling mutex.
Definition pthread_mutex_getprioceiling (mutex prioceiling_ : option nat) : M px Z := prioceiling mutex.

Definition the_mutex (mu : nat) : M px nat := h ← get_pm mu; of_option BadDeref (pm_mutex h).

Definition pthread_mutex_lock (mutex : option nat) : M px Z :=
  match mutex with
  | None => mret EINVAL
  | Some mu =>
      ok ← first_use mu;
      if negb ok then mret EINVAL
      else m ← the_mutex mu; blocking (pth_mutex_acquire alive fuel m false false)
  end.

Definition pthread_mutex_trylock (mutex : option nat) : M px Z :=
  match mutex with
  | None => mret EINVAL
  | Some mu =>
      ok ← first_use mu;
      if negb ok then mret EINVAL
      else
        m ← the_mutex mu;
        x ← onx (get_m m);
        if flag (mx_state x) PTH_MUTEX_INTERNAL_LOCKED then
          '(_, d) ← onx my_descr;
          if bool_decide (qcount (mx_lock x) > 0) && negb (bool_decide (owner (mx_lock x) = tid d)) then mret EBUSY
          else onx (internal_lock m);; mret OK
        else blocking (pth_mutex_acquire alive fuel m true false)
  end.

Definition pthread_mutex_unlock (mutex : option nat) : M px Z :=
  match mutex with
  | None => mret EINVAL
  | Some mu =>
      h ← get_pm mu;
      if uninit h then mret EINVAL
      else m ← the_mutex mu; onx (pth_mutex_release m)
  end.

(** [mx_mutex >= &init_mutex[0] && mx_mutex <= &init_mutex[mutex_index]] *)
Definition is_static (m idx : nat) : bool := existsb (fun i => bool_decide (m = init_mutex i)) (seq 0 (S idx)).

Definition pthread_mutex_destroy (mutex : option nat) : M px Z :=
  match mutex with
  | None => mret EINVAL
  | Some mu =>
      h ← get_pm mu;
      if bool_decide (pm_init h = 0) then mret EINVAL
      else
        r ← (match pm_mutex h with
             | None => mret None
             | Some m =>
                 onx (internal_lock m);;
                 x ← onx (get_m m);
                 busy ← (if flag (mx_state x) PTH_MUTEX_LOCKED then
                           c ← onx pth_get_current;
                           onx (internal_unlock m);;
                           if bool_decide (mx_owner x = c) then
                             if flag (mx_state x) PTH_MUTEX_NOT_CONSISTENT then mret true
                             else pthread_mutex_unlock mutex;; mret false
                           else mret true
                         else onx (internal_unlock m);; mret false);
                 if (busy : bool) then mret (Some EBUSY)
                 else
                   s ← get;
                   if is_static m (mutex_index s) then mret (Some OK)
                   else
                     x ← onx (get_m m);
                     (if pshared (mx_shared x) then onx (pth_mutex_destroy m);; mret tt else free_mutex m);;
                     upd_pm mu (set_pm_mutex None);;
                     mret None
             end);
        match r with
        | Some rc => mret rc
        | None => upd_pm mu (set_pm_init 0);; mret OK
        end
  end.

(** ** Read-write locks *)

(** A [pthread_rwlockattr_t] is its member [pshared]. *)
Definition pthread_rwlockattr_init (attr : option nat) : M px Z :=
  match attr with None => mret EINVAL | Some _ => write_int attr PTHREAD_PROCESS_PRIVATE;; mret OK end.
Definition pthread_rwlockattr_destroy (attr : option nat) : M px Z :=
  match attr with None => mret EINVAL | Some _ => mret OK end.
Definition pthread_rwlockattr_setpshared (attr : option nat) (ps : Z) : M px Z :=
  match attr with None => mret EINVAL | Some _ => write_int attr ps;; mret OK end.
Definition pthread_rwlockattr_getpshared (attr ps : option nat) : M px Z :=
  match attr with None => mret EINVAL | Some a => v ← read_int a; write_int ps v;; mret OK end.

Definition pthread_rwlock_init (rwlock attr : option nat) : M px Z :=
  ps ← (match attr with Some a => read_int a | None => mret 0 end);
  match rwlock with
  | None => mret EINVAL
  | Some r =>
      rc ← onx (pth_rwlock_init r (negb (bool_decide (ps = 0))));
      if negb (bool_decide (rc = 0)) then mret rc
      else put_rwi r 1;; mret OK
  end.

Definition pthread_rwlock_destroy (rwlock : option nat) : M px Z :=
  match rwlock with
  | None => mret EINVAL
  | Some r =>
      i ← get_rwi r;
      if bool_decide (i = 0) then mret EINVAL
      else
        rc ← onx (pth_rwlock_destroy r);
        if negb (bool_decide (rc = 0)) then mret rc
        else
          onx (upd_rw r (set_rw_mutex_rd None));;
          onx (upd_rw r (set_rw_mutex_rw None));;
          put_rwi r 0;;
          mret OK
  end.

(** The four functions that lock. *)
Definition rwlock_lock (op : Z) (tryonly : bool) (rwlock : option nat) : M px Z :=
  match rwlock with
  | None => mret EINVAL
  | Some r =>
      i ← get_rwi r;
      if bool_decide (i = 0) then mret EINVAL
      else
        x ← onx (get_rw r);
        ok ← (if bool_decide (rw_mutex_rd x = None) && bool_decide (rw_mutex_rw x = None) then
                rc ← pthread_rwlock_init rwlock None; mret (bool_decide (rc = OK))
              else mret true);
        if negb ok then mret EINVAL
        else blocking (pth_rwlock_acquire alive fuel r op tryonly false)
  end.
Definition pthread_rwlock_rdlock : option nat -> M px Z := rwlock_lock PTH_RWLOCK_RD false.
Definition pthread_rwlock_tryrdlock : option nat -> M px Z := rwlock_lock PTH_RWLOCK_RD true.
Definition pthread_rwlock_wrlock : option nat -> M px Z := rwlock_lock PTH_RWLOCK_RW false.
Definition pthread_rwlock_trywrlock : option nat -> M px Z := rwlock_lock PTH_RWLOCK_RW true.

Definition pthread_rwlock_unlock (rwlock : option nat) : M px Z :=
  match rwlock with
  | None => mret EINVAL
  | Some r =>
      i ← get_rwi r;
      if bool_decide (i = 0) then mret EINVAL
      else
        x ← onx (get_rw r);
        if bool_decide (rw_mutex_rd x = None) || bool_decide (rw_mutex_rw x = None) then mret EINVAL
        else blocking (pth_rwlock_release alive fuel r)
  end.

(** ** Condition variables *)

(** A [pthread_condattr_t] is an [int]. *)
Definition pthread_condattr_init (attr : option nat) : M px Z := mret (match attr with None => EINVAL | Some _ => OK end).
Definition pthread_condattr_destroy (attr : option nat) : M px Z := mret (match attr with None => EINVAL | Some _ => OK end).
Definition pthread_condattr_setpshared (attr : option nat) (ps : Z) : M px Z :=
  match attr with None => mret EINVAL | Some _ => write_int attr ps;; mret OK end.
Definition pthread_condattr_getpshared (attr ps : option nat) : M px Z :=
  match attr with None => mret EINVAL | Some a => v ← read_int a; write_int ps v;; mret OK end.

(** The memory of a condition variable; NULL: there is none. *)
Definition cond_memory (h : pthread_cond_st) (ps : bool) : M px (option nat) :=
  if ps then
    found ← (match pc_cond h with
             | Some c =>
                 if bool_decide (pc_init h = 1) then
                   w ← onx get;
                   onx lock_shared;; onx unlock_shared;;
                   mret (if existsb (fun s => sl_used s && bool_decide (sl_cn s = c)) (shared_objs w) then Some c else None)
                 else mret None
             | None => mret None
             end);
    match found with
    | Some c => mret (Some c)
    | None => onx pth_alloc_shared_cond
    end
  else malloc_cond.

Definition pthread_cond_init (cond attr : option nat) : M px Z :=
  ps ← (match attr with Some a => read_int a | None => mret 0 end);
  match cond with
  | None => mret EINVAL
  | Some co =>
      h ← get_pc co;
      let ps := bool_decide (ps = PTHREAD_PROCESS_SHARED) in
      c ← cond_memory h ps;
      match c with
      | None => mret ENOMEM
      | Some c =>
          ok ← onx (_pth_cond_init c ps);
          if negb ok then mret EINVAL
          else upd_pc co (set_pc_cond (Some c));; upd_pc co (set_pc_init 1);; mret OK
      end
  end.

Definition cond_lock (c : nat) : M world unit :=
  '(_, d) ← my_descr; x ← get_c c; l ← of_res (_pth_acquire_lock (tid d) (cn_lock x)); upd_c c (set_cn_lock l).
Definition cond_unlock (c : nat) : M world unit :=
  '(_, d) ← my_descr; upd_c c (fun x => set_cn_lock (_pth_release_lock (tid d) (cn_lock x)).2 x).

Definition pthread_cond_destroy (cond : option nat) : M px Z :=
  match cond with
  | None => mret EINVAL
  | Some co =>
      h ← get_pc co;
      busy ← (match pc_cond h with
              | Some c =>
                  if bool_decide (pc_init h = 1) then
                    onx (cond_lock c);;
                    x ← onx (get_c c);
                    onx (cond_unlock c);;
                    if bool_decide (cn_waiters x > 0) then blocking sleep;; mret true
                    else
                      (if pshared (cn_shared x) then onx (pth_cond_destroy c);; mret tt else free_cond c);;
                      mret false
                  else mret false
              | None => mret false
              end);
      if (busy : bool) then mret EBUSY
      else upd_pc co (set_pc_cond None);; upd_pc co (set_pc_init 0);; mret OK
  end.

(** A handle with a static initialiser is initialised at its first use. *)
Definition the_cond (co : nat) : M px (option nat) :=
  h ← get_pc co;
  ok ← (if bool_decide (pc_cond h = None) || bool_decide (pc_init h = 0) then
          rc ← pthread_cond_init (Some co) None; mret (bool_decide (rc = OK))
        else mret true);
  if negb ok then mret None
  else h ← get_pc co; c ← of_option BadDeref (pc_cond h); mret (Some c).

Definition cond_notify (broadcast : bool) (cond : option nat) : M px Z :=
  match cond with
  | None => mret EINVAL
  | Some co =>
      c ← the_cond co;
      match c with
      | None => mret EINVAL
      | Some c => ok ← blocking (pth_cond_notify fuel c broadcast); mret (if (ok : bool) then OK else EINVAL)
      end
  end.
Definition pthread_cond_broadcast : option nat -> M px Z := cond_notify true.
Definition pthread_cond_signal : option nat -> M px Z := cond_notify false.

Context (pth_cancel_point : M sys unit).

Definition cond_await (co mu : nat) : M px bool :=
  c ← the_cond co;
  match c with
  | None => mret false
  | Some c => m ← the_mutex mu; blocking (pth_cond_await alive pth_cancel_point fuel c m)
  end.

Definition pthread_cond_wait (cond mutex : option nat) : M px Z :=
  match cond, mutex with
  | Some co, Some mu =>
      h ← get_pm mu;
      if bool_decide (pm_mutex h = None) then mret EINVAL
      else ok ← cond_await co mu; mret (if (ok : bool) then OK else EINVAL)
  | _, _ => mret EINVAL
  end.

(** [abstime]: seconds and nanoseconds; the timer event is an additional event of
    the wait, whether it occurred is the next entry of [timed]. *)
Definition pthread_cond_timedwait (cond mutex : option nat) (abstime : option (Z * Z)) : M px Z :=
  match cond, mutex, abstime with
  | Some co, Some mu, Some (sec, nsec) =>
      h ← get_pm mu;
      if bool_decide (pm_mutex h = None) then mret EINVAL
      else if bool_decide (sec < 0) || bool_decide (nsec < 0) || bool_decide (nsec >= 1000000000) then mret EINVAL
      else
        ok ← cond_await co mu;
        if negb ok then mret EINVAL
        else t ← next_of timed set_timed; mret (if (t : bool) then ETIMEDOUT else OK)
  | _, _, _ => mret EINVAL
  end.

(** ** Semaphores *)

(** [return_errno(rc, e)] *)
Definition return_errno (rc e : Z) : M px Z := modify (set_errno e);; mret rc.

(** The variables [mattr] and [cattr] of [sem_init] *)
Context (mattr_var cattr_var : nat).

Definition __new_sem_init (sem : nat) (ps value : Z) : M px Z :=
  if bool_decide (value > SEM_VALUE_MAX) then return_errno (-1) EINVAL
  else
    p ← next_of sem_mem set_sem_mem;
    match p with
    | None => upd_sem sem (set_sem_waiting None);; return_errno (-1) ENOMEM
    | Some ((l, hl), (z, hz)) =>
        modify (fun s => set_ob (set_pmx (<[l := hl]> (pmx (ob s))) (set_pcn (<[z := hz]> (pcn (ob s))) (ob s))) s);;
        upd_sem sem (set_sem_waiting (Some (l, z)));;
        (if bool_decide (ps > 0) then
           pthread_mutexattr_init (Some mattr_var);;
           pthread_mutexattr_setpshared (Some mattr_var) PTHREAD_PROCESS_SHARED;;
           pthread_mutex_init (Some l) (Some mattr_var);;
           pthread_condattr_init (Some cattr_var);;
           pthread_condattr_setpshared (Some cattr_var) PTHREAD_PROCESS_SHARED;;
           pthread_cond_init (Some z) (Some cattr_var);;
           mret tt
         else
           pthread_mutex_init (Some l) None;;
           pthread_cond_init (Some z) None;;
           mret tt);;
        upd_sem sem (set_sem_value (swrap 32 value));;
        mret 0
    end.

Definition sem_lock (sem : nat) : M px nat := x ← get_sem sem; p ← of_option BadDeref (sem_waiting x); mret p.1.
Definition sem_nonzero (sem : nat) : M px nat := x ← get_sem sem; p ← of_option BadDeref (sem_waiting x); mret p.2.

Definition __new_sem_wait (sem : nat) : M px Z :=
  l ← sem_lock sem;
  pthread_mutex_lock (Some l);;
  x ← get_sem sem;
  (if bool_decide (sem_value x = 0) then z ← sem_nonzero sem; pthread_cond_wait (Some z) (Some l);; mret tt else mret tt);;
  upd_sem sem (fun x => set_sem_value (swrap 32 (sem_value x - 1)) x);;
  l ← sem_lock sem;
  pthread_mutex_unlock (Some l);;
  mret 0.

Definition __new_sem_trywait (sem : nat) : M px Z :=
  l ← sem_lock sem;
  r ← pthread_mutex_trylock (Some l);
  r ← (if bool_decide (r = 0) then
         x ← get_sem sem;
         if bool_decide (sem_value x = 0) then pthread_mutex_unlock (Some l);; mret (-1)
         else
           upd_sem sem (fun x => set_sem_value (swrap 32 (sem_value x - 1)) x);;
           pthread_mutex_unlock (Some l);; mret 0
       else mret r);
  if negb (bool_decide (r = 0)) then return_errno r EAGAIN else mret r.

Definition __new_sem_post (sem : nat) : M px Z :=
  l ← sem_lock sem;
  pthread_mutex_lock (Some l);;
  upd_sem sem (fun x => set_sem_value (swrap 32 (sem_value x + 1)) x);;
  x ← get_sem sem;
  (if negb (bool_decide (sem_value x = 0)) then z ← sem_nonzero sem; pthread_cond_signal (Some z);; mret tt else mret tt);;
  pthread_mutex_unlock (Some l);;
  mret 0.

Definition __new_sem_getvalue (sem : nat) (sval : option nat) : M px Z :=
  x ← get_sem sem; write_int sval (sem_value x);; mret 0.

Definition __new_sem_destroy (sem : nat) : M px Z :=
  x ← get_sem sem;
  '(l, z) ← of_option BadDeref (sem_waiting x);
  r ← pthread_mutex_destroy (Some l);
  r ← (if bool_decide (r = 0) then pthread_cond_destroy (Some z) else mret r);
  modify (fun s => set_ob (set_pmx (delete l (pmx (ob s))) (set_pcn (delete z (pcn (ob s))) (ob s))) s);;
  mret r.

Definition __sem_open : M px (option nat) := modify (set_errno ENOSYS);; mret None.
Definition __sem_close (sem : nat) : M px Z := return_errno (-1) ENOSYS.
Definition __sem_unlink : M px Z := return_errno (-1) ENOSYS.
Definition __sem_timedwait (sem : nat) : M px Z := return_errno (-1) ENOSYS.

(** The lock of a stream of the C library; [shutdown]: [pth_shutdown_inprogress] *)
Definition __flockfile (shutdown : bool) (lock : option nat) : M px unit := if shutdown then mret tt else pthread_mutex_lock lock;; mret tt.
Definition __funlockfile (shutdown : bool) (lock : option nat) : M px unit := if shutdown then mret tt else pthread_mutex_unlock lock;; mret tt.
Definition __ftrylockfile (shutdown : bool) (lock : option nat) : M px Z := if shutdown then mret 0 else pthread_mutex_trylock lock.
End mutexes.
