(* ===== verification/PosixProofs.v ===== *)
(** * The POSIX interface: proofs

    Theorems about pthread.c and semaphore.c (see Posix): the handles of mutexes
    with their initialisation at the first use, and semaphores as counters. *)

From S2P Require Import Prelude Bitmap Dll LinkedList Ring Priorities PQueue Futex World Sync Posix.
From S2P Require Import MutexProofs.

(** ** Running code of the layer below *)

Definition put_w (w : world) (s : px) : px := set_sy (Sys w (env (sy s)) (fds (sy s))) s.
Abbreviation wd s := (wld (sy s)).

Lemma put_w_twice w v s : put_w w (put_w v s) = put_w w s.
Proof. reflexivity. Qed.
Lemma put_w_id s : put_w (wd s) s = s.
Proof. by destruct s as [[]]. Qed.

(** Code that does not sleep. *)
Lemma blocking_run {A} (c : M sys A) s a y : c (sy s) = Ok (a, y) -> env y = env (sy s) -> blocking c s = Ok (a, set_sy y s).
Proof. intros E Ev. unfold blocking. rewrite E, Ev, Nat.sub_diag. cbn [take drop foldl]. by destruct s. Qed.

Lemma onx_run {A} (c : M world A) s a w : c (wd s) = Ok (a, w) -> onx c s = Ok (a, put_w w s).
Proof. intros E. unfold onx. by rewrite (blocking_run _ s a (Sys w (env (sy s)) (fds (sy s))) (lift_run _ _ _ _ E)). Qed.
Lemma onx_same {A} (c : M world A) s a : c (wd s) = Ok (a, wd s) -> onx c s = Ok (a, s).
Proof. intros E. by rewrite (onx_run _ _ _ _ E), put_w_id. Qed.

(** ** New mutexes *)

Definition blank (ty : Z) (x : pth_mutex_st) : pth_mutex_st :=
  Mutex PTH_MUTEX_INITIALIZED (-1) ty None 0 qlock_free (rfutex_init false (mx_shared x)) 0 0.
Definition new_mutex (m : nat) (x : pth_mutex_st) (w : world) : world :=
  set_waits (<[WMutex m := Link (Some (WMutex m)) (Some (WMutex m))]> (waits w))
    (set_mnodes (<[m := Link None None]> (mnodes w)) (put_m m x w)).

Lemma mutex_init_run w m x : mutexes w !! m = Some x ->
  pth_mutex_init (Some m) None w = Ok (true, new_mutex m (blank PTH_MUTEX_NORMAL x) w).
Proof.
  intros Hm. destruct w. cbn in Hm. unfold pth_mutex_init, upd_m, get_m, get, modify, mbind, M_bind, of_option. cbn. rewrite Hm.
  repeat (cbn; rewrite lookup_insert_eq). unfold new_mutex, put_m. cbn. by rewrite !insert_insert_eq.
Qed.

Lemma rng_fresh (r : pth_ring_t nat) h m l lk : m ∉ l -> rng r h l -> rng r (<[m := lk]> h) l.
Proof.
  intros Hm (Hn & Hs & H). split; [done|]. split; [done|]. destruct l as [|a l]; [done|]. destruct H as [Hk Hr].
  split; [done|]. eapply ring_agree, Hr. intros b Hb. apply lookup_insert_ne. by intros <-.
Qed.

(** Which mutexes are recursive, when [m] is new. *)
Definition new_rec (m : nat) (b : bool) (rec : nat -> bool) : nat -> bool := fun k => if decide (k = m) then b else rec k.

Lemma sinv_new w H m x ty : sinv None w H -> mutexes w !! m = None -> Z.of_nat (size (mutexes w)) + 1 < 2 ^ 32 - 1 ->
  sinv None (new_mutex m (blank ty x) w) H.
Proof.
  intros [Ht Hm Hh Hd Hs] Hnew Hsz.
  assert (forall t, m ∉ held H t) as Hno by (intros t (y & Hy & _)%Hh; congruence).
  split.
  - intros t o l HH. destruct (Ht t o l HH) as (y & Hy & Ho & Hr). exists y. split; [done|]. split; [done|].
    cbn. apply rng_fresh; [|done]. specialize (Hno t). unfold held in Hno. rewrite HH in Hno. set_solver.
  - intros k y. cbn. destruct (decide (m = k)) as [<-|Hne].
    + rewrite !lookup_insert_eq. intros [= <-]. split; [|by eexists]. split; [by rewrite bool_decide_eq_false_2|]. by split.
    + rewrite !lookup_insert_ne by done. apply Hm.
  - intros t k Hk. destruct (Hh t k Hk) as (y & Hy & Hl). exists y. split; [|done]. cbn. rewrite lookup_insert_ne; [done|].
    intros <-. by apply (Hno t).
  - done.
  - cbn. rewrite map_size_insert_None by done. lia.
Qed.

(** A new mutex is free; nothing changes for the others. *)
Lemma lk_rel_new rec on w H s m x ty : lk_rel rec on w H s -> mutexes w !! m = None ->
  Z.of_nat (size (mutexes w)) + 1 < 2 ^ 32 - 1 ->
  lk_rel (new_rec m (bool_decide (ty = PTH_MUTEX_RECURSIVE_NP)) rec) on (new_mutex m (blank ty x) w) H (<[m := None]> s).
Proof.
  intros [[Hi Hid Hnat] Hs Hr Ho] Hnew Hsz. split; [split|..].
  - by apply sinv_new.
  - intros k y. unfold idle. cbn. destruct (decide (m = k)) as [<-|Hne].
    + rewrite lookup_insert_eq. intros [= <-]. split; [done|]. split; [done|]. unfold prv. cbn. by rewrite lookup_insert_eq.
    + rewrite lookup_insert_ne by done. intros (Hl & Hw & Hp)%Hid. split; [done|]. split; [done|].
      unfold prv. cbn. rewrite lookup_insert_ne by congruence. exact Hp.
  - done.
  - unfold locks_of in *. cbn. by rewrite fmap_insert, Hs.
  - intros k. unfold is_recursive, new_rec. cbn. destruct (decide (k = m)) as [->|Hne].
    + by rewrite lookup_insert_eq.
    + rewrite lookup_insert_ne by done. apply Hr.
  - done.
Qed.

(** ** Handles *)

Definition put_pm (mu : nat) (h : pthread_mutex_st) (s : px) : px := set_ob (set_pmx (<[mu := h]> (pmx (ob s))) (ob s)) s.

Lemma get_pm_run s mu h : pmx (ob s) !! mu = Some h -> get_pm mu s = Ok (h, s).
Proof. intros E. unfold get_pm, get, mbind, M_bind, of_option. by rewrite E. Qed.
Lemma upd_pm_run s mu h f : pmx (ob s) !! mu = Some h -> upd_pm mu f s = Ok (tt, put_pm mu (f h) s).
Proof. intros E. unfold upd_pm. by rewrite (bind_run _ _ _ _ _ (get_pm_run _ _ _ E)). Qed.
Lemma put_pm_twice mu h h' s : put_pm mu h (put_pm mu h' s) = put_pm mu h s.
Proof. unfold put_pm. cbn. by rewrite insert_insert_eq. Qed.
Lemma put_pm_lookup mu h s : pmx (ob (put_pm mu h s)) !! mu = Some h.
Proof. apply lookup_insert_eq. Qed.

Section handles.
Context (alive : Z -> bool) (init_mutex : nat -> nat) (frm : Z) (fuel : nat) (s : px) (mu : nat) (h : pthread_mutex_st).
Context (Hstart : starting s = false) (Hlock : init_lock s = qlock_free) (Hh : pmx (ob s) !! mu = Some h).

(** The beginning of the initialisation, up to the allocation of memory. *)
Lemma init_enter k : _pth_acquire_lock frm qlock_free = Ok k ->
  pthread_mutex_init init_mutex frm (Some mu) None s =
    (r ← mutex_memory h None;
     unlock_init frm;;
     match r with
     | inr rc => mret rc
     | inl m =>
         ok ← onx (pth_mutex_init (Some m) None);
         if negb ok then mret EINVAL
         else upd_pm mu (set_pm_init 1);; upd_pm mu (set_pm_mutex (Some m));; mret OK
     end) (set_init_lock k s).
Proof.
  intros Ek. unfold pthread_mutex_init. rewrite (bind_run (mret None) _ _ _ _ eq_refl). unfold lock_init.
  rewrite (bind_run _ _ s tt (set_init_lock k s)).
  2:{ rewrite (bind_run get _ _ _ _ eq_refl), Hlock. by rewrite (bind_run _ _ s k s) by (by rewrite Ek). }
  rewrite (bind_run get _ _ _ _ eq_refl), (bind_run (mret None) _ _ _ _ eq_refl). cbn [starting set_init_lock]. rewrite Hstart. cbn [negb].
  apply bind_first. cbn [init_lock set_init_lock]. rewrite (qlock_first _ _ Ek), bool_decide_eq_false_2 by lia.
  by rewrite (bind_run _ _ _ h (set_init_lock k s)) by (by apply get_pm_run).
Qed.

(** The lock of the initialisation is free again. *)
Lemma init_leave k rest w : _pth_acquire_lock frm qlock_free = Ok k ->
  unlock_init frm (set_mx_mem rest (put_w w (set_init_lock k s))) = Ok (tt, set_mx_mem rest (put_w w s)).
Proof.
  intros Ek. destruct (qlock_cycle frm) as (k' & Ek' & Er). rewrite Ek in Ek'. injection Ek' as <-.
  unfold unlock_init, modify. cbn. rewrite Er. do 2 f_equal. destruct s; cbn in *; by subst.
Qed.

(** The initialisation takes the next block of memory. *)
Lemma mutex_init_handle m junk rest : mx_mem s = Some (m, junk) :: rest ->
  pthread_mutex_init init_mutex frm (Some mu) None s =
    Ok (OK, put_pm mu (set_pm_mutex (Some m) (set_pm_init 1 h)) (set_mx_mem rest (put_w (new_mutex m (blank PTH_MUTEX_NORMAL junk) (wd s)) s))).
Proof.
  intros Hmem. destruct (qlock_cycle frm) as (k & Ek & _). rewrite (init_enter k Ek).
  rewrite (bind_run _ _ _ (inl m) (set_mx_mem rest (put_w (put_m m junk (wd s)) (set_init_lock k s)))).
  2:{ unfold mutex_memory, malloc_mutex, next_of.
      rewrite (bind_run _ _ _ (Some m) (set_mx_mem rest (put_w (put_m m junk (wd s)) (set_init_lock k s)))); [done|].
      rewrite (bind_run _ _ _ (Some (m, junk)) (set_mx_mem rest (set_init_lock k s))).
      - cbv beta iota. rewrite (bind_run _ _ _ _ _ (onx_run _ _ _ _ eq_refl)). reflexivity.
      - rewrite (bind_run get _ _ _ _ eq_refl). cbn [mx_mem set_init_lock]. by rewrite Hmem. }
  rewrite (bind_run _ _ _ _ _ (init_leave k rest _ Ek)). set (s2 := set_mx_mem rest (put_w (put_m m junk (wd s)) s)).
  cbv beta iota. rewrite (bind_run _ _ _ _ _ (onx_run _ s2 _ _ (mutex_init_run _ m junk (put_m_lookup _ _ _)))). cbn [negb].
  set (s3 := put_w _ s2). rewrite (bind_run _ _ _ _ _ (upd_pm_run s3 mu h _ Hh)).
  rewrite (bind_run _ _ _ _ _ (upd_pm_run _ mu _ _ (put_pm_lookup _ _ _))), put_pm_twice. unfold s3, s2, new_mutex. rewrite put_m_twice. done.
Qed.

Lemma mutex_init_nomem rest : mx_mem s = None :: rest ->
  pthread_mutex_init init_mutex frm (Some mu) None s = Ok (ENOMEM, set_mx_mem rest s).
Proof.
  intros Hmem. destruct (qlock_cycle frm) as (k & Ek & _). rewrite (init_enter k Ek).
  rewrite (bind_run _ _ _ (inr ENOMEM) (set_mx_mem rest (set_init_lock k s))).
  2:{ unfold mutex_memory, malloc_mutex, next_of.
      do 2 (rewrite (bind_run _ _ _ None (set_mx_mem rest (set_init_lock k s))); [done|]).
      rewrite (bind_run get _ _ _ _ eq_refl). cbn [mx_mem set_init_lock]. by rewrite Hmem. }
  rewrite (bind_run _ _ _ tt (set_mx_mem rest s)); [done|]. pose proof (init_leave k rest (wd s) Ek) as H.
  rewrite put_w_id in H. change (wd s) with (wd (set_init_lock k s)) in H. by rewrite put_w_id in H.
Qed.

(** ** The first use of a handle *)

Lemma known_kind_cases : known_kind h = true -> pm_kind h = PTHREAD_MUTEX_NORMAL \/ pm_kind h = PTHREAD_MUTEX_RECURSIVE.
Proof. unfold known_kind. rewrite orb_true_iff, !bool_decide_eq_true. done. Qed.
End handles.

Section first_use.
Context (init_mutex : nat -> nat) (frm : Z) (s : px) (mu : nat) (h : pthread_mutex_st).
Context (Hstart : starting s = false) (Hlock : init_lock s = qlock_free) (Hh : pmx (ob s) !! mu = Some h).

Lemma first_use_ready : uninit h = false -> first_use init_mutex frm mu s = Ok (true, s).
Proof. intros Hu. unfold first_use. by rewrite (bind_run _ _ _ _ _ (get_pm_run _ _ _ Hh)), Hu. Qed.

Lemma first_use_unknown : uninit h = true -> known_kind h = false -> first_use init_mutex frm mu s = Ok (false, s).
Proof. intros Hu Hk. unfold first_use. by rewrite (bind_run _ _ _ _ _ (get_pm_run _ _ _ Hh)), Hu, Hk. Qed.

Context (Hnull : pm_mutex h = None) (Hkind : known_kind h = true) (Hinit : pm_init_lock h = 0).

Lemma uninit_null h' : pm_mutex h' = None -> uninit h' = true.
Proof. unfold uninit. intros ->. by rewrite bool_decide_eq_true_2. Qed.

(** The handle is locked, and the memory allocated. *)
Lemma first_use_enter : first_use init_mutex frm mu s =
  (ok ← init_kind init_mutex frm mu; upd_pm mu (set_pm_init_lock 0);; mret ok) (put_pm mu (set_pm_init_lock 1 h) s).
Proof.
  unfold first_use. rewrite (bind_run _ _ _ _ _ (get_pm_run _ _ _ Hh)), (uninit_null h Hnull), Hkind, Hinit. cbn [negb].
  rewrite bool_decide_eq_true_2 by done. rewrite (bind_run _ _ _ _ _ (upd_pm_run _ _ _ _ Hh)).
  rewrite (bind_run _ _ _ _ _ (get_pm_run _ _ _ (put_pm_lookup _ _ _))). by rewrite (uninit_null (set_pm_init_lock 1 h) Hnull).
Qed.

Lemma first_use_fresh m junk rest : mx_mem s = Some (m, junk) :: rest ->
  first_use init_mutex frm mu s =
    Ok (true, put_pm mu (PMutex (Some m) 1 (pm_kind h) 0) (set_mx_mem rest (put_w (new_mutex m (blank (pm_kind h) junk) (wd s)) s))).
Proof.
  intros Hmem. rewrite first_use_enter. set (h1 := set_pm_init_lock 1 h). set (s1 := put_pm mu h1 s).
  assert (pm_kind h = PTHREAD_MUTEX_NORMAL \/ pm_kind h = PTHREAD_MUTEX_RECURSIVE) as Hk by (by apply known_kind_cases).
  set (h2 := set_pm_mutex (Some m) (set_pm_init 1 h1)).
  set (s2 := put_pm mu h2 (set_mx_mem rest (put_w (new_mutex m (blank (pm_kind h) junk) (wd s)) s))).
  rewrite (bind_run _ _ s1 true s2).
  - by rewrite (bind_run _ _ _ _ _ (upd_pm_run s2 mu h2 _ (put_pm_lookup _ _ _))); unfold s2; rewrite put_pm_twice.
  - unfold init_kind. rewrite (bind_run _ _ _ _ _ (mutex_init_handle init_mutex frm s1 mu h1 Hstart Hlock (put_pm_lookup _ _ _) m junk rest Hmem)).
    fold h2. set (s3 := put_pm mu h2 _). rewrite bool_decide_eq_true_2 by done.
    rewrite (bind_run _ _ _ _ _ (get_pm_run s3 mu h2 (put_pm_lookup _ _ _))). change (pm_kind h2) with (pm_kind h).
    destruct Hk as [Hk|Hk]; rewrite Hk.
    + rewrite (bind_run _ _ s3 tt s3) by done. do 2 f_equal. unfold s3, s2, s1. rewrite Hk. unfold put_pm. cbn. by rewrite insert_insert_eq.
    + rewrite bool_decide_eq_true_2 by done. rewrite (bind_run _ _ s3 tt s2); [done|].
      rewrite (bind_run (of_option BadDeref (pm_mutex h2)) _ s3 m s3 eq_refl).
      rewrite (onx_run _ s3 tt (new_mutex m (blank PTHREAD_MUTEX_RECURSIVE junk) (wd s))).
      * do 2 f_equal. unfold s3, s2, s1. rewrite Hk. unfold put_pm. cbn. by rewrite insert_insert_eq.
      * rewrite (upd_m_run _ m (blank PTH_MUTEX_NORMAL junk)) by apply lookup_insert_eq. do 2 f_equal. unfold s3, s1. cbn.
        unfold new_mutex, put_m. cbn. by rewrite insert_insert_eq.
Qed.

Lemma first_use_nomem rest : mx_mem s = None :: rest -> first_use init_mutex frm mu s = Ok (false, set_mx_mem rest s).
Proof.
  intros Hmem. rewrite first_use_enter. set (h1 := set_pm_init_lock 1 h). set (s1 := put_pm mu h1 s).
  rewrite (bind_run _ _ s1 false (set_mx_mem rest s1)).
  - rewrite (bind_run _ _ _ _ _ (upd_pm_run (set_mx_mem rest s1) mu h1 _ (put_pm_lookup _ _ _))). do 2 f_equal. unfold s1, put_pm. cbn.
    rewrite insert_insert_eq. replace (set_pm_init_lock 0 h1) with h by (destruct h; cbn in *; by subst).
    rewrite insert_id by done. by destruct s as [? []].
  - unfold init_kind. by rewrite (bind_run _ _ _ _ _ (mutex_init_nomem init_mutex frm s1 mu h1 Hstart Hlock (put_pm_lookup _ _ _) rest Hmem)).
Qed.
End first_use.

(** ** Mutex handles refine locks

    The promise of the POSIX functions: a handle has a lock, [None] until it is
    used, and is recursive or not.  [mem]: which of the next allocations
    succeed. *)

Abbreviation lock := (option (nat * Z)).
Record promise : Set := Promise { locks_p : gmap nat (bool * option lock); mem_p : list bool }.

Inductive p_op : Set := PLock (tryonly : bool) (mu : nat) | PUnlock (mu : nat).

Definition lock_call (r : bool) (t : nat) (tryonly : bool) (l : lock) : option (Z * lock) :=
  match l with
  | None => Some (0, Some (t, 1))
  | Some (u, c) =>
      if decide (u = t) then
        if r then if decide (c + 1 < 2 ^ 32) then Some (0, Some (t, c + 1)) else None
        else Some (if tryonly then EBUSY else EDEADLK, l)
      else if tryonly then Some (EBUSY, l) else None
  end.
Definition unlock_call (t : nat) (l : lock) : Z * lock :=
  match l with
  | Some (u, c) => if decide (u = t) then (0, if decide (c = 1) then None else Some (t, c - 1)) else (EPERM, l)
  | None => (EPERM, l)
  end.

Definition p_step (t : nat) (op : p_op) (a : promise) : option (Z * promise) :=
  match op with
  | PLock tryonly mu =>
      '(r, l) ← locks_p a !! mu;
      match l with
      | Some l => '(rc, l) ← lock_call r t tryonly l; Some (rc, Promise (<[mu := (r, Some l)]> (locks_p a)) (mem_p a))
      | None =>
          match mem_p a with
          | [] => None
          | false :: mem => Some (EINVAL, Promise (locks_p a) mem)
          | true :: mem => Some (0, Promise (<[mu := (r, Some (Some (t, 1)))]> (locks_p a)) mem)
          end
      end
  | PUnlock mu =>
      '(r, l) ← locks_p a !! mu;
      match l with
      | Some l => let '(rc, l) := unlock_call t l in Some (rc, Promise (<[mu := (r, Some l)]> (locks_p a)) (mem_p a))
      | None => Some (EINVAL, a)
      end
  end.

(** The library: the thread on native [n] makes the call. *)
Definition p_exec (alive : Z -> bool) (init_mutex : nat -> nat) (frm : Z) (fuel n : nat) (op : p_op) : M px Z :=
  onx (modify (set_self (Some n)));;
  match op with
  | PLock false mu => pthread_mutex_lock alive init_mutex frm fuel (Some mu)
  | PLock true mu => pthread_mutex_trylock alive init_mutex frm fuel (Some mu)
  | PUnlock mu => pthread_mutex_unlock (Some mu)
  end.

(** A handle represents an entry of the promise. *)
Definition handle_ok (rec : nat -> bool) (ls : locks) (h : pthread_mutex_st) (r : bool) (l : option lock) : Prop :=
  pm_kind h = (if r then PTHREAD_MUTEX_RECURSIVE else PTHREAD_MUTEX_NORMAL) /\ pm_init_lock h = 0 /\
  match l with
  | None => pm_mutex h = None
  | Some l => exists m, pm_mutex h = Some m /\ pm_init h <> 0 /\ ls !! m = Some l /\ rec m = r
  end.

(** The memory that the allocator answers with is not in use. *)
Definition supply_ok (ls : locks) (mem : list (option (nat * pth_mutex_st))) (bs : list bool) : Prop :=
  bs = (fun o => bool_decide (is_Some o)) <$> mem /\ NoDup (omap (fun o => fst <$> o) mem) /\
  (forall m, m ∈ omap (fun o => fst <$> o) mem -> ls !! m = None) /\ Z.of_nat (size ls + length mem) < 2 ^ 32 - 1.

Record p_rel (on : nat -> option nat) (s : px) (a : promise) (rec : nat -> bool) (H : holdings) (ls : locks) : Prop := {
  pr_locks : lk_rel rec on (wd s) H ls;
  pr_start : starting s = false;
  pr_lock : init_lock s = qlock_free;
  pr_mem : supply_ok ls (mx_mem s) (mem_p a);
  pr_handle : forall mu r l, locks_p a !! mu = Some (r, l) -> exists h, pmx (ob s) !! mu = Some h /\ handle_ok rec ls h r l;
  pr_inj : forall mu mu' h h' m, is_Some (locks_p a !! mu) -> is_Some (locks_p a !! mu') ->
    pmx (ob s) !! mu = Some h -> pmx (ob s) !! mu' = Some h' -> pm_mutex h = Some m -> pm_mutex h' = Some m -> mu = mu' }.

Lemma lock_call_step rec t tryonly m ls l rc l' : ls !! m = Some l -> lock_call (rec m) t tryonly l = Some (rc, l') ->
  lk_step rec t (OLock tryonly m) ls = Some (rc, <[m := l']> ls).
Proof.
  intros Hl. unfold lock_call, lk_step. rewrite Hl. cbn. destruct l as [[u c]|]; [|by intros [= <- <-]].
  destruct (decide (u = t)) as [->|].
  - destruct (rec m); [destruct (decide (c + 1 < 2 ^ 32)); [|done]|]; intros [= <- <-]; [done|by rewrite insert_id].
  - destruct tryonly; [|done]. intros [= <- <-]. by rewrite insert_id.
Qed.
Lemma unlock_call_step rec t m ls l rc l' : ls !! m = Some l -> unlock_call t l = (rc, l') ->
  lk_step rec t (OUnlock m) ls = Some (rc, <[m := l']> ls).
Proof.
  intros Hl. unfold unlock_call, lk_step. rewrite Hl. cbn. destruct l as [[u c]|]; [|intros [= <- <-]; by rewrite insert_id].
  case_decide; [by intros [= <- <-]|]. intros [= <- <-]. by rewrite insert_id.
Qed.

(** ** Simulation of one call *)

Section p_sim.
Context (alive : Z -> bool) (init_mutex : nat -> nat) (frm : Z) (fuel : nat) (on : nat -> option nat).

Lemma handle_ready rec ls h r l : handle_ok rec ls h r (Some l) -> uninit h = false.
Proof.
  intros (_ & _ & m & Em & Hi & _). unfold uninit. rewrite Em. by rewrite !bool_decide_eq_false_2.
Qed.
Lemma handle_known rec ls h r l : handle_ok rec ls h r l -> known_kind h = true.
Proof. intros (Hk & _). unfold known_kind. rewrite Hk. by destruct r. Qed.

Lemma rel_locks_none rec w H ls m : lk_rel rec on w H ls -> ls !! m = None -> mutexes w !! m = None.
Proof. intros Hr. rewrite <- (lr_locks _ _ _ _ _ Hr). unfold locks_of. rewrite lookup_fmap. by destruct (mutexes w !! m). Qed.
Lemma rel_locks_size rec w H ls : lk_rel rec on w H ls -> size (mutexes w) = size ls.
Proof. intros Hr. rewrite <- (lr_locks _ _ _ _ _ Hr). unfold locks_of. by rewrite map_size_fmap. Qed.

(** The lock of one handle changes. *)
Lemma p_rel_update s w' a rec H H' ls mu r l l' h m :
  p_rel on s a rec H ls -> locks_p a !! mu = Some (r, Some l) -> pmx (ob s) !! mu = Some h -> pm_mutex h = Some m -> ls !! m = Some l ->
  lk_rel rec on w' H' (<[m := l']> ls) ->
  p_rel on (put_w w' s) (Promise (<[mu := (r, Some l')]> (locks_p a)) (mem_p a)) rec H' (<[m := l']> ls).
Proof.
  intros [Hlk Hst Hlo (Hb & Hnd & Hfr & Hsz) Hh Hinj] Ha Hp Hm Hl Hlk'. split; try done.
  - split; [done|]. split; [done|]. split; [|by rewrite map_size_insert_Some by (by eexists)].
    intros k Hk. rewrite lookup_insert_ne; [by apply Hfr|]. intros <-. rewrite (Hfr m Hk) in Hl. done.
  - intros mu' r' l'' E. cbn in E. destruct (decide (mu = mu')) as [<-|Hne].
    + rewrite lookup_insert_eq in E. injection E as <- <-. exists h. split; [done|].
      destruct (Hh mu r _ Ha) as (h1 & Hp1 & Hk & Hi & m1 & Hm1 & Hn1 & Hl1 & Hr1). simplify_eq.
      split; [done|]. split; [done|]. exists m. split; [done|]. split; [done|]. split; [apply lookup_insert_eq|done].
    + rewrite lookup_insert_ne in E by done. destruct (Hh mu' r' l'' E) as (h1 & Hp1 & Hk & Hi & Hl1). exists h1. split; [done|].
      split; [done|]. split; [done|]. destruct l'' as [l''|]; [|done]. destruct Hl1 as (m1 & Hm1 & Hn1 & Hl1 & Hr1). exists m1.
      split; [done|]. split; [done|]. split; [|done]. rewrite lookup_insert_ne; [done|]. intros <-. apply Hne.
      apply (Hinj mu mu' h h1 m); (done || by eexists).
  - intros mu1 mu2 h1 h2 m1. cbn. rewrite !lookup_insert_is_Some. intros E1 E2. apply Hinj.
    + destruct E1 as [<-|[_ ?]]; [by eexists|done].
    + destruct E2 as [<-|[_ ?]]; [by eexists|done].
Qed.

(** A handle gets a new mutex. *)
Lemma p_rel_new s a rec H ls mu r h m junk rest mem :
  p_rel on s a rec H ls -> locks_p a !! mu = Some (r, None) -> pmx (ob s) !! mu = Some h ->
  mx_mem s = Some (m, junk) :: rest -> mem_p a = true :: mem ->
  let s' := put_pm mu (PMutex (Some m) 1 (pm_kind h) 0) (set_mx_mem rest (put_w (new_mutex m (blank (pm_kind h) junk) (wd s)) s)) in
  p_rel on s' (Promise (<[mu := (r, Some None)]> (locks_p a)) mem) (new_rec m r rec) H (<[m := None]> ls).
Proof.
  intros [Hlk Hst Hlo (Hb & Hnd & Hfr & Hsz) Hh Hinj] Ha Hp Hmem Hmp s'. rewrite Hmem in Hb, Hnd, Hfr, Hsz. cbn in Hnd, Hfr, Hsz.
  assert (ls !! m = None) as Hm by (apply Hfr; set_solver). pose proof (rel_locks_none _ _ _ _ _ Hlk Hm) as Hmx.
  destruct (Hh mu r None Ha) as (h0 & Hp0 & Hk & Hi & Hnull). assert (h0 = h) as -> by congruence.
  assert (forall mu' r' l' h', locks_p a !! mu' = Some (r', l') -> pmx (ob s) !! mu' = Some h' -> pm_mutex h' <> Some m) as Hno.
  { intros mu' r' l' h' E' P' Q'. destruct (Hh mu' r' l' E') as (h1 & P1 & _ & _ & Hl1). simplify_eq. destruct l'; [|congruence].
    destruct Hl1 as (m1 & ? & _ & Hl1 & _). simplify_eq. }
  split; try done.
  - replace r with (bool_decide (pm_kind h = PTH_MUTEX_RECURSIVE_NP)) by (rewrite Hk; by destruct r).
    apply lk_rel_new; [done|done|]. rewrite (rel_locks_size _ _ _ _ Hlk). lia.
  - cbn. rewrite Hmp in Hb. cbn in Hb. injection Hb as -> . apply NoDup_cons in Hnd as [Hn1 Hnd]. split; [done|]. split; [done|].
    split; [|rewrite map_size_insert_None by done; lia]. intros k Hk1. rewrite lookup_insert_ne by set_solver. apply Hfr. set_solver.
  - intros mu' r' l' E. cbn in E. unfold s'. cbn. destruct (decide (mu = mu')) as [<-|Hne].
    + rewrite lookup_insert_eq in E. rewrite lookup_insert_eq. injection E as <- <-. eexists. split; [reflexivity|]. split; [done|]. split; [done|].
      exists m. split; [done|]. split; [done|]. split; [apply lookup_insert_eq|]. unfold new_rec. by rewrite decide_True.
    + rewrite lookup_insert_ne in E by done. rewrite lookup_insert_ne by done. destruct (Hh mu' r' l' E) as (h1 & P1 & Hk1 & Hi1 & Hl1). exists h1. split; [done|].
      split; [done|]. split; [done|]. destruct l' as [l'|]; [|done]. destruct Hl1 as (m1 & Hm1 & Hn1 & Hl1 & Hr1). exists m1.
      assert (m1 <> m) by (intros ->; congruence). split; [done|]. split; [done|]. unfold new_rec. rewrite decide_False, lookup_insert_ne by done. done.
  - intros mu1 mu2 h1 h2 m1. unfold s'. cbn. rewrite !lookup_insert_is_Some.
    destruct (decide (mu = mu1)) as [<-|N1], (decide (mu = mu2)) as [<-|N2]; [done|..].
    + intros _ [->|[_ [[r2 l2] E2]]]; [done|]. rewrite lookup_insert_eq, lookup_insert_ne by done. intros [= <-] P2 [= <-] Q2. by destruct (Hno mu2 r2 l2 h2 E2 P2).
    + intros [->|[_ [[r1 l1] E1]]] _; [done|]. rewrite lookup_insert_eq, lookup_insert_ne by done. intros P1 [= <-] Q1 [= <-]. by destruct (Hno mu1 r1 l1 h1 E1 P1).
    + intros [->|[_ E1]] [->|[_ E2]]; [done..|]. rewrite !lookup_insert_ne by done. by apply Hinj.
Qed.

Lemma p_rel_self s a rec H ls n : p_rel on s a rec H ls -> p_rel on (put_w (set_self (Some n) (wd s)) s) a rec H ls.
Proof. intros [Hlk ? ? ? ? ?]. split; try done. by apply lk_rel_self. Qed.

Lemma p_rel_running s a rec H ls n t : p_rel on s a rec H ls -> self (wd s) = Some n -> on n = Some t ->
  exists d, running (wd s) n t d /\ is_Some (H !! t).
Proof.
  intros Hr Hs Hon. pose proof (pr_locks _ _ _ _ _ _ Hr) as Hlk. rewrite <- (lr_on _ _ _ _ _ Hlk) in Hon. unfold runs_on in Hon.
  destruct (natives (wd s) !! n) as [d|] eqn:Hd; [|done]. simpl in Hon.
  destruct (qu_natives _ _ (lr_quiet _ _ _ _ _ Hlk) _ _ Hd) as (t' & Hc & HH). simplify_eq. exists d. by split.
Qed.

(** What the lock functions do with a handle that has a mutex. *)
Definition lock_body (tryonly : bool) (mu : nat) : M px Z :=
  m ← the_mutex mu;
  if tryonly then
    x ← onx (get_m m);
    if flag (mx_state x) PTH_MUTEX_INTERNAL_LOCKED then
      '(_, d) ← onx my_descr;
      if bool_decide (qcount (mx_lock x) > 0) && negb (bool_decide (owner (mx_lock x) = tid d)) then mret EBUSY
      else onx (internal_lock m);; mret OK
    else blocking (pth_mutex_acquire alive fuel m true false)
  else blocking (pth_mutex_acquire alive fuel m false false).

Lemma p_exec_lock n tryonly mu s : p_exec alive init_mutex frm fuel n (PLock tryonly mu) s =
  (ok ← first_use init_mutex frm mu; if negb ok then mret EINVAL else lock_body tryonly mu) (put_w (set_self (Some n) (wd s)) s).
Proof.
  unfold p_exec. rewrite (bind_run _ _ s tt (put_w (set_self (Some n) (wd s)) s)) by (by rewrite (onx_run _ _ _ _ eq_refl)).
  by destruct tryonly.
Qed.

Lemma the_mutex_run s mu h m : pmx (ob s) !! mu = Some h -> pm_mutex h = Some m -> the_mutex mu s = Ok (m, s).
Proof. intros Hp Hm. unfold the_mutex. rewrite (bind_run _ _ _ _ _ (get_pm_run _ _ _ Hp)). by rewrite Hm. Qed.

Lemma lock_ready s rec H ls n t d tryonly mu h m rc ls' :
  lk_rel rec on (wd s) H ls -> running (wd s) n t d -> is_Some (H !! t) -> pmx (ob s) !! mu = Some h -> pm_mutex h = Some m ->
  is_Some (ls !! m) -> lk_step rec t (OLock tryonly m) ls = Some (rc, ls') ->
  exists w' H', lock_body tryonly mu s = Ok (rc, put_w w' s) /\ lk_rel rec on w' H' ls' /\ frame (wd s) w'.
Proof.
  intros Hlk Hrun HH Hp Hm [l Hl] Hs.
  destruct (lock_step alive (env (sy s)) (fds (sy s)) rec on fuel _ _ _ n t d tryonly m rc _ Hlk Hrun HH Hs) as (w' & H' & E & Hlk' & Hf).
  replace (Sys (wd s) (env (sy s)) (fds (sy s))) with (sy s) in E by (by destruct (sy s)).
  pose proof (blocking_run _ s _ _ E eq_refl) as Eb. exists w', H'. split; [|done].
  destruct (lk_rel_lookup _ _ _ _ _ _ _ Hlk Hl) as (x & Hx & ((_ & Hint) & _) & _).
  unfold lock_body. rewrite (bind_run _ _ _ _ _ (the_mutex_run _ _ _ _ Hp Hm)). destruct tryonly; [|exact Eb].
  rewrite (bind_run _ _ s x s) by (by apply onx_same, get_m_run). by rewrite Hint.
Qed.

Lemma unlock_ready s rec H ls n t d mu h m rc ls' :
  lk_rel rec on (wd s) H ls -> running (wd s) n t d -> is_Some (H !! t) -> pmx (ob s) !! mu = Some h -> pm_mutex h = Some m ->
  pm_init h <> 0 -> lk_step rec t (OUnlock m) ls = Some (rc, ls') ->
  exists w' H', pthread_mutex_unlock (Some mu) s = Ok (rc, put_w w' s) /\ lk_rel rec on w' H' ls' /\ frame (wd s) w'.
Proof.
  intros Hlk Hrun HH Hp Hm Hi Hs.
  destruct (unlock_step rec on _ _ _ n t d m rc _ Hlk Hrun HH Hs) as (w' & H' & E & Hlk' & Hf).
  exists w', H'. split; [|done]. unfold pthread_mutex_unlock. rewrite (bind_run _ _ _ _ _ (get_pm_run _ _ _ Hp)).
  unfold uninit. rewrite Hm, !bool_decide_eq_false_2 by done. cbn [orb].
  rewrite (bind_run _ _ _ _ _ (the_mutex_run _ _ _ _ Hp Hm)). by apply onx_run.
Qed.

Lemma lock_body_refines s a rec H ls n t tryonly mu r l rc l' :
  p_rel on s a rec H ls -> self (wd s) = Some n -> on n = Some t -> locks_p a !! mu = Some (r, Some l) ->
  lock_call r t tryonly l = Some (rc, l') ->
  exists s' H' ls', lock_body tryonly mu s = Ok (rc, s') /\ p_rel on s' (Promise (<[mu := (r, Some l')]> (locks_p a)) (mem_p a)) rec H' ls'.
Proof.
  intros Hr Hs Hon Ha Hc. destruct (p_rel_running _ _ _ _ _ _ _ Hr Hs Hon) as (d & Hrun & HH).
  destruct (pr_handle _ _ _ _ _ _ Hr mu r (Some l) Ha) as (h & Hp & _ & _ & m & Hm & Hi & Hl & <-).
  destruct (lock_ready _ _ _ _ _ _ _ tryonly _ _ _ _ _ (pr_locks _ _ _ _ _ _ Hr) Hrun HH Hp Hm (ltac:(by eexists)) (lock_call_step _ _ _ _ _ _ _ _ Hl Hc))
    as (w' & H' & E & Hlk' & _).
  exists (put_w w' s), H', (<[m := l']> ls). split; [exact E|by eapply p_rel_update].
Qed.

Lemma p_exec_refines s a rec H ls n t op rc a' :
  p_rel on s a rec H ls -> on n = Some t -> p_step t op a = Some (rc, a') ->
  exists s' rec' H' ls', p_exec alive init_mutex frm fuel n op s = Ok (rc, s') /\ p_rel on s' a' rec' H' ls'.
Proof.
  intros Hr0 Hon Hstep. pose proof (p_rel_self _ _ _ _ _ n Hr0) as Hr. set (s1 := put_w (set_self (Some n) (wd s)) s) in *.
  assert (self (wd s1) = Some n) as Hself by done. destruct op as [tryonly mu|mu]; cbn in Hstep;
    destruct (locks_p a !! mu) as [[r l]|] eqn:Ha; try done; cbn in Hstep;
    destruct (pr_handle _ _ _ _ _ _ Hr mu r l Ha) as (h & Hp & Hok).
  - rewrite p_exec_lock. fold s1. destruct l as [l|].
    + destruct (lock_call r t tryonly l) as [[rc1 l']|] eqn:Hc; [|done]. injection Hstep as <- <-.
      rewrite (bind_run _ _ _ _ _ (first_use_ready _ _ _ _ _ Hp (handle_ready _ _ _ _ _ Hok))). cbn [negb].
      destruct (lock_body_refines _ _ _ _ _ _ _ _ _ _ _ _ _ Hr Hself Hon Ha Hc) as (s' & H' & ls' & E & Hr'). by exists s', rec, H', ls'.
    + pose proof (handle_known _ _ _ _ _ Hok) as Hk. destruct Hok as (_ & Hi & Hnull). pose proof (pr_mem _ _ _ _ _ _ Hr) as (Hb & _).
      destruct (mx_mem s1) as [|[[m junk]|] rest] eqn:Hmem; cbn in Hb; rewrite Hb in Hstep; [done|..]; injection Hstep as <- <-.
      * rewrite (bind_run _ _ _ _ _ (first_use_fresh _ _ _ _ _ (pr_start _ _ _ _ _ _ Hr) (pr_lock _ _ _ _ _ _ Hr) Hp Hnull Hk Hi m junk rest Hmem)).
        cbn [negb]. pose proof (p_rel_new _ _ _ _ _ _ _ _ _ _ _ _ Hr Ha Hp Hmem Hb) as Hr2.
        destruct (lock_body_refines _ _ _ _ _ n t tryonly mu r None 0 (Some (t, 1)) Hr2 Hself Hon (lookup_insert_eq _ _ _) eq_refl) as (s' & H' & ls' & E & Hr').
        exists s', (new_rec m r rec), H', ls'. split; [exact E|]. cbn in Hr'. by rewrite insert_insert_eq in Hr'.
      * rewrite (bind_run _ _ _ _ _ (first_use_nomem _ _ _ _ _ (pr_start _ _ _ _ _ _ Hr) (pr_lock _ _ _ _ _ _ Hr) Hp Hnull Hk Hi rest Hmem)).
        exists (set_mx_mem rest s1), rec, H, ls. split; [done|]. destruct Hr as [? ? ? (_ & Hnd & Hfr & Hsz) ? ?]. split; try done.
        rewrite Hmem in *. cbn in *. split; [done|]. split; [done|]. split; [done|lia].
  - unfold p_exec. rewrite (bind_run _ _ s tt s1) by (by rewrite (onx_run _ _ _ _ eq_refl)).
    destruct l as [l|].
    + destruct (unlock_call t l) as [rc1 l'] eqn:Hc. injection Hstep as <- <-.
      destruct Hok as (_ & _ & m & Hm & Hi & Hl & <-). destruct (p_rel_running _ _ _ _ _ _ _ Hr Hself Hon) as (d & Hrun & HH).
      destruct (unlock_ready _ _ _ _ _ _ _ _ _ _ _ _ (pr_locks _ _ _ _ _ _ Hr) Hrun HH Hp Hm Hi (unlock_call_step _ _ _ _ _ _ _ Hl Hc)) as (w' & H' & E & Hlk' & _).
      exists (put_w w' s1), rec, H', (<[m := l']> ls). split; [exact E|by eapply p_rel_update].
    + unfold pthread_mutex_unlock. rewrite (bind_run _ _ _ _ _ (get_pm_run _ _ _ Hp)).
      injection Hstep as <- <-. destruct Hok as (_ & _ & Hnull). rewrite (uninit_null _ Hnull). by exists s1, rec, H, ls.
Qed.
End p_sim.

Fixpoint p_run (alive : Z -> bool) (init_mutex : nat -> nat) (frm : Z) (fuel : nat) (ops : list (nat * p_op)) : M px (list Z) :=
  match ops with
  | [] => mret []
  | (n, op) :: ops => r ← p_exec alive init_mutex frm fuel n op; rs ← p_run alive init_mutex frm fuel ops; mret (r :: rs)
  end.
Fixpoint p_steps (on : nat -> option nat) (ops : list (nat * p_op)) (a : promise) : option (list Z * promise) :=
  match ops with
  | [] => Some ([], a)
  | (n, op) :: ops => t ← on n; '(r, a) ← p_step t op a; '(rs, a) ← p_steps on ops a; Some (r :: rs, a)
  end.

(** C30: mutex handles of the POSIX interface are locks.  Any sequence of
    [pthread_mutex_lock], [pthread_mutex_trylock] and [pthread_mutex_unlock], by
    any threads on any natives, on handles with a static initialiser returns what
    a lock with an owner and a depth promises, as long as the promise says that
    no call blocks: a handle gets its mutex, with the kind of the initialiser, at
    its first use, two handles never share one, when there is no memory the call
    returns EINVAL and the handle can be tried again, and unlocking a handle that
    was never used returns EINVAL. *)
Theorem posix_mutex_refines alive init_mutex frm fuel on ops s a rec H ls rs a' :
  p_rel on s a rec H ls -> p_steps on ops a = Some (rs, a') ->
  exists s' rec' H' ls', p_run alive init_mutex frm fuel ops s = Ok (rs, s') /\ p_rel on s' a' rec' H' ls'.
Proof.
  revert s a rec H ls rs. induction ops as [|[n op] ops IH]; intros s a rec H ls rs Hr Hs; cbn in Hs.
  - injection Hs as <- <-. by exists s, rec, H, ls.
  - destruct (on n) as [t|] eqn:Hon; [|done]. cbn in Hs. destruct (p_step t op a) as [[r a1]|] eqn:Hp; [|done]. cbn in Hs.
    destruct (p_steps on ops a1) as [[rs1 a2]|] eqn:Hq; [|done]. injection Hs as <- <-.
    destruct (p_exec_refines alive init_mutex frm fuel on _ _ _ _ _ _ _ _ _ _ Hr Hon Hp) as (s1 & rec1 & H1 & ls1 & E1 & Hr1).
    destruct (IH _ _ _ _ _ _ Hr1 Hq) as (s2 & rec2 & H2 & ls2 & E2 & Hr2). exists s2, rec2, H2, ls2. split; [|done].
    cbn. rewrite (bind_run _ _ _ _ _ E1). by rewrite (bind_run _ _ _ _ _ E2).
Qed.

(** Two natives, two threads, two handles with a static initialiser, and memory
    for two mutexes, once with a failure. *)
Definition handles_demo : px :=
  Px (Sys (raw_world [1%nat; 2%nat] []) [] []) (PObjs {[20%nat := PMutex None 1 0 0; 21%nat := PMutex None 1 1 0]} ∅ ∅ ∅) []
    ∅ ∅ ∅ [Some (10%nat, raw_mutex); None; Some (11%nat, raw_mutex)] [] [] [] [] 0 qlock_free false 0.
Definition handles_promise : promise := Promise {[20%nat := (false, None); 21%nat := (true, None)]} [true; false; true].

Lemma no_locks_rel : lk_rel (fun _ => false) (runs_on (raw_world [1%nat; 2%nat] [])) (raw_world [1%nat; 2%nat] []) two_holdings ∅.
Proof.
  assert (forall t o l, two_holdings !! t = Some (o, l) -> (t = 1%nat \/ t = 2%nat) /\ o = None /\ l = []) as Hh.
  { unfold two_holdings. intros t o l [[<- E]|[_ [<- E]%lookup_singleton_Some]]%lookup_insert_Some; simplify_eq; eauto. }
  assert (forall t, held two_holdings t = []) as Hnone.
  { intros t. unfold held. destruct (two_holdings !! t) as [[o l]|] eqn:Et; [|done]. by destruct (Hh _ _ _ Et) as (_ & -> & ->). }
  split; [split; [split|..]|..].
  - intros t o l Ht. destruct (Hh _ _ _ Ht) as ([-> | ->] & -> & ->); exists a_thread; by repeat split.
  - intros m x Hm. change (mutexes _) with (∅ : gmap nat pth_mutex_st) in Hm. by rewrite lookup_empty in Hm.
  - intros t m. rewrite Hnone. intros []%elem_of_nil.
  - intros t. rewrite Hnone. constructor.
  - done.
  - intros m x Hm. change (mutexes _) with (∅ : gmap nat pth_mutex_st) in Hm. by rewrite lookup_empty in Hm.
  - intros n d. destruct n as [|[|n]]; intros [= <-]; eexists; (split; [reflexivity|]); by eexists.
  - done.
  - done.
  - done.
Qed.

Lemma handles_demo_rel : p_rel (runs_on (raw_world [1%nat; 2%nat] [])) handles_demo handles_promise (fun _ => false) two_holdings ∅.
Proof.
  split; [apply no_locks_rel|done|done|..].
  - split; [done|]. split; [by repeat constructor; set_solver|]. split; [intros m _; apply lookup_empty|done].
  - intros mu r l. cbn [handles_promise locks_p].
    intros [[<- E]|[_ [<- E]%lookup_singleton_Some]]%lookup_insert_Some; simplify_eq; eexists; (split; [reflexivity|]); done.
  - intros mu mu' h h' m _ _ P P' Em. exfalso. revert P. cbn [handles_demo ob pmx].
    intros [[<- <-]|[_ [<- <-]%lookup_singleton_Some]]%lookup_insert_Some; done.
Qed.

Lemma posix_mutex_refines_witness :
  exists s', p_run (fun _ => true) (fun i => i) 7 0
    [(0%nat, PLock false 20); (1%nat, PLock true 20); (1%nat, PLock false 21); (0%nat, PUnlock 21); (1%nat, PLock false 21);
     (1%nat, PLock true 21); (0%nat, PUnlock 20); (0%nat, PUnlock 21)]%nat handles_demo =
    Ok ([0; EBUSY; EINVAL; EINVAL; 0; 0; 0; EPERM], s').
Proof.
  destruct (posix_mutex_refines (fun _ => true) (fun i => i) 7 0 _ [(0%nat, PLock false 20); (1%nat, PLock true 20); (1%nat, PLock false 21);
    (0%nat, PUnlock 21); (1%nat, PLock false 21); (1%nat, PLock true 21); (0%nat, PUnlock 20); (0%nat, PUnlock 21)]%nat
    handles_demo handles_promise _ _ _ [0; EBUSY; EINVAL; EINVAL; 0; 0; 0; EPERM]
    (Promise {[20%nat := (false, Some None); 21%nat := (true, Some (Some (2%nat, 2)))]} []) handles_demo_rel) as (s' & _ & _ & _ & E & _).
  - vm_compute. reflexivity.
  - by exists s'.
Defined.
