(* ===== verification/SemProofs.v ===== *)
(** * Semaphores: proofs

    Theorems about semaphore.c (see Posix): a semaphore is a counter, and what
    happens when a waiting thread is overtaken. *)

From S2P Require Import Prelude Bitmap Dll LinkedList Ring Priorities PQueue Futex World Sync Posix.
From S2P Require Import MutexProofs PosixProofs.

(** ** A condition variable nobody waits for *)

Lemma cond_get_run w c x : conds w !! c = Some x -> get_c c w = Ok (x, w).
Proof. intros E. unfold get_c, get, mbind, M_bind. by rewrite E. Qed.
Lemma cond_upd_run w c x f : conds w !! c = Some x -> upd_c c f w = Ok (tt, set_conds (<[c := f x]> (conds w)) w).
Proof. intros E. unfold upd_c. by rewrite (bind_run _ _ _ _ _ (cond_get_run w c x E)). Qed.

Definition nobody_waits (x : pth_cond_st) : Prop :=
  flag (cn_state x) PTH_COND_INITIALIZED = true /\ cn_waiters x = 0 /\ spinlock (cn_lock x) = 0.

Lemma notify_nobody fuel c b s n d x : self (wld s) = Some n -> natives (wld s) !! n = Some d -> conds (wld s) !! c = Some x ->
  nobody_waits x -> pth_cond_notify fuel c b s = Ok (true, s).
Proof.
  intros Hs Hd Hx (Hi & Hw & Hl). destruct s as [w E F]. cbn in *. unfold pth_cond_notify.
  rewrite (bind_run _ _ _ _ _ (lift_run _ (Sys w E F) _ _ (cond_get_run w c x Hx))). cbn [wld env fds]. rewrite Hi. cbn [negb].
  rewrite (bind_run _ _ _ _ _ (lift_run _ (Sys w E F) _ _ (my_descr_run w n d Hs Hd))). cbv beta iota. cbn [wld env fds].
  set (x1 := set_cn_lock (set_spinlock 1 (cn_lock x)) x). set (w1 := set_conds (<[c := x1]> (conds w)) w).
  rewrite (bind_run _ _ _ tt (Sys w1 E F)).
  2:{ rewrite (lift_run _ _ tt w1); [done|]. unfold cn_acquire. rewrite (bind_run _ _ _ _ _ (cond_get_run w c x Hx)).
      unfold raw_lock. rewrite bool_decide_eq_true_2 by done. rewrite (bind_run (of_res (Ok _)) _ _ _ _ eq_refl). by apply cond_upd_run. }
  assert (conds w1 !! c = Some x1) as H1 by apply lookup_insert_eq.
  rewrite (bind_run _ _ _ _ _ (lift_run _ (Sys w1 E F) _ _ (cond_get_run w1 c x1 H1))). cbn [wld env fds]. cbn [cn_waiters x1 set_cn_lock].
  rewrite Hw, (bool_decide_eq_false_2 (0 > 0)) by lia.
  rewrite (bind_run _ _ _ tt (Sys w E F)); [done|]. rewrite (lift_run _ _ tt w); [done|]. unfold cn_release. rewrite (cond_upd_run _ _ _ _ H1).
  unfold w1. do 2 f_equal. cbn. rewrite insert_insert_eq. replace (set_cn_lock _ x1) with x.
  - rewrite insert_id by done. by destruct w.
  - unfold x1. destruct x as [? ? ? [] ? ?]. cbn in *. by subst.
Qed.

(** ** Semaphores refine counters *)

Inductive sem_op : Set := SPost | SWait | STry | SGet.

(** [None]: the call blocks, or counts beyond the width of the counter. *)
Definition sem_step (op : sem_op) (v : Z) : option (Z * Z) :=
  match op with
  | SPost => if bool_decide (v < SEM_VALUE_MAX) then Some (0, v + 1) else None
  | SWait => if bool_decide (v = 0) then None else Some (0, v - 1)
  | STry => Some (if bool_decide (v = 0) then (-1, v) else (0, v - 1))
  | SGet => Some (v, v)
  end.

Section semaphores.
Context (alive : Z -> bool) (init_mutex : nat -> nat) (frm : Z) (fuel : nat) (cancel_point : M sys unit) (on : nat -> option nat).
(** The semaphore, its mutex and condition variable with their handles, and the
    variable for [sem_getvalue]. *)
Context (sem l z m c var : nat).

(** The call of the thread on native [n]; [sem_getvalue] returns the value
    through the variable. *)
Definition sem_exec (n : nat) (op : sem_op) : M px Z :=
  onx (modify (set_self (Some n)));;
  match op with
  | SPost => __new_sem_post alive init_mutex frm fuel sem
  | SWait => __new_sem_wait alive init_mutex frm fuel cancel_point sem
  | STry => __new_sem_trywait alive init_mutex frm fuel sem
  | SGet => __new_sem_getvalue sem (Some var);; read_int var
  end.

Record sem_rel (s : px) (v : Z) (rec : nat -> bool) (H : holdings) (ls : locks) : Prop := {
  sr_locks : lk_rel rec on (wd s) H ls;
  sr_free : ls !! m = Some None;
  sr_sem : sems (ob s) !! sem = Some (Sem v (Some (l, z)));
  sr_mutex : exists h, pmx (ob s) !! l = Some h /\ pm_mutex h = Some m /\ pm_init h <> 0;
  sr_cond : exists h, pcn (ob s) !! z = Some h /\ pc_cond h = Some c /\ pc_init h <> 0;
  sr_nobody : exists x, conds (wd s) !! c = Some x /\ nobody_waits x;
  sr_var : is_Some (ivars s !! var);
  sr_value : 0 <= v <= SEM_VALUE_MAX }.

Definition put_sem (v : Z) (s : px) : px := set_ob (set_sems (<[sem := Sem v (Some (l, z))]> (sems (ob s))) (ob s)) s.

Lemma get_sem_run s v : sems (ob s) !! sem = Some (Sem v (Some (l, z))) -> get_sem sem s = Ok (Sem v (Some (l, z)), s).
Proof. intros E. unfold get_sem, get, mbind, M_bind, of_option. by rewrite E. Qed.
Lemma sem_lock_run s v : sems (ob s) !! sem = Some (Sem v (Some (l, z))) -> sem_lock sem s = Ok (l, s).
Proof. intros E. unfold sem_lock. by rewrite (bind_run _ _ _ _ _ (get_sem_run _ _ E)). Qed.
Lemma upd_sem_run s v f v' : sems (ob s) !! sem = Some (Sem v (Some (l, z))) -> f (Sem v (Some (l, z))) = Sem v' (Some (l, z)) ->
  upd_sem sem f s = Ok (tt, put_sem v' s).
Proof. intros E Hf. unfold upd_sem. rewrite (bind_run _ _ _ _ _ (get_sem_run _ _ E)). unfold modify. by rewrite Hf. Qed.

Section locked.
Context (s : px) (v : Z) (rec : nat -> bool) (H : holdings) (ls : locks) (Hr : sem_rel s v rec H ls).
Context (n t : nat) (d : pth_descr_st) (Hrun : running (wd s) n t d) (HH : is_Some (H !! t)).

(** The mutex of the semaphore is taken, at once. *)
Lemma sem_enter tryonly : exists w1 H1,
  (ok ← first_use init_mutex frm l; if negb ok then mret EINVAL else lock_body alive fuel tryonly l) s = Ok (0, put_w w1 s) /\
  lk_rel rec on w1 H1 (<[m := Some (t, 1)]> ls) /\ frame (wd s) w1 /\ is_Some (H1 !! t).
Proof.
  destruct (sr_mutex _ _ _ _ _ Hr) as (h & Hp & Hm & Hi). pose proof (sr_free _ _ _ _ _ Hr) as Hf.
  destruct (lock_ready alive fuel on s rec H ls n t d tryonly l h m 0 (<[m := Some (t, 1)]> ls) (sr_locks _ _ _ _ _ Hr) Hrun HH Hp Hm)
    as (w1 & H1 & E & Hlk & Hfr); [by eexists|cbn; by rewrite Hf|].
  exists w1, H1. split; [|split; [done|split; [done|]]].
  - rewrite (bind_run _ _ s true s); [exact E|]. eapply first_use_ready; [exact Hp|]. unfold uninit. rewrite Hm. by rewrite !bool_decide_eq_false_2.
  - destruct Hrun as (_ & Hd & Hc). rewrite <- (fr_natives _ _ Hfr) in Hd.
    destruct (qu_natives _ _ (lr_quiet _ _ _ _ _ Hlk) _ _ Hd) as (t' & Hc' & ?). by simplify_eq.
Qed.

(** It is released with a new value, and all is as before. *)
Lemma sem_leave w1 H1 v' : lk_rel rec on w1 H1 (<[m := Some (t, 1)]> ls) -> frame (wd s) w1 -> is_Some (H1 !! t) -> 0 <= v' <= SEM_VALUE_MAX ->
  exists w2 H2, pthread_mutex_unlock (Some l) (put_sem v' (put_w w1 s)) = Ok (0, put_sem v' (put_w w2 s)) /\
    sem_rel (put_sem v' (put_w w2 s)) v' rec H2 ls.
Proof.
  intros Hlk Hfr Ht Hv. destruct (sr_mutex _ _ _ _ _ Hr) as (h & Hp & Hm & Hi). pose proof (sr_free _ _ _ _ _ Hr) as Hf.
  destruct (unlock_ready on (put_sem v' (put_w w1 s)) rec H1 (<[m := Some (t, 1)]> ls) n t d l h m 0 (<[m := None]> (<[m := Some (t, 1)]> ls)) Hlk)
    as (w2 & H2 & E & Hlk2 & Hfr2); try done.
  - destruct Hrun as (Hs & Hd & Hc). split_and!; [|by rewrite <- (fr_natives _ _ Hfr) in Hd|done]. cbn. by rewrite (fr_self _ _ Hfr).
  - cbn. rewrite lookup_insert_eq. cbn. by rewrite decide_True.
  - exists w2, H2. rewrite insert_insert_eq, insert_id in Hlk2 by done. split; [exact E|].
    destruct Hr as [? ? ? ? ? (x & Hx & ?) ? ?]. split; try done.
    + cbn. apply lookup_insert_eq.
    + exists x. split; [|done]. cbn. by rewrite (fr_conds _ _ Hfr2), <- Hx, <- (fr_conds _ _ Hfr).
Qed.

Lemma put_sem_id w : put_sem v (put_w w s) = put_w w s.
Proof.
  pose proof (sr_sem _ _ _ _ _ Hr) as Hs. unfold put_sem. cbn. rewrite insert_id by done. by destruct s as [? []].
Qed.

Lemma value_range k : - 1 <= v + k <= SEM_VALUE_MAX -> swrap 32 (v + k) = v + k.
Proof. intros Hk. unfold SEM_VALUE_MAX in Hk. apply swrap_small; lia. Qed.

Lemma sem_post_run : v < SEM_VALUE_MAX -> exists s' H', __new_sem_post alive init_mutex frm fuel sem s = Ok (0, s') /\ sem_rel s' (v + 1) rec H' ls.
Proof.
  intros Hlt. pose proof (sr_sem _ _ _ _ _ Hr) as Hsem. pose proof (sr_value _ _ _ _ _ Hr) as Hval.
  destruct (sem_enter false) as (w1 & H1 & E1 & Hlk1 & Hfr & Ht). destruct (sem_leave w1 H1 (v + 1) Hlk1 Hfr Ht ltac:(lia)) as (w2 & H2 & E2 & Hr2).
  exists (put_sem (v + 1) (put_w w2 s)), H2. split; [|exact Hr2].
  unfold __new_sem_post. rewrite (bind_run _ _ _ _ _ (sem_lock_run _ _ Hsem)).
  rewrite (bind_run (pthread_mutex_lock alive init_mutex frm fuel (Some l)) _ _ _ _ E1).
  rewrite (bind_run _ _ _ tt (put_sem (v + 1) (put_w w1 s))).
  2:{ apply upd_sem_run with (v := v); [exact Hsem|]. cbn. by rewrite value_range by lia. }
  assert (sems (ob (put_sem (v + 1) (put_w w1 s))) !! sem = Some (Sem (v + 1) (Some (l, z)))) as Hs1 by apply lookup_insert_eq.
  rewrite (bind_run _ _ _ _ _ (get_sem_run _ _ Hs1)). cbn [sem_value]. rewrite (bool_decide_eq_false_2 (v + 1 = 0)) by lia. cbn [negb].
  rewrite (bind_run _ _ _ tt (put_sem (v + 1) (put_w w1 s))); [by rewrite (bind_run _ _ _ _ _ E2)|].
  unfold sem_nonzero. rewrite (bind_run _ _ _ z (put_sem (v + 1) (put_w w1 s))) by (by rewrite (bind_run _ _ _ _ _ (get_sem_run _ _ Hs1))).
  destruct (sr_cond _ _ _ _ _ Hr) as (h & Hp & Hc & Hi). destruct (sr_nobody _ _ _ _ _ Hr) as (x & Hx & Hno).
  unfold pthread_cond_signal, cond_notify, the_cond. destruct Hrun as (Hself & Hd & _).
  rewrite (bind_run _ _ _ 0 (put_sem (v + 1) (put_w w1 s))); [done|].
  rewrite (bind_run _ _ _ (Some c) (put_sem (v + 1) (put_w w1 s))).
  - rewrite (bind_run _ _ _ true (put_sem (v + 1) (put_w w1 s))); [done|].
    rewrite (blocking_run _ _ true (Sys w1 (env (sy s)) (fds (sy s)))); [done| |done].
    apply (notify_nobody _ _ _ _ n d x); [by rewrite <- Hself, <- (fr_self _ _ Hfr)|by rewrite <- Hd, <- (fr_natives _ _ Hfr)|by rewrite <- Hx, <- (fr_conds _ _ Hfr)|done].
  - assert (get_pc z (put_sem (v + 1) (put_w w1 s)) = Ok (h, put_sem (v + 1) (put_w w1 s))) as Eg.
    { unfold get_pc, get, mbind, M_bind, of_option. cbn. by rewrite Hp. }
    rewrite (bind_run _ _ _ _ _ Eg). rewrite Hc, (bool_decide_eq_false_2 (Some c = None)), (bool_decide_eq_false_2 (pc_init h = 0)) by done. cbn [orb].
    rewrite (bind_run (mret true) _ _ _ _ eq_refl). cbn [negb]. rewrite (bind_run _ _ _ _ _ Eg). by rewrite Hc.
Qed.

Lemma sem_wait_run : v <> 0 -> exists s' H', __new_sem_wait alive init_mutex frm fuel cancel_point sem s = Ok (0, s') /\ sem_rel s' (v - 1) rec H' ls.
Proof.
  intros Hne. pose proof (sr_sem _ _ _ _ _ Hr) as Hsem. pose proof (sr_value _ _ _ _ _ Hr) as Hval.
  destruct (sem_enter false) as (w1 & H1 & E1 & Hlk1 & Hfr & Ht). destruct (sem_leave w1 H1 (v - 1) Hlk1 Hfr Ht ltac:(lia)) as (w2 & H2 & E2 & Hr2).
  exists (put_sem (v - 1) (put_w w2 s)), H2. split; [|exact Hr2].
  unfold __new_sem_wait. rewrite (bind_run _ _ _ _ _ (sem_lock_run _ _ Hsem)).
  rewrite (bind_run (pthread_mutex_lock alive init_mutex frm fuel (Some l)) _ _ _ _ E1).
  rewrite (bind_run _ _ _ _ _ (get_sem_run (put_w w1 s) v Hsem)). cbn [sem_value]. rewrite (bool_decide_eq_false_2 (v = 0)) by done.
  rewrite (bind_run (mret tt) _ _ _ _ eq_refl). rewrite (bind_run _ _ _ tt (put_sem (v - 1) (put_w w1 s))).
  2:{ apply upd_sem_run with (v := v); [exact Hsem|]. cbn. replace (v - 1) with (v + -1) by lia. by rewrite value_range by lia. }
  rewrite (bind_run _ _ _ l (put_sem (v - 1) (put_w w1 s))) by (apply sem_lock_run with (v := v - 1), lookup_insert_eq).
  by rewrite (bind_run _ _ _ _ _ E2).
Qed.

Lemma sem_trywait_run : exists s' H', __new_sem_trywait alive init_mutex frm fuel sem s = Ok (if bool_decide (v = 0) then -1 else 0, s') /\
  sem_rel s' (if bool_decide (v = 0) then v else v - 1) rec H' ls.
Proof.
  pose proof (sr_sem _ _ _ _ _ Hr) as Hsem. pose proof (sr_value _ _ _ _ _ Hr) as Hval.
  destruct (sem_enter true) as (w1 & H1 & E1 & Hlk1 & Hfr & Ht).
  destruct (sem_leave w1 H1 (if bool_decide (v = 0) then v else v - 1) Hlk1 Hfr Ht ltac:(case_bool_decide; lia)) as (w2 & H2 & E2 & Hr2).
  unfold __new_sem_trywait. rewrite (bind_run _ _ _ _ _ (sem_lock_run _ _ Hsem)).
  rewrite (bind_run (pthread_mutex_trylock alive init_mutex frm fuel (Some l)) _ _ _ _ E1).
  rewrite (bool_decide_eq_true_2 (0 = 0)) by done. case_bool_decide as Hv0.
  - rewrite !put_sem_id in *. exists (set_errno EAGAIN (put_w w2 s)), H2. split; [|by destruct Hr2].
    rewrite (bind_run _ _ _ (-1) (put_w w2 s)); [done|]. rewrite (bind_run _ _ _ _ _ (get_sem_run (put_w w1 s) v Hsem)). cbn [sem_value].
    rewrite bool_decide_eq_true_2 by done. by rewrite (bind_run _ _ _ _ _ E2).
  - exists (put_sem (v - 1) (put_w w2 s)), H2. split; [|exact Hr2]. rewrite (bind_run _ _ _ 0 (put_sem (v - 1) (put_w w2 s))); [done|].
    rewrite (bind_run _ _ _ _ _ (get_sem_run (put_w w1 s) v Hsem)). cbn [sem_value]. rewrite bool_decide_eq_false_2 by done.
    rewrite (bind_run _ _ _ tt (put_sem (v - 1) (put_w w1 s))); [by rewrite (bind_run _ _ _ _ _ E2)|].
    apply upd_sem_run with (v := v); [exact Hsem|]. cbn. replace (v - 1) with (v + -1) by lia. by rewrite value_range by lia.
Qed.
End locked.

Lemma sem_getvalue_run s v rec H ls : sem_rel s v rec H ls ->
  exists s', (__new_sem_getvalue sem (Some var);; read_int var) s = Ok (v, s') /\ sem_rel s' v rec H ls.
Proof.
  intros Hr. destruct (sr_var _ _ _ _ _ Hr) as [k Hk]. exists (set_ivars (<[var := v]> (ivars s)) s). split.
  - unfold __new_sem_getvalue. rewrite (bind_run _ _ _ 0 (set_ivars (<[var := v]> (ivars s)) s)).
    + unfold read_int, get, mbind, M_bind, of_option. cbn. by rewrite lookup_insert_eq.
    + rewrite (bind_run _ _ _ _ _ (get_sem_run _ _ (sr_sem _ _ _ _ _ Hr))). cbn [sem_value].
      unfold write_int, read_int, get, modify, mbind, M_bind, of_option. by rewrite Hk.
  - destruct Hr. split; try done. cbn. rewrite lookup_insert_eq. by eexists.
Qed.

Lemma sem_exec_refines s v rec H ls n t op r v' :
  sem_rel s v rec H ls -> on n = Some t -> sem_step op v = Some (r, v') ->
  exists s' H', sem_exec n op s = Ok (r, s') /\ sem_rel s' v' rec H' ls.
Proof.
  intros Hr0 Hon Hstep. set (s1 := put_w (set_self (Some n) (wd s)) s).
  assert (sem_rel s1 v rec H ls) as Hr by (destruct Hr0; split; try done; by apply lk_rel_self).
  assert (exists d, running (wd s1) n t d /\ is_Some (H !! t)) as (d & Hrun & HH).
  { pose proof (sr_locks _ _ _ _ _ Hr) as Hlk. rewrite <- (lr_on _ _ _ _ _ Hlk) in Hon. unfold runs_on in Hon.
    destruct (natives (wd s1) !! n) as [d|] eqn:Hd; [|done]. simpl in Hon.
    destruct (qu_natives _ _ (lr_quiet _ _ _ _ _ Hlk) _ _ Hd) as (t' & Hc & HH). simplify_eq. exists d. by split. }
  unfold sem_exec. rewrite (bind_run _ _ s tt s1) by (by rewrite (onx_run _ _ _ _ eq_refl)). destruct op; cbn in Hstep.
  - case_bool_decide; [|done]. injection Hstep as <- <-. by eapply sem_post_run.
  - case_bool_decide; [done|]. injection Hstep as <- <-. by eapply sem_wait_run.
  - destruct (sem_trywait_run s1 v rec H ls Hr n t d Hrun HH) as (s' & H' & E & Hr'). exists s', H'.
    case_bool_decide; injection Hstep as <- <-; by split.
  - injection Hstep as <- <-. destruct (sem_getvalue_run _ _ _ _ _ Hr) as (s' & E & Hr'). by exists s', H.
Qed.

Fixpoint sem_run (ops : list (nat * sem_op)) : M px (list Z) :=
  match ops with
  | [] => mret []
  | (n, op) :: ops => r ← sem_exec n op; rs ← sem_run ops; mret (r :: rs)
  end.
Fixpoint sem_steps (ops : list (nat * sem_op)) (v : Z) : option (list Z * Z) :=
  match ops with
  | [] => Some ([], v)
  | (n, op) :: ops => _ ← on n; '(r, v) ← sem_step op v; '(rs, v) ← sem_steps ops v; Some (r :: rs, v)
  end.

(** C29: a semaphore is a counter.  Any sequence of [sem_post], [sem_wait],
    [sem_trywait] and [sem_getvalue], by any threads on any natives, returns what
    a counter returns, as long as no call blocks or counts beyond the largest
    value: [sem_trywait] fails exactly when the counter is 0, and the mutex and
    the condition variable of the semaphore are free after every call. *)
Theorem sem_refines ops s v rec H ls rs v' :
  sem_rel s v rec H ls -> sem_steps ops v = Some (rs, v') ->
  exists s' H', sem_run ops s = Ok (rs, s') /\ sem_rel s' v' rec H' ls.
Proof.
  revert s v H rs. induction ops as [|[n op] ops IH]; intros s v H rs Hr Hs; cbn in Hs.
  - injection Hs as <- <-. by exists s, H.
  - destruct (on n) as [t|] eqn:Hon; [|done]. cbn in Hs. destruct (sem_step op v) as [[r v1]|] eqn:Hp; [|done]. cbn in Hs.
    destruct (sem_steps ops v1) as [[rs1 v2]|] eqn:Hq; [|done]. injection Hs as <- <-.
    destruct (sem_exec_refines _ _ _ _ _ _ _ _ _ _ Hr Hon Hp) as (s1 & H1 & E1 & Hr1).
    destruct (IH _ _ _ _ Hr1 Hq) as (s2 & H2 & E2 & Hr2). exists s2, H2. split; [|done].
    cbn. rewrite (bind_run _ _ _ _ _ E1). by rewrite (bind_run _ _ _ _ _ E2).
Qed.
End semaphores.

(** The locks do not depend on the condition variables. *)
Lemma lk_rel_conds rec on w H ls cs : lk_rel rec on w H ls -> lk_rel rec on (set_conds cs w) H ls.
Proof. intros [[[] Hid Hnat] Hs Hr Ho]. split; [split; [by split|done|done]|done..]. Qed.

(** Two threads on two natives, and a semaphore with the value [v]. *)
Definition sem_world : world := set_conds {[30%nat := Cond PTH_COND_INITIALIZED 0 0 qlock_free (RFutex (Futex 0) false 0) 0]} (two_threads 0).
Definition sem_objs (v : Z) : pobjs := PObjs {[20%nat := PMutex (Some 10%nat) 1 0 0]} {[21%nat := PCond (Some 30%nat) 1]} ∅ {[40%nat := Sem v (Some (20%nat, 21%nat))]}.
Definition sem_demo (v : Z) : px :=
  Px (Sys sem_world [] []) (sem_objs v) [] ∅ ∅ {[5%nat := 0]} [] [] [] [] [] 0 qlock_free false 0.

Lemma sem_demo_rel v : 0 <= v <= SEM_VALUE_MAX ->
  sem_rel (runs_on (two_threads 0)) 40 20 21 10 30 5 (sem_demo v) v (is_recursive (two_threads 0)) two_holdings {[10%nat := None; 11%nat := None]}.
Proof.
  intros Hv. split.
  - apply lk_rel_conds, two_threads_rel.
  - reflexivity.
  - reflexivity.
  - eexists. by split.
  - eexists. by split.
  - eexists. split; [reflexivity|]. by split.
  - by eexists.
  - exact Hv.
Qed.

Lemma sem_refines_witness :
  exists s', sem_run (fun _ => true) (fun i => i) 7 0 (mret tt) 40 5
    [(0%nat, SWait); (1%nat, STry); (1%nat, SPost); (0%nat, SPost); (0%nat, SGet); (1%nat, SWait)] (sem_demo 1) = Ok ([0; -1; 0; 0; 2; 0], s').
Proof.
  destruct (sem_refines (fun _ => true) (fun i => i) 7 0 (mret tt) (runs_on (two_threads 0)) 40 20 21 10 30 5
    [(0%nat, SWait); (1%nat, STry); (1%nat, SPost); (0%nat, SPost); (0%nat, SGet); (1%nat, SWait)] (sem_demo 1) 1 _ _ _ [0; -1; 0; 0; 2; 0] 1
    (sem_demo_rel 1 ltac:(done)) eq_refl) as (s' & _ & E & _). by exists s'.
Defined.

(** ** A thread that is overtaken

    What thread 2 on native 1 does while thread 1 waits: it posts the semaphore,
    which wakes thread 1, and takes the semaphore before thread 1 runs. *)

Definition intruder (w : world) (o : pobjs) : res (list Z * px) :=
  sem_run (fun _ => true) (fun i => i) 7 3 (mret tt) 40 5 [(1%nat, SPost); (1%nat, STry)]
    (Px (Sys w [] []) o [] ∅ ∅ {[5%nat := 0]} [] [] [] [] [] 0 qlock_free false 0).
Definition intruder_world (w : world) : world :=
  match intruder w (sem_objs 0) with Ok (_, s) => set_self (Some 0%nat) (wd s) | Err _ => w end.
Definition intruder_objs (w : world) (o : pobjs) : pobjs := match intruder w o with Ok (_, s) => ob s | Err _ => o end.

(** The threads and the condition variable with their nodes for wait lists. *)
Definition waiting_world : world :=
  set_waits (<[WThread 1 := Link None None]> (<[WThread 2 := Link None None]>
    (<[WCond 30 := Link (Some (WCond 30)) (Some (WCond 30))]> (waits sem_world)))) sem_world.

(** Thread 1 finds the value 0, sleeps once, and is woken. *)
Definition overtaken : px :=
  set_pothers [intruder_objs waiting_world] (set_sy (Sys waiting_world [Wakeup intruder_world true] []) (sem_demo 0)).

(** [sem_wait] tests the value only once.  A thread waits for a semaphore
    with the value 0; another one posts it and takes it back, both with success,
    before the first one runs; the first one does not look at the value again:
    [sem_wait] returns 0, and the value is -1.  Afterwards [sem_trywait]
    succeeds, too: three threads have passed after one post. *)
Theorem sem_wait_overtaken :
  (exists s, intruder waiting_world (sem_objs 0) = Ok ([0; 0], s)) /\
  exists s1 s2, __new_sem_wait (fun _ => true) (fun i => i) 7 3 (mret tt) 40 overtaken = Ok (0, s1) /\
    sem_value <$> sems (ob s1) !! 40%nat = Some (-1) /\
    __new_sem_trywait (fun _ => true) (fun i => i) 7 3 40 s1 = Ok (0, s2) /\ sem_value <$> sems (ob s2) !! 40%nat = Some (-2).
Proof. split; [eexists; vm_compute; reflexivity|]. eexists _, _. split; [vm_compute; reflexivity|]. by vm_compute. Qed.
