(* ===== verification/PString.v ===== *)
(** * Formatted printing (pth_string.c)

    [pth_snprintf] and its relatives, for the ia32 processor: [int], [long] and
    [size_t] have 32 bits, [long long] has 64.  A string is a list of character
    codes; a format ends with its NUL.  The buffer is the memory the caller
    provides: writing behind its end is the fault [OutOfBounds], as are reading
    behind the end of the format and before the digits [fmtfp] picks from.  Signed overflow wraps around.  The operations
    of the floating point unit are a parameter ([LDOUBLE]). *)

From S2P Require Import Prelude.

Definition NUL : Z := 0.

(** The format read states and the conversion flags. *)
Inductive dp_state : Set := DP_S_DEFAULT | DP_S_FLAGS | DP_S_MIN | DP_S_DOT | DP_S_MAX | DP_S_MOD | DP_S_CONV | DP_S_DONE.
#[global] Instance dp_state_eq_dec : EqDecision dp_state.
Proof. solve_decision. Defined.
Inductive dp_cflags : Set := DP_C_NONE | DP_C_SHORT | DP_C_LONG | DP_C_LDOUBLE | DP_C_LLONG.

Definition DP_F_MINUS : Z := BIT 0.
Definition DP_F_PLUS : Z := BIT 1.
Definition DP_F_SPACE : Z := BIT 2.
Definition DP_F_NUM : Z := BIT 3.
Definition DP_F_ZERO : Z := BIT 4.
Definition DP_F_UP : Z := BIT 5.
Definition DP_F_UNSIGNED : Z := BIT 6.

(** ** Output *)

(** The buffer, NULL when only the length is asked for, and [currlen]. *)
Record out : Set := Out { o_buf : option (list Z); o_len : Z }.

Definition dopr_outch (maxlen c : Z) : M out unit :=
  s ← get;
  if bool_decide (o_len s < maxlen) then
    match o_buf s with
    | None => modify (fun _ => Out None (o_len s + 1))
    | Some b =>
        if bool_decide (o_len s < Z.of_nat (length b)) then modify (fun _ => Out (Some (<[Z.to_nat (o_len s) := wrap 8 c]> b)) (o_len s + 1))
        else fail OutOfBounds
    end
  else mret tt.

(** [while (n > 0) { dopr_outch(c); --n; }] *)
Fixpoint out_times (maxlen c : Z) (n : nat) : M out unit :=
  match n with
  | O => mret tt
  | S n => dopr_outch maxlen c;; out_times maxlen c n
  end.

(** ** Strings *)

(** The padding loops of [fmtstr]; the result is [cnt]. *)
Fixpoint pad_str (maxlen max : Z) (padlen : nat) (cnt : Z) : M out Z :=
  match padlen with
  | O => mret cnt
  | S n => if bool_decide (cnt < max) then dopr_outch maxlen 32;; pad_str maxlen max n (cnt + 1) else mret cnt
  end.
Fixpoint copy_str (maxlen max : Z) (value : list Z) (cnt : Z) : M out Z :=
  match value with
  | [] => mret cnt
  | c :: value => if bool_decide (cnt < max) then dopr_outch maxlen c;; copy_str maxlen max value (cnt + 1) else mret cnt
  end.

(** "<NULL>" *)
Definition null_text : list Z := [60; 78; 85; 76; 76; 62].

Definition fmtstr (maxlen : Z) (value : option (list Z)) (flags min max : Z) : M out unit :=
  let value := default null_text value in
  let padlen := swrap 32 (min - Z.of_nat (length value)) in
  let padlen := if bool_decide (padlen < 0) then 0 else padlen in
  let padlen := if flag flags DP_F_MINUS then - padlen else padlen in
  cnt ← pad_str maxlen max (Z.to_nat padlen) 0;
  cnt ← copy_str maxlen max value cnt;
  pad_str maxlen max (Z.to_nat (- padlen)) cnt;;
  mret tt.

(** ** Integers *)

Definition digit (caps : bool) (d : Z) : Z := if bool_decide (d < 10) then 48 + d else if caps then 55 + d else 87 + d.

(** The digits, the lowest first; at most [k] of them. *)
Fixpoint convert (k : nat) (caps : bool) (base uvalue : Z) : list Z :=
  match k with
  | O => []
  | S k =>
      digit caps (uvalue mod base) ::
      (if bool_decide (uvalue / base = 0) then [] else convert k caps base (uvalue / base))
  end.

(** [convert] with its last element, place 20, given up for the NUL *)
Definition digits (caps : bool) (base uvalue : Z) : list Z := take 19 (convert 20 caps base uvalue).

Definition sign_of (value flags : Z) : Z :=
  if bool_decide (value < 0) then 45 else if flag flags DP_F_PLUS then 43 else if flag flags DP_F_SPACE then 32 else 0.

(** [while (place > 0) dopr_outch(convert[--place]);] *)
Fixpoint out_all (maxlen : Z) (l : list Z) : M out unit :=
  match l with
  | [] => mret tt
  | c :: l => dopr_outch maxlen c;; out_all maxlen l
  end.

Definition fmtint (maxlen value base min max flags : Z) : M out unit :=
  let max := if bool_decide (max < 0) then 0 else max in
  let signed := negb (flag flags DP_F_UNSIGNED) in
  let signvalue := if signed then sign_of value flags else 0 in
  let uvalue := if signed && bool_decide (value < 0) then wrap 64 (- value) else wrap 64 value in
  let ds := digits (flag flags DP_F_UP) base uvalue in
  let place := Z.of_nat (length ds) in
  let zpadlen := max - place in
  let spadlen := swrap 32 (min - (if bool_decide (max >= place) then max else place) - (if bool_decide (signvalue <> 0) then 1 else 0)) in
  let zpadlen := if bool_decide (zpadlen < 0) then 0 else zpadlen in
  let spadlen := if bool_decide (spadlen < 0) then 0 else spadlen in
  let '(zpadlen, spadlen) :=
    if flag flags DP_F_ZERO then ((if bool_decide (zpadlen >= spadlen) then zpadlen else spadlen), 0) else (zpadlen, spadlen) in
  let spadlen := if flag flags DP_F_MINUS then - spadlen else spadlen in
  out_times maxlen 32 (Z.to_nat spadlen);;
  (if bool_decide (signvalue <> 0) then dopr_outch maxlen signvalue else mret tt);;
  out_times maxlen 48 (Z.to_nat zpadlen);;
  out_all maxlen (rev ds);;
  out_times maxlen 32 (Z.to_nat (- spadlen)).

(** ** Floating point numbers *)

(** The operations on [long double]; [f_to_long] is the conversion to [long] (the
    floating point unit answers [LONG_MIN] for a number that does not fit, and for
    one that is none), [f_half] the constant 0.5. *)
Class LDOUBLE (D : Type) : Type := {
  f_neg : D -> D; f_sub : D -> D -> D; f_mul : D -> D -> D; f_of_long : Z -> D; f_to_long : D -> Z;
  f_lt : D -> D -> bool; f_ge : D -> D -> bool; f_half : D }.

Section printf.
Context {D : Type} {F : LDOUBLE D}.

Definition abs_val (value : D) : D := if f_lt value (f_of_long 0) then f_neg value else value.

Fixpoint pow10_loop (exp : nat) (result : D) : D :=
  match exp with
  | O => result
  | S exp => pow10_loop exp (f_mul result (f_of_long 10))
  end.
(** for [0 <= exp] *)
Definition pow10 (exp : Z) : D := pow10_loop (Z.to_nat exp) (f_of_long 1).

Definition round (value : D) : Z :=
  let intpart := f_to_long value in
  let value := f_sub value (f_of_long intpart) in
  if f_ge value f_half then swrap 32 (intpart + 1) else intpart.

(** The integer part of a number that is not negative, and its fraction with [max]
    digits.  [f_to_long] answers [LONG_MIN] for what does not fit. *)
Definition fp_parts (max : Z) (ufvalue : D) : Z * Z :=
  let intpart := f_to_long ufvalue in
  let fracpart := round (f_mul (pow10 max) (f_sub ufvalue (f_of_long intpart))) in
  if f_ge (f_of_long fracpart) (pow10 max) then (swrap 32 (intpart + 1), f_to_long (f_sub (f_of_long fracpart) (pow10 max)))
  else (intpart, fracpart).

(** The digits of a [long], the lowest first; at most [k] of them.  The remainder of
    a negative number is negative, and then reads before the text of the digits. *)
Fixpoint fp_convert (k : nat) (v : Z) : res (list Z) :=
  match k with
  | O => Ok []
  | S k =>
      if bool_decide (Z.rem v 10 < 0) then Err OutOfBounds
      else
        l ← (if bool_decide (Z.quot v 10 = 0) then Ok [] else fp_convert k (Z.quot v 10));
        Ok (digit false (Z.rem v 10) :: l)
  end.
Definition fp_digits (v : Z) : res (list Z) := l ← fp_convert 20 v; Ok (take 19 l).

Definition fmtfp (maxlen : Z) (fvalue : D) (min max flags : Z) : M out unit :=
  let max := if bool_decide (max < 0) then 6 else max in
  let ufvalue := abs_val fvalue in
  let signvalue := if f_lt fvalue (f_of_long 0) then 45 else if flag flags DP_F_PLUS then 43 else if flag flags DP_F_SPACE then 32 else 0 in
  let max := if bool_decide (max > 9) then 9 else max in
  let '(intpart, fracpart) := fp_parts max ufvalue in
  iconvert ← of_res (fp_digits intpart);
  fconvert ← of_res (fp_digits fracpart);
  let iplace := Z.of_nat (length iconvert) in
  let fplace := Z.of_nat (length fconvert) in
  let padlen := swrap 32 (min - iplace - max - 1 - (if bool_decide (signvalue <> 0) then 1 else 0)) in
  let zpadlen := max - fplace in
  let zpadlen := if bool_decide (zpadlen < 0) then 0 else zpadlen in
  let padlen := if bool_decide (padlen < 0) then 0 else padlen in
  let padlen := if flag flags DP_F_MINUS then - padlen else padlen in
  '(signvalue, padlen) ←
    (if flag flags DP_F_ZERO && bool_decide (padlen > 0) then
       let '(pre, n) := if bool_decide (signvalue <> 0) then (dopr_outch maxlen signvalue, padlen - 1) else (mret tt, padlen) in
       pre;; out_times maxlen 48 (Z.to_nat n);; mret (0, 0)
     else mret (signvalue, padlen));
  out_times maxlen 32 (Z.to_nat padlen);;
  (if bool_decide (signvalue <> 0) then dopr_outch maxlen signvalue else mret tt);;
  out_all maxlen (rev iconvert);;
  (if bool_decide (max > 0) then dopr_outch maxlen 46;; out_all maxlen (rev fconvert) else mret tt);;
  out_times maxlen 48 (Z.to_nat zpadlen);;
  out_times maxlen 32 (Z.to_nat (- padlen)).

(** ** The format *)

(** The arguments: [int] or [unsigned int] as its bits, [long], [long long],
    [double] or [long double], a string, another pointer. *)
Inductive arg : Type := AInt (v : Z) | ALong (v : Z) | ALLong (v : Z) | ADouble (d : D) | AStr (s : option (list Z)) | APtr (p : Z).

(** The variables of [dopr]; [d_fmt] is what [format] points to; [d_stores] what
    the conversion n has stored, where and which value. *)
Record dopr_st : Type := Dopr {
  d_out : out; d_fmt : list Z; d_ch : Z; d_args : list arg; d_state : dp_state;
  d_min : Z; d_max : Z; d_flags : Z; d_cflags : dp_cflags; d_stores : list (Z * Z) }.

Definition emit (c : M out unit) : M dopr_st unit :=
  zoom d_out (fun o s => Dopr o (d_fmt s) (d_ch s) (d_args s) (d_state s) (d_min s) (d_max s) (d_flags s) (d_cflags s) (d_stores s)) c.

(** [ch = *format++] *)
Definition next_ch : M dopr_st unit :=
  s ← get;
  match d_fmt s with
  | [] => fail OutOfBounds
  | c :: f => modify (fun s => Dopr (d_out s) f c (d_args s) (d_state s) (d_min s) (d_max s) (d_flags s) (d_cflags s) (d_stores s))
  end.

Definition go (st : dp_state) : M dopr_st unit :=
  modify (fun s => Dopr (d_out s) (d_fmt s) (d_ch s) (d_args s) st (d_min s) (d_max s) (d_flags s) (d_cflags s) (d_stores s)).
Definition or_flags (f : Z) : M dopr_st unit :=
  modify (fun s => Dopr (d_out s) (d_fmt s) (d_ch s) (d_args s) (d_state s) (d_min s) (d_max s) (set_flag (d_flags s) f) (d_cflags s) (d_stores s)).
Definition set_min (v : Z) : M dopr_st unit :=
  modify (fun s => Dopr (d_out s) (d_fmt s) (d_ch s) (d_args s) (d_state s) v (d_max s) (d_flags s) (d_cflags s) (d_stores s)).
Definition set_max (v : Z) : M dopr_st unit :=
  modify (fun s => Dopr (d_out s) (d_fmt s) (d_ch s) (d_args s) (d_state s) (d_min s) v (d_flags s) (d_cflags s) (d_stores s)).
Definition set_cflags (v : dp_cflags) : M dopr_st unit :=
  modify (fun s => Dopr (d_out s) (d_fmt s) (d_ch s) (d_args s) (d_state s) (d_min s) (d_max s) (d_flags s) v (d_stores s)).
Definition store (p v : Z) : M dopr_st unit :=
  modify (fun s => Dopr (d_out s) (d_fmt s) (d_ch s) (d_args s) (d_state s) (d_min s) (d_max s) (d_flags s) (d_cflags s) (d_stores s ++ [(p, v)])).

(** [va_arg]; asking for another type than that of the argument is undefined. *)
Definition va_arg {A} (f : arg -> option A) : M dopr_st A :=
  s ← get;
  match d_args s with
  | [] => fail Undefined
  | a :: l =>
      v ← of_option Undefined (f a);
      modify (fun s => Dopr (d_out s) (d_fmt s) (d_ch s) l (d_state s) (d_min s) (d_max s) (d_flags s) (d_cflags s) (d_stores s));;
      mret v
  end.
Definition an_int (a : arg) : option Z := match a with AInt v => Some (swrap 32 v) | _ => None end.
Definition an_unsigned (a : arg) : option Z := match a with AInt v => Some (wrap 32 v) | _ => None end.
Definition a_long (a : arg) : option Z := match a with ALong v => Some (swrap 32 v) | _ => None end.
Definition an_ulong (a : arg) : option Z := match a with ALong v => Some (wrap 32 v) | _ => None end.
Definition a_llong (a : arg) : option Z := match a with ALLong v => Some (swrap 64 v) | _ => None end.
Definition a_double (a : arg) : option D := match a with ADouble d => Some d | _ => None end.
Definition a_str (a : arg) : option (option (list Z)) := match a with AStr s => Some s | _ => None end.
Definition a_ptr (a : arg) : option Z := match a with APtr p => Some p | AStr None => Some 0 | _ => None end.

Definition isdigit (c : Z) : bool := bool_decide (48 <= c <= 57).

(** The argument of a signed and of an unsigned conversion, as [long long]. *)
Definition signed_arg (cf : dp_cflags) : M dopr_st Z :=
  match cf with
  | DP_C_SHORT => v ← va_arg an_int; mret (swrap 16 v)
  | DP_C_LONG => va_arg a_long
  | DP_C_LLONG => va_arg a_llong
  | _ => va_arg an_int
  end.
Definition unsigned_arg (cf : dp_cflags) : M dopr_st Z :=
  match cf with
  | DP_C_SHORT => v ← va_arg an_unsigned; mret (wrap 16 v)
  | DP_C_LONG => va_arg an_ulong
  | DP_C_LLONG => va_arg a_llong
  | _ => va_arg an_unsigned
  end.

Definition print_unsigned (maxlen base : Z) : M dopr_st unit :=
  or_flags DP_F_UNSIGNED;;
  s ← get;
  v ← unsigned_arg (d_cflags s);
  emit (fmtint maxlen v base (d_min s) (d_max s) (d_flags s)).

(** The conversion character [ch]. *)
Definition conversion (maxlen ch : Z) : M dopr_st unit :=
  s ← get;
  if bool_decide (ch = 100) || bool_decide (ch = 105) then                      (* d i *)
    v ← signed_arg (d_cflags s); emit (fmtint maxlen v 10 (d_min s) (d_max s) (d_flags s))
  else if bool_decide (ch = 88) then or_flags DP_F_UP;; print_unsigned maxlen 16  (* X *)
  else if bool_decide (ch = 120) then print_unsigned maxlen 16                    (* x *)
  else if bool_decide (ch = 111) then print_unsigned maxlen 8                     (* o *)
  else if bool_decide (ch = 117) then print_unsigned maxlen 10                    (* u *)
  else if bool_decide (ch = 102) then                                             (* f *)
    v ← va_arg a_double; emit (fmtfp maxlen v (d_min s) (d_max s) (d_flags s))
  else if bool_decide (ch = 69) || bool_decide (ch = 71) then or_flags DP_F_UP;; va_arg a_double;; mret tt  (* E G *)
  else if bool_decide (ch = 101) || bool_decide (ch = 103) then va_arg a_double;; mret tt                   (* e g *)
  else if bool_decide (ch = 99) then v ← va_arg an_int; emit (dopr_outch maxlen v)                          (* c *)
  else if bool_decide (ch = 115) then                                             (* s *)
    v ← va_arg a_str;
    (if bool_decide (d_max s < 0) then set_max (swrap 32 maxlen) else mret tt);;
    s ← get;
    emit (fmtstr maxlen v (d_flags s) (d_min s) (d_max s))
  else if bool_decide (ch = 112) then                                             (* p *)
    v ← va_arg a_ptr;
    or_flags DP_F_UNSIGNED;;
    s ← get;
    emit (fmtint maxlen (swrap 32 v) 16 (d_min s) (d_max s) (d_flags s))
  else if bool_decide (ch = 110) then                                             (* n *)
    p ← va_arg a_ptr;
    store p (match d_cflags s with
             | DP_C_SHORT => swrap 16 (o_len (d_out s))
             | DP_C_LLONG => o_len (d_out s)
             | _ => swrap 32 (o_len (d_out s))
             end)
  else if bool_decide (ch = 37) then emit (dopr_outch maxlen ch)                  (* % *)
  else if bool_decide (ch = 119) then next_ch                                     (* w *)
  else mret tt.

(** One turn of the loop of [dopr], after the test for the end. *)
Definition dopr_step (maxlen : Z) : M dopr_st unit :=
  s ← get;
  let ch := d_ch s in
  match d_state s with
  | DP_S_DEFAULT => (if bool_decide (ch = 37) then go DP_S_FLAGS else emit (dopr_outch maxlen ch));; next_ch
  | DP_S_FLAGS =>
      if bool_decide (ch = 45) then or_flags DP_F_MINUS;; next_ch
      else if bool_decide (ch = 43) then or_flags DP_F_PLUS;; next_ch
      else if bool_decide (ch = 32) then or_flags DP_F_SPACE;; next_ch
      else if bool_decide (ch = 35) then or_flags DP_F_NUM;; next_ch
      else if bool_decide (ch = 48) then or_flags DP_F_ZERO;; next_ch
      else go DP_S_MIN
  | DP_S_MIN =>
      if isdigit ch then set_min (swrap 32 (10 * d_min s + (ch - 48)));; next_ch
      else if bool_decide (ch = 42) then v ← va_arg an_int; set_min v;; next_ch;; go DP_S_DOT
      else go DP_S_DOT
  | DP_S_DOT => if bool_decide (ch = 46) then go DP_S_MAX;; next_ch else go DP_S_MOD
  | DP_S_MAX =>
      if isdigit ch then
        set_max (swrap 32 (10 * (if bool_decide (d_max s < 0) then 0 else d_max s) + (ch - 48)));; next_ch
      else if bool_decide (ch = 42) then v ← va_arg an_int; set_max v;; next_ch;; go DP_S_MOD
      else go DP_S_MOD
  | DP_S_MOD =>
      (if bool_decide (ch = 104) then set_cflags DP_C_SHORT;; next_ch
       else if bool_decide (ch = 108) then
         match d_fmt s with
         | [] => fail OutOfBounds
         | c :: _ => if bool_decide (c = 108) then set_cflags DP_C_LLONG;; next_ch;; next_ch else set_cflags DP_C_LONG;; next_ch
         end
       else if bool_decide (ch = 113) then set_cflags DP_C_LLONG;; next_ch
       else if bool_decide (ch = 76) then set_cflags DP_C_LDOUBLE;; next_ch
       else mret tt);;
      go DP_S_CONV
  | DP_S_CONV =>
      conversion maxlen ch;;
      next_ch;;
      go DP_S_DEFAULT;;
      modify (fun s => Dopr (d_out s) (d_fmt s) (d_ch s) (d_args s) (d_state s) 0 (-1) 0 DP_C_NONE (d_stores s))
  | DP_S_DONE => mret tt
  end.

Fixpoint dopr_loop (fuel : nat) (maxlen : Z) : M dopr_st unit :=
  match fuel with
  | O => fail Stuck
  | S fuel =>
      s ← get;
      if bool_decide (d_state s = DP_S_DONE) then mret tt
      else
        (if bool_decide (d_ch s = NUL) || bool_decide (o_len (d_out s) >= maxlen) then go DP_S_DONE else dopr_step maxlen);;
        dopr_loop fuel maxlen
  end.

(** Every character of the format takes at most six turns. *)
Definition dopr_fuel (format : list Z) : nat := 6 * S (length format).

(** The largest length: [~(1 << 30)], as [size_t]. *)
Definition no_limit : Z := wrap 32 (Z.lnot (2 ^ 30)).

(** The result: the buffer, [retlen], and the stores of the conversion n. *)
Definition dopr (buffer : option (list Z)) (maxlen : Z) (format : list Z) (args : list arg) : res (option (list Z) * Z * list (Z * Z)) :=
  let maxlen := if bool_decide (maxlen = 2 ^ 32 - 1) then no_limit else maxlen in
  match (next_ch;; dopr_loop (dopr_fuel format) maxlen) (Dopr (Out buffer 0) format 0 args DP_S_DEFAULT 0 (-1) 0 DP_C_NONE []) with
  | Err e => Err e
  | Ok (_, s) =>
      let currlen := o_len (d_out s) in
      let currlen := if bool_decide (currlen >= wrap 32 (maxlen - 1)) then wrap 32 (maxlen - 1) else currlen in
      match o_buf (d_out s) with
      | None => Ok (None, currlen, d_stores s)
      | Some b =>
          if bool_decide (currlen < Z.of_nat (length b)) then Ok (Some (<[Z.to_nat currlen := NUL]> b), currlen, d_stores s)
          else Err OutOfBounds
      end
  end.

(** The buffer afterwards and the returned [int]. *)
Definition pth_vsnprintf (str : option (list Z)) (count : Z) (fmt : list Z) (args : list arg) : res (option (list Z) * Z) :=
  str ← (match str with
         | None => Ok None
         | Some [] => Err OutOfBounds
         | Some (_ :: b) => Ok (Some (NUL :: b))
         end);
  '(b, n, _) ← dopr str count fmt args;
  Ok (b, swrap 32 n).
Definition pth_snprintf := pth_vsnprintf.

(** [mem]: the memory that [malloc] answers with for a size, or NULL. *)
Definition pth_vasprintf (mem : Z -> option (list Z)) (fmt : list Z) (args : list arg) : res (option (list Z)) :=
  '(_, n) ← pth_vsnprintf None (2 ^ 32 - 1) fmt args;
  match mem (wrap 32 (n + 1)) with
  | None => Ok None
  | Some b => '(b, _) ← pth_vsnprintf (Some b) (wrap 32 (n + 1)) fmt args; Ok b
  end.
Definition pth_asprintf := pth_vasprintf.
End printf.
