(* ===== verification/PThread.v ===== *)
(** * The POSIX interface: threads (pthread.c)

    Creating, joining and detaching threads, [pthread_once], cancellation,
    thread specific data, and the cleanup handlers of the C library.  The state
    joins those of the components the functions call: the threads and their
    attributes ([pa]), the keys ([pk]), the cleanup stacks ([pcl]); the running
    thread is that of the native that runs.  The library is initialised, and no
    debugger is attached.  A function whose thread ends in it has no result. *)

From S2P Require Import Prelude Bitmap Dll LinkedList Ring Priorities PQueue Alloc Allocator Time Msg Futex World Sync Event Util Sched Attr Lib.
From S2P Require Keys Clean.

Definition PTHREAD_THREADS_MAX : Z := 1000000.
Definition PTHREAD_CANCEL_ENABLE : Z := 0.
Definition PTHREAD_CANCEL_DISABLE : Z := 1.
Definition PTHREAD_CANCEL_DEFERRED : Z := 0.
Definition PTHREAD_CANCEL_ASYNCHRONOUS : Z := 1.
Definition PTHREAD_CANCELED : Z := 2 ^ 32 - 1.
Definition PTHREAD_ONCE_INIT : Z := 0.
Definition EAGAIN : Z := 11.

(** ** State *)

#[global] Instance caddr_countable : Countable Clean.caddr.
Proof.
  refine (inj_countable' (fun a => match a with Clean.Buf t i => inl (t, i) | Clean.Heap z => inr z end)
            (fun x => match x with inl (t, i) => Clean.Buf t i | inr z => Clean.Heap z end) _). by intros [].
Defined.

Section state.
Context {H : Type} `{Allocator H}.

(** [ctypes]: the members [canceltype] of the cleanup records; [onces]: the
    variables of type [pthread_once_t]; [spawned]: the members of that name. *)
Record pt : Type := PT {
  pa : ast;
  pk : Keys.kstate;
  pcl : @Clean.cstate H;
  ctypes : gmap Clean.caddr Z;
  onces : gmap nat Z;
  once_init_lock : pth_qlock_st;
  pthread_concurrency : Z;
  spawned : gmap nat Z }.

Definition set_pa (v : ast) (s : pt) : pt := PT v (pk s) (pcl s) (ctypes s) (onces s) (once_init_lock s) (pthread_concurrency s) (spawned s).
Definition set_pk (v : Keys.kstate) (s : pt) : pt := PT (pa s) v (pcl s) (ctypes s) (onces s) (once_init_lock s) (pthread_concurrency s) (spawned s).
Definition set_pcl (v : @Clean.cstate H) (s : pt) : pt := PT (pa s) (pk s) v (ctypes s) (onces s) (once_init_lock s) (pthread_concurrency s) (spawned s).
Definition set_ctypes (v : gmap Clean.caddr Z) (s : pt) : pt := PT (pa s) (pk s) (pcl s) v (onces s) (once_init_lock s) (pthread_concurrency s) (spawned s).
Definition set_onces (v : gmap nat Z) (s : pt) : pt := PT (pa s) (pk s) (pcl s) (ctypes s) v (once_init_lock s) (pthread_concurrency s) (spawned s).
Definition set_once_init_lock (v : pth_qlock_st) (s : pt) : pt := PT (pa s) (pk s) (pcl s) (ctypes s) (onces s) v (pthread_concurrency s) (spawned s).
Definition set_pthread_concurrency (v : Z) (s : pt) : pt := PT (pa s) (pk s) (pcl s) (ctypes s) (onces s) (once_init_lock s) v (spawned s).

Definition onp' {A} : M ast A -> M pt A := zoom pa set_pa.
Definition onl {A} (m : M sst A) : M pt A := onp' (ona m).
Definition onlw {A} (m : M world A) : M pt A := onl (onw m).

(** The running thread *)
Definition running_thread (s : pt) : option nat :=
  match pth_get_current (wo (ss (pa s))) with Ok (c, _) => c | Err _ => None end.

(** The keys and the cleanup stacks know the running thread. *)
Definition onk {A} : M Keys.kstate A -> M pt A :=
  zoom (fun s => let k := pk s in Keys.KState (Keys.pth_keytab k) (Keys.pth_key_lock k) (Keys.threads k) (running_thread s) (Keys.mallocs k) (Keys.calls k)) set_pk.
Definition onc {A} : M (@Clean.cstate H) A -> M pt A :=
  zoom (fun s => let c := pcl s in Clean.CState (Clean.threads c) (Clean.heap c) (running_thread s) (Clean.calls c) (Clean.alloc c)) set_pcl.

(** [pth_acquire_lock(&once_init_lock)] *)
Definition once_lock : M pt unit :=
  '(_, d) ← onlw my_descr; s ← get; k ← of_res (_pth_acquire_lock (tid d) (once_init_lock s)); modify (set_once_init_lock k).
Definition once_unlock : M pt unit :=
  '(_, d) ← onlw my_descr; modify (fun s => set_once_init_lock (_pth_release_lock (tid d) (once_init_lock s)).2 s).
Definition once_read (o : nat) : M pt Z := s ← get; of_option BadDeref (onces s !! o).
Definition once_write (o : nat) (v : Z) : M pt unit := once_read o;; modify (fun s => set_onces (<[o := v]> (onces s)) s).

(** A member of a cleanup record *)
Definition canceltype (a : Clean.caddr) : M pt Z := s ← get; of_option Undefined (ctypes s !! a).
Definition set_canceltype (a : Clean.caddr) (v : Z) : M pt unit := modify (fun s => set_ctypes (<[a := v]> (ctypes s)) s).

(** ** Threads *)

Section functions.
(** The parameters of Lib. *)
Context (switch : M sst unit) (popall : nat -> M sst unit) (destroy : last_call -> nat -> M sst unit).
Context (mfuel efuel : nat) (join_key : nat) (time_now : sst -> Z).
Context (pth_default_stacksize pth_threads_per_native : Z) (new_native : Z -> option nat -> M ast (option nat)) (mctx_set : bool) (child_name : list Z).

(** The result, and what has been stored in [*thread]. *)
Definition __pthread_create_2_1 (block : option tcb_block) (thread attr start_routine arg : Z) : M pt (Z * option (option nat)) :=
  if bool_decide (thread = 0) || bool_decide (start_routine = 0) then mret (EINVAL, None)
  else
    s ← get;
    if bool_decide (pth_threads_count (ss (pa s)) >= PTHREAD_THREADS_MAX) then mret (EAGAIN, None)
    else
      na ← (if bool_decide (attr = 0) then mret None else onp' (attr_var attr));
      t ← onp' (pth_spawn switch destroy pth_default_stacksize pth_threads_per_native time_now new_native mctx_set child_name block na start_routine arg false);
      match t with
      | None => mret (EAGAIN, Some None)
      | Some t => mret (OK, Some (Some t))
      end.

Definition pthread_detach (thread : option nat) : M pt Z :=
  match thread with
  | None => mret EINVAL
  | Some t =>
      e ← onl (thread_exists (Some t));
      if negb e then mret ESRCH
      else
        na ← onp' (pth_attr_of (Some t));
        match na with
        | None => mret EINVAL
        | Some a =>
            (* [pth_attr_get] stores in a local variable *)
            s ← get;
            let p := fresh ({[0]} ∪ dom (cells (pa s))) in
            onp' (modify (fun s => set_cells (<[p := CNum 0]> (cells s)) s));;
            b ← onp' (pth_attr_get na PTH_ATTR_JOINABLE p);
            v ← onp' (c ← read_cell p; num_of c);
            onp' (modify (fun s => set_cells (delete p (cells s)) s));;
            if negb b then mret EINVAL
            else if bool_decide (v = 0) then mret EINVAL
            else
              b ← onp' (pth_attr_set na PTH_ATTR_JOINABLE 0);
              if negb b then mret EINVAL
              else onp' (pth_attr_destroy na);; mret OK
        end
  end.

Definition pthread_self : M pt (option nat) := onlw pth_get_current.
Definition pthread_equal (t1 t2 : option nat) : bool := bool_decide (t1 = t2).
Definition pthread_yield_np : M pt Z := onl (pth_yield switch None);; mret OK.

Definition pthread_join (thread : option nat) (value_ptr : Z) : M pt (option Z) :=
  rc ← onl (pth_join switch popall destroy mfuel efuel join_key thread value_ptr);
  match rc with
  | None => mret None
  | Some rc =>
      if negb (bool_decide (rc = 0)) then mret (Some rc)
      else
        (if bool_decide (value_ptr = 0) then mret tt
         else
           v ← onl (user_read value_ptr);
           if bool_decide (v = PTH_CANCELED) then onl (user_write value_ptr PTHREAD_CANCELED) else mret tt);;
        mret (Some OK)
  end.

Definition pthread_bindtonative_np (thread : option nat) : M pt Z :=
  b ← onl (pth_bindtonative thread); mret (if (b : bool) then OK else EINVAL).

Definition pthread_getconcurrency : M pt Z := s ← get; mret (pthread_concurrency s).
Definition pthread_setconcurrency (new_level : Z) : M pt Z := modify (set_pthread_concurrency new_level);; mret OK.

Definition pthread_abort (thread : option nat) : M pt (option Z) :=
  r ← onl (pth_abort switch popall destroy mfuel efuel join_key thread);
  mret (match r with None => None | Some b => Some (if (b : bool) then OK else EINVAL) end).

(** ** Keys *)

Definition pthread_key_create (key : Z) (destructor : option nat) : M pt Z :=
  '(k, r) ← onk (Keys.pth_key_create destructor);
  onl (user_write key k);;
  mret (if bool_decide (r = 0) then EAGAIN else OK).
Definition pthread_key_delete (key : Z) : M pt Z :=
  r ← onk (Keys.pth_key_delete key); mret (if bool_decide (r = 0) then EINVAL else OK).

(** ** Cancellation *)

Definition pthread_cancel (thread : option nat) : M pt (option Z) :=
  r ← onl (pth_cancel popall destroy mfuel thread);
  mret (match r with None => None | Some b => Some (if (b : bool) then OK else ESRCH) end).

(** The result: whether the thread goes on. *)
Definition pthread_testcancel : M pt bool :=
  gone ← onl (pth_cancel_point popall mfuel true);
  if (gone : bool) then mret false else onl (pth_yield switch None);; mret true.

(** [pth_cancel_state(0, &os)] *)
Definition cancel_flags : M pt Z := onlw (pth_cancel_state 0).

Definition pthread_setcancelstate (state oldstate : Z) : M pt (option Z) :=
  if bool_decide (state < PTHREAD_CANCEL_ENABLE) || bool_decide (state > PTHREAD_CANCEL_DISABLE) then mret (Some EINVAL)
  else
    (if bool_decide (oldstate = 0) then mret tt
     else
       os ← cancel_flags;
       onl (user_write oldstate (if flag os PTH_CANCEL_ENABLE then PTHREAD_CANCEL_ENABLE else PTHREAD_CANCEL_DISABLE)));;
    s ← cancel_flags;
    let s :=
      if bool_decide (state = PTHREAD_CANCEL_ENABLE) then clear_flag (set_flag s PTH_CANCEL_ENABLE) PTH_CANCEL_DISABLE
      else clear_flag (set_flag s PTH_CANCEL_DISABLE) PTH_CANCEL_ENABLE in
    onlw (pth_cancel_state s);;
    if flag s PTH_CANCEL_ENABLE && flag s PTH_CANCEL_ASYNCHRONOUS then
      on ← pthread_testcancel; mret (if (on : bool) then Some OK else None)
    else mret (Some OK).

Definition pthread_setcanceltype (type oldtype : Z) : M pt (option Z) :=
  if bool_decide (type < PTHREAD_CANCEL_DEFERRED) || bool_decide (type > PTHREAD_CANCEL_ASYNCHRONOUS) then mret (Some EINVAL)
  else
    (if bool_decide (oldtype = 0) then mret tt
     else
       ot ← cancel_flags;
       onl (user_write oldtype (if flag ot PTH_CANCEL_DEFERRED then PTHREAD_CANCEL_DEFERRED else PTHREAD_CANCEL_ASYNCHRONOUS)));;
    t ← cancel_flags;
    let t :=
      if bool_decide (type = PTHREAD_CANCEL_DEFERRED) then clear_flag (set_flag t PTH_CANCEL_DEFERRED) PTH_CANCEL_ASYNCHRONOUS
      else clear_flag (set_flag t PTH_CANCEL_ASYNCHRONOUS) PTH_CANCEL_DEFERRED in
    onlw (pth_cancel_state t);;
    if flag t PTH_CANCEL_ENABLE && flag t PTH_CANCEL_ASYNCHRONOUS then
      on ← pthread_testcancel; mret (if (on : bool) then Some OK else None)
    else mret (Some OK).

(** ** Scheduling parameters: nothing but SCHED_OTHER is supported. *)

Definition pthread_setschedparam (policy : Z) : Z := if bool_decide (policy = SCHED_OTHER) then 0 else ENOSYS.
Definition pthread_getschedparam (policy : Z) : M pt Z :=
  if bool_decide (policy = 0) then mret EINVAL else onl (user_write policy SCHED_OTHER);; mret 0.

(** ** Cleanup handlers *)

(** What the handlers of the program do; whether they return. *)
Context (call : nat -> Z -> M (@Clean.cstate H) unit).

Definition _pthread_cleanup_push (func : option nat) (arg : Z) : M pt unit :=
  c ← pthread_self;
  match c with None => mret tt | Some _ => onc (Clean.pth_cleanup_push func arg);; mret tt end.

(** The top of the stack of the running thread *)
Definition top_record (t : nat) : M pt (option Clean.caddr) :=
  onc (x ← Clean.get_thread (Some t); mret (Clean.cleanups x.2)).

Definition _pthread_cleanup_pop (execute : bool) : M pt unit :=
  c ← pthread_self;
  match c with None => mret tt | Some _ => onc (Clean.pth_cleanup_pop call execute);; mret tt end.

(** [pthread_setcanceltype(type, &record->canceltype)]: the old type goes into
    the record instead of a variable of the program. *)
Definition setcanceltype_record (type : Z) (a : Clean.caddr) : M pt (option Z) :=
  ot ← cancel_flags;
  set_canceltype a (if flag ot PTH_CANCEL_DEFERRED then PTHREAD_CANCEL_DEFERRED else PTHREAD_CANCEL_ASYNCHRONOUS);;
  pthread_setcanceltype type 0.

(** The result: whether the thread goes on. *)
Definition _pthread_cleanup_push_defer (func : option nat) (arg : Z) : M pt bool :=
  c ← pthread_self;
  match c with
  | None => mret true
  | Some t =>
      onc (Clean.pth_cleanup_push func arg);;
      top ← top_record t;
      match top with
      | None => mret true
      | Some a => r ← setcanceltype_record PTHREAD_CANCEL_DEFERRED a; mret (bool_decide (is_Some r))
      end
  end.

Definition _pthread_cleanup_pop_restore (execute : bool) : M pt bool :=
  c ← pthread_self;
  match c with
  | None => mret true
  | Some t =>
      top ← top_record t;
      match top with
      | None => mret true
      | Some a =>
          restore ← canceltype a;
          onc (Clean.pth_cleanup_pop call execute);;
          r ← pthread_setcanceltype restore 0;
          mret (bool_decide (is_Some r))
      end
  end.

(** ** [pthread_once]

    [once_handler]: the number of the cleanup handler [pthread_once_handler].
    The initialisation routine says whether its thread goes on. *)

Context (once_handler : nat).

(** [pthread_once_handler]; its argument is the variable. *)
Definition pthread_once_handler (once_control : nat) : M pt unit :=
  once_lock;; once_write once_control PTHREAD_ONCE_INIT;; once_unlock.

Definition pthread_once (once_control : option nat) (init_routine : option (M pt bool)) : M pt (option Z) :=
  match once_control, init_routine with
  | Some o, Some init =>
      once_lock;;
      v ← once_read o;
      once_write o 1;;
      once_unlock;;
      if negb (bool_decide (v = 1)) then
        _pthread_cleanup_push (Some once_handler) (Z.of_nat o);;
        on ← init;
        if (on : bool) then _pthread_cleanup_pop false;; mret (Some OK) else mret None
      else mret (Some OK)
  | _, _ => mret (Some EINVAL)
  end.

(** ** The clock of a thread, signals *)

Definition __pthread_clock_gettime (clk : clock) (now : Z) : M pt timespec :=
  c ← pthread_self;
  t ← of_option BadDeref c;
  s ← get;
  born ← of_option BadDeref (spawned s !! t);
  of_res (pth_time_to_timespec clk (pth_time_sub now born)).

(** The result and, for a failure, the new [errno]. *)
Definition __raise (PTH_NSIG : Z) (action : Z -> option bool) (sig : Z) : M pt (Z * option Z) :=
  c ← pthread_self;
  retcode ← onl (pth_raise switch PTH_NSIG action c sig);
  mret (if bool_decide (retcode = 0) then (0, None) else (-1, Some retcode)).
End functions.
End state.
