(* ===== verification/PThreadProofs.v ===== *)
(** * Theorems on the POSIX threads

    The cancellation functions implement a state and a type
    ([cancel_calls_refine]); [pthread_once] runs its routine once
    ([once_runs_once]). *)

From S2P Require Import Prelude Bitmap Dll LinkedList Ring Priorities PQueue Alloc Allocator Time Msg Futex World Sync Event Util Sched Attr Lib.
From S2P Require Import MutexProofs LockProofs Wake SchedProofs LibProofs.
From S2P Require Keys Clean.
From S2P Require Import PThread.

Section proofs.
Context {H : Type} `{Allocator H}.

Implicit Types s : @pt H.

(** [s] with another state of the library *)
Definition put_l (l : sst) (s : @pt H) : @pt H := set_pa (set_ss l (pa s)) s.

Lemma onl_run {A} (m : M sst A) s a l : m (ss (pa s)) = Ok (a, l) -> onl m s = Ok (a, put_l l s).
Proof. unfold onl, onp', ona, zoom. intros ->. done. Qed.

Lemma put_l_id s : put_l (ss (pa s)) s = s.
Proof. by destruct s as [[]]. Qed.

(** ** The state and the type of cancellation *)

(** Whether it is disabled, and whether it is asynchronous *)
Definition cancel_mode : Set := bool * bool.

Definition enc (p : cancel_mode) : Z :=
  Z.lor (if p.1 then PTH_CANCEL_DISABLE else PTH_CANCEL_ENABLE) (if p.2 then PTH_CANCEL_ASYNCHRONOUS else PTH_CANCEL_DEFERRED).

Inductive cancel_call : Set := SetState (v old : Z) | SetType (v old : Z).

(** What the calls do to the mode and to the variables of the program *)
Definition cancel_spec (c : cancel_call) (p : cancel_mode) (mem : gmap Z Z) : Z * cancel_mode * gmap Z Z :=
  let store old v := if bool_decide (old = 0) then mem else <[old := v]> mem in
  match c with
  | SetState v old =>
      if bool_decide (v = 0) || bool_decide (v = 1) then (OK, (bool_decide (v = 1), p.2), store old (if p.1 then 1 else 0)) else (EINVAL, p, mem)
  | SetType v old =>
      if bool_decide (v = 0) || bool_decide (v = 1) then (OK, (p.1, bool_decide (v = 1)), store old (if p.2 then 1 else 0)) else (EINVAL, p, mem)
  end.

Definition old_of (c : cancel_call) : Z := match c with SetState _ old | SetType _ old => old end.

Section cancel.
Context (switch : M sst unit) (popall : nat -> M sst unit) (mfuel : nat).
(** The running thread and its native *)
Context (n t : nat).

Definition cancel_exec (c : cancel_call) : M (@pt H) (option Z) :=
  match c with
  | SetState v old => pthread_setcancelstate switch popall mfuel v old
  | SetType v old => pthread_setcanceltype switch popall mfuel v old
  end.

(** The thread has the mode [p] and no request, the program the variables [mem]. *)
Record in_mode (p : cancel_mode) (mem : gmap Z Z) (l : sst) (d : pth_descr_st) (y : pth_st) : Prop := {
  im_running : running (wo l) n t d;
  im_thread : threads (wo l) !! t = Some y;
  im_mode : cancelstate y = enc p;
  im_req : cancelreq y = false;
  im_mem : um l = mem }.

Definition ready_in (p : cancel_mode) (mem : gmap Z Z) (l : sst) : Prop :=
  exists d y, in_mode p mem l d y /\ sched_lock d = qlock_free.

(** The scheduler runs the thread again some time, nobody cancels it or changes
    its mode or its variables. *)
Hypothesis comes_back : forall p mem l d y, in_mode p mem l d y ->
  exists l', switch l = Ok (tt, l') /\ ready_in p mem l'.

Lemma cancel_flags_run p mem s : ready_in p mem (ss (pa s)) -> cancel_flags s = Ok (enc p, s).
Proof.
  intros (d & y & [(Hs & Hd & Hc) Hy Hm _ _] & _). rewrite <- Hm. unfold cancel_flags, onlw.
  rewrite (onl_run _ s (cancelstate y) (ss (pa s))); [by rewrite put_l_id|]. apply onw_same.
  unfold pth_cancel_state. rewrite (bind_run _ _ _ (Some t) (wo (ss (pa s)))) by (rewrite <- Hc; by apply (get_current_run _ n d)).
  rewrite (bind_run (of_option BadDeref (Some t)) _ _ t (wo (ss (pa s))) eq_refl), (bind_run _ _ _ y (wo (ss (pa s)))) by by apply get_t_run. done.
Qed.

Lemma store_run p mem s q v : ready_in p mem (ss (pa s)) -> q <> 0 -> is_Some (mem !! q) ->
  exists l, onl (user_write q v) s = Ok (tt, put_l l s) /\ ready_in p (<[q := v]> mem) l.
Proof.
  intros (d & y & [Hr Hy Hm Hq <-] & Hl) Hn [x Hx]. exists (set_um (<[q := v]> (um (ss (pa s)))) (ss (pa s))). split.
  - apply onl_run. unfold user_write. rewrite (bind_run get _ _ _ _ eq_refl), Hx. done.
  - exists d, y. done.
Qed.

Lemma set_mode_run p p' mem s : ready_in p mem (ss (pa s)) ->
  exists l, onlw (pth_cancel_state (enc p')) s = Ok (enc p, put_l l s) /\ ready_in p' mem l.
Proof.
  intros (d & y & [(Hs & Hd & Hc) Hy Hm Hq Hu] & Hl). set (w := wo (ss (pa s))).
  exists (set_wo (set_threads (<[t := set_cancelstate (enc p') y]> (threads w)) w) (ss (pa s))). split.
  - apply onl_run. unfold onw, zoom, pth_cancel_state. fold w.
    rewrite (bind_run _ _ _ (Some t) w) by (rewrite <- Hc; by apply (get_current_run _ n d)).
    rewrite (bind_run (of_option BadDeref (Some t)) _ w t w eq_refl), (bind_run _ _ _ y w) by by apply get_t_run.
    rewrite bool_decide_eq_true_2 by (destruct p' as [[] []]; done).
    rewrite (bind_run _ _ _ _ _ (upd_t_run _ _ _ _ Hy)). by rewrite Hm.
  - exists d, (set_cancelstate (enc p') y). split; [|done]. split; try done. cbn. apply lookup_insert_eq.
Qed.

Lemma testcancel_run p mem s : ready_in p mem (ss (pa s)) ->
  exists l, pthread_testcancel switch popall mfuel s = Ok (true, put_l l s) /\ ready_in p mem l.
Proof.
  intros (d & y & [(Hs & Hd & Hc) Hy Hm Hq Hu] & Hl). set (l0 := ss (pa s)) in *.
  set (d1 := set_do_yield true d). set (l1 := put_d n d1 l0).
  assert (pth_cancel_point popall mfuel true l0 = Ok (false, l1)) as E.
  { unfold pth_cancel_point. rewrite (bind_run _ _ l0 (n, d) l0) by (by apply onw_same, my_descr_run). cbv beta iota.
    rewrite Hc, (bind_run (of_option BadDeref (Some t)) _ l0 t l0 eq_refl), (bind_run _ _ l0 y l0) by (by apply onw_same, get_t_run).
    rewrite Hq. cbn [andb]. rewrite (bind_run _ _ l0 tt l1); [done|]. unfold onw, zoom. by rewrite (upd_d_run _ n d _ Hd). }
  assert (natives (wo l1) !! n = Some d1) as Hd1 by (cbn; apply list_lookup_insert_eq, (lookup_lt_Some _ _ _ Hd)).
  destruct (yield_run switch n t d1 l1) as (k & Ey); [done..|].
  destruct (comes_back p mem (put_d n (set_sched_lock k d1) l1) (set_sched_lock k d1) y) as (l' & Esw & Hready).
  { split; try done. split; [done|]. split; [|done]. cbn. rewrite list_insert_insert_eq. apply list_lookup_insert_eq, (lookup_lt_Some _ _ _ Hd). }
  exists l'. split; [|done]. unfold pthread_testcancel. rewrite (bind_run _ _ _ _ _ (onl_run _ s _ _ E)). cbv iota beta.
  specialize (Ey _ Esw).
  rewrite (bind_run _ _ _ _ _ (onl_run _ (put_l l1 s) _ _ Ey)). done.
Qed.

(** What follows the change of the mode in both functions *)
Lemma after_change p mem s (b : bool) : ready_in p mem (ss (pa s)) ->
  exists l, (if b then on ← pthread_testcancel switch popall mfuel; mret (if (on : bool) then Some OK else None) else mret (Some OK)) s =
    Ok (Some OK, put_l l s) /\ ready_in p mem l.
Proof.
  intros Hr. destruct b.
  - destruct (testcancel_run p mem s Hr) as (l & E & Hl). exists l. split; [|done]. by rewrite (bind_run _ _ _ _ _ E).
  - exists (ss (pa s)). split; [|done]. by rewrite put_l_id.
Qed.

(** The old value goes into the variable of the program, unless it is NULL. *)
Lemma old_run p mem s q f a b : ready_in p mem (ss (pa s)) -> (q = 0 \/ is_Some (mem !! q)) ->
  exists l, (if bool_decide (q = 0) then mret tt else os ← cancel_flags; onl (user_write q (if flag os f then a else b))) s = Ok (tt, put_l l s) /\
    ready_in p (if bool_decide (q = 0) then mem else <[q := if flag (enc p) f then a else b]> mem) l.
Proof.
  intros Hr Hq. case_bool_decide as Eq.
  - exists (ss (pa s)). split; [by rewrite put_l_id|done].
  - destruct Hq as [?|Hq]; [done|]. destruct (store_run p mem s q (if flag (enc p) f then a else b) Hr Eq Hq) as (l & E & Hl).
    exists l. split; [|done]. by rewrite (bind_run _ _ _ _ _ (cancel_flags_run p mem s Hr)).
Qed.

(** Both functions read the flags, store the old value, change the flags and go
    through a cancellation point. *)
Lemma change_run p p' mem s q f a b g : ready_in p mem (ss (pa s)) -> (q = 0 \/ is_Some (mem !! q)) -> g (enc p) = enc p' ->
  exists l, ((if bool_decide (q = 0) then mret tt else os ← cancel_flags; onl (user_write q (if flag os f then a else b)));;
     x ← cancel_flags;
     onlw (pth_cancel_state (g x));;
     if flag (g x) PTH_CANCEL_ENABLE && flag (g x) PTH_CANCEL_ASYNCHRONOUS
     then on ← pthread_testcancel switch popall mfuel; mret (if (on : bool) then Some OK else None) else mret (Some OK)) s =
    Ok (Some OK, put_l l s) /\ ready_in p' (if bool_decide (q = 0) then mem else <[q := if flag (enc p) f then a else b]> mem) l.
Proof.
  intros Hr Hq Hg. destruct (old_run p mem s q f a b Hr Hq) as (l1 & E1 & H1). rewrite (bind_run _ _ _ _ _ E1). clear E1.
  set (mem' := if bool_decide (q = 0) then mem else _) in *. set (s1 := put_l l1 s).
  rewrite (bind_run _ _ s1 _ _ (cancel_flags_run p mem' s1 H1)), Hg.
  destruct (set_mode_run p p' mem' s1 H1) as (l2 & E2 & H2). rewrite (bind_run _ _ _ _ _ E2).
  apply (after_change p' mem' (put_l l2 s1) _ H2).
Qed.

Lemma cancel_exec_run c p mem s : ready_in p mem (ss (pa s)) -> (old_of c = 0 \/ is_Some (mem !! old_of c)) ->
  exists l, cancel_exec c s = Ok (Some (cancel_spec c p mem).1.1, put_l l s) /\ ready_in (cancel_spec c p mem).1.2 (cancel_spec c p mem).2 l.
Proof.
  intros Hr Ho.
  assert (forall v, bool_decide (v < 0) || bool_decide (v > 1) = negb (bool_decide (v = 0) || bool_decide (v = 1))) as Hv
    by (intros v; repeat case_bool_decide; try done; lia).
  destruct c as [v q|v q]; cbn [cancel_exec old_of cancel_spec] in *;
    [unfold pthread_setcancelstate|unfold pthread_setcanceltype]; (rewrite Hv; destruct (_ || _) eqn:E; cbn [negb];
      [|exists (ss (pa s)); split; [by rewrite put_l_id|done]]).
  - assert (v = 0 \/ v = 1) as Hc by (apply orb_true_iff in E as [E|E]; apply bool_decide_eq_true in E; auto).
    destruct (change_run p (bool_decide (v = 1), p.2) mem s q PTH_CANCEL_ENABLE PTHREAD_CANCEL_ENABLE PTHREAD_CANCEL_DISABLE
      (fun x => if bool_decide (v = PTHREAD_CANCEL_ENABLE) then clear_flag (set_flag x PTH_CANCEL_ENABLE) PTH_CANCEL_DISABLE
                else clear_flag (set_flag x PTH_CANCEL_DISABLE) PTH_CANCEL_ENABLE) Hr Ho) as (l & El & Hl).
    { destruct Hc as [-> | ->], p as [[] []]; vm_compute; done. }
    exists l. split; [exact El|]. cbn [fst snd]. replace (if p.1 then 1 else 0) with (if flag (enc p) PTH_CANCEL_ENABLE then PTHREAD_CANCEL_ENABLE else PTHREAD_CANCEL_DISABLE)
      by (destruct p as [[] []]; vm_compute; done). exact Hl.
  - assert (v = 0 \/ v = 1) as Hc by (apply orb_true_iff in E as [E|E]; apply bool_decide_eq_true in E; auto).
    destruct (change_run p (p.1, bool_decide (v = 1)) mem s q PTH_CANCEL_DEFERRED PTHREAD_CANCEL_DEFERRED PTHREAD_CANCEL_ASYNCHRONOUS
      (fun x => if bool_decide (v = PTHREAD_CANCEL_DEFERRED) then clear_flag (set_flag x PTH_CANCEL_DEFERRED) PTH_CANCEL_ASYNCHRONOUS
                else clear_flag (set_flag x PTH_CANCEL_ASYNCHRONOUS) PTH_CANCEL_DEFERRED) Hr Ho) as (l & El & Hl).
    { destruct Hc as [-> | ->], p as [[] []]; vm_compute; done. }
    exists l. split; [exact El|]. cbn [fst snd]. replace (if p.2 then 1 else 0) with (if flag (enc p) PTH_CANCEL_DEFERRED then PTHREAD_CANCEL_DEFERRED else PTHREAD_CANCEL_ASYNCHRONOUS)
      by (destruct p as [[] []]; vm_compute; done). exact Hl.
Qed.

Fixpoint cancel_run (cs : list cancel_call) : M (@pt H) (list (option Z)) :=
  match cs with
  | [] => mret []
  | c :: cs => r ← cancel_exec c; rs ← cancel_run cs; mret (r :: rs)
  end.

Fixpoint cancel_specs (cs : list cancel_call) (p : cancel_mode) (mem : gmap Z Z) : list Z * cancel_mode * gmap Z Z :=
  match cs with
  | [] => ([], p, mem)
  | c :: cs =>
      let '(r, p, mem) := cancel_spec c p mem in
      let '(rs, p, mem) := cancel_specs cs p mem in (r :: rs, p, mem)
  end.

(** C25: any sequence of calls of [pthread_setcancelstate] and
    [pthread_setcanceltype] returns what a pair of a state and a type returns:
    OK and the old value for a valid argument, EINVAL and no change otherwise;
    afterwards the flags of the thread are those of the pair. *)
Theorem cancel_calls_refine cs p mem s :
  ready_in p mem (ss (pa s)) -> (forall c, c ∈ cs -> old_of c = 0 \/ is_Some (mem !! old_of c)) ->
  let '(rs, p', mem') := cancel_specs cs p mem in
  exists l, cancel_run cs s = Ok (Some <$> rs, put_l l s) /\ ready_in p' mem' l.
Proof.
  revert p mem s. induction cs as [|c cs IH]; intros p mem s Hr Hc; cbn [cancel_specs cancel_run].
  { exists (ss (pa s)). split; [by rewrite put_l_id|done]. }
  destruct (cancel_exec_run c p mem s Hr) as (l & E & Hl); [apply Hc; set_solver|].
  destruct (cancel_spec c p mem) as [[r p1] mem1] eqn:Es. cbn [fst snd] in *.
  specialize (IH p1 mem1 (put_l l s) Hl). destruct (cancel_specs cs p1 mem1) as [[rs p2] mem2].
  destruct IH as (l' & E' & Hl').
  { intros c' Hin. destruct (Hc c') as [?|Hm]; [set_solver|by left|]. right.
    assert (mem1 = (cancel_spec c p mem).2) as -> by (by rewrite Es). destruct c; cbn; repeat case_match; cbn; rewrite ?lookup_insert_is_Some'; auto. }
  exists l'. split; [|done]. rewrite (bind_run _ _ _ _ _ E), (bind_run _ _ _ _ _ E'). done.
Qed.
End cancel.

(** ** [pthread_once] *)

Definition put_once (o : nat) (v : Z) s : @pt H := set_onces (<[o := v]> (onces s)) s.

(** Native [n] runs a thread, the lock is free and the variable has the value [v]. *)
Record once_ready (o : nat) (v : Z) s : Prop := {
  or_native : exists n d, self (wo (ss (pa s))) = Some n /\ natives (wo (ss (pa s))) !! n = Some d;
  or_lock : once_init_lock s = qlock_free;
  or_value : onces s !! o = Some v }.

Lemma put_once_same o v s : onces s !! o = Some v -> put_once o v s = s.
Proof. intros E. unfold put_once. rewrite insert_id by done. by destruct s. Qed.

Lemma once_descr_run s n d : self (wo (ss (pa s))) = Some n -> natives (wo (ss (pa s))) !! n = Some d -> onlw my_descr s = Ok ((n, d), s).
Proof.
  intros Hs Hd. unfold onlw. rewrite (onl_run _ s (n, d) (ss (pa s))); [by rewrite put_l_id|]. apply onw_same. by apply my_descr_run.
Qed.

Lemma once_read_run o v s : onces s !! o = Some v -> once_read o s = Ok (v, s).
Proof. intros E. unfold once_read. by rewrite (bind_run get _ _ _ _ eq_refl), E. Qed.

Lemma once_write_run o v w s : onces s !! o = Some v -> once_write o w s = Ok (tt, put_once o w s).
Proof. intros E. unfold once_write. by rewrite (bind_run _ _ _ _ _ (once_read_run o v s E)). Qed.

(** The lock is taken and released around a change of the variable. *)
Lemma once_locked o v s : once_ready o v s ->
  exists s1, once_lock s = Ok (tt, s1) /\ onces s1 = onces s /\ forall w, once_unlock (put_once o w s1) = Ok (tt, put_once o w s).
Proof.
  intros [(n & d & Hs & Hd) Hl Hv]. destruct (qlock_cycle (tid d)) as (k & Ea & Er). set (s1 := set_once_init_lock k s).
  exists s1. split; [|split; [done|]].
  - unfold once_lock. rewrite (bind_run _ _ s (n, d) s) by by apply once_descr_run. cbv beta iota. rewrite (bind_run get _ _ _ _ eq_refl), Hl.
    rewrite (bind_run _ _ s k s) by (by rewrite Ea). done.
  - intros w. unfold once_unlock. rewrite (bind_run _ _ _ (n, d) (put_once o w s1)) by by apply once_descr_run. cbv beta iota.
    unfold modify, put_once, s1, set_onces, set_once_init_lock. cbn. by rewrite Er, <- Hl.
Qed.

Lemma put_once_ready o v w s : once_ready o v s -> once_ready o w (put_once o w s).
Proof. intros [(n & d & Hs & Hd) Hl Hv]. split; [by exists n, d|done|]. cbn. apply lookup_insert_eq. Qed.

Section once.
Context (call : nat -> Z -> M (@Clean.cstate H) unit) (once_handler : nat).

(** What the first call does after it has set the variable *)
Definition run_init (o : nat) (init : M (@pt H) bool) : M pt (option Z) :=
  _pthread_cleanup_push (Some once_handler) (Z.of_nat o);;
  on ← init;
  if (on : bool) then _pthread_cleanup_pop call false;; mret (Some OK) else mret None.

Lemma pthread_once_run o v init s : once_ready o v s ->
  pthread_once call once_handler (Some o) (Some init) s =
    if bool_decide (v = 1) then Ok (Some OK, s) else run_init o init (put_once o 1 s).
Proof.
  intros Hr. pose proof Hr as [_ _ Hv]. destruct (once_locked o v s Hr) as (s1 & El & Eo & Eu).
  unfold pthread_once. rewrite (bind_run _ _ _ _ _ El). rewrite <- Eo in Hv.
  rewrite (bind_run _ _ _ _ _ (once_read_run o v s1 Hv)), (bind_run _ _ _ _ _ (once_write_run o v 1 s1 Hv)), (bind_run _ _ _ _ _ (Eu 1)).
  case_bool_decide as E; cbn [negb]; [|done]. rewrite put_once_same; [done|]. rewrite <- Eo, Hv, E. done.
Qed.

Fixpoint once_run (k o : nat) (init : M (@pt H) bool) : M pt (list (option Z)) :=
  match k with
  | O => mret []
  | S k => r ← pthread_once call once_handler (Some o) (Some init); rs ← once_run k o init; mret (r :: rs)
  end.

Lemma once_done_run k o init s : once_ready o 1 s -> once_run k o init s = Ok (replicate k (Some OK), s).
Proof.
  intros Hr. induction k as [|k IH]; [done|]. cbn [once_run replicate].
  rewrite (bind_run _ _ s (Some OK) s) by by rewrite (pthread_once_run o 1 init s Hr). by rewrite (bind_run _ _ _ _ _ IH).
Qed.

(** C26: of any number of calls of [pthread_once] on the same variable only the
    first one runs the routine, between the push and the pop of its cleanup
    handler; the others return OK and change nothing, even while the routine
    is still running.  When the thread ends in the routine, the cleanup
    handler resets the variable, and the next call runs the routine again. *)
Theorem once_runs_once k o v init s :
  once_ready o v s -> v <> 1 ->
  (forall r s2, run_init o init (put_once o 1 s) = Ok (r, s2) -> once_ready o 1 s2 ->
     once_run (S k) o init s = Ok (r :: replicate k (Some OK), s2) /\
     (forall s3, pthread_once_handler o s2 = Ok (tt, s3) ->
        pthread_once call once_handler (Some o) (Some init) s3 = run_init o init (put_once o 1 s2))) /\
  (exists s3, pthread_once_handler o (put_once o 1 s) = Ok (tt, s3) /\ once_ready o PTHREAD_ONCE_INIT s3).
Proof.
  intros Hr Hn.
  assert (forall w t, once_ready o w t -> pthread_once_handler o t = Ok (tt, put_once o PTHREAD_ONCE_INIT t)) as Hh.
  { intros w t Ht. destruct (once_locked o w t Ht) as (t1 & El & Eo & Eu). destruct Ht as [_ _ Hv]. rewrite <- Eo in Hv.
    unfold pthread_once_handler. rewrite (bind_run _ _ _ _ _ El), (bind_run _ _ _ _ _ (once_write_run o w _ t1 Hv)). apply Eu. }
  split.
  - intros r s2 Hi Hr2. split.
    + cbn [once_run]. rewrite (bind_run _ _ s r s2) by (rewrite (pthread_once_run o v init s Hr), bool_decide_eq_false_2 by done; exact Hi).
      by rewrite (bind_run _ _ _ _ _ (once_done_run k o init s2 Hr2)).
    + intros s3 E. rewrite (Hh 1 s2 Hr2) in E. injection E as <-.
      rewrite (pthread_once_run o PTHREAD_ONCE_INIT) by by eapply put_once_ready. rewrite bool_decide_eq_false_2 by done.
      f_equal. unfold put_once, set_onces. cbn. by rewrite insert_insert_eq.
  - exists (put_once o PTHREAD_ONCE_INIT (put_once o 1 s)). split; [by eapply Hh, put_once_ready|]. by eapply put_once_ready, put_once_ready.
Qed.
End once.
End proofs.

Lemma reschedule_comes_back n t p mem l d y : in_mode n t p mem l d y ->
  exists l', reschedule n l = Ok (tt, l') /\ ready_in n t p mem l'.
Proof.
  intros [(Hs & Hd & Hc) Hy Hm Hq Hu]. eexists. split; [reflexivity|].
  exists (set_sched_lock qlock_free d), y. split; [|done]. split; try done. split; [done|]. split; [|done]. cbn.
  by rewrite list_lookup_alter_eq, Hd.
Qed.

Definition pt_demo (mem : gmap Z Z) : @pt unit :=
  PT (ASt (set_um mem (lib_demo (QMem ∅ ∅ ∅) {[8%nat := a_thread]})) ∅ ∅ ∅ ∅ [])
     (Keys.KState [] 0 ∅ None [] []) (Clean.CState {[ 8%nat := Clean.CThread None 0 Clean.zero_buf ]} ∅ None [] tt) ∅ {[ 3%nat := 0 ]} qlock_free 0 ∅.

Lemma cancel_calls_refine_witness :
  exists l, cancel_run (reschedule 1) (fun _ => mret tt) 0 [SetType 1 4; SetState 1 4; SetState 5 4; SetState 0 4] (pt_demo {[ 4 := 9 ]}) =
    Ok ([Some OK; Some OK; Some EINVAL; Some OK], put_l l (pt_demo {[ 4 := 9 ]})) /\
  ready_in 1 8 (false, true) {[ 4 := 1 ]} l.
Proof.
  refine (cancel_calls_refine (reschedule 1) (fun _ => mret tt) 0 1 8 (reschedule_comes_back 1 8)
    [SetType 1 4; SetState 1 4; SetState 5 4; SetState 0 4] (false, false) {[ 4 := 9 ]} (pt_demo {[ 4 := 9 ]}) _ _).
  - exists (a_native 101 8), a_thread. split; [|done]. split; try done.
  - intros c Hc. right. rewrite !elem_of_cons, elem_of_nil in Hc. destruct Hc as [-> | [-> | [-> | [-> | []]]]]; (exists 9; vm_compute; reflexivity).
Defined.

(** An allocator without memory *)
#[local] Program Instance no_memory : Allocator unit := {
  al_malloc := fun _ => mret None; al_free := fun _ _ => mret tt; al_live := fun _ _ => True;
  al_ready := fun _ _ => True; al_free_able := fun _ _ _ => True }.
Next Obligation. intros [] L n _ _ _. by exists None, tt. Qed.
Next Obligation. intros [] L c n _ _ _. by exists tt. Qed.

(** The routine counts its calls in a variable of the program. *)
Definition count_calls : M (@pt unit) bool := v ← onl (user_read 4); onl (user_write 4 (v + 1));; mret true.

Lemma once_runs_once_witness :
  exists s2, once_run (fun _ _ => mret tt) 70 3 3 count_calls (pt_demo {[ 4 := 0 ]}) = Ok ([Some OK; Some OK; Some OK], s2) /\
    um (ss (pa s2)) !! 4 = Some 1.
Proof.
  assert (once_ready 3 0 (pt_demo {[ 4 := 0 ]})) as Hr.
  { split; [exists 1%nat, (a_native 101 8); by split|done|apply lookup_singleton_eq]. }
  destruct (run_init (fun _ _ => mret tt) 70 3 count_calls (put_once 3 1 (pt_demo {[ 4 := 0 ]}))) as [[r s2]|e] eqn:E; [|vm_compute in E; done].
  assert (r = Some OK /\ once_ready 3 1 s2 /\ um (ss (pa s2)) !! 4 = Some 1) as (-> & Hr2 & Hm).
  { vm_compute in E. injection E as <- <-. split; [done|]. split; [|done]. split; [exists 1%nat, (a_native 101 8); by split|done|done]. }
  exists s2. split; [|done].
  exact (proj1 (proj1 (once_runs_once (fun _ _ => mret tt) 70 2 3 0 count_calls (pt_demo {[ 4 := 0 ]}) Hr ltac:(done)) _ _ E Hr2)).
Defined.
