(* ===== verification/High.v ===== *)
(** * Blocking calls that let only the thread sleep (pth_high.c)

    The functions try the system call, and where it would block they create an
    event and wait for it.  The state [io] joins that of the library with the
    kernel ([ik], through the interface [Kernel]), the bytes of the program's
    memory, [errno], and the vectors of the calls with several buffers.  A
    function whose thread is cancelled while it waits has no result.  What the
    other threads do meanwhile to the kernel and the memory is [elsewhere]. *)

From S2P Require Import Prelude Bitmap Dll LinkedList Ring Priorities PQueue Time Msg Futex World Sync Event Util Sched Lib.

Definition EBADF : Z := 9.
Definition EAGAIN : Z := 11.
Definition EFAULT : Z := 14.
Definition F_GETFL : Z := 3.
Definition F_SETFL : Z := 4.
Definition O_NONBLOCK : Z := 2048.
Definition UIO_MAXIOV : Z := 1024.
Definition MSG_DONTWAIT : Z := 64.
Definition WNOHANG : Z := 1.
Definition SEEK_SET : Z := 0.
Definition SEEK_CUR : Z := 1.

Definition PTH_FDMODE_ERROR : Z := -1.
Definition PTH_FDMODE_POLL : Z := 0.
Definition PTH_FDMODE_BLOCK : Z := 1.
Definition PTH_FDMODE_NONBLOCK : Z := 2.

(** The system calls: the result, the error, and the data that come back.
    [select] is called with a zero timeout only; [sigprocmask] is given by the
    new mask for a way to change it, a set and the old mask. *)
Class Kernel (K : Type) : Type := {
  k_fcntl : Z -> Z -> Z -> M K (Z * Z);
  k_select : Z -> option Z -> option Z -> option Z -> M K (Z * Z * (option Z * option Z * option Z));
  k_read : Z -> Z -> M K (Z * Z * list Z);
  k_write : Z -> list Z -> M K (Z * Z);
  k_readv : Z -> list Z -> M K (Z * Z * list Z);
  k_writev : Z -> list (list Z) -> M K (Z * Z);
  k_connect : Z -> Z -> M K (Z * Z);
  k_so_error : Z -> M K (Z * Z * Z);
  k_accept : Z -> M K (Z * Z);
  k_waitpid : Z -> Z -> M K (Z * Z * Z);
  k_lseek : Z -> Z -> Z -> M K (Z * Z);
  k_recvfrom : Z -> Z -> Z -> M K (Z * Z * list Z);
  k_sendto : Z -> list Z -> Z -> Z -> M K (Z * Z);
  k_recvmsg : Z -> Z -> Z -> M K (Z * Z);
  k_sendmsg : Z -> Z -> Z -> M K (Z * Z);
  k_tkill : Z -> Z -> M K unit;
  k_sigprocmask : Z -> Z -> Z -> option Z }.

Record iovec : Set := Iov { iov_base : Z; iov_len : Z }.

(** Where the local vector of [pth_writev_ev] is: nowhere yet, in the vector of
    the caller, in the static copy. *)
Inductive iov_ptr : Set := INull | IReal (i : nat) | ICopy (i : nat).

#[global] Instance iov_ptr_eq_dec : EqDecision iov_ptr.
Proof. solve_decision. Defined.

Section io.
Context {K : Type} `{Kernel K}.

(** [io_mallocs]: the blocks [pth_malloc] will answer with; [io_freed]: what
    [pth_free_mem] was called with, as the distance from the start of the block
    and a size; [ienv], [ifds]: see Sync. *)
Record io : Type := IO {
  il : sst; ik : K; ubytes : gmap Z Z; errno : Z; uiov : list iovec; siov : list iovec;
  io_mallocs : list (option (list Z)); io_freed : list (Z * Z); ienv : list wakeup; ifds : list Z; sig_lock : pth_qlock_st }.

Definition set_il (v : sst) (s : io) : io := IO v (ik s) (ubytes s) (errno s) (uiov s) (siov s) (io_mallocs s) (io_freed s) (ienv s) (ifds s) (sig_lock s).
Definition set_ik (v : K) (s : io) : io := IO (il s) v (ubytes s) (errno s) (uiov s) (siov s) (io_mallocs s) (io_freed s) (ienv s) (ifds s) (sig_lock s).
Definition set_ubytes (v : gmap Z Z) (s : io) : io := IO (il s) (ik s) v (errno s) (uiov s) (siov s) (io_mallocs s) (io_freed s) (ienv s) (ifds s) (sig_lock s).
Definition set_errno (v : Z) (s : io) : io := IO (il s) (ik s) (ubytes s) v (uiov s) (siov s) (io_mallocs s) (io_freed s) (ienv s) (ifds s) (sig_lock s).
Definition set_uiov (v : list iovec) (s : io) : io := IO (il s) (ik s) (ubytes s) (errno s) v (siov s) (io_mallocs s) (io_freed s) (ienv s) (ifds s) (sig_lock s).
Definition set_siov (v : list iovec) (s : io) : io := IO (il s) (ik s) (ubytes s) (errno s) (uiov s) v (io_mallocs s) (io_freed s) (ienv s) (ifds s) (sig_lock s).
Definition set_io_mallocs (v : list (option (list Z))) (s : io) : io := IO (il s) (ik s) (ubytes s) (errno s) (uiov s) (siov s) v (io_freed s) (ienv s) (ifds s) (sig_lock s).
Definition set_io_freed (v : list (Z * Z)) (s : io) : io := IO (il s) (ik s) (ubytes s) (errno s) (uiov s) (siov s) (io_mallocs s) v (ienv s) (ifds s) (sig_lock s).

Definition set_sig_lock (v : pth_qlock_st) (s : io) : io := IO (il s) (ik s) (ubytes s) (errno s) (uiov s) (siov s) (io_mallocs s) (io_freed s) (ienv s) (ifds s) v.

Definition oni {A} : M sst A -> M io A := zoom il set_il.
Definition onsys {A} : M sys A -> M io A :=
  zoom (fun s => Sys (wo (il s)) (ienv s) (ifds s))
       (fun y s => IO (set_wo (wld y) (il s)) (ik s) (ubytes s) (errno s) (uiov s) (siov s) (io_mallocs s) (io_freed s) (env y) (fds y) (sig_lock s)).

(** A system call sets [errno] when it fails. *)
Definition sc (c : M K (Z * Z)) : M io Z :=
  '(r, e) ← zoom ik set_ik c; (if bool_decide (r = -1) then modify (set_errno e) else mret tt);; mret r.
Definition sc_with {A} (c : M K (Z * Z * A)) : M io (Z * A) :=
  '(r, e, a) ← zoom ik set_ik c; (if bool_decide (r = -1) then modify (set_errno e) else mret tt);; mret (r, a).
Definition return_errno {A} (v : A) (e : Z) : M io A := modify (set_errno e);; mret v.
Definition errno_shield {A} (c : M io A) : M io unit := s ← get; c;; modify (set_errno (errno s)).

(** [n] bytes of the memory from an address on *)
Fixpoint read_bytes (p : Z) (n : nat) : M io (list Z) :=
  match n with
  | O => mret []
  | S n => s ← get; c ← of_option BadDeref (ubytes s !! p); l ← read_bytes (p + 1) n; mret (c :: l)
  end.
Fixpoint write_bytes (p : Z) (l : list Z) : M io unit :=
  match l with
  | [] => mret tt
  | c :: l => s ← get; _ ← of_option BadDeref (ubytes s !! p); modify (fun s => set_ubytes (<[p := c]> (ubytes s)) s);; write_bytes (p + 1) l
  end.

(** ** Waiting *)

(** The parameters of Lib, the clock, and what other threads do while the
    thread sleeps; [rfuel] bounds the repetitions of interrupted calls. *)
Context (switch : M sst unit) (popall : nat -> M sst unit) (mfuel efuel : nat) (now : sst -> Z) (clk : clock) (elsewhere : M io unit) (rfuel : nat).

(** [while ((r = call) < 0 && errno == EINTR);] *)
Fixpoint retry {A} (fuel : nat) (c : M io (Z * A)) : M io (Z * A) :=
  match fuel with
  | O => fail Stuck
  | S fuel =>
      '(r, a) ← c;
      s ← get;
      if bool_decide (r < 0) && bool_decide (errno s = EINTR) then retry fuel c else mret (r, a)
  end.
(** The same for [while ((r = call) == -1 && errno == EINTR);] *)
Fixpoint retry_eq (fuel : nat) (c : M io Z) : M io Z :=
  match fuel with
  | O => fail Stuck
  | S fuel =>
      r ← c;
      s ← get;
      if bool_decide (r = -1) && bool_decide (errno s = EINTR) then retry_eq fuel c else mret r
  end.
Definition retry_call (c : M io Z) : M io Z := '(r, _) ← retry rfuel (r ← c; mret (r, tt)); mret r.

Definition wait_ring (ev : option nat) : M io (option Z) := r ← oni (pth_wait switch popall mfuel efuel ev); elsewhere;; mret r.

(** [pth_event_concat(ev, ev_extra, NULL)] *)
Definition concat_extra (ev ev_extra : option nat) : M io unit :=
  match ev_extra with None => mret tt | Some e => oni (one (pth_event_concat ev [e]));; mret tt end.

(** After a wait with an extra event: whether the thread's own event occurred. *)
Definition own_occurred (ev ev_extra : option nat) : M io bool :=
  match ev_extra with
  | None => mret true
  | Some _ => oni (one (pth_event_isolate ev));; oni (one (pth_event_occurred ev))
  end.

(** The event is created, and waited for together with the extra event.  The
    result: whether it occurred, or no extra event was given. *)
Definition io_wait (spec : Z) (key : nat) (args : event_args) (ev_extra : option nat) : M io (option bool) :=
  ev ← oni (static_ev switch spec key args);
  concat_extra ev ev_extra;;
  w ← wait_ring ev;
  match w with
  | None => mret None
  | Some _ => b ← own_occurred ev ev_extra; mret (Some b)
  end.

Definition wait_readable (key : nat) (fd : Z) := io_wait (Z.lor PTH_EVENT_FD PTH_UNTIL_FD_READABLE) key (AFd fd).
Definition wait_writeable (key : nat) (fd : Z) := io_wait (Z.lor PTH_EVENT_FD PTH_UNTIL_FD_WRITEABLE) key (AFd fd).

(** ** Descriptors *)

(** [pth_fdmode] of pth_lib.c *)
Definition pth_fdmode (fd newmode : Z) : M io Z :=
  fdmode ← sc (k_fcntl fd F_GETFL 0);
  if bool_decide (fdmode = -1) then mret PTH_FDMODE_ERROR
  else if flag fdmode O_NONBLOCK then
    (if bool_decide (newmode = PTH_FDMODE_BLOCK) then sc (k_fcntl fd F_SETFL (clear_flag fdmode O_NONBLOCK));; mret tt else mret tt);;
    mret PTH_FDMODE_NONBLOCK
  else
    (if bool_decide (newmode = PTH_FDMODE_NONBLOCK) then sc (k_fcntl fd F_SETFL (set_flag fdmode O_NONBLOCK));; mret tt else mret tt);;
    mret PTH_FDMODE_BLOCK.

(** [FD_ZERO(&fds); FD_SET(fd, &fds)] and the polling [select] *)
Definition poll_fd (reading : bool) (fd : Z) : M io Z :=
  set ← of_res (FD_SET fd 0);
  '(n, _) ← retry rfuel (sc_with (if reading then k_select (fd + 1) (Some set) None None else k_select (fd + 1) None (Some set) None));
  mret n.

(** ** Reading *)

Definition read_call (fd buf nbytes : Z) : M io Z :=
  '(n, l) ← retry rfuel (sc_with (k_read fd nbytes));
  write_bytes buf l;;
  mret n.

Definition pth_read_ev (key : nat) (fd buf nbytes : Z) (ev_extra : option nat) : M io (option Z) :=
  if bool_decide (nbytes = 0) then mret (Some 0)
  else
    fdmode ← pth_fdmode fd PTH_FDMODE_POLL;
    if bool_decide (fdmode = PTH_FDMODE_ERROR) then return_errno (Some (-1)) EBADF
    else
      go ← (if bool_decide (fdmode = PTH_FDMODE_BLOCK) then
              n ← poll_fd true fd;
              if bool_decide (n < 1) then wait_readable key fd ev_extra else mret (Some true)
            else mret (Some true));
      match go with
      | None => mret None
      | Some false => return_errno (Some (-1)) EINTR
      | Some true => n ← read_call fd buf nbytes; mret (Some n)
      end.
Definition pth_read (key : nat) (fd buf nbytes : Z) := pth_read_ev key fd buf nbytes None.

(** ** Writing *)

Definition write_call (fd buf nbytes : Z) : M io Z :=
  data ← read_bytes buf (Z.to_nat nbytes);
  retry_call (sc (k_write fd data)).

(** The loop of [pth_write_ev]; [n]: whether the descriptor is writeable. *)
Fixpoint write_loop (fuel : nat) (key : nat) (fd fdmode buf nbytes n rv : Z) (ev_extra : option nat) : M io (option Z) :=
  match fuel with
  | O => fail Stuck
  | S fuel =>
      go ← (if bool_decide (n < 1) then wait_writeable key fd ev_extra else mret (Some true));
      match go with
      | None => mret None
      | Some false => pth_fdmode fd fdmode;; return_errno (Some (-1)) EINTR
      | Some true =>
          s ← write_call fd buf nbytes;
          let rv := if bool_decide (s > 0) then swrap 32 (rv + s) else rv in
          if bool_decide (s > 0) && bool_decide (s < swrap 32 nbytes) then write_loop fuel key fd fdmode (buf + s) (nbytes - s) 0 rv ev_extra
          else mret (Some (if bool_decide (s < 0) && bool_decide (rv = 0) then -1 else rv))
      end
  end.

Definition pth_write_ev (key : nat) (fd buf nbytes : Z) (ev_extra : option nat) : M io (option Z) :=
  if bool_decide (nbytes = 0) then mret (Some 0)
  else
    fdmode ← pth_fdmode fd PTH_FDMODE_NONBLOCK;
    if bool_decide (fdmode = PTH_FDMODE_ERROR) then return_errno (Some (-1)) EBADF
    else
      rv ← write_call fd buf nbytes;
      st ← get;
      if negb (bool_decide (fdmode = PTH_FDMODE_NONBLOCK)) && bool_decide (rv = -1) && bool_decide (errno st = EAGAIN) then
        errno_shield (pth_fdmode fd fdmode);;
        n ← poll_fd false fd;
        write_loop (S (Z.to_nat nbytes)) key fd fdmode buf nbytes n 0 ev_extra
      else errno_shield (pth_fdmode fd fdmode);; mret (Some rv).
Definition pth_write (key : nat) (fd buf nbytes : Z) := pth_write_ev key fd buf nbytes None.

(** ** Several buffers *)

Definition iov_at (p : iov_ptr) : M io iovec :=
  s ← get;
  match p with
  | INull => fail BadDeref
  | IReal i => of_option OutOfBounds (uiov s !! i)
  | ICopy i => of_option OutOfBounds (siov s !! i)
  end.
Definition iov_put (p : iov_ptr) (v : iovec) : M io unit :=
  iov_at p;;
  match p with
  | INull => fail BadDeref
  | IReal i => modify (fun s => set_uiov (<[i := v]> (uiov s)) s)
  | ICopy i => modify (fun s => set_siov (<[i := v]> (siov s)) s)
  end.
Definition iov_next (p : iov_ptr) : iov_ptr := match p with INull => INull | IReal i => IReal (S i) | ICopy i => ICopy (S i) end.

(** The [n] elements from [p] on *)
Fixpoint iov_list (p : iov_ptr) (n : nat) : M io (list iovec) :=
  match n with
  | O => mret []
  | S n => v ← iov_at p; l ← iov_list (iov_next p) n; mret (v :: l)
  end.

Fixpoint iov_bytes_loop (l : list iovec) (bytes : Z) : Z :=
  match l with
  | [] => bytes
  | v :: l => iov_bytes_loop l (if bool_decide (iov_len v <= 0) then bytes else swrap 32 (bytes + iov_len v))
  end.
Definition pth_writev_iov_bytes (iov : list iovec) : Z := iov_bytes_loop iov 0.

(** The copy of the caller's vector *)
Fixpoint iov_copy (i n : nat) : M io unit :=
  match n with
  | O => mret tt
  | S n => v ← iov_at (IReal i); iov_put (ICopy i) v;; iov_copy (S i) n
  end.

Fixpoint advance_loop (liovcnt : nat) (advance : Z) (liov : iov_ptr) : M io (iov_ptr * nat) :=
  match liovcnt with
  | O => mret (liov, O)
  | S cnt =>
      if bool_decide (advance > 0) then
        v ← iov_at liov;
        if bool_decide (iov_len v > advance) then
          iov_put liov (Iov (iov_base v + advance) (iov_len v - advance));; mret (liov, S cnt)
        else advance_loop cnt (advance - iov_len v) (iov_next liov)
      else mret (liov, S cnt)
  end.

(** [riov] is the vector of the caller, of [riovcnt] elements. *)
Definition pth_writev_iov_advance (riovcnt : nat) (advance : Z) (liov : iov_ptr) (liovcnt : nat) : M io (iov_ptr * nat) :=
  let '(liov, liovcnt) := if bool_decide (liov = INull) && bool_decide (liovcnt = 0%nat) then (IReal 0, riovcnt) else (liov, liovcnt) in
  if bool_decide (advance > 0) then
    liov ← (if bool_decide (liov = IReal 0) && bool_decide (liovcnt = riovcnt) then iov_copy 0 riovcnt;; mret (ICopy 0) else mret liov);
    advance_loop liovcnt advance liov
  else mret (liov, liovcnt).

(** [pth_malloc] *)
Definition malloc_buffer : M io (option (list Z)) :=
  s ← get;
  match io_mallocs s with
  | [] => fail Stuck
  | b :: l => modify (set_io_mallocs l);; mret b
  end.
Definition free_buffer (offset bytes : Z) : M io unit := modify (fun s => set_io_freed (io_freed s ++ [(offset, bytes)]) s).

(** The sum of the lengths, unless one is zero *)
Fixpoint total_bytes (l : list iovec) (bytes : Z) : option Z :=
  match l with
  | [] => Some bytes
  | v :: l => if bool_decide (iov_len v <= 0) then None else total_bytes l (wrap 32 (bytes + iov_len v))
  end.

(** [memcpy(buffer, ...)] into a block at an offset *)
Definition block_write (b : list Z) (off : nat) (l : list Z) : M io (list Z) :=
  if bool_decide (off + length l <= length b)%nat then mret (take off b ++ l ++ drop (off + length l) b) else fail OutOfBounds.
Definition block_read (b : list Z) (off n : nat) : M io (list Z) :=
  if bool_decide (off + n <= length b)%nat then mret (take n (drop off b)) else fail OutOfBounds.

(** The scatter loop; the result: how far [buffer] has moved, and what is left of
    [bytes]. *)
Fixpoint scatter (l : list iovec) (buffer : list Z) (off bytes : Z) : M io (Z * Z) :=
  match l with
  | [] => mret (off, bytes)
  | v :: l =>
      let copy := pth_util_min (iov_len v) bytes in
      d ← block_read buffer (Z.to_nat off) (Z.to_nat copy);
      write_bytes (iov_base v) d;;
      if bool_decide (bytes - copy <= 0) then mret (off + copy, bytes - copy) else scatter l buffer (off + copy) (bytes - copy)
  end.

Definition pth_readv_faked (fd : Z) (iov : list iovec) : M io Z :=
  match total_bytes iov 0 with
  | None => return_errno (-1) EINVAL
  | Some bytes =>
      if bool_decide (bytes <= 0) then return_errno (-1) EINVAL
      else
        b ← malloc_buffer;
        match b with
        | None => mret (-1)
        | Some buffer =>
            '(rv, d) ← sc_with (k_read fd bytes);
            buffer ← block_write buffer 0 d;
            let rv := wrap 32 rv in
            '(off, bytes) ← (if bool_decide (rv > 0) then scatter iov buffer 0 rv else mret (0, bytes));
            free_buffer off bytes;;
            mret (swrap 32 rv)
        end
  end.

(** The loop that collects the data: [cp] does not move. *)
Fixpoint gather (l : list iovec) (buffer : list Z) (to_copy : Z) : M io (list Z) :=
  match l with
  | [] => mret buffer
  | v :: l =>
      let copy := pth_util_min (iov_len v) to_copy in
      d ← read_bytes (iov_base v) (Z.to_nat copy);
      buffer ← block_write buffer 0 d;
      if bool_decide (to_copy - copy <= 0) then mret buffer else gather l buffer (to_copy - copy)
  end.

Definition pth_writev_faked (fd : Z) (iov : list iovec) : M io Z :=
  match total_bytes iov 0 with
  | None => return_errno (-1) EINVAL
  | Some bytes =>
      if bool_decide (bytes <= 0) then return_errno (-1) EINVAL
      else
        b ← malloc_buffer;
        match b with
        | None => mret (-1)
        | Some buffer =>
            buffer ← gather iov buffer bytes;
            d ← block_read buffer 0 (Z.to_nat bytes);
            rv ← sc (k_write fd d);
            free_buffer 0 bytes;;
            mret rv
        end
  end.

(** The data of a vector, one list per element *)
Fixpoint iov_data (l : list iovec) : M io (list (list Z)) :=
  match l with
  | [] => mret []
  | v :: l => d ← read_bytes (iov_base v) (Z.to_nat (iov_len v)); ds ← iov_data l; mret (d :: ds)
  end.
(** What [readv] stores *)
Fixpoint iov_store (l : list iovec) (d : list Z) : M io unit :=
  match l with
  | [] => mret tt
  | v :: l => write_bytes (iov_base v) (take (Z.to_nat (iov_len v)) d);; iov_store l (drop (Z.to_nat (iov_len v)) d)
  end.

(** [fake]: [PTH_FAKE_RWV] *)
Definition writev_call (fake : bool) (fd : Z) (liov : iov_ptr) (liovcnt : nat) : M io Z :=
  iov ← iov_list liov liovcnt;
  if fake then retry_call (pth_writev_faked fd iov)
  else ds ← iov_data iov; retry_call (sc (k_writev fd ds)).
Definition readv_call (fake : bool) (fd : Z) (iov : list iovec) : M io Z :=
  if fake then retry_call (pth_readv_faked fd iov)
  else '(n, d) ← retry rfuel (sc_with (k_readv fd (iov_len <$> iov))); iov_store iov d;; mret n.

Definition pth_readv_ev (fake : bool) (key : nat) (fd iovcnt : Z) (ev_extra : option nat) : M io (option Z) :=
  if bool_decide (iovcnt <= 0) || bool_decide (iovcnt > UIO_MAXIOV) then return_errno (Some (-1)) EINVAL
  else
    fdmode ← pth_fdmode fd PTH_FDMODE_POLL;
    if bool_decide (fdmode = PTH_FDMODE_ERROR) then return_errno (Some (-1)) EBADF
    else
      go ← (if bool_decide (fdmode = PTH_FDMODE_BLOCK) then
              n ← poll_fd true fd;
              if bool_decide (n < 1) then wait_readable key fd ev_extra else mret (Some true)
            else mret (Some true));
      match go with
      | None => mret None
      | Some false => return_errno (Some (-1)) EINTR
      | Some true => iov ← iov_list (IReal 0) (Z.to_nat iovcnt); n ← readv_call fake fd iov; mret (Some n)
      end.
Definition pth_readv (fake : bool) (key : nat) (fd iovcnt : Z) := pth_readv_ev fake key fd iovcnt None.

(** The loop of [pth_writev_ev] *)
Fixpoint writev_loop (fuel : nat) (fake : bool) (key : nat) (fd fdmode : Z) (riovcnt : nat) (liov : iov_ptr) (liovcnt : nat) (nbytes n rv : Z) (ev_extra : option nat) : M io (option Z) :=
  match fuel with
  | O => fail Stuck
  | S fuel =>
      go ← (if bool_decide (n < 1) then wait_writeable key fd ev_extra else mret (Some true));
      match go with
      | None => mret None
      | Some false => pth_fdmode fd fdmode;; return_errno (Some (-1)) EINTR
      | Some true =>
          s ← writev_call fake fd liov liovcnt;
          let rv := if bool_decide (s > 0) then swrap 32 (rv + s) else rv in
          if bool_decide (s > 0) && bool_decide (s < swrap 32 nbytes) then
            '(liov, liovcnt) ← pth_writev_iov_advance riovcnt (wrap 32 n) liov liovcnt;
            writev_loop fuel fake key fd fdmode riovcnt liov liovcnt (nbytes - s) 0 rv ev_extra
          else mret (Some (if bool_decide (s < 0) && bool_decide (rv = 0) then -1 else rv))
      end
  end.

Definition pth_writev_ev (fake : bool) (key : nat) (fd iovcnt : Z) (ev_extra : option nat) : M io (option Z) :=
  if bool_decide (iovcnt <= 0) || bool_decide (iovcnt > UIO_MAXIOV) then return_errno (Some (-1)) EINVAL
  else
    fdmode ← pth_fdmode fd PTH_FDMODE_NONBLOCK;
    if bool_decide (fdmode = PTH_FDMODE_ERROR) then return_errno (Some (-1)) EBADF
    else
      let cnt := Z.to_nat iovcnt in
      rv ← writev_call fake fd (IReal 0) cnt;
      st ← get;
      if negb (bool_decide (fdmode = PTH_FDMODE_NONBLOCK)) && bool_decide (rv = -1) && bool_decide (errno st = EAGAIN) then
        errno_shield (pth_fdmode fd fdmode);;
        iov ← iov_list (IReal 0) cnt;
        let nbytes := pth_writev_iov_bytes iov in
        '(liov, liovcnt) ← pth_writev_iov_advance cnt 0 INull 0;
        n ← poll_fd false fd;
        writev_loop (S (Z.to_nat nbytes)) fake key fd fdmode cnt liov liovcnt nbytes n 0 ev_extra
      else errno_shield (pth_fdmode fd fdmode);; mret (Some rv).
Definition pth_writev (fake : bool) (key : nat) (fd iovcnt : Z) := pth_writev_ev fake key fd iovcnt None.

(** ** At an offset *)

(** The static mutex, the parameters of Sync; [lseek] has 32 or 64 bits. *)
Context (alive : Z -> bool) (sfuel : nat).

(** The parts the four functions share: the offset is remembered and set, [call]
    reads or writes, and the offset is put back. *)
Definition at_offset (mutex : nat) (fd offset : Z) (call : M io (option Z)) : M io (option Z) :=
  r ← onsys (pth_mutex_acquire alive sfuel mutex false false);
  if negb (bool_decide (r = 0)) then mret (Some (-1))
  else
    old ← sc (k_lseek fd 0 SEEK_CUR);
    if bool_decide (old = -1) then onsys (lift (pth_mutex_release mutex));; mret (Some (-1))
    else
      r ← sc (k_lseek fd offset SEEK_SET);
      if bool_decide (r = -1) then onsys (lift (pth_mutex_release mutex));; mret (Some (-1))
      else
        rc ← call;
        match rc with
        | None => mret None
        | Some rc =>
            errno_shield (sc (k_lseek fd old SEEK_SET));;
            onsys (lift (pth_mutex_release mutex));;
            mret (Some rc)
        end.

Definition pth_pread (mutex key : nat) (fd buf nbytes offset : Z) := at_offset mutex fd offset (pth_read key fd buf nbytes).
Definition pth_pwrite (mutex key : nat) (fd buf nbytes offset : Z) := at_offset mutex fd offset (pth_write key fd buf nbytes).
Definition pth_pread64 (mutex key : nat) (fd buf nbytes offset : Z) := at_offset mutex fd offset (pth_read key fd buf nbytes).
Definition pth_pwrite64 (mutex key : nat) (fd buf nbytes offset : Z) := at_offset mutex fd offset (pth_write key fd buf nbytes).

(** ** Sockets *)

Definition recvfrom_call (fd buf nbytes flags : Z) : M io Z :=
  '(n, l) ← retry rfuel (sc_with (k_recvfrom fd nbytes flags)); write_bytes buf l;; mret n.

Definition pth_recvfrom_ev (key : nat) (fd buf nbytes flags : Z) (ev_extra : option nat) : M io (option Z) :=
  if bool_decide (nbytes = 0) then mret (Some 0)
  else
    n ← poll_fd true fd;
    go ← (if bool_decide (n < 1) then
            m ← pth_fdmode fd PTH_FDMODE_POLL;
            if bool_decide (m = PTH_FDMODE_BLOCK) then wait_readable key fd ev_extra else mret (Some true)
          else mret (Some true));
    match go with
    | None => mret None
    | Some false => return_errno (Some (-1)) EINTR
    | Some true => n ← recvfrom_call fd buf nbytes flags; mret (Some n)
    end.
Definition pth_recvfrom (key : nat) (fd buf nbytes flags : Z) := pth_recvfrom_ev key fd buf nbytes flags None.
Definition pth_recv (key : nat) (fd buf nbytes flags : Z) := pth_recvfrom_ev key fd buf nbytes flags None.
Definition pth_recv_ev (key : nat) (fd buf nbytes flags : Z) (ev : option nat) := pth_recvfrom_ev key fd buf nbytes flags ev.

Definition sendto_call (fd buf nbytes flags dest : Z) : M io Z :=
  data ← read_bytes buf (Z.to_nat nbytes); retry_call (sc (k_sendto fd data flags dest)).

Fixpoint sendto_loop (fuel : nat) (key : nat) (fd buf nbytes flags dest n rv : Z) (ev_extra : option nat) : M io (option Z) :=
  match fuel with
  | O => fail Stuck
  | S fuel =>
      go ← (if bool_decide (n < 1) then wait_writeable key fd ev_extra else mret (Some true));
      match go with
      | None => mret None
      | Some false => return_errno (Some (-1)) EINTR
      | Some true =>
          s ← sendto_call fd buf nbytes flags dest;
          let rv := if bool_decide (s > 0) then swrap 32 (rv + s) else rv in
          if bool_decide (s > 0) && bool_decide (s < swrap 32 nbytes) then sendto_loop fuel key fd (buf + s) (nbytes - s) flags dest 0 rv ev_extra
          else mret (Some (if bool_decide (s < 0) && bool_decide (rv = 0) then -1 else rv))
      end
  end.

Definition pth_sendto_ev (key : nat) (fd buf nbytes flags dest : Z) (ev_extra : option nat) : M io (option Z) :=
  if bool_decide (nbytes = 0) then mret (Some 0)
  else
    rv ← sendto_call fd buf nbytes (set_flag flags MSG_DONTWAIT) dest;
    st ← get;
    block ← (if bool_decide (rv = -1) && bool_decide (errno st = EAGAIN) && negb (flag flags MSG_DONTWAIT) then
               m ← pth_fdmode fd PTH_FDMODE_POLL; mret (bool_decide (m = PTH_FDMODE_BLOCK))
             else mret false);
    if (block : bool) then n ← poll_fd false fd; sendto_loop (S (Z.to_nat nbytes)) key fd buf nbytes flags dest n 0 ev_extra
    else mret (Some rv).
Definition pth_sendto (key : nat) (fd buf nbytes flags dest : Z) := pth_sendto_ev key fd buf nbytes flags dest None.
Definition pth_send (key : nat) (fd buf nbytes flags : Z) := pth_sendto_ev key fd buf nbytes flags 0 None.
Definition pth_send_ev (key : nat) (fd buf nbytes flags : Z) (ev : option nat) := pth_sendto_ev key fd buf nbytes flags 0 ev.

Definition pth_recvmsg (key : nat) (fd msg flags : Z) : M io (option Z) :=
  m ← pth_fdmode fd PTH_FDMODE_POLL;
  go ← (if bool_decide (m = PTH_FDMODE_BLOCK) then
          n ← poll_fd true fd;
          if bool_decide (n < 1) then wait_readable key fd None else mret (Some true)
        else mret (Some true));
  match go with
  | None => mret None
  | Some _ => n ← retry_call (sc (k_recvmsg fd msg flags)); mret (Some n)
  end.

Definition pth_sendmsg (key : nat) (fd msg flags : Z) : M io (option Z) :=
  rv ← retry_call (sc (k_sendmsg fd msg (set_flag flags MSG_DONTWAIT)));
  st ← get;
  block ← (if bool_decide (rv = -1) && bool_decide (errno st = EAGAIN) && negb (flag flags MSG_DONTWAIT) then
             m ← pth_fdmode fd PTH_FDMODE_POLL; mret (bool_decide (m = PTH_FDMODE_BLOCK))
           else mret false);
  if (block : bool) then
    n ← poll_fd false fd;
    go ← (if bool_decide (n < 1) then wait_writeable key fd None else mret (Some true));
    match go with
    | None => mret None
    | Some _ =>
        s ← retry_call (sc (k_sendmsg fd msg flags));
        mret (Some (if bool_decide (s > 0) then s else if bool_decide (s < 0) then -1 else 0))
    end
  else mret (Some rv).

Definition pth_connect_ev (key : nat) (fd addr : Z) (ev_extra : option nat) : M io (option Z) :=
  fdmode ← pth_fdmode fd PTH_FDMODE_NONBLOCK;
  if bool_decide (fdmode = PTH_FDMODE_ERROR) then return_errno (Some (-1)) EBADF
  else
    rv ← retry_eq rfuel (sc (k_connect fd addr));
    errno_shield (pth_fdmode fd fdmode);;
    st ← get;
    if bool_decide (rv = -1) && bool_decide (errno st = EINPROGRESS) then
      go ← wait_writeable key fd ev_extra;
      match go with
      | None => mret None
      | Some false => return_errno (Some (-1)) EINTR
      | Some true =>
          '(r, err) ← sc_with (k_so_error fd);
          if bool_decide (r = -1) then mret (Some (-1))
          else if bool_decide (err = 0) then mret (Some 0)
          else return_errno (Some rv) err
      end
    else mret (Some rv).
Definition pth_connect (key : nat) (fd addr : Z) := pth_connect_ev key fd addr None.

(** The loop of [pth_accept_ev]; [ev]: the event, once it is created. *)
Fixpoint accept_loop (fuel : nat) (key : nat) (fd fdmode : Z) (ev : option nat) (ev_extra : option nat) : M io (option Z) :=
  match fuel with
  | O => fail Stuck
  | S fuel =>
      rv ← sc (k_accept fd);
      st ← get;
      if bool_decide (rv = -1) && bool_decide (errno st = EAGAIN) then
        ev ← (match ev with
              | Some e => mret (Some e)
              | None =>
                  ev ← oni (static_ev switch (Z.lor PTH_EVENT_FD PTH_UNTIL_FD_READABLE) key (AFd fd));
                  concat_extra ev ev_extra;; mret ev
              end);
        w ← wait_ring ev;
        match w with
        | None => mret None
        | Some _ =>
            b ← own_occurred ev ev_extra;
            if (b : bool) then accept_loop fuel key fd fdmode ev ev_extra
            else pth_fdmode fd fdmode;; return_errno (Some (-1)) EINTR
        end
      else
        errno_shield (pth_fdmode fd fdmode;; (if bool_decide (rv = -1) then mret tt else pth_fdmode rv fdmode;; mret tt));;
        mret (Some rv)
  end.

Definition pth_accept_ev (fuel : nat) (key : nat) (fd : Z) (ev_extra : option nat) : M io (option Z) :=
  fdmode ← pth_fdmode fd PTH_FDMODE_NONBLOCK;
  if bool_decide (fdmode = PTH_FDMODE_ERROR) then return_errno (Some (-1)) EBADF
  else accept_loop fuel key fd fdmode None ev_extra.
Definition pth_accept (fuel : nat) (key : nat) (fd : Z) := pth_accept_ev fuel key fd None.

(** ** Processes and locks of files: polling *)

(** [pth_event(PTH_EVENT_TIME|PTH_MODE_STATIC, &ev_key, PTH_TIMEOUT(sec, usec))] *)
Definition timeout_ev (key : nat) (sec usec : Z) : M io (option nat) :=
  s ← get; oni (static_ev switch PTH_EVENT_TIME key (ATime (pth_time_add (now (il s)) (PTH_TIME clk sec usec)))).

(** The result and the status *)
Fixpoint pth_waitpid (fuel : nat) (key : nat) (wpid options : Z) : M io (option (Z * Z)) :=
  match fuel with
  | O => fail Stuck
  | S fuel =>
      '(p, status) ← retry rfuel (sc_with (k_waitpid wpid (set_flag options WNOHANG)));
      if bool_decide (p = -1) || bool_decide (p > 0) || (bool_decide (p = 0) && flag options WNOHANG) then mret (Some (p, status))
      else
        ev ← timeout_ev key 0 250000;
        w ← wait_ring ev;
        match w with None => mret None | Some _ => pth_waitpid fuel key wpid options end
  end.

Fixpoint fcntl_loop (fuel : nat) (key : nat) (fd cmd arg : Z) (ev : option nat) : M io (option Z) :=
  match fuel with
  | O => fail Stuck
  | S fuel =>
      rv ← sc (k_fcntl fd cmd arg);
      st ← get;
      if bool_decide (rv = -1) && bool_decide (errno st = EAGAIN) then
        ev ← (match ev with Some e => mret (Some e) | None => timeout_ev key 0 100000 end);
        w ← wait_ring ev;
        match w with None => mret None | Some _ => fcntl_loop fuel key fd cmd arg ev end
      else mret (Some rv)
  end.
Definition pth_fcntl (fuel : nat) (key : nat) (fd cmd arg : Z) := fcntl_loop fuel key fd cmd arg None.

(** ** Waiting for several descriptors *)

(** A local variable of a function whose address is passed on *)
Definition local_var (v : Z) : M io Z :=
  s ← get;
  let p := fresh ({[0]} ∪ dom (um (il s))) in
  oni (modify (fun l => set_um (<[p := v]> (um l)) l));; mret p.
Definition drop_var (p : Z) : M io unit := oni (modify (fun l => set_um (delete p (um l)) l)).

(** Reading and writing a set through a pointer that may be NULL *)
Definition get_set (p : Z) : M io (option Z) := if bool_decide (p = 0) then mret None else v ← oni (user_read p); mret (Some v).
Definition put_set (p : Z) (v : option Z) : M io unit :=
  if bool_decide (p = 0) then mret tt else v ← of_option Undefined v; oni (user_write p v).
Definition zero_sets (r w e : Z) : M io unit := put_set r (Some 0);; put_set w (Some 0);; put_set e (Some 0).

Definition occurred (ev : option nat) : M io bool := oni (one (pth_event_isolate ev));; oni (one (pth_event_occurred ev)).

Definition pth_select_ev (key_select key_timeout : nat) (nfd rfds wfds efds : Z) (timeout : option (Z * Z)) (ev_extra : option nat) : M io (option Z) :=
  let delay := match timeout with
               | Some tv => if bool_decide (nfd = 0) && bool_decide (rfds = 0) && bool_decide (wfds = 0) && bool_decide (efds = 0) then Some tv else None
               | None => None
               end in
  match delay with
  | Some (sec, usec) =>
      if bool_decide (sec < 0) || bool_decide (usec < 0) then return_errno (Some (-1)) EINVAL
      else
        ev ← timeout_ev key_timeout sec usec;
        concat_extra ev ev_extra;;
        w ← wait_ring ev;
        match w with
        | None => mret None
        | Some _ =>
            b ← own_occurred ev ev_extra;
            if (b : bool) then zero_sets rfds wfds efds;; mret (Some 0) else return_errno (Some (-1)) EINTR
        end
  | None =>
      r ← get_set rfds; w ← get_set wfds; e ← get_set efds;
      '(rc, (r, w, e)) ← retry rfuel (sc_with (k_select nfd r w e));
      if bool_decide (rc > 0) then put_set rfds r;; put_set wfds w;; put_set efds e;; mret (Some rc)
      else if bool_decide (rc = 0) && bool_decide (timeout = Some (0, 0)) then zero_sets rfds wfds efds;; mret (Some 0)
      else
        p ← local_var (-1);
        ev ← oni (static_ev switch PTH_EVENT_SELECT key_select (ASelect p nfd rfds wfds efds));
        ev_timeout ← (match timeout with
                      | None => mret None
                      | Some (sec, usec) =>
                          t ← timeout_ev key_timeout sec usec;
                          (* a NULL argument ends the list of [pth_event_concat] *)
                          oni (one (pth_event_concat ev (match t with Some t => [t] | None => [] end)));; mret t
                      end);
        concat_extra ev ev_extra;;
        w ← wait_ring ev;
        match w with
        | None => drop_var p;; mret None
        | Some _ =>
            selected ← occurred ev;
            timed ← (match timeout with None => mret false | Some _ => occurred ev_timeout end);
            (if (timed : bool) then zero_sets rfds wfds efds;; oni (user_write p 0) else mret tt);;
            rc ← oni (user_read p);
            drop_var p;;
            if bool_decide (is_Some ev_extra) && negb (selected || timed) then return_errno (Some (-1)) EINTR else mret (Some rc)
        end
  end.
Definition pth_select (key_select key_timeout : nat) (nfd rfds wfds efds : Z) (timeout : option (Z * Z)) :=
  pth_select_ev key_select key_timeout nfd rfds wfds efds timeout None.

(** ** [poll] *)

Definition POLLIN : Z := 1.
Definition POLLPRI : Z := 2.
Definition POLLOUT : Z := 4.
Definition POLLHUP : Z := 16.
Definition POLLNVAL : Z := 32.
Definition POLLRDNORM : Z := 64.
Definition POLLRDBAND : Z := 128.
Definition POLLWRNORM : Z := 256.
Definition POLLWRBAND : Z := 512.
Definition POLLREAD : Z := Z.lor POLLIN (Z.lor POLLRDNORM POLLRDBAND).
Definition POLLWRITE : Z := Z.lor POLLOUT (Z.lor POLLWRNORM POLLWRBAND).
Definition POLLEVENTS : Z := Z.lor POLLREAD (Z.lor POLLWRITE POLLPRI).
Definition MSG_PEEK : Z := 2.
Definition ENETRESET : Z := 102.
Definition ECONNABORTED : Z := 103.
Definition ECONNRESET : Z := 104.
Definition ESHUTDOWN : Z := 108.

Record pollfd : Set := PollFd { pfd_fd : Z; pfd_events : Z; pfd_revents : Z }.

(** The sets for the descriptors, and the highest of them *)
Fixpoint poll_sets (l : list pollfd) (sets : Z * Z * Z) (maxfd : Z) : res (Z * Z * Z * Z) :=
  match l with
  | [] => Ok (sets, maxfd)
  | d :: l =>
      if bool_decide (pfd_fd d < 0) || negb (flag (pfd_events d) POLLEVENTS) then poll_sets l sets maxfd
      else
        let '(r, w, e) := sets in
        r ← (if flag (pfd_events d) POLLREAD then FD_SET (pfd_fd d) r else Ok r);
        w ← (if flag (pfd_events d) POLLWRITE then FD_SET (pfd_fd d) w else Ok w);
        e ← (if flag (pfd_events d) POLLPRI then FD_SET (pfd_fd d) e else Ok e);
        poll_sets l (r, w, e) (if bool_decide (pfd_fd d >= maxfd) then pfd_fd d else maxfd)
  end.

(** The results for one descriptor, and whether it counts *)
Definition poll_result (d : pollfd) (r w e : Z) : M io (pollfd * bool) :=
  if bool_decide (pfd_fd d < 0) then mret (PollFd (pfd_fd d) (pfd_events d) POLLNVAL, false)
  else
    rd ← of_res (FD_ISSET (pfd_fd d) r);
    '(rev, ok) ← (if (rd : bool) then
                    '(n, _) ← sc_with (k_recvfrom (pfd_fd d) 64 MSG_PEEK);
                    st ← get;
                    mret (if bool_decide (n = -1) && (bool_decide (errno st = ESHUTDOWN) || bool_decide (errno st = ECONNRESET) ||
                                                      bool_decide (errno st = ECONNABORTED) || bool_decide (errno st = ENETRESET))
                          then (POLLHUP, 0) else (POLLIN, 1))
                  else mret (0, 0));
    wr ← of_res (FD_ISSET (pfd_fd d) w);
    ex ← of_res (FD_ISSET (pfd_fd d) e);
    let rev := if (wr : bool) then Z.lor rev POLLOUT else rev in
    let ok := if (wr : bool) then ok + 1 else ok in
    let rev := if (ex : bool) then Z.lor rev POLLPRI else rev in
    let ok := if (ex : bool) then ok + 1 else ok in
    mret (PollFd (pfd_fd d) (pfd_events d) rev, negb (bool_decide (ok = 0))).

Fixpoint poll_results (l : list pollfd) (r w e rc : Z) : M io (list pollfd * Z) :=
  match l with
  | [] => mret ([], rc)
  | d :: l =>
      '(d, ok) ← poll_result d r w e;
      '(l, rc) ← poll_results l r w e (if (ok : bool) then rc + 1 else rc);
      mret (d :: l, rc)
  end.

(** The result and the array afterwards *)
Definition pth_poll_ev (key_select key_timeout : nat) (pfd : option (list pollfd)) (timeout : Z) (ev_extra : option nat) : M io (option (Z * list pollfd)) :=
  match pfd with
  | None => return_errno (Some (-1, [])) EFAULT
  | Some l =>
      if bool_decide (timeout < -1) then return_errno (Some (-1, l)) EINVAL
      else
        let ptv := if bool_decide (timeout = 0) then Some (0, 0) else if bool_decide (timeout = -1) then None
                   else Some (timeout / 1000, timeout mod 1000 * 1000) in
        '(r, w, e, maxfd) ← of_res (poll_sets l (0, 0, 0) (-1));
        if bool_decide (maxfd = -1) then return_errno (Some (-1, l)) EINVAL
        else
          rp ← local_var r; wp ← local_var w; ep ← local_var e;
          rc ← pth_select_ev key_select key_timeout (maxfd + 1) rp wp ep ptv ev_extra;
          r ← oni (user_read rp); w ← oni (user_read wp); e ← oni (user_read ep);
          drop_var rp;; drop_var wp;; drop_var ep;;
          match rc with
          | None => mret None
          | Some rc => if bool_decide (rc > 0) then '(l, rc) ← poll_results l r w e 0; mret (Some (rc, l)) else mret (Some (rc, l))
          end
  end.
Definition pth_poll (key_select key_timeout : nat) (pfd : option (list pollfd)) (timeout : Z) := pth_poll_ev key_select key_timeout pfd timeout None.

(** ** Sleeping *)

(** [write(pth_first_native.sigpipe[1], ...)] *)
Definition wake_first_native : M io unit := oni (onw (pipe_write 0)).

(** The thread waits for a copy of its mask: nobody else changes it. *)
Definition pth_sleep_time (key1 key2 : nat) (offset sig0 : Z) : M io (option Z) :=
  '(n, d) ← oni (onw my_descr);
  s ← get;
  let until := pth_time_add (now (il s)) offset in
  ev ← oni (static_ev switch PTH_EVENT_TIME key1 (ATime until));
  mask ← (match current d with None => mret 0 | Some t => x ← oni (get_x t); mret (sigactionmask x) end);
  sp ← local_var mask;
  sg ← local_var sig0;
  ev_sigs ← (if bool_decide (mask = 0) then mret None
             else
               e ← oni (static_ev switch PTH_EVENT_TIME_SIGS key2 (ASigs sp sg));
               oni (one (pth_event_concat ev (match e with Some e => [e] | None => [] end)));; mret e);
  w ← wait_ring ev;
  sig ← oni (user_read sg);
  drop_var sp;; drop_var sg;;
  match w with
  | None => mret None
  | Some _ =>
      s ← get;
      let back := now (il s) in
      oni (one (pth_event_isolate ev));;
      (if bool_decide (is_Some ev_sigs) && negb (is_group_leader n) then wake_first_native else mret tt);;
      b ← oni (one (pth_event_occurred ev));
      if (b : bool) then mret (Some 0)
      else
        k ← oni (one (pth_event_occurred ev_sigs));
        '(_, d) ← oni (onw my_descr);
        (if (k : bool) && negb (bool_decide (sig = 0)) then zoom ik set_ik (k_tkill (tid d) sig) else mret tt);;
        tv ← of_res (pth_time_to_timeval clk (pth_time_sub until back));
        mret (Some (if bool_decide (tv_sec tv <= 0) then 1 else tv_sec tv))
  end.

Definition pth_usleep (key1 key2 : nat) (usec sig0 : Z) : M io (option Z) :=
  if bool_decide (usec = 0) then mret (Some 0)
  else
    r ← pth_sleep_time key1 key2 (PTH_TIME clk (usec / 1000000) (usec mod 1000000)) sig0;
    mret (match r with None => None | Some _ => Some 0 end).

Definition pth_sleep (key1 key2 : nat) (sec sig0 : Z) : M io (option Z) :=
  if bool_decide (sec = 0) then mret (Some 0)
  else
    r ← pth_sleep_time key1 key2 (PTH_TIME clk sec 0) sig0;
    match r with
    | None => mret None
    | Some rc => if bool_decide (rc = 0) then mret (Some 0) else return_errno (Some rc) EINTR
    end.

(** ** Signals *)

Definition SIG_SETMASK : Z := 2.
Definition sigfillset : Z := Z.ones 64.

(** [sigprocmask(how, set, oset)]; the result: 0 and the old mask, or -1 *)
Definition sigprocmask (how : Z) (set : option Z) : M io (Z * Z) :=
  s ← get;
  let old := kmask (il s) in
  match set with
  | None => mret (0, old)
  | Some v =>
      match k_sigprocmask how v old with
      | None => return_errno (-1, old) EINVAL
      | Some m => oni (modify (set_kmask m));; mret (0, old)
      end
  end.

(** The result and what is stored in [*oset] *)
Definition pth_sigmask (how : Z) (set : option Z) : M io (Z * option Z) :=
  '(n, d) ← oni (onw my_descr);
  t ← of_option BadDeref (current d);
  x ← oni (get_x t);
  (match set with None => mret tt | Some _ => sigprocmask SIG_SETMASK (Some (mctx_sigs x));; mret tt end);;
  '(rv, old) ← sigprocmask how set;
  if bool_decide (rv = -1) then s ← get; mret (errno s, None)
  else
    s ← get;
    oni (upd_x t (set_mctx_sigs (kmask (il s))));;
    match set with
    | None => mret (rv, Some old)
    | Some _ =>
        k ← of_res (_pth_acquire_lock (tid d) (sig_lock s));
        modify (set_sig_lock k);;
        s ← get;
        x ← oni (get_x t);
        let b := pth_sigblock (il s) in
        oni (modify (set_pth_sigblock (Z.land (if bool_decide (b = 0) then sigfillset else b) (mctx_sigs x))));;
        modify (fun s => set_sig_lock (_pth_release_lock (tid d) (sig_lock s)).2 s);;
        f ← oni (onw (get_d 0));
        (if is_used f && negb (is_group_leader n) then wake_first_native else mret tt);;
        mret (rv, Some old)
    end.

Context (PTH_NSIG : Z).

(** The first signal from [sig] on that is in the set and pending *)
Fixpoint sigwait_scan (fuel : nat) (sig set pending : Z) : option Z :=
  match fuel with
  | O => None
  | S fuel =>
      if sigismember set sig && sigismember pending sig then Some sig else sigwait_scan fuel (sig + 1) set pending
  end.

Definition pth_sigwait_ev (key : nat) (pset sigp : Z) (ev_extra : option nat) : M io (option Z) :=
  if bool_decide (pset = 0) || bool_decide (sigp = 0) then mret (Some EINVAL)
  else
    set ← oni (user_read pset);
    s ← get;
    match sigwait_scan (Z.to_nat (PTH_NSIG - 1)) 1 set (kpending (il s)) with
    | Some sig => oni (pth_util_sigdelete sig);; oni (user_write sigp sig);; mret (Some 0)
    | None =>
        go ← io_wait PTH_EVENT_SIGS key (ASigs pset sigp) ev_extra;
        match go with
        | None => mret None
        | Some false => mret (Some EINTR)
        | Some true =>
            '(n, _) ← oni (onw my_descr);
            f ← oni (onw (get_d 0));
            (if is_used f && negb (is_group_leader n) then wake_first_native else mret tt);;
            mret (Some 0)
        end
    end.
Definition pth_sigwait (key : nat) (pset sigp : Z) := pth_sigwait_ev key pset sigp None.
End io.
