(* ===== verification/HighProofs.v ===== *)
(** * Theorems on the blocking calls

    The bytes a thread writes reach the descriptor in their order, none of them
    twice ([write_stream]); the vector of [pth_writev] is advanced by what was
    written ([iov_advance_drops]), except where the code advances it by something
    else ([writev_resends]); the emulation of [readv] is a [read] that is cut into
    pieces ([readv_faked_equiv]). *)

From S2P Require Import Prelude Bitmap Dll LinkedList Ring Priorities PQueue Time Msg Futex World Sync Event Util Sched Lib.
From S2P Require Import MutexProofs LockProofs Wake SchedProofs LibProofs.
From S2P Require Import High.

(** ** Waiting for a descriptor *)

Section waiting.
Context (switch : M sst unit) (popall : nat -> M sst unit) (mfuel efuel : nat).
(** The thread [t] on the native [n]; its static event of the call *)
Context (n t key ev : nat).

(** The static event exists; as a rule since the first call. *)
Definition event_ready (m : emem) : Prop :=
  event_inv m /\ key_lock m = false /\ is_Some (elinks m !! ev) /\ is_Some (ebody m !! ev) /\
  exists k l c, cells m !! key = Some k /\ event_key_ok k m = true /\
    edata m !! t = Some (Some l, c) /\ l !! Z.to_nat k = Some (Some ev).

Record thread_ready (l : sst) (d : pth_descr_st) : Prop := {
  tr_running : running (wo l) n t d;
  tr_thread : exists y, threads (wo l) !! t = Some y /\ cancelreq y = false;
  tr_tcb : is_Some (tx l !! t);
  tr_event : event_ready (evs l) }.

Definition io_ready (l : sst) : Prop := exists d, thread_ready l d /\ sched_lock d = qlock_free.

(** The thread sleeps on the ring of its event alone. *)
Definition alone (l : sst) : Prop := elinks (evs l) !! ev = Some (Link (Some ev) (Some ev)).

(** The scheduler runs the thread again some time; it has not been cancelled,
    and its event is still its own. *)
Definition comes_back : Prop := forall l d, thread_ready l d -> alone l ->
  exists l', switch l = Ok (tt, l') /\ io_ready l' /\ alone l'.

(** The arguments fit the kind of event. *)
Definition ev_args_fit (spec : Z) (args : event_args) : Prop :=
  let spec := Z.lor spec PTH_MODE_STATIC in
  flag spec PTH_MODE_STATIC = true /\ flag spec PTH_MODE_CHAIN = false /\
  exists ty goal fl a, event_init spec [VArgs args 0] = Ok (Some (ty, goal, fl, a)).

Implicit Types (m : emem) (l : sst).

(** The links and the bodies of events do not matter to the keys. *)
Lemma event_ready_change h b m : event_ready m -> is_Some (h !! ev) -> is_Some (b !! ev) -> event_ready (set_ebody b (set_elinks h m)).
Proof. intros ([? [? ?]] & ? & _ & _ & Hk) Hh Hb. by repeat split. Qed.

Lemma event_ready_body b m : event_ready m -> is_Some (b !! ev) -> event_ready (set_ebody b m).
Proof. intros Hm Hb. pose proof Hm as (_ & _ & Hl & _). apply (event_ready_change (elinks m) b) in Hm; [|done..]. by destruct m. Qed.

Lemma pth_event_run spec args m : event_ready m -> ev_args_fit spec args ->
  exists m', pth_event (mret tt) t (Z.lor spec PTH_MODE_STATIC) [VCell key; VArgs args 0] m = Ok (Some ev, m') /\
    event_ready m' /\ elinks m' !! ev = Some (Link (Some ev) (Some ev)).
Proof.
  intros Hm (Hst & Hch & ty & goal & fl & a & Ei). set (spec' := Z.lor spec PTH_MODE_STATIC) in *.
  pose proof Hm as (Hinv & Hlock & [lk Hlk] & [b Hb] & k & kl & c & Hc & Hok & Hd & Hl).
  pose (h := <[ev := Link (Some ev) (Some ev)]> (<[ev := Link (l_next lk) (Some ev)]> (elinks m))).
  pose (x := Event false ty goal fl a). pose (bd := <[ev := x]> (<[ev := Event false (ev_type b) (ev_goal b) 0 (ev_args b)]> (ebody m))).
  exists (set_ebody bd (set_elinks h m)). split; [|split].
  - unfold pth_event. rewrite (bind_run _ _ m (Some ev, [VArgs args 0]) m).
    2:{ unfold event_storage. rewrite Hst. by rewrite (bind_run _ _ _ _ _ (static_event_again t key m k kl c ev Hinv Hlock Hc Hok Hd Hl)). }
    cbv beta iota. rewrite Hch.
    rewrite (bind_run _ _ m [VArgs args 0] (set_elinks h m)).
    2:{ rewrite (bind_run _ _ m tt (set_elinks (<[ev := Link (l_next lk) (Some ev)]> (elinks m)) m)).
        2:{ unfold ev_set, set_prev, deref. by rewrite Hlk. }
        rewrite (bind_run _ _ _ tt (set_elinks h m)); [done|]. unfold ev_set, set_next, deref. cbn. by rewrite lookup_insert_eq. }
    unfold upd_ev, get_ev. rewrite (bind_run _ _ _ tt (set_ebody (<[ev := Event false (ev_type b) (ev_goal b) 0 (ev_args b)]> (ebody m)) (set_elinks h m))).
    2:{ rewrite (bind_run _ _ _ b (set_elinks h m)); [done|]. cbn. unfold mbind, M_bind, get. cbn. by rewrite Hb. }
    rewrite Ei. rewrite (bind_run _ _ _ tt (set_ebody bd (set_elinks h m))); [done|].
    unfold mbind, M_bind, get. cbn. by rewrite lookup_insert_eq.
  - apply event_ready_change; [done|unfold h; rewrite lookup_insert_eq; by eexists|unfold bd; rewrite lookup_insert_eq; by eexists].
  - cbn. unfold h. apply lookup_insert_eq.
Qed.
Lemma static_ev_run spec args l d : thread_ready l d -> ev_args_fit spec args ->
  exists l', static_ev switch spec key args l = Ok (Some ev, l') /\ thread_ready l' d /\ alone l' /\ wo l' = wo l.
Proof.
  intros [(Hs & Hd & Hc) Hy Hx He] Hfit. destruct (pth_event_run spec args (evs l) He Hfit) as (m' & E & Hm' & Hring).
  exists (set_evs m' l). split; [|split; [by split|by split]]. unfold static_ev.
  rewrite (bind_run _ _ l (Some t) l) by (apply onw_same; rewrite <- Hc; by apply (get_current_run _ n d)).
  rewrite (bind_run (of_option BadDeref (Some t)) _ l t l eq_refl).
  rewrite (bind_run _ _ l (Some ev) (set_evs m' l)); [done|]. unfold one, zoom. by rewrite E.
Qed.

Lemma pth_wait_run l d : comes_back -> (0 < efuel)%nat -> thread_ready l d -> sched_lock d = qlock_free -> alone l ->
  exists l', pth_wait switch popall mfuel efuel (Some ev) l = Ok (Some 1, l') /\ io_ready l' /\ alone l'.
Proof.
  intros Hback Hfuel [(Hs & Hd & Hc) (y & Hy & Hreq) [x Hx] He] Hfree Hring. unfold pth_wait.
  rewrite (bind_run _ _ l (Some t) l) by (apply onw_same; rewrite <- Hc; by apply (get_current_run _ n d)).
  rewrite (bind_run (of_option BadDeref (Some t)) _ l t l eq_refl).
  destruct efuel as [|fuel]; [lia|]. pose proof He as (_ & _ & _ & [b Hb] & _).
  set (l1 := set_evs (set_ebody (<[ev := Event false (ev_type b) (ev_goal b) (ev_flags b) (ev_args b)]> (ebody (evs l))) (evs l)) l).
  rewrite (bind_run _ _ l tt l1).
  2:{ unfold one, zoom. replace (mark_loop (S fuel) (Some ev) ev (evs l)) with (Ok (tt, evs l1)); [done|]. cbn [mark_loop].
      rewrite (bind_run (of_option BadDeref (Some ev)) _ (evs l) ev (evs l) eq_refl). unfold upd_ev, get_ev.
      rewrite (bind_run _ _ (evs l) tt (evs l1)) by (unfold mbind, M_bind, get; cbn; by rewrite Hb).
      rewrite (bind_run _ _ (evs l1) (Some ev) (evs l1)) by (unfold ev_link, get_next, deref; cbn; unfold alone in Hring; by rewrite Hring).
      by rewrite bool_decide_eq_true_2. }
  assert (event_ready (evs l1)) as He1 by (apply event_ready_body; [done|rewrite lookup_insert_eq; by eexists]).
  set (l2 := set_tx (<[t := set_events (Some ev) x]> (tx l1)) l1).
  rewrite (bind_run _ _ l1 tt l2).
  2:{ unfold upd_x, get_x. rewrite (bind_run _ _ l1 x l1); [done|]. unfold mbind, M_bind, get. cbn. by rewrite Hx. }
  set (y3 := set_state PTH_STATE_WAITING y). set (l3 := set_wo (set_threads (<[t := y3]> (threads (wo l2))) (wo l2)) l2).
  rewrite (bind_run _ _ l2 tt l3) by (unfold onw, zoom; by rewrite (upd_t_run _ _ _ _ Hy)).
  assert (thread_ready l3 d) as Hr3.
  { split; [done|exists y3; split; [apply lookup_insert_eq|done]|cbn; rewrite lookup_insert_eq; by eexists|done]. }
  destruct (yield_run switch n t d l3) as (k & Ey); [done..|].
  destruct (Hback (put_d n (set_sched_lock k d) l3) (set_sched_lock k d)) as (l4 & Esw & (d4 & [(Hs4 & Hd4 & Hc4) (y4 & Hy4 & Hreq4) [x4 Hx4] He4] & Hfree4) & Hring4).
  { destruct Hr3 as [_ Ht3 Hx3 _]. split; [|done..]. split; [done|]. split; [|done]. cbn. apply list_lookup_insert_eq, (lookup_lt_Some _ _ _ Hd). }
  { done. }
  specialize (Ey _ Esw).
  rewrite (bind_run _ _ _ _ _ Ey). pose proof He4 as (_ & _ & _ & [b4 Hb4] & _).
  rewrite (bind_run _ _ l4 b4 l4).
  2:{ unfold one, zoom, get_ev. rewrite (bind_run get _ _ _ _ eq_refl), Hb4. by destruct l4. }
  rewrite (bind_run _ _ l4 false l4).
  2:{ destruct (_ || _); [done|]. unfold pth_cancel_point.
      rewrite (bind_run _ _ l4 (n, d4) l4) by (by apply onw_same, my_descr_run). cbv beta iota.
      rewrite Hc4, (bind_run (of_option BadDeref (Some t)) _ l4 t l4 eq_refl), (bind_run _ _ l4 y4 l4) by (by apply onw_same, get_t_run).
      by rewrite Hreq4. }
  set (l5 := set_tx (<[t := set_events None x4]> (tx l4)) l4).
  rewrite (bind_run _ _ l4 tt l5).
  2:{ unfold upd_x, get_x. rewrite (bind_run _ _ l4 x4 l4); [done|]. unfold mbind, M_bind, get. cbn. by rewrite Hx4. }
  rewrite (bind_run _ _ l5 1 l5).
  2:{ unfold one, zoom. replace (count_loop (S fuel) (Some ev) ev 0 (evs l5)) with (Ok (1, evs l5)); [by destruct l4|]. cbn [count_loop].
      rewrite (bind_run _ _ (evs l5) (Some ev) (evs l5)) by (unfold ev_link, get_next, deref; cbn; unfold alone in Hring4; by rewrite Hring4).
      by rewrite bool_decide_eq_true_2. }
  exists l5. split; [done|]. split; [|done]. exists d4. split; [|done]. split; [done|by exists y4|cbn; rewrite lookup_insert_eq; by eexists|done].
Qed.
End waiting.

(** ** Writing *)

(** What the kernel promises about the open descriptor [fd], a stream: [sent]:
    the bytes it has accepted, [fd_flags]: its flags, [last]: the answer to the
    last [write], [busy]: how often signals can still interrupt calls. *)
Class Stream (K : Type) `{Kernel K} (fd : Z) (live : K -> Prop) (sent : K -> list Z) (fd_flags last : K -> Z) (busy : K -> nat) : Prop := {
  stream_getfl : forall a k, live k -> exists e k', k_fcntl fd F_GETFL a k = Ok (fd_flags k, e, k') /\
    live k' /\ sent k' = sent k /\ fd_flags k' = fd_flags k /\ last k' = last k /\ (busy k' <= busy k)%nat;
  stream_setfl : forall v k, live k -> 0 <= v -> exists e k', k_fcntl fd F_SETFL v k = Ok (0, e, k') /\
    live k' /\ sent k' = sent k /\ fd_flags k' = v /\ last k' = last k /\ (busy k' <= busy k)%nat;
  stream_select : forall n r w e k, live k -> exists rc er sets k', k_select n r w e k = Ok (rc, er, sets, k') /\
    live k' /\ sent k' = sent k /\ fd_flags k' = fd_flags k /\ last k' = last k /\
    -1 <= rc /\ (busy k' <= busy k)%nat /\ (rc = -1 -> er = EINTR -> (busy k' < busy k)%nat);
  stream_write : forall data k, live k -> exists r e k', k_write fd data k = Ok (r, e, k') /\
    live k' /\ sent k' = sent k ++ take (Z.to_nat r) data /\ fd_flags k' = fd_flags k /\ last k' = r /\
    -1 <= r <= Z.of_nat (length data) /\ (busy k' <= busy k)%nat /\ (r = -1 -> e = EINTR -> (busy k' < busy k)%nat);
  stream_flags : forall k, live k -> 0 <= fd_flags k }.

Section memory.
Context {K : Type} `{Kernel K}.
Implicit Types s : @io K.

(** The program's data at an address *)
Definition holds (p : Z) (data : list Z) s : Prop := forall i x, data !! i = Some x -> ubytes s !! (p + Z.of_nat i) = Some x.

Lemma holds_suffix p data k s : holds p data s -> (k <= length data)%nat -> holds (p + Z.of_nat k) (drop k data) s.
Proof. intros Hh Hk i x Hi. rewrite lookup_drop in Hi. rewrite <- Z.add_assoc, <- Nat2Z.inj_add. by apply Hh. Qed.

Lemma read_bytes_run data p s : holds p data s -> read_bytes p (length data) s = Ok (data, s).
Proof.
  revert p. induction data as [|c data IH]; intros p Hh; [done|]. cbn [length read_bytes].
  rewrite (bind_run get _ _ _ _ eq_refl). rewrite (bind_run _ _ s c s).
  2:{ specialize (Hh 0%nat c eq_refl). rewrite Z.add_0_r in Hh. by rewrite Hh. }
  rewrite (bind_run _ _ s data s); [done|]. apply IH. apply (holds_suffix p (c :: data) 1); [done|cbn; lia].
Qed.

(** Interrupted calls are repeated, as long as the kernel has signals. *)
Lemma retry_run {A} (c : M io (Z * A)) (I : io -> Prop) (mu : io -> nat) (Q : Z * A -> io -> Prop) fuel s :
  (forall s, I s -> wp c (fun x s' => if bool_decide (x.1 < 0) && bool_decide (errno s' = EINTR) then I s' /\ (mu s' < mu s)%nat else Q x s') s) ->
  I s -> (mu s < fuel)%nat -> wp (retry fuel c) Q s.
Proof.
  intros Hc. revert s. induction fuel as [|fuel IH]; intros s Hs Hm; [lia|]. cbn [retry].
  apply wp_bind. eapply wp_mono; [by apply Hc|]. intros [r a] s' Hx. cbn [fst] in Hx.
  apply wp_bind, wp_get. destruct (_ && _); [|by apply wp_ret]. destruct Hx as [? ?]. apply IH; [done|lia].
Qed.
End memory.

Section stream.
Context {K : Type} `{Kernel K} (fd : Z) (live : K -> Prop) (sent : K -> list Z) (fd_flags last : K -> Z) (busy : K -> nat).
Context {HK : Stream K fd live sent fd_flags last busy}.
Context (switch : M sst unit) (popall : nat -> M sst unit) (mfuel efuel : nat) (elsewhere : M (@io K) unit) (rfuel : nat).
Context (n t key ev : nat) (Hback : comes_back switch n t key ev) (Hefuel : (0 < efuel)%nat) (Hfd : 0 <= fd < FD_SETSIZE).

Implicit Types s : @io K.

Definition good s : Prop := io_ready n t key ev (il s) /\ live (ik s) /\ (busy (ik s) < rfuel)%nat.

(** What the calls leave alone *)
Definition same_stream s s' : Prop :=
  sent (ik s') = sent (ik s) /\ fd_flags (ik s') = fd_flags (ik s) /\ last (ik s') = last (ik s).
Definition same_memory s s' : Prop := ubytes s' = ubytes s.

(** The other threads leave the descriptor and the data alone. *)
Definition others_leave (p : Z) (data : list Z) : Prop := forall s, good s -> holds p data s ->
  exists s', elsewhere s = Ok (tt, s') /\ good s' /\ holds p data s' /\ same_stream s s'.

(** What a call of the kernel may change: nothing of the library or the memory. *)
Definition calls s s' : Prop := il s' = il s /\ ubytes s' = ubytes s /\ good s' /\ fd_flags (ik s') = fd_flags (ik s).

Lemma calls_refl s : good s -> calls s s.
Proof. done. Qed.
Lemma calls_trans s s1 s2 : calls s s1 -> calls s1 s2 -> calls s s2.
Proof. intros (E1 & E2 & _ & E3) (F1 & F2 & F3 & F4). unfold calls. rewrite <- E1, <- E2, <- E3. done. Qed.
Lemma calls_holds p data s s' : calls s s' -> holds p data s -> holds p data s'.
Proof. intros (_ & E & _) Hh i x Hi. rewrite E. by apply Hh. Qed.

Lemma wp_sc c Q s r e k' : c (ik s) = Ok (r, e, k') -> Q r (if bool_decide (r = -1) then set_errno e (set_ik k' s) else set_ik k' s) -> wp (sc c) Q s.
Proof. intros E HQ. unfold sc. apply wp_bind, wp_zoom. eapply wp_run; [exact E|]. cbv beta iota. by destruct (bool_decide (r = -1)). Qed.

Lemma wp_sc_with {A} (c : M K (Z * Z * A)) Q s r e a k' : c (ik s) = Ok (r, e, a, k') ->
  Q (r, a) (if bool_decide (r = -1) then set_errno e (set_ik k' s) else set_ik k' s) -> wp (sc_with c) Q s.
Proof. intros E HQ. unfold sc_with. apply wp_bind, wp_zoom. eapply wp_run; [exact E|]. cbv beta iota. by destruct (bool_decide (r = -1)). Qed.

Lemma sc_calls s k' r e : good s -> live k' -> (busy k' <= busy (ik s))%nat -> fd_flags k' = fd_flags (ik s) ->
  calls s (if bool_decide (r = -1) then set_errno e (set_ik k' s) else set_ik k' s).
Proof. intros (Hl & Hk & Hb) Hk' Hb' Hf. unfold calls, good. destruct (bool_decide (r = -1)); cbn; repeat split; try done; lia. Qed.

Lemma ik_sc s k' e r : ik (if bool_decide (r = -1) then set_errno e (set_ik k' s) else set_ik k' s) = k'.
Proof. by destruct (bool_decide (r = -1)). Qed.

Lemma write_call_run data p s : good s -> holds p data s ->
  wp (write_call rfuel fd p (Z.of_nat (length data))) (fun r s' => calls s s' /\ -1 <= r <= Z.of_nat (length data) /\
    sent (ik s') = sent (ik s) ++ take (Z.to_nat r) data /\ last (ik s') = r) s.
Proof.
  intros Hg Hh. unfold write_call. rewrite Nat2Z.id. apply wp_bind. eapply wp_run; [by apply read_bytes_run|].
  unfold retry_call. apply wp_bind.
  eapply wp_mono; [apply (retry_run _ (fun s' => calls s s' /\ sent (ik s') = sent (ik s)) (fun s' => busy (ik s'))
    (fun x s' => calls s s' /\ -1 <= x.1 <= Z.of_nat (length data) /\ sent (ik s') = sent (ik s) ++ take (Z.to_nat x.1) data /\ last (ik s') = x.1)) | ].
  - intros s1 [Hc Hs]. pose proof Hc as (_ & _ & Hg1 & _). pose proof Hg1 as (_ & Hk1 & _).
    destruct (stream_write data (ik s1) Hk1) as (r & e & k' & E & Hk' & Hs' & Hf' & Hl' & Hr & Hb & Hint).
    apply wp_bind. eapply wp_sc; [exact E|]. apply wp_ret. cbn [fst].
    assert (calls s (if bool_decide (r = -1) then set_errno e (set_ik k' s1) else set_ik k' s1)) as Hc' by (eapply calls_trans; [exact Hc|by apply sc_calls]).
    destruct (bool_decide (r < 0) && bool_decide (errno (if bool_decide (r = -1) then set_errno e (set_ik k' s1) else set_ik k' s1) = EINTR)) eqn:Ei.
    + apply andb_prop in Ei as [Er Ee]. apply bool_decide_eq_true in Er, Ee. assert (r = -1) as -> by lia.
      rewrite bool_decide_eq_true_2 in Ee by done. cbn in Ee. rewrite ik_sc. split; [split; [done|]|by apply Hint].
      by rewrite Hs', Hs, app_nil_r.
    + rewrite ik_sc, Hs', Hs. done.
  - split; [by apply calls_refl|done].
  - apply Hg.
  - intros [r []] s' Hx. by apply wp_ret.
Qed.
Lemma poll_fd_run reading s : good s ->
  wp (poll_fd rfuel reading fd) (fun r s' => calls s s' /\ same_stream s s' /\ -1 <= r) s.
Proof.
  intros Hg. unfold poll_fd, FD_SET, fd_ok. rewrite bool_decide_eq_true_2 by done. apply wp_bind. eapply wp_run; [reflexivity|]. cbv beta.
  apply wp_bind.
  eapply wp_mono; [apply (retry_run _ (fun s' => calls s s' /\ same_stream s s') (fun s' => busy (ik s'))
    (fun x s' => (calls s s' /\ same_stream s s') /\ -1 <= x.1)) | ].
  - intros s1 [Hc Hs]. pose proof Hc as (_ & _ & Hg1 & _). pose proof Hg1 as (_ & Hk1 & _).
    assert (exists r w, (if reading then k_select (fd + 1) (Some (Z.setbit 0 fd)) None None else k_select (fd + 1) None (Some (Z.setbit 0 fd)) None) =
      k_select (fd + 1) r w None) as (rs & ws & ->) by (destruct reading; by do 2 eexists).
    destruct (stream_select (fd + 1) rs ws None (ik s1) Hk1) as (r & e & sets & k' & E & Hk' & Hs' & Hf' & Hl' & Hr & Hb & Hint).
    eapply wp_sc_with; [exact E|]. cbn [fst].
    assert (calls s (if bool_decide (r = -1) then set_errno e (set_ik k' s1) else set_ik k' s1)) as Hc' by (eapply calls_trans; [exact Hc|by apply sc_calls]).
    assert (same_stream s (if bool_decide (r = -1) then set_errno e (set_ik k' s1) else set_ik k' s1)) as Hss.
    { unfold same_stream. rewrite ik_sc, Hs', Hf', Hl'. exact Hs. }
    destruct (bool_decide (r < 0) && bool_decide (errno (if bool_decide (r = -1) then set_errno e (set_ik k' s1) else set_ik k' s1) = EINTR)) eqn:Ei; [|done].
    apply andb_prop in Ei as [Er Ee]. apply bool_decide_eq_true in Er, Ee. assert (r = -1) as -> by lia.
    rewrite bool_decide_eq_true_2 in Ee by done. cbn in Ee. split; [done|]. rewrite ik_sc. by apply Hint.
  - by split; [apply calls_refl|].
  - apply Hg.
  - intros [r a] s' [[? ?] ?]. by apply wp_ret.
Qed.

Definition mode_of (f : Z) : Z := if flag f O_NONBLOCK then PTH_FDMODE_NONBLOCK else PTH_FDMODE_BLOCK.
Definition flags_to (newmode f : Z) : Z :=
  if flag f O_NONBLOCK then (if bool_decide (newmode = PTH_FDMODE_BLOCK) then clear_flag f O_NONBLOCK else f)
  else (if bool_decide (newmode = PTH_FDMODE_NONBLOCK) then set_flag f O_NONBLOCK else f).

Lemma fdmode_run newmode s : good s ->
  wp (pth_fdmode fd newmode) (fun m s' => m = mode_of (fd_flags (ik s)) /\ il s' = il s /\ ubytes s' = ubytes s /\ good s' /\
    sent (ik s') = sent (ik s) /\ last (ik s') = last (ik s) /\ fd_flags (ik s') = flags_to newmode (fd_flags (ik s))) s.
Proof.
  intros (Hl & Hk & Hb). destruct (stream_getfl 0 (ik s) Hk) as (e & k1 & E1 & Hk1 & Hs1 & Hf1 & Hl1 & Hb1).
  pose proof (stream_flags (ik s) Hk) as Hpos.
  unfold pth_fdmode. apply wp_bind. eapply wp_sc; [exact E1|]. rewrite !(bool_decide_eq_false_2 (fd_flags (ik s) = -1)) by lia.
  unfold mode_of, flags_to. set (f := fd_flags (ik s)) in *.
  assert (forall (b : bool) (v m : Z), 0 <= v -> wp ((if b then sc (k_fcntl fd F_SETFL v);; mret tt else mret tt);; mret m)
    (fun (m' : Z) s' => m' = m /\ il s' = il s /\ ubytes s' = ubytes s /\ good s' /\ sent (ik s') = sent (ik s) /\ last (ik s') = last (ik s) /\
       fd_flags (ik s') = if b then v else f) (set_ik k1 s)) as Hset.
  { intros b v m Hv. apply wp_bind. destruct b.
    - apply wp_bind. destruct (stream_setfl v k1 Hk1 Hv) as (e2 & k2 & E2 & Hk2 & Hs2 & Hf2 & Hl2 & Hb2).
      eapply wp_sc; [exact E2|]. rewrite (bool_decide_eq_false_2 (0 = -1)) by done. apply wp_ret, wp_ret. unfold good. cbn. rewrite Hs2, Hl2. repeat split; try done. lia.
    - apply wp_ret, wp_ret. unfold good. cbn. repeat split; try done. lia. }
  destruct (flag f O_NONBLOCK).
  - eapply wp_mono; [apply Hset; unfold clear_flag; apply Z.ldiff_nonneg; lia|]. intros m s' (-> & H1). by repeat split; apply H1.
  - eapply wp_mono; [apply Hset; unfold set_flag; apply Z.lor_nonneg; by split|]. intros m s' (-> & H1). by repeat split; apply H1.
Qed.

Lemma flags_back f : 0 <= f -> flags_to (mode_of f) (flags_to PTH_FDMODE_NONBLOCK f) = f.
Proof.
  intros _. unfold flags_to, mode_of. destruct (flag f O_NONBLOCK) eqn:E;
    change (bool_decide (PTH_FDMODE_NONBLOCK = PTH_FDMODE_BLOCK)) with false; change (bool_decide (PTH_FDMODE_NONBLOCK = PTH_FDMODE_NONBLOCK)) with true;
    change (bool_decide (PTH_FDMODE_BLOCK = PTH_FDMODE_BLOCK)) with true; cbv iota; rewrite ?E; [done|].
  replace (flag (set_flag f O_NONBLOCK) O_NONBLOCK) with true.
  - unfold flag in E. apply negb_false_iff, bool_decide_eq_true in E. unfold clear_flag, set_flag. apply Z.bits_inj'. intros i _.
    rewrite Z.ldiff_spec, Z.lor_spec. assert (Z.testbit (Z.land f O_NONBLOCK) i = false) as Hi by (by rewrite E, Z.bits_0).
    rewrite Z.land_spec in Hi. by destruct (Z.testbit f i), (Z.testbit O_NONBLOCK i).
  - unfold flag, set_flag. rewrite Z.land_comm, Z.lor_comm, Z.land_lor_distr_r, Z.land_diag. symmetry. apply negb_true_iff, bool_decide_eq_false.
    intros Hz. apply Z.lor_eq_0_l in Hz. done.
Qed.

Lemma shielded_fdmode_run newmode s : good s ->
  wp (errno_shield (pth_fdmode fd newmode)) (fun _ s' => il s' = il s /\ ubytes s' = ubytes s /\ good s' /\
    sent (ik s') = sent (ik s) /\ last (ik s') = last (ik s) /\ fd_flags (ik s') = flags_to newmode (fd_flags (ik s))) s.
Proof.
  intros Hg. unfold errno_shield. apply wp_bind, wp_get, wp_bind. eapply wp_mono; [by apply fdmode_run|].
  intros m s' (-> & H1 & H2 & H3 & H4 & H5 & H6). by apply wp_modify.
Qed.
Lemma fd_args_fit (goal : Z) : goal = PTH_UNTIL_FD_READABLE \/ goal = PTH_UNTIL_FD_WRITEABLE -> ev_args_fit (Z.lor PTH_EVENT_FD goal) (AFd fd).
Proof. intros [-> | ->]; (split; [done|]; split; [done|]; do 4 eexists; reflexivity). Qed.

Lemma wait_writeable_switch s : io_ready n t key ev (il s) ->
  exists l', io_ready n t key ev l' /\
    forall s', elsewhere (set_il l' s) = Ok (tt, s') -> wait_writeable switch popall mfuel efuel elsewhere key fd None s = Ok (Some true, s').
Proof.
  intros (d & Hr & Hfree).
  destruct (static_ev_run switch n t key ev (Z.lor PTH_EVENT_FD PTH_UNTIL_FD_WRITEABLE) (AFd fd) (il s) d Hr) as (l1 & E1 & Hr1 & Ha1 & _); [apply fd_args_fit; by right|].
  destruct (pth_wait_run switch popall mfuel efuel n t key ev l1 d Hback Hefuel Hr1 Hfree Ha1) as (l2 & E2 & Hr2 & _).
  exists l2. split; [done|]. intros s' E3. unfold wait_writeable, io_wait.
  rewrite (bind_run _ _ s (Some ev) (set_il l1 s)) by (unfold oni, zoom; by rewrite E1).
  rewrite (bind_run _ _ _ tt (set_il l1 s) eq_refl). rewrite (bind_run _ _ (set_il l1 s) (Some 1) s'); [done|].
  unfold wait_ring. rewrite (bind_run _ _ _ (Some 1) (set_il l2 s)) by (unfold oni, zoom; change (il (set_il l1 s)) with l1; by rewrite E2).
  by rewrite (bind_run _ _ _ _ _ E3).
Qed.

Lemma wait_writeable_run p data s : others_leave p data -> good s -> holds p data s ->
  exists s', wait_writeable switch popall mfuel efuel elsewhere key fd None s = Ok (Some true, s') /\ good s' /\ holds p data s' /\ same_stream s s'.
Proof.
  intros Hoth Hg Hh. pose proof Hg as (Hr & Hk). destruct (wait_writeable_switch s Hr) as (l2 & Hr2 & E).
  destruct (Hoth (set_il l2 s)) as (s' & E3 & Hs'); [done..|]. exists s'. split; [by apply E|done].
Qed.

Lemma take_to_nat (k v : Z) (data : list Z) : 0 <= k <= v -> take (Z.to_nat k) data ++ take (Z.to_nat (v - k)) (drop (Z.to_nat k) data) = take (Z.to_nat v) data.
Proof. intros Hk. rewrite take_take_drop. f_equal. lia. Qed.

(** The loop, with [k] of the bytes written already *)
Lemma write_loop_run p data : others_leave p data -> Z.of_nat (length data) < 2 ^ 31 ->
  forall fuel fdmode k w s, good s -> holds p data s -> (k < length data)%nat -> (length data - k < fuel)%nat ->
  wp (write_loop switch popall mfuel efuel elsewhere rfuel fuel key fd fdmode (p + Z.of_nat k) (Z.of_nat (length data - k)) w (Z.of_nat k) None)
    (fun r s' => exists v, r = Some v /\ good s' /\ fd_flags (ik s') = fd_flags (ik s) /\
       sent (ik s') = sent (ik s) ++ take (Z.to_nat v - k) (drop k data) /\
       (v = -1 /\ k = 0%nat \/ Z.of_nat k <= v <= Z.of_nat (length data)) /\ (v = Z.of_nat (length data) \/ last (ik s') <= 0)) s.
Proof.
  intros Hoth Hmax fuel. induction fuel as [|fuel IH]; intros fdmode k w s Hg Hh Hk Hf; [lia|]. cbn [write_loop]. apply wp_bind.
  assert (exists s1, (if bool_decide (w < 1) then wait_writeable switch popall mfuel efuel elsewhere key fd None else mret (Some true)) s = Ok (Some true, s1) /\
    good s1 /\ holds p data s1 /\ sent (ik s1) = sent (ik s) /\ fd_flags (ik s1) = fd_flags (ik s)) as (s1 & E1 & Hg1 & Hh1 & Hs1 & Hf1).
  { destruct (bool_decide (w < 1)); [|by exists s]. destruct (wait_writeable_run p data s) as (s1 & ? & ? & ? & ? & ? & ?); [done..|]. by exists s1. }
  eapply wp_run; [exact E1|]. cbv iota beta. apply wp_bind.
  assert (length (drop k data) = length data - k)%nat as Hlen by apply length_drop. rewrite <- Hlen.
  eapply wp_mono; [apply write_call_run; [done|apply holds_suffix; [done|lia]]|]. cbv beta. rewrite Hlen.
  intros r s2 (Hc & Hr & Hs2 & Hl2). pose proof Hc as (_ & _ & Hg2 & Hf2).
  assert (swrap 32 (Z.of_nat (length data - k)) = Z.of_nat (length data - k)) as -> by (apply swrap_small; lia).
  assert ((if bool_decide (r > 0) then swrap 32 (Z.of_nat k + r) else Z.of_nat k) = Z.of_nat (k + Z.to_nat r)) as ->.
  { destruct (bool_decide (r > 0)) eqn:Er; [apply bool_decide_eq_true in Er; rewrite swrap_small; lia|apply bool_decide_eq_false in Er; f_equal; lia]. }
  destruct (bool_decide (r > 0) && bool_decide (r < Z.of_nat (length data - k))) eqn:Eb.
  - apply andb_prop in Eb as [Er1 Er2]. apply bool_decide_eq_true in Er1, Er2.
    replace (p + Z.of_nat k + r) with (p + Z.of_nat (k + Z.to_nat r)) by lia.
    replace (Z.of_nat (length data - k) - r) with (Z.of_nat (length data - (k + Z.to_nat r))) by lia.
    eapply wp_mono; [apply IH; [done|by eapply calls_holds|lia|lia]|].
    intros x s3 (v & -> & Hg3 & Hf3 & Hs3 & Hv & Hl3). exists v. split; [done|]. split; [done|]. split; [congruence|].
    split; [|split; [lia|done]]. rewrite Hs3, Hs2, Hs1, <- app_assoc. f_equal. rewrite <- drop_drop, take_take_drop. f_equal. lia.
  - apply wp_ret. exists (if bool_decide (r < 0) && bool_decide (Z.of_nat (k + Z.to_nat r) = 0) then -1 else Z.of_nat (k + Z.to_nat r)).
    split; [done|]. split; [done|]. split; [congruence|]. rewrite Hs2, Hs1, Hl2.
    apply andb_false_iff in Eb. rewrite !bool_decide_eq_false in Eb.
    destruct (bool_decide (r < 0) && bool_decide (Z.of_nat (k + Z.to_nat r) = 0)) eqn:En.
    + apply andb_prop in En as [En1 En2]. apply bool_decide_eq_true in En1, En2. split; [f_equal; f_equal; lia|]. split; [left; lia|lia].
    + split; [f_equal; f_equal; lia|]. lia.
Qed.

(** [pth_write] on an open descriptor, blocking or not, whatever the kernel
    answers, with signals and waits on the way: the call returns; the bytes the
    descriptor has received are exactly the first ones of the buffer, as many
    as the result says, in their order and each once (none when the result is
    -1); and the flags of the descriptor are as before.  When the result is
    short of the request, the kernel refused the last [write], or there was
    only one. *)
Theorem write_stream p data s :
  others_leave p data -> good s -> holds p data s -> Z.of_nat (length data) < 2 ^ 31 ->
  exists r s', pth_write switch popall mfuel efuel elsewhere rfuel key fd p (Z.of_nat (length data)) s = Ok (Some r, s') /\
    good s' /\ -1 <= r <= Z.of_nat (length data) /\
    sent (ik s') = sent (ik s) ++ take (Z.to_nat r) data /\ fd_flags (ik s') = fd_flags (ik s) /\
    (r = Z.of_nat (length data) \/ last (ik s') <= 0 \/ last (ik s') = r).
Proof.
  intros Hoth Hg Hh Hmax.
  cut (wp (pth_write switch popall mfuel efuel elsewhere rfuel key fd p (Z.of_nat (length data))) (fun x s' => exists r, x = Some r /\
    good s' /\ -1 <= r <= Z.of_nat (length data) /\ sent (ik s') = sent (ik s) ++ take (Z.to_nat r) data /\ fd_flags (ik s') = fd_flags (ik s) /\
    (r = Z.of_nat (length data) \/ last (ik s') <= 0 \/ last (ik s') = r)) s).
  { intros Hwp. apply wp_elim in Hwp as (x & s' & E & r & -> & Hr). by exists r, s'. }
  unfold pth_write, pth_write_ev. destruct (bool_decide (Z.of_nat (length data) = 0)) eqn:E0.
  { apply bool_decide_eq_true in E0. apply wp_ret. exists 0. rewrite app_nil_r. split; [done|]. split; [done|]. split; [lia|]. by repeat split; left. }
  apply bool_decide_eq_false in E0. apply wp_bind. eapply wp_mono; [by apply fdmode_run|].
  intros m s1 (-> & Ei1 & Eu1 & Hg1 & Es1 & _ & Ef1). pose proof (stream_flags (ik s) (proj1 (proj2 Hg))) as Hpos.
  rewrite (bool_decide_eq_false_2 (mode_of _ = PTH_FDMODE_ERROR)) by (unfold mode_of; by destruct (flag _ _)).
  assert (holds p data s1) as Hh1 by (intros i x Hi; rewrite Eu1; by apply Hh).
  apply wp_bind. eapply wp_mono; [by apply write_call_run|]. intros r s2 (Hc2 & Hr & Es2 & El2). pose proof Hc2 as (_ & _ & Hg2 & Ef2).
  apply wp_bind, wp_get. destruct (_ && _) eqn:Eb.
  - apply andb_prop in Eb as [Eb _]. apply andb_prop in Eb as [_ Er]. apply bool_decide_eq_true in Er. rewrite Er in Es2.
    apply wp_bind. eapply wp_mono; [by apply shielded_fdmode_run|]. intros _ s3 (Ei3 & Eu3 & Hg3 & Es3 & El3 & Ef3).
    apply wp_bind. eapply wp_mono; [by apply poll_fd_run|]. intros w s4 (Hc4 & (Es4 & Ef4 & _) & Hw). pose proof Hc4 as (_ & _ & Hg4 & _).
    assert (holds p data s4) as Hh4.
    { eapply calls_holds; [exact Hc4|]. intros i x Hi. rewrite Eu3. revert i x Hi. by eapply calls_holds. }
    pose proof (write_loop_run p data Hoth Hmax (S (Z.to_nat (Z.of_nat (length data)))) (mode_of (fd_flags (ik s))) 0 w s4 Hg4 Hh4) as Hloop.
    rewrite Nat.sub_0_r, Z.add_0_r in Hloop. eapply wp_mono; [apply Hloop; lia|].
    intros x s5 (v & -> & Hg5 & Ef5 & Es5 & Hv & Hl5). exists v. split; [done|]. split; [done|]. split; [lia|].
    split; [|split; [|destruct Hl5; [by left|by right; left]]].
    + rewrite Es5, Es4, Es3, Es2, Es1, Nat.sub_0_r. change (take (Z.to_nat (-1)) data) with (@nil Z). by rewrite app_nil_r.
    + by rewrite Ef5, Ef4, Ef3, Ef2, Ef1, flags_back.
  - apply wp_bind. eapply wp_mono; [by apply shielded_fdmode_run|]. intros _ s3 (Ei3 & Eu3 & Hg3 & Es3 & El3 & Ef3).
    apply wp_ret. exists r. split; [done|]. split; [done|]. split; [done|]. split; [congruence|]. split; [by rewrite Ef3, Ef2, Ef1, flags_back|].
    right. right. congruence.
Qed.
End stream.

(** A pipe whose answers are given: at most so many bytes, [EAGAIN] for -1,
    [EINTR] for -2; then everything. *)
Record pipe : Set := Pipe { pipe_sent : list Z; pipe_flags : Z; pipe_last : Z; pipe_answers : list Z }.

Definition pipe_write (data : list Z) : M pipe (Z * Z) := fun k =>
  let a := default (Z.of_nat (length data)) (head (pipe_answers k)) in
  let r := if bool_decide (a < 0) then -1 else Z.min a (Z.of_nat (length data)) in
  Ok ((r, if bool_decide (a = -2) then EINTR else EAGAIN),
      Pipe (pipe_sent k ++ take (Z.to_nat r) data) (pipe_flags k) r (tail (pipe_answers k))).

Definition pipe_fcntl (cmd arg : Z) : M pipe (Z * Z) := fun k =>
  if bool_decide (cmd = F_GETFL) then Ok ((pipe_flags k, 0), k)
  else Ok ((0, 0), Pipe (pipe_sent k) arg (pipe_last k) (pipe_answers k)).

Definition pipe_read (n : Z) : M pipe (Z * Z * list Z) := fun k =>
  let d := take (Z.to_nat n) (pipe_sent k) in
  Ok ((Z.of_nat (length d), 0, d), Pipe (drop (Z.to_nat n) (pipe_sent k)) (pipe_flags k) (pipe_last k) (pipe_answers k)).

#[global] Instance pipe_kernel : Kernel pipe := {
  k_fcntl := fun _ cmd arg => pipe_fcntl cmd arg;
  k_select := fun _ r w e => mret (0, 0, (r, w, e));
  k_read := fun _ n => pipe_read n;
  k_write := fun _ data => pipe_write data;
  k_readv := fun _ _ => fail Stuck;
  k_writev := fun _ ds => pipe_write (concat ds);
  k_connect := fun _ _ => fail Stuck;
  k_so_error := fun _ => fail Stuck;
  k_accept := fun _ => fail Stuck;
  k_waitpid := fun _ _ => fail Stuck;
  k_lseek := fun _ _ _ => fail Stuck;
  k_recvfrom := fun _ _ _ => fail Stuck;
  k_sendto := fun _ _ _ _ => fail Stuck;
  k_recvmsg := fun _ _ _ => fail Stuck;
  k_sendmsg := fun _ _ _ => fail Stuck;
  k_tkill := fun _ _ => fail Stuck;
  k_sigprocmask := fun _ _ _ => None }.

Definition interrupts (k : pipe) : nat := length (filter (fun a => a = -2) (pipe_answers k)).

#[global] Instance pipe_stream fd : Stream pipe fd (fun k => 0 <= pipe_flags k) pipe_sent pipe_flags pipe_last interrupts.
Proof.
  split.
  - intros a k Hk. by exists 0, k.
  - intros v k Hk Hv. by exists 0, (Pipe (pipe_sent k) v (pipe_last k) (pipe_answers k)).
  - intros n r w e k Hk. exists 0, 0, (r, w, e), k. repeat split; done.
  - intros data k Hk. do 3 eexists. split; [reflexivity|]. cbn [pipe_sent pipe_flags pipe_last].
    split; [done|]. split; [done|]. split; [done|]. split; [done|]. unfold interrupts. cbn [pipe_answers].
    destruct (pipe_answers k) as [|a l]; cbn [head tail default]; rewrite ?filter_cons.
    + unfold id. rewrite (bool_decide_eq_false_2 (Z.of_nat (length data) < 0)) by lia. split; [lia|]. split; [done|]. lia.
    + unfold id. destruct (bool_decide (a < 0)) eqn:Ea.
      * apply bool_decide_eq_true in Ea. split; [lia|]. destruct (decide (a = -2)) as [->|Hn]; cbn; [split; [lia|lia]|]. split; [lia|].
        rewrite bool_decide_eq_false_2 by done. done.
      * apply bool_decide_eq_false in Ea. split; [lia|]. rewrite decide_False by lia. split; [done|]. lia.
  - done.
Qed.

Definition high_demo (bytes : gmap Z Z) (iov : list iovec) (k : pipe) : @io pipe :=
  let l := lib_demo (QMem ∅ ∅ ∅) {[8%nat := a_thread]} in
  IO (set_tx {[8%nat := Tcb None 0 0 0 0 None 0 0 None 0 false]}
       (set_evs (EMem {[5%nat := Link None None]} {[5%nat := zero_event]} {[0%nat := 0]} (true :: replicate 15 false)
                      {[8%nat := (Some (Some 5%nat :: replicate 15 None), 1)]} false [] []) l))
    k bytes 0 iov (replicate 3 (Iov 0 0)) [] [] [] [] qlock_free.

Lemma high_demo_ready bytes iov k : io_ready 1 8 0 5 (il (high_demo bytes iov k)).
Proof.
  exists (a_native 101 8). split; [|done]. split; [done| |by eexists|].
  - exists a_thread. done.
  - split; [|split; [done|split; [by eexists|split; [by eexists|]]]].
    + split; [done|]. split; [by apply map_Forall_singleton|]. intros cell k'. cbn. rewrite lookup_singleton_Some. intros [_ <-]. by right.
    + by exists 0, (Some 5%nat :: replicate 15 None), 1.
Qed.

Lemma reschedule_returns n t key ev : comes_back (reschedule n) n t key ev.
Proof.
  intros l d [(Hs & Hd & Hc) Ht Hx He] Ha. eexists. split; [reflexivity|]. split; [|exact Ha].
  exists (set_sched_lock qlock_free d). split; [|done]. split; try done. split; [done|]. split; [|done]. cbn.
  by rewrite list_lookup_alter_eq, Hd.
Qed.

(** The result of a run *)
Definition result_of {S A} (r : res (option A * S)) : option A := match r with Ok (a, _) => a | Err _ => None end.

(** [EAGAIN], then an interrupted call, then two bytes and the rest. *)
Lemma write_stream_witness :
  exists s', pth_write (reschedule 1) (fun _ => mret tt) 0 1 (mret tt) 9 0 3 100 3 (high_demo {[100 := 65; 101 := 66; 102 := 67]} [] (Pipe [1] 0 0 [-1; -2; 2])) =
    Ok (Some 3, s') /\ pipe_sent (ik s') = [1; 65; 66; 67].
Proof.
  set (s := high_demo {[100 := 65; 101 := 66; 102 := 67]} [] (Pipe [1] 0 0 [-1; -2; 2])).
  destruct (write_stream 3 (fun k => 0 <= pipe_flags k) pipe_sent pipe_flags pipe_last interrupts (reschedule 1) (fun _ => mret tt) 0 1 (mret tt) 9
    1 8 0 5 (reschedule_returns 1 8 0 5) ltac:(lia) ltac:(done) 100 [65; 66; 67] s) as (r & s' & E & _ & _ & Es & _).
  - intros s1 Hg Hh. by exists s1.
  - split; [apply high_demo_ready|]. split; [done|]. vm_compute. lia.
  - intros i x Hi. destruct i as [|[|[|]]]; cbn in Hi; try done; injection Hi as <-; vm_compute; reflexivity.
  - done.
  - exists s'. assert (result_of (pth_write (reschedule 1) (fun _ => mret tt) 0 1 (mret tt) 9 0 3 100 (Z.of_nat (length [65; 66; 67])) s) = Some 3) as Hr by (vm_compute; reflexivity).
    pose proof (eq_trans (eq_sym Hr) (f_equal result_of E)) as Er. injection Er as <-. split; [exact E|]. rewrite Es. reflexivity.
Defined.

(** ** Several buffers *)

Section vectors.
Context {K : Type} `{Kernel K}.
Implicit Types (s : @io K) (v : list iovec).

(** The addresses of the bytes of a vector, in their order *)
Definition addresses v : list Z := concat ((fun x => seqZ (iov_base x) (iov_len x)) <$> v).

(** The [cnt] elements from [p] on *)
Definition elements (p : iov_ptr) (cnt : nat) s : list iovec :=
  match p with
  | INull => []
  | IReal i => take cnt (drop i (uiov s))
  | ICopy i => take cnt (drop i (siov s))
  end.

Definition vector_ok (p : iov_ptr) (cnt : nat) s : Prop := length (elements p cnt s) = cnt.

Lemma addresses_length v : Forall (fun x => 0 <= iov_len x) v -> Z.of_nat (length (addresses v)) = foldr (fun x n => iov_len x + n) 0 v.
Proof.
  induction 1 as [|x v Hx Hv IH]; [done|]. unfold addresses in *. cbn [fmap list_fmap concat foldr]. rewrite length_app, length_seqZ, <- IH. lia.
Qed.

(** The elements that are left begin where the advance ends; only the copy has
    changed. *)
Lemma advance_loop_run cnt a i s : 0 <= a -> vector_ok (ICopy i) cnt s -> Forall (fun x => 0 <= iov_len x) (elements (ICopy i) cnt s) ->
  exists j cnt' c, advance_loop cnt a (ICopy i) s = Ok ((ICopy j, cnt'), set_siov c s) /\ length c = length (siov s) /\
    vector_ok (ICopy j) cnt' (set_siov c s) /\ Forall (fun x => 0 <= iov_len x) (elements (ICopy j) cnt' (set_siov c s)) /\
    addresses (elements (ICopy j) cnt' (set_siov c s)) = drop (Z.to_nat a) (addresses (elements (ICopy i) cnt s)).
Proof.
  revert a i s. induction cnt as [|cnt IH]; intros a i s Ha Hok Hpos.
  { exists i, 0%nat, (siov s). split; [by destruct s|]. split; [done|]. split; [done|]. split; [done|]. unfold addresses, elements. cbn [take fmap list_fmap concat]. by destruct (Z.to_nat a). }
  cbn [advance_loop]. destruct (bool_decide (a > 0)) eqn:Ea.
  2:{ apply bool_decide_eq_false in Ea. exists i, (S cnt), (siov s). destruct s as [? ? ? ? ? c]. cbn. replace (Z.to_nat a) with 0%nat by lia. done. }
  apply bool_decide_eq_true in Ea. unfold vector_ok in Hok. cbn [elements] in *.
  destruct (siov s !! i) as [x|] eqn:Ex; [|apply lookup_ge_None in Ex; rewrite length_take, length_drop in Hok; lia].
  rewrite (drop_S _ _ _ Ex) in *. cbn [take] in *. apply Forall_cons in Hpos as [Hx Hpos].
  rewrite (bind_run _ _ s x s) by (unfold iov_at; rewrite (bind_run get _ _ _ _ eq_refl); by rewrite Ex).
  destruct (bool_decide (iov_len x > a)) eqn:Eb.
  - apply bool_decide_eq_true in Eb. set (x' := Iov (iov_base x + a) (iov_len x - a)).
    exists i, (S cnt), (<[i := x']> (siov s)). split.
    { rewrite (bind_run _ _ s tt (set_siov (<[i := x']> (siov s)) s)); [done|]. unfold iov_put.
      rewrite (bind_run _ _ s x s) by (unfold iov_at; rewrite (bind_run get _ _ _ _ eq_refl); by rewrite Ex). done. }
    split; [apply length_insert|]. unfold vector_ok. cbn [siov set_siov elements].
    rewrite (drop_S _ x' i) by (apply list_lookup_insert_eq; by eapply lookup_lt_Some). rewrite drop_insert_lt by lia.
    cbn [take length] in *. split; [done|]. split; [constructor; [cbn; lia|done]|]. unfold addresses. cbn [fmap list_fmap concat iov_base iov_len x'].
    rewrite drop_app_le by (rewrite length_seqZ; lia). f_equal.
    replace (iov_len x) with (a + (iov_len x - a)) at 2 by lia. rewrite seqZ_app by lia. rewrite drop_app_length'; [done|]. rewrite length_seqZ. lia.
  - apply bool_decide_eq_false in Eb. destruct (IH (a - iov_len x) (S i) s) as (j & cnt' & c & E & Hc & Hok' & Hpos' & Hadd); [lia|by injection Hok|done|].
    exists j, cnt', c. split; [exact E|]. split; [done|]. split; [done|]. split; [done|]. rewrite Hadd. unfold addresses. cbn [fmap list_fmap concat elements].
    rewrite drop_app_ge by (rewrite length_seqZ; lia). f_equal. rewrite length_seqZ. lia.
Qed.
Lemma set_siov_id s : set_siov (siov s) s = s.
Proof. by destruct s. Qed.

Lemma iov_copy_run m i s : (i + m <= length (uiov s))%nat -> (i + m <= length (siov s))%nat ->
  iov_copy i m s = Ok (tt, set_siov (take i (siov s) ++ take m (drop i (uiov s)) ++ drop (i + m) (siov s)) s).
Proof.
  revert i s. induction m as [|m IH]; intros i s Hu Hc; cbn [iov_copy].
  { rewrite Nat.add_0_r, take_0. cbn [app]. by rewrite take_drop, set_siov_id. }
  destruct (lookup_lt_is_Some_2 (uiov s) i) as [x Hx]; [lia|]. destruct (lookup_lt_is_Some_2 (siov s) i) as [y Hy]; [lia|].
  rewrite (bind_run _ _ s x s) by (unfold iov_at; rewrite (bind_run get _ _ _ _ eq_refl); by rewrite Hx).
  rewrite (bind_run _ _ s tt (set_siov (<[i := x]> (siov s)) s)).
  2:{ unfold iov_put. by rewrite (bind_run _ _ s y s) by (unfold iov_at; rewrite (bind_run get _ _ _ _ eq_refl); by rewrite Hy). }
  rewrite IH by (cbn; rewrite ?length_insert; lia). do 2 f_equal. unfold set_siov. cbn. f_equal.
  rewrite (drop_S _ x i) by done. rewrite (take_S_r _ _ x) by (apply list_lookup_insert_eq; lia). rewrite take_insert_ge by lia.
  rewrite drop_insert_lt by lia. rewrite <- app_assoc. cbn. by rewrite <- Nat.add_succ_comm.
Qed.

Lemma iov_bytes_addresses v b : Forall (fun x => 0 <= iov_len x) v -> 0 <= b -> b + Z.of_nat (length (addresses v)) < 2 ^ 31 ->
  iov_bytes_loop v b = b + Z.of_nat (length (addresses v)).
Proof.
  intros Hv. revert b. induction Hv as [|x v Hx Hv IH]; intros b Hb Hm; [cbn; lia|]. unfold addresses in *. cbn [fmap list_fmap concat iov_bytes_loop] in *.
  rewrite length_app, length_seqZ in *. set (total := length (concat _)) in *. clearbody total. destruct (bool_decide (iov_len x <= 0)) eqn:E.
  - apply bool_decide_eq_true in E. rewrite IH; lia.
  - apply bool_decide_eq_false in E. rewrite swrap_small by lia. rewrite IH; lia.
Qed.

(** [pth_writev_iov_advance] skips exactly [a] bytes: the vector that is
    left consists of the same bytes without the first [a], however these are
    spread over the elements; as many as [pth_writev_iov_bytes] then counts.
    The first call takes the vector of the caller, which is never changed: only
    the copy is. *)
Theorem iov_advance_drops riovcnt a p cnt s :
  let v := elements (if bool_decide (p = INull) then IReal 0 else p) (if bool_decide (p = INull) then riovcnt else cnt) s in
  p = INull /\ cnt = 0%nat \/ p = IReal 0 /\ cnt = riovcnt \/ (exists i, p = ICopy i) /\ vector_ok p cnt s ->
  (riovcnt <= length (uiov s))%nat -> (riovcnt <= length (siov s))%nat ->
  Forall (fun x => 0 <= iov_len x) v -> 0 <= a -> Z.of_nat (length (addresses v)) < 2 ^ 31 ->
  exists q cnt' c, pth_writev_iov_advance riovcnt a p cnt s = Ok ((q, cnt'), set_siov c s) /\ length c = length (siov s) /\
    vector_ok q cnt' (set_siov c s) /\
    addresses (elements q cnt' (set_siov c s)) = drop (Z.to_nat a) (addresses v) /\
    pth_writev_iov_bytes (elements q cnt' (set_siov c s)) = Z.max 0 (pth_writev_iov_bytes v - a).
Proof.
  intros v Hp Hu Hc Hv Ha Hmax.
  assert (exists p1 cnt1, (if bool_decide (p = INull) && bool_decide (cnt = 0%nat) then (IReal 0, riovcnt) else (p, cnt)) = (p1, cnt1) /\
    (p1 = IReal 0 /\ cnt1 = riovcnt \/ (exists i, p1 = ICopy i) /\ vector_ok p1 cnt1 s) /\ v = elements p1 cnt1 s) as (p1 & cnt1 & Ep & Hp1 & Ev).
  { unfold v. destruct Hp as [[-> ->]|[[-> ->]|[[i ->] Hok]]].
    - exists (IReal 0), riovcnt. split; [done|]. by split; [left|].
    - exists (IReal 0), riovcnt. split; [done|]. by split; [left|].
    - exists (ICopy i), cnt. split; [done|]. split; [right; split; [by exists i|done]|done]. }
  cut (exists q cnt' c, pth_writev_iov_advance riovcnt a p cnt s = Ok ((q, cnt'), set_siov c s) /\ length c = length (siov s) /\
    vector_ok q cnt' (set_siov c s) /\ Forall (fun x => 0 <= iov_len x) (elements q cnt' (set_siov c s)) /\
    addresses (elements q cnt' (set_siov c s)) = drop (Z.to_nat a) (addresses v)).
  { intros (q & cnt' & c & E & Hlc & Hok & Hpos & Hadd). exists q, cnt', c. split; [done|]. split; [done|]. split; [done|]. split; [done|].
    unfold pth_writev_iov_bytes. rewrite !iov_bytes_addresses by (rewrite ?Hadd, ?length_drop; done || lia). rewrite Hadd, length_drop. lia. }
  unfold pth_writev_iov_advance. rewrite Ep. rewrite Ev in *. clear Ep Ev v Hp Hmax. destruct (bool_decide (a > 0)) eqn:Ea.
  2:{ apply bool_decide_eq_false in Ea. exists p1, cnt1, (siov s). rewrite set_siov_id. split; [done|]. split; [done|]. replace (Z.to_nat a) with 0%nat by lia.
      split; [|done]. destruct Hp1 as [[-> ->]|[_ ?]]; [|done]. unfold vector_ok. cbn. rewrite length_take, drop_0. lia. }
  destruct Hp1 as [[-> ->]|[[i ->] Hok]].
  - rewrite !bool_decide_eq_true_2 by done. cbn [andb].
    rewrite (bind_run _ _ s (ICopy 0) (set_siov (take riovcnt (uiov s) ++ drop riovcnt (siov s)) s)).
    2:{ by rewrite (bind_run _ _ _ _ _ (iov_copy_run riovcnt 0 s Hu Hc)). }
    set (s1 := set_siov (take riovcnt (uiov s) ++ drop riovcnt (siov s)) s).
    assert (elements (ICopy 0) riovcnt s1 = elements (IReal 0) riovcnt s) as Eel.
    { cbn. rewrite !drop_0. apply take_app_length'. rewrite length_take. lia. }
    destruct (advance_loop_run riovcnt a 0 s1) as (j & cnt' & c & E & Hlc & Hok & Hpos & Hadd); [done| |by rewrite Eel|].
    { unfold vector_ok. rewrite Eel. cbn. rewrite length_take, drop_0. lia. }
    exists (ICopy j), cnt', c. split; [exact E|]. split; [|by rewrite <- Eel]. rewrite Hlc. cbn. rewrite length_app, length_take, length_drop. lia.
  - rewrite (bool_decide_eq_false_2 (ICopy i = IReal 0)) by done. cbn [andb]. rewrite (bind_run _ _ s (ICopy i) s eq_refl).
    destruct (advance_loop_run cnt1 a i s Ha Hok Hv) as (j & cnt' & c & E & Hrest). by exists (ICopy j), cnt', c.
Qed.
End vectors.

Section resend.
Context (switch : M sst unit) (popall : nat -> M sst unit) (mfuel efuel : nat) (rfuel : nat).
Context (n t key ev : nat) (Hback : comes_back switch n t key ev) (Hefuel : (0 < efuel)%nat).
Implicit Types s : @io pipe.

(** The memory holds the data of the elements. *)
Definition vector_holds (v : list iovec) (ds : list (list Z)) s : Prop :=
  Forall2 (fun x d => iov_len x = Z.of_nat (length d) /\ holds (iov_base x) d s) v ds.

Lemma iov_data_run v ds s : vector_holds v ds s -> iov_data v s = Ok (ds, s).
Proof.
  induction 1 as [|x d v ds [Hl Hh] Hv IH]; [done|]. cbn [iov_data]. rewrite Hl, Nat2Z.id.
  by rewrite (bind_run _ _ _ _ _ (read_bytes_run d (iov_base x) s Hh)), (bind_run _ _ _ _ _ IH).
Qed.

Lemma iov_list_run v i s : uiov s = v -> iov_list (IReal i) (length v - i) s = Ok (drop i v, s).
Proof.
  intros Hv. remember (length v - i)%nat as m eqn:Hm. revert i Hm. induction m as [|m IH]; intros i Hm; cbn [iov_list].
  { rewrite drop_ge by lia. done. }
  destruct (lookup_lt_is_Some_2 v i) as [x Hx]; [lia|].
  rewrite (bind_run _ _ s x s) by (unfold iov_at; rewrite (bind_run get _ _ _ _ eq_refl), Hv; by rewrite Hx).
  cbn [iov_next]. rewrite (bind_run _ _ _ _ _ (IH (S i) ltac:(lia))). by rewrite (drop_S _ _ _ Hx).
Qed.

Lemma iov_bytes_total v ds s : vector_holds v ds s -> Z.of_nat (length (concat ds)) < 2 ^ 31 -> pth_writev_iov_bytes v = Z.of_nat (length (concat ds)).
Proof.
  intros Hv. unfold pth_writev_iov_bytes. assert (forall b, 0 <= b -> b + Z.of_nat (length (concat ds)) < 2 ^ 31 -> iov_bytes_loop v b = b + Z.of_nat (length (concat ds))) as Hgen.
  { induction Hv as [|x d v ds [Hl Hh] Hv IH]; intros b Hb Hm; cbn [iov_bytes_loop concat length] in *; [lia|].
    rewrite length_app in *. destruct (bool_decide (iov_len x <= 0)) eqn:E.
    - apply bool_decide_eq_true in E. rewrite IH; lia.
    - apply bool_decide_eq_false in E. rewrite Hl, swrap_small, IH; lia. }
  intros Hm. rewrite Hgen; lia.
Qed.

(** A [writev] of the pipe, not interrupted *)
Lemma writev_call_pipe fd v ds s r e k : uiov s = v -> vector_holds v ds s ->
  pipe_write (concat ds) (ik s) = Ok ((r, e), k) -> e <> EINTR -> (0 < rfuel)%nat ->
  writev_call rfuel false fd (IReal 0) (length v) s = Ok (r, if bool_decide (r = -1) then set_errno e (set_ik k s) else set_ik k s).
Proof.
  intros Hu Hv E He Hf. unfold writev_call. pose proof (iov_list_run v 0 s Hu) as El. rewrite Nat.sub_0_r in El.
  rewrite (bind_run _ _ _ _ _ El), (bind_run _ _ _ _ _ (iov_data_run _ _ _ Hv)).
  destruct rfuel as [|fuel]; [lia|]. unfold retry_call. set (s' := if bool_decide (r = -1) then _ else _).
  rewrite (bind_run _ _ s (r, tt) s'); [done|]. cbn [retry].
  rewrite (bind_run _ _ s (r, tt) s').
  2:{ rewrite (bind_run _ _ s r s'); [done|]. unfold sc. rewrite (bind_run _ _ s (r, e) (set_ik k s)).
      2:{ unfold zoom. change (k_writev fd ds (ik s)) with (pipe_write (concat ds) (ik s)). by rewrite E. }
      cbv beta iota. unfold s'. by destruct (bool_decide (r = -1)). }
  cbv beta iota. rewrite (bind_run get _ _ _ _ eq_refl). destruct (bool_decide (r < 0) && bool_decide (errno s' = EINTR)) eqn:Eb; [|done].
  exfalso. apply andb_prop in Eb as [E1 E2]. apply bool_decide_eq_true in E1, E2. unfold s' in E2.
  assert (r = -1) as ->; [|by rewrite bool_decide_eq_true_2 in E2].
  injection E as <- _ _. destruct (bool_decide (default _ _ < 0)) eqn:Ea; [done|]. apply bool_decide_eq_false in Ea. lia.
Qed.
Lemma vector_holds_ubytes v ds s s' : ubytes s' = ubytes s -> vector_holds v ds s -> vector_holds v ds s'.
Proof. intros E Hv. eapply Forall2_impl; [exact Hv|]. intros x d [Hl Hh]. split; [done|]. intros i c Hi. rewrite E. by apply Hh. Qed.

(** One round of the loop: the thread waits, and the whole vector is written
    from its first byte. *)
Lemma writev_round fuel fd fdmode v ds s r e k nbytes rv : uiov s = v -> vector_holds v ds s -> io_ready n t key ev (il s) ->
  pipe_write (concat ds) (ik s) = Ok ((r, e), k) -> e <> EINTR -> (0 < rfuel)%nat -> 0 < r -> - 2 ^ 31 <= rv + r < 2 ^ 31 -> - 2 ^ 31 <= nbytes < 2 ^ 31 ->
  exists l', io_ready n t key ev l' /\
    writev_loop switch popall mfuel efuel (mret tt) rfuel (S fuel) false key fd fdmode (length v) (IReal 0) (length v) nbytes 0 rv None s =
    if bool_decide (r < nbytes) then
      writev_loop switch popall mfuel efuel (mret tt) rfuel fuel false key fd fdmode (length v) (IReal 0) (length v) (nbytes - r) 0 (rv + r) None (set_ik k (set_il l' s))
    else Ok (Some (rv + r), set_ik k (set_il l' s)).
Proof.
  intros Hu Hv Hready E He Hf Hr Hrv Hn.
  destruct (wait_writeable_switch fd switch popall mfuel efuel (mret tt) n t key ev Hback Hefuel s Hready) as (l' & Hl' & Ew).
  exists l'. split; [done|]. cbn [writev_loop]. rewrite (bool_decide_eq_true_2 (0 < 1)) by done.
  rewrite (bind_run _ _ s (Some true) (set_il l' s)) by by apply Ew. cbv iota beta.
  assert (vector_holds v ds (set_il l' s)) as Hv' by by eapply vector_holds_ubytes.
  rewrite (bind_run _ _ _ _ _ (writev_call_pipe fd v ds (set_il l' s) r e k Hu Hv' E He Hf)).
  rewrite (bool_decide_eq_false_2 (r = -1)), (bool_decide_eq_true_2 (r > 0)) by lia. cbn [andb]. rewrite !swrap_small by lia.
  destruct (bool_decide (r < nbytes)).
  - by rewrite (bind_run _ _ _ (IReal 0, length v) (set_ik k (set_il l' s)) eq_refl).
  - rewrite (bool_decide_eq_false_2 (r < 0)) by lia. done.
Qed.

(** C34: [pth_writev] on a blocking descriptor that is full at first and then
    takes only [a] bytes: the vector is advanced by the number of descriptors
    [select] found (0 here), not by [a], so the next round sends the bytes from
    the first one on again.  The descriptor receives the first [a] bytes twice,
    and the result is larger than the request. *)
Theorem writev_resends v ds fd a sent la s :
  uiov s = v -> vector_holds v ds s -> io_ready n t key ev (il s) -> ik s = Pipe sent 0 la [-1; a] ->
  (0 < rfuel)%nat -> 0 <= fd < FD_SETSIZE -> (0 < length v <= Z.to_nat UIO_MAXIOV)%nat ->
  0 < a < Z.of_nat (length (concat ds)) -> a + Z.of_nat (length (concat ds)) < 2 ^ 31 ->
  exists s', pth_writev switch popall mfuel efuel (mret tt) rfuel false key fd (Z.of_nat (length v)) s = Ok (Some (a + Z.of_nat (length (concat ds))), s') /\
    pipe_sent (ik s') = sent ++ take (Z.to_nat a) (concat ds) ++ concat ds.
Proof.
  intros Hu Hv Hready Hk Hf Hfd Hcnt Ha Hmax. set (data := concat ds) in *. set (N := Z.of_nat (length data)) in *.
  pose (s1 := set_ik (Pipe sent O_NONBLOCK la [-1; a]) s). pose (s2 := set_errno EAGAIN (set_ik (Pipe sent O_NONBLOCK (-1) [a]) s1)).
  pose (s3 := set_errno EAGAIN (set_ik (Pipe sent 0 (-1) [a]) s2)).
  unfold pth_writev, pth_writev_ev. rewrite (bool_decide_eq_false_2 (Z.of_nat (length v) <= 0)) by lia.
  rewrite (bool_decide_eq_false_2 (Z.of_nat (length v) > UIO_MAXIOV)) by (unfold UIO_MAXIOV in *; lia). cbn [orb].
  rewrite (bind_run _ _ s PTH_FDMODE_BLOCK s1).
  2:{ unfold s1. destruct s as [l k ub er uv sv im fr en fs sl]. cbn in Hk. subst k. reflexivity. }
  rewrite (bool_decide_eq_false_2 (PTH_FDMODE_BLOCK = PTH_FDMODE_ERROR)) by done. rewrite Nat2Z.id.
  assert (vector_holds v ds s1) as Hv1 by by eapply vector_holds_ubytes.
  rewrite (bind_run _ _ s1 (-1) s2).
  2:{ apply (writev_call_pipe fd v ds s1 (-1) EAGAIN (Pipe sent O_NONBLOCK (-1) [a]) Hu Hv1); [|done|done].
      unfold pipe_write. cbn [ik set_ik s1 pipe_answers head default pipe_sent]. fold data. change (take _ data) with (@nil Z). by rewrite app_nil_r. }
  rewrite (bind_run get _ _ _ _ eq_refl). change (negb _ && _ && _) with true. cbv iota.
  rewrite (bind_run _ _ s2 tt s3) by reflexivity.
  pose proof (iov_list_run v 0 s3 Hu) as El. rewrite Nat.sub_0_r in El. rewrite (bind_run _ _ _ _ _ El).
  assert (vector_holds v ds s3) as Hv3 by by eapply vector_holds_ubytes. rewrite drop_0, (iov_bytes_total v ds s3 Hv3) by (fold data; lia). fold data N.
  rewrite (bind_run _ _ s3 (IReal 0, length v) s3 eq_refl). rewrite (bind_run _ _ s3 0 s3).
  2:{ unfold poll_fd, FD_SET, fd_ok. rewrite bool_decide_eq_true_2 by done. rewrite (bind_run _ _ s3 (Z.setbit 0 fd) s3 eq_refl).
      destruct rfuel as [|fuel]; [lia|]. reflexivity. }
  assert (pipe_write data (ik s3) = Ok ((a, EAGAIN), Pipe (sent ++ take (Z.to_nat a) data) 0 a [])) as E3.
  { unfold pipe_write. cbn [ik set_ik set_errno s3 pipe_answers head default pipe_sent tail pipe_flags]. unfold id.
    rewrite (bool_decide_eq_false_2 (a < 0)), (bool_decide_eq_false_2 (a = -2)) by lia. by rewrite Z.min_l by lia. }
  destruct (Z.to_nat N) as [|fuel] eqn:EN; [lia|].
  destruct (writev_round (S fuel) fd PTH_FDMODE_BLOCK v ds s3 a EAGAIN _ N 0 Hu Hv3 Hready E3) as (l4 & Hl4 & ->); [done|done|lia|lia|lia|].
  rewrite (bool_decide_eq_true_2 (a < N)) by lia. set (s4 := set_ik _ (set_il l4 s3)).
  assert (vector_holds v ds s4) as Hv4 by by eapply vector_holds_ubytes.
  assert (pipe_write data (ik s4) = Ok ((N, EAGAIN), Pipe ((sent ++ take (Z.to_nat a) data) ++ data) 0 N [])) as E4.
  { unfold pipe_write. cbn [ik set_ik set_il s4 pipe_answers head default pipe_sent tail pipe_flags]. unfold id.
    rewrite (bool_decide_eq_false_2 (Z.of_nat (length data) < 0)), (bool_decide_eq_false_2 (Z.of_nat (length data) = -2)) by lia.
    rewrite Z.min_id, Nat2Z.id, (take_ge data (length data)) by lia. done. }
  destruct (writev_round fuel fd PTH_FDMODE_BLOCK v ds s4 N EAGAIN _ (N - a) (0 + a) Hu Hv4 Hl4 E4) as (l5 & Hl5 & ->); [done|done|lia|lia|lia|].
  rewrite (bool_decide_eq_false_2 (N < N - a)) by lia. eexists. split; [reflexivity|]. cbn. by rewrite <- app_assoc.
Qed.
End resend.

(** Two vectors, [AB] and [CD]; three bytes are taken first. *)
Lemma writev_resends_witness :
  exists s', pth_writev (reschedule 1) (fun _ => mret tt) 0 1 (mret tt) 9 false 0 3 2
    (high_demo {[100 := 65; 101 := 66; 200 := 67; 201 := 68]} [Iov 100 2; Iov 200 2] (Pipe [] 0 0 [-1; 3])) = Ok (Some 7, s') /\
    pipe_sent (ik s') = [65; 66; 67; 65; 66; 67; 68].
Proof.
  apply (writev_resends (reschedule 1) (fun _ => mret tt) 0 1 9 1 8 0 5 (reschedule_returns 1 8 0 5) ltac:(lia) [Iov 100 2; Iov 200 2] [[65; 66]; [67; 68]] 3 3 [] 0).
  - reflexivity.
  - repeat constructor; intros [|[|]] c; cbn; intros Hc; try done; injection Hc as <-; vm_compute; reflexivity.
  - apply high_demo_ready.
  - reflexivity.
  - lia.
  - done.
  - vm_compute. lia.
  - done.
  - done.
Defined.

(** The copy leaves the first three bytes: one of the second element is left. *)
Lemma iov_advance_drops_witness :
  let s := high_demo ∅ [Iov 100 2; Iov 200 2] (Pipe [] 0 0 []) in
  exists q cnt c, pth_writev_iov_advance 2 3 INull 0 s = Ok ((q, cnt), set_siov c s) /\ addresses (elements q cnt (set_siov c s)) = [201].
Proof.
  intros s. destruct (iov_advance_drops 2 3 INull 0 s) as (q & cnt & c & E & _ & _ & Ha & _).
  - left. done.
  - cbn. lia.
  - cbn. lia.
  - vm_compute. repeat constructor; discriminate.
  - lia.
  - vm_compute. done.
  - exists q, cnt, c. split; [exact E|]. rewrite Ha. reflexivity.
Defined.

(** ** [readv] without the system call *)

Section faked.
Context {K : Type} `{Kernel K}.
Implicit Types (s : @io K) (v : list iovec).

Definition vector_total v : Z := foldr (fun x n => iov_len x + n) 0 v.

Lemma vector_total_pos v : Forall (fun x => 0 < iov_len x) v -> 0 <= vector_total v.
Proof. unfold vector_total. induction 1; cbn [foldr]; lia. Qed.

Lemma total_bytes_run v b : Forall (fun x => 0 < iov_len x) v -> 0 <= b -> b + vector_total v < 2 ^ 32 -> total_bytes v b = Some (b + vector_total v).
Proof.
  intros Hv. revert b. induction Hv as [|x v Hx Hv IH]; intros b Hb Hm; [cbn; f_equal; lia|].
  change (vector_total (x :: v)) with (iov_len x + vector_total v) in *. cbn [total_bytes]. pose proof (vector_total_pos v Hv). rewrite bool_decide_eq_false_2 by lia. rewrite wrap_small by lia. rewrite IH by lia. f_equal. lia.
Qed.

Lemma iov_store_nil v s : iov_store v [] s = Ok (tt, s).
Proof. induction v as [|x v IH]; [done|]. cbn [iov_store]. rewrite take_nil, drop_nil. by rewrite (bind_run _ _ s tt s eq_refl). Qed.

Lemma iov_store_full x v d : (length d <= Z.to_nat (iov_len x))%nat -> forall s, iov_store (x :: v) d s = write_bytes (iov_base x) d s.
Proof.
  intros Hd s. cbn [iov_store]. rewrite take_ge, drop_ge by done. unfold mbind, M_bind. destruct (write_bytes _ _ s) as [[[] s']|e]; [|done].
  by rewrite iov_store_nil.
Qed.

(** The scatter loop stores what [readv] stores, and leaves [buffer] behind the data. *)
Lemma scatter_stores v : forall buffer off bytes s, Forall (fun x => 0 < iov_len x) v -> 0 <= off -> 0 < bytes -> bytes <= vector_total v ->
  off + bytes <= Z.of_nat (length buffer) ->
  scatter v buffer off bytes s = (iov_store v (take (Z.to_nat bytes) (drop (Z.to_nat off) buffer));; mret (off + bytes, 0)) s.
Proof.
  induction v as [|x v IH]; intros buffer off bytes s Hv Ho Hb Ht Hl; [cbn in Ht; lia|].
  apply Forall_cons in Hv as [Hx Hv]. pose proof (vector_total_pos v Hv). change (vector_total (x :: v)) with (iov_len x + vector_total v) in Ht.
  cbn [scatter]. set (copy := pth_util_min (iov_len x) bytes).
  assert (copy = Z.min (iov_len x) bytes) as Ec by (unfold copy, pth_util_min; case_bool_decide; lia). clearbody copy.
  rewrite (bind_run _ _ s (take (Z.to_nat copy) (drop (Z.to_nat off) buffer)) s).
  2:{ unfold block_read. by rewrite bool_decide_eq_true_2 by lia. }
  set (d := take (Z.to_nat bytes) (drop (Z.to_nat off) buffer)).
  assert (length d = Z.to_nat bytes) as Hd by (unfold d; rewrite length_take, length_drop; lia).
  destruct (bool_decide (bytes - copy <= 0)) eqn:E.
  - apply bool_decide_eq_true in E. replace copy with bytes by lia. rewrite (bind_first _ _ _ s (iov_store_full x v d ltac:(lia) s)).
    apply bind_ext. intros [] s' _. rewrite Z.sub_diag. done.
  - apply bool_decide_eq_false in E. cbn [iov_store]. rewrite Ec, Z.min_l in * by lia. clear copy Ec.
    replace (take (Z.to_nat (iov_len x)) d) with (take (Z.to_nat (iov_len x)) (drop (Z.to_nat off) buffer)) by (unfold d; rewrite take_take; f_equal; lia).
    unfold mbind, M_bind at 1 2 3. destruct (write_bytes _ _ s) as [[[] s']|e]; [|done].
    rewrite IH by lia || done. replace (off + iov_len x + (bytes - iov_len x)) with (off + bytes) by lia.
    replace (drop (Z.to_nat (iov_len x)) d) with (take (Z.to_nat (bytes - iov_len x)) (drop (Z.to_nat (off + iov_len x)) buffer)).
    2:{ unfold d. rewrite skipn_firstn_comm, drop_drop. do 2 f_equal; lia. }
    done.
Qed.

(** [pth_readv_faked], which replaces [readv] by one [read] into a block of
    memory, stores what [readv] stores and returns the number of bytes, for
    every vector.  But it gives the block back behind the data it has copied
    and with the size 0. *)
Theorem readv_faked_equiv v fd d e k' buffer rest s s' :
  Forall (fun x => 0 < iov_len x) v -> vector_total v < 2 ^ 31 -> io_mallocs s = Some buffer :: rest -> Z.of_nat (length buffer) = vector_total v ->
  k_read fd (vector_total v) (ik s) = Ok (Z.of_nat (length d), e, d, k') -> (0 < length d)%nat -> Z.of_nat (length d) <= vector_total v ->
  iov_store v d (set_ik k' (set_io_mallocs rest s)) = Ok (tt, s') ->
  pth_readv_faked fd v s = Ok (Z.of_nat (length d), set_io_freed (io_freed s' ++ [(Z.of_nat (length d), 0)]) s').
Proof.
  intros Hv Hm Hmal Hbuf E Hd1 Hd2 Es. pose proof (vector_total_pos v Hv). unfold pth_readv_faked. rewrite total_bytes_run, Z.add_0_l by lia || done.
  rewrite bool_decide_eq_false_2 by lia. set (s1 := set_io_mallocs rest s). rewrite (bind_run _ _ s (Some buffer) s1).
  2:{ unfold malloc_buffer. rewrite (bind_run get _ _ _ _ eq_refl), Hmal. done. }
  set (s2 := set_ik k' s1). rewrite (bind_run _ _ s1 (Z.of_nat (length d), d) s2).
  2:{ unfold sc_with. rewrite (bind_run _ _ s1 (Z.of_nat (length d), e, d) s2) by (unfold zoom; change (ik s1) with (ik s); by rewrite E).
      cbv beta iota. by rewrite (bool_decide_eq_false_2 (Z.of_nat (length d) = -1)) by lia. }
  cbv beta iota. set (b := take 0 buffer ++ d ++ drop (0 + length d) buffer). rewrite (bind_run _ _ s2 b s2).
  2:{ unfold block_write. by rewrite bool_decide_eq_true_2 by lia. }
  rewrite wrap_small by lia. rewrite (bool_decide_eq_true_2 (Z.of_nat (length d) > 0)) by lia.
  rewrite (bind_run _ _ s2 (Z.of_nat (length d), 0) s').
  2:{ assert (length b = length buffer) as Hlb by (unfold b; rewrite !length_app, length_take, length_drop; lia).
      rewrite scatter_stores by lia || done. change (drop (Z.to_nat 0) b) with b. rewrite Nat2Z.id.
      replace (take (length d) b) with d; [|unfold b; rewrite take_0; cbn [app]; by rewrite take_app_length].
      rewrite (bind_run _ _ _ _ _ Es). done. }
  cbv beta iota. rewrite swrap_small by lia. done.
Qed.
End faked.

(** Three bytes wait in the pipe, for elements of two and four. *)
Lemma readv_faked_equiv_witness :
  let s := set_io_mallocs [Some (replicate 6 0)]
    (high_demo {[100 := 0; 101 := 0; 200 := 0]} [] (Pipe [65; 66; 67] 0 0 [])) in
  exists s', pth_readv_faked 3 [Iov 100 2; Iov 200 4] s = Ok (3, s') /\
    ubytes s' !! 101 = Some 66 /\ ubytes s' !! 200 = Some 67 /\ io_freed s' = [(3, 0)].
Proof.
  intros s. destruct (iov_store [Iov 100 2; Iov 200 4] [65; 66; 67] (set_ik (Pipe [] 0 0 []) (set_io_mallocs [] s))) as [[[] s']|] eqn:Es.
  - exists (set_io_freed (io_freed s' ++ [(3, 0)]) s'). split.
    + apply (readv_faked_equiv [Iov 100 2; Iov 200 4] 3 [65; 66; 67] 0 (Pipe [] 0 0 []) (replicate 6 0) [] s s'); try exact Es; try reflexivity; try done.
      * repeat constructor.
      * cbn. lia.
    + vm_compute in Es. injection Es as <-. repeat split; reflexivity.
  - vm_compute in Es. done.
Defined.
