(* ===== verification/Native.v ===== *)
(** * Native threads (pth_native.c; start and end of the library, pth_lib.c)

    The table of native threads, their creation and their end, the watchdog,
    [pth_init] and [pth_kill], and how the running code finds its own
    descriptor.  The descriptors are those of World; [nv] adds what only these
    functions use.  System calls are parameters: their answers, what a new
    native does before its creator goes on, and what the others do during
    [nanosleep]; closed pipes, signals and exits are recorded.  Contexts
    made with [sigaltstack] are in Mctx and the debugger's reports in TdManager;
    thread register setup is left out ([INIT_NATIVE_SELF] sets [self]). *)

From S2P Require Import Prelude Bitmap Dll LinkedList Ring Priorities PQueue Time Msg Futex World Sync Event Util Sched Attr Lib.

Definition PTH_MAX_NATIVE_THREADS : Z := 128.
Definition SIGKILL : Z := 9.
Definition PTH_MAX_STACK_SIZE : Z := 8 * 1024 * 1024.
Definition PTHREAD_STACK_MIN : Z := 16384.

(** Which descriptor: of the table, or [pth_watchdog_descr] *)
Inductive ndesc : Set := Slot (n : nat) | Watchdog.

(** The members of [struct pth_descr_st] for the stack *)
Record nstack : Set := NStack { n_stacksize : Z; n_true_stack : Z; n_stack : Z; n_stack_top : Z; n_sched_index : Z }.

Inductive kcall : Set := KClose (slot : nat) | KKill (tid sig : Z) | KExit (slot : nat).

(** A handler of [pth_fork]: one of the program, or one of the three callbacks
    of [pthread_atfork], whose argument is an entry of its own table.  Handlers
    and arguments are addresses, 0 is NULL. *)
Record pth_atfork_st : Set := Atfork { af_prepare : Z; af_parent : Z; af_child : Z; af_arg : Z }.
Definition no_atfork : pth_atfork_st := Atfork 0 0 0 0.

(** The start of the file of the shared area *)
Record shared_header : Set := Shared { sh_verid : Z; sh_addr : Z; sh_num_objs : Z }.

(** [n_mallocs]: what [pth_malloc] will answer; [n_freed]: what was given to
    [pth_free_mem]; [tqueue]: the members of [pth_threads_queue], with the flag
    [magic] of World. *)
Record nv : Set := Nv {
  na : ast;
  stacks : list nstack;
  wd : pth_descr_st;
  wd_stack : nstack;
  pth_watchdog_enabled : bool;
  pth_initialized_minimal : bool;
  pth_initialized : bool;
  pth_initializing : bool;
  pth_shutdown_inprogress : bool;
  pth_default_stacksize : Z;
  pth_threads_per_native : Z;
  pth_native_lock : pth_qlock_st;
  pth_key_lock : pth_qlock_st;
  pth_usr1_lock : pth_qlock_st;
  pth_exit_lock : pth_qlock_st;
  n_mallocs : list (option Z);
  n_freed : list (Z * Z);
  kcalls : list kcall;
  tqueue : list nat;
  pth_atfork_list : list pth_atfork_st;
  pth_atfork_idx : Z;
  pth_fork_initialized : bool;
  pth_shared_fd : Z;
  pth_shared_area : option shared_header }.

Definition set_na (v : ast) (s : nv) : nv := Nv v (stacks s) (wd s) (wd_stack s) (pth_watchdog_enabled s) (pth_initialized_minimal s) (pth_initialized s) (pth_initializing s) (pth_shutdown_inprogress s) (pth_default_stacksize s) (pth_threads_per_native s) (pth_native_lock s) (pth_key_lock s) (pth_usr1_lock s) (pth_exit_lock s) (n_mallocs s) (n_freed s) (kcalls s) (tqueue s) (pth_atfork_list s) (pth_atfork_idx s) (pth_fork_initialized s) (pth_shared_fd s) (pth_shared_area s).
Definition set_stacks (v : list nstack) (s : nv) : nv := Nv (na s) v (wd s) (wd_stack s) (pth_watchdog_enabled s) (pth_initialized_minimal s) (pth_initialized s) (pth_initializing s) (pth_shutdown_inprogress s) (pth_default_stacksize s) (pth_threads_per_native s) (pth_native_lock s) (pth_key_lock s) (pth_usr1_lock s) (pth_exit_lock s) (n_mallocs s) (n_freed s) (kcalls s) (tqueue s) (pth_atfork_list s) (pth_atfork_idx s) (pth_fork_initialized s) (pth_shared_fd s) (pth_shared_area s).
Definition set_wd (v : pth_descr_st) (s : nv) : nv := Nv (na s) (stacks s) v (wd_stack s) (pth_watchdog_enabled s) (pth_initialized_minimal s) (pth_initialized s) (pth_initializing s) (pth_shutdown_inprogress s) (pth_default_stacksize s) (pth_threads_per_native s) (pth_native_lock s) (pth_key_lock s) (pth_usr1_lock s) (pth_exit_lock s) (n_mallocs s) (n_freed s) (kcalls s) (tqueue s) (pth_atfork_list s) (pth_atfork_idx s) (pth_fork_initialized s) (pth_shared_fd s) (pth_shared_area s).
Definition set_wd_stack (v : nstack) (s : nv) : nv := Nv (na s) (stacks s) (wd s) v (pth_watchdog_enabled s) (pth_initialized_minimal s) (pth_initialized s) (pth_initializing s) (pth_shutdown_inprogress s) (pth_default_stacksize s) (pth_threads_per_native s) (pth_native_lock s) (pth_key_lock s) (pth_usr1_lock s) (pth_exit_lock s) (n_mallocs s) (n_freed s) (kcalls s) (tqueue s) (pth_atfork_list s) (pth_atfork_idx s) (pth_fork_initialized s) (pth_shared_fd s) (pth_shared_area s).
Definition set_pth_watchdog_enabled (v : bool) (s : nv) : nv := Nv (na s) (stacks s) (wd s) (wd_stack s) v (pth_initialized_minimal s) (pth_initialized s) (pth_initializing s) (pth_shutdown_inprogress s) (pth_default_stacksize s) (pth_threads_per_native s) (pth_native_lock s) (pth_key_lock s) (pth_usr1_lock s) (pth_exit_lock s) (n_mallocs s) (n_freed s) (kcalls s) (tqueue s) (pth_atfork_list s) (pth_atfork_idx s) (pth_fork_initialized s) (pth_shared_fd s) (pth_shared_area s).
Definition set_pth_initialized_minimal (v : bool) (s : nv) : nv := Nv (na s) (stacks s) (wd s) (wd_stack s) (pth_watchdog_enabled s) v (pth_initialized s) (pth_initializing s) (pth_shutdown_inprogress s) (pth_default_stacksize s) (pth_threads_per_native s) (pth_native_lock s) (pth_key_lock s) (pth_usr1_lock s) (pth_exit_lock s) (n_mallocs s) (n_freed s) (kcalls s) (tqueue s) (pth_atfork_list s) (pth_atfork_idx s) (pth_fork_initialized s) (pth_shared_fd s) (pth_shared_area s).
Definition set_pth_initialized (v : bool) (s : nv) : nv := Nv (na s) (stacks s) (wd s) (wd_stack s) (pth_watchdog_enabled s) (pth_initialized_minimal s) v (pth_initializing s) (pth_shutdown_inprogress s) (pth_default_stacksize s) (pth_threads_per_native s) (pth_native_lock s) (pth_key_lock s) (pth_usr1_lock s) (pth_exit_lock s) (n_mallocs s) (n_freed s) (kcalls s) (tqueue s) (pth_atfork_list s) (pth_atfork_idx s) (pth_fork_initialized s) (pth_shared_fd s) (pth_shared_area s).
Definition set_pth_initializing (v : bool) (s : nv) : nv := Nv (na s) (stacks s) (wd s) (wd_stack s) (pth_watchdog_enabled s) (pth_initialized_minimal s) (pth_initialized s) v (pth_shutdown_inprogress s) (pth_default_stacksize s) (pth_threads_per_native s) (pth_native_lock s) (pth_key_lock s) (pth_usr1_lock s) (pth_exit_lock s) (n_mallocs s) (n_freed s) (kcalls s) (tqueue s) (pth_atfork_list s) (pth_atfork_idx s) (pth_fork_initialized s) (pth_shared_fd s) (pth_shared_area s).
Definition set_pth_shutdown_inprogress (v : bool) (s : nv) : nv := Nv (na s) (stacks s) (wd s) (wd_stack s) (pth_watchdog_enabled s) (pth_initialized_minimal s) (pth_initialized s) (pth_initializing s) v (pth_default_stacksize s) (pth_threads_per_native s) (pth_native_lock s) (pth_key_lock s) (pth_usr1_lock s) (pth_exit_lock s) (n_mallocs s) (n_freed s) (kcalls s) (tqueue s) (pth_atfork_list s) (pth_atfork_idx s) (pth_fork_initialized s) (pth_shared_fd s) (pth_shared_area s).
Definition set_pth_default_stacksize (v : Z) (s : nv) : nv := Nv (na s) (stacks s) (wd s) (wd_stack s) (pth_watchdog_enabled s) (pth_initialized_minimal s) (pth_initialized s) (pth_initializing s) (pth_shutdown_inprogress s) v (pth_threads_per_native s) (pth_native_lock s) (pth_key_lock s) (pth_usr1_lock s) (pth_exit_lock s) (n_mallocs s) (n_freed s) (kcalls s) (tqueue s) (pth_atfork_list s) (pth_atfork_idx s) (pth_fork_initialized s) (pth_shared_fd s) (pth_shared_area s).
Definition set_pth_threads_per_native (v : Z) (s : nv) : nv := Nv (na s) (stacks s) (wd s) (wd_stack s) (pth_watchdog_enabled s) (pth_initialized_minimal s) (pth_initialized s) (pth_initializing s) (pth_shutdown_inprogress s) (pth_default_stacksize s) v (pth_native_lock s) (pth_key_lock s) (pth_usr1_lock s) (pth_exit_lock s) (n_mallocs s) (n_freed s) (kcalls s) (tqueue s) (pth_atfork_list s) (pth_atfork_idx s) (pth_fork_initialized s) (pth_shared_fd s) (pth_shared_area s).
Definition set_pth_native_lock (v : pth_qlock_st) (s : nv) : nv := Nv (na s) (stacks s) (wd s) (wd_stack s) (pth_watchdog_enabled s) (pth_initialized_minimal s) (pth_initialized s) (pth_initializing s) (pth_shutdown_inprogress s) (pth_default_stacksize s) (pth_threads_per_native s) v (pth_key_lock s) (pth_usr1_lock s) (pth_exit_lock s) (n_mallocs s) (n_freed s) (kcalls s) (tqueue s) (pth_atfork_list s) (pth_atfork_idx s) (pth_fork_initialized s) (pth_shared_fd s) (pth_shared_area s).
Definition set_pth_key_lock (v : pth_qlock_st) (s : nv) : nv := Nv (na s) (stacks s) (wd s) (wd_stack s) (pth_watchdog_enabled s) (pth_initialized_minimal s) (pth_initialized s) (pth_initializing s) (pth_shutdown_inprogress s) (pth_default_stacksize s) (pth_threads_per_native s) (pth_native_lock s) v (pth_usr1_lock s) (pth_exit_lock s) (n_mallocs s) (n_freed s) (kcalls s) (tqueue s) (pth_atfork_list s) (pth_atfork_idx s) (pth_fork_initialized s) (pth_shared_fd s) (pth_shared_area s).
Definition set_pth_usr1_lock (v : pth_qlock_st) (s : nv) : nv := Nv (na s) (stacks s) (wd s) (wd_stack s) (pth_watchdog_enabled s) (pth_initialized_minimal s) (pth_initialized s) (pth_initializing s) (pth_shutdown_inprogress s) (pth_default_stacksize s) (pth_threads_per_native s) (pth_native_lock s) (pth_key_lock s) v (pth_exit_lock s) (n_mallocs s) (n_freed s) (kcalls s) (tqueue s) (pth_atfork_list s) (pth_atfork_idx s) (pth_fork_initialized s) (pth_shared_fd s) (pth_shared_area s).
Definition set_pth_exit_lock (v : pth_qlock_st) (s : nv) : nv := Nv (na s) (stacks s) (wd s) (wd_stack s) (pth_watchdog_enabled s) (pth_initialized_minimal s) (pth_initialized s) (pth_initializing s) (pth_shutdown_inprogress s) (pth_default_stacksize s) (pth_threads_per_native s) (pth_native_lock s) (pth_key_lock s) (pth_usr1_lock s) v (n_mallocs s) (n_freed s) (kcalls s) (tqueue s) (pth_atfork_list s) (pth_atfork_idx s) (pth_fork_initialized s) (pth_shared_fd s) (pth_shared_area s).
Definition set_n_mallocs (v : list (option Z)) (s : nv) : nv := Nv (na s) (stacks s) (wd s) (wd_stack s) (pth_watchdog_enabled s) (pth_initialized_minimal s) (pth_initialized s) (pth_initializing s) (pth_shutdown_inprogress s) (pth_default_stacksize s) (pth_threads_per_native s) (pth_native_lock s) (pth_key_lock s) (pth_usr1_lock s) (pth_exit_lock s) v (n_freed s) (kcalls s) (tqueue s) (pth_atfork_list s) (pth_atfork_idx s) (pth_fork_initialized s) (pth_shared_fd s) (pth_shared_area s).
Definition set_n_freed (v : list (Z * Z)) (s : nv) : nv := Nv (na s) (stacks s) (wd s) (wd_stack s) (pth_watchdog_enabled s) (pth_initialized_minimal s) (pth_initialized s) (pth_initializing s) (pth_shutdown_inprogress s) (pth_default_stacksize s) (pth_threads_per_native s) (pth_native_lock s) (pth_key_lock s) (pth_usr1_lock s) (pth_exit_lock s) (n_mallocs s) v (kcalls s) (tqueue s) (pth_atfork_list s) (pth_atfork_idx s) (pth_fork_initialized s) (pth_shared_fd s) (pth_shared_area s).
Definition set_kcalls (v : list kcall) (s : nv) : nv := Nv (na s) (stacks s) (wd s) (wd_stack s) (pth_watchdog_enabled s) (pth_initialized_minimal s) (pth_initialized s) (pth_initializing s) (pth_shutdown_inprogress s) (pth_default_stacksize s) (pth_threads_per_native s) (pth_native_lock s) (pth_key_lock s) (pth_usr1_lock s) (pth_exit_lock s) (n_mallocs s) (n_freed s) v (tqueue s) (pth_atfork_list s) (pth_atfork_idx s) (pth_fork_initialized s) (pth_shared_fd s) (pth_shared_area s).
Definition set_tqueue (v : list nat) (s : nv) : nv := Nv (na s) (stacks s) (wd s) (wd_stack s) (pth_watchdog_enabled s) (pth_initialized_minimal s) (pth_initialized s) (pth_initializing s) (pth_shutdown_inprogress s) (pth_default_stacksize s) (pth_threads_per_native s) (pth_native_lock s) (pth_key_lock s) (pth_usr1_lock s) (pth_exit_lock s) (n_mallocs s) (n_freed s) (kcalls s) v (pth_atfork_list s) (pth_atfork_idx s) (pth_fork_initialized s) (pth_shared_fd s) (pth_shared_area s).
Definition set_pth_atfork_list (v : list pth_atfork_st) (s : nv) : nv := Nv (na s) (stacks s) (wd s) (wd_stack s) (pth_watchdog_enabled s) (pth_initialized_minimal s) (pth_initialized s) (pth_initializing s) (pth_shutdown_inprogress s) (pth_default_stacksize s) (pth_threads_per_native s) (pth_native_lock s) (pth_key_lock s) (pth_usr1_lock s) (pth_exit_lock s) (n_mallocs s) (n_freed s) (kcalls s) (tqueue s) v (pth_atfork_idx s) (pth_fork_initialized s) (pth_shared_fd s) (pth_shared_area s).
Definition set_pth_atfork_idx (v : Z) (s : nv) : nv := Nv (na s) (stacks s) (wd s) (wd_stack s) (pth_watchdog_enabled s) (pth_initialized_minimal s) (pth_initialized s) (pth_initializing s) (pth_shutdown_inprogress s) (pth_default_stacksize s) (pth_threads_per_native s) (pth_native_lock s) (pth_key_lock s) (pth_usr1_lock s) (pth_exit_lock s) (n_mallocs s) (n_freed s) (kcalls s) (tqueue s) (pth_atfork_list s) v (pth_fork_initialized s) (pth_shared_fd s) (pth_shared_area s).
Definition set_pth_fork_initialized (v : bool) (s : nv) : nv := Nv (na s) (stacks s) (wd s) (wd_stack s) (pth_watchdog_enabled s) (pth_initialized_minimal s) (pth_initialized s) (pth_initializing s) (pth_shutdown_inprogress s) (pth_default_stacksize s) (pth_threads_per_native s) (pth_native_lock s) (pth_key_lock s) (pth_usr1_lock s) (pth_exit_lock s) (n_mallocs s) (n_freed s) (kcalls s) (tqueue s) (pth_atfork_list s) (pth_atfork_idx s) v (pth_shared_fd s) (pth_shared_area s).
Definition set_pth_shared_fd (v : Z) (s : nv) : nv := Nv (na s) (stacks s) (wd s) (wd_stack s) (pth_watchdog_enabled s) (pth_initialized_minimal s) (pth_initialized s) (pth_initializing s) (pth_shutdown_inprogress s) (pth_default_stacksize s) (pth_threads_per_native s) (pth_native_lock s) (pth_key_lock s) (pth_usr1_lock s) (pth_exit_lock s) (n_mallocs s) (n_freed s) (kcalls s) (tqueue s) (pth_atfork_list s) (pth_atfork_idx s) (pth_fork_initialized s) v (pth_shared_area s).
Definition set_pth_shared_area (v : option shared_header) (s : nv) : nv := Nv (na s) (stacks s) (wd s) (wd_stack s) (pth_watchdog_enabled s) (pth_initialized_minimal s) (pth_initialized s) (pth_initializing s) (pth_shutdown_inprogress s) (pth_default_stacksize s) (pth_threads_per_native s) (pth_native_lock s) (pth_key_lock s) (pth_usr1_lock s) (pth_exit_lock s) (n_mallocs s) (n_freed s) (kcalls s) (tqueue s) (pth_atfork_list s) (pth_atfork_idx s) (pth_fork_initialized s) (pth_shared_fd s) v.

Definition ons {A} : M sst A -> M nv A := zoom (fun s => ss (na s)) (fun l s => set_na (set_ss l (na s)) s).
Definition onnw {A} (c : M world A) : M nv A := ons (onw c).
Definition ona' {A} : M ast A -> M nv A := zoom na set_na.

Definition note (c : kcall) : M nv unit := modify (fun s => set_kcalls (kcalls s ++ [c]) s).
Definition free_mem (p size : Z) : M nv unit := modify (fun s => set_n_freed (n_freed s ++ [(p, size)]) s).
Definition malloc : M nv (option Z) :=
  s ← get;
  match n_mallocs s with
  | [] => fail Stuck
  | b :: l => modify (set_n_mallocs l);; mret b
  end.

(** ** Descriptors and locks *)

Definition zero_descr : pth_descr_st := Descr false 0 0 None None false 0 qlock_free false false false None.
Definition zero_nstack : nstack := NStack 0 0 0 0 0.

Definition upd_descr (x : ndesc) (f : pth_descr_st -> pth_descr_st) : M nv unit :=
  match x with
  | Slot n => onnw (upd_d n f)
  | Watchdog => modify (fun s => set_wd (f (wd s)) s)
  end.
Definition get_stack (x : ndesc) : M nv nstack :=
  s ← get;
  match x with Slot n => of_option OutOfBounds (stacks s !! n) | Watchdog => mret (wd_stack s) end.
Definition put_stack (x : ndesc) (v : nstack) : M nv unit :=
  match x with
  | Slot n => s ← get; of_option OutOfBounds (stacks s !! n);; modify (fun s => set_stacks (<[n := v]> (stacks s)) s)
  | Watchdog => modify (set_wd_stack v)
  end.

Definition number_of_natives : M nv Z := s ← get; mret (pth_number_of_natives (wo (ss (na s)))).
Definition add_natives (k : Z) : M nv unit := onnw (modify (fun w => set_pth_number_of_natives (swrap 32 (pth_number_of_natives w + k)) w)).

Definition acquire (l : nv -> pth_qlock_st) (put : pth_qlock_st -> nv -> nv) (tid : Z) : M nv unit :=
  s ← get; k ← of_res (_pth_acquire_lock tid (l s)); modify (put k).
Definition release (l : nv -> pth_qlock_st) (put : pth_qlock_st -> nv -> nv) (tid : Z) : M nv unit :=
  modify (fun s => put (_pth_release_lock tid (l s)).2 s).
Definition native_acquire : Z -> M nv unit := acquire pth_native_lock set_pth_native_lock.
Definition native_release : Z -> M nv unit := release pth_native_lock set_pth_native_lock.
Definition exit_acquire : Z -> M nv unit := acquire pth_exit_lock set_pth_exit_lock.
Definition exit_release : Z -> M nv unit := release pth_exit_lock set_pth_exit_lock.
(** [if (lock.owner == tid) _pth_release_lock(&lock, tid)] *)
Definition key_unlock (tid : Z) : M nv unit :=
  s ← get; if bool_decide (owner (pth_key_lock s) = tid) then release pth_key_lock set_pth_key_lock tid else mret tt.
Definition usr1_unlock (tid : Z) : M nv unit :=
  s ← get; if bool_decide (owner (pth_usr1_lock s) = tid) then release pth_usr1_lock set_pth_usr1_lock tid else mret tt.

(** [current_tid()] *)
Definition current_tid : M nv Z := '(_, d) ← onnw my_descr; mret (tid d).

Section natives.
(** The page size, the pid; the tid of the calling native *)
Context (pagesize getpid : Z) (gettid : M nv Z).
(** [clone]: the pid of the new native, or -1 *)
Context (clone : ndesc -> M nv Z).
(** What happens elsewhere during [nanosleep]; a bound for the waiting *)
Context (elsewhere : M nv unit) (wfuel : nat).
Context (switch : M sst unit) (destroy : last_call -> nat -> M sst unit).
(** The clock, [pth_new_native] as [pth_spawn] calls it (see Lib), the context
    of a thread, the names of threads without one *)
Context (time_now : sst -> Z) (nn : Z -> option nat -> M ast (option nat)) (mctx_set : bool) (child_name : list Z).
(** [pipe()] succeeds; the address of the name of schedulers; [pth_scheduler] *)
Context (pipe_ok : M nv bool) (sched_name sched_func : Z).

(** [pth_tcb_free], which takes the thread out of [pth_threads_queue], unless it
    is a scheduler *)
Definition tcb_free (t : option nat) : M nv unit :=
  s ← get;
  ons (pth_tcb_free destroy t);;
  match t with
  | None => mret tt
  | Some t =>
      match tx (ss (na s)) !! t with
      | Some x => if is_scheduler x then mret tt else modify (fun s => set_tqueue (filter (fun u => u <> t) (tqueue s)) s)
      | None => mret tt
      end
  end.

(** ** Creation *)

(** The result is the descriptor, in the table or of the watchdog.  The queues
    of the watchdog, which nobody uses, are not modelled. *)
Definition pth_alloc_native (create_stack is_watchdog : bool) : M nv (option ndesc) :=
  n0 ← number_of_natives;
  let x := if is_watchdog then Watchdog else Slot (Z.to_nat n0) in
  (if is_watchdog then mret tt else add_natives 1);;
  n ← number_of_natives;
  if bool_decide (n >= PTH_MAX_NATIVE_THREADS - 1) then add_natives (-1);; mret None
  else
    upd_descr x (fun _ => zero_descr);;
    put_stack x (NStack 0 0 0 0 (n - 1));;
    (match x with
     | Watchdog => mret tt
     | Slot k =>
         ons (upd_dx k (fun _ => Dcb None 0 0));;
         ons (onq (pqueue_init (WaitQ k)));;
         ons (onq (pqueue_init (NewQ k)));;
         ons (onq (pqueue_init (ReadyQ k)))
     end);;
    if negb create_stack then mret (Some x)
    else
      let size := pagesize + 8 in
      b ← malloc;
      match b with
      | None => (if is_watchdog then mret tt else add_natives (-1));; mret None
      | Some p =>
          let stack := if bool_decide (p mod 16 = 0) then p else p + 8 in
          put_stack x (NStack size p stack (stack + size) (n - 1));;
          mret (Some x)
      end.

(** A bound native without a thread *)
Fixpoint reuse_scan (fuel slot : nat) : M nv (option nat) :=
  match fuel with
  | O => fail Stuck
  | S fuel =>
      d ← onnw (get_d slot);
      if is_used d then
        if is_bounded d && bool_decide (bounded_thread d = None) then mret (Some slot) else reuse_scan fuel (S slot)
      else mret None
  end.

Definition pth_new_native (scope : Z) (t : option nat) : M nv (option nat) :=
  tid' ← current_tid;
  native_acquire tid';;
  f ← onnw (get_d 0);
  if negb (is_running f) then native_release tid';; mret None
  else
    s ← get;
    r ← (if bool_decide (scope = PTH_SCOPE_SYSTEM) then reuse_scan (S (length (natives (wo (ss (na s)))))) 1 else mret None);
    match r with
    | Some k => native_release tid';; mret (Some k)
    | None =>
        a ← pth_alloc_native true false;
        match a with
        | None => native_release tid';; mret None
        | Some Watchdog => fail Undefined
        | Some (Slot k) =>
            (if bool_decide (t = None) then mret tt else upd_descr (Slot k) (set_bounded_thread t));;
            native_release tid';;
            (if bool_decide (scope = PTH_SCOPE_SYSTEM) then upd_descr (Slot k) (set_is_bounded true) else mret tt);;
            p ← clone (Slot k);
            if bool_decide (p = -1) then
              add_natives (-1);;
              st ← get_stack (Slot k);
              free_mem (n_true_stack st) (n_stacksize st);;
              upd_descr (Slot k) (set_is_used false);;
              mret None
            else mret (Some k)
        end
    end.

Definition pth_new_watchdog : M nv Z :=
  tid' ← gettid;
  native_acquire tid';;
  s ← get;
  if pth_watchdog_enabled s then native_release tid';; mret (-1)
  else
    modify (set_pth_watchdog_enabled true);;
    native_release tid';;
    a ← pth_alloc_native true true;
    match a with
    | None => mret (-1)
    | Some x =>
        p ← clone x;
        (if bool_decide (p = -1) then
           st ← get_stack x;
           free_mem (n_true_stack st) (n_stacksize st);;
           upd_descr x (set_is_used false)
         else mret tt);;
        mret p
    end.

(** The natives that are neither bound nor bounded are woken. *)
Fixpoint wake_idle (fuel slot : nat) : M nv unit :=
  match fuel with
  | O => fail Stuck
  | S fuel =>
      d ← onnw (get_d slot);
      if is_used d then
        (if negb (is_bounded d) && negb (is_bound d) then onnw (pipe_write slot) else mret tt);;
        wake_idle fuel (S slot)
      else mret tt
  end.

(** The watchdog's loop; [elsewhere] while it sleeps *)
Fixpoint watchdog_loop (fuel : nat) : M nv unit :=
  match fuel with
  | O => fail Stuck
  | S fuel =>
      s ← get;
      if pth_watchdog_enabled s then
        elsewhere;;
        r ← ons (onq (__pqueue_total RQ));
        q ← ons (onq (pqueue_total NQ));
        s ← get;
        (if bool_decide (r + q > 0) then wake_idle (S (length (natives (wo (ss (na s)))))) 1 else mret tt);;
        watchdog_loop fuel
      else mret tt
  end.
Definition pth_watchdog (fuel : nat) : M nv Z :=
  tid' ← gettid;
  upd_descr Watchdog (set_pid getpid);;
  upd_descr Watchdog (set_tid tid');;
  upd_descr Watchdog (set_is_bound true);;
  upd_descr Watchdog (set_is_used true);;
  watchdog_loop fuel;;
  upd_descr Watchdog (set_is_used false);;
  mret 0.

(** ** The end of a native *)

Definition lock_native (n : nat) (tid' : Z) : M nv unit := ons (lock_sched n tid').
Definition unlock_native (n : nat) (tid' : Z) : M nv unit := ons (unlock_sched n tid').

(** "for the first native: loop and wait until all native threads exit" *)
Fixpoint await_others (fuel : nat) (tid' : Z) : M nv unit :=
  match fuel with
  | O => fail Stuck
  | S fuel =>
      n ← number_of_natives;
      if bool_decide (n > 1) then native_release tid';; elsewhere;; native_acquire tid';; await_others fuel tid' else mret tt
  end.
(** "wait til control is back to scheduler"; [false]: the native has gone. *)
Fixpoint await_sched (fuel : nat) (slot : nat) (tid' : Z) : M nv bool :=
  match fuel with
  | O => fail Stuck
  | S fuel =>
      d ← onnw (get_d slot);
      if bool_decide (current d = sched d) then mret true
      else
        unlock_native slot tid';; elsewhere;; lock_native slot tid';;
        d ← onnw (get_d slot);
        if is_used d then await_sched fuel slot tid' else mret false
  end.

(** The spin lock of the dead queue is free between two calls (see PQueue): a
    native that ends does not hold it. *)
Definition pth_cleanup_native (slot : nat) : M nv unit :=
  d ← onnw (get_d slot);
  if is_used d then
    f ← onnw (get_d 0);
    (if bool_decide (slot = 0%nat) then await_others wfuel (tid f) else mret tt);;
    there ← (if negb (bool_decide (slot = 0%nat)) && negb (is_bounded d) then await_sched wfuel slot (tid f) else mret true);
    if negb there then mret tt
    else
      note (KClose slot);;
      st ← get_stack (Slot slot);
      (if bool_decide (n_sched_index st = 0) then mret tt else upd_descr (Slot slot) (set_current None));;
      d ← onnw (get_d slot);
      tcb_free (sched d);;
      if bool_decide (slot = 0%nat) then mret tt
      else
        free_mem (n_true_stack st) (n_stacksize st);;
        upd_descr (Slot slot) (set_is_used false);;
        add_natives (-1);;
        d ← onnw (get_d slot);
        (if negb (bool_decide (tid d = 0)) && bool_decide (pid d = getpid) then note (KKill (tid d) SIGKILL) else mret tt);;
        key_unlock (tid d);;
        usr1_unlock (tid d)
  else mret tt.

(** The natives from [slot] on *)
Fixpoint drop_loop (cnt slot : nat) (tid' : Z) : M nv unit :=
  match cnt with
  | O => mret tt
  | S cnt =>
      lock_native slot tid';;
      d ← onnw (get_d slot);
      (if is_running d then
         upd_descr (Slot slot) (set_is_running false);;
         (if is_bounded d && negb (bool_decide (current d = sched d)) then
            note (KKill (tid d) SIGKILL);;
            key_unlock (tid d);;
            tcb_free (current d)
          else mret tt);;
         pth_cleanup_native slot
       else mret tt);;
      unlock_native slot tid';;
      drop_loop cnt (S slot) tid'
  end.

Definition pth_drop_natives : M nv unit :=
  f ← onnw (get_d 0);
  modify (set_pth_watchdog_enabled false);;
  s ← get;
  (if is_used (wd s) then
     upd_descr Watchdog (set_is_used false);;
     free_mem (n_true_stack (wd_stack s)) (n_stacksize (wd_stack s));;
     (if bool_decide (pid (wd s) = getpid) then note (KKill (tid (wd s)) SIGKILL) else mret tt)
   else mret tt);;
  native_acquire (tid f);;
  upd_descr (Slot 0) (set_is_running false);;
  count ← number_of_natives;
  native_release (tid f);;
  drop_loop (Z.to_nat (count - 1)) 1 (tid f);;
  native_acquire (tid f);;
  pth_cleanup_native 0;;
  native_release (tid f).

(** The ready threads of a native that ends, each one released by [kill] *)
Fixpoint drain_ready (fuel slot : nat) (kill : nat -> M nv unit) : M nv unit :=
  match fuel with
  | O => fail Stuck
  | S fuel =>
      n ← ons (onq (__pqueue_total (ReadyQ slot)));
      if bool_decide (n = 0) then mret tt
      else
        t ← ons (onq (__pqueue_first_node (ReadyQ slot)));
        t ← of_option BadDeref t;
        ons (onq (__pqueue_delete_node t));;
        kill t;;
        drain_ready fuel slot kill
  end.

Definition pth_exit_scheduler (fuel slot : nat) (locked : bool) : M nv unit :=
  d ← onnw (get_d slot);
  if is_running d || bool_decide (slot = 0%nat) then fail Aborted
  else
    ons (onq (spin_lock (ReadyQ slot)));;
    drain_ready fuel slot (fun t => tcb_free (Some t));;
    ons (onq (spin_unlock (ReadyQ slot)));;
    note (KClose slot);;
    (if locked then mret tt else native_acquire (tid d));;
    upd_descr (Slot slot) (set_is_used false);;
    add_natives (-1);;
    native_release (tid d);;
    unlock_native slot (tid d);;
    note (KExit slot).

(** A thread is released without its cleanup: its stack and its block *)
Definition free_thread (t : nat) : M nv unit :=
  ons (modify (fun s => set_pth_threads_count (pth_threads_count s - 1) s));;
  z ← ona' (get_ta t);
  free_mem (tstack z) (tstacksize z + 8);;
  ons (modify (fun s => set_wo (set_threads (delete t (threads (wo s))) (wo s)) s));;
  ons (modify (fun s => set_tx (delete t (tx s)) s)).

(** [pth_attr_set] of the attributes of a scheduler *)
Definition sched_attrs (a : nat) (size : Z) : M nv unit :=
  let set op v := ona' (pth_attr_set (Some a) op v) in
  set PTH_ATTR_SCHEDPOLICY SCHED_FIFO;;
  set PTH_ATTR_PRIO (xprio_get_max SCHED_FIFO 0).1;;
  set PTH_ATTR_NAME sched_name;;
  set PTH_ATTR_JOINABLE 0;;
  set PTH_ATTR_CANCEL_STATE PTH_CANCEL_DISABLE;;
  set PTH_ATTR_STACK_SIZE size;;
  set PTH_ATTR_STACK_ADDR 0;;
  mret tt.

(** [pth_spawn], which puts the thread into [pth_threads_queue], unless it is a
    scheduler *)
Definition spawn (block : option tcb_block) (attr : option nat) (func arg : Z) (is_sched : bool) : M nv (option nat) :=
  s ← get;
  t ← ona' (pth_spawn switch destroy (pth_default_stacksize s) (pth_threads_per_native s) time_now nn mctx_set child_name block attr func arg is_sched);
  (match t with
   | Some t => if is_sched then mret tt else modify (fun s => set_tqueue (t :: tqueue s) s)
   | None => mret tt
   end);;
  mret t.

(** The start routine of a native; it ends by switching to its scheduler
    ([true]) or by an exit. *)
Definition pth_new_scheduler (fuel slot : nat) (block : option tcb_block) : M nv bool :=
  tid' ← gettid;
  onnw (modify (set_self (Some slot)));;
  lock_native slot tid';;
  upd_descr (Slot slot) (set_pid getpid);;
  upd_descr (Slot slot) (set_tid tid');;
  upd_descr (Slot slot) (set_is_bound true);;
  upd_descr (Slot slot) (set_is_used true);;
  s ← get;
  ok ← (if bool_decide (pth_exit_count (ss (na s)) > 0) then mret false else pipe_ok);
  if negb ok then
    ons (onq (spin_lock (ReadyQ slot)));;
    drain_ready fuel slot free_thread;;
    ons (onq (spin_unlock (ReadyQ slot)));;
    upd_descr (Slot slot) (set_is_used false);;
    add_natives (-1);;
    unlock_native slot tid';;
    note (KExit slot);;
    mret false
  else
    upd_descr (Slot slot) (set_sigpipe 0);;
    a ← ons pth_active_threads;
    if bool_decide (a <= 1) then pth_exit_scheduler fuel slot true;; mret false
    else
      s ← get;
      attr ← ona' (pth_attr_new (pth_default_stacksize s));
      match attr with
      | None => pth_exit_scheduler fuel slot true;; mret false
      | Some at' =>
          sched_attrs at' (32 * 1024);;
          t ← spawn block (Some at') sched_func 0 true;
          upd_descr (Slot slot) (set_sched t);;
          ona' (pth_attr_destroy (Some at'));;
          match t with
          | None => pth_exit_scheduler fuel slot false;; mret false
          | Some t =>
              ons (upd_x t (set_lastrannative tid'));;
              upd_descr (Slot slot) (set_current (Some t));;
              upd_descr (Slot slot) (set_is_running true);;
              mret true
          end
      end.

(** ** The first native, before [pth_init] *)

(** [futex_ok]: the kernel has the system call *)
Definition pth_initialize_minimal (futex_ok : bool) : M nv unit :=
  s ← get;
  if pth_initialized_minimal s then mret tt
  else
    onnw (modify (set_pth_number_of_natives 0));;
    x ← pth_alloc_native false false;
    match x with
    | Some (Slot k) =>
        tid' ← gettid;
        upd_descr (Slot k) (set_tid tid');;
        upd_descr (Slot k) (set_pid tid');;
        onnw (modify (set_self (Some k)));;
        modify (set_pth_initialized_minimal true);;
        if futex_ok then mret tt else fail Aborted
    | _ => fail BadDeref
    end.

(** ** Which native runs *)

(** The first native whose thread has the stack pointer on its stack;
    [bottom t] is the member [stackbottom]. *)
Fixpoint stack_scan (bottom : nat -> Z) (sp : Z) (cnt slot : nat) : M nv (option nat) :=
  match cnt with
  | O => mret None
  | S cnt =>
      d ← onnw (get_d slot);
      match is_used d, current d with
      | true, Some t =>
          z ← ona' (get_ta t);
          if bool_decide (sp <= bottom t) && bool_decide (sp >= tstack z) then mret (Some slot) else stack_scan bottom sp cnt (S slot)
      | _, _ => stack_scan bottom sp cnt (S slot)
      end
  end.
Fixpoint tid_scan (tid' : Z) (cnt slot : nat) : M nv (option nat) :=
  match cnt with
  | O => mret None
  | S cnt =>
      d ← onnw (get_d slot);
      if is_used d && bool_decide (tid d = tid') then mret (Some slot) else tid_scan tid' cnt (S slot)
  end.
Definition pth_find_native_by_tid (tid' : Z) : M nv (option nat) :=
  n ← number_of_natives; tid_scan tid' (Z.to_nat n) 0.

Definition _pth_get_native_descr (bottom : nat -> Z) (sp : Z) (futex_ok : bool) : M nv (option nat) :=
  pth_initialize_minimal futex_ok;;
  f ← onnw (get_d 0);
  if bool_decide (current f = None) then mret (Some 0%nat)
  else
    n ← number_of_natives;
    r ← stack_scan bottom sp (Z.to_nat n) 0;
    match r with
    | Some k => mret (Some k)
    | None =>
        tid' ← gettid;
        native_acquire tid';;
        r ← tid_scan tid' (Z.to_nat n) 0;
        native_release tid';;
        match r with
        | Some k =>
            st ← get_stack (Slot k);
            if bool_decide (n_sched_index st = Z.of_nat k) then mret (Some k) else fail Aborted
        | None => mret None
        end
    end.

Definition pth_set_current (t : option nat) : M nv (option nat) :=
  n ← onnw pth_get_native_descr;
  match n with
  | Some n => upd_descr (Slot n) (set_current t);; mret t
  | None => mret None
  end.

Definition pth_primordial_thread : M nv (option nat) := f ← onnw (get_d 0); mret (if is_used f then Some 0%nat else None).

(** ** The scheduler's data *)

Definition pth_scheduler_init : M nv unit :=
  n ← onnw pth_get_native_descr;
  n ← of_option BadDeref n;
  modify (set_pth_native_lock qlock_free);;
  modify (set_pth_key_lock qlock_free);;
  modify (set_pth_exit_lock qlock_free);;
  ons (modify (set_pth_exit_count 0));;
  ons (modify (set_pth_threads_count 0));;
  modify (set_tqueue []);;
  st ← get_stack (Slot n);
  put_stack (Slot n) (NStack 0 0 0 (n_stack_top st) 0);;
  upd_descr (Slot n) (set_is_bound true);;
  upd_descr (Slot n) (set_is_used true);;
  upd_descr (Slot n) (set_is_running true);;
  ok ← pipe_ok;
  if negb ok then fail Aborted
  else
    upd_descr (Slot n) (set_sigpipe 0);;
    ons (onq (pqueue_init NQ));;
    ons (onq (pqueue_init RQ));;
    ons (onq (pqueue_init WQ));;
    ons (onq (pqueue_init SQ));;
    ons (onq (pqueue_init DQ));;
    ons (modify (set_pth_sigblock 0)).

(** The threads of the list but the running one; the next one is read before a
    thread is released. *)
Fixpoint drop_threads (l : list nat) : M nv unit :=
  match l with
  | [] => mret tt
  | t :: l =>
      '(_, d) ← onnw my_descr;
      (if bool_decide (current d = Some t) then mret tt else tcb_free (Some t));;
      drop_threads l
  end.
Definition pth_scheduler_drop : M nv unit := s ← get; drop_threads (tqueue s).

(** ** The shared area (pth_sync.c) *)

(** Opening the file; its header; mapping it *)
Context (area_open : M nv Z) (area_read : M nv (option shared_header)) (area_map : shared_header -> M nv bool) (PTH_INTERNAL_VERSION : Z).

(** The size of the area goes to [futex_region] (see Futex). *)
Definition pth_initialize_shared : M nv bool :=
  s ← get;
  if bool_decide (pth_shared_fd s = 0) then
    fd ← area_open;
    modify (set_pth_shared_fd fd);;
    if bool_decide (fd = -1) then mret false
    else
      h ← area_read;
      match h with
      | None => mret false
      | Some h =>
          if negb (bool_decide (sh_verid h = PTH_INTERNAL_VERSION)) then mret false
          else
            ok ← area_map h;
            if negb ok then mret false
            else
              modify (set_pth_shared_area (Some h));;
              onnw (modify (set_shared_lock qlock_free));;
              mret true
      end
  else mret true.

(** ** [pth_init] and [pth_kill] *)

(** The environment: the value [strtol] makes of a variable, and whether
    [errno] is [ERANGE] afterwards; the processors; the policy and the priority
    of the process; the switch into the scheduler and back to the main thread. *)
Context (env_stacksize env_ratio env_numcpus : option (Z * bool)) (nprocessors main_policy main_priority : Z) (mctx_switch : M nv unit) (main_name : Z).

Definition default_stacksize : Z :=
  match env_stacksize with
  | Some (k, false) => if bool_decide (k >= PTHREAD_STACK_MIN / 1024) && bool_decide (k <= PTH_MAX_STACK_SIZE) then swrap 32 k else 64
  | _ => 64
  end.
Definition threads_per_native : Z := match env_ratio with Some (k, false) => swrap 32 k | _ => 1 end.
Definition max_natives : Z := match env_numcpus with Some (k, false) => swrap 32 k | _ => 0 end.

(** All natives but the first *)
Definition clear_natives : M nv unit :=
  onnw (modify (fun w => set_natives (take 1 (natives w) ++ replicate (length (natives w) - 1) zero_descr) w));;
  ons (modify (fun s => set_dx (map_imap (fun k x => Some (if bool_decide (k = 0%nat) then x else Dcb None 0 0)) (dx s)) s));;
  modify (fun s => set_stacks (take 1 (stacks s) ++ replicate (length (stacks s) - 1) zero_nstack) s).

(** The scheduler thread of the running native *)
Definition spawn_scheduler (n a : nat) (block : option tcb_block) (size : Z) : M nv (option nat) :=
  sched_attrs a size;;
  t ← spawn block (Some a) sched_func 0 true;
  upd_descr (Slot n) (set_sched t);;
  mret t.

(** The main thread: its start routine is the address -1. *)
Definition spawn_main (a : nat) (block : option tcb_block) : M nv (option nat) :=
  let set op v := ona' (pth_attr_set (Some a) op v) in
  set PTH_ATTR_SCHEDPOLICY main_policy;;
  set PTH_ATTR_PRIO main_priority;;
  set PTH_ATTR_NAME main_name;;
  set PTH_ATTR_JOINABLE 1;;
  set PTH_ATTR_CANCEL_STATE (Z.lor PTH_CANCEL_ENABLE PTH_CANCEL_DEFERRED);;
  set PTH_ATTR_STACK_SIZE 0;;
  set PTH_ATTR_STACK_ADDR 0;;
  t ← spawn block (Some a) (-1) 0 false;
  ons (modify (set_pth_main t));;
  mret t.

(** The number of natives and of threads for each *)
Definition init_natives (m : nat) : M nv unit :=
  onnw (modify (set_pth_number_of_natives 1));;
  modify (set_pth_threads_per_native threads_per_native);;
  let cpus := bool_decide (max_natives = 0) in
  let k := if cpus then nprocessors else max_natives in
  (if cpus then modify (set_pth_threads_per_native 1) else mret tt);;
  if bool_decide (k > 1) then
    onnw (upd_t m (set_boundnative (Some 0%nat)));;
    ons (modify (set_pth_max_native_threads (swrap 32 (k + 1))))
  else ons (modify (set_pth_max_native_threads k)).

(** [b1], [b2]: the blocks of the scheduler and of the main thread.  The
    allocator, the clock and the output for debugging are set up elsewhere. *)
Definition pth_init (futex_ok : bool) (b1 b2 : option tcb_block) : M nv bool :=
  s ← get;
  if pth_initialized s || pth_shutdown_inprogress s then mret false
  else
    pth_initialize_minimal futex_ok;;
    modify (set_pth_initialized true);;
    modify (set_pth_initializing true);;
    modify (set_pth_shutdown_inprogress false);;
    clear_natives;;
    pth_scheduler_init;;
    '(n, d) ← onnw my_descr;
    modify (set_pth_default_stacksize default_stacksize);;
    a ← ona' (pth_attr_new default_stacksize);
    match a with
    | None => fail Aborted
    | Some a =>
        t ← spawn_scheduler n a b1 (32 * 1024);
        match t with
        | None => ona' (pth_attr_destroy (Some a));; note (KClose 0);; mret false
        | Some t =>
            ons (upd_x t (set_lastrannative (tid d)));;
            m ← spawn_main a b2;
            match m with
            | None => ona' (pth_attr_destroy (Some a));; tcb_free (Some t);; note (KClose 0);; mret false
            | Some m =>
                ona' (pth_attr_destroy (Some a));;
                ons (upd_x m (set_lastrannative (tid d)));;
                init_natives m;;
                upd_descr (Slot n) (set_current (Some t));;
                mctx_switch;;
                s ← get;
                (if bool_decide (pth_max_native_threads (ss (na s)) > 1) then pth_new_watchdog;; mret tt else mret tt);;
                ok ← pth_initialize_shared;
                if negb ok then fail Aborted
                else
                  modify (fun s => set_pth_atfork_list (replicate (length (pth_atfork_list s)) no_atfork) s);;
                  modify (set_pth_initializing false);;
                  mret true
            end
        end
    end.

(** "if this is not first native, bound to it and wait" *)
Fixpoint to_first_native (fuel : nat) (c : nat) : M nv unit :=
  match fuel with
  | O => fail Stuck
  | S fuel =>
      '(_, d) ← onnw my_descr;
      f ← onnw (get_d 0);
      if bool_decide (tid f = tid d) then mret tt
      else
        onnw (upd_t c (set_state PTH_STATE_WAITING));;
        ons (pth_yield switch None);;
        to_first_native fuel c
  end.

Definition pth_kill (fuel : nat) : M nv bool :=
  s ← get;
  if negb (pth_initialized s) then mret true
  else
    '(_, d) ← onnw my_descr;
    exit_acquire (tid d);;
    s ← get;
    let k := pth_exit_count (ss (na s)) in
    ons (modify (set_pth_exit_count (swrap 32 (k + 1))));;
    exit_release (tid d);;
    if bool_decide (k > 0) then mret true
    else
      match current d with
      | None => fail Aborted
      | Some c =>
          onnw (upd_t c (set_boundnative (Some 0%nat)));;
          upd_descr (Slot 0) (set_bounded_thread (Some c));;
          to_first_native fuel c;;
          pth_drop_natives;;
          pth_scheduler_drop;;
          tcb_free (Some c);;
          modify (set_pth_initialized false);;
          modify (set_pth_shutdown_inprogress true);;
          onnw (modify (set_pth_number_of_natives 0));;
          upd_descr (Slot 0) (set_is_used false);;
          s ← get;
          (if bool_decide (pth_exit_count (ss (na s)) > 1) then note (KExit 0) else mret tt);;
          mret true
      end.

(** ** Queries about threads *)

(** The result, and what is stored through [size] *)
Definition pth_getstacksize (thread : option nat) (size : bool) : M nv (Z * option Z) :=
  match thread with
  | None => mret (0, None)
  | Some t =>
      if negb size then mret (0, None)
      else
        e ← ons (thread_exists (Some t));
        if negb e then mret (0, None)
        else
          z ← ona' (get_ta t);
          mret (if bool_decide (tstacksize z = 0) then 2048 * 1024 else tstacksize z, Some (tstacksize z))
  end.
(** [guess t]: the member [sp] *)
Definition pth_getsp (guess : nat -> Z) (thread : option nat) : M nv Z :=
  match thread with
  | None => mret 0
  | Some t =>
      e ← ons (thread_exists (Some t));
      if negb e then mret 0
      else z ← ona' (get_ta t); mret (if bool_decide (tstack z = 0) then guess t else tstack z)
  end.
End natives.
