(* ===== verification/NativeProofs.v ===== *)
(** * Theorems on native threads

    The running code finds its own descriptor ([native_found]), which the rest
    of the development takes for granted ([self] of World); a descriptor is
    allocated ([alloc_native_spec]); two threads of system scope can get the
    same native ([new_native_shared]). *)

From S2P Require Import Prelude Bitmap Dll LinkedList Ring Priorities Msg PQueue Time Futex World Sync Event Util Sched Attr Lib.
From S2P Require Import MutexProofs LockProofs Wake SchedProofs LibProofs.
From S2P Require Import Native.

Section natives.
Context (pagesize getpid : Z) (clone : ndesc -> M nv Z).
Implicit Types s : nv.

(** The world of a state *)
Definition world_of s : world := wo (ss (na s)).

Lemma onnw_same {A} (c : M world A) s a : c (world_of s) = Ok (a, world_of s) -> onnw c s = Ok (a, s).
Proof. intros E. unfold onnw, ons, zoom. rewrite (onw_same c (ss (na s)) a E). by destruct s as [[]]. Qed.

Lemma ona_runs {A} (c : M ast A) s a : c (na s) = Ok (a, na s) -> ona' c s = Ok (a, s).
Proof. intros E. unfold ona', zoom. rewrite E. by destruct s. Qed.

(** ** The running native *)

(** The descriptors that are looked at: all exist, and their threads have stacks. *)
Definition descr_ok s (cnt : nat) : Prop := forall i, (i < cnt)%nat -> exists d, natives (world_of s) !! i = Some d /\
  forall t, is_used d = true -> current d = Some t -> is_Some (ta (na s) !! t).

(** The stack pointer is on the stack of the thread that native [i] runs. *)
Definition on_stack (bottom : nat -> Z) (sp : Z) s (i : nat) : Prop :=
  exists d t z, natives (world_of s) !! i = Some d /\ is_used d = true /\ current d = Some t /\ ta (na s) !! t = Some z /\ tstack z <= sp <= bottom t.

Lemma stack_scan_run bottom sp s cnt slot : descr_ok s (slot + cnt) ->
  exists r, stack_scan bottom sp cnt slot s = Ok (r, s) /\
    match r with Some k => (slot <= k < slot + cnt)%nat /\ on_stack bottom sp s k | None => forall i, (slot <= i < slot + cnt)%nat -> ~ on_stack bottom sp s i end.
Proof.
  revert slot. induction cnt as [|cnt IH]; intros slot Hok; [exists None; split; [done|lia]|].
  destruct (Hok slot ltac:(lia)) as (d & Hd & Ht). cbn [stack_scan]. rewrite (bind_run _ _ s d s) by by apply onnw_same, get_d_run.
  assert (forall r, stack_scan bottom sp cnt (S slot) s = Ok (r, s) -> ~ on_stack bottom sp s slot ->
    match r with Some k => (S slot <= k < S slot + cnt)%nat /\ on_stack bottom sp s k | None => forall i, (S slot <= i < S slot + cnt)%nat -> ~ on_stack bottom sp s i end ->
    match r with Some k => (slot <= k < slot + S cnt)%nat /\ on_stack bottom sp s k | None => forall i, (slot <= i < slot + S cnt)%nat -> ~ on_stack bottom sp s i end) as Hnext.
  { intros [k|] _ Hn Hr; [split; [lia|apply Hr]|]. intros i Hi. destruct (decide (i = slot)) as [->|]; [done|]. apply Hr. lia. }
  destruct (IH (S slot)) as (r & Er & Hr); [intros i Hi; apply Hok; lia|].
  destruct (is_used d) eqn:Eu; [|exists r; split; [done|]; apply Hnext; [done| |done]; intros (d' & t & z & E1 & E2 & _); congruence].
  destruct (current d) as [t|] eqn:Ec; [|exists r; split; [done|]; apply Hnext; [done| |done]; intros (d' & t & z & E1 & E2 & E3 & _); congruence].
  destruct (Ht t eq_refl eq_refl) as [z Hz].
  rewrite (bind_run _ _ s z s) by (apply ona_runs; unfold get_ta; rewrite (bind_run get _ _ _ _ eq_refl); by rewrite Hz).
  destruct (bool_decide (sp <= bottom t)) eqn:E1; [apply bool_decide_eq_true in E1|apply bool_decide_eq_false in E1]; cbn [andb];
    [destruct (bool_decide (sp >= tstack z)) eqn:E2; [apply bool_decide_eq_true in E2|apply bool_decide_eq_false in E2]|].
  - exists (Some slot). split; [done|]. split; [lia|]. exists d, t, z. repeat split; try done; lia.
  - exists r. split; [done|]. apply Hnext; [done| |done]. intros (d' & t' & z' & F1 & F2 & F3 & F4 & F5). assert (d' = d) as -> by congruence.
    assert (t' = t) as -> by congruence. assert (z' = z) as -> by congruence. lia.
  - exists r. split; [done|]. apply Hnext; [done| |done]. intros (d' & t' & z' & F1 & F2 & F3 & F4 & F5). assert (d' = d) as -> by congruence.
    assert (t' = t) as -> by congruence. lia.
Qed.

Lemma tid_scan_run tid' s cnt slot k d : natives (world_of s) !! k = Some d -> is_used d = true -> tid d = tid' -> (slot <= k < slot + cnt)%nat ->
  descr_ok s (slot + cnt) ->
  (forall i di, natives (world_of s) !! i = Some di -> is_used di = true -> tid di = tid' -> i = k) ->
  tid_scan tid' cnt slot s = Ok (Some k, s).
Proof.
  intros Hk Hu Ht Hr Hok Huniq. revert slot Hr Hok. induction cnt as [|cnt IH]; intros slot Hr Hok; [lia|].
  destruct (Hok slot ltac:(lia)) as (d0 & Hd0 & _). cbn [tid_scan]. rewrite (bind_run _ _ s d0 s) by by apply onnw_same, get_d_run.
  destruct (is_used d0 && bool_decide (tid d0 = tid')) eqn:E.
  - apply andb_prop in E as [E1 E2]. apply bool_decide_eq_true in E2. by rewrite (Huniq slot d0).
  - destruct (decide (slot = k)) as [->|]; [|apply IH; [lia|intros i Hi; apply Hok; lia]].
    rewrite Hk in Hd0. injection Hd0 as <-. by rewrite Hu, Ht, bool_decide_eq_true_2 in E.
Qed.

(** the code that runs on native [n] finds the descriptor [n], whether the
    stack pointer is on the stack of a thread of its native or, as on the stack
    of the process, on none: then the lookup by the kernel's thread id answers,
    with the lock taken and given back.  It is enough that the pointer is on no
    other native's stack, and that the ids differ. *)
Theorem native_found bottom sp futex_ok gettid n d s :
  pth_initialized_minimal s = true -> descr_ok s (Z.to_nat (pth_number_of_natives (world_of s))) ->
  (n < Z.to_nat (pth_number_of_natives (world_of s)))%nat ->
  natives (world_of s) !! n = Some d -> is_used d = true -> gettid s = Ok (tid d, s) -> tid d <> 0 ->
  (forall i di, natives (world_of s) !! i = Some di -> is_used di = true -> tid di = tid d -> i = n) ->
  (forall i, on_stack bottom sp s i -> i = n) ->
  (forall d0, natives (world_of s) !! 0%nat = Some d0 -> current d0 <> None) ->
  (exists st, stacks s !! n = Some st /\ n_sched_index st = Z.of_nat n) -> pth_native_lock s = qlock_free ->
  _pth_get_native_descr pagesize gettid bottom sp futex_ok s = Ok (Some n, s).
Proof.
  intros Hmin Hok Hn Hd Hu Hg Ht Huniq Hst H0 (st & Hs & Hidx) Hl. set (cnt := Z.to_nat (pth_number_of_natives (world_of s))) in *.
  unfold _pth_get_native_descr. rewrite (bind_run _ _ s tt s).
  2:{ unfold pth_initialize_minimal. rewrite (bind_run get _ _ _ _ eq_refl). by rewrite Hmin. }
  destruct (Hok 0%nat ltac:(lia)) as (d0 & Hd0 & _). rewrite (bind_run _ _ s d0 s) by by apply onnw_same, get_d_run.
  rewrite bool_decide_eq_false_2 by by apply H0.
  rewrite (bind_run _ _ s (pth_number_of_natives (world_of s)) s eq_refl). fold cnt.
  destruct (stack_scan_run bottom sp s cnt 0 Hok) as (r & Er & Hr). rewrite (bind_run _ _ _ _ _ Er).
  destruct r as [k|]; [by rewrite (Hst k) by apply Hr|]. rewrite (bind_run _ _ _ _ _ Hg).
  set (s1 := set_pth_native_lock (QLock 1 (tid d) 1) s). rewrite (bind_run _ _ s tt s1).
  2:{ unfold native_acquire, acquire. rewrite (bind_run get _ _ _ _ eq_refl), Hl.
      rewrite (bind_run _ _ s (QLock 1 (tid d) 1) s); [done|]. by rewrite (lock_free_take (tid d) Ht). }
  rewrite (bind_run _ _ _ _ _ (tid_scan_run (tid d) s1 cnt 0 n d Hd Hu eq_refl ltac:(lia) Hok Huniq)).
  rewrite (bind_run _ _ s1 tt s).
  2:{ unfold native_release, release, modify. change (pth_native_lock s1) with (QLock 1 (tid d) 1). rewrite lock_taken_release, <- Hl. by destruct s. }
  rewrite (bind_run _ _ s st s) by (unfold get_stack; rewrite (bind_run get _ _ _ _ eq_refl); by rewrite Hs).
  by rewrite Hidx, bool_decide_eq_true_2.
Qed.

(** ** Allocation *)

Lemma put_stack_run k st v s : stacks s !! k = Some st -> put_stack (Slot k) v s = Ok (tt, set_stacks (<[k := v]> (stacks s)) s).
Proof. intros E. unfold put_stack. rewrite (bind_run get _ _ _ _ eq_refl). by rewrite (bind_run _ _ s st s) by (by rewrite E). Qed.

(** A state with other queue memory *)
Definition with_qm (m : qmem) s : nv := set_na (set_ss (put_qm m (ss (na s))) (na s)) s.

Lemma ons_onq_run {A} (c : M qmem A) s a m : c (qm (world_of s)) = Ok (a, m) -> ons (onq c) s = Ok (a, with_qm m s).
Proof. intros E. unfold ons, zoom. by rewrite (onq_run c (ss (na s)) a m E). Qed.

(** The memory of a queue that is not in use *)
Definition unused_queue (m : qmem) (Q : gmap qid contents) (q : qid) : Prop :=
  Q !! q = None /\ raw_heads q (links m) /\ exists x, queues m !! q = Some x /\ bitmap x = bitmap_zero 32.

Lemma init_queue_run m Q q : pq_inv m Q -> unused_queue m Q q ->
  exists m', pqueue_init q m = Ok (tt, m') /\ pq_inv m' (<[q := empty_lists]> Q) /\
    forall q', q' <> q -> unused_queue m Q q' -> unused_queue m' (<[q := empty_lists]> Q) q'.
Proof.
  intros Hm (HQ & Hraw & x & Hx & Hb). destruct (pqueue_init_spec m Q q x Hm HQ Hx Hb Hraw) as (m' & E & Hm' & Hn & Hq & Hd).
  exists m'. split; [done|]. split; [done|]. intros q' Hne (HQ' & Hraw' & x' & Hx' & Hb'). split; [by rewrite lookup_insert_ne|]. split.
  - intros p Hp. apply Hd. by apply Hraw'.
  - exists x'. by rewrite Hq, lookup_insert_ne.
Qed.

(** C35: a new native gets the next slot of the table, as long as there are
    fewer than 126: a descriptor of zeroes, three empty queues and a stack.
    The stack begins in the block that was allocated for it; but when the block
    had to be aligned, the top of the stack, which goes to [clone], is 8 bytes
    behind the end of the block. *)
Theorem alloc_native_spec k p s rest Q d0 st0 x0 :
  pth_number_of_natives (world_of s) = Z.of_nat k -> (k < 126)%nat -> 0 <= p -> p mod 8 = 0 -> 0 <= pagesize ->
  natives (world_of s) !! k = Some d0 -> stacks s !! k = Some st0 -> dx (ss (na s)) !! k = Some x0 -> n_mallocs s = Some p :: rest ->
  pq_inv (qm (world_of s)) Q -> unused_queue (qm (world_of s)) Q (WaitQ k) -> unused_queue (qm (world_of s)) Q (NewQ k) -> unused_queue (qm (world_of s)) Q (ReadyQ k) ->
  exists s' st, pth_alloc_native pagesize true false s = Ok (Some (Slot k), s') /\
    pth_number_of_natives (world_of s') = Z.of_nat (S k) /\ natives (world_of s') = <[k := zero_descr]> (natives (world_of s)) /\
    pq_inv (qm (world_of s')) (<[ReadyQ k := empty_lists]> (<[NewQ k := empty_lists]> (<[WaitQ k := empty_lists]> Q))) /\
    stacks s' = <[k := st]> (stacks s) /\ n_mallocs s' = rest /\
    n_sched_index st = Z.of_nat k /\ n_true_stack st = p /\ n_stacksize st = pagesize + 8 /\
    n_stack st mod 16 = 0 /\ p <= n_stack st /\
    n_stack_top st = p + n_stacksize st + (if bool_decide (p mod 16 = 0) then 0 else 8).
Proof.
  intros Hn Hk Hp Hp8 Hpage Hd Hs Hx Hmal Hq Hw Hnq Hrq. unfold pth_alloc_native.
  rewrite (bind_run _ _ s (Z.of_nat k) s) by (unfold number_of_natives; rewrite (bind_run get _ _ _ _ eq_refl); unfold world_of in Hn; by rewrite Hn).
  rewrite Nat2Z.id. set (w1 := set_pth_number_of_natives (Z.of_nat (S k)) (world_of s)). set (s1 := set_na (set_ss (set_wo w1 (ss (na s))) (na s)) s).
  rewrite (bind_run _ _ s tt s1).
  2:{ unfold add_natives, onnw, ons, onw, zoom, modify. cbn. fold (world_of s). rewrite Hn, swrap_small by lia. by replace (Z.of_nat k + 1) with (Z.of_nat (S k)) by lia. }
  rewrite (bind_run _ _ s1 (Z.of_nat (S k)) s1 eq_refl). rewrite (bool_decide_eq_false_2 (_ >= _)) by (unfold PTH_MAX_NATIVE_THREADS; lia).
  set (w2 := set_natives (<[k := zero_descr]> (natives (world_of s))) w1). set (s2 := set_na (set_ss (set_wo w2 (ss (na s))) (na s)) s).
  rewrite (bind_run _ _ s1 tt s2).
  2:{ unfold upd_descr, onnw, ons, onw, zoom. cbn [ss na set_na set_ss s1 wo set_wo]. by rewrite (upd_d_run w1 k d0 (fun _ => zero_descr) Hd). }
  set (v0 := NStack 0 0 0 0 (Z.of_nat (S k) - 1)). set (s3 := set_stacks (<[k := v0]> (stacks s)) s2).
  rewrite (bind_run _ _ s2 tt s3) by (by apply (put_stack_run k st0 v0 s2)).
  destruct (init_queue_run _ Q (WaitQ k) Hq Hw) as (m1 & E1 & Hq1 & Hu1). pose proof (Hu1 (NewQ k) ltac:(done) Hnq) as Hnq1. pose proof (Hu1 (ReadyQ k) ltac:(done) Hrq) as Hrq1.
  destruct (init_queue_run _ _ (NewQ k) Hq1 Hnq1) as (m2 & E2 & Hq2 & Hu2). pose proof (Hu2 (ReadyQ k) ltac:(done) Hrq1) as Hrq2.
  destruct (init_queue_run _ _ (ReadyQ k) Hq2 Hrq2) as (m3 & E3 & Hq3 & _).
  set (s4 := set_na (set_ss (set_dx (<[k := Dcb None 0 0]> (dx (ss (na s)))) (ss (na s3))) (na s3)) s3).
  set (s5 := with_qm m3 s4). rewrite (bind_run _ _ s3 tt s5).
  2:{ rewrite (bind_run _ _ s3 tt s4).
      2:{ unfold ons, zoom, upd_dx, get_dx. change (ss (na s3)) with (set_wo w2 (ss (na s))).
          rewrite (bind_run _ _ (set_wo w2 (ss (na s))) x0 (set_wo w2 (ss (na s)))); [done|].
          unfold mbind, M_bind, get. cbn. by rewrite Hx. }
      rewrite (bind_run _ _ s4 tt (with_qm m1 s4)) by (by apply ons_onq_run).
      rewrite (bind_run _ _ (with_qm m1 s4) tt (with_qm m2 s4)) by (by apply (ons_onq_run _ (with_qm m1 s4))).
      by apply (ons_onq_run _ (with_qm m2 s4)). }
  cbn [negb]. set (s6 := set_n_mallocs rest s5). rewrite (bind_run _ _ s5 (Some p) s6).
  2:{ unfold malloc. rewrite (bind_run get _ _ _ _ eq_refl). change (n_mallocs s5) with (n_mallocs s). by rewrite Hmal. }
  set (stack := if bool_decide (p mod 16 = 0) then p else p + 8). set (v := NStack (pagesize + 8) p stack (stack + (pagesize + 8)) (Z.of_nat (S k) - 1)).
  assert (stacks s6 !! k = Some v0) as Hs6 by (cbn; apply list_lookup_insert_eq, (lookup_lt_Some _ _ _ Hs)).
  rewrite (bind_run _ _ _ _ _ (put_stack_run k v0 v s6 Hs6)).
  eexists _, v. split; [reflexivity|]. split; [done|]. split; [done|]. split; [exact Hq3|]. split; [cbn; by rewrite list_insert_insert_eq|]. split; [done|].
  split; [cbn; lia|]. split; [done|]. split; [done|]. cbn [n_stack n_stack_top n_stacksize v]. unfold stack.
  destruct (bool_decide (p mod 16 = 0)) eqn:E16; [apply bool_decide_eq_true in E16; lia|apply bool_decide_eq_false in E16].
  assert ((p + 8) mod 16 = 0); [|lia].
  pose proof (Z.div_mod p 16 ltac:(lia)). pose proof (Z.mod_pos_bound p 16 ltac:(lia)). pose proof (Z.div_mod p 8 ltac:(lia)).
  assert (p mod 16 = 8) as E8 by lia. rewrite Z.add_mod, E8 by lia. done.
Qed.

(** ** System scope *)

(** [pth_new_native] for a thread of system scope returns the first bound
    native that has lost its thread, and leaves everything as it is: it does
    not note the new thread.  So another call returns the same native, and two
    threads that were promised a native of their own share one. *)
Theorem new_native_shared s n d f k dk t1 t2 :
  self (world_of s) = Some n -> natives (world_of s) !! n = Some d -> tid d <> 0 -> pth_native_lock s = qlock_free ->
  natives (world_of s) !! 0%nat = Some f -> is_running f = true ->
  (0 < k)%nat -> natives (world_of s) !! k = Some dk -> is_used dk = true -> is_bounded dk = true -> bounded_thread dk = None ->
  (forall i, (0 < i < k)%nat -> exists di, natives (world_of s) !! i = Some di /\ is_used di = true /\ (is_bounded di = true -> bounded_thread di <> None)) ->
  (r1 ← pth_new_native pagesize clone PTH_SCOPE_SYSTEM (Some t1); r2 ← pth_new_native pagesize clone PTH_SCOPE_SYSTEM (Some t2); mret (r1, r2)) s =
  Ok ((Some k, Some k), s).
Proof.
  intros Hself Hn Ht Hl Hf Hrun Hk Hdk Hu Hb Hnone Hmid.
  cut (forall t, pth_new_native pagesize clone PTH_SCOPE_SYSTEM (Some t) s = Ok (Some k, s)); [intros E; by rewrite (bind_run _ _ _ _ _ (E t1)), (bind_run _ _ _ _ _ (E t2))|].
  intros t. unfold pth_new_native. rewrite (bind_run _ _ s (tid d) s).
  2:{ unfold current_tid. by rewrite (bind_run _ _ s (n, d) s) by by apply onnw_same, my_descr_run. }
  set (s1 := set_pth_native_lock (QLock 1 (tid d) 1) s). rewrite (bind_run _ _ s tt s1).
  2:{ unfold native_acquire, acquire. rewrite (bind_run get _ _ _ _ eq_refl), Hl.
      rewrite (bind_run _ _ s (QLock 1 (tid d) 1) s); [done|]. by rewrite (lock_free_take (tid d) Ht). }
  rewrite (bind_run _ _ s1 f s1) by (by apply onnw_same, get_d_run). rewrite Hrun. cbn [negb]. rewrite (bind_run get _ s1 s1 s1 eq_refl).
  rewrite (bool_decide_eq_true_2 (PTH_SCOPE_SYSTEM = PTH_SCOPE_SYSTEM)) by done.
  assert (forall j fuel, (0 < j <= k)%nat -> (k - j < fuel)%nat -> reuse_scan fuel j s1 = Ok (Some k, s1)) as Hscan.
  { intros j fuel. remember (k - j)%nat as m eqn:Hm. revert j fuel Hm. induction m as [|m IH]; intros j fuel Hm Hj Hfu; (destruct fuel as [|fuel]; [lia|]); cbn [reuse_scan].
    - replace j with k by lia. rewrite (bind_run _ _ s1 dk s1) by (by apply onnw_same, get_d_run). by rewrite Hu, Hb, Hnone, bool_decide_eq_true_2.
    - destruct (Hmid j ltac:(lia)) as (di & Hdi & Hui & Hbi). rewrite (bind_run _ _ s1 di s1) by (by apply onnw_same, get_d_run). rewrite Hui.
      replace (is_bounded di && bool_decide (bounded_thread di = None)) with false; [apply IH; lia|].
      destruct (is_bounded di); [|done]. cbn. by rewrite bool_decide_eq_false_2 by by apply Hbi. }
  rewrite (bind_run _ _ s1 (Some k) s1).
  2:{ apply Hscan; [lia|]. apply lookup_lt_Some in Hdk. change (length (natives (wo (ss (na s1))))) with (length (natives (world_of s))). lia. }
  rewrite (bind_run _ _ s1 tt s); [done|]. unfold native_release, release, modify. change (pth_native_lock s1) with (QLock 1 (tid d) 1). rewrite lock_taken_release, <- Hl. by destruct s.
Qed.
End natives.

Definition native_demo (ths : gmap nat tattr) (l : sst) : nv :=
  Nv (ASt l ths ∅ ∅ ∅ []) [zero_nstack; NStack 0 0 0 0 1; zero_nstack] zero_descr zero_nstack false true true false false 64 1
    qlock_free qlock_free qlock_free qlock_free [] [] [] [] (replicate 128 no_atfork) 0 false 0 None.

Definition stack_at (p size : Z) : tattr := TAttr [] 0 0 size p 0 0.

(** Native 1 runs on the stack of the process. *)
Lemma native_found_witness :
  let s := native_demo {[7%nat := stack_at 1000 1000; 8%nat := stack_at 3000 1000]} (lib_demo (QMem ∅ ∅ ∅) ∅) in
  _pth_get_native_descr 4096 (mret 101) (fun t => if bool_decide (t = 7%nat) then 2000 else 4000) 500 true s = Ok (Some 1%nat, s).
Proof.
  intros s. apply (native_found 4096 _ 500 true (mret 101) 1 (a_native 101 8) s).
  - done.
  - intros [|[|i]] Hi; [exists (a_native 100 7)|exists (a_native 101 8)|vm_compute in Hi; lia]; (split; [done|]); intros t _ [= <-]; eexists; reflexivity.
  - vm_compute. lia.
  - done.
  - done.
  - done.
  - done.
  - intros [|[|i]] di E _ Ht; cbn in E; [injection E as <-; vm_compute in Ht; done|done|done].
  - intros [|[|i]] (d & t & z & E1 & E2 & E3 & E4 & E5); cbn in E1; [injection E1 as <-|done|done]. injection E3 as <-. vm_compute in E4. injection E4 as <-. cbn in E5. lia.
  - intros d0 [= <-]. done.
  - exists (NStack 0 0 0 0 1). done.
  - done.
Defined.

Definition spare_demo : nv :=
  let l := lib_demo (raw_mems [WaitQ 2; NewQ 2; ReadyQ 2] []) ∅ in
  set_n_mallocs [Some 5000] (native_demo ∅ (set_dx {[2%nat := Dcb None 0 0]} (set_wo (set_natives [a_native 100 7; a_native 101 8; zero_descr] (wo l)) l))).

(** The block begins 8 bytes behind an aligned address. *)
Lemma alloc_native_spec_witness :
  exists s' st, pth_alloc_native 4096 true false spare_demo = Ok (Some (Slot 2), s') /\ stacks s' = <[2%nat := st]> (stacks spare_demo) /\
    n_stack_top st = 5000 + n_stacksize st + 8.
Proof.
  assert (forall q, q ∈ [WaitQ 2; NewQ 2; ReadyQ 2] -> unused_queue (qm (world_of spare_demo)) ∅ q) as Hunused.
  { intros q Hq. split; [done|]. split.
    - intros p Hp. apply raw_mems_link. left. by exists q, p.
    - exists (PQ 0 (bitmap_zero 32) 0). split; [|done]. rewrite !elem_of_cons, elem_of_nil in Hq. destruct Hq as [-> | [-> | [-> | []]]]; reflexivity. }
  destruct (alloc_native_spec 4096 2 5000 spare_demo [] ∅ zero_descr zero_nstack (Dcb None 0 0)) as (s' & st & E & _ & _ & _ & Es & _ & _ & _ & _ & _ & _ & Et).
  - reflexivity.
  - lia.
  - lia.
  - done.
  - lia.
  - done.
  - done.
  - reflexivity.
  - done.
  - apply raw_mems_inv.
  - apply Hunused. set_solver.
  - apply Hunused. set_solver.
  - apply Hunused. set_solver.
  - exists s', st. split; [exact E|]. split; [exact Es|]. rewrite bool_decide_eq_false_2 in Et by (vm_compute; discriminate). exact Et.
Defined.

(** Native 2 has lost its thread. *)
Lemma new_native_shared_witness :
  let s := native_demo ∅ (set_wo (set_natives [a_native 100 7; a_native 101 8; set_is_bounded true (a_native 102 9)] (wo (lib_demo (QMem ∅ ∅ ∅) ∅))) (lib_demo (QMem ∅ ∅ ∅) ∅)) in
  (r1 ← pth_new_native 4096 (fun _ => mret 1) PTH_SCOPE_SYSTEM (Some 11%nat); r2 ← pth_new_native 4096 (fun _ => mret 1) PTH_SCOPE_SYSTEM (Some 12%nat); mret (r1, r2)) s =
  Ok ((Some 2%nat, Some 2%nat), s).
Proof.
  intros s. apply (new_native_shared 4096 (fun _ => mret 1) s 1 (a_native 101 8) (a_native 100 7) 2 (set_is_bounded true (a_native 102 9))); try done; try lia.
  intros i Hi. assert (i = 1%nat) as -> by lia. exists (a_native 101 8). done.
Defined.
