(* ===== verification/Fork.v ===== *)
(** * Forking (pth_fork.c, [pthread_atfork] of pthread.c)

    The table of handlers, [pth_fork] in the parent and in the child, and what
    the child does to get rid of the other threads and natives.  [fk] is the
    state of Native with what only these functions use.  [fork] and the
    handlers are parameters; the switch into the scheduler of the child, too. *)

From S2P Require Import Prelude Bitmap Dll LinkedList Ring Priorities PQueue Time Msg Futex World Sync Event Util Sched Attr Lib Native.

Definition PTH_ATFORK_MAX : Z := 128.

(** An entry of the table of [pthread_atfork] *)
Record pthread_atfork_st : Set := PAtfork { pa_prepare : Z; pa_parent : Z; pa_child : Z }.

(** Blocks of memory that the child releases: of a thread, its stack, its
    specific data, its event data and its control block; of the native with
    this index, or of the watchdog, the stack *)
Inductive fblock : Set := FStack (t : nat) | FData (t : nat) | FEvents (t : nat) | FTcb (t : nat) | FNative (x : ndesc).

(** [fmem]: whether a thread's stack is the program's ([stackloan]), whether it
    has specific data; [fork_calls]: what was called for the fork, for the proofs. *)
Record fk : Type := Fk {
  fn : nv; pthread_atfork_info : list pthread_atfork_st; pthread_atfork_idx : Z; atfork_lock : pth_qlock_st; pth_init_lock : pth_qlock_st;
  fmem : gmap nat (bool * bool); ffreed : list fblock; pth_fork_thread : option nat }.

Definition set_fn (v : nv) (s : fk) : fk := Fk v (pthread_atfork_info s) (pthread_atfork_idx s) (atfork_lock s) (pth_init_lock s) (fmem s) (ffreed s) (pth_fork_thread s).
Definition set_pthread_atfork_info (v : list pthread_atfork_st) (s : fk) : fk := Fk (fn s) v (pthread_atfork_idx s) (atfork_lock s) (pth_init_lock s) (fmem s) (ffreed s) (pth_fork_thread s).
Definition set_pthread_atfork_idx (v : Z) (s : fk) : fk := Fk (fn s) (pthread_atfork_info s) v (atfork_lock s) (pth_init_lock s) (fmem s) (ffreed s) (pth_fork_thread s).
Definition set_atfork_lock (v : pth_qlock_st) (s : fk) : fk := Fk (fn s) (pthread_atfork_info s) (pthread_atfork_idx s) v (pth_init_lock s) (fmem s) (ffreed s) (pth_fork_thread s).
Definition set_pth_init_lock (v : pth_qlock_st) (s : fk) : fk := Fk (fn s) (pthread_atfork_info s) (pthread_atfork_idx s) (atfork_lock s) v (fmem s) (ffreed s) (pth_fork_thread s).
Definition set_fmem (v : gmap nat (bool * bool)) (s : fk) : fk := Fk (fn s) (pthread_atfork_info s) (pthread_atfork_idx s) (atfork_lock s) (pth_init_lock s) v (ffreed s) (pth_fork_thread s).
Definition set_ffreed (v : list fblock) (s : fk) : fk := Fk (fn s) (pthread_atfork_info s) (pthread_atfork_idx s) (atfork_lock s) (pth_init_lock s) (fmem s) v (pth_fork_thread s).
Definition set_pth_fork_thread (v : option nat) (s : fk) : fk := Fk (fn s) (pthread_atfork_info s) (pthread_atfork_idx s) (atfork_lock s) (pth_init_lock s) (fmem s) (ffreed s) v.

Definition onn {A} : M nv A -> M fk A := zoom fn set_fn.
Definition onfs {A} (c : M sst A) : M fk A := onn (ons c).
Definition onfw {A} (c : M world A) : M fk A := onn (onnw c).
Definition freed (b : fblock) : M fk unit := modify (fun s => set_ffreed (ffreed s ++ [b]) s).

(** ** The table of handlers *)

Definition pth_atfork_push (prepare parent child arg : Z) : M nv bool :=
  s ← get;
  if bool_decide (pth_atfork_idx s > PTH_ATFORK_MAX - 1) then mret false
  else
    of_option OutOfBounds (pth_atfork_list s !! Z.to_nat (pth_atfork_idx s));;
    modify (set_pth_atfork_list (<[Z.to_nat (pth_atfork_idx s) := Atfork prepare parent child arg]> (pth_atfork_list s)));;
    modify (set_pth_atfork_idx (pth_atfork_idx s + 1));;
    mret true.

Definition pth_atfork_pop : M nv bool :=
  s ← get;
  if bool_decide (pth_atfork_idx s <= 0) then mret false
  else modify (set_pth_atfork_idx (pth_atfork_idx s - 1));; mret true.

Section fork.
(** Calls of a handler with an argument, and of one of [pthread_atfork]; the
    addresses of the three callbacks *)
Context (call : Z -> Z -> M fk unit) (call0 : Z -> M fk unit) (cb_prepare cb_parent cb_child : Z).

Definition atfork_entry (info : Z) : M fk pthread_atfork_st :=
  s ← get; of_option BadDeref (pthread_atfork_info s !! Z.to_nat info).
Definition call_unless_null (f : Z) : M fk unit := if bool_decide (f = 0) then mret tt else call0 f.
Definition pthread_atfork_cb_prepare (info : Z) : M fk unit := x ← atfork_entry info; call_unless_null (pa_prepare x).
Definition pthread_atfork_cb_parent (info : Z) : M fk unit := x ← atfork_entry info; call_unless_null (pa_parent x).
Definition pthread_atfork_cb_child (info : Z) : M fk unit := x ← atfork_entry info; call_unless_null (pa_child x).

(** [if (f != NULL) f(arg);] *)
Definition run_handler (f arg : Z) : M fk unit :=
  if bool_decide (f = 0) then mret tt
  else if bool_decide (f = cb_prepare) then pthread_atfork_cb_prepare arg
  else if bool_decide (f = cb_parent) then pthread_atfork_cb_parent arg
  else if bool_decide (f = cb_child) then pthread_atfork_cb_child arg
  else call f arg.

Definition pthread_atfork (prepare parent child : Z) : M fk Z :=
  s ← get;
  if bool_decide (pthread_atfork_idx s > PTH_ATFORK_MAX - 1) then mret ENOMEM
  else
    tid' ← onn current_tid;
    k ← of_res (_pth_acquire_lock tid' (atfork_lock s));
    modify (set_atfork_lock k);;
    s ← get;
    let i := pthread_atfork_idx s in
    of_option OutOfBounds (pthread_atfork_info s !! Z.to_nat i);;
    modify (set_pthread_atfork_idx (i + 1));;
    modify (fun s => set_pthread_atfork_info (<[Z.to_nat i := PAtfork prepare parent child]> (pthread_atfork_info s)) s);;
    rc ← onn (pth_atfork_push cb_prepare cb_parent cb_child i);
    modify (fun s => set_atfork_lock (_pth_release_lock tid' (atfork_lock s)).2 s);;
    mret (if (rc : bool) then 0 else ENOMEM).

Definition atfork_at (i : Z) : M fk pth_atfork_st :=
  s ← get; of_option OutOfBounds (pth_atfork_list (fn s) !! Z.to_nat i).

(** "run preparation handlers in LIFO order": from [i] - 1 down *)
Fixpoint prepare_loop (i : nat) : M fk unit :=
  match i with
  | O => mret tt
  | S i => x ← atfork_at (Z.of_nat i); run_handler (af_prepare x) (af_arg x);; prepare_loop i
  end.
(** "run parent handlers in FIFO order", and those of the child *)
Fixpoint fifo_loop (fuel : nat) (i : Z) (which : pth_atfork_st -> Z) : M fk unit :=
  match fuel with
  | O => fail Stuck
  | S fuel =>
      s ← get;
      if bool_decide (i <= pth_atfork_idx (fn s) - 1) then
        x ← atfork_at i; run_handler (which x) (af_arg x);; fifo_loop fuel (i + 1) which
      else mret tt
  end.

(** ** Threads and natives of the parent *)

Definition pth_fork_key_destroydata (t : nat) : M fk unit :=
  freed (FData t);; modify (fun s => set_fmem (alter (fun x => (x.1, false)) t (fmem s)) s).
Definition pth_fork_event_key_destroy (t : nat) : M fk unit :=
  freed (FEvents t);;
  onfs (one (modify (fun m => set_edata (alter (fun x => (None, x.2)) t (edata m)) m))).

Definition pth_fork_tcb_free (thread : option nat) : M fk unit :=
  match thread with
  | None => mret tt
  | Some t =>
      z ← onn (ona' (get_ta t));
      s ← get;
      x ← of_option BadDeref (fmem s !! t);
      (if negb (bool_decide (tstack z = 0)) && negb x.1 then freed (FStack t) else mret tt);;
      (if (x.2 : bool) then pth_fork_key_destroydata t else mret tt);;
      (match edata (evs (ss (na (fn s)))) !! t with
       | Some (Some _, _) => pth_fork_event_key_destroy t
       | _ => mret tt
       end);;
      freed (FTcb t);;
      onfs (modify (fun s => set_wo (set_threads (delete t (threads (wo s))) (wo s)) s));;
      onfs (modify (fun s => set_tx (delete t (tx s)) s))
  end.

(** The queues of the natives in use *)
Fixpoint init_queues (fuel slot : nat) : M fk unit :=
  match fuel with
  | O => fail Stuck
  | S fuel =>
      d ← onfw (get_d slot);
      if is_used d then
        onfs (onq (pqueue_init (WaitQ slot)));; onfs (onq (pqueue_init (NewQ slot)));; onfs (onq (pqueue_init (ReadyQ slot)));;
        init_queues fuel (S slot)
      else mret tt
  end.

(** All threads of a list but [current] *)
Fixpoint fork_free_loop (current : nat) (l : list nat) : M fk unit :=
  match l with
  | [] => mret tt
  | t :: l => (if bool_decide (t = current) then mret tt else pth_fork_tcb_free (Some t));; fork_free_loop current l
  end.

Definition natives_len : M fk nat := s ← get; mret (length (natives (wo (ss (na (fn s)))))).

Definition pth_fork_drop_threads (current : nat) : M fk unit :=
  s ← get;
  fork_free_loop current (tqueue (fn s));;
  onfs (onq (pqueue_init NQ));;
  onfs (onq (pqueue_init RQ));;
  onfs (onq (pqueue_init WQ));;
  onfs (onq (pqueue_init DQ));;
  onfs (onq (pqueue_init SQ));;
  n ← natives_len;
  init_queues (S n) 0.

(** The natives but the one with the tid; the result is the slot of that one. *)
Fixpoint drop_natives_loop (fuel slot this_slot : nat) (tid' : Z) : M fk nat :=
  match fuel with
  | O => fail Stuck
  | S fuel =>
      d ← onfw (get_d slot);
      this_slot ← (if is_used d && negb (bool_decide (tid' = tid d)) then
                     pth_fork_tcb_free (sched d);;
                     onn (note (KClose slot));;
                     (if bool_decide (slot = 0%nat) then mret tt else freed (FNative (Slot slot)));;
                     onn (upd_descr (Slot slot) (set_is_used false));;
                     mret this_slot
                   else mret slot);
      d ← onfw (get_d (S slot));
      if is_used d then drop_natives_loop fuel (S slot) this_slot tid' else mret this_slot
  end.

Context (gettid : M nv Z) (getpid : Z).

Definition pth_fork_drop_natives : M fk unit :=
  tid' ← onn gettid;
  onn (modify (set_pth_watchdog_enabled false));;
  s ← get;
  (if is_used (wd (fn s)) then onn (upd_descr Watchdog (set_is_used false));; freed (FNative Watchdog) else mret tt);;
  n ← natives_len;
  this_slot ← drop_natives_loop n 0 0 tid';
  onn (note (KClose this_slot)).

(** ** [pth_fork] *)

(** As in Native; [fork]: the pid, in the child 0; the locks of the standard
    streams *)
Context (pagesize : Z) (switch : M sst unit) (destroy : last_call -> nat -> M sst unit) (time_now : sst -> Z)
  (nn : Z -> option nat -> M ast (option nat)) (mctx_set : bool) (child_name : list Z) (pipe_ok : M nv bool) (sched_name sched_func : Z)
  (fork : M fk Z) (mctx_switch : M fk unit) (files : list nat).

(** As in [pth_init], but the priority is set before the policy. *)
Definition fork_attrs (a : nat) (size : Z) : M nv unit :=
  let set op v := ona' (pth_attr_set (Some a) op v) in
  set PTH_ATTR_PRIO (xprio_get_max SCHED_FIFO 0).1;;
  set PTH_ATTR_SCHEDPOLICY SCHED_FIFO;;
  set PTH_ATTR_NAME sched_name;;
  set PTH_ATTR_JOINABLE 0;;
  set PTH_ATTR_CANCEL_STATE PTH_CANCEL_DISABLE;;
  set PTH_ATTR_STACK_SIZE size;;
  set PTH_ATTR_STACK_ADDR 0;;
  mret tt.

Definition pth_fork_init (block : option tcb_block) : M nv bool :=
  n ← onnw pth_get_native_descr;
  n ← of_option BadDeref n;
  clear_natives;;
  pth_scheduler_init pipe_ok;;
  s ← get;
  a ← ona' (pth_attr_new (pth_default_stacksize s));
  match a with
  | None => fail Aborted
  | Some a =>
      fork_attrs a (wrap 32 (pth_default_stacksize s * 1024));;
      t ← spawn switch destroy time_now nn mctx_set child_name block (Some a) sched_func 0 true;
      upd_descr (Slot n) (set_sched t);;
      match t with
      | None => ona' (pth_attr_destroy (Some a));; note (KClose 0);; fail Aborted
      | Some t =>
          d ← onnw (get_d n);
          ons (upd_x t (set_lastrannative (tid d)));;
          ona' (pth_attr_destroy (Some a));;
          upd_descr (Slot n) (set_current (Some t));;
          modify (fun s => set_pth_atfork_list (replicate (length (pth_atfork_list s)) no_atfork) s);;
          mret true
      end
  end.

(** "if not running on first native, bound and run under first native": the
    descriptor in the end *)
Fixpoint fork_on_first (fuel : nat) (c : nat) (n : nat) : M fk nat :=
  match fuel with
  | O => fail Stuck
  | S fuel =>
      d ← onfw (get_d n);
      f ← onfw (get_d 0);
      if bool_decide (tid f = tid d) then mret n
      else
        onfw (upd_t c (set_boundnative (Some 0%nat)));;
        onfs (pth_yield switch None);;
        n' ← onfw pth_get_native_descr;
        n' ← of_option BadDeref n';
        fork_on_first fuel c n'
  end.

Fixpoint init_files (l : list nat) : M fk unit :=
  match l with
  | [] => mret tt
  | m :: l => onfw (pth_mutex_init (Some m) None);; init_files l
  end.

(** The child, up to its handlers *)
Definition child_start (n c : nat) : M fk unit :=
  tid' ← onn gettid;
  onn (upd_descr (Slot n) (set_pid getpid));;
  onn (upd_descr (Slot n) (set_tid tid'));;
  onn (upd_descr (Slot n) (set_current (Some c)));;
  modify (set_pth_fork_thread (Some c));;
  onn (modify (set_pth_fork_initialized true));;
  onfw (modify (set_self (Some n)));;
  onn (modify (set_pth_key_lock qlock_free));;
  onn (modify (set_pth_usr1_lock qlock_free));;
  onn (modify (set_pth_native_lock qlock_free));;
  modify (set_pth_init_lock qlock_free);;
  (* [cal_fork_init]: the locks of the allocator *)
  pth_fork_drop_threads c.

(** The child, behind its handlers *)
Definition child_rest (futex_ok : bool) (c : nat) (block : option tcb_block) : M fk unit :=
  init_files files;;
  pth_fork_drop_natives;;
  onfs (upd_x c (set_sigactionmask 0));;
  x ← onfs (get_x c);
  (if bool_decide (sigpendcnt x > 0) then onfs (upd_x c (set_sigpendcnt 0));; onfs (upd_x c (set_sigpending 0)) else mret tt);;
  onn (modify (set_pth_initialized_minimal false));;
  onn (pth_initialize_minimal pagesize gettid futex_ok);;
  onn (pth_fork_init block);;
  f ← onfw (get_d 0);
  onn (native_acquire (tid f));;
  onn (modify (fun s => set_tqueue (c :: tqueue s) s));;
  onfw (upd_t c (set_magic true));;
  onfs (modify (fun s => set_pth_threads_count (pth_threads_count s + 1) s));;
  onn (native_release (tid f));;
  onfw (upd_t c (set_state PTH_STATE_NEW));;
  onfs (onq (pqueue_append_node (NewQ 0) c));;
  s ← get;
  (if bool_decide (pth_max_native_threads (ss (na (fn s))) > 1) then onfw (upd_t c (set_boundnative (Some 0%nat))) else mret tt);;
  mctx_switch;;
  onfs (modify (set_pth_main (Some c)));;
  onn (modify (set_pth_fork_initialized false)).

Definition pth_fork (fuel : nat) (futex_ok : bool) (block : option tcb_block) : M fk Z :=
  n ← onfw pth_get_native_descr;
  match n with
  | None => mret (-1)
  | Some n =>
      d ← onfw (get_d n);
      c ← of_option BadDeref (current d);
      n ← (if is_bounded d then mret n else fork_on_first fuel c n);
      s ← get;
      prepare_loop (Z.to_nat (pth_atfork_idx (fn s)));;
      p ← fork;
      if bool_decide (p = -1) then mret p
      else if negb (bool_decide (p = 0)) then
        fifo_loop fuel 0 af_parent;; mret p
      else
        child_start n c;;
        fifo_loop fuel 0 af_child;;
        child_rest futex_ok c block;;
        mret p
  end.
End fork.
