(* ===== verification/ForkProofs.v ===== *)
(** * Theorems on forking

    What [pthread_atfork] registers is called around [fork] in the order POSIX
    asks for ([atfork_order]); the table below it is a bounded stack
    ([atfork_refines]). *)

From S2P Require Import Prelude Bitmap Dll LinkedList Ring Priorities PQueue Time Msg Futex World Sync Event Util Sched Attr Lib.
From S2P Require Import MutexProofs LockProofs Wake SchedProofs LibProofs.
From S2P Require Import Native NativeProofs Fork.

(** ** The table *)

Inductive atfork_op : Set := Push (prepare parent child arg : Z) | Pop.
Definition atfork_exec (o : atfork_op) : M nv bool :=
  match o with Push p q c a => pth_atfork_push p q c a | Pop => pth_atfork_pop end.
(** The last one of the list is the last one pushed. *)
Definition atfork_spec (o : atfork_op) (l : list pth_atfork_st) : bool * list pth_atfork_st :=
  match o with
  | Push p q c a => if decide (length l < 128)%nat then (true, l ++ [Atfork p q c a]) else (false, l)
  | Pop => if decide (l = []) then (false, l) else (true, take (length l - 1) l)
  end.

Record atfork_rel (l : list pth_atfork_st) (s : nv) : Prop := {
  ar_len : length (pth_atfork_list s) = 128%nat;
  ar_idx : pth_atfork_idx s = Z.of_nat (length l);
  ar_tab : take (length l) (pth_atfork_list s) = l }.

Lemma atfork_rel_bound l s : atfork_rel l s -> (length l <= 128)%nat.
Proof. intros [Hl _ Ht]. rewrite <- Ht, length_take, Hl. lia. Qed.

Lemma atfork_step o l s : atfork_rel l s ->
  exists s', atfork_exec o s = Ok ((atfork_spec o l).1, s') /\ atfork_rel (atfork_spec o l).2 s'.
Proof.
  intros Hr. pose proof (atfork_rel_bound l s Hr) as Hb. destruct Hr as [Hl Hi Ht]. destruct o as [p q c a|]; cbn [atfork_exec atfork_spec].
  - unfold pth_atfork_push. rewrite (bind_run get _ _ _ _ eq_refl), Hi. unfold PTH_ATFORK_MAX. destruct (decide (length l < 128)%nat).
    + rewrite bool_decide_eq_false_2 by lia. rewrite Nat2Z.id. destruct (lookup_lt_is_Some_2 (pth_atfork_list s) (length l)) as [e He]; [lia|].
      rewrite (bind_run _ _ s e s) by (by rewrite He). eexists. split; [reflexivity|]. split; cbn.
      * by rewrite length_insert.
      * rewrite length_app. cbn. lia.
      * rewrite length_app. cbn [length]. rewrite Nat.add_1_r, (take_S_r _ _ (Atfork p q c a)) by (apply list_lookup_insert_eq; lia).
        rewrite take_insert_ge by lia. by rewrite Ht.
    + rewrite bool_decide_eq_true_2 by lia. exists s. by split.
  - unfold pth_atfork_pop. rewrite (bind_run get _ _ _ _ eq_refl), Hi. destruct (decide (l = [])) as [->|Hn].
    + rewrite bool_decide_eq_true_2 by (cbn; lia). exists s. by split.
    + assert (0 < length l)%nat by (destruct l; [done|cbn; lia]). rewrite bool_decide_eq_false_2 by lia. eexists. split; [reflexivity|]. split; cbn.
      * done.
      * rewrite length_take. lia.
      * rewrite length_take. replace ((length l - 1) `min` length l)%nat with (length l - 1)%nat by lia. rewrite <- Ht at 3. rewrite take_take. f_equal. lia.
Qed.

Fixpoint atfork_run (os : list atfork_op) : M nv (list bool) :=
  match os with [] => mret [] | o :: os => r ← atfork_exec o; rs ← atfork_run os; mret (r :: rs) end.
Fixpoint atfork_specs (os : list atfork_op) (l : list pth_atfork_st) : list bool * list pth_atfork_st :=
  match os with [] => ([], l) | o :: os => let '(r, l) := atfork_spec o l in let '(rs, l) := atfork_specs os l in (r :: rs, l) end.

(** [pth_atfork_push] and [pth_atfork_pop] keep a stack of at most 128
    entries: any sequence of calls returns what the stack returns. *)
Theorem atfork_refines os l s : atfork_rel l s ->
  exists s', atfork_run os s = Ok ((atfork_specs os l).1, s') /\ atfork_rel (atfork_specs os l).2 s'.
Proof.
  revert l s. induction os as [|o os IH]; intros l s Hr; [by exists s|].
  destruct (atfork_step o l s Hr) as (s1 & E1 & Hr1). destruct (IH _ _ Hr1) as (s2 & E2 & Hr2).
  exists s2. cbn [atfork_run atfork_specs]. rewrite (bind_run _ _ _ _ _ E1), (bind_run _ _ _ _ _ E2).
  destruct (atfork_spec o l) as [r l1]. cbn in Hr2 |- *. by destruct (atfork_specs os l1).
Qed.

(** ** The order of the handlers *)

Section order.
Context (call : Z -> Z -> M fk unit) (call0 : Z -> M fk unit) (cb_prepare cb_parent cb_child : Z).
Context (Hcb1 : cb_prepare <> 0) (Hcb2 : cb_parent <> 0) (Hcb3 : cb_parent <> cb_prepare).
Implicit Types (s : fk) (hs : list pthread_atfork_st).

Definition same_tables s s' : Prop :=
  pth_atfork_list (fn s') = pth_atfork_list (fn s) /\ pth_atfork_idx (fn s') = pth_atfork_idx (fn s) /\ pthread_atfork_info s' = pthread_atfork_info s.

(** The handlers do not register or remove handlers. *)
Context (Hcall : forall f s s', call0 f s = Ok (tt, s') -> same_tables s s').

(** [hs] are registered. *)
Record registered hs s : Prop := {
  rg_idx : pth_atfork_idx (fn s) = Z.of_nat (length hs);
  rg_pidx : pthread_atfork_idx s = Z.of_nat (length hs);
  rg_tab : forall i h, hs !! i = Some h ->
    pth_atfork_list (fn s) !! i = Some (Atfork cb_prepare cb_parent cb_child (Z.of_nat i)) /\ pthread_atfork_info s !! i = Some h;
  rg_len : length (pth_atfork_list (fn s)) = 128%nat;
  rg_plen : length (pthread_atfork_info s) = 128%nat }.

Definition tabled hs s : Prop :=
  pth_atfork_idx (fn s) = Z.of_nat (length hs) /\ forall i h, hs !! i = Some h ->
    pth_atfork_list (fn s) !! i = Some (Atfork cb_prepare cb_parent cb_child (Z.of_nat i)) /\ pthread_atfork_info s !! i = Some h.

Lemma registered_tabled hs s : registered hs s -> tabled hs s.
Proof. by intros [? _ ? _ _]. Qed.
Lemma same_tables_tabled hs s s' : same_tables s s' -> tabled hs s -> tabled hs s'.
Proof. intros (E1 & E2 & E3). unfold tabled. by rewrite E1, E2, E3. Qed.

(** The calls of some handlers, but for NULL *)
Fixpoint calls (l : list Z) : M fk unit :=
  match l with [] => mret tt | f :: l => call_unless_null call0 f;; calls l end.

Lemma calls_keep f s s' : call_unless_null call0 f s = Ok (tt, s') -> same_tables s s'.
Proof. unfold call_unless_null. case_bool_decide; [by intros [= <-]|]. apply Hcall. Qed.

Lemma calls_keep_all l s s' : calls l s = Ok (tt, s') -> same_tables s s'.
Proof.
  revert s. induction l as [|f l IH]; intros s; cbn [calls]; [by intros [= <-]|]. intros E. apply bind_inv in E as ([] & s1 & E1 & E2).
  apply calls_keep in E1 as (A1 & A2 & A3). apply IH in E2 as (B1 & B2 & B3). unfold same_tables. by rewrite B1, B2, B3, A1, A2, A3.
Qed.

Lemma entry_runs hs s i h (which : pth_atfork_st -> Z) (pick : pthread_atfork_st -> Z) {B} (k : unit -> M fk B) :
  tabled hs s -> hs !! i = Some h ->
  which = af_prepare /\ pick = pa_prepare \/ which = af_parent /\ pick = pa_parent ->
  (x ← atfork_at (Z.of_nat i); run_handler call call0 cb_prepare cb_parent cb_child (which x) (af_arg x) ≫= k) s = (call_unless_null call0 (pick h) ≫= k) s.
Proof.
  intros [_ Ht] Hi Hw. destruct (Ht i h Hi) as [E1 E2]. set (x := Atfork cb_prepare cb_parent cb_child (Z.of_nat i)) in *.
  rewrite (bind_run _ _ s x s) by (unfold atfork_at; rewrite (bind_run get _ _ _ _ eq_refl), Nat2Z.id; by rewrite E1).
  apply bind_first. unfold run_handler. cbn [af_arg x].
  assert (forall g, (y ← atfork_entry (Z.of_nat i); call_unless_null call0 (g y)) s = call_unless_null call0 (g h) s) as Hg.
  { intros g. unfold atfork_entry. rewrite (bind_run _ _ s h s); [done|]. rewrite (bind_run get _ _ _ _ eq_refl), Nat2Z.id. by rewrite E2. }
  destruct Hw as [[-> ->]|[-> ->]]; cbn [af_prepare af_parent x].
  - rewrite bool_decide_eq_false_2, bool_decide_eq_true_2 by done. apply Hg.
  - rewrite bool_decide_eq_false_2, (bool_decide_eq_false_2 (cb_parent = cb_prepare)), bool_decide_eq_true_2 by done. apply Hg.
Qed.

Lemma prepare_loop_run hs i s : tabled hs s -> (i <= length hs)%nat ->
  prepare_loop call call0 cb_prepare cb_parent cb_child i s = calls (pa_prepare <$> reverse (take i hs)) s.
Proof.
  revert s. induction i as [|i IH]; intros s Ht Hi; [by rewrite take_0|]. destruct (lookup_lt_is_Some_2 hs i) as [h Hh]; [lia|].
  cbn [prepare_loop]. rewrite (entry_runs hs s i h af_prepare pa_prepare _ Ht Hh) by by left.
  rewrite (take_S_r _ _ _ Hh), reverse_app. cbn [reverse rev_append app fmap list_fmap calls].
  apply bind_ext. intros [] s' E. apply IH; [|lia]. eapply same_tables_tabled; [by eapply calls_keep|done].
Qed.

Lemma fifo_loop_run hs k fuel i s : tabled hs s -> (i + k = length hs)%nat -> (k < fuel)%nat ->
  fifo_loop call call0 cb_prepare cb_parent cb_child fuel (Z.of_nat i) af_parent s = calls (pa_parent <$> drop i hs) s.
Proof.
  revert fuel i s. induction k as [|k IH]; intros fuel i s Ht Hi Hf; destruct fuel as [|fuel]; try lia; cbn [fifo_loop]; rewrite (bind_run get _ _ _ _ eq_refl), (proj1 Ht).
  - rewrite bool_decide_eq_false_2 by lia. by rewrite drop_ge by lia.
  - rewrite bool_decide_eq_true_2 by lia. destruct (lookup_lt_is_Some_2 hs i) as [h Hh]; [lia|].
    rewrite (entry_runs hs s i h af_parent pa_parent _ Ht Hh) by by right. rewrite (drop_S _ _ _ Hh). cbn [fmap list_fmap calls].
    apply bind_ext. intros [] s' E. replace (Z.of_nat i + 1) with (Z.of_nat (S i)) by lia. apply IH; [|lia|lia].
    eapply same_tables_tabled; [by eapply calls_keep|done].
Qed.

(** ** Registering *)

Definition on_descr (n : nat) (d : pth_descr_st) s : Prop :=
  self (wo (ss (na (fn s)))) = Some n /\ natives (wo (ss (na (fn s)))) !! n = Some d.

Lemma pthread_atfork_run hs h n d s : registered hs s -> (length hs < 128)%nat -> on_descr n d s -> atfork_lock s = qlock_free -> tid d <> 0 ->
  exists s', pthread_atfork cb_prepare cb_parent cb_child (pa_prepare h) (pa_parent h) (pa_child h) s = Ok (0, s') /\
    registered (hs ++ [h]) s' /\ na (fn s') = na (fn s) /\ atfork_lock s' = qlock_free.
Proof.
  intros [Hi Hp Ht Hl Hpl] Hlen [Hs Hd] Hfree Htid. unfold pthread_atfork. rewrite (bind_run get _ _ _ _ eq_refl), Hp. unfold PTH_ATFORK_MAX.
  rewrite bool_decide_eq_false_2 by lia. rewrite (bind_run _ _ s (tid d) s).
  2:{ unfold onn, zoom, current_tid. rewrite (bind_run _ _ (fn s) (n, d) (fn s)); [by destruct s|].
      unfold onnw, ons, zoom. rewrite (onw_same my_descr (ss (na (fn s))) (n, d)) by by apply my_descr_run. by destruct s as [[[]]]. }
  rewrite Hfree. pose proof (lock_free_take (tid d) Htid) as Ek.
  rewrite (bind_run _ _ s (QLock 1 (tid d) 1) s) by (by rewrite Ek).
  set (s1 := set_atfork_lock (QLock 1 (tid d) 1) s). rewrite (bind_run (modify (set_atfork_lock _)) _ s tt s1 eq_refl), (bind_run get _ s1 s1 s1 eq_refl).
  change (pthread_atfork_idx s1) with (pthread_atfork_idx s). change (pthread_atfork_info s1) with (pthread_atfork_info s). rewrite Hp, Nat2Z.id.
  destruct (lookup_lt_is_Some_2 (pthread_atfork_info s) (length hs)) as [e He]; [lia|]. rewrite (bind_run _ _ s1 e s1) by (by rewrite He).
  set (s2 := set_pthread_atfork_info (<[length hs := PAtfork (pa_prepare h) (pa_parent h) (pa_child h)]> (pthread_atfork_info s)) (set_pthread_atfork_idx (Z.of_nat (length hs) + 1) s1)).
  rewrite (bind_run (modify (set_pthread_atfork_idx _)) _ s1 tt (set_pthread_atfork_idx (Z.of_nat (length hs) + 1) s1) eq_refl), (bind_run (modify (fun s => set_pthread_atfork_info (<[length hs := _]> (pthread_atfork_info s)) s)) _ _ tt s2 eq_refl).
  destruct (lookup_lt_is_Some_2 (pth_atfork_list (fn s)) (length hs)) as [e2 He2]; [lia|].
  set (s3 := set_fn (set_pth_atfork_idx (Z.of_nat (length hs) + 1)
    (set_pth_atfork_list (<[length hs := Atfork cb_prepare cb_parent cb_child (Z.of_nat (length hs))]> (pth_atfork_list (fn s))) (fn s))) s2).
  rewrite (bind_run _ _ s2 true s3).
  2:{ unfold onn, zoom. change (fn s2) with (fn s). unfold pth_atfork_push. rewrite (bind_run get _ _ _ _ eq_refl), Hi. unfold PTH_ATFORK_MAX.
      rewrite bool_decide_eq_false_2 by lia. rewrite Nat2Z.id. by rewrite (bind_run _ _ (fn s) e2 (fn s)) by (by rewrite He2). }
  eexists. split; [reflexivity|]. assert (atfork_lock s3 = QLock 1 (tid d) 1) as E3 by done.
  split; [|split; [done|]].
  - split; cbn.
    + rewrite length_app. cbn. lia.
    + rewrite length_app. cbn. lia.
    + intros i g Hg. destruct (decide (i = length hs)) as [->|Hne].
      * rewrite list_lookup_middle in Hg by done. injection Hg as <-. rewrite !list_lookup_insert_eq by lia. split; [done|]. by destruct h.
      * rewrite !list_lookup_insert_ne by done. apply Ht. rewrite lookup_app_l in Hg; [done|]. apply lookup_lt_Some in Hg. rewrite length_app in Hg. cbn in Hg. lia.
    + by rewrite length_insert.
    + by rewrite length_insert.
  - cbn [atfork_lock set_atfork_lock]. by rewrite E3, lock_taken_release.
Qed.

Fixpoint register hs : M fk (list Z) :=
  match hs with
  | [] => mret []
  | h :: hs => r ← pthread_atfork cb_prepare cb_parent cb_child (pa_prepare h) (pa_parent h) (pa_child h); rs ← register hs; mret (r :: rs)
  end.

Lemma register_run hs : forall hs0 n d s, registered hs0 s -> (length hs0 + length hs <= 128)%nat -> on_descr n d s -> atfork_lock s = qlock_free -> tid d <> 0 ->
  exists s', register hs s = Ok (replicate (length hs) 0, s') /\ registered (hs0 ++ hs) s' /\ na (fn s') = na (fn s).
Proof.
  induction hs as [|h hs IH]; intros hs0 n d s Hr Hlen Hd Hl Ht; cbn [register length replicate] in *; [exists s; by rewrite app_nil_r|].
  destruct (pthread_atfork_run hs0 h n d s Hr ltac:(lia) Hd Hl Ht) as (s1 & E1 & Hr1 & Hn1 & Hl1). rewrite (bind_run _ _ _ _ _ E1).
  destruct (IH (hs0 ++ [h]) n d s1) as (s2 & E2 & Hr2 & Hn2); [done|rewrite length_app; cbn; lia|unfold on_descr; by rewrite Hn1|done|done|].
  exists s2. rewrite (bind_run _ _ _ _ _ E2). rewrite <- app_assoc in Hr2. split; [done|]. split; [done|]. congruence.
Qed.

(** ** Forking *)

Context (gettid : M nv Z) (getpid pagesize : Z) (switch : M sst unit) (destroy : last_call -> nat -> M sst unit) (time_now : sst -> Z).
Context (nn : Z -> option nat -> M ast (option nat)) (mctx_set : bool) (child_name : list Z) (pipe_ok : M nv bool) (sched_name sched_func : Z).
Context (fork : M fk Z) (mctx_switch : M fk unit) (files : list nat).

(** C36: handlers that are registered with [pthread_atfork] (at most 128) are
    called by [pth_fork] in the parent as POSIX says: the prepare handlers
    before the fork, the last registered one first; the parent handlers after
    it, in the order of registration; NULL handlers are left out.  When [fork]
    fails the parent handlers are not called, although the prepare handlers
    have been. *)
Theorem atfork_order hs n d s fuel futex_ok block :
  registered [] s -> (length hs <= 128)%nat -> (length hs < fuel)%nat -> on_descr n d s -> atfork_lock s = qlock_free -> tid d <> 0 ->
  is_Some (current d) -> is_bounded d = true \/ (exists f, natives (wo (ss (na (fn s)))) !! 0%nat = Some f /\ tid f = tid d) ->
  (forall s p s', fork s = Ok (p, s') -> p <> 0 /\ same_tables s s') ->
  exists s1, register hs s = Ok (replicate (length hs) 0, s1) /\
    pth_fork call call0 cb_prepare cb_parent cb_child gettid getpid pagesize switch destroy time_now nn mctx_set child_name pipe_ok sched_name sched_func
      fork mctx_switch files fuel futex_ok block s1 =
    (calls (pa_prepare <$> reverse hs);;
     p ← fork;
     (if bool_decide (p = -1) then mret tt else calls (pa_parent <$> hs));;
     mret p) s1.
Proof.
  intros Hr Hlen Hf Hd Hl Ht [c Hc] Hb Hfork. destruct (register_run hs [] n d s Hr ltac:(done) Hd Hl Ht) as (s1 & E1 & Hr1 & Hn1).
  exists s1. split; [done|]. cbn [app] in Hr1. apply registered_tabled in Hr1. destruct Hd as [Hs Hd]. rewrite <- Hn1 in Hs, Hd.
  assert (forall A (x : M world A) a, x (wo (ss (na (fn s1)))) = Ok (a, wo (ss (na (fn s1)))) -> onfw x s1 = Ok (a, s1)) as Hw.
  { intros A x a E. unfold onfw, onn, onnw, ons, zoom. rewrite (onw_same x (ss (na (fn s1))) a E). by destruct s1 as [[[]]]. }
  unfold pth_fork. rewrite (bind_run _ _ s1 (Some n) s1) by (apply Hw; unfold pth_get_native_descr, gets; by rewrite Hs).
  rewrite (bind_run _ _ s1 d s1) by (apply Hw; by apply get_d_run). rewrite Hc, (bind_run (of_option BadDeref (Some c)) _ s1 c s1 eq_refl).
  rewrite (bind_run _ _ s1 n s1).
  2:{ destruct (is_bounded d) eqn:Eb; [done|]. destruct Hb as [Hb|(f & Hf0 & Htid)]; [congruence|]. destruct fuel as [|fuel]; [lia|]. cbn [fork_on_first].
      rewrite <- Hn1 in Hf0. rewrite (bind_run _ _ s1 d s1) by (apply Hw; by apply get_d_run). rewrite (bind_run _ _ s1 f s1) by (apply Hw; by apply get_d_run).
      by rewrite Htid, bool_decide_eq_true_2. }
  rewrite (bind_run get _ s1 s1 s1 eq_refl), (proj1 Hr1), Nat2Z.id.
  rewrite (bind_first _ _ _ _ (prepare_loop_run hs (length hs) s1 Hr1 ltac:(done))), take_ge by done.
  apply bind_ext. intros [] s2 E2. assert (tabled hs s2) as Hr2 by (eapply same_tables_tabled; [by eapply calls_keep_all|done]).
  apply bind_ext. intros p s3 E3. destruct (Hfork _ _ _ E3) as [Hp Hsame]. assert (tabled hs s3) as Hr3 by by eapply same_tables_tabled.
  destruct (bool_decide (p = -1)); [done|]. rewrite bool_decide_eq_false_2 by done. cbn [negb].
  apply bind_first. apply (fifo_loop_run hs (length hs) fuel 0 s3 Hr3); [done|done].
Qed.
End order.

Definition fork_demo : fk :=
  Fk (native_demo ∅ (set_wo (set_self (Some 0%nat) (wo (lib_demo (QMem ∅ ∅ ∅) ∅))) (lib_demo (QMem ∅ ∅ ∅) ∅)))
    (replicate 128 (PAtfork 0 0 0)) 0 qlock_free qlock_free ∅ [] None.

Lemma demo_registered : registered 91 92 93 [] fork_demo.
Proof. split; try reflexivity. intros i h. by rewrite lookup_nil. Qed.

(** Handlers that are recorded, by their addresses *)
Definition recorded (f : Z) : M fk unit := onn (note (KKill f 0)).

Lemma recorded_keeps f s s' : recorded f s = Ok (tt, s') -> same_tables s s'.
Proof. unfold recorded, onn, zoom, note, modify. intros [= <-]. done. Qed.

Lemma atfork_order_witness :
  exists s1 s2, register 91 92 93 [PAtfork 11 12 13; PAtfork 0 22 0; PAtfork 31 32 33] fork_demo = Ok ([0; 0; 0], s1) /\
    pth_fork (fun _ _ => fail Stuck) recorded 91 92 93 (mret 100) 1 4096 (mret tt) (fun _ _ => mret tt) (fun _ => 0) (fun _ _ => mret None) true [] (mret true) 0 0
      (recorded 0;; mret 77) (mret tt) [] 4 true None s1 = Ok (77, s2) /\
    kcalls (fn s2) = [KKill 31 0; KKill 11 0; KKill 0 0; KKill 12 0; KKill 22 0; KKill 32 0].
Proof.
  destruct (atfork_order (fun _ _ => fail Stuck) recorded 91 92 93 ltac:(lia) ltac:(lia) ltac:(lia) recorded_keeps
    (mret 100) 1 4096 (mret tt) (fun _ _ => mret tt) (fun _ => 0) (fun _ _ => mret None) true [] (mret true) 0 0 (recorded 0;; mret 77) (mret tt) []
    [PAtfork 11 12 13; PAtfork 0 22 0; PAtfork 31 32 33] 0 (a_native 100 7) fork_demo 4 true None) as (s1 & E1 & E2).
  - exact demo_registered.
  - cbn. lia.
  - cbn. lia.
  - done.
  - done.
  - done.
  - by eexists.
  - right. by eexists.
  - intros s p s' E. apply bind_inv in E as ([] & s1 & E1 & E2). apply recorded_keeps in E1. injection E2 as <- <-. done.
  - exists s1. match type of E2 with _ = ?r => destruct r as [[p s2]|e] eqn:E3 end.
    + exists s2. vm_compute in E1. injection E1 as <-. vm_compute in E3. injection E3 as <- <-. split; [reflexivity|]. split; [exact E2|reflexivity].
    + exfalso. vm_compute in E1. injection E1 as <-. vm_compute in E3. done.
Defined.

Lemma atfork_refines_witness :
  exists s', atfork_run [Push 1 2 3 4; Pop; Pop; Push 5 6 7 8] (fn fork_demo) = Ok ([true; true; false; true], s') /\ atfork_rel [Atfork 5 6 7 8] s'.
Proof. apply (atfork_refines [Push 1 2 3 4; Pop; Pop; Push 5 6 7 8] [] (fn fork_demo)). split; reflexivity. Defined.
