(* ===== verification/TdManager.v ===== *)
(** * Threads under a debugger (td_manager.c, td_manager.h, [pth_spawn_cb] of pth_lib.c)

    What the library does for a debugger that is attached: the table of thread
    handles, the events, the manager thread that serves the requests of
    [pthread_create], and [pth_spawn] with the callback of the manager.  [dbg]
    is the state of Native with these tables.  The breakpoint functions and the
    signals raised are recorded.  [others] is what the other natives do while
    one waits for a pipe or for a lock; the wait for the debugger's restart
    signal is a parameter, too. *)

From S2P Require Import Prelude Bitmap Dll LinkedList Ring Priorities PQueue Time Msg Futex World Sync Event Util Sched Attr Lib Native.

Definition MAX_TD_DEBUG_HANDLES : Z := 10240.
Definition MANAGER_STACKSIZE : Z := 32.
Definition PTHREADS_EAGAIN : Z := 11.
Definition SIGTRAP : Z := 5.

Definition TD_EVENT_NONE : Z := 0.
Definition TD_CREATE : Z := 8.
Definition TD_DEATH : Z := 9.
Definition TD_REAP : Z := 12.

(** [td_thr_events_t] *)
Record td_thr_events : Set := TdEvents { ev_word0 : Z; ev_word1 : Z }.
Definition __td_eventmask (n : Z) : Z := Z.shiftl 1 (Z.land (n - 1) 31).
Definition __td_eventword (n : Z) : Z := Z.shiftr (n - 1) 5.
(** The data of an event: a thread, or the address of [__pthread_manager_thread] *)
Inductive event_data : Set := NoData | DThread (t : nat) | DManager.
Record td_eventbuf : Set := TdEventbuf { eventmask : td_thr_events; eventnum : Z; eventdata : event_data }.

(** The members of [struct pth_st] for the debugger *)
Record td_st : Set := Td { td_tid : option nat; td_nr : Z; td_retcode : Z; td_retval : option nat; td_report_events : Z; td_events : td_eventbuf }.
Definition set_td_tid (v : option nat) (x : td_st) : td_st := Td v (td_nr x) (td_retcode x) (td_retval x) (td_report_events x) (td_events x).
Definition set_td_nr (v : Z) (x : td_st) : td_st := Td (td_tid x) v (td_retcode x) (td_retval x) (td_report_events x) (td_events x).
Definition set_td_retcode (v : Z) (x : td_st) : td_st := Td (td_tid x) (td_nr x) v (td_retval x) (td_report_events x) (td_events x).
Definition set_td_retval (v : option nat) (x : td_st) : td_st := Td (td_tid x) (td_nr x) (td_retcode x) v (td_report_events x) (td_events x).
Definition set_td_report_events (v : Z) (x : td_st) : td_st := Td (td_tid x) (td_nr x) (td_retcode x) (td_retval x) v (td_events x).
Definition set_td_events (v : td_eventbuf) (x : td_st) : td_st := Td (td_tid x) (td_nr x) (td_retcode x) (td_retval x) (td_report_events x) v.

(** A request to the manager; [req_thread_lock]: the thread whose lock it is *)
Inductive req_kind : Set :=
  | REQ_CREATE (attr : option nat) (fn arg mask : Z) | REQ_FREE (thread_id : nat) | REQ_PROCESS_EXIT (code : Z)
  | REQ_MAIN_THREAD_EXIT (code : Z) | REQ_POST (sem : Z) | REQ_DEBUG | REQ_KICK.
Record pthread_request : Set := Request { req_thread : option nat; req_thread_lock : option nat; req : req_kind }.

(** The functions that a debugger sets breakpoints in, and system calls *)
Inductive dcall : Set := BpCreate | BpDeath | BpReap | DRaise (sig : Z) | DSetscheduler (pid : Z) | DClosePipe.

Record dbg : Type := Dbg {
  dn : nv;
  tds : gmap nat td_st;
  handles : list (option nat);
  handles_num : Z;
  handles_lock : pth_qlock_st;
  manager_setup_lock : pth_qlock_st;
  threads_debug : bool;
  doing_debug : bool;
  manager_thread : option nat;
  manager_request : Z;
  manager_pipe : list pthread_request;
  threads_events : td_thr_events;
  last_event : option nat;
  dcalls : list dcall }.

Definition set_dn (v : nv) (s : dbg) : dbg := Dbg v (tds s) (handles s) (handles_num s) (handles_lock s) (manager_setup_lock s) (threads_debug s) (doing_debug s) (manager_thread s) (manager_request s) (manager_pipe s) (threads_events s) (last_event s) (dcalls s).
Definition set_tds (v : gmap nat td_st) (s : dbg) : dbg := Dbg (dn s) v (handles s) (handles_num s) (handles_lock s) (manager_setup_lock s) (threads_debug s) (doing_debug s) (manager_thread s) (manager_request s) (manager_pipe s) (threads_events s) (last_event s) (dcalls s).
Definition set_handles (v : list (option nat)) (s : dbg) : dbg := Dbg (dn s) (tds s) v (handles_num s) (handles_lock s) (manager_setup_lock s) (threads_debug s) (doing_debug s) (manager_thread s) (manager_request s) (manager_pipe s) (threads_events s) (last_event s) (dcalls s).
Definition set_handles_num (v : Z) (s : dbg) : dbg := Dbg (dn s) (tds s) (handles s) v (handles_lock s) (manager_setup_lock s) (threads_debug s) (doing_debug s) (manager_thread s) (manager_request s) (manager_pipe s) (threads_events s) (last_event s) (dcalls s).
Definition set_handles_lock (v : pth_qlock_st) (s : dbg) : dbg := Dbg (dn s) (tds s) (handles s) (handles_num s) v (manager_setup_lock s) (threads_debug s) (doing_debug s) (manager_thread s) (manager_request s) (manager_pipe s) (threads_events s) (last_event s) (dcalls s).
Definition set_manager_setup_lock (v : pth_qlock_st) (s : dbg) : dbg := Dbg (dn s) (tds s) (handles s) (handles_num s) (handles_lock s) v (threads_debug s) (doing_debug s) (manager_thread s) (manager_request s) (manager_pipe s) (threads_events s) (last_event s) (dcalls s).
Definition set_threads_debug (v : bool) (s : dbg) : dbg := Dbg (dn s) (tds s) (handles s) (handles_num s) (handles_lock s) (manager_setup_lock s) v (doing_debug s) (manager_thread s) (manager_request s) (manager_pipe s) (threads_events s) (last_event s) (dcalls s).
Definition set_doing_debug (v : bool) (s : dbg) : dbg := Dbg (dn s) (tds s) (handles s) (handles_num s) (handles_lock s) (manager_setup_lock s) (threads_debug s) v (manager_thread s) (manager_request s) (manager_pipe s) (threads_events s) (last_event s) (dcalls s).
Definition set_manager_thread (v : option nat) (s : dbg) : dbg := Dbg (dn s) (tds s) (handles s) (handles_num s) (handles_lock s) (manager_setup_lock s) (threads_debug s) (doing_debug s) v (manager_request s) (manager_pipe s) (threads_events s) (last_event s) (dcalls s).
Definition set_manager_request (v : Z) (s : dbg) : dbg := Dbg (dn s) (tds s) (handles s) (handles_num s) (handles_lock s) (manager_setup_lock s) (threads_debug s) (doing_debug s) (manager_thread s) v (manager_pipe s) (threads_events s) (last_event s) (dcalls s).
Definition set_manager_pipe (v : list pthread_request) (s : dbg) : dbg := Dbg (dn s) (tds s) (handles s) (handles_num s) (handles_lock s) (manager_setup_lock s) (threads_debug s) (doing_debug s) (manager_thread s) (manager_request s) v (threads_events s) (last_event s) (dcalls s).
Definition set_threads_events (v : td_thr_events) (s : dbg) : dbg := Dbg (dn s) (tds s) (handles s) (handles_num s) (handles_lock s) (manager_setup_lock s) (threads_debug s) (doing_debug s) (manager_thread s) (manager_request s) (manager_pipe s) v (last_event s) (dcalls s).
Definition set_last_event (v : option nat) (s : dbg) : dbg := Dbg (dn s) (tds s) (handles s) (handles_num s) (handles_lock s) (manager_setup_lock s) (threads_debug s) (doing_debug s) (manager_thread s) (manager_request s) (manager_pipe s) (threads_events s) v (dcalls s).
Definition set_dcalls (v : list dcall) (s : dbg) : dbg := Dbg (dn s) (tds s) (handles s) (handles_num s) (handles_lock s) (manager_setup_lock s) (threads_debug s) (doing_debug s) (manager_thread s) (manager_request s) (manager_pipe s) (threads_events s) (last_event s) v.

Definition ondn {A} : M nv A -> M dbg A := zoom dn set_dn.
Definition onds {A} (c : M sst A) : M dbg A := ondn (ons c).
Definition ondw {A} (c : M world A) : M dbg A := ondn (onnw c).
Definition onda {A} (c : M ast A) : M dbg A := ondn (ona' c).

Definition get_td (t : nat) : M dbg td_st := s ← get; of_option BadDeref (tds s !! t).
Definition upd_td (t : nat) (f : td_st -> td_st) : M dbg unit := x ← get_td t; modify (fun s => set_tds (<[t := f x]> (tds s)) s).
Definition called (c : dcall) : M dbg unit := modify (fun s => set_dcalls (dcalls s ++ [c]) s).
Definition word_of (e : td_thr_events) (w : Z) : M dbg Z :=
  if bool_decide (w = 0) then mret (ev_word0 e) else if bool_decide (w = 1) then mret (ev_word1 e) else fail OutOfBounds.

(** ** The table of handles *)

Definition td_add_handle (t : nat) : M dbg (option Z) :=
  s ← get;
  if bool_decide (handles_num s = MAX_TD_DEBUG_HANDLES) then mret None
  else
    let indx := if bool_decide (pth_main (ss (na (dn s))) = Some t) then 0
                else if bool_decide (manager_thread s = Some t) then 1 else handles_num s in
    h ← of_option OutOfBounds (handles s !! Z.to_nat indx);
    (if bool_decide (h = Some t) then mret tt
     else modify (set_handles (<[Z.to_nat indx := Some t]> (handles s)));; upd_td t (set_td_nr indx));;
    (if bool_decide (indx > 1) then modify (fun s => set_handles_num (handles_num s + 1) s) else mret tt);;
    mret (Some indx).

(** The walk over [pth_threads_queue] *)
Fixpoint add_handles (l : list nat) : M dbg unit :=
  match l with
  | [] => mret tt
  | t :: l => h ← td_add_handle t; match h with None => mret tt | Some _ => add_handles l end
  end.

Definition __td_sync_handles : M dbg unit :=
  tid' ← ondn current_tid;
  ondn (native_acquire tid');;
  s ← get;
  k ← of_res (_pth_acquire_lock tid' (handles_lock s));
  modify (set_handles_lock k);;
  modify (set_handles_num 2);;
  add_handles (tqueue (dn s));;
  ondn (native_release tid');;
  modify (fun s => set_handles_lock (_pth_release_lock tid' (handles_lock s)).2 s).

(** ** Events *)

Definition event_call (td_event : Z) : M dbg unit :=
  if bool_decide (td_event = TD_CREATE) then called BpCreate
  else if bool_decide (td_event = TD_DEATH) then called BpDeath
  else if bool_decide (td_event = TD_REAP) then called BpReap
  else mret tt.

Definition __pthread_signal_thread_event (current : option nat) (target : nat) (td_event : Z) : M dbg unit :=
  s ← get;
  c ← (match current with
       | Some c => mret c
       | None => h ← of_option OutOfBounds (handles s !! 0%nat); of_option BadDeref h
       end);
  x ← get_td c;
  if bool_decide (td_report_events x = 0) then mret tt
  else
    let idx := __td_eventword td_event in
    g ← word_of (threads_events s) idx;
    e ← word_of (eventmask (td_events x)) idx;
    if bool_decide (Z.land (__td_eventmask td_event) (Z.lor g e) = 0) then mret tt
    else
      upd_td target (fun y => set_td_events (TdEventbuf (eventmask (td_events y)) td_event (DThread target)) y);;
      modify (set_last_event (Some target));;
      event_call td_event.

(** A new native is reported as a thread on the stack of the caller, of which
    nothing but [boundnative] is set; [lwp] is its address. *)
Definition zero_td : td_st := Td None 0 0 None 0 (TdEventbuf (TdEvents 0 0) TD_EVENT_NONE NoData).
Definition zero_pth : pth_st := Pth None 0 0 PTH_STATE_SCHEDULER false false 0 0 0 0 None None None None pth_ring_init qlock_free false.
Definition pth_report_lwp_state_change (lwp descr : nat) (td_event : Z) : M dbg unit :=
  modify (fun s => set_tds (<[lwp := zero_td]> (tds s)) s);;
  ondw (modify (fun w => set_threads (<[lwp := set_boundnative (Some descr) zero_pth]> (threads w)) w));;
  s ← get;
  __pthread_signal_thread_event (pth_main (ss (na (dn s)))) lwp td_event;;
  modify (fun s => set_tds (delete lwp (tds s)) s);;
  ondw (modify (fun w => set_threads (delete lwp (threads w)) w)).

Section manager.
Context (switch : M sst unit) (destroy : last_call -> nat -> M sst unit).
Context (time_now : sst -> Z) (nn : Z -> option nat -> M ast (option nat)) (mctx_set : bool) (child_name : list Z).
(** What other natives do meanwhile; the wait for a restart; [sem_post]; the
    signals of the debugger; the names and addresses of functions *)
Context (others wait_restart : M dbg unit) (sem_post : Z -> M dbg unit) (sig_debug : Z).
Context (manager_name manager_func manager_event_func request_addr : Z).

(** ** Creating threads *)

(** [pth_spawn_cb]: [request] where [arg] points to a request, and the callback *)
Definition pth_spawn_cb (block : option tcb_block) (attr : option nat) (func arg : Z) (is_sched : bool)
    (request : option pthread_request) (thr_complete : option (nat -> M dbg unit)) : M dbg (option nat) :=
  s0 ← get;
  let default := pth_default_stacksize (dn s0) in
  '(stacksize, stackaddr) ← (match attr with
                             | None => mret (wrap 32 (default * 1024), 0)
                             | Some a => x ← onda (get_a a); mret (a_stacksize x, a_stackaddr x)
                             end);
  thread ← onda (pth_tcb_alloc block stacksize stackaddr);
  match thread with
  | None => mret None
  | Some t =>
      '(n, cur) ← (match (if doing_debug s0 && bool_decide (is_Some thr_complete) then request else None) with
                   | Some r =>
                       c ← of_option BadDeref (req_thread r);
                       y ← ondw (get_t c);
                       n ← (match boundnative y with
                            | Some k => mret k
                            | None =>
                                x ← onds (get_x c);
                                k ← ondn (pth_find_native_by_tid (lastrannative x));
                                of_option BadDeref k
                            end);
                       mret (n, Some c)
                   | None => '(n, d) ← ondw my_descr; mret (n, current d)
                   end);
      d ← ondw (get_d n);
      '(scope, suspended) ← onda (spawn_attributes child_name attr t cur (tid d));
      onda (spawn_init time_now t cur func arg is_sched);;
      s ← get;
      z ← onda (get_ta t);
      let cq := if bool_decide (pth_max_native_threads (ss (na (dn s))) = 1) then NewQ n else NQ in
      (match thr_complete with Some f => f t | None => mret tt end);;
      upd_td t (set_td_tid (Some t));;
      if bool_decide (0 < tstacksize z) && negb mctx_set then
        ondn (free_mem (tstack z) (tstacksize z + 8));;
        onds (modify (fun s => set_wo (set_threads (delete t (threads (wo s))) (wo s)) s));;
        onds (modify (fun s => set_tx (delete t (tx s)) s));;
        mret None
      else
        let cq := if bool_decide (0 < tstacksize z) then cq else NewQ n in
        onds (upd_x t (set_mctx_sigs (kmask (ss (na (dn s))))));;
        if is_sched then mret (Some t)
        else
          ondn (native_acquire (tid d));;
          ondn (modify (fun s => set_tqueue (t :: tqueue s) s));;
          ondw (upd_t t (set_magic true));;
          onds (modify (fun s => set_pth_threads_count (pth_threads_count s + 1) s));;
          ondn (native_release (tid d));;
          let cq := if bool_decide (suspended = 1) then SQ else cq in
          r ← (if bool_decide (scope = PTH_SCOPE_PROCESS) then
                 ok ← onda (spawn_native switch (pth_threads_per_native (dn s)) nn n scope);
                 mret (if (ok : bool) then Some cq else None)
               else
                 ds ← onda (nn scope (Some t));
                 ondw (upd_t t (set_boundnative ds));;
                 match ds with
                 | None => mret None
                 | Some k => onds (modify (fun s => set_pth_max_native_threads (pth_max_native_threads s + 1) s));; mret (Some (ReadyQ k))
                 end);
          match r with
          | None => ondn (tcb_free destroy (Some t));; mret None
          | Some cq =>
              k ← (match request with Some _ => mret n | None => '(k, _) ← ondw my_descr; mret k end);
              d ← ondw (get_d k);
              (if doing_debug s then __td_sync_handles;; __pthread_signal_thread_event cur t TD_CREATE else mret tt);;
              onda (spawn_enqueue t cq (tid d));;
              mret (Some t)
          end
  end.

(** The callback: the true argument of the start routine, which was the request *)
Definition td_thread_complete (request : pthread_request) (new_thread : nat) : M dbg unit :=
  (match req request with
   | REQ_CREATE _ _ arg _ => onda (upd_ta new_thread (set_start_arg arg))
   | _ => mret tt
   end);;
  upd_td new_thread (set_td_tid (Some new_thread)).

(** The result is the return code and the thread. *)
Definition td_thread_create (block : option tcb_block) (request : pthread_request) : M dbg (Z * option nat) :=
  match req request with
  | REQ_CREATE attr fn _ _ =>
      t ← pth_spawn_cb block attr fn request_addr false (Some request) (Some (td_thread_complete request));
      mret (if bool_decide (t = None) then PTHREADS_EAGAIN else 0, t)
  | _ => fail Undefined
  end.

(** ** The manager *)

Definition poke_natives : M dbg unit :=
  r ← onds (onq (pqueue_total RQ));
  q ← onds (onq (pqueue_total NQ));
  s ← get;
  if bool_decide (r + q > 0) then ondn (wake_idle (S (length (natives (wo (ss (na (dn s))))))) 1) else mret tt.

Definition __pthread_manager_adjust_prio : M dbg unit :=
  n ← ondw pth_get_native_descr;
  n ← of_option BadDeref n;
  d ← ondw (get_d n);
  called (DSetscheduler (pid d)).

(** One request.  [td_handle_free] and [td_handle_exit] do nothing. *)
Definition serve (block : option tcb_block) (request : pthread_request) : M dbg unit :=
  (match req request with
   | REQ_CREATE _ _ _ _ =>
       '(retcode, retdata) ← td_thread_create block request;
       c ← of_option BadDeref (req_thread request);
       upd_td c (set_td_retcode retcode);;
       upd_td c (set_td_retval retdata)
   | REQ_POST sem => sem_post sem
   | REQ_DEBUG => s ← get; if threads_debug s then called (DRaise sig_debug) else mret tt
   | _ => mret tt
   end);;
  match req_thread_lock request with
  | Some c => ondw (unlock_thread c 1)
  | None => mret tt
  end.

(** One turn of the server loop: [poll] finds a request or times out. *)
Definition manager_turn (block : option tcb_block) : M dbg unit :=
  s ← get;
  (match manager_pipe s with
   | request :: l => modify (set_manager_pipe l);; serve block request
   | [] => mret tt
   end);;
  s ← get;
  if pth_watchdog_enabled (dn s) then poke_natives else mret tt.

(** The first request, which nobody serves: it says that the debugger is ready. *)
Fixpoint first_request (fuel : nat) : M dbg unit :=
  match fuel with
  | O => fail Stuck
  | S fuel =>
      s ← get;
      match manager_pipe s with
      | _ :: l => modify (set_manager_pipe l)
      | [] => others;; first_request fuel
      end
  end.
Fixpoint manager_turns (blocks : list (option tcb_block)) : M dbg unit :=
  match blocks with [] => mret tt | b :: blocks => manager_turn b;; manager_turns blocks end.
(** [blocks]: one turn each; the loop has no end. *)
Definition __pthread_manager (fuel : nat) (blocks : list (option tcb_block)) : M dbg unit :=
  onds (modify (set_kmask (sigdelset (sigdelset (Z.ones 64) SIGTRAP) sig_debug)));;
  __pthread_manager_adjust_prio;;
  first_request fuel;;
  manager_turns blocks.

Definition setup_acquire : M dbg unit :=
  tid' ← ondn current_tid;
  s ← get; k ← of_res (_pth_acquire_lock tid' (manager_setup_lock s)); modify (set_manager_setup_lock k).
Definition setup_release : M dbg unit :=
  tid' ← ondn current_tid;
  modify (fun s => set_manager_setup_lock (_pth_release_lock tid' (manager_setup_lock s)).2 s).

(** The lock is free, or [others] make progress. *)
Fixpoint await_setup (fuel : nat) : M dbg unit :=
  match fuel with
  | O => fail Stuck
  | S fuel =>
      s ← get;
      if bool_decide (spinlock (manager_setup_lock s) = 0) then setup_acquire else others;; await_setup fuel
  end.
Definition __pthread_manager_event (fuel : nat) (blocks : list (option tcb_block)) : M dbg unit :=
  await_setup fuel;; setup_release;; __pthread_manager fuel blocks.

Definition manager_complete (t : nat) : M dbg unit :=
  s ← get; if doing_debug s then modify (set_manager_thread (Some t)) else mret tt.

(** [write(__pthread_manager_request, ...)]: nothing is written to -1. *)
Definition put_request (r : pthread_request) : M dbg unit :=
  s ← get; if bool_decide (manager_request s < 0) then mret tt else modify (set_manager_pipe (manager_pipe s ++ [r])).

(** The lock of the thread is taken when the manager has released it. *)
Fixpoint await_thread_lock (fuel : nat) (c : nat) (tid' : Z) : M dbg unit :=
  match fuel with
  | O => fail Stuck
  | S fuel =>
      x ← ondw (get_t c);
      if bool_decide (spinlock (tlock x) = 0) || bool_decide (owner (tlock x) = tid') then ondw (lock_thread c tid')
      else others;; await_thread_lock fuel c tid'
  end.
Definition td_manager_submit_request (fuel : nat) (r : pthread_request) (lock : option nat) : M dbg unit :=
  let r := Request (req_thread r) lock (req r) in
  match lock with
  | None => put_request r
  | Some c =>
      ondw (lock_thread c 1);;
      put_request r;;
      tid' ← ondn current_tid;
      await_thread_lock fuel c tid';;
      ondw (unlock_thread c tid')
  end.

(** The attributes of the manager *)
Definition manager_attrs (a : nat) : M dbg unit :=
  let set op v := onda (pth_attr_set (Some a) op v) in
  set PTH_ATTR_SCHEDPOLICY SCHED_FIFO;;
  set PTH_ATTR_PRIO (xprio_get_max SCHED_FIFO 0).1;;
  set PTH_ATTR_NAME manager_name;;
  set PTH_ATTR_JOINABLE 0;;
  set PTH_ATTR_CANCEL_STATE PTH_CANCEL_DISABLE;;
  set PTH_ATTR_SCOPE PTHREAD_SCOPE_SYSTEM;;
  set PTH_ATTR_STACK_SIZE (MANAGER_STACKSIZE * 1024);;
  set PTH_ATTR_STACK_ADDR 0;;
  mret tt.

(** The manager's thread; [None]: it cannot be created. *)
Definition start_manager (block : option tcb_block) (a : nat) (func : Z) : M dbg (option nat) :=
  t ← pth_spawn_cb block (Some a) func 0 false None (Some manager_complete);
  modify (set_manager_thread t);;
  (match t with
   | None => setup_release;; onda (pth_attr_destroy (Some a));; called DClosePipe;; called DClosePipe
   | Some _ => mret tt
   end);;
  mret t.
Definition manager_handle (t : nat) : M dbg unit :=
  s ← get;
  of_option OutOfBounds (handles s !! 1%nat);;
  modify (set_handles (<[1%nat := Some t]> (handles s)));;
  upd_td t (set_td_tid (Some t));;
  upd_td t (set_td_nr 1).

(** [init]: [pth_init], which has been called already *)
Definition __pthread_initialize_manager (init : M nv bool) (pipe_ok : bool) (block : option tcb_block) : M dbg Z :=
  ondn init;;
  if negb pipe_ok then setup_release;; mret (-1)
  else
    n ← ondw pth_get_native_descr;
    match n with
    | None => fail Aborted
    | Some n =>
        s ← get;
        a ← onda (pth_attr_new (pth_default_stacksize (dn s)));
        match a with
        | None => fail Aborted
        | Some a =>
            manager_attrs a;;
            s ← get;
            m ← of_option BadDeref (pth_main (ss (na (dn s))));
            x ← get_td m;
            ok ← (if bool_decide (td_report_events x = 0) then
                    t ← start_manager block a manager_func;
                    match t with Some t => manager_handle t;; mret true | None => mret false end
                  else
                    let idx := __td_eventword TD_CREATE in
                    g ← word_of (threads_events s) idx;
                    e ← word_of (eventmask (td_events x)) idx;
                    if bool_decide (Z.land (__td_eventmask TD_CREATE) (Z.lor g e) = 0) then mret true
                    else
                      t ← start_manager block a manager_event_func;
                      match t with
                      | None => mret false
                      | Some t =>
                          upd_td t (fun y => set_td_events (TdEventbuf (eventmask (td_events y)) TD_CREATE DManager) y);;
                          modify (set_last_event (Some t));;
                          manager_handle t;;
                          called BpCreate;;
                          mret true
                      end);
            if negb ok then mret 0
            else
              onda (pth_attr_destroy (Some a));;
              d ← ondw (get_d n);
              s ← get;
              t ← of_option BadDeref (manager_thread s);
              onds (upd_x t (set_lastrannative (tid d)));;
              (* the descriptors of the pipe *)
              modify (set_manager_request 1);;
              s ← get;
              (if doing_debug s && threads_debug s then called (DRaise sig_debug);; wait_restart else mret tt);;
              put_request (Request None None REQ_DEBUG);;
              setup_release;;
              onds (pth_yield switch (Some t));;
              mret 0
        end
    end.

(** [pthread_create] under a debugger, behind the tests of the arguments: the
    return code and the thread *)
Definition debug_create (fuel : nat) (init : M nv bool) (pipe_ok : bool) (block : option tcb_block) (na' : option nat) (start_routine arg : Z) : M dbg (Z * option nat) :=
  s ← get;
  r ← (if bool_decide (manager_request s < 0) then __pthread_initialize_manager init pipe_ok block else mret 0);
  if bool_decide (r < 0) then mret (PTHREADS_EAGAIN, None)
  else
    c ← ondw pth_get_current;
    s ← get;
    c ← of_option BadDeref c;
    td_manager_submit_request fuel (Request (Some c) None (REQ_CREATE na' start_routine arg (kmask (ss (na (dn s)))))) (Some c);;
    x ← get_td c;
    mret (td_retcode x, td_retval x).
End manager.
