(* ===== verification/ThreadDb.v ===== *)
(** * The debugger's side (src/thread_db)

    libthread_db runs in the debugger and looks at the memory of the program
    through the debugger's functions ([ps_pdread], [ps_lgetregs], ...).  An
    address is the object it belongs to ([taddr]); what the debugger can read
    and write, and which symbols it finds, are parameters.  [tdb] joins the
    program ([tg], see TdManager) with the data of the library.  The functions
    that only return a constant are left out. *)

From S2P Require Import Prelude Bitmap Dll LinkedList Ring Priorities PQueue Time Msg Futex World Sync Event Util Sched Attr Lib Native TdManager.

Definition MAX_NATIVE_LIST : nat := 128.

Inductive td_err_e : Set :=
  | TD_OK | TD_ERR | TD_NOTHR | TD_NOSV | TD_NOLWP | TD_BADPH | TD_BADTH | TD_BADSH | TD_BADTA | TD_BADKEY | TD_NOMSG | TD_NOFPREGS
  | TD_NOLIBTHREAD | TD_NOEVENT | TD_NOCAPAB | TD_DBERR | TD_NOAPLIC | TD_NOTSD | TD_MALLOC | TD_PARTIALREG | TD_NOXREGS.
Inductive td_thr_state_e : Set :=
  | TD_THR_ANY_STATE | TD_THR_UNKNOWN | TD_THR_STOPPED | TD_THR_RUN | TD_THR_ACTIVE | TD_THR_ZOMBIE | TD_THR_SLEEP | TD_THR_STOPPED_ASLEEP.
Inductive td_thr_type_e : Set := TD_THR_ANY_TYPE | TD_THR_USER | TD_THR_SYSTEM.

#[global] Instance td_err_eq_dec : EqDecision td_err_e.
Proof. solve_decision. Defined.
#[global] Instance td_thr_state_eq_dec : EqDecision td_thr_state_e.
Proof. solve_decision. Defined.

(** The symbols that are looked up *)
Inductive tsym : Set :=
  | PTHREAD_THREADS_EVENTS | PTHREAD_LAST_EVENT | PTHREAD_HANDLES_NUM | PTHREAD_HANDLES | PTHREAD_NATIVE_LIST | PTHREAD_NUMBER_OF_NATIVES
  | PTHREAD_KEYS | LINUXTHREADS_PTHREAD_THREADS_MAX | LINUXTHREADS_PTHREAD_KEYS_MAX | LINUXTHREADS_PTHREAD_SIZEOF_DESCR
  | LINUXTHREADS_CREATE_EVENT | LINUXTHREADS_DEATH_EVENT | LINUXTHREADS_REAP_EVENT | PTHREAD_DOING_DEBUG.

(** Addresses in the program: a variable, [n] handles from the index [i] on, a
    control block, its event buffer, the mask of it, its flag for reports, its
    saved registers, the first [n] natives, [n] keys *)
Inductive taddr : Set :=
  | AVar (v : tsym) | AHandles (i n : nat) | ATcb (t : nat) | AEventbuf (t : nat) | AEventmask (t : nat) | AReport (t : nat)
  | AMctx (t : nat) | AFpregs (t : nat) | ANatives (n : nat) | AKeys (n : nat).

Record td_thragent : Set := Ta { ta_ph : Z; pthread_threads_max : Z; pthread_keys_max : Z; sizeof_descr : Z }.
(** [th_unique]: the thread; [None] is NULL *)
Record td_thrhandle : Set := Th { th_ta_p : nat; th_unique : option nat }.

Record targ_lwp_info : Set := Lwps { num_lwps : Z; lwp_info_tab : list pth_descr_st }.

Record td_thrinfo : Set := Thrinfo {
  ti_ta_p : nat; ti_tid : option nat; ti_startfunc : Z; ti_state : option td_thr_state_e; ti_type : td_thr_type_e;
  ti_pri : Z; ti_lid : Z; ti_traceme : bool; ti_events : td_thr_events }.

Record td_event_msg : Set := EventMsg { msg_event : Z; msg_th : td_thrhandle; msg_data : event_data }.

(** [agents]: [__td_agent_list]; [ta_mem]: the agents that are allocated;
    [t_mallocs]: what [malloc] will answer; [native_list]: the static copy of the
    natives; [tkeys]: the keys of the program, used and destructor; [tvals]:
    whether a thread has specific data; [lregs], [lfpregs]: the registers of a
    kernel thread; [mgregs], [mfpregs]: those saved in a control block. *)
Record tdb : Type := Tdb {
  tg : dbg; agents : list nat; ta_mem : gmap nat td_thragent; t_mallocs : list (option nat); native_list : list pth_descr_st;
  tkeys : list (bool * Z); tvals : gmap nat bool;
  lregs : gmap Z (list Z); lfpregs : gmap Z (list Z); mgregs : gmap nat (list Z); mfpregs : gmap nat (option (list Z)) }.

Definition set_tg (v : dbg) (s : tdb) : tdb := Tdb v (agents s) (ta_mem s) (t_mallocs s) (native_list s) (tkeys s) (tvals s) (lregs s) (lfpregs s) (mgregs s) (mfpregs s).
Definition set_agents (v : list nat) (s : tdb) : tdb := Tdb (tg s) v (ta_mem s) (t_mallocs s) (native_list s) (tkeys s) (tvals s) (lregs s) (lfpregs s) (mgregs s) (mfpregs s).
Definition set_ta_mem (v : gmap nat td_thragent) (s : tdb) : tdb := Tdb (tg s) (agents s) v (t_mallocs s) (native_list s) (tkeys s) (tvals s) (lregs s) (lfpregs s) (mgregs s) (mfpregs s).
Definition set_t_mallocs (v : list (option nat)) (s : tdb) : tdb := Tdb (tg s) (agents s) (ta_mem s) v (native_list s) (tkeys s) (tvals s) (lregs s) (lfpregs s) (mgregs s) (mfpregs s).
Definition set_native_list (v : list pth_descr_st) (s : tdb) : tdb := Tdb (tg s) (agents s) (ta_mem s) (t_mallocs s) v (tkeys s) (tvals s) (lregs s) (lfpregs s) (mgregs s) (mfpregs s).
Definition set_lregs (v : gmap Z (list Z)) (s : tdb) : tdb := Tdb (tg s) (agents s) (ta_mem s) (t_mallocs s) (native_list s) (tkeys s) (tvals s) v (lfpregs s) (mgregs s) (mfpregs s).
Definition set_lfpregs (v : gmap Z (list Z)) (s : tdb) : tdb := Tdb (tg s) (agents s) (ta_mem s) (t_mallocs s) (native_list s) (tkeys s) (tvals s) (lregs s) v (mgregs s) (mfpregs s).
Definition set_mgregs (v : gmap nat (list Z)) (s : tdb) : tdb := Tdb (tg s) (agents s) (ta_mem s) (t_mallocs s) (native_list s) (tkeys s) (tvals s) (lregs s) (lfpregs s) v (mfpregs s).
Definition set_mfpregs (v : gmap nat (option (list Z))) (s : tdb) : tdb := Tdb (tg s) (agents s) (ta_mem s) (t_mallocs s) (native_list s) (tkeys s) (tvals s) (lregs s) (lfpregs s) (mgregs s) v.

Definition ontg {A} : M dbg A -> M tdb A := zoom tg set_tg.
Definition tworld (s : tdb) : world := wo (ss (na (dn (tg s)))).

(** The control block, as far as the library reads it *)
Record pds : Set := Pds { p_pth : pth_st; p_tcb : tcb; p_attr : tattr; p_td : td_st }.
Definition pds_of (s : tdb) (t : nat) : option pds :=
  x ← threads (tworld s) !! t; y ← tx (ss (na (dn (tg s)))) !! t; z ← ta (na (dn (tg s))) !! t; d ← tds (tg s) !! t; Some (Pds x y z d).

Definition is_state (x : pth_st) (v : pth_state_t) : bool := bool_decide (state x = v).
Definition td_thread_terminated (x : pds) : bool := is_state (p_pth x) PTH_STATE_DEAD || is_state (p_pth x) PTH_STATE_EXIT.
Definition td_thread_exited (x : pds) : bool := is_state (p_pth x) PTH_STATE_EXIT.
Definition td_thread_detached (x : pds) : bool := bool_decide (joinable (p_pth x) = 0).

Section debugger.
Context (readable writeable : taddr -> bool) (symbols : tsym -> bool) (ps_getpid : Z) (PTHREAD_THREADS_MAX PTHREAD_KEYS_MAX SIZEOF_DESCR : Z).
(** The value of a variable of the program that it does not change *)
Context (constant : tsym -> Z).

(** [ps_pdread] of the value that is at an address, if it is mapped *)
Definition pdread {A} (a : taddr) (v : tdb -> option A) : M tdb (option A) :=
  s ← get; mret (if readable a then v s else None).
Definition pdwrite (a : taddr) (c : M dbg unit) : M tdb bool :=
  if writeable a then ontg c;; mret true else mret false.
Definition td_lookup (v : tsym) : M tdb bool := mret (symbols v).

(** ** Agents *)

Definition ta_ok (ta : option nat) : M tdb bool :=
  s ← get; mret (match ta with None => false | Some a => bool_decide (a ∈ agents s) end).
Definition get_agent (a : nat) : M tdb td_thragent := s ← get; of_option BadDeref (ta_mem s !! a).
Definition t_malloc : M tdb (option nat) :=
  s ← get; match t_mallocs s with [] => fail Stuck | b :: l => modify (set_t_mallocs l);; mret b end.
Definition t_free (a : nat) : M tdb unit := modify (fun s => set_ta_mem (delete a (ta_mem s)) s).

(** A number of the program, or the one the library was built with *)
Definition max_of (v : tsym) (default : Z) : M tdb (option Z) :=
  ok ← td_lookup v; if (ok : bool) then pdread (AVar v) (fun _ => Some (constant v)) else mret (Some default).

(** All symbols of a list are there *)
Fixpoint lookup_all (l : list tsym) : M tdb bool :=
  match l with [] => mret true | v :: l => ok ← td_lookup v; if (ok : bool) then lookup_all l else mret false end.

Definition td_ta_new (ps : Z) : M tdb (td_err_e * option nat) :=
  ok ← td_lookup PTHREAD_THREADS_EVENTS;
  if negb ok then mret (TD_NOLIBTHREAD, None)
  else
    a ← t_malloc;
    match a with
    | None => mret (TD_MALLOC, None)
    | Some a =>
        let free_return := t_free a;; mret (TD_ERR, Some a) in
        ok ← lookup_all [PTHREAD_LAST_EVENT; PTHREAD_HANDLES_NUM; PTHREAD_HANDLES; PTHREAD_KEYS];
        if negb ok then free_return
        else
          m ← max_of LINUXTHREADS_PTHREAD_THREADS_MAX PTHREAD_THREADS_MAX;
          match m with
          | None => free_return
          | Some m =>
              k ← max_of LINUXTHREADS_PTHREAD_KEYS_MAX PTHREAD_KEYS_MAX;
              match k with
              | None => free_return
              | Some k =>
                  z ← max_of LINUXTHREADS_PTHREAD_SIZEOF_DESCR SIZEOF_DESCR;
                  match z with
                  | None => free_return
                  | Some z =>
                      e ← t_malloc;
                      match e with
                      | None => t_free a;; mret (TD_MALLOC, Some a)
                      | Some _ =>
                          ok ← td_lookup PTHREAD_DOING_DEBUG;
                          if negb ok then free_return
                          else
                            w ← pdwrite (AVar PTHREAD_DOING_DEBUG) (modify (set_doing_debug true));
                            if negb w then free_return
                            else
                              modify (fun s => set_ta_mem (<[a := Ta ps m k z]> (ta_mem s)) s);;
                              modify (fun s => set_agents (a :: agents s) s);;
                              mret (TD_OK, Some a)
                      end
                  end
              end
          end
    end.

(** [ta] is unlinked, wherever it is in the list. *)
Fixpoint unlink_agent (a : nat) (l : list nat) : option (list nat) :=
  match l with
  | [] => None
  | b :: l => if bool_decide (a = b) then Some l else l' ← unlink_agent a l; Some (b :: l')
  end.
Definition td_ta_delete (ta : option nat) : M tdb td_err_e :=
  s ← get;
  match ta with
  | None => mret TD_BADTA
  | Some a =>
      match unlink_agent a (agents s) with
      | None => mret TD_BADTA
      | Some l => modify (set_agents l);; t_free a;; mret TD_OK
      end
  end.

Definition td_ta_get_nthreads (ta : option nat) : M tdb (td_err_e * Z) :=
  ok ← ta_ok ta;
  if negb ok then mret (TD_BADTA, 0)
  else
    f ← td_lookup PTHREAD_HANDLES_NUM;
    if negb f then mret (TD_ERR, 0)
    else
      n ← pdread (AVar PTHREAD_HANDLES_NUM) (fun s => Some (handles_num (tg s)));
      mret (match n with None => (TD_ERR, 0) | Some n => (TD_OK, n) end).

Definition td_ta_get_ph (ta : option nat) : M tdb (td_err_e * Z) :=
  ok ← ta_ok ta;
  match ta with
  | Some a => if (ok : bool) then x ← get_agent a; mret (TD_OK, ta_ph x) else mret (TD_BADTA, 0)
  | None => mret (TD_BADTA, 0)
  end.

(** ** Iteration over threads *)

Definition read_tcb (t : option nat) : M tdb (option pds) :=
  match t with None => mret None | Some t => pdread (ATcb t) (fun s => pds_of s t) end.
Definition read_handles (i n : nat) : M tdb (option (list (option nat))) :=
  pdread (AHandles i n) (fun s => if decide (i + n <= length (handles (tg s)))%nat then Some (take n (drop i (handles (tg s)))) else None).

(** The callback gets the handle of a thread. *)
Definition handle_descr (a : nat) (callback : td_thrhandle -> M tdb Z) (state : td_thr_state_e) (ti_pri : Z) (cnt : nat) (descr : option nat) : M tdb td_err_e :=
  x ← read_tcb descr;
  match x with
  | None => mret TD_OK
  | Some x =>
      if bool_decide (cnt = 1%nat) && bool_decide (lastrannative (p_tcb x) = 0) then mret TD_OK
      else if bool_decide (prio (p_pth x) < ti_pri) then mret TD_OK
      else if negb (bool_decide (state = TD_THR_ANY_STATE)) then mret TD_OK
      else if td_thread_exited x then mret TD_OK
      else
        r ← callback (Th a descr);
        mret (if bool_decide (r = 0) then TD_OK else TD_DBERR)
  end.

(** The slots from [cnt] on *)
Fixpoint handle_all (a : nat) (callback : td_thrhandle -> M tdb Z) (state : td_thr_state_e) (ti_pri : Z) (cnt : nat) (phc : list (option nat)) : M tdb td_err_e :=
  match phc with
  | [] => mret TD_OK
  | None :: phc => handle_all a callback state ti_pri (S cnt) phc
  | Some t :: phc =>
      result ← handle_descr a callback state ti_pri cnt (Some t);
      if bool_decide (result = TD_OK) then handle_all a callback state ti_pri (S cnt) phc else mret result
  end.

Definition td_ta_thr_iter (ta : option nat) (callback : td_thrhandle -> M tdb Z) (state : td_thr_state_e) (ti_pri : Z) : M tdb td_err_e :=
  ok ← ta_ok ta;
  match ta with
  | None => mret TD_BADTA
  | Some a =>
      if negb ok then mret TD_BADTA
      else
        x ← get_agent a;
        two ← read_handles 0 2;
        match two with
        | Some [main; manager] =>
            r ← handle_descr a callback state ti_pri 0 main;
            if negb (bool_decide (r = TD_OK)) then mret r
            else
              r ← handle_descr a callback state ti_pri 1 manager;
              if negb (bool_decide (r = TD_OK)) then mret r
              else
                phc ← read_handles 2 (Z.to_nat (pthread_threads_max x - 2));
                match phc with
                | None => mret TD_ERR
                | Some phc => handle_all a callback state ti_pri 2 phc
                end
        | _ => mret TD_ERR
        end
  end.

(** ** Finding threads *)

Definition td_ta_map_id2thr (ta : option nat) (pt : option nat) : M tdb (td_err_e * option td_thrhandle) :=
  ok ← ta_ok ta;
  match ta with
  | None => mret (TD_BADTA, None)
  | Some a =>
      if negb ok then mret (TD_BADTA, None)
      else
        x ← read_tcb pt;
        mret (match x with
              | None => (TD_ERR, None)
              | Some x => if td_thread_terminated x then (TD_NOTHR, None) else (TD_OK, Some (Th a pt))
              end)
  end.

(** The natives: [num_natives], and the static array, of which the rest keeps
    what an earlier call has read.  The addresses of symbols do not change. *)
Definition get_targ_lwp_info : M tdb (td_err_e * targ_lwp_info) :=
  s ← get;
  let none := Lwps 0 [] in
  ok ← lookup_all [PTHREAD_NATIVE_LIST; PTHREAD_NUMBER_OF_NATIVES];
  if negb ok then mret (TD_ERR, none)
  else
    n ← pdread (AVar PTHREAD_NUMBER_OF_NATIVES) (fun s => Some (pth_number_of_natives (tworld s)));
    match n with
    | None => mret (TD_BADTA, none)
    | Some n =>
        if bool_decide (n > 0) then
          if bool_decide (n > Z.of_nat MAX_NATIVE_LIST) then fail OutOfBounds
          else
            l ← pdread (ANatives (Z.to_nat n)) (fun s => Some (take (Z.to_nat n) (natives (tworld s))));
            match l with
            | None => mret (TD_BADTA, none)
            | Some l => let t := l ++ drop (Z.to_nat n) (native_list s) in modify (set_native_list t);; mret (TD_OK, Lwps n t)
            end
        else mret (TD_OK, Lwps n (native_list s))
    end.

(** The address of a descriptor is its index. *)
Definition get_targ_lwp_descr (lip : option targ_lwp_info) (descr_addr : nat) : M tdb (td_err_e * option pth_descr_st) :=
  l ← (match lip with
       | Some l => mret (Some l)
       | None => '(e, l) ← get_targ_lwp_info; mret (if bool_decide (e = TD_OK) then Some l else None)
       end);
  match l with
  | None => mret (TD_BADTA, None)
  | Some l =>
      if bool_decide (Z.of_nat descr_addr > num_lwps l) then mret (TD_ERR, None)
      else d ← of_option OutOfBounds (lwp_info_tab l !! descr_addr); mret (TD_OK, Some d)
  end.

(** The first of the [n] descriptors that runs [t] *)
Fixpoint running_lwp (l : list pth_descr_st) (n : nat) (t : option nat) : option Z :=
  match n, l with
  | S n, d :: l => if is_used d && bool_decide (current d = t) then Some (tid d) else running_lwp l n t
  | _, _ => None
  end.

(** [thr_descr_p], [lwp_info_p]: where they are not passed in, [None] *)
Definition get_targ_lwp_from_thr (th : td_thrhandle) (thr_descr_p : option pds) (lwp_info_p : option targ_lwp_info) : M tdb (td_err_e * Z) :=
  x ← (match thr_descr_p with Some x => mret (Some x) | None => read_tcb (th_unique th) end);
  match x with
  | None => mret (TD_ERR, 0)
  | Some x =>
      l ← (match lwp_info_p with
           | Some l => mret (Some l)
           | None => '(e, l) ← get_targ_lwp_info; mret (if bool_decide (e = TD_OK) then Some l else None)
           end);
      match l with
      | None => mret (TD_BADTA, 0)
      | Some l =>
          let from_descr k :=
            '(e, d) ← get_targ_lwp_descr (Some l) k;
            match d with
            | None => mret None
            | Some d => mret (Some (if is_used d then tid d else 0))
            end in
          r ← (match boundnative (p_pth x), waited_native (p_pth x) with
               | Some k, _ => from_descr k
               | None, Some k =>
                   if is_state (p_pth x) PTH_STATE_WAITING then from_descr k
                   else mret (Some (default 0 (running_lwp (lwp_info_tab l) (Z.to_nat (num_lwps l)) (th_unique th))))
               | None, None => mret (Some (default 0 (running_lwp (lwp_info_tab l) (Z.to_nat (num_lwps l)) (th_unique th))))
               end);
          match r with
          | None => mret (TD_BADTA, 0)
          | Some lwpid =>
              mret (TD_OK, if bool_decide (lwpid = 0) then
                             if bool_decide (lastrannative (p_tcb x) = 0) then ps_getpid else lastrannative (p_tcb x)
                           else lwpid)
          end
      end
  end.

(** The scan for a kernel thread: the thread of the last native seen and
    whether one was found; the scan ends at a native that is used. *)
Fixpoint lwp_scan (l : list pth_descr_st) (n : nat) (lwpid : Z) (curr : option nat) (foundit : bool) : option nat * bool :=
  match n, l with
  | S n, d :: l =>
      if bool_decide (tid d = lwpid) then
        if is_used d then (current d, true) else lwp_scan l n lwpid (current d) true
      else lwp_scan l n lwpid curr foundit
  | _, _ => (curr, foundit)
  end.

Definition td_ta_map_lwp2thr (ta : option nat) (lwpid : Z) : M tdb (td_err_e * option td_thrhandle) :=
  ok ← ta_ok ta;
  match ta with
  | None => mret (TD_BADTA, None)
  | Some a =>
      if negb ok then mret (TD_BADTA, None)
      else
        '(e, l) ← get_targ_lwp_info;
        if negb (bool_decide (e = TD_OK)) then mret (TD_BADTA, None)
        else
          let do_main_thread :=
            h ← read_handles 0 1;
            mret (match h with Some [h] => (TD_OK, Some (Th a h)) | _ => (TD_BADTA, None) end) in
          if bool_decide (num_lwps l = 0) then do_main_thread
          else
            match lwp_scan (lwp_info_tab l) (Z.to_nat (num_lwps l)) lwpid None false with
            | (Some t, _) => td_ta_map_id2thr ta (Some t)
            | (None, foundit) =>
                if foundit && bool_decide (num_lwps l = 1) then do_main_thread else mret (TD_NOLWP, None)
            end
  end.

(** The first [num] handles *)
Fixpoint validate_loop (th : td_thrhandle) (num cnt : nat) : M tdb td_err_e :=
  match num with
  | O => mret TD_ERR
  | S num =>
      h ← read_handles cnt 1;
      match h with
      | Some [Some t] =>
          if bool_decide (Some t = th_unique th) then
            x ← read_tcb (Some t);
            mret (match x with None => TD_ERR | Some x => if td_thread_terminated x then TD_NOTHR else TD_OK end)
          else validate_loop th num (S cnt)
      | Some [None] => validate_loop th num (S cnt)
      | _ => mret TD_ERR
      end
  end.
Definition td_thr_validate (th : td_thrhandle) : M tdb td_err_e :=
  get_agent (th_ta_p th);;
  n ← pdread (AVar PTHREAD_HANDLES_NUM) (fun s => Some (handles_num (tg s)));
  match n with None => mret TD_ERR | Some n => validate_loop th (Z.to_nat n) 0 end.

(** ** Information about a thread *)

Definition td_thr_get_info (th : td_thrhandle) : M tdb (td_err_e * option td_thrinfo) :=
  get_agent (th_ta_p th);;
  x ← read_tcb (th_unique th);
  match x with
  | None => mret (TD_ERR, None)
  | Some x =>
      let system := bool_decide (td_nr (p_td x) = 1) || is_state (p_pth x) PTH_STATE_SCHEDULER in
      let state := if system then TD_THR_ACTIVE
                   else if negb (td_thread_terminated x) then TD_THR_ACTIVE
                   else if negb (td_thread_detached x) then TD_THR_ZOMBIE else TD_THR_UNKNOWN in
      '(e, lid) ← get_targ_lwp_from_thr th (Some x) None;
      if negb (bool_decide (e = TD_OK)) then mret (TD_ERR, None)
      else
        mret (TD_OK, Some (Thrinfo (th_ta_p th) (td_tid (p_td x)) (start_func (p_attr x)) (Some state)
                (if system then TD_THR_SYSTEM else TD_THR_USER) (if system then 0 else prio (p_pth x)) lid
                (negb (bool_decide (td_report_events (p_td x) = 0))) (eventmask (td_events (p_td x)))))
  end.

(** ** Thread specific data *)

Fixpoint tsd_loop (callback : Z -> Z -> M tdb Z) (cnt : Z) (l : list (bool * Z)) : M tdb td_err_e :=
  match l with
  | [] => mret TD_OK
  | (used, destructor) :: l =>
      if used then
        r ← callback cnt destructor;
        if bool_decide (r = 0) then tsd_loop callback (cnt + 1) l else mret TD_DBERR
      else tsd_loop callback (cnt + 1) l
  end.
Definition td_ta_tsd_iter (ta : option nat) (callback : Z -> Z -> M tdb Z) : M tdb td_err_e :=
  ok ← ta_ok ta;
  match ta with
  | None => mret TD_BADTA
  | Some a =>
      if negb ok then mret TD_BADTA
      else
        x ← get_agent a;
        let n := Z.to_nat (pthread_keys_max x) in
        l ← pdread (AKeys n) (fun s => if decide (n <= length (tkeys s))%nat then Some (take n (tkeys s)) else None);
        match l with None => mret TD_ERR | Some l => tsd_loop callback 0 l end
  end.

(** The entry that is read is the first of the keys.  [pds.p_specific] is an
    address of the program, which the library dereferences itself. *)
Definition td_thr_tsd (th : td_thrhandle) (tk : Z) : M tdb (td_err_e * Z) :=
  a ← get_agent (th_ta_p th);
  x ← read_tcb (th_unique th);
  match x with
  | None => mret (TD_ERR, 0)
  | Some _ =>
      if bool_decide (tk >= pthread_keys_max a) then mret (TD_BADKEY, 0)
      else
        k ← pdread (AKeys 1) (fun s => tkeys s !! 0%nat);
        match k with
        | None => mret (TD_ERR, 0)
        | Some (used, _) => if negb used then mret (TD_BADKEY, 0) else fail BadDeref
        end
  end.

(** ** Events *)

Definition read_event (t : nat) : M tdb (option td_eventbuf) :=
  pdread (AEventbuf t) (fun s => td_events <$> tds (tg s) !! t).
Definition zero_eventbuf : td_eventbuf := TdEventbuf (TdEvents 0 0) TD_EVENT_NONE NoData.
(** "And clear the event message in the target" *)
Definition clear_event (t : nat) : M tdb bool := pdwrite (AEventbuf t) (upd_td t (set_td_events zero_eventbuf)).

(** The first thread, but [addr], whose event is not reported; [num] threads are
    counted.  The result is NULL for a read that fails. *)
Fixpoint event_scan (addr : nat) (event : td_eventbuf) (num : Z) (l : list (option nat)) : M tdb (option (nat * td_eventbuf)) :=
  match l with
  | [] => mret (Some (addr, event))
  | h :: l =>
      if bool_decide (num > 0) then
        match h with
        | None => event_scan addr event num l
        | Some t =>
            if bool_decide (t = addr) then event_scan addr event (num - 1) l
            else
              e ← read_event t;
              match e with
              | None => mret None
              | Some e => if bool_decide (eventnum e = TD_EVENT_NONE) then event_scan addr e (num - 1) l else mret (Some (t, e))
              end
        end
      else mret (Some (addr, event))
  end.

Definition report (a t : nat) (event : td_eventbuf) : M tdb (td_err_e * option td_event_msg) :=
  w ← clear_event t;
  mret (if (w : bool) then TD_OK else TD_ERR, Some (EventMsg (eventnum event) (Th a (Some t)) (eventdata event))).

Definition td_ta_event_getmsg (ta : option nat) : M tdb (td_err_e * option td_event_msg) :=
  ok ← ta_ok ta;
  match ta with
  | None => mret (TD_BADTA, None)
  | Some a =>
      if negb ok then mret (TD_BADTA, None)
      else
        x ← get_agent a;
        addr ← pdread (AVar PTHREAD_LAST_EVENT) (fun s => Some (last_event (tg s)));
        match addr with
        | None => mret (TD_ERR, None)
        | Some None => mret (TD_NOMSG, None)
        | Some (Some addr) =>
            e ← read_event addr;
            match e with
            | None => mret (TD_ERR, None)
            | Some e =>
                if bool_decide (eventnum e = TD_EVENT_NONE) then
                  num ← pdread (AVar PTHREAD_HANDLES_NUM) (fun s => Some (handles_num (tg s)));
                  match num with
                  | None => mret (TD_ERR, None)
                  | Some num =>
                      l ← read_handles 0 (Z.to_nat (pthread_threads_max x));
                      match l with
                      | None => mret (TD_ERR, None)
                      | Some l =>
                          r ← event_scan addr e num l;
                          match r with
                          | None => mret (TD_ERR, None)
                          | Some (t, e) => if bool_decide (eventnum e = TD_EVENT_NONE) then mret (TD_NOMSG, None) else report a t e
                          end
                      end
                  end
                else report a addr e
            end
        end
  end.

Definition td_thr_event_getmsg (th : td_thrhandle) : M tdb (td_err_e * option td_event_msg) :=
  get_agent (th_ta_p th);;
  match th_unique th with
  | None => mret (TD_ERR, None)
  | Some t =>
      e ← read_event t;
      match e with
      | None => mret (TD_ERR, None)
      | Some e => if bool_decide (eventnum e = TD_EVENT_NONE) then mret (TD_NOMSG, None) else report (th_ta_p th) t e
      end
  end.

(** The function the debugger sets a breakpoint in *)
Definition td_ta_event_addr (ta : option nat) (event : Z) : M tdb (td_err_e * option tsym) :=
  ok ← ta_ok ta;
  if negb ok then mret (TD_BADTA, None)
  else
    let idx := if bool_decide (event = TD_CREATE) then Some LINUXTHREADS_CREATE_EVENT
               else if bool_decide (event = TD_DEATH) then Some LINUXTHREADS_DEATH_EVENT
               else if bool_decide (event = TD_REAP) then Some LINUXTHREADS_REAP_EVENT else None in
    match idx with
    | None => mret (TD_NOEVENT, None)
    | Some v => f ← td_lookup v; mret (if (f : bool) then (TD_OK, Some v) else (TD_ERR, None))
    end.

Definition or_events (e v : td_thr_events) : td_thr_events := TdEvents (Z.lor (ev_word0 e) (ev_word0 v)) (Z.lor (ev_word1 e) (ev_word1 v)).
Definition clear_events (e v : td_thr_events) : td_thr_events := TdEvents (Z.ldiff (ev_word0 e) (ev_word0 v)) (Z.ldiff (ev_word1 e) (ev_word1 v)).

(** The masks are read and written with the size of [td_thrhandle_t], which is
    that of [td_thr_events_t] where addresses have 32 bits. *)
Definition change_events (ta : option nat) (f : td_thr_events -> td_thr_events) : M tdb td_err_e :=
  ok ← ta_ok ta;
  if negb ok then mret TD_BADTA
  else
    old ← pdread (AVar PTHREAD_THREADS_EVENTS) (fun s => Some (threads_events (tg s)));
    match old with
    | None => mret TD_ERR
    | Some e => w ← pdwrite (AVar PTHREAD_THREADS_EVENTS) (modify (set_threads_events (f e))); mret (if (w : bool) then TD_OK else TD_ERR)
    end.
Definition td_ta_set_event (ta : option nat) (event : td_thr_events) : M tdb td_err_e := change_events ta (fun e => or_events e event).
Definition td_ta_clear_event (ta : option nat) (event : td_thr_events) : M tdb td_err_e := change_events ta (fun e => clear_events e event).

Definition change_thr_events (th : td_thrhandle) (f : td_thr_events -> td_thr_events) : M tdb td_err_e :=
  get_agent (th_ta_p th);;
  match th_unique th with
  | None => mret TD_ERR
  | Some t =>
      old ← pdread (AEventmask t) (fun s => (fun x => eventmask (td_events x)) <$> tds (tg s) !! t);
      match old with
      | None => mret TD_ERR
      | Some e =>
          w ← pdwrite (AEventmask t) (upd_td t (fun x => set_td_events (TdEventbuf (f e) (eventnum (td_events x)) (eventdata (td_events x))) x));
          mret (if (w : bool) then TD_OK else TD_ERR)
      end
  end.
Definition td_thr_set_event (th : td_thrhandle) (event : td_thr_events) : M tdb td_err_e := change_thr_events th (fun e => or_events e event).
Definition td_thr_clear_event (th : td_thrhandle) (event : td_thr_events) : M tdb td_err_e := change_thr_events th (fun e => clear_events e event).

Definition td_thr_event_enable (th : td_thrhandle) (onoff : Z) : M tdb td_err_e :=
  get_agent (th_ta_p th);;
  match th_unique th with
  | None => mret TD_ERR
  | Some t => w ← pdwrite (AReport t) (upd_td t (set_td_report_events onoff)); mret (if (w : bool) then TD_OK else TD_ERR)
  end.

(** ** Registers (ia32) *)

Definition reg (l : list Z) (i : nat) : Z := nth i l 0.
Definition td_utils_gregset_to_prgregset (g : list Z) : list Z :=
  [reg g 8; reg g 10; reg g 9; reg g 5; reg g 4; reg g 6; reg g 11; reg g 3; reg g 2; reg g 1; reg g 0; reg g 11; reg g 14; reg g 15; reg g 16; reg g 17; reg g 18].
Definition td_utils_prgregset_to_gregset (p : list Z) : list Z :=
  [reg p 10; reg p 9; reg p 8; reg p 7; reg p 4; reg p 3; reg p 5; reg p 15; reg p 0; reg p 2; reg p 1; reg p 6; 0; 0; reg p 12; reg p 13; reg p 14; reg p 15; reg p 16].

(** The kernel thread whose registers are those of a thread; 0: they are in the
    control block. *)
Definition lwp_of_regs (th : td_thrhandle) (x : pds) (l : targ_lwp_info) : M tdb (option Z) :=
  match boundnative (p_pth x) with
  | Some k =>
      '(e, d) ← get_targ_lwp_descr (Some l) k;
      mret (match d with None => None | Some d => Some (if is_used d then tid d else 0) end)
  | None =>
      f ← (match lwp_info_tab l with d :: _ => mret d | [] => fail OutOfBounds end);
      if bool_decide (num_lwps l = 1) && bool_decide (current f = None) then mret (Some (tid f))
      else mret (Some (default 0 (running_lwp (lwp_info_tab l) (Z.to_nat (num_lwps l)) (th_unique th))))
  end.

(** The four functions have the same beginning: the result is an error, that the
    thread has terminated, or the kernel thread. *)
Inductive where_regs : Set := RError (e : td_err_e) | RTerminated | RLwp (lwpid : Z).
Definition find_regs (th : td_thrhandle) : M tdb where_regs :=
  get_agent (th_ta_p th);;
  x ← read_tcb (th_unique th);
  match x with
  | None => mret (RError TD_ERR)
  | Some x =>
      if td_thread_terminated x then mret RTerminated
      else
        '(e, l) ← get_targ_lwp_info;
        if negb (bool_decide (e = TD_OK)) then mret (RError TD_BADTA)
        else w ← lwp_of_regs th x l; mret (match w with None => RError TD_BADTA | Some lwpid => RLwp lwpid end)
  end.

Definition thread_of (th : td_thrhandle) : M tdb nat := of_option BadDeref (th_unique th).

Definition td_thr_getgregs (th : td_thrhandle) : M tdb (td_err_e * list Z) :=
  w ← find_regs th;
  match w with
  | RError e => mret (e, [])
  | RTerminated => mret (TD_OK, replicate 17 0)
  | RLwp lwpid =>
      s ← get;
      if bool_decide (lwpid = 0) then
        t ← thread_of th; g ← of_option BadDeref (mgregs s !! t); mret (TD_OK, td_utils_gregset_to_prgregset g)
      else mret (match lregs s !! lwpid with None => (TD_ERR, []) | Some r => (TD_OK, r) end)
  end.

Definition td_thr_setgregs (th : td_thrhandle) (gregs : list Z) : M tdb td_err_e :=
  w ← find_regs th;
  match w with
  | RError e => mret e
  | RTerminated => mret TD_ERR
  | RLwp lwpid =>
      s ← get;
      if bool_decide (lwpid = 0) then
        t ← thread_of th;
        if writeable (AMctx t) then modify (set_mgregs (<[t := td_utils_prgregset_to_gregset gregs]> (mgregs s)));; mret TD_OK
        else mret TD_ERR
      else
        match lregs s !! lwpid with
        | None => mret TD_ERR
        | Some _ => modify (set_lregs (<[lwpid := gregs]> (lregs s)));; mret TD_OK
        end
  end.

(** [mfpregs]: the area the saved context points to, if it points anywhere.  It is
    inside of the control block, as [getcontext] leaves it. *)
Definition td_thr_getfpregs (th : td_thrhandle) : M tdb (td_err_e * list Z) :=
  w ← find_regs th;
  match w with
  | RError e => mret (e, [])
  | RTerminated => mret (TD_OK, replicate 27 0)
  | RLwp lwpid =>
      s ← get;
      if bool_decide (lwpid = 0) then
        t ← thread_of th; g ← of_option BadDeref (mfpregs s !! t);
        mret (TD_OK, match g with None => replicate 27 0 | Some g => g end)
      else mret (match lfpregs s !! lwpid with None => (TD_ERR, []) | Some r => (TD_OK, r) end)
  end.

Definition td_thr_setfpregs (th : td_thrhandle) (fpregs : list Z) : M tdb td_err_e :=
  w ← find_regs th;
  match w with
  | RError e => mret e
  | RTerminated => mret TD_ERR
  | RLwp lwpid =>
      s ← get;
      if bool_decide (lwpid = 0) then
        t ← thread_of th; g ← of_option BadDeref (mfpregs s !! t);
        match g with
        | None => mret TD_ERR
        | Some _ => if writeable (AFpregs t) then modify (set_mfpregs (<[t := Some fpregs]> (mfpregs s)));; mret TD_OK else mret TD_ERR
        end
      else
        match lfpregs s !! lwpid with
        | None => mret TD_ERR
        | Some _ => modify (set_lfpregs (<[lwpid := fpregs]> (lfpregs s)));; mret TD_OK
        end
  end.
End debugger.
