(* ===== verification/ThreadDbProofs.v ===== *)
(** * Theorems on debugging

    What the debugger sees of the threads: the table of handles after it was
    brought up to date ([sync_handles_run]) and the walk over it
    ([thr_iter_after_sync], [last_thread_twice]), the events it is told of
    ([events_delivered]), the registers ([gregs_roundtrip]), and the thread of
    the manager that cannot be created ([create_hangs]). *)

From S2P Require Import Prelude Bitmap Dll LinkedList Ring Priorities Msg PQueue Time Futex World Sync Event Util Sched Attr Lib.
From S2P Require Import MutexProofs LockProofs Wake SchedProofs LibProofs.
From S2P Require Import Native NativeProofs TdManager ThreadDb.

(** ** The table of handles *)

(** The threads that have no slot of their own *)
Definition plain (main mgr : option nat) (t : nat) : Prop := main <> Some t /\ mgr <> Some t.
#[global] Instance plain_dec main mgr t : Decision (plain main mgr t).
Proof. unfold plain. apply _. Defined.
Definition others (main mgr : option nat) (l : list nat) : list nat := filter (plain main mgr) l.

(** What a slot of its own holds after the walk *)
Definition own_slot (who : option nat) (l : list nat) (old : option nat) : option nat :=
  match who with Some t => if decide (t ∈ l) then Some t else old | None => old end.

(** The same members for the debugger but the index *)
Definition same_td (T T' : gmap nat td_st) : Prop := forall t, set_td_nr 0 <$> T' !! t = set_td_nr 0 <$> T !! t.

#[global] Instance same_td_preorder : PreOrder same_td.
Proof. split; [by intros T t|]. intros T1 T2 T3 H1 H2 t. by rewrite H2, H1. Qed.

Lemma same_td_nr T t x i : T !! t = Some x -> same_td T (<[t := set_td_nr i x]> T).
Proof. intros E u. destruct (decide (u = t)) as [->|]; [by rewrite lookup_insert_eq, E|by rewrite lookup_insert_ne]. Qed.

Section table.
Implicit Types s : dbg.

(** The table is [a], [b] and [r]; [k] plain threads are in it. *)
Definition tabled_as a b r (k : nat) (T : gmap nat td_st) s : dbg :=
  set_tds T (set_handles (a :: b :: r) (set_handles_num (Z.of_nat (2 + k)) s)).

Lemma tabled_as_tds a b r k T s : tds (tabled_as a b r k T s) = T.
Proof. done. Qed.

Lemma put_nr a b r k T s t i : is_Some (T !! t) ->
  exists T', upd_td t (set_td_nr i) (tabled_as a b r k T s) = Ok (tt, tabled_as a b r k T' s) /\ same_td T T' /\ forall u, is_Some (T' !! u) <-> is_Some (T !! u).
Proof.
  intros [x Hx]. exists (<[t := set_td_nr i x]> T). split; [|split; [by apply same_td_nr|]].
  - unfold upd_td, get_td. rewrite (bind_run _ _ (tabled_as a b r k T s) x (tabled_as a b r k T s)); [done|].
    unfold mbind, M_bind, get. cbn. by rewrite Hx.
  - intros u. destruct (decide (u = t)) as [->|]; [rewrite lookup_insert_eq, Hx; split; intros _; by eexists|by rewrite lookup_insert_ne].
Qed.

(** One thread: the main thread, the manager, or a plain one. *)
Lemma add_handle_run a b r k T s t : is_Some (T !! t) -> (k < length r)%nat -> Z.of_nat (2 + k) < MAX_TD_DEBUG_HANDLES ->
  let main := pth_main (ss (na (dn s))) in let mgr := manager_thread s in
  let a' := if bool_decide (main = Some t) then Some t else a in
  let b' := if bool_decide (main <> Some t /\ mgr = Some t) then Some t else b in
  let p := bool_decide (plain main mgr t) in
  exists h T', td_add_handle t (tabled_as a b r k T s) =
    Ok (Some h, tabled_as a' b' (if p then <[k := Some t]> r else r) (if p then S k else k) T' s) /\
    same_td T T' /\ forall u, is_Some (T' !! u) <-> is_Some (T !! u).
Proof.
  intros Ht Hk Hmax main mgr a' b' p. unfold td_add_handle. rewrite (bind_run get _ _ _ _ eq_refl).
  change (handles_num (tabled_as a b r k T s)) with (Z.of_nat (2 + k)). rewrite (bool_decide_eq_false_2 (Z.of_nat (2 + k) = _)) by lia.
  change (pth_main (ss (na (dn (tabled_as a b r k T s))))) with main. change (manager_thread (tabled_as a b r k T s)) with mgr.
  change (handles (tabled_as a b r k T s)) with (a :: b :: r).
  assert (forall i old x, (a :: b :: r) !! Z.to_nat i = Some old ->
    exists T', (if bool_decide (old = Some t) then mret tt
      else modify (set_handles (<[Z.to_nat i := Some t]> (a :: b :: r)));; upd_td t (set_td_nr i)) (tabled_as a b r k T s) =
      Ok (x, set_handles (<[Z.to_nat i := Some t]> (a :: b :: r)) (tabled_as a b r k T' s)) /\ same_td T T' /\ forall u, is_Some (T' !! u) <-> is_Some (T !! u)) as Hput.
  { intros i old [] Hi. destruct (bool_decide (old = Some t)) eqn:E.
    - apply bool_decide_eq_true in E as ->. exists T. rewrite list_insert_id by done. repeat split; try done.
    - destruct (Z.to_nat i) as [|[|j]] eqn:Ei.
      + destruct (put_nr (Some t) b r k T s t i Ht) as (T' & E' & HT). exists T'. split; [|done]. by rewrite (bind_run (modify (set_handles (<[0%nat := Some t]> (a :: b :: r)))) _ (tabled_as a b r k T s) tt (tabled_as (Some t) b r k T s) eq_refl).
      + destruct (put_nr a (Some t) r k T s t i Ht) as (T' & E' & HT). exists T'. split; [|done]. by rewrite (bind_run (modify (set_handles (<[1%nat := Some t]> (a :: b :: r)))) _ (tabled_as a b r k T s) tt (tabled_as a (Some t) r k T s) eq_refl).
      + destruct (put_nr a b (<[j := Some t]> r) k T s t i Ht) as (T' & E' & HT). exists T'. split; [|done]. by rewrite (bind_run (modify (set_handles (<[S (S j)%nat := Some t]> (a :: b :: r)))) _ (tabled_as a b r k T s) tt (tabled_as a b (<[j := Some t]> r) k T s) eq_refl). }
  assert (forall i old, (a :: b :: r) !! Z.to_nat i = Some old -> 0 <= i -> (i <= 1 \/ i = Z.of_nat (2 + k)) ->
    exists T', (h ← of_option OutOfBounds ((a :: b :: r) !! Z.to_nat i);
      (if bool_decide (h = Some t) then mret tt
       else modify (set_handles (<[Z.to_nat i := Some t]> (a :: b :: r)));; upd_td t (set_td_nr i));;
      (if bool_decide (i > 1) then modify (fun s => set_handles_num (handles_num s + 1) s) else mret tt);; mret (Some i)) (tabled_as a b r k T s) =
      Ok (Some i, set_handles_num (if bool_decide (i > 1) then Z.of_nat (3 + k) else Z.of_nat (2 + k)) (set_handles (<[Z.to_nat i := Some t]> (a :: b :: r)) (tabled_as a b r k T' s))) /\
      same_td T T' /\ forall u, is_Some (T' !! u) <-> is_Some (T !! u)) as Hall.
  { intros i old Hi H0 Hor. destruct (Hput i old tt Hi) as (T' & E & HT). exists T'. split; [|done].
    rewrite (bind_run _ _ _ old (tabled_as a b r k T s)) by (by rewrite Hi). rewrite (bind_run _ _ _ _ _ E).
    destruct (bool_decide (i > 1)) eqn:E1; [|done]. by replace (Z.of_nat (3 + k)) with (Z.of_nat (2 + k) + 1) by lia. }
  unfold a', b', p. destruct (bool_decide (main = Some t)) eqn:E0; [apply bool_decide_eq_true in E0|apply bool_decide_eq_false in E0].
  - rewrite (bool_decide_eq_false_2 (main <> Some t /\ _)) by naive_solver. rewrite (bool_decide_eq_false_2 (plain main mgr t)) by (unfold plain; naive_solver).
    destruct (Hall 0 a) as (T' & E & HT); [done|lia|lia|]. exists 0, T'. by split.
  - destruct (bool_decide (mgr = Some t)) eqn:E1; [apply bool_decide_eq_true in E1|apply bool_decide_eq_false in E1].
    + rewrite (bool_decide_eq_true_2 (main <> Some t /\ _)) by done. rewrite (bool_decide_eq_false_2 (plain main mgr t)) by (unfold plain; naive_solver).
      destruct (Hall 1 b) as (T' & E & HT); [done|lia|lia|]. exists 1, T'. by split.
    + rewrite (bool_decide_eq_false_2 (main <> Some t /\ _)) by naive_solver. rewrite (bool_decide_eq_true_2 (plain main mgr t)) by done.
      destruct (lookup_lt_is_Some_2 r k Hk) as [old Hold]. destruct (Hall (Z.of_nat (2 + k)) old) as (T' & E & HT); [by rewrite Nat2Z.id|lia|lia|].
      exists (Z.of_nat (2 + k)), T'. split; [|done]. rewrite E. rewrite Nat2Z.id. by rewrite bool_decide_eq_true_2 by lia.
Qed.

Lemma own_slot_cons who t l old : own_slot who (t :: l) old = own_slot who l (if bool_decide (who = Some t) then Some t else old).
Proof.
  destruct who as [u|]; [|done]. cbn. destruct (bool_decide (Some u = Some t)) eqn:E; [apply bool_decide_eq_true in E; injection E as ->|apply bool_decide_eq_false in E].
  - rewrite decide_True by set_solver. by destruct (decide (t ∈ l)).
  - destruct (decide (u ∈ l)); [by rewrite decide_True by set_solver|]. rewrite decide_False; [done|]. rewrite elem_of_cons. naive_solver.
Qed.

Lemma insert_spread (r : list (option nat)) k x m : (k < length r)%nat ->
  take (S k) (<[k := x]> r) ++ m ++ drop (S k + length m) (<[k := x]> r) = take k r ++ (x :: m) ++ drop (k + length (x :: m)) r.
Proof.
  intros Hk. rewrite (take_S_r _ _ x) by (by apply list_lookup_insert_eq). rewrite take_insert_ge, drop_insert_lt by lia.
  rewrite <- app_assoc. cbn. do 3 f_equal. by rewrite Nat.add_succ_r.
Qed.

Lemma add_handles_run l : forall a b r k T s,
  let main := pth_main (ss (na (dn s))) in let mgr := manager_thread s in
  (forall t, main = Some t -> mgr <> Some t) -> (forall t, t ∈ l -> is_Some (T !! t)) ->
  Z.of_nat (2 + length r) = MAX_TD_DEBUG_HANDLES -> (k + length (others main mgr l) < length r)%nat ->
  exists T', add_handles l (tabled_as a b r k T s) =
    Ok (tt, tabled_as (own_slot main l a) (own_slot mgr l b)
              (take k r ++ (Some <$> others main mgr l) ++ drop (k + length (others main mgr l)) r) (k + length (others main mgr l)) T' s) /\
    same_td T T'.
Proof.
  induction l as [|t l IH]; intros a b r k T s main mgr Hne HT Hlen Hk; cbn [add_handles].
  - exists T. cbn. rewrite Nat.add_0_r, take_drop. split; [|done]. by destruct main, mgr.
  - destruct (add_handle_run a b r k T s t) as (h & T1 & E & HT1 & Hdom); [apply HT; set_solver|lia|lia|].
    rewrite (bind_run _ _ _ _ _ E). fold main mgr. rewrite !own_slot_cons.
    assert (bool_decide (main <> Some t /\ mgr = Some t) = bool_decide (mgr = Some t)) as -> by (apply bool_decide_ext; naive_solver).
    unfold others in *. rewrite !filter_cons in *. case_decide as Hp.
    + rewrite (bool_decide_eq_true_2 (plain main mgr t)) by done. cbn [length] in Hk.
      destruct (IH (if bool_decide (main = Some t) then Some t else a) (if bool_decide (mgr = Some t) then Some t else b) (<[k := Some t]> r) (S k) T1 s) as (T2 & E2 & HT2).
      * done.
      * intros u Hu. apply Hdom, HT. set_solver.
      * by rewrite length_insert.
      * rewrite length_insert. fold main mgr. lia.
      * exists T2. rewrite E2. fold main mgr. split; [|by etrans]. f_equal. f_equal.
        pose proof (insert_spread r k (Some t) (Some <$> filter (plain main mgr) l)) as Hs. rewrite fmap_cons. cbn [length] in Hs |- *.
        rewrite length_fmap in Hs. rewrite Hs by lia. by rewrite Nat.add_succ_r.
    + rewrite (bool_decide_eq_false_2 (plain main mgr t)) by done.
      destruct (IH (if bool_decide (main = Some t) then Some t else a) (if bool_decide (mgr = Some t) then Some t else b) r k T1 s) as (T2 & E2 & HT2).
      * done.
      * intros u Hu. apply Hdom, HT. set_solver.
      * done.
      * fold main mgr. lia.
      * exists T2. rewrite E2. split; [done|]. by etrans.
Qed.

(** The program is attached to a debugger: the code runs on a native, the locks
    are free and the table has its size. *)
Record attached (n : nat) (d : pth_descr_st) s : Prop := {
  at_self : self (world_of (dn s)) = Some n;
  at_descr : natives (world_of (dn s)) !! n = Some d;
  at_tid : tid d <> 0;
  at_native : pth_native_lock (dn s) = qlock_free;
  at_lock : handles_lock s = qlock_free;
  at_table : length (handles s) = Z.to_nat MAX_TD_DEBUG_HANDLES;
  at_threads : forall t, t ∈ tqueue (dn s) -> is_Some (tds s !! t);
  at_own : forall t, pth_main (ss (na (dn s))) = Some t -> manager_thread s <> Some t }.

(** The table that [__td_sync_handles] leaves: the main thread and the manager
    first, then the other threads of the queue; the entries behind them stay. *)
Definition synced s : list (option nat) :=
  let main := pth_main (ss (na (dn s))) in let mgr := manager_thread s in
  let l := tqueue (dn s) in let o := others main mgr l in
  own_slot main l (default None (handles s !! 0%nat)) :: own_slot mgr l (default None (handles s !! 1%nat)) ::
  (Some <$> o) ++ drop (2 + length o) (handles s).
Definition plain_threads s : list nat := others (pth_main (ss (na (dn s)))) (manager_thread s) (tqueue (dn s)).

Lemma acquire_free_native (v : nv) tid : pth_native_lock v = qlock_free -> tid <> 0 ->
  native_acquire tid v = Ok (tt, set_pth_native_lock (QLock 1 tid 1) v).
Proof. intros Hl Ht. unfold native_acquire, acquire. rewrite (bind_run get _ _ _ _ eq_refl), Hl. by rewrite (bind_run _ _ v (QLock 1 tid 1) v) by (by rewrite lock_free_take). Qed.

Lemma sync_handles_run n d s : attached n d s -> (length (plain_threads s) < Z.to_nat MAX_TD_DEBUG_HANDLES - 2)%nat ->
  exists T, __td_sync_handles s = Ok (tt, set_tds T (set_handles (synced s) (set_handles_num (Z.of_nat (2 + length (plain_threads s))) s))) /\ same_td (tds s) T.
Proof.
  intros [Hself Hd Ht Hnl Hhl Hlen Hth Hown] Hmax. unfold __td_sync_handles.
  destruct (handles s) as [|a [|b r]] eqn:Eh; [by vm_compute in Hlen|by vm_compute in Hlen|].
  rewrite (bind_run _ _ s (tid d) s).
  2:{ unfold ondn, zoom, current_tid. rewrite (bind_run _ _ (dn s) (n, d) (dn s)) by by apply onnw_same, my_descr_run. by destruct s. }
  set (s1 := set_dn (set_pth_native_lock (QLock 1 (tid d) 1) (dn s)) s). rewrite (bind_run _ _ s tt s1).
  2:{ unfold ondn, zoom. by rewrite acquire_free_native. }
  rewrite (bind_run get _ s1 s1 s1 eq_refl). change (handles_lock s1) with (handles_lock s). rewrite Hhl, (bind_run _ _ s1 (QLock 1 (tid d) 1) s1) by (by rewrite lock_free_take).
  set (s2 := set_handles_lock (QLock 1 (tid d) 1) s1). rewrite (bind_run (modify (set_handles_lock _)) _ s1 tt s2 eq_refl).
  rewrite (bind_run (modify (set_handles_num 2)) _ s2 tt (tabled_as a b r 0 (tds s) s2)) by (unfold modify, tabled_as, set_handles_num, set_handles, set_tds; cbn; by rewrite <- Eh).
  destruct (add_handles_run (tqueue (dn s)) a b r 0 (tds s) s2) as (T & E & HT).
  - done.
  - done.
  - cbn [length] in Hlen. unfold MAX_TD_DEBUG_HANDLES in *. lia.
  - cbn [length] in Hlen. unfold MAX_TD_DEBUG_HANDLES, plain_threads in *. cbn. lia.
  - rewrite (bind_run _ _ _ _ _ E). exists T. split; [|done]. set (s3 := tabled_as _ _ _ _ T s2).
    rewrite (bind_run _ _ s3 tt (set_dn (dn s) s3)).
    2:{ unfold ondn, zoom, native_release, release, modify. change (pth_native_lock (dn s3)) with (QLock 1 (tid d) 1). rewrite lock_taken_release, <- Hnl.
        do 2 f_equal. by destruct (dn s). }
    unfold modify. change (handles_lock (set_dn (dn s) s3)) with (QLock 1 (tid d) 1). rewrite lock_taken_release, <- Hhl. unfold synced, plain_threads. rewrite Eh. by destruct s.
Qed.
End table.

(** ** The walk over the threads *)

Section walk.
Context (readable writeable : taddr -> bool).
Implicit Types s : tdb.

(** The thread is shown: its control block can be read, it has the priority,
    and it has not ended. *)
Definition visible (ti_pri : Z) s (t : nat) : bool :=
  readable (ATcb t) && match pds_of s t with None => false | Some x => bool_decide (ti_pri <= prio (p_pth x)) && negb (td_thread_exited x) end.
(** A native has run the manager. *)
Definition has_run s (t : nat) : bool :=
  match pds_of s t with None => false | Some x => negb (bool_decide (lastrannative (p_tcb x) = 0)) end.
Definition shown (ti_pri : Z) s (cnt : nat) (t : nat) : bool := visible ti_pri s t && (negb (bool_decide (cnt = 1%nat)) || has_run s t).

(** The callback is called for each one, until it refuses. *)
Fixpoint visit (a : nat) (callback : td_thrhandle -> M tdb Z) (l : list nat) : M tdb td_err_e :=
  match l with
  | [] => mret TD_OK
  | t :: l => r ← callback (Th a (Some t)); if bool_decide (r = 0) then visit a callback l else mret TD_DBERR
  end.

(** The callback leaves the program and the agents as they are. *)
Definition looks_only (callback : td_thrhandle -> M tdb Z) : Prop :=
  forall th s r s', callback th s = Ok (r, s') -> tg s' = tg s /\ agents s' = agents s /\ ta_mem s' = ta_mem s.

Lemma pds_of_tg s s' t : tg s' = tg s -> pds_of s' t = pds_of s t.
Proof. intros E. unfold pds_of, tworld. by rewrite E. Qed.

Lemma shown_tg ti_pri s s' cnt t : tg s' = tg s -> shown ti_pri s' cnt t = shown ti_pri s cnt t.
Proof. intros E. unfold shown, visible, has_run. by rewrite (pds_of_tg s s' t E). Qed.

Lemma handle_descr_run a callback ti_pri cnt t s :
  handle_descr readable a callback TD_THR_ANY_STATE ti_pri cnt (Some t) s =
  (if shown ti_pri s cnt t then r ← callback (Th a (Some t)); mret (if bool_decide (r = 0) then TD_OK else TD_DBERR) else mret TD_OK) s.
Proof.
  unfold handle_descr, read_tcb, pdread. rewrite (bind_run _ _ s (if readable (ATcb t) then pds_of s t else None) s eq_refl).
  unfold shown, visible, has_run. destruct (readable (ATcb t)); [|done]. destruct (pds_of s t) as [x|]; [|done].
  destruct (bool_decide (cnt = 1%nat)); destruct (bool_decide (lastrannative (p_tcb x) = 0)); cbn [andb negb orb]; rewrite ?andb_false_r, ?andb_true_r; try done.
  all: destruct (bool_decide (prio (p_pth x) < ti_pri)) eqn:Ep; [apply bool_decide_eq_true in Ep|apply bool_decide_eq_false in Ep];
    [by rewrite bool_decide_eq_false_2 by lia|rewrite (bool_decide_eq_true_2 (ti_pri <= _)) by lia].
  all: by rewrite (bool_decide_eq_true_2 (TD_THR_ANY_STATE = _)) by done; destruct (td_thread_exited x).
Qed.

(** The entries of the slots that are shown *)
Fixpoint seen (ti_pri : Z) s (cnt : nat) (l : list (option nat)) : list nat :=
  match l with
  | [] => []
  | None :: l => seen ti_pri s (S cnt) l
  | Some t :: l => if shown ti_pri s cnt t then t :: seen ti_pri s (S cnt) l else seen ti_pri s (S cnt) l
  end.

Lemma seen_tg ti_pri s s' l : tg s' = tg s -> forall cnt, seen ti_pri s' cnt l = seen ti_pri s cnt l.
Proof. intros E. induction l as [|[t|] l IH]; intros cnt; cbn [seen]; [done| |apply IH]. by rewrite (shown_tg ti_pri s s' cnt t E), IH. Qed.

Lemma seen_plain ti_pri s l cnt : (1 < cnt)%nat -> seen ti_pri s cnt l = filter (fun t => visible ti_pri s t = true) (omap id l).
Proof.
  revert cnt. induction l as [|[t|] l IH]; intros cnt Hc; cbn [seen omap list_omap id]; [done| |apply IH; lia].
  rewrite filter_cons, IH by lia. unfold shown. rewrite bool_decide_eq_false_2 by lia. cbn [negb orb]. rewrite andb_true_r.
  destruct (visible ti_pri s t); [by rewrite decide_True|by rewrite decide_False].
Qed.

Lemma handle_all_run a callback ti_pri : looks_only callback -> forall l cnt s,
  handle_all readable a callback TD_THR_ANY_STATE ti_pri cnt l s = visit a callback (seen ti_pri s cnt l) s.
Proof.
  intros Hc. induction l as [|[t|] l IH]; intros cnt s; cbn [handle_all seen]; [done| |apply IH].
  unfold mbind, M_bind. rewrite handle_descr_run. destruct (shown ti_pri s cnt t).
  - cbn [visit]. unfold mbind, M_bind. destruct (callback (Th a (Some t)) s) as [[r s']|e] eqn:E; [|done].
    destruct (Hc _ _ _ _ E) as (Et & _). destruct (bool_decide (r = 0)); [|done]. etrans; [apply (IH (S cnt) s')|]. by rewrite (seen_tg ti_pri s s').
  - apply IH.
Qed.

Lemma visit_app a callback l1 l2 s :
  visit a callback (l1 ++ l2) s = (r ← visit a callback l1; if bool_decide (r = TD_OK) then visit a callback l2 else mret r) s.
Proof.
  revert s. induction l1 as [|t l1 IH]; intros s; cbn [app visit]; [done|]. unfold mbind, M_bind in *.
  destruct (callback (Th a (Some t)) s) as [[r s']|e]; [|done]. destruct (bool_decide (r = 0)); [apply IH|done].
Qed.

(** An agent that knows the table *)
Record agent_ok (a : nat) (x : td_thragent) s : Prop := {
  ag_listed : a ∈ agents s;
  ag_mem : ta_mem s !! a = Some x;
  ag_max : pthread_threads_max x = MAX_TD_DEBUG_HANDLES;
  ag_table : length (handles (tg s)) = Z.to_nat MAX_TD_DEBUG_HANDLES;
  ag_first : readable (AHandles 0 2) = true;
  ag_rest : readable (AHandles 2 (Z.to_nat (MAX_TD_DEBUG_HANDLES - 2))) = true }.

Lemma read_handles_run i n s : readable (AHandles i n) = true -> (i + n <= length (handles (tg s)))%nat ->
  read_handles readable i n s = Ok (Some (take n (drop i (handles (tg s)))), s).
Proof. intros Hr Hl. unfold read_handles, pdread. rewrite (bind_run get _ _ _ _ eq_refl), Hr. by rewrite decide_True by done. Qed.

Lemma thr_iter_run a x callback ti_pri s : agent_ok a x s -> looks_only callback ->
  td_ta_thr_iter readable (Some a) callback TD_THR_ANY_STATE ti_pri s = visit a callback (seen ti_pri s 0 (handles (tg s))) s.
Proof.
  intros [Hin Hmem Hmax Htab Hr1 Hr2] Hc. unfold td_ta_thr_iter, ta_ok. rewrite (bind_run _ _ s true s).
  2:{ rewrite (bind_run get _ _ _ _ eq_refl). by rewrite bool_decide_eq_true_2. }
  cbn [negb]. unfold get_agent. rewrite (bind_run _ _ s x s) by (rewrite (bind_run get _ _ _ _ eq_refl); by rewrite Hmem).
  unfold MAX_TD_DEBUG_HANDLES in *. rewrite (bind_run _ _ _ _ _ (read_handles_run 0 2 s Hr1 ltac:(lia))).
  destruct (handles (tg s)) as [|h0 [|h1 l]] eqn:Eh; [by vm_compute in Htab|by vm_compute in Htab|]. cbn [drop take].
  assert (forall h cnt l' (k : M tdb td_err_e), (forall s', tg s' = tg s -> agents s' = agents s -> ta_mem s' = ta_mem s -> k s' = visit a callback (seen ti_pri s (S cnt) l') s') -> forall s', tg s' = tg s -> agents s' = agents s -> ta_mem s' = ta_mem s ->
    (r ← handle_descr readable a callback TD_THR_ANY_STATE ti_pri cnt h; if negb (bool_decide (r = TD_OK)) then mret r else k) s' = visit a callback (seen ti_pri s cnt (h :: l')) s') as Hstep.
  { intros [t|] cnt l' k Hk s' Et Ea Em; [|by apply Hk]. cbn [seen]. unfold mbind, M_bind. rewrite handle_descr_run, (shown_tg ti_pri s s' cnt t Et).
    destruct (shown ti_pri s cnt t); [|by apply Hk]. cbn [visit]. unfold mbind, M_bind.
    destruct (callback (Th a (Some t)) s') as [[r s2]|e] eqn:E; [|done]. destruct (Hc _ _ _ _ E) as (E1 & E2 & E3).
    destruct (bool_decide (r = 0)); [apply Hk; congruence|done]. }
  apply (Hstep h0 0%nat (h1 :: l)); try done. intros s1 Et1 Ea1 Em1. apply (Hstep h1 1%nat l); try done. intros s2 Et2 Ea2 Em2.
  rewrite Hmax. assert (2 + Z.to_nat (10240 - 2) <= length (handles (tg s2)))%nat as Hn2 by (rewrite Et2, Eh, Htab; clear; lia).
  rewrite (bind_run _ _ _ _ _ (read_handles_run 2 (Z.to_nat (10240 - 2)) s2 Hr2 Hn2)).
  rewrite Et2, Eh. cbn [drop]. rewrite drop_0, take_ge by (cbn [length] in Htab; clear -Htab; lia). rewrite handle_all_run by done. by rewrite (seen_tg ti_pri s s2).
Qed.
End walk.

(** ** The walk over a table that was brought up to date *)

Section synced.
Context (readable writeable : taddr -> bool).
Implicit Types s : tdb.

Definition with_td (T : gmap nat td_st) (H : list (option nat)) (num : Z) s : tdb := set_tg (set_tds T (set_handles H (set_handles_num num (tg s)))) s.

Lemma pds_same T H num s t : same_td (tds (tg s)) T ->
  (fun x => (p_pth x, p_tcb x)) <$> pds_of (with_td T H num s) t = (fun x => (p_pth x, p_tcb x)) <$> pds_of s t.
Proof.
  intros HT. unfold pds_of. change (tworld (with_td T H num s)) with (tworld s). change (dn (tg (with_td T H num s))) with (dn (tg s)).
  change (tds (tg (with_td T H num s))) with T. specialize (HT t). destruct (threads (tworld s) !! t); [|done]. destruct (tx _ !! t); [|done]. destruct (ta _ !! t); [|done].
  cbn. by destruct (T !! t), (tds (tg s) !! t).
Qed.

Lemma visible_same T H num ti_pri s t : same_td (tds (tg s)) T ->
  visible readable ti_pri (with_td T H num s) t = visible readable ti_pri s t /\ has_run (with_td T H num s) t = has_run s t.
Proof.
  intros HT. pose proof (pds_same T H num s t HT) as E. unfold visible, has_run, td_thread_exited.
  destruct (pds_of (with_td T H num s) t), (pds_of s t); try done. cbn in E. injection E as E1 E2. by rewrite E1, E2.
Qed.

(** What is left of earlier threads in the table *)
Definition stale (g : dbg) : list nat := omap id (drop (2 + length (plain_threads g)) (handles g)).

Lemma seen_synced ti_pri T num m g s : same_td (tds (tg s)) T ->
  pth_main (ss (na (dn (tg s)))) = Some m -> manager_thread (tg s) = Some g -> m ∈ tqueue (dn (tg s)) -> g ∈ tqueue (dn (tg s)) ->
  seen readable ti_pri (with_td T (synced (tg s)) num s) 0 (synced (tg s)) =
  filter (fun t => visible readable ti_pri s t = true) (m :: (if has_run s g then [g] else []) ++ plain_threads (tg s) ++ stale (tg s)).
Proof.
  intros HT Hm Hg Hin Hing. set (s' := with_td T (synced (tg s)) num s). unfold synced at 1. rewrite Hm, Hg. cbn [own_slot]. rewrite !decide_True by done.
  cbn [seen]. rewrite (seen_plain readable ti_pri s') by lia. unfold shown. rewrite (bool_decide_eq_false_2 (0%nat = 1%nat)), (bool_decide_eq_true_2 (1%nat = 1%nat)) by done.
  unfold s'. destruct (visible_same T (synced (tg s)) num ti_pri s m HT) as [-> _]. destruct (visible_same T (synced (tg s)) num ti_pri s g HT) as [-> ->].
  cbn [negb orb]. rewrite andb_true_r.
  assert (forall l : list nat, filter (fun t => visible readable ti_pri (with_td T (synced (tg s)) num s) t = true) l = filter (fun t => visible readable ti_pri s t = true) l) as Hf.
  { intros l. apply list_filter_iff. intros t. by destruct (visible_same T (synced (tg s)) num ti_pri s t HT) as [-> _]. }
  rewrite Hf, omap_app. assert (omap id (Some <$> others (Some m) (Some g) (tqueue (dn (tg s)))) = plain_threads (tg s)) as ->.
  { unfold plain_threads. rewrite Hm, Hg. generalize (others (Some m) (Some g) (tqueue (dn (tg s)))). intros l. induction l as [|t l IH]; [done|]. cbn. by rewrite <- IH at 2. }
  assert (omap id (drop (2 + length (others (Some m) (Some g) (tqueue (dn (tg s))))) (handles (tg s))) = stale (tg s)) as -> by (unfold stale, plain_threads; by rewrite Hm, Hg).
  rewrite (filter_cons _ m), !filter_app. destruct (visible readable ti_pri s m); [rewrite decide_True by done|rewrite decide_False by done].
  all: destruct (has_run s g); rewrite ?andb_true_r, ?andb_false_r; [|done]; rewrite (filter_cons _ g); destruct (visible readable ti_pri s g); [by rewrite decide_True|by rewrite decide_False].
Qed.

Lemma sync_walk_run a x callback ti_pri n d m g s :
  attached n d (tg s) -> (length (plain_threads (tg s)) < Z.to_nat MAX_TD_DEBUG_HANDLES - 2)%nat -> agent_ok readable a x s -> looks_only callback ->
  pth_main (ss (na (dn (tg s)))) = Some m -> manager_thread (tg s) = Some g -> m ∈ tqueue (dn (tg s)) -> g ∈ tqueue (dn (tg s)) ->
  exists s', ontg __td_sync_handles s = Ok (tt, s') /\ dn (tg s') = dn (tg s) /\ same_td (tds (tg s)) (tds (tg s')) /\
    td_ta_thr_iter readable (Some a) callback TD_THR_ANY_STATE ti_pri s' =
    visit a callback (filter (fun t => visible readable ti_pri s t = true) (m :: (if has_run s g then [g] else []) ++ plain_threads (tg s) ++ stale (tg s))) s'.
Proof.
  intros Hat Hlen Hag Hc Hm Hg Hin Hing. destruct (sync_handles_run n d (tg s) Hat Hlen) as (T & E & HT).
  exists (with_td T (synced (tg s)) (Z.of_nat (2 + length (plain_threads (tg s)))) s). split; [unfold ontg, zoom; by rewrite E|]. split; [done|]. split; [done|].
  rewrite (thr_iter_run readable a x) by (try done; destruct Hag; split; try done; change (handles (tg (with_td _ ?H _ _))) with H; rewrite <- ag_table0;
    unfold synced; cbn [length]; rewrite length_app, length_fmap, length_drop; unfold plain_threads in Hlen; lia).
  by rewrite (seen_synced ti_pri T _ m g s HT Hm Hg Hin Hing).
Qed.

(** C37: after the table of handles was brought up to date, the walk calls the
    function for the main thread, the manager if a native has run it, and the
    other threads of the library in the order of its queue, those that are
    visible with the priority; but also for what is left in the table behind
    them. *)
Theorem thr_iter_after_sync a x callback ti_pri n d m g s :
  attached n d (tg s) -> (length (plain_threads (tg s)) < Z.to_nat MAX_TD_DEBUG_HANDLES - 2)%nat -> agent_ok readable a x s -> looks_only callback ->
  pth_main (ss (na (dn (tg s)))) = Some m -> manager_thread (tg s) = Some g -> m ∈ tqueue (dn (tg s)) -> g ∈ tqueue (dn (tg s)) ->
  exists s', ontg __td_sync_handles s = Ok (tt, s') /\ dn (tg s') = dn (tg s) /\ same_td (tds (tg s)) (tds (tg s')) /\
    td_ta_thr_iter readable (Some a) callback TD_THR_ANY_STATE ti_pri s' =
    visit a callback (filter (fun t => visible readable ti_pri s t = true) (m :: (if has_run s g then [g] else []) ++ plain_threads (tg s) ++ stale (tg s))) s'.
Proof. apply sync_walk_run. Qed.

Lemma omap_all_none (l : list (option nat)) : Forall (fun h => h = None) l -> omap id l = [].
Proof. induction 1 as [|h l -> _ IH]; done. Qed.

(** when a thread has ended, the table is one entry shorter, but its last
    entry stays: the walk calls the function for the last thread twice. *)
Theorem last_thread_twice a x callback ti_pri n d m g o1 t o2 u rest s :
  attached n d (tg s) -> (length (plain_threads (tg s)) < Z.to_nat MAX_TD_DEBUG_HANDLES - 2)%nat -> agent_ok readable a x s -> looks_only callback ->
  pth_main (ss (na (dn (tg s)))) = Some m -> manager_thread (tg s) = Some g -> m ∈ tqueue (dn (tg s)) -> g ∈ tqueue (dn (tg s)) ->
  handles (tg s) = Some m :: Some g :: (Some <$> o1 ++ t :: o2 ++ [u]) ++ rest -> Forall (fun h => h = None) rest ->
  plain_threads (tg s) = o1 ++ o2 ++ [u] ->
  exists s', ontg __td_sync_handles s = Ok (tt, s') /\
    td_ta_thr_iter readable (Some a) callback TD_THR_ANY_STATE ti_pri s' =
    visit a callback (filter (fun t => visible readable ti_pri s t = true) (m :: (if has_run s g then [g] else []) ++ o1 ++ o2 ++ [u; u])) s'.
Proof.
  intros Hat Hlen Hag Hc Hm Hg Hin Hing Htab Hrest Hplain.
  destruct (sync_walk_run a x callback ti_pri n d m g s Hat Hlen Hag Hc Hm Hg Hin Hing) as (s' & E & _ & _ & Ev). exists s'. split; [done|].
  rewrite Ev. f_equal. f_equal. f_equal. f_equal. rewrite Hplain, <- !app_assoc. do 3 f_equal. unfold stale. rewrite Htab, Hplain.
  replace (Some m :: Some g :: (Some <$> o1 ++ t :: o2 ++ [u]) ++ rest) with ((Some m :: Some g :: (Some <$> o1 ++ t :: o2)) ++ (Some u :: rest)).
  2:{ cbn. rewrite !fmap_app, !fmap_cons, fmap_app, <- !app_assoc. cbn. by rewrite <- app_assoc. }
  replace (2 + length (o1 ++ o2 ++ [u]))%nat with (length (Some m :: Some g :: (Some <$> o1 ++ t :: o2))).
  2:{ cbn [length]. rewrite length_fmap, !length_app. cbn. lia. }
  rewrite drop_app_length. cbn. by rewrite omap_all_none.
Qed.
End synced.

(** ** Events *)

Section events.
Context (readable writeable : taddr -> bool).
Implicit Types s : tdb.

(** The event of a thread, and whether there is one that is not reported *)
Definition event_at s (t : nat) : td_eventbuf := match tds (tg s) !! t with Some x => td_events x | None => zero_eventbuf end.
Definition pending_event s (t : nat) : bool := negb (bool_decide (eventnum (event_at s t) = TD_EVENT_NONE)).

(** The table holds exactly these threads, in the beginning; everything about
    events can be read and written. *)
Record tracked (a : nat) (x : td_thragent) (ts : list nat) (rest : list (option nat)) (last : nat) s : Prop := {
  tr_listed : a ∈ agents s;
  tr_mem : ta_mem s !! a = Some x;
  tr_table : handles (tg s) = (Some <$> ts) ++ rest;
  tr_num : handles_num (tg s) = Z.of_nat (length ts);
  tr_max : pthread_threads_max x = Z.of_nat (length (handles (tg s)));
  tr_last : last_event (tg s) = Some last;
  tr_in : last ∈ ts;
  tr_nodup : NoDup ts;
  tr_tds : forall t, t ∈ ts -> is_Some (tds (tg s) !! t);
  tr_read : readable (AVar PTHREAD_LAST_EVENT) = true /\ readable (AVar PTHREAD_HANDLES_NUM) = true /\ readable (AHandles 0 (length (handles (tg s)))) = true;
  tr_events : forall t, t ∈ ts -> readable (AEventbuf t) = true /\ writeable (AEventbuf t) = true }.

(** The event of [t] is taken away. *)
Definition taken_event (t : nat) s : tdb :=
  match tds (tg s) !! t with Some x => set_tg (set_tds (<[t := set_td_events zero_eventbuf x]> (tds (tg s))) (tg s)) s | None => s end.

Lemma tracked_taken a x ts rest last t s : tracked a x ts rest last s -> tracked a x ts rest last (taken_event t s).
Proof.
  intros [H1 H2 H3 H4 H5 H6 H7 H8 H9 H10 H11]. unfold taken_event. destruct (tds (tg s) !! t) as [y|] eqn:E; [|by split].
  split; try done. intros u Hu. change (tds (tg (set_tg ?g s))) with (tds g). cbn. destruct (decide (u = t)) as [->|]; [by rewrite lookup_insert_eq|].
  rewrite lookup_insert_ne by done. by apply H9.
Qed.

Lemma event_taken t u s : is_Some (tds (tg s) !! t) -> event_at (taken_event t s) u = if decide (u = t) then zero_eventbuf else event_at s u.
Proof.
  intros [y Hy]. unfold event_at, taken_event. rewrite Hy. cbn. destruct (decide (u = t)) as [->|]; [by rewrite lookup_insert_eq|by rewrite lookup_insert_ne].
Qed.

Lemma pending_taken t u s : is_Some (tds (tg s) !! t) -> pending_event (taken_event t s) u = bool_decide (u <> t) && pending_event s u.
Proof.
  intros Ht. unfold pending_event. rewrite (event_taken t u s Ht). destruct (decide (u = t)) as [->|Hn]; [by rewrite (bool_decide_eq_false_2 (t <> t)) by naive_solver|].
  by rewrite (bool_decide_eq_true_2 (u <> t)).
Qed.

Lemma pdread_run {A} addr (v : tdb -> option A) s : readable addr = true -> pdread readable addr v s = Ok (v s, s).
Proof. intros Hr. unfold pdread. rewrite (bind_run get _ _ _ _ eq_refl). by rewrite Hr. Qed.

Lemma read_event_run a x ts rest last t s : tracked a x ts rest last s -> t ∈ ts -> read_event readable t s = Ok (Some (event_at s t), s).
Proof.
  intros Hr Ht. unfold read_event, pdread. rewrite (bind_run get _ _ _ _ eq_refl). rewrite (proj1 (tr_events _ _ _ _ _ _ Hr t Ht)).
  destruct (tr_tds _ _ _ _ _ _ Hr t Ht) as [y Hy]. unfold event_at. by rewrite Hy.
Qed.

Lemma clear_event_run a x ts rest last t s : tracked a x ts rest last s -> t ∈ ts -> clear_event writeable t s = Ok (true, taken_event t s).
Proof.
  intros Hr Ht. unfold clear_event, pdwrite. rewrite (proj2 (tr_events _ _ _ _ _ _ Hr t Ht)). destruct (tr_tds _ _ _ _ _ _ Hr t Ht) as [y Hy].
  rewrite (bind_run _ _ s tt (taken_event t s)); [done|]. unfold ontg, zoom, upd_td, get_td. rewrite (bind_run _ _ (tg s) y (tg s)).
  - unfold modify, taken_event. by rewrite Hy.
  - rewrite (bind_run get _ _ _ _ eq_refl). by rewrite Hy.
Qed.

(** The scan finds the first thread with an event, [last] left out. *)
Lemma event_scan_run a x ts rest last s : tracked a x ts rest last s -> pending_event s last = false ->
  forall l e, (forall t, t ∈ l -> t ∈ ts) -> eventnum e = TD_EVENT_NONE ->
  exists r, event_scan readable last e (Z.of_nat (length l)) ((Some <$> l) ++ rest) s = Ok (Some r, s) /\
    match List.find (pending_event s) l with
    | Some t => r = (t, event_at s t)
    | None => eventnum r.2 = TD_EVENT_NONE
    end.
Proof.
  intros Hr Hlast. induction l as [|t l IH]; intros e Hl He.
  - exists (last, e). split; [|done]. cbn [fmap list_fmap app length]. destruct rest as [|h rest']; [done|]. cbn [event_scan]. by rewrite bool_decide_eq_false_2 by lia.
  - cbn [fmap list_fmap app event_scan]. rewrite bool_decide_eq_true_2 by (cbn [length]; lia). replace (Z.of_nat (length (t :: l)) - 1) with (Z.of_nat (length l)) by (cbn [length]; lia).
    destruct (bool_decide (t = last)) eqn:E; [apply bool_decide_eq_true in E as ->|apply bool_decide_eq_false in E].
    + destruct (IH e) as (r & Er & Hf); [set_solver|done|]. exists r. split; [done|]. cbn [List.find]. by rewrite Hlast.
    + rewrite (bind_run _ _ _ _ _ (read_event_run a x ts rest last t s Hr ltac:(set_solver))). cbn [List.find]. unfold pending_event at 1.
      destruct (bool_decide (eventnum (event_at s t) = TD_EVENT_NONE)) eqn:Ep; cbn [negb].
      * apply bool_decide_eq_true in Ep. destruct (IH (event_at s t)) as (r & Er & Hf); [set_solver|done|]. by exists r.
      * by exists (t, event_at s t).
Qed.

(** The message about the event of a thread *)
Definition message (a : nat) s (t : nat) : td_event_msg := EventMsg (eventnum (event_at s t)) (Th a (Some t)) (eventdata (event_at s t)).

(** The thread that is reported next *)
Definition next_event s (last : nat) (ts : list nat) : option nat := if pending_event s last then Some last else List.find (pending_event s) ts.

Lemma find_elem {A} (f : A -> bool) l y : List.find f l = Some y -> y ∈ l /\ f y = true.
Proof. intros E. apply List.find_some in E as [Hin Hf]. split; [by apply list_elem_of_In|done]. Qed.

Lemma getmsg_run a x ts rest last s : tracked a x ts rest last s ->
  td_ta_event_getmsg readable writeable (Some a) s =
  match next_event s last ts with
  | Some t => Ok ((TD_OK, Some (message a s t)), taken_event t s)
  | None => Ok ((TD_NOMSG, None), s)
  end.
Proof.
  intros Hr. destruct (Hr) as [Hin Hmem Htab Hnum Hmax Hlast Hlin Hnd Htds (R1 & R2 & R3) Hev]. unfold td_ta_event_getmsg, ta_ok. rewrite (bind_run _ _ s true s).
  2:{ rewrite (bind_run get _ _ _ _ eq_refl). by rewrite bool_decide_eq_true_2. }
  cbn [negb]. unfold get_agent. rewrite (bind_run _ _ s x s) by (rewrite (bind_run get _ _ _ _ eq_refl); by rewrite Hmem).
  rewrite (bind_run _ _ _ _ _ (pdread_run _ _ s R1)), Hlast.
  rewrite (bind_run _ _ _ _ _ (read_event_run a x ts rest last last s Hr Hlin)). unfold next_event. unfold pending_event at 1.
  assert (forall t, t ∈ ts -> report writeable a t (event_at s t) s = Ok ((TD_OK, Some (message a s t)), taken_event t s)) as Hrep.
  { intros t Ht. unfold report. by rewrite (bind_run _ _ _ _ _ (clear_event_run a x ts rest last t s Hr Ht)). }
  destruct (bool_decide (eventnum (event_at s last) = TD_EVENT_NONE)) eqn:El; cbn [negb]; [|by apply Hrep].
  rewrite (bind_run _ _ _ _ _ (pdread_run _ _ s R2)), Hmax, Nat2Z.id.
  rewrite (bind_run _ _ _ _ _ (read_handles_run readable 0 _ s R3 ltac:(lia))). rewrite drop_0, take_ge by lia. rewrite Htab, Hnum.
  destruct (event_scan_run a x ts rest last s Hr ltac:(unfold pending_event; by rewrite El) ts (event_at s last)) as (r & Er & Hf); [done|by apply bool_decide_eq_true in El|].
  rewrite (bind_run _ _ _ _ _ Er). destruct (List.find (pending_event s) ts) as [t|] eqn:Ef.
  - subst r. destruct (find_elem _ _ _ Ef) as [Ht Hp]. unfold pending_event in Hp. apply negb_true_iff in Hp. rewrite Hp. by apply Hrep.
  - destruct r as [t e]. cbn in Hf. by rewrite bool_decide_eq_true_2.
Qed.

(** The debugger asks until there is nothing left. *)
Fixpoint drain_events (a : nat) (n : nat) : M tdb (list td_event_msg * td_err_e) :=
  match n with
  | O => mret ([], TD_OK)
  | S n =>
      '(e, m) ← td_ta_event_getmsg readable writeable (Some a);
      match m with
      | Some m => '(l, e) ← drain_events a n; mret (m :: l, e)
      | None => mret ([], e)
      end
  end.

(** The order of the reports: the last event first *)
Definition report_order s (last : nat) (ts : list nat) : list nat :=
  (if pending_event s last then [last] else []) ++ filter (fun t => t <> last /\ pending_event s t = true) ts.

Lemma filter_pending_find s last ts t : pending_event s last = false -> List.find (pending_event s) ts = Some t -> NoDup ts ->
  filter (fun u => u <> last /\ pending_event s u = true) ts = t :: filter (fun u => u <> last /\ (bool_decide (u <> t) && pending_event s u = true)) ts.
Proof.
  intros Hl. induction ts as [|u ts IH]; [done|]. intros Hf Hnd. apply NoDup_cons in Hnd as [Hn Hnd]. cbn [List.find] in Hf. destruct (pending_event s u) eqn:Eu.
  - injection Hf as ->. assert (t <> last) by (intros ->; congruence). rewrite filter_cons, decide_True by done. f_equal.
    rewrite filter_cons, decide_False by (rewrite bool_decide_eq_false_2 by naive_solver; naive_solver).
    apply filter_iff_in. intros v Hv. rewrite bool_decide_eq_true_2 by (intros ->; done). done.
  - rewrite filter_cons, decide_False by (rewrite Eu; naive_solver). rewrite IH by done. f_equal.
    rewrite filter_cons, decide_False; [done|]. rewrite Eu, andb_false_r. naive_solver.
Qed.

Lemma report_order_next a x s last ts rest : tracked a x ts rest last s ->
  match next_event s last ts with
  | Some t => report_order s last ts = t :: report_order (taken_event t s) last ts /\ is_Some (tds (tg s) !! t)
  | None => report_order s last ts = []
  end.
Proof.
  intros Hr. unfold next_event, report_order. destruct (pending_event s last) eqn:El.
  - split; [|apply (tr_tds _ _ _ _ _ _ Hr), (tr_in _ _ _ _ _ _ Hr)]. pose proof (tr_tds _ _ _ _ _ _ Hr _ (tr_in _ _ _ _ _ _ Hr)) as Hl.
    rewrite (pending_taken last last s Hl), bool_decide_eq_false_2 by naive_solver. cbn. f_equal. apply filter_iff_in. intros u _.
    rewrite (pending_taken last u s Hl). destruct (bool_decide (u <> last)) eqn:E; [done|apply bool_decide_eq_false in E; naive_solver].
  - destruct (List.find (pending_event s) ts) as [t|] eqn:Ef.
    + destruct (find_elem _ _ _ Ef) as [Ht Hp]. pose proof (tr_tds _ _ _ _ _ _ Hr t Ht) as Htt. split; [|done].
      rewrite (pending_taken t last s Htt), El, andb_false_r. cbn [app]. rewrite (filter_pending_find s last ts t El Ef (tr_nodup _ _ _ _ _ _ Hr)). f_equal.
      apply filter_iff_in. intros u _. by rewrite (pending_taken t u s Htt).
    + cbn [app]. apply elem_of_nil_inv. intros u. rewrite list_elem_of_filter. intros [[_ Hp] Hu]. apply list_elem_of_In in Hu. pose proof (List.find_none _ _ Ef u Hu). congruence.
Qed.

Lemma message_taken a t s (l : list nat) : is_Some (tds (tg s) !! t) -> t ∉ l -> message a (taken_event t s) <$> l = message a s <$> l.
Proof.
  intros Ht Hn. apply list_fmap_ext. intros i u Hu. unfold message. rewrite !(event_taken t u s Ht). rewrite decide_False; [done|].
  intros ->. apply Hn. by eapply list_elem_of_lookup_2.
Qed.

Lemma report_order_nodup s last ts : NoDup ts -> NoDup (report_order s last ts).
Proof.
  intros Hnd. unfold report_order. destruct (pending_event s last); cbn; [apply NoDup_cons; split; [rewrite list_elem_of_filter; naive_solver|]|]; by apply NoDup_filter.
Qed.

Lemma drain_run a x ts rest last n : forall s, tracked a x ts rest last s -> (length (report_order s last ts) < n)%nat ->
  exists s', drain_events a n s = Ok ((message a s <$> report_order s last ts, TD_NOMSG), s') /\ report_order s' last ts = [].
Proof.
  induction n as [|n IH]; intros s Hr Hn; [lia|]. cbn [drain_events]. pose proof (report_order_next a x s last ts rest Hr) as Hnext.
  unfold mbind at 1, M_bind at 1. rewrite (getmsg_run a x ts rest last s Hr). destruct (next_event s last ts) as [t|].
  - destruct Hnext as [E Ht]. rewrite E in Hn. cbn [length] in Hn. destruct (IH (taken_event t s)) as (s' & Es & Hs'); [by apply tracked_taken|lia|].
    exists s'. rewrite (bind_run _ _ _ _ _ Es). split; [|done]. rewrite E, fmap_cons.
    assert (t ∉ report_order (taken_event t s) last ts) as Hnt.
    { pose proof (report_order_nodup s last ts (tr_nodup _ _ _ _ _ _ Hr)) as Hd. rewrite E in Hd. by apply NoDup_cons in Hd as []. }
    by rewrite (message_taken a t s _ Ht Hnt).
  - exists s. rewrite Hnext. done.
Qed.

Lemma report_order_bound s last ts : last ∈ ts -> NoDup ts -> (length (report_order s last ts) <= length ts)%nat.
Proof.
  intros Hin Hnd. apply submseteq_length, NoDup_submseteq; [by apply report_order_nodup|]. intros u. unfold report_order.
  destruct (pending_event s last); cbn [app]; [rewrite elem_of_cons|]; rewrite list_elem_of_filter; naive_solver.
Qed.

(** ** From the signal to the debugger *)

(** Threads of the program report an event of each of these threads. *)
Fixpoint signal_all (current : nat) (l : list (nat * Z)) : M dbg unit :=
  match l with [] => mret tt | (t, e) :: l => __pthread_signal_thread_event (Some current) t e;; signal_all current l end.

(** The control block of a thread holds one event: of several of the same thread the
    last one is left. *)
Fixpoint final_events (l : list (nat * Z)) : list (nat * Z) :=
  match l with [] => [] | (t, e) :: l => if bool_decide (t ∈ l.*1) then final_events l else (t, e) :: final_events l end.

Lemma final_events_sub l x : x ∈ final_events l -> x ∈ l.
Proof.
  induction l as [|[t e] l IH]; cbn; [done|]. case_bool_decide; [intros; right; auto|].
  intros [->|]%elem_of_cons; [by left|right; auto].
Qed.

Lemma final_events_dom l t : t ∈ (final_events l).*1 <-> t ∈ l.*1.
Proof.
  induction l as [|[u e] l IH]; [done|]. cbn. case_bool_decide as H; cbn; rewrite ?elem_of_cons, IH; [|done]. naive_solver.
Qed.

Lemma final_events_nodup l : NoDup (final_events l).*1.
Proof.
  induction l as [|[u e] l IH]; [constructor|]. cbn. case_bool_decide as H; [done|]. apply NoDup_cons. by rewrite final_events_dom.
Qed.

(** The debugger has asked the thread to report events of this kind. *)
Definition reports (current : nat) (e : Z) (g : dbg) : Prop :=
  exists x, tds g !! current = Some x /\ td_report_events x <> 0 /\ (e = TD_CREATE \/ e = TD_DEATH \/ e = TD_REAP) /\
    Z.land (__td_eventmask e) (Z.lor (ev_word0 (threads_events g)) (ev_word0 (eventmask (td_events x)))) <> 0.

Lemma signal_run current t e y g : reports current e g -> tds g !! t = Some y ->
  exists g', __pthread_signal_thread_event (Some current) t e g = Ok (tt, g') /\
    tds g' = <[t := set_td_events (TdEventbuf (eventmask (td_events y)) e (DThread t)) y]> (tds g) /\
    last_event g' = Some t /\ handles g' = handles g /\ handles_num g' = handles_num g /\ threads_events g' = threads_events g /\ dn g' = dn g.
Proof.
  intros (x & Hx & Hrep & He & Hmask) Hy. unfold __pthread_signal_thread_event. rewrite (bind_run get _ _ _ _ eq_refl), (bind_run _ _ g current g eq_refl).
  rewrite (bind_run _ _ g x g) by (unfold get_td; rewrite (bind_run get _ _ _ _ eq_refl); by rewrite Hx). rewrite bool_decide_eq_false_2 by done.
  assert (__td_eventword e = 0) as -> by (by destruct He as [-> | [-> | ->]]).
  rewrite (bind_run _ _ g (ev_word0 (threads_events g)) g eq_refl), (bind_run _ _ g (ev_word0 (eventmask (td_events x))) g eq_refl), bool_decide_eq_false_2 by done.
  set (f := fun y => set_td_events (TdEventbuf (eventmask (td_events y)) e (DThread t)) y). set (g1 := set_tds (<[t := f y]> (tds g)) g).
  rewrite (bind_run (upd_td t f) _ g tt g1).
  2:{ unfold upd_td. rewrite (bind_run _ _ g y g) by (unfold get_td; rewrite (bind_run get _ _ _ _ eq_refl); by rewrite Hy). done. }
  rewrite (bind_run (modify (set_last_event (Some t))) _ g1 tt (set_last_event (Some t) g1) eq_refl).
  destruct He as [-> | [-> | ->]]; eexists; (split; [reflexivity|]); done.
Qed.

Lemma reports_kept current t e y e' g g' : reports current e' g -> tds g !! t = Some y ->
  tds g' = <[t := set_td_events (TdEventbuf (eventmask (td_events y)) e (DThread t)) y]> (tds g) -> threads_events g' = threads_events g -> reports current e' g'.
Proof.
  intros (x & Hx & Hrep & He & Hm) Hy Et Em. unfold reports. rewrite Et, Em. destruct (decide (current = t)) as [->|].
  - rewrite lookup_insert_eq. eexists. split; [done|]. assert (x = y) as -> by congruence. done.
  - rewrite lookup_insert_ne by done. by exists x.
Qed.

Lemma signal_all_run current l : forall g,
  (forall t e, (t, e) ∈ l -> reports current e g /\ is_Some (tds g !! t)) ->
  exists g', signal_all current l g = Ok (tt, g') /\
    last_event g' = match last l.*1 with Some t => Some t | None => last_event g end /\
    handles g' = handles g /\ handles_num g' = handles_num g /\ dn g' = dn g /\
    (forall t, t ∉ l.*1 -> tds g' !! t = tds g !! t) /\
    (forall t e, (t, e) ∈ final_events l -> exists y, tds g' !! t = Some y /\ eventnum (td_events y) = e /\ eventdata (td_events y) = DThread t).
Proof.
  induction l as [|[t e] l IH]; intros g Hl; [exists g; repeat split; try done; intros t e He; by apply elem_of_nil in He|].
  destruct (Hl t e ltac:(by left)) as [Hr [y Hy]].
  destruct (signal_run current t e y g Hr Hy) as (g1 & E1 & Et & El & Eh & En & Em & Ed). cbn [signal_all]. rewrite (bind_run _ _ _ _ _ E1).
  destruct (IH g1) as (g2 & E2 & El2 & Eh2 & En2 & Ed2 & Hout & Hin2).
  - intros u e' Hu. destruct (Hl u e' ltac:(by right)) as [Hr' Hs]. split; [by eapply reports_kept|]. rewrite Et.
    destruct (decide (u = t)) as [->|]; [by rewrite lookup_insert_eq|by rewrite lookup_insert_ne].
  - exists g2. rewrite E2. split; [done|]. split; [cbn [fmap list_fmap fst]; rewrite last_cons, El2; by destruct (last l.*1)|]. split; [congruence|]. split; [congruence|]. split; [congruence|]. split.
    + intros u Hu. cbn [fmap list_fmap fst] in Hu. apply not_elem_of_cons in Hu as [Hne Hu]. rewrite Hout, Et by done. by rewrite lookup_insert_ne.
    + cbn [final_events]. case_bool_decide as Ht; [done|].
      intros u e' Hu. apply elem_of_cons in Hu as [Hu|Hu]; [|by apply Hin2]. injection Hu as -> ->. rewrite Hout, Et, lookup_insert_eq by done. by eexists.
Qed.

(** The program after the signals: the threads of [l] have their last events, no
    others have one. *)
Lemma signalled a x ts rest last0 current l s :
  tracked a x ts rest last0 s -> (forall t, t ∈ ts -> pending_event s t = false) ->
  (forall t e, (t, e) ∈ l -> t ∈ ts /\ reports current e (tg s)) ->
  exists s1, ontg (signal_all current l) s = Ok (tt, s1) /\ tracked a x ts rest (default last0 (last l.*1)) s1 /\
    (forall t e, (t, e) ∈ final_events l -> message a s1 t = EventMsg e (Th a (Some t)) (DThread t)) /\
    (forall t, t ∈ ts -> pending_event s1 t = bool_decide (t ∈ l.*1)).
Proof.
  intros Hr Hnone Hl. destruct (signal_all_run current l (tg s)) as (g' & E & El & Eh & En & Ed & Hout & Hin).
  { intros t e Hte. destruct (Hl t e Hte) as [Ht Hrep]. split; [done|]. by apply (tr_tds _ _ _ _ _ _ Hr). }
  assert (forall t, t ∈ l.*1 <-> exists e, (t, e) ∈ final_events l) as Hdom.
  { intros t. rewrite <- final_events_dom, list_elem_of_fmap. split; [intros ([u e] & -> & Hu); by exists e|intros [e He]; by exists (t, e)]. }
  exists (set_tg g' s). split; [unfold ontg, zoom; by rewrite E|]. split; [|split].
  - destruct Hr as [H1 H2 H3 H4 H5 H6 H7 H8 H9 (R1 & R2 & R3) H11]. split; cbn [tg set_tg agents ta_mem]; try done; rewrite ?Eh, ?En; try done.
    + rewrite El. by destruct (last l.*1).
    + destruct (last l.*1) as [t|] eqn:Et; [|done]. apply last_Some_elem_of, Hdom in Et as [e He]. by apply (Hl t e), final_events_sub.
    + intros t Ht. destruct (decide (t ∈ l.*1)) as [Hin'|Hn]; [apply Hdom in Hin' as [e He]; destruct (Hin t e He) as (y & -> & _); by eexists|rewrite Hout by done; by apply H9].
  - intros t e He. destruct (Hin t e He) as (y & Hy & Hnum & Hdat). unfold message, event_at. cbn. by rewrite Hy, Hnum, Hdat.
  - intros t Ht. destruct (bool_decide (t ∈ l.*1)) eqn:Eb; [apply bool_decide_eq_true, Hdom in Eb as [e He]|apply bool_decide_eq_false in Eb].
    + destruct (Hin t e He) as (y & Hy & Hnum & _). unfold pending_event, event_at. cbn. rewrite Hy, Hnum.
      destruct (Hl t e (final_events_sub _ _ He)) as [_ (? & _ & _ & Hk & _)]. by destruct Hk as [-> | [-> | ->]].
    + rewrite <- (Hnone t Ht). unfold pending_event, event_at. cbn. by rewrite Hout.
Qed.

(** C38: when no event is pending and threads of the program report events, any
    number of them for any of the threads, the debugger that asks until there is
    no message gets the last event of every thread exactly once, with its thread,
    that of the thread that was signalled last first, and nothing else; an
    earlier event of the same thread is overwritten, and never delivered. *)
Theorem events_delivered a x ts rest last0 current l s :
  tracked a x ts rest last0 s -> (forall t, t ∈ ts -> pending_event s t = false) ->
  (forall t e, (t, e) ∈ l -> t ∈ ts /\ reports current e (tg s)) ->
  exists s1 s2 msgs, ontg (signal_all current l) s = Ok (tt, s1) /\ drain_events a (S (length ts)) s1 = Ok ((msgs, TD_NOMSG), s2) /\
    msgs ≡ₚ (fun '(t, e) => EventMsg e (Th a (Some t)) (DThread t)) <$> final_events l /\
    (fun m => th_unique (msg_th m)) <$> head msgs = Some <$> last l.*1.
Proof.
  intros Hr Hnone Hl. destruct (signalled a x ts rest last0 current l s Hr Hnone Hl) as (s1 & E & Hr1 & Hmsg & Hpend).
  pose proof (tr_nodup _ _ _ _ _ _ Hr) as Hts. set (last1 := default last0 (last l.*1)) in *. pose proof (tr_in _ _ _ _ _ _ Hr1) as Hlast1.
  destruct (drain_run a x ts rest last1 (S (length ts)) s1 Hr1) as (s2 & E2 & _); [pose proof (report_order_bound s1 last1 ts Hlast1 Hts); lia|].
  exists s1, s2. eexists. split; [done|]. split; [exact E2|]. split.
  - assert (report_order s1 last1 ts ≡ₚ (final_events l).*1) as Hperm.
    { apply NoDup_Permutation; [by apply report_order_nodup|apply final_events_nodup|]. intros t. rewrite final_events_dom. unfold report_order. rewrite elem_of_app, list_elem_of_filter, (Hpend last1 Hlast1). split.
      - intros [Ht|((_ & Hp) & Ht)]; [|rewrite (Hpend t Ht) in Hp; by apply bool_decide_eq_true in Hp].
        destruct (bool_decide (last1 ∈ l.*1)) eqn:Ep; [apply bool_decide_eq_true in Ep|by apply elem_of_nil in Ht]. by apply list_elem_of_singleton in Ht as ->.
      - intros Ht. destruct (decide (t = last1)) as [->|]; [left; rewrite bool_decide_eq_true_2 by done; by left|right].
        apply list_elem_of_fmap in Ht as Ht'. destruct Ht' as ([u e] & -> & He). destruct (Hl u e He) as [Hu _]. split; [|done]. split; [done|]. cbn. rewrite (Hpend u Hu).
        by apply bool_decide_eq_true. }
    rewrite Hperm, <- list_fmap_compose. apply Permutation_refl'. apply list_fmap_ext. intros i [t e] Hi. cbn. by apply (Hmsg t e), list_elem_of_lookup_2 with i.
  - unfold report_order. rewrite (Hpend last1 Hlast1). destruct (last l.*1) as [t|] eqn:Et.
    + assert (last1 = t) as -> by (unfold last1; by rewrite ?Et). by rewrite bool_decide_eq_true_2 by by apply last_Some_elem_of.
    + apply last_None in Et. rewrite Et, bool_decide_eq_false_2 by apply not_elem_of_nil. cbn [app].
      assert (filter (fun t => t <> last1 /\ pending_event s1 t = true) ts = []) as ->; [|done].
      apply elem_of_nil_inv. intros t. rewrite list_elem_of_filter. intros [[_ Hp] Ht]. rewrite (Hpend t Ht), Et in Hp. by apply bool_decide_eq_true, elem_of_nil in Hp.
Qed.
End events.

(** ** Registers *)

Section registers.
Context (readable writeable : taddr -> bool) (symbols : tsym -> bool).
Implicit Types s : tdb.

(** The table of natives holds as many as are counted. *)
Definition natives_listed s : Prop := pth_number_of_natives (tworld s) <= Z.of_nat (length (natives (tworld s))).

Lemma set_same_list s : set_native_list (native_list s) s = s.
Proof. by destruct s. Qed.

Lemma lookup_all_run l s : lookup_all symbols l s = Ok (forallb symbols l, s).
Proof. induction l as [|v l IH]; [done|]. cbn [lookup_all forallb]. rewrite (bind_run _ _ s (symbols v) s eq_refl). by destruct (symbols v). Qed.

(** What [get_targ_lwp_info] answers, with the copy of the table that it leaves *)
Definition lwps_of s : res (td_err_e * targ_lwp_info) :=
  let n := pth_number_of_natives (tworld s) in
  if negb (symbols PTHREAD_NATIVE_LIST && symbols PTHREAD_NUMBER_OF_NATIVES) then Ok (TD_ERR, Lwps 0 [])
  else if negb (readable (AVar PTHREAD_NUMBER_OF_NATIVES)) then Ok (TD_BADTA, Lwps 0 [])
  else if bool_decide (n > 0) then
    if bool_decide (n > Z.of_nat MAX_NATIVE_LIST) then Err OutOfBounds
    else if readable (ANatives (Z.to_nat n)) then Ok (TD_OK, Lwps n (take (Z.to_nat n) (natives (tworld s)) ++ drop (Z.to_nat n) (native_list s)))
    else Ok (TD_BADTA, Lwps 0 [])
  else Ok (TD_OK, Lwps n (native_list s)).

Lemma lwp_info_run s : get_targ_lwp_info readable symbols s =
  match lwps_of s with
  | Ok (e, l) => Ok ((e, l), if bool_decide (e = TD_OK) then set_native_list (lwp_info_tab l) s else s)
  | Err e => Err e
  end.
Proof.
  unfold get_targ_lwp_info, lwps_of. rewrite (bind_run get _ _ _ _ eq_refl).
  rewrite (bind_run _ _ _ _ _ (lookup_all_run _ s)). cbn [forallb]. rewrite andb_true_r.
  destruct (symbols PTHREAD_NATIVE_LIST && symbols PTHREAD_NUMBER_OF_NATIVES); [|done]. cbn [negb].
  assert (forall A addr (v : tdb -> option A), pdread readable addr v s = Ok (if readable addr then v s else None, s)) as Hrd by done.
  rewrite (bind_run _ _ _ _ _ (Hrd _ _ _)). destruct (readable (AVar PTHREAD_NUMBER_OF_NATIVES)); [|done]. cbn [negb].
  destruct (bool_decide (pth_number_of_natives (tworld s) > 0)).
  - destruct (bool_decide (pth_number_of_natives (tworld s) > Z.of_nat MAX_NATIVE_LIST)); [done|]. rewrite (bind_run _ _ _ _ _ (Hrd _ _ _)). by destruct (readable (ANatives _)).
  - rewrite bool_decide_eq_true_2 by done. cbn. by rewrite set_same_list.
Qed.

(** The same answer again, with the copy *)
Lemma lwps_again s l s' : natives_listed s -> lwps_of s = Ok (TD_OK, l) -> tg s' = tg s -> native_list s' = lwp_info_tab l -> lwps_of s' = Ok (TD_OK, l).
Proof.
  intros Hn E Et El. unfold natives_listed, lwps_of in *. assert (tworld s' = tworld s) as -> by (unfold tworld; by rewrite Et). rewrite El.
  destruct (negb (symbols _ && symbols _)); [done|]. destruct (negb (readable _)); [done|]. destruct (bool_decide (_ > 0)) eqn:E0; [|by injection E as <-].
  destruct (bool_decide (_ > Z.of_nat _)); [done|]. destruct (readable _); [|done]. injection E as <-. cbn [lwp_info_tab]. do 3 f_equal.
  apply bool_decide_eq_true in E0. rewrite drop_app_ge by (rewrite length_take; lia). rewrite length_take, drop_drop. do 2 f_equal. lia.
Qed.

(** The kernel thread is found without looking at the program again. *)
Lemma lwp_of_regs_pure th x l : exists r, forall s, lwp_of_regs readable symbols th x l s = match r with Ok w => Ok (w, s) | Err e => Err e end.
Proof.
  unfold lwp_of_regs, get_targ_lwp_descr. destruct (boundnative (p_pth x)) as [k|].
  - destruct (bool_decide (Z.of_nat k > num_lwps l)) eqn:E.
    + exists (Ok None). intros s. unfold mbind, M_bind. cbn. by rewrite E.
    + destruct (lwp_info_tab l !! k) as [d|] eqn:Ed; [exists (Ok (Some (if is_used d then tid d else 0)))|exists (Err OutOfBounds)]; intros s; unfold mbind, M_bind; cbn; by rewrite E, Ed.
  - destruct (lwp_info_tab l) as [|f r]; [by exists (Err OutOfBounds)|].
    destruct (bool_decide (num_lwps l = 1) && bool_decide (current f = None)) eqn:E; eexists (Ok (Some _)); intros s; unfold mbind, M_bind; cbn [mret M_ret]; by rewrite E.
Qed.

(** [find_regs] leaves everything but the copy of the table, and finds the same
    in every state with the same program. *)
Lemma find_regs_again th lwpid s s1 : natives_listed s -> find_regs readable symbols th s = Ok (RLwp lwpid, s1) ->
  exists l, s1 = set_native_list l s /\
    forall s', tg s' = tg s -> ta_mem s' = ta_mem s -> native_list s' = l -> find_regs readable symbols th s' = Ok (RLwp lwpid, s').
Proof.
  intros Hn E. unfold find_regs in *.
  assert (forall s', get_agent (th_ta_p th) s' = match ta_mem s' !! th_ta_p th with Some a => Ok (a, s') | None => Err BadDeref end) as Hag.
  { intros s'. unfold get_agent. rewrite (bind_run get _ _ _ _ eq_refl). by destruct (ta_mem s' !! th_ta_p th). }
  pose (px s' := match th_unique th with None => None | Some t => if readable (ATcb t) then pds_of s' t else None end).
  assert (forall s', read_tcb readable (th_unique th) s' = Ok (px s', s')) as Htcb by (intros s'; unfold px; by destruct (th_unique th)).
  unfold mbind at 1, M_bind at 1 in E. rewrite Hag in E. destruct (ta_mem s !! th_ta_p th) as [a|] eqn:Ea; [|done].
  rewrite (bind_run _ _ _ _ _ (Htcb s)) in E. destruct (px s) as [x|] eqn:Ex; [|done]. destruct (td_thread_terminated x) eqn:Eterm; [done|].
  unfold mbind at 1, M_bind at 1 in E. rewrite lwp_info_run in E. destruct (lwps_of s) as [[e l]|] eqn:El; [|done].
  destruct (bool_decide (e = TD_OK)) eqn:Ee; [|done]. apply bool_decide_eq_true in Ee as ->. cbn [negb] in E.
  destruct (lwp_of_regs_pure th x l) as (r & Hr). unfold mbind, M_bind in E. rewrite Hr in E. destruct r as [w|]; [|done]. cbn in E. destruct w as [w|]; [|done].
  injection E as -> <-. exists (lwp_info_tab l). split; [done|]. intros s' Et Em El'.
  rewrite (bind_run _ _ s' a s') by (by rewrite Hag, Em, Ea). rewrite (bind_run _ _ _ _ _ (Htcb s')).
  assert (px s' = px s) as -> by (unfold px; destruct (th_unique th); [by rewrite (pds_of_tg s s')|done]). rewrite Ex, Eterm.
  unfold mbind at 1, M_bind at 1. rewrite lwp_info_run, (lwps_again s l s' Hn El Et El'), !bool_decide_eq_true_2 by done. cbn [negb].
  unfold mbind, M_bind. rewrite Hr, <- El', set_same_list. done.
Qed.

(** C39: the registers that the debugger stores for a thread it reads back: those of
    the kernel thread as they are, those saved in the control block except for
    ORIG_EAX, which is EAX. *)
Theorem gregs_roundtrip th lwpid gregs s s1 : natives_listed s -> find_regs readable symbols th s = Ok (RLwp lwpid, s1) -> length gregs = 17%nat ->
  (if bool_decide (lwpid = 0) then exists t, th_unique th = Some t /\ writeable (AMctx t) = true else is_Some (lregs s !! lwpid)) ->
  exists s2, td_thr_setgregs readable writeable symbols th gregs s = Ok (TD_OK, s2) /\
    td_thr_getgregs readable symbols th s2 = Ok ((TD_OK, if bool_decide (lwpid = 0) then <[11%nat := reg gregs 6]> gregs else gregs), s2).
Proof.
  intros Hn E Hlen Hw. destruct (find_regs_again th lwpid s s1 Hn E) as (l & -> & Hagain). unfold td_thr_setgregs. rewrite (bind_run _ _ _ _ _ E).
  rewrite (bind_run get _ _ _ _ eq_refl). destruct (bool_decide (lwpid = 0)) eqn:E0.
  - destruct Hw as (t & Ht & Hwr). unfold thread_of. rewrite Ht, (bind_run _ _ _ t (set_native_list l s) eq_refl), Hwr. eexists. split; [reflexivity|].
    match goal with |- td_thr_getgregs _ _ _ ?st = _ => set (s2 := st) end. unfold td_thr_getgregs. rewrite (bind_run _ _ s2 (RLwp lwpid) s2) by by apply Hagain.
    rewrite (bind_run get _ _ _ _ eq_refl), E0. unfold thread_of. rewrite Ht, (bind_run _ _ s2 t s2 eq_refl).
    rewrite (bind_run _ _ s2 (td_utils_prgregset_to_gregset gregs) s2) by (unfold s2; cbn [mgregs set_mgregs]; by rewrite lookup_insert_eq).
    do 17 (destruct gregs as [|? gregs]; [done|]). by destruct gregs.
  - destruct Hw as [r Hr]. cbn [lregs set_native_list]. rewrite Hr. eexists. split; [reflexivity|].
    match goal with |- td_thr_getgregs _ _ _ ?st = _ => set (s2 := st) end. unfold td_thr_getgregs. rewrite (bind_run _ _ s2 (RLwp lwpid) s2) by by apply Hagain.
    rewrite (bind_run get _ _ _ _ eq_refl), E0. unfold s2. cbn [lregs set_lregs]. by rewrite lookup_insert_eq.
Qed.
End registers.

(** ** An example: threads 1 (the main thread), 2 (the manager), 3 and 5 *)

Definition demo_tcb : tcb := Tcb None 0 0 0 0 None 0 0 None 100 false.
Definition demo_td : td_st := Td None 0 0 None 1 zero_eventbuf.
Definition demo_threads {A} (x : A) : gmap nat A := list_to_map ((fun t => (t, x)) <$> [1; 2; 3; 5]%nat).
Definition debug_demo (table : list (option nat)) (num : Z) : tdb :=
  let l := lib_demo (QMem ∅ ∅ ∅) (demo_threads a_thread) in
  Tdb (Dbg (set_tqueue [5; 3; 2; 1]%nat (native_demo (demo_threads (stack_at 1000 1000)) (set_pth_main (Some 1%nat) (set_tx (demo_threads demo_tcb) l))))
         (demo_threads demo_td) table num qlock_free qlock_free true true (Some 2%nat) 1 [] (TdEvents (Z.ones 32) 0) (Some 2%nat) [])
      [50%nat] {[50%nat := Ta 1 (Z.of_nat (length table)) 256 500]} [] (replicate 128 zero_descr) [] ∅ ∅ ∅ {[3%nat := replicate 19 0]} ∅.

Definition all_addresses (a : taddr) : bool := true.
Definition all_symbols (v : tsym) : bool := true.

Definition demo_table (ts : list nat) : list (option nat) := (Some <$> ts) ++ replicate (Z.to_nat MAX_TD_DEBUG_HANDLES - length ts) None.

Lemma demo_table_length ts : (length ts <= 10)%nat -> length (demo_table ts) = Z.to_nat MAX_TD_DEBUG_HANDLES.
Proof. intros H. unfold demo_table, MAX_TD_DEBUG_HANDLES. rewrite length_app, length_fmap, length_replicate. lia. Qed.

Lemma demo_attached ts num : (length ts <= 10)%nat -> attached 1 (a_native 101 8) (tg (debug_demo (demo_table ts) num)).
Proof.
  intros H. split; try done.
  - by apply demo_table_length.
  - cbn. intros t Ht. rewrite !elem_of_cons in Ht. destruct Ht as [-> | [-> | [-> | [-> | Ht]]]]; [by eexists..|by apply elem_of_nil in Ht].
  - cbn. intros t [= <-]. done.
Qed.

Lemma demo_agent ts num : (length ts <= 10)%nat ->
  agent_ok all_addresses 50 (Ta 1 (Z.of_nat (length (demo_table ts))) 256 500) (debug_demo (demo_table ts) num).
Proof.
  intros H. split; try done.
  - by left.
  - cbn [pthread_threads_max]. by rewrite demo_table_length.
  - by apply demo_table_length.
Qed.

Lemma counting_looks_only : looks_only (fun _ => mret 0).
Proof. by intros th s r s' [= <- <-]. Qed.

(** Thread 4 has left the queue, but not the table. *)
Lemma last_thread_twice_witness :
  exists s', ontg __td_sync_handles (debug_demo (demo_table [1; 2; 5; 4; 3]%nat) 5) = Ok (tt, s') /\
    td_ta_thr_iter all_addresses (Some 50%nat) (fun _ => mret 0) TD_THR_ANY_STATE 0 s' = visit 50 (fun _ => mret 0) [1; 2; 5; 3; 3]%nat s'.
Proof.
  destruct (last_thread_twice all_addresses 50 (Ta 1 (Z.of_nat (length (demo_table [1; 2; 5; 4; 3]%nat))) 256 500) (fun _ => mret 0) 0 1 (a_native 101 8) 1 2
    [5%nat] 4 [] 3 (replicate (Z.to_nat MAX_TD_DEBUG_HANDLES - 5) None) (debug_demo (demo_table [1; 2; 5; 4; 3]%nat) 5)) as (s' & E & Ev).
  - apply demo_attached. cbn. lia.
  - vm_compute. lia.
  - apply demo_agent. cbn. lia.
  - apply counting_looks_only.
  - done.
  - done.
  - vm_compute. set_solver.
  - vm_compute. set_solver.
  - reflexivity.
  - by apply Forall_replicate.
  - reflexivity.
  - exists s'. split; [exact E|]. etrans; [exact Ev|]. f_equal.
Defined.

Lemma thr_iter_after_sync_witness :
  exists s', ontg __td_sync_handles (debug_demo (demo_table [1; 2]%nat) 2) = Ok (tt, s') /\
    td_ta_thr_iter all_addresses (Some 50%nat) (fun _ => mret 0) TD_THR_ANY_STATE 0 s' = visit 50 (fun _ => mret 0) [1; 2; 5; 3]%nat s'.
Proof.
  destruct (thr_iter_after_sync all_addresses 50 (Ta 1 (Z.of_nat (length (demo_table [1; 2]%nat))) 256 500) (fun _ => mret 0) 0 1 (a_native 101 8) 1 2
    (debug_demo (demo_table [1; 2]%nat) 2)) as (s' & E & _ & _ & Ev).
  - apply demo_attached. cbn. lia.
  - vm_compute. lia.
  - apply demo_agent. cbn. lia.
  - apply counting_looks_only.
  - done.
  - done.
  - vm_compute. set_solver.
  - vm_compute. set_solver.
  - exists s'. split; [exact E|]. etrans; [exact Ev|]. f_equal.
Defined.

(** Threads 3 and 5 end. *)
Lemma events_delivered_witness :
  let s := debug_demo ((Some <$> [1; 2; 5; 3]%nat) ++ [None]) 4 in
  exists s1 s2 msgs, ontg (signal_all 1 [(3%nat, TD_CREATE); (5%nat, TD_DEATH); (3%nat, TD_DEATH)]) s = Ok (tt, s1) /\
    drain_events all_addresses all_addresses 50 5 s1 = Ok ((msgs, TD_NOMSG), s2) /\
    msgs ≡ₚ [EventMsg TD_DEATH (Th 50 (Some 5%nat)) (DThread 5); EventMsg TD_DEATH (Th 50 (Some 3%nat)) (DThread 3)] /\
    (fun m => th_unique (msg_th m)) <$> head msgs = Some (Some 3%nat).
Proof.
  intros s. apply (events_delivered all_addresses all_addresses 50 (Ta 1 5 256 500) [1; 2; 5; 3]%nat [None] 2 1
    [(3%nat, TD_CREATE); (5%nat, TD_DEATH); (3%nat, TD_DEATH)] s).
  - split; try done.
    + by left.
    + vm_compute. set_solver.
    + repeat constructor; set_solver.
    + intros t Ht. rewrite !elem_of_cons in Ht. destruct Ht as [-> | [-> | [-> | [-> | Ht]]]]; [vm_compute; by eexists..|by apply elem_of_nil in Ht].
  - intros t Ht. rewrite !elem_of_cons in Ht. destruct Ht as [-> | [-> | [-> | [-> | Ht]]]]; [vm_compute; reflexivity..|by apply elem_of_nil in Ht].
  - intros t e Hte. assert ((e = TD_CREATE \/ e = TD_DEATH) /\ t ∈ [1; 2; 5; 3]%nat) as [He Ht].
    { rewrite !elem_of_cons in Hte. destruct Hte as [H | [H | [H | H]]]; [injection H as -> ->..|by apply elem_of_nil in H]; split; [naive_solver|set_solver|naive_solver|set_solver|naive_solver|set_solver]. }
    split; [done|]. exists demo_td. split; [done|]. split; [done|]. split; [destruct He; [by left|by right; left]|]. by destruct He as [-> | ->]; vm_compute.
Defined.

(** Thread 3 is not running. *)
Lemma gregs_roundtrip_witness :
  let s := debug_demo [] 0 in
  exists s2, td_thr_setgregs all_addresses all_addresses all_symbols (Th 50 (Some 3%nat)) (seqZ 1 17) s = Ok (TD_OK, s2) /\
    td_thr_getgregs all_addresses all_symbols (Th 50 (Some 3%nat)) s2 = Ok ((TD_OK, <[11%nat := 7]> (seqZ 1 17)), s2).
Proof.
  intros s. apply (gregs_roundtrip all_addresses all_addresses all_symbols (Th 50 (Some 3%nat)) 0 (seqZ 1 17) s
    (set_native_list ([a_native 100 7; a_native 101 8] ++ replicate 126 zero_descr) s)).
  - vm_compute. discriminate.
  - reflexivity.
  - reflexivity.
  - exists 3%nat. done.
Defined.

(** ** The manager that is not there *)

Section no_manager.
Context (switch : M sst unit) (destroy : last_call -> nat -> M sst unit).
Context (time_now : sst -> Z) (nn : Z -> option nat -> M ast (option nat)) (mctx_set : bool) (child_name : list Z).
Context (others wait_restart : M dbg unit) (sig_debug manager_name manager_func manager_event_func : Z).
Implicit Types s : dbg.

(** The manager's lock on the thread [c] *)
Definition waits_for_manager (c : nat) s : Prop := exists x, threads (world_of (dn s)) !! c = Some x /\ tlock x = QLock 1 1 1.

Lemma ondw_same {A} (c : M world A) s a : c (world_of (dn s)) = Ok (a, world_of (dn s)) -> ondw c s = Ok (a, s).
Proof. intros E. unfold ondw, ondn, zoom. rewrite (onnw_same c (dn s) a E). by destruct s. Qed.

Lemma await_forever c tid' : tid' <> 1 ->
  (forall s, waits_for_manager c s -> exists s', others s = Ok (tt, s') /\ waits_for_manager c s') ->
  forall fuel s, waits_for_manager c s -> await_thread_lock others fuel c tid' s = Err Stuck.
Proof.
  intros Ht Hothers. induction fuel as [|fuel IH]; intros s Hw; [done|]. cbn [await_thread_lock]. destruct (Hw) as (x & Hx & Hl).
  rewrite (bind_run _ _ s x s) by by apply ondw_same, get_t_run. rewrite Hl. cbn [spinlock owner]. rewrite !bool_decide_eq_false_2 by lia. cbn [orb].
  destruct (Hothers s Hw) as (s' & E & Hw'). rewrite (bind_run _ _ _ _ _ E). by apply IH.
Qed.

(** The attribute objects alone have changed. *)
Definition with_attrs (A : ast) s : dbg := set_dn (set_na A (dn s)) s.

Lemma onda_run {B} (c : M ast B) s r A : c (na (dn s)) = Ok (r, A) -> onda c s = Ok (r, with_attrs A s).
Proof. intros E. unfold onda, ondn, ona', zoom. by rewrite E. Qed.

Lemma attr_step a A s (x : pth_attr_st) op g st v : field op = Some (g, st) -> a_tid x = None ->
  onda (pth_attr_set (Some a) op v) (with_attrs (put_a a x A) s) = Ok (true, with_attrs (put_a a (st v x) A) s).
Proof.
  intros Hf Hu. refine (eq_trans (onda_run _ (with_attrs (put_a a x A) s) _ _ (ctrl_set_run (put_a a x A) a x (lookup_insert_eq _ _ _) Hu op g st v Hf)) _).
  unfold with_attrs. cbn [dn na set_dn set_na]. by rewrite put_a_put.
Qed.

Lemma attr_name_step a A s (x : pth_attr_st) text junk : manager_name <> 0 -> strs A !! manager_name = Some (text ++ 0 :: junk) ->
  Forall (fun c => c <> 0) text -> length (a_name x) = PTH_TCB_NAMELEN -> a_tid x = None ->
  exists name, onda (pth_attr_set (Some a) PTH_ATTR_NAME manager_name) (with_attrs (put_a a x A) s) =
    Ok (true, with_attrs (put_a a (set_a_name name x) A) s).
Proof.
  intros H0 Hs Ht Hl Hu. eexists. refine (eq_trans (onda_run _ _ true (put_a a _ A) _) _); [|reflexivity].
  cbn [dn na set_dn set_na with_attrs]. unfold pth_attr_set, pth_attr_ctrl. rewrite (bind_run _ _ _ _ _ (get_a_run a x _ (lookup_insert_eq _ _ _))), Hu.
  unfold set_name_of, read_str. rewrite (bind_run _ _ (put_a a x A) (text ++ 0 :: junk) (put_a a x A)).
  2:{ rewrite (bind_run get _ _ _ _ eq_refl), bool_decide_eq_false_2 by done. cbn [strs put_a set_attrs]. by rewrite Hs. }
  rewrite cpystrn_spec by (rewrite ?Hl; done || (unfold PTH_TCB_NAMELEN; lia)). erewrite bind_run; [|reflexivity]. cbv beta iota.
  rewrite (bind_run _ _ _ _ _ (upd_a_run a _ x _ (lookup_insert_eq _ _ _))). by rewrite put_a_put.
Qed.

Lemma manager_attrs_run a A s (x : pth_attr_st) text junk : manager_name <> 0 -> strs A !! manager_name = Some (text ++ 0 :: junk) ->
  Forall (fun c => c <> 0) text -> length (a_name x) = PTH_TCB_NAMELEN -> a_tid x = None ->
  exists y, manager_attrs manager_name a (with_attrs (put_a a x A) s) = Ok (tt, with_attrs (put_a a y A) s) /\
    a_stacksize y = MANAGER_STACKSIZE * 1024 /\ a_stackaddr y = 0.
Proof.
  intros H0 Hs Ht Hl Hu. unfold manager_attrs. cbv zeta.
  do 2 (erewrite (bind_run (onda _)); [|eapply attr_step; [reflexivity|exact Hu]]).
  match goal with |- context [put_a a ?x' A] => destruct (attr_name_step a A s x' text junk H0 Hs Ht Hl Hu) as [name En] end.
  rewrite (bind_run _ _ _ _ _ En). clear En.
  do 5 (erewrite (bind_run (onda _)); [|eapply attr_step; [reflexivity|exact Hu]]).
  eexists. split; [reflexivity|done].
Qed.

(** Neither the block nor a stack can be had for the thread of the manager. *)
Definition no_memory (block : option tcb_block) : Prop := match block with None => True | Some b => b_stack b = None end.

Lemma alloc_fails block A size : no_memory block -> 0 < size -> pth_tcb_alloc block size 0 A = Ok (None, A).
Proof.
  intros Hb Hs. unfold pth_tcb_alloc. destruct block as [b|]; [|done]. cbn in Hb.
  set (size' := if _ && _ then SIGSTKSZ else size). assert (0 < size') as Hp by (subst size'; unfold SIGSTKSZ; destruct (_ && _); lia).
  rewrite (bool_decide_eq_true_2 (0 < size') Hp). cbv zeta. rewrite (bool_decide_eq_false_2 (0 <> 0)) by (intros H; by apply H). by rewrite Hb.
Qed.

Notation spawn_manager := (start_manager switch destroy time_now nn mctx_set child_name).
Lemma start_manager_fails block a A s (y : pth_attr_st) func n d : no_memory block -> a_stacksize y = MANAGER_STACKSIZE * 1024 -> a_stackaddr y = 0 ->
  self (world_of (dn s)) = Some n -> natives (world_of (dn s)) !! n = Some d -> ss A = ss (na (dn s)) ->
  exists s', spawn_manager block a func (with_attrs (put_a a y A) s) = Ok (None, s') /\
    world_of (dn s') = world_of (dn s) /\ manager_request s' = manager_request s.
Proof.
  intros Hb Hsz Had Hself Hd HA. set (s0 := with_attrs (put_a a y A) s). unfold start_manager.
  rewrite (bind_run _ _ s0 None s0).
  2:{ unfold pth_spawn_cb. rewrite (bind_run get _ _ _ _ eq_refl). cbv zeta. erewrite (bind_run (x ← _; mret _)).
      2:{ rewrite (bind_run _ _ _ _ _ (onda_run (get_a a) s0 _ _ (get_a_run a y _ (lookup_insert_eq _ _ _)))). reflexivity. }
      cbv beta iota. rewrite Hsz, Had.
      rewrite (bind_run _ _ _ _ _ (onda_run _ _ None (na (dn s0)) (alloc_fails block _ (MANAGER_STACKSIZE * 1024) Hb eq_refl))). done. }
  rewrite (bind_run (modify _) _ s0 tt (set_manager_thread None s0) eq_refl). set (s1 := set_manager_thread None s0).
  assert (world_of (dn s1) = world_of (dn s)) as Hw by (unfold world_of, s1, s0; cbn; by rewrite HA).
  assert (ondn current_tid s1 = Ok (tid d, s1)) as Et.
  { unfold ondn, zoom, current_tid. rewrite (bind_run _ _ (dn s1) (n, d) (dn s1)); [by destruct s1|].
    apply onnw_same, my_descr_run; by rewrite Hw. }
  eexists. erewrite bind_run; [split; [reflexivity|]|].
  2:{ unfold setup_release. erewrite (bind_run (t ← _; _)); [|rewrite (bind_run _ _ _ _ _ Et); reflexivity].
      erewrite (bind_run (onda _)). 2:{ apply onda_run. unfold pth_attr_destroy. rewrite (bind_run _ _ _ _ _ (get_a_run a y _ (lookup_insert_eq _ _ _))). reflexivity. }
      reflexivity. }
  split; [exact Hw|done].
Qed.

Lemma initialize_fails init block s n d (b : bool) a junk l text rest m y : no_memory block -> init (dn s) = Ok (b, dn s) ->
  self (world_of (dn s)) = Some n -> natives (world_of (dn s)) !! n = Some d ->
  attr_mallocs (na (dn s)) = Some (a, junk) :: l -> length (a_name junk) = PTH_TCB_NAMELEN ->
  manager_name <> 0 -> strs (na (dn s)) !! manager_name = Some (text ++ 0 :: rest) -> Forall (fun c => c <> 0) text ->
  pth_main (ss (na (dn s))) = Some m -> tds s !! m = Some y ->
  td_report_events y = 0 \/ Z.land (__td_eventmask TD_CREATE) (Z.lor (ev_word0 (threads_events s)) (ev_word0 (eventmask (td_events y)))) <> 0 ->
  exists s1, __pthread_initialize_manager switch destroy time_now nn mctx_set child_name wait_restart sig_debug manager_name manager_func manager_event_func
     init true block s = Ok (0, s1) /\ world_of (dn s1) = world_of (dn s) /\ manager_request s1 = manager_request s.
Proof.
  intros Hb Hinit Hself Hd Hm Hn H0 Hs Ht Hmain Hy Hev. unfold __pthread_initialize_manager.
  rewrite (bind_run _ _ s b s) by (unfold ondn, zoom; rewrite Hinit; by destruct s). cbn [negb].
  rewrite (bind_run _ _ s (Some n) s) by (apply ondw_same; by rewrite <- Hself). rewrite (bind_run get _ _ _ _ eq_refl).
  set (A := set_attr_mallocs l (na (dn s))). set (x0 := initial (pth_default_stacksize (dn s)) junk).
  assert (onda (pth_attr_new (pth_default_stacksize (dn s))) s = Ok (Some a, with_attrs (put_a a x0 A) s)) as Enew
    by exact (onda_run _ s _ _ (pth_attr_new_run _ _ a junk l Hm Hn)).
  rewrite (bind_run _ _ _ _ _ Enew). clear Enew.
  assert (length (a_name x0) = PTH_TCB_NAMELEN) as Hl0 by (cbn; by rewrite length_drop, Hn).
  destruct (manager_attrs_run a A s x0 text rest H0 Hs Ht Hl0 eq_refl) as (z & Ea & Hsz & Had).
  rewrite (bind_run _ _ _ _ _ Ea), (bind_run get _ _ _ _ eq_refl). set (s2 := with_attrs (put_a a z A) s).
  rewrite (bind_run _ _ s2 m s2) by by (cbn; rewrite Hmain). rewrite (bind_run (get_td m) _ s2 y s2)
    by (unfold get_td; rewrite (bind_run get _ _ _ _ eq_refl); cbn; by rewrite Hy).
  destruct (start_manager_fails block a A s z (if bool_decide (td_report_events y = 0) then manager_func else manager_event_func) n d)
    as (s' & E & Hw & Hr); try done. fold s2 in E. exists s'.
  rewrite (bind_run (if bool_decide _ then _ else _) _ s2 false s'); [by split|].
  case_bool_decide as He.
  - by rewrite (bind_run _ _ _ _ _ E).
  - destruct Hev as [|Hev]; [done|]. cbv zeta. rewrite (bind_run (word_of (threads_events s2) (__td_eventword TD_CREATE)) _ s2 (ev_word0 (threads_events s)) s2 eq_refl),
      (bind_run (word_of (eventmask (td_events y)) (__td_eventword TD_CREATE)) _ s2 (ev_word0 (eventmask (td_events y))) s2 eq_refl), bool_decide_eq_false_2 by done. by rewrite (bind_run _ _ _ _ _ E).
Qed.

Lemma submit_waits fuel s1 n d c x na' start_routine arg : manager_request s1 < 0 ->
  self (world_of (dn s1)) = Some n -> natives (world_of (dn s1)) !! n = Some d -> current d = Some c -> tid d <> 1 ->
  threads (world_of (dn s1)) !! c = Some x -> tlock x = qlock_free ->
  (forall s, waits_for_manager c s -> exists s', others s = Ok (tt, s') /\ waits_for_manager c s') ->
  (c ← ondw pth_get_current;
   s ← get;
   c ← of_option BadDeref c;
   td_manager_submit_request others fuel (Request (Some c) None (REQ_CREATE na' start_routine arg (kmask (ss (na (dn s)))))) (Some c);;
   x ← get_td c;
   mret (td_retcode x, td_retval x)) s1 = Err Stuck.
Proof.
  intros Hreq1 Hself Hd Hc Htid Hx Hl Hothers.
  rewrite (bind_run _ _ s1 (Some c) s1) by (rewrite <- Hc; by apply ondw_same, (get_current_run _ n)). rewrite (bind_run get _ _ _ _ eq_refl), (bind_run _ _ s1 c s1 eq_refl).
  unfold td_manager_submit_request. set (w2 := set_threads (<[c := set_tlock (QLock 1 1 1) x]> (threads (world_of (dn s1)))) (world_of (dn s1))).
  set (s2 := set_dn (set_na (set_ss (set_wo w2 (ss (na (dn s1)))) (na (dn s1))) (dn s1)) s1).
  assert (ondw (lock_thread c 1) s1 = Ok (tt, s2)) as E2.
  { unfold ondw, ondn, onnw, ons, onw, zoom. fold (world_of (dn s1)). unfold lock_thread. rewrite (bind_run _ _ _ _ _ (get_t_run (world_of (dn s1)) c x Hx)).
    rewrite (bind_run _ _ _ (QLock 1 1 1) (world_of (dn s1))) by (by rewrite Hl). by rewrite (upd_t_run (world_of (dn s1)) c x _ Hx). }
  unfold mbind at 1, M_bind at 1. unfold mbind at 1, M_bind at 1. rewrite E2. unfold put_request.
  rewrite (bind_run _ _ s2 tt s2) by (rewrite (bind_run get _ _ _ _ eq_refl); by rewrite bool_decide_eq_true_2).
  rewrite (bind_run _ _ s2 (tid d) s2).
  2:{ unfold ondn, zoom, current_tid. rewrite (bind_run _ _ (dn s2) (n, d) (dn s2)) by by apply onnw_same, my_descr_run. by destruct s2. }
  unfold mbind at 1, M_bind at 1. rewrite (await_forever c (tid d)); [done|done|done|]. exists (set_tlock (QLock 1 1 1) x). split; [apply lookup_insert_eq|done].
Qed.

(** C40: when there is no memory for the thread of the manager, its
    initialisation returns the 0 of success and leaves no pipe (when the main
    thread reports no events, or creations are enabled; when it reports events
    but no creations, no thread is tried at all); then [pthread_create]
    waits for ever, on its own lock, for an answer to a request that is written
    nowhere, as long as the other threads leave that lock alone: only the manager
    would give it back. *)
Theorem create_hangs init block na' start_routine arg s n d c x b a junk l text rest m y :
  manager_request s < 0 -> no_memory block ->
  init (dn s) = Ok (b, dn s) ->
  self (world_of (dn s)) = Some n -> natives (world_of (dn s)) !! n = Some d -> current d = Some c -> tid d <> 1 ->
  threads (world_of (dn s)) !! c = Some x -> tlock x = qlock_free ->
  attr_mallocs (na (dn s)) = Some (a, junk) :: l -> length (a_name junk) = PTH_TCB_NAMELEN ->
  manager_name <> 0 -> strs (na (dn s)) !! manager_name = Some (text ++ 0 :: rest) -> Forall (fun c => c <> 0) text ->
  pth_main (ss (na (dn s))) = Some m -> tds s !! m = Some y ->
  td_report_events y = 0 \/ Z.land (__td_eventmask TD_CREATE) (Z.lor (ev_word0 (threads_events s)) (ev_word0 (eventmask (td_events y)))) <> 0 ->
  (forall s, waits_for_manager c s -> exists s', others s = Ok (tt, s') /\ waits_for_manager c s') ->
  (exists s1, __pthread_initialize_manager switch destroy time_now nn mctx_set child_name wait_restart sig_debug manager_name manager_func manager_event_func
     init true block s = Ok (0, s1) /\ manager_request s1 < 0) /\
  forall fuel, debug_create switch destroy time_now nn mctx_set child_name others wait_restart sig_debug manager_name manager_func manager_event_func
     fuel init true block na' start_routine arg s = Err Stuck.
Proof.
  intros Hreq Hb Hinit Hself Hd Hc Htid Hx Hl Hm Hn H0 Hs Ht Hmain Hy Hev Hothers.
  destruct (initialize_fails init block s n d b a junk l text rest m y) as (s1 & Einit & Hw & Hreq1); try done.
  assert (manager_request s1 < 0) as Hreq1' by lia. split; [by exists s1|]. intros fuel.
  unfold debug_create. rewrite (bind_run get _ _ _ _ eq_refl), bool_decide_eq_true_2 by done.
  rewrite (bind_run _ _ _ _ _ Einit), bool_decide_eq_false_2 by lia. rewrite <- Hw in Hself, Hd, Hx.
  by eapply submit_waits.
Qed.
End no_manager.

(** Thread 1 runs, and there is no memory for the thread of the manager. *)
Definition hang_demo : dbg :=
  let d := set_manager_request (-1) (set_manager_thread None (tg (debug_demo (demo_table [1]%nat) 1))) in
  let a := na (dn d) in
  let l := set_wo (set_natives [a_native 100 7; a_native 101 1] (wo (ss a))) (ss a) in
  set_dn (set_na (ASt l (ta a) (attrs a) (cells a) (<[5000 := [42; 42; 77; 0]]> (strs a)) [Some (9%nat, Attr None 0 0 0 (replicate 16 0) 0 0 0 0 0 0)]) (dn d)) d.
Definition keep_going {S} : M S unit := mret tt.

Lemma create_hangs_witness :
  debug_create keep_going (fun _ _ => keep_going) (fun _ => 0) (fun _ _ s => Ok (None, s)) true [] keep_going keep_going 34 5000 0 0
    20 (fun s => Ok (true, s)) true None None 7000 0 hang_demo = Err Stuck.
Proof.
  apply (create_hangs keep_going (fun _ _ => keep_going) (fun _ => 0) (fun _ _ s => Ok (None, s)) true [] keep_going keep_going 34 5000 0 0
    (fun s => Ok (true, s)) None None 7000 0 hang_demo 1 (a_native 101 1) 1 a_thread true 9 (Attr None 0 0 0 (replicate 16 0) 0 0 0 0 0 0) []
    [42; 42; 77] [] 1 demo_td).
  - reflexivity.
  - exact I.
  - reflexivity.
  - reflexivity.
  - reflexivity.
  - reflexivity.
  - discriminate.
  - reflexivity.
  - reflexivity.
  - reflexivity.
  - reflexivity.
  - discriminate.
  - reflexivity.
  - repeat constructor; discriminate.
  - reflexivity.
  - reflexivity.
  - right. vm_compute. discriminate.
  - intros s H. exists s. split; [reflexivity|exact H].
Defined.
