(* ===== verification/Syscall.v ===== *)
(** * The entry points of the C library (pth_syscall.c)

    The library defines the C library's names of the system calls.  Where the
    calling thread has a native of its own, or no other thread could run, the
    system call is made as it is; elsewhere the call of pth_high.c that lets only
    the thread sleep.  [Libc] is what is used of the C library and the kernel
    beside [Kernel]; the machine is one with the combined socket call. *)

From S2P Require Import Prelude Bitmap Dll LinkedList Ring Priorities PQueue Time Msg Futex World Sync Event Util Sched Attr Lib High Native Fork.

Definition F_SETLK : Z := 6.
Definition F_SETLKW : Z := 7.
Definition O_LARGEFILE64 : Z := 32768.
Definition SIG_DFL : Z := 0.
Definition SIG_IGN : Z := 1.

Definition SOCKOP_connect : Z := 3.
Definition SOCKOP_accept : Z := 5.
Definition SOCKOP_send : Z := 9.
Definition SOCKOP_recv : Z := 10.
Definition SOCKOP_sendto : Z := 11.
Definition SOCKOP_recvfrom : Z := 12.
Definition SOCKOP_sendmsg : Z := 16.
Definition SOCKOP_recvmsg : Z := 17.

(** The members of [struct sigaction] *)
Record sigact : Set := Sigact { sa_handler : Z; sa_mask : Z; sa_flags : Z }.

(** The functions [__libc_...]: addresses are passed on; [k_socketcall] gets the
    arguments and the bytes to be sent, [k_newselect] the sets and the timeout,
    and they return what they store. *)
Class Libc (K : Type) `{Kernel K} : Type := {
  libc_close : Z -> M K (Z * Z);
  libc_fsync : Z -> M K (Z * Z);
  libc_lseek : Z -> Z -> Z -> M K (Z * Z);
  libc_lseek64 : Z -> Z -> Z -> M K (Z * Z);
  libc_msync : Z -> Z -> Z -> M K (Z * Z);
  libc_nanosleep : Z -> Z -> M K (Z * Z);
  libc_open : Z -> Z -> Z -> M K (Z * Z);
  libc_pause : M K (Z * Z);
  libc_system : Z -> M K (Z * Z);
  libc_tcdrain : Z -> M K (Z * Z);
  libc_wait : Z -> M K (Z * Z);
  libc_sigaction : Z -> option sigact -> M K (Z * Z * sigact);
  k_socketcall : Z -> list Z -> list Z -> M K (Z * Z * list Z);
  k_newselect : Z -> option Z -> option Z -> option Z -> option (Z * Z) -> M K (Z * Z * (option Z * option Z * option Z));
  k_poll : option (list pollfd) -> Z -> M K (Z * Z * list pollfd) }.

Section syscalls.
Context {K : Type} `{Libc K}.
(** The parameters of High, and those of the calls at an offset *)
Context (switch : M sst unit) (popall : nat -> M sst unit) (mfuel efuel : nat) (now : sst -> Z) (clk : clock) (elsewhere : M (@io K) unit) (rfuel : nat).
Context (alive : Z -> bool) (sfuel : nat) (PTH_NSIG NSIG : Z).

(** ** Calls that are passed on *)

Definition __close (fd : Z) : M (@io K) Z := sc (libc_close fd).
Definition __fsync (fd : Z) : M (@io K) Z := sc (libc_fsync fd).
Definition __lseek (fd offset whence : Z) : M (@io K) Z := sc (libc_lseek fd offset whence).
Definition lseek64 (fd offset whence : Z) : M (@io K) Z := sc (libc_lseek64 fd offset whence).
Definition __msync (addr length flags : Z) : M (@io K) Z := sc (libc_msync addr length flags).
Definition __open (pathname flags mode : Z) : M (@io K) Z := sc (libc_open pathname flags mode).
Definition __open64 (pathname flags mode : Z) : M (@io K) Z := sc (libc_open pathname (Z.lor flags O_LARGEFILE64) mode).
Definition __pause : M (@io K) Z := sc libc_pause.
Definition __system (line : Z) : M (@io K) Z := sc (libc_system line).
Definition __tcdrain (fd : Z) : M (@io K) Z := sc (libc_tcdrain fd).
Definition __wait (stat_loc : Z) : M (@io K) Z := sc (libc_wait stat_loc).

(** ** Calls with something of their own *)

(** With one native a lock that has to be waited for is polled. *)
Definition __fcntl (fuel key : nat) (fd cmd arg : Z) : M (@io K) (option Z) :=
  s ← get;
  if bool_decide (pth_number_of_natives (wo (il s)) = 1) && bool_decide (cmd = F_SETLKW)
  then pth_fcntl switch popall mfuel efuel now clk elsewhere fuel key fd F_SETLK arg
  else r ← sc (k_fcntl fd cmd arg); mret (Some r).

(** Behind the sleep other threads get a turn, where there are few. *)
Definition __nanosleep (requested_time remaining : Z) : M (@io K) Z :=
  n ← oni (onw pth_get_native_descr);
  rc ← sc (libc_nanosleep requested_time remaining);
  (if bool_decide (rc = 0) then
     n ← of_option BadDeref n;
     d ← oni (onw (get_d n));
     s ← get;
     if negb (is_bounded d) && bool_decide (pth_threads_count (il s) <= 5) then oni (pth_yield switch None);; mret tt else mret tt
   else mret tt);;
  mret rc.

(** A signal that gets a handler is added to the signals of the thread. *)
Definition __sigaction (sig : Z) (act : option sigact) : M (@io K) (Z * sigact) :=
  c ← oni (onw pth_get_current);
  (match act, c with
   | Some a, Some t =>
       if bool_decide (sa_handler a <> SIG_IGN) && bool_decide (sa_handler a <> SIG_DFL) && bool_decide (0 < sig) && bool_decide (sig < NSIG)
       then oni (upd_x t (fun x => set_sigactionmask (sigaddset (sigactionmask x) sig) x))
       else mret tt
   | _, _ => mret tt
   end);;
  sc_with (libc_sigaction sig act).

Definition __sigprocmask (how : Z) (set : option Z) : M (@io K) (Z * option Z) := pth_sigmask how set.
Definition __sleep (key1 key2 : nat) (sec sig0 : Z) : M (@io K) (option Z) := pth_sleep switch popall mfuel efuel now clk elsewhere key1 key2 sec sig0.
Definition __sigwait (key : nat) (set sigp : Z) : M (@io K) (option Z) := pth_sigwait switch popall mfuel efuel elsewhere PTH_NSIG key set sigp.

(** [sigp]: whether the caller wants the information; the result with the signal
    that is stored in it *)
Definition __sigwaitinfo (key : nat) (set : Z) (sigp : bool) : M (@io K) (option (Z * option Z)) :=
  p ← local_var 0;
  r ← pth_sigwait switch popall mfuel efuel elsewhere PTH_NSIG key set p;
  sig ← oni (user_read p);
  drop_var p;;
  mret (match r with None => None | Some err => Some (err, if bool_decide (err = 0) && sigp then Some sig else None) end).

(** ** The way of a call *)

(** [descr->current->boundnative] *)
Definition bound_native : M (@io K) bool :=
  '(_, d) ← oni (onw my_descr);
  t ← of_option BadDeref (current d);
  x ← oni (onw (get_t t));
  mret (bool_decide (is_Some (boundnative x))).
(** [descr && (descr->is_bounded || pth_active_threads == 1)] *)
Definition alone_or_bounded : M (@io K) bool :=
  n ← oni (onw pth_get_native_descr);
  match n with
  | None => mret false
  | Some n =>
      d ← oni (onw (get_d n));
      if is_bounded d then mret true else a ← oni pth_active_threads; mret (bool_decide (a = 1))
  end.
(** [descr && descr->is_bounded] *)
Definition bounded : M (@io K) bool :=
  n ← oni (onw pth_get_native_descr);
  match n with None => mret false | Some n => d ← oni (onw (get_d n)); mret (is_bounded d) end.

Definition __waitpid (fuel key : nat) (wpid options : Z) : M (@io K) (option (Z * Z)) :=
  b ← bound_native;
  if (b : bool) then r ← sc_with (k_waitpid wpid options); mret (Some r)
  else pth_waitpid switch popall mfuel efuel now clk elsewhere rfuel fuel key wpid options.

(** ** Sockets *)

(** How many arguments a call of the switch takes *)
Definition socket_args (call : Z) : option nat :=
  if bool_decide (call = SOCKOP_connect) then Some 3%nat
  else if bool_decide (call = SOCKOP_accept) then Some 3%nat
  else if bool_decide (call = SOCKOP_send) then Some 4%nat
  else if bool_decide (call = SOCKOP_recv) then Some 4%nat
  else if bool_decide (call = SOCKOP_sendto) then Some 6%nat
  else if bool_decide (call = SOCKOP_recvfrom) then Some 6%nat
  else if bool_decide (call = SOCKOP_sendmsg) then Some 3%nat
  else if bool_decide (call = SOCKOP_recvmsg) then Some 3%nat
  else None.

(** [ap]: the arguments; [args]: what is in the array before; [data]: the bytes a
    call that sends finds at its address *)
Definition _pth_socketcall (call : Z) (ap args data : list Z) : M (@io K) (Z * list Z) :=
  args ← (match socket_args call with
          | None => mret args
          | Some k => if bool_decide (k <= length ap)%nat then mret ((wrap 32 <$> take k ap) ++ drop k args) else fail Undefined
          end);
  sc_with (k_socketcall call args data).

Definition __connect (key : nat) (args : list Z) (s addr addrlen : Z) : M (@io K) (option Z) :=
  b ← bound_native;
  if (b : bool) then '(r, _) ← _pth_socketcall SOCKOP_connect [s; addr; addrlen] args []; mret (Some r)
  else pth_connect_ev switch popall mfuel efuel elsewhere rfuel key s addr None.
Definition __accept (fuel key : nat) (args : list Z) (s addr addrlen : Z) : M (@io K) (option Z) :=
  b ← bound_native;
  if (b : bool) then '(r, _) ← _pth_socketcall SOCKOP_accept [s; addr; addrlen] args []; mret (Some r)
  else pth_accept_ev switch popall mfuel efuel elsewhere fuel key s None.
Definition __recv (key : nat) (args : list Z) (fd buf nbytes flags : Z) : M (@io K) (option Z) :=
  b ← bound_native;
  if (b : bool) then '(r, l) ← _pth_socketcall SOCKOP_recv [fd; buf; nbytes; flags] args []; write_bytes buf l;; mret (Some r)
  else pth_recv switch popall mfuel efuel elsewhere rfuel key fd buf nbytes flags.
Definition __recvfrom (key : nat) (args : list Z) (fd buf nbytes flags from fromlen : Z) : M (@io K) (option Z) :=
  b ← bound_native;
  if (b : bool) then '(r, l) ← _pth_socketcall SOCKOP_recvfrom [fd; buf; nbytes; flags; from; fromlen] args []; write_bytes buf l;; mret (Some r)
  else pth_recvfrom switch popall mfuel efuel elsewhere rfuel key fd buf nbytes flags.
Definition __recvmsg (key : nat) (args : list Z) (fd msg flags : Z) : M (@io K) (option Z) :=
  b ← bound_native;
  if (b : bool) then '(r, _) ← _pth_socketcall SOCKOP_recvmsg [fd; msg; flags] args []; mret (Some r)
  else pth_recvmsg switch popall mfuel efuel elsewhere rfuel key fd msg flags.
Definition __send (key : nat) (args : list Z) (fd buf nbytes flags : Z) : M (@io K) (option Z) :=
  b ← bound_native;
  if (b : bool) then
    data ← read_bytes buf (Z.to_nat nbytes);
    '(r, _) ← _pth_socketcall SOCKOP_send [fd; buf; nbytes; flags] args data; mret (Some r)
  else pth_send switch popall mfuel efuel elsewhere rfuel key fd buf nbytes flags.
Definition __sendto (key : nat) (args : list Z) (fd buf nbytes flags to tolen : Z) : M (@io K) (option Z) :=
  b ← bound_native;
  if (b : bool) then
    data ← read_bytes buf (Z.to_nat nbytes);
    '(r, _) ← _pth_socketcall SOCKOP_sendto [fd; buf; nbytes; flags; to; tolen] args data; mret (Some r)
  else pth_sendto switch popall mfuel efuel elsewhere rfuel key fd buf nbytes flags to.
Definition __sendmsg (key : nat) (args : list Z) (fd msg flags : Z) : M (@io K) (option Z) :=
  b ← bound_native;
  if (b : bool) then '(r, _) ← _pth_socketcall SOCKOP_sendmsg [fd; msg; flags] args []; mret (Some r)
  else pth_sendmsg switch popall mfuel efuel elsewhere rfuel key fd msg flags.

(** ** Descriptors *)

(** The system call changes the sets unless it fails; that it also counts the
    timeout down is left out. *)
Definition __select (key_select key_timeout : nat) (nfds readfds writefds exceptfds : Z) (timeout : option (Z * Z)) : M (@io K) (option Z) :=
  b ← alone_or_bounded;
  if (b : bool) then
    r ← get_set readfds; w ← get_set writefds; e ← get_set exceptfds;
    '(rc, (r, w, e)) ← sc_with (k_newselect nfds r w e timeout);
    (if bool_decide (rc = -1) then mret tt else put_set readfds r;; put_set writefds w;; put_set exceptfds e);;
    mret (Some rc)
  else pth_select_ev switch popall mfuel efuel now clk elsewhere rfuel key_select key_timeout nfds readfds writefds exceptfds timeout None.

Definition __poll_2_1 (key_select key_timeout : nat) (pfd : option (list pollfd)) (timeout : Z) : M (@io K) (option (Z * list pollfd)) :=
  b ← bounded;
  if (b : bool) then r ← sc_with (k_poll pfd timeout); mret (Some r)
  else pth_poll_ev switch popall mfuel efuel now clk elsewhere rfuel key_select key_timeout pfd timeout None.
Definition poll_2_0 (key_select key_timeout : nat) (pfd : option (list pollfd)) (timeout : Z) : M (@io K) (option (Z * list pollfd)) :=
  b ← bounded;
  if (b : bool) then r ← sc_with (k_poll pfd timeout); mret (Some r)
  else pth_poll_ev switch popall mfuel efuel now clk elsewhere rfuel key_select key_timeout pfd timeout None.

Definition __read (key : nat) (fd buf nbytes : Z) : M (@io K) (option Z) :=
  b ← alone_or_bounded;
  if (b : bool) then '(n, l) ← sc_with (k_read fd nbytes); write_bytes buf l;; mret (Some n)
  else pth_read_ev switch popall mfuel efuel elsewhere rfuel key fd buf nbytes None.
Definition __write (key : nat) (fd buf nbytes : Z) : M (@io K) (option Z) :=
  b ← alone_or_bounded;
  if (b : bool) then data ← read_bytes buf (Z.to_nat nbytes); n ← sc (k_write fd data); mret (Some n)
  else pth_write_ev switch popall mfuel efuel elsewhere rfuel key fd buf nbytes None.

(** The vector is that of the caller, [uiov]. *)
Definition __readv (fake : bool) (key : nat) (fd iovcnt : Z) : M (@io K) (option Z) :=
  b ← alone_or_bounded;
  if (b : bool) then
    iov ← iov_list (IReal 0) (Z.to_nat iovcnt);
    '(n, d) ← sc_with (k_readv fd (iov_len <$> iov)); iov_store iov d;; mret (Some n)
  else pth_readv_ev switch popall mfuel efuel elsewhere rfuel fake key fd iovcnt None.
Definition __writev (fake : bool) (key : nat) (fd iovcnt : Z) : M (@io K) (option Z) :=
  b ← alone_or_bounded;
  if (b : bool) then
    iov ← iov_list (IReal 0) (Z.to_nat iovcnt);
    ds ← iov_data iov; n ← sc (k_writev fd ds); mret (Some n)
  else pth_writev_ev switch popall mfuel efuel elsewhere rfuel fake key fd iovcnt None.

Definition __pread (mutex key : nat) (fd buf nbytes offset : Z) : M (@io K) (option Z) :=
  pth_pread switch popall mfuel efuel elsewhere rfuel alive sfuel mutex key fd buf nbytes offset.
Definition __pread64 (mutex key : nat) (fd buf nbytes offset : Z) : M (@io K) (option Z) :=
  pth_pread64 switch popall mfuel efuel elsewhere rfuel alive sfuel mutex key fd buf nbytes offset.
Definition __pwrite (mutex key : nat) (fd buf nbytes offset : Z) : M (@io K) (option Z) :=
  pth_pwrite switch popall mfuel efuel elsewhere rfuel alive sfuel mutex key fd buf nbytes offset.
Definition __pwrite64 (mutex key : nat) (fd buf nbytes offset : Z) : M (@io K) (option Z) :=
  pth_pwrite64 switch popall mfuel efuel elsewhere rfuel alive sfuel mutex key fd buf nbytes offset.
End syscalls.

(** ** Processes *)

(** The process ends with the status that is returned here. *)
Definition __exit (getpid : Z) (elsewhere : M nv unit) (wfuel : nat) (switch : M sst unit) (destroy : last_call -> nat -> M sst unit) (fuel : nat) (status : Z) : M nv Z :=
  pth_kill getpid elsewhere wfuel switch destroy fuel;; mret status.
Definition __fork := pth_fork.
