(* ===== verification/SyscallProofs.v ===== *)
(** * Theorems on the entry points of the C library

    [write] as the program calls it delivers the bytes whichever way the call
    takes ([write_delivers]); a lock of a file that has to be waited for is got
    although only the calling thread waits ([setlkw_granted]). *)

From S2P Require Import Prelude Bitmap Dll LinkedList Ring Priorities PQueue Time Msg Futex World Sync Event Util Sched Lib.
From S2P Require Import MutexProofs LockProofs Wake SchedProofs LibProofs.
From S2P Require Import High HighProofs Native Syscall.

(** ** Writing *)

Section writing.
Context {K : Type} `{HL : Libc K} (fd : Z) (live : K -> Prop) (sent : K -> list Z) (fd_flags last : K -> Z) (busy : K -> nat).
Context {HK : Stream K fd live sent fd_flags last busy}.
Context (switch : M sst unit) (popall : nat -> M sst unit) (mfuel efuel : nat) (elsewhere : M (@io K) unit) (rfuel : nat).
Context (n t key ev : nat) (Hback : comes_back switch n t key ev) (Hefuel : (0 < efuel)%nat) (Hfd : 0 <= fd < FD_SETSIZE).
Implicit Types s : @io K.

Lemma alone_or_bounded_run d s Q L Ds : running (wo (il s)) n t d -> qview (qm (wo (il s))) Q L -> Q !! DQ = Some Ds ->
  alone_or_bounded s = Ok (is_bounded d || bool_decide (pth_threads_count (il s) - Z.of_nat (length (concat Ds)) = 1), s).
Proof.
  intros (Hs & Hd & _) Hv HD. unfold alone_or_bounded, oni. rewrite (bind_run _ _ s (Some n) s).
  2:{ unfold zoom. rewrite (onw_same _ (il s) (Some n)); [by destruct s|]. unfold pth_get_native_descr, gets. by rewrite Hs. }
  rewrite (bind_run _ _ s d s).
  2:{ unfold zoom. rewrite (onw_same _ (il s) d); [by destruct s|by apply get_d_run]. }
  destruct (is_bounded d); [done|]. rewrite (bind_run _ _ s (pth_threads_count (il s) - Z.of_nat (length (concat Ds))) s); [done|].
  unfold zoom. rewrite (active_run _ _ _ _ Hv HD). by destruct s.
Qed.

(** C31: [write] on an open descriptor, called by any thread: the call returns, and
    the descriptor has received exactly the first bytes of the buffer, as many
    as the result says, in their order and each once, and its flags are as they
    were; whether the system call is made directly, for a thread on a native of
    its own or the only one, or by [pth_write_ev].  When the result is short of
    the request, the kernel refused the last [write], or there was only one. *)
Theorem write_delivers p data s d Q L Ds :
  others_leave live sent fd_flags last busy elsewhere rfuel n t key ev p data -> good live busy rfuel n t key ev s -> holds p data s ->
  Z.of_nat (length data) < 2 ^ 31 ->
  running (wo (il s)) n t d -> qview (qm (wo (il s))) Q L -> Q !! DQ = Some Ds ->
  exists r s', __write switch popall mfuel efuel elsewhere rfuel key fd p (Z.of_nat (length data)) s = Ok (Some r, s') /\
    -1 <= r <= Z.of_nat (length data) /\ sent (ik s') = sent (ik s) ++ take (Z.to_nat r) data /\ fd_flags (ik s') = fd_flags (ik s) /\
    (r = Z.of_nat (length data) \/ last (ik s') <= 0 \/ last (ik s') = r) /\
    (is_bounded d = true -> il s' = il s).
Proof.
  intros Hoth Hg Hh Hmax Hrun Hv HD. unfold __write. rewrite (bind_run _ _ _ _ _ (alone_or_bounded_run d s Q L Ds Hrun Hv HD)).
  destruct (is_bounded d || _) eqn:Eb.
  - rewrite Nat2Z.id, (bind_run _ _ _ _ _ (read_bytes_run data p s Hh)). pose proof Hg as (_ & Hk & _).
    destruct (stream_write data (ik s) Hk) as (r & e & k' & E & Hk' & Hs' & Hf' & Hl' & Hr & _).
    exists r. eexists. split.
    + unfold sc. rewrite (bind_run _ _ s r (if bool_decide (r = -1) then set_errno e (set_ik k' s) else set_ik k' s)); [reflexivity|].
      rewrite (bind_run _ _ s (r, e) (set_ik k' s)) by (unfold zoom; by rewrite E). cbv beta iota. by destruct (bool_decide (r = -1)).
    + rewrite ik_sc. split; [done|]. split; [done|]. split; [done|]. split; [by right; right|]. by destruct (bool_decide (r = -1)).
  - destruct (write_stream fd live sent fd_flags last busy switch popall mfuel efuel elsewhere rfuel n t key ev Hback Hefuel Hfd p data s Hoth Hg Hh Hmax)
      as (r & s' & E & _ & Hr & Hs' & Hf' & Hl'). exists r, s'. split; [exact E|]. do 4 (split; [done|]). intros Hb. by rewrite Hb in Eb.
Qed.
End writing.

(** ** Waiting for the lock of a file *)

(** What the kernel promises about a lock of a file that others hold until they
    had [turns] more turns: [F_SETLK] is refused, or gets the lock. *)
Class FileLock (K : Type) `{Kernel K} (fd arg : Z) (turns : K -> nat) (mine : K -> Prop) : Prop := {
  lock_refused : forall k, (0 < turns k)%nat -> exists k', k_fcntl fd F_SETLK arg k = Ok (-1, EAGAIN, k') /\ turns k' = turns k;
  lock_granted : forall k, turns k = 0%nat -> exists e k', k_fcntl fd F_SETLK arg k = Ok (0, e, k') /\ mine k' }.

Section locking.
Context {K : Type} `{HL : Libc K} (fd arg : Z) (turns : K -> nat) (mine : K -> Prop) {HF : FileLock K fd arg turns mine}.
Context (switch : M sst unit) (popall : nat -> M sst unit) (mfuel efuel : nat) (now : sst -> Z) (clk : clock) (elsewhere : M (@io K) unit).
Context (n t key ev : nat) (Hback : comes_back switch n t key ev) (Hefuel : (0 < efuel)%nat).
(** While the thread sleeps the other threads run, and the holders of the lock
    get a turn. *)
Context (Hothers : forall s, io_ready n t key ev (il s) -> alone ev (il s) ->
  exists s', elsewhere s = Ok (tt, s') /\ io_ready n t key ev (il s') /\ alone ev (il s') /\ (turns (ik s') <= pred (turns (ik s)))%nat).
Implicit Types s : @io K.

Lemma timeout_wait_run ev0 s : io_ready n t key ev (il s) -> ev0 = None \/ ev0 = Some ev /\ alone ev (il s) ->
  exists l', (match ev0 with Some e => mret (Some e) | None => timeout_ev switch now clk key 0 100000 end) s = Ok (Some ev, set_il l' s) /\
    io_ready n t key ev l' /\ alone ev l'.
Proof.
  intros Hr [-> | [-> Ha]].
  - destruct Hr as (d & Hr & Hf).
    destruct (static_ev_run switch n t key ev PTH_EVENT_TIME (ATime (pth_time_add (now (il s)) (PTH_TIME clk 0 100000))) (il s) d Hr) as (l' & E & Hr' & Ha' & _).
    { split; [done|]. split; [done|]. do 4 eexists. reflexivity. }
    exists l'. split; [|split; [by exists d|done]]. unfold timeout_ev. rewrite (bind_run get _ _ _ _ eq_refl). unfold oni, zoom. by rewrite E.
  - exists (il s). split; [|done]. by destruct s.
Qed.

Lemma fcntl_loop_run fuel : forall ev0 s, io_ready n t key ev (il s) -> ev0 = None \/ ev0 = Some ev /\ alone ev (il s) -> (turns (ik s) < fuel)%nat ->
  exists s', fcntl_loop switch popall mfuel efuel now clk elsewhere fuel key fd F_SETLK arg ev0 s = Ok (Some 0, s') /\ mine (ik s').
Proof.
  induction fuel as [|fuel IH]; intros ev0 s Hr Hev Hf; [lia|]. cbn [fcntl_loop]. destruct (decide (turns (ik s) = 0%nat)) as [H0|H0].
  - destruct (lock_granted (ik s) H0) as (e & k' & E & Hm). exists (set_ik k' s). split; [|done].
    rewrite (bind_run _ _ s 0 (set_ik k' s)); [done|]. unfold sc. by rewrite (bind_run _ _ s (0, e) (set_ik k' s)) by (unfold zoom; by rewrite E).
  - destruct (lock_refused (ik s)) as (k' & E & Ht); [lia|]. set (s1 := set_errno EAGAIN (set_ik k' s)).
    rewrite (bind_run _ _ s (-1) s1).
    2:{ unfold sc. by rewrite (bind_run _ _ s (-1, EAGAIN) (set_ik k' s)) by (unfold zoom; by rewrite E). }
    rewrite (bind_run get _ _ _ _ eq_refl). change (errno s1) with EAGAIN.
    rewrite !bool_decide_eq_true_2 by done. cbn [andb].
    destruct (timeout_wait_run ev0 s1 Hr Hev) as (l1 & E1 & Hr1 & Ha1). rewrite (bind_run _ _ _ _ _ E1).
    destruct Hr1 as (d1 & Hr1 & Hf1).
    destruct (pth_wait_run switch popall mfuel efuel n t key ev l1 d1 Hback Hefuel Hr1 Hf1 Ha1) as (l2 & E2 & Hr2 & Ha2).
    destruct (Hothers (set_il l2 s1) Hr2 Ha2) as (s3 & E3 & Hr3 & Ha3 & Ht3).
    rewrite (bind_run _ _ (set_il l1 s1) (Some 1) s3).
    2:{ unfold wait_ring. rewrite (bind_run _ _ (set_il l1 s1) (Some 1) (set_il l2 s1)) by (unfold oni, zoom; cbn [il set_il]; by rewrite E2).
        by rewrite (bind_run _ _ _ _ _ E3). }
    apply (IH (Some ev) s3 Hr3); [by right|]. change (ik (set_il l2 s1)) with k' in Ht3. rewrite Ht in Ht3. lia.
Qed.

(** C32: with one native, a thread that asks with [F_SETLKW] for a lock of a file
    that other processes hold gets it, once they had enough time to give it
    back: it sleeps as a thread and tries again, so that the other threads run
    meanwhile. *)
Theorem setlkw_granted fuel s : pth_number_of_natives (wo (il s)) = 1 -> io_ready n t key ev (il s) -> (turns (ik s) < fuel)%nat ->
  exists s', __fcntl switch popall mfuel efuel now clk elsewhere fuel key fd F_SETLKW arg s = Ok (Some 0, s') /\ mine (ik s').
Proof.
  intros Hn Hr Hf. unfold __fcntl. rewrite (bind_run get _ _ _ _ eq_refl), !bool_decide_eq_true_2 by done. cbn [andb].
  apply fcntl_loop_run; [done|by left|done].
Qed.
End locking.

(** ** Examples *)

#[global] Instance pipe_libc : Libc pipe := {
  libc_close := fun _ => fail Stuck;
  libc_fsync := fun _ => fail Stuck;
  libc_lseek := fun _ _ _ => fail Stuck;
  libc_lseek64 := fun _ _ _ => fail Stuck;
  libc_msync := fun _ _ _ => fail Stuck;
  libc_nanosleep := fun _ _ => fail Stuck;
  libc_open := fun _ _ _ => fail Stuck;
  libc_pause := fail Stuck;
  libc_system := fun _ => fail Stuck;
  libc_tcdrain := fun _ => fail Stuck;
  libc_wait := fun _ => fail Stuck;
  libc_sigaction := fun _ _ => fail Stuck;
  k_socketcall := fun _ _ _ => fail Stuck;
  k_newselect := fun _ _ _ _ _ => fail Stuck;
  k_poll := fun _ _ => fail Stuck }.

(** Being ready is about the native, the thread and its event. *)
Lemma io_ready_wo n t key ev w l : self w = self (wo l) -> natives w = natives (wo l) -> threads w = threads (wo l) ->
  io_ready n t key ev l -> io_ready n t key ev (set_wo w l).
Proof.
  intros Es En Et (d & [(Hs & Hd & Hc) (y & Hy & Hreq) Hx He] & Hf). exists d. split; [|done].
  split; [split; [|split]|exists y; split|exact Hx|exact He]; cbn [wo set_wo]; congruence.
Qed.

(** Three threads, of which one is dead; [EAGAIN], then two bytes and the rest. *)
Definition call_demo (m : qmem) : @io pipe :=
  let s := high_demo {[100 := 65; 101 := 66; 102 := 67]} [] (Pipe [1] 0 0 [-1; 2]) in
  set_il (set_wo (set_qm m (wo (il s))) (il s)) s.

Lemma write_delivers_witness :
  exists m r s', __write (reschedule 1) (fun _ => mret tt) 0 1 (mret tt) 9 0 3 100 3 (call_demo m) = Ok (Some r, s') /\
    pipe_sent (ik s') = [1] ++ take (Z.to_nat r) [65; 66; 67].
Proof.
  destruct (one_queued [DQ] DQ) as (m & Hv & _); [by repeat constructor; set_solver|set_solver|].
  destruct (write_delivers 3 (fun k => 0 <= pipe_flags k) pipe_sent pipe_flags pipe_last interrupts (reschedule 1) (fun _ => mret tt) 0 1 (mret tt) 9
    1 8 0 5 (reschedule_returns 1 8 0 5) ltac:(lia) ltac:(done) 100 [65; 66; 67] (call_demo m) (a_native 101 8)
    (<[DQ := <[5%nat := [1%nat]]> empty_lists]> (fresh_lists [DQ])) (fun _ => 0)
    (<[5%nat := [1%nat]]> empty_lists)) as (r & s' & E & _ & Es & _).
  - intros s1 Hg Hh. by exists s1.
  - split; [apply io_ready_wo; [done..|apply high_demo_ready]|]. split; [done|]. vm_compute. lia.
  - intros i x Hi. destruct i as [|[|[|]]]; cbn in Hi; try done; injection Hi as <-; vm_compute; reflexivity.
  - done.
  - done.
  - exact Hv.
  - apply lookup_insert_eq.
  - exists m, r, s'. split; [exact E|exact Es].
Defined.

(** A file whose lock becomes free after some turns *)
Record lockfile : Set := Lockfile { lf_turns : nat; lf_mine : bool }.
Definition lockfile_fcntl (cmd : Z) : M lockfile (Z * Z) := fun k =>
  if bool_decide (cmd = F_SETLK) then
    match lf_turns k with O => Ok ((0, 0), Lockfile 0 true) | S _ => Ok ((-1, EAGAIN), k) end
  else Err Stuck.

#[global] Instance lockfile_kernel : Kernel lockfile := {
  k_fcntl := fun _ cmd _ => lockfile_fcntl cmd;
  k_select := fun _ _ _ _ => fail Stuck;
  k_read := fun _ _ => fail Stuck;
  k_write := fun _ _ => fail Stuck;
  k_readv := fun _ _ => fail Stuck;
  k_writev := fun _ _ => fail Stuck;
  k_connect := fun _ _ => fail Stuck;
  k_so_error := fun _ => fail Stuck;
  k_accept := fun _ => fail Stuck;
  k_waitpid := fun _ _ => fail Stuck;
  k_lseek := fun _ _ _ => fail Stuck;
  k_recvfrom := fun _ _ _ => fail Stuck;
  k_sendto := fun _ _ _ _ => fail Stuck;
  k_recvmsg := fun _ _ _ => fail Stuck;
  k_sendmsg := fun _ _ _ => fail Stuck;
  k_tkill := fun _ _ => fail Stuck;
  k_sigprocmask := fun _ _ _ => None }.

#[global] Instance lockfile_lock fd arg : FileLock lockfile fd arg lf_turns (fun k => lf_mine k = true).
Proof.
  split.
  - intros [[|i] b] Hk; cbn in *; [lia|]. by exists (Lockfile (S i) b).
  - intros [i b] Hk. cbn in Hk. subst. by exists 0, (Lockfile 0 true).
Qed.

Definition lock_demo : @io lockfile :=
  let l := il (high_demo ∅ [] (Pipe [] 0 0 [])) in
  IO (set_wo (set_pth_number_of_natives 1 (wo l)) l) (Lockfile 3 false) ∅ 0 [] [] [] [] [] [] qlock_free.

Lemma setlkw_granted_witness :
  exists s', __fcntl (reschedule 1) (fun _ => mret tt) 0 1 (fun _ => 0) Microseconds (modify (fun s => set_ik (Lockfile (pred (lf_turns (ik s))) false) s))
    4 0 3 F_SETLKW 7 lock_demo = Ok (Some 0, s') /\ lf_mine (ik s') = true.
Proof.
  apply (setlkw_granted 3 7 lf_turns (fun k => lf_mine k = true) (reschedule 1) (fun _ => mret tt) 0 1 (fun _ => 0) Microseconds
    (modify (fun s => set_ik (Lockfile (pred (lf_turns (ik s))) false) s)) 1 8 0 5 (reschedule_returns 1 8 0 5) ltac:(lia)).
  - intros s Hr Ha. eexists. split; [reflexivity|]. split; [done|]. split; [done|]. cbn. lia.
  - done.
  - apply io_ready_wo; [done..|apply high_demo_ready].
  - cbn. lia.
Defined.
