(* ===== verification/Mctx.v ===== *)
(** * Machine contexts (pth_mctx.c)

    A saved context is a place in the code ([point]), the stack it runs on and,
    for some ways to save it, a signal mask.  A jump to a saved context is a call
    of what the code does from there on ([resume]), until it comes to the caller
    of [pth_mctx_set], to the function of the new thread, or to a place of other
    code.  [signal] delivers the signal on the alternate stack: that is the trick
    by which a new stack is entered.  The state is that of one native. *)

From S2P Require Import Prelude Bitmap Dll LinkedList Ring Priorities PQueue World Sched.

Definition EPERM : Z := 1.
Definition EINTR : Z := 4.
Definition ENOMEM : Z := 12.

(** How contexts are saved: with the mask ([ssjlj]), without ([sjlj], [usjlj]),
    with a mask the library keeps ([sjlje]). *)
Inductive dispatch : Set := Ssjlj | Sjlj | Sjlje.

(** A stack is its lowest address and its size. *)
Definition stack : Set := (Z * Z)%type.

(** Places where a saved context goes on: behind [setjmp] in the signal handler,
    behind [pth_mctx_save] in [pth_mctx_set], behind [pth_mctx_switch] in the boot
    function, whose variable holds the function to start; anywhere else. *)
Inductive point : Set := InTrampoline | InSet | InBootstrap (mctx_starting : nat) (mctx_starting_func : Z) | Other (k : Z).

Record jmpbuf : Set := Jb { jb_point : point; jb_stack : stack; jb_mask : option Z }.
Record pth_mctx_st : Set := Mctx { m_jb : option jmpbuf; m_sigs : Z; m_block : Z; m_error : Z }.

(** What a signal does *)
Inductive handler : Set := Handler (h : Z) | Trampoline.
Record sigact : Set := Act { sa_handler : handler; sa_mask : Z; sa_onstack : bool }.

(** [usr1]: [pth_usr1_lock]; [act], [pending]: the action of [pth_sig_switch] and
    whether it is pending; [mask], [alt]: the signal mask and the alternate
    stack, [None] when it is disabled; [cur]: the stack the code runs on; then
    the members of the descriptor of the native, and the contexts of threads. *)
Record mst : Set := Mst {
  usr1 : pth_qlock_st; act : sigact; pending : bool; mask : Z; alt : option stack; cur : stack; m_errno : Z;
  mctx_called : bool; mctx_trampoline : option jmpbuf; mctx_creating : option nat; mctx_creating_func : Z; mctx_creating_sigs : Z;
  mctx_caller : pth_mctx_st; ctxs : gmap nat pth_mctx_st }.

Definition set_usr1 (v : pth_qlock_st) (s : mst) : mst := Mst v (act s) (pending s) (mask s) (alt s) (cur s) (m_errno s) (mctx_called s) (mctx_trampoline s) (mctx_creating s) (mctx_creating_func s) (mctx_creating_sigs s) (mctx_caller s) (ctxs s).
Definition set_act (v : sigact) (s : mst) : mst := Mst (usr1 s) v (pending s) (mask s) (alt s) (cur s) (m_errno s) (mctx_called s) (mctx_trampoline s) (mctx_creating s) (mctx_creating_func s) (mctx_creating_sigs s) (mctx_caller s) (ctxs s).
Definition set_pending (v : bool) (s : mst) : mst := Mst (usr1 s) (act s) v (mask s) (alt s) (cur s) (m_errno s) (mctx_called s) (mctx_trampoline s) (mctx_creating s) (mctx_creating_func s) (mctx_creating_sigs s) (mctx_caller s) (ctxs s).
Definition set_mask (v : Z) (s : mst) : mst := Mst (usr1 s) (act s) (pending s) v (alt s) (cur s) (m_errno s) (mctx_called s) (mctx_trampoline s) (mctx_creating s) (mctx_creating_func s) (mctx_creating_sigs s) (mctx_caller s) (ctxs s).
Definition set_alt (v : option stack) (s : mst) : mst := Mst (usr1 s) (act s) (pending s) (mask s) v (cur s) (m_errno s) (mctx_called s) (mctx_trampoline s) (mctx_creating s) (mctx_creating_func s) (mctx_creating_sigs s) (mctx_caller s) (ctxs s).
Definition set_cur (v : stack) (s : mst) : mst := Mst (usr1 s) (act s) (pending s) (mask s) (alt s) v (m_errno s) (mctx_called s) (mctx_trampoline s) (mctx_creating s) (mctx_creating_func s) (mctx_creating_sigs s) (mctx_caller s) (ctxs s).
Definition set_m_errno (v : Z) (s : mst) : mst := Mst (usr1 s) (act s) (pending s) (mask s) (alt s) (cur s) v (mctx_called s) (mctx_trampoline s) (mctx_creating s) (mctx_creating_func s) (mctx_creating_sigs s) (mctx_caller s) (ctxs s).
Definition set_mctx_called (v : bool) (s : mst) : mst := Mst (usr1 s) (act s) (pending s) (mask s) (alt s) (cur s) (m_errno s) v (mctx_trampoline s) (mctx_creating s) (mctx_creating_func s) (mctx_creating_sigs s) (mctx_caller s) (ctxs s).
Definition set_mctx_trampoline (v : option jmpbuf) (s : mst) : mst := Mst (usr1 s) (act s) (pending s) (mask s) (alt s) (cur s) (m_errno s) (mctx_called s) v (mctx_creating s) (mctx_creating_func s) (mctx_creating_sigs s) (mctx_caller s) (ctxs s).
Definition set_creating (m : nat) (func sigs : Z) (s : mst) : mst := Mst (usr1 s) (act s) (pending s) (mask s) (alt s) (cur s) (m_errno s) (mctx_called s) (mctx_trampoline s) (Some m) func sigs (mctx_caller s) (ctxs s).
Definition set_mctx_caller (v : pth_mctx_st) (s : mst) : mst := Mst (usr1 s) (act s) (pending s) (mask s) (alt s) (cur s) (m_errno s) (mctx_called s) (mctx_trampoline s) (mctx_creating s) (mctx_creating_func s) (mctx_creating_sigs s) v (ctxs s).
Definition set_ctxs (v : gmap nat pth_mctx_st) (s : mst) : mst := Mst (usr1 s) (act s) (pending s) (mask s) (alt s) (cur s) (m_errno s) (mctx_called s) (mctx_trampoline s) (mctx_creating s) (mctx_creating_func s) (mctx_creating_sigs s) (mctx_caller s) v.

(** Where the code comes to: [pth_mctx_set] returns; the function of a new
    thread is called; other code goes on. *)
Inductive outcome : Set := Returned (r : bool) | Started (func : Z) | Elsewhere (k : Z).

Section context.
(** [tid]: of the native; [pth_sig_switch]; how a stack is given to
    [sigaltstack]; whether [sigaction] succeeds; the smallest alternate stack *)
Context (dsp : dispatch) (tid pth_sig_switch : Z) (skaddr sksize : Z -> Z -> Z) (sigaction_ok : bool) (MINSIGSTKSZ : Z).

Definition usr1_acquire : M mst unit := s ← get; k ← of_res (_pth_acquire_lock tid (usr1 s)); modify (set_usr1 k).
Definition usr1_release : M mst unit := modify (fun s => set_usr1 (_pth_release_lock tid (usr1 s)).2 s).

(** ** The kernel and the C library *)

(** On the alternate stack it cannot be changed; the result and the old one. *)
Definition sigaltstack (ss : option (option stack)) : M mst (Z * option stack) :=
  s ← get;
  match ss with
  | None => mret (0, alt s)
  | Some new =>
      if bool_decide (alt s = Some (cur s)) then modify (set_m_errno EPERM);; mret (-1, alt s)
      else if (match new with Some (_, size) => bool_decide (size < MINSIGSTKSZ) | None => false end)
      then modify (set_m_errno ENOMEM);; mret (-1, alt s)
      else modify (set_alt new);; mret (0, alt s)
  end.

Definition setjmp (p : point) (mask : option Z) : M mst jmpbuf := s ← get; mret (Jb p (cur s) mask).
(** [longjmp] without the code that goes on: the registers and the mask *)
Definition load (jb : jmpbuf) : M mst unit :=
  modify (set_cur (jb_stack jb));;
  match jb_mask jb with Some m => modify (set_mask m) | None => mret tt end.

(** ** Saving and switching *)

Definition get_ctx (m : nat) : M mst pth_mctx_st := s ← get; of_option BadDeref (ctxs s !! m).
Definition put_ctx (m : nat) (x : pth_mctx_st) : M mst unit := modify (fun s => set_ctxs (<[m := x]> (ctxs s)) s).

(** The context [x] with the current machine state *)
Definition pth_mctx_save (p : point) (x : pth_mctx_st) : M mst pth_mctx_st :=
  s ← get;
  let error := m_errno s in
  (match dsp with Sjlje => modify (set_mask (m_block x)) | _ => mret tt end);;
  s ← get;
  jb ← setjmp p (match dsp with Ssjlj => Some (mask s) | _ => None end);
  mret (Mctx (Some jb) (m_sigs x) (m_block x) error).
(** [errno] and the context to jump to *)
Definition pth_mctx_restore (x : pth_mctx_st) : M mst point :=
  modify (set_m_errno (m_error x));;
  jb ← of_option BadDeref (m_jb x);
  load jb;;
  mret (jb_point jb).
Definition pth_mctx_restored (x : pth_mctx_st) : M mst unit :=
  match dsp with Sjlje => modify (set_mask (m_sigs x)) | _ => mret tt end.

(** ** The signal handler and the boot function *)

(** The first time [setjmp] returns in the handler *)
Definition pth_mctx_set_trampoline : M mst unit :=
  jb ← setjmp InTrampoline None;
  modify (set_mctx_trampoline (Some jb));;
  modify (set_mctx_called true).

(** The second time, up to the switch to the caller *)
Definition pth_mctx_set_bootstrap : M mst point :=
  s ← get;
  modify (set_mask (mctx_creating_sigs s));;
  m ← of_option BadDeref (mctx_creating s);
  x ← get_ctx m;
  x ← pth_mctx_save (InBootstrap m (mctx_creating_func s)) x;
  put_ctx m x;;
  s ← get;
  pth_mctx_restore (mctx_caller s).

(** ** Delivery of the signal *)

(** The handler runs with the signal and those of the action blocked, on the
    alternate stack if there is one and it is not in use. *)
Definition signal : M mst unit :=
  s ← get;
  let old := mask s in
  let here := cur s in
  modify (set_pending false);;
  modify (set_mask (sigaddset (Z.lor old (sa_mask (act s))) pth_sig_switch));;
  (match alt s with Some a => if sa_onstack (act s) then modify (set_cur a) else mret tt | None => mret tt end);;
  match sa_handler (act s) with
  | Trampoline => pth_mctx_set_trampoline
  | Handler _ => mret tt
  end;;
  modify (set_cur here);;
  modify (set_mask old).

(** With the mask [m]; without a signal it sleeps for ever. *)
Definition sigsuspend (m : Z) : M mst unit :=
  s ← get;
  let old := mask s in
  if pending s && negb (sigismember m pth_sig_switch) then
    modify (set_mask m);; signal;; modify (set_mask old);; modify (set_m_errno EINTR)
  else fail Stuck.

Fixpoint suspend_loop (fuel : nat) (sigs : Z) : M mst unit :=
  match fuel with
  | O => fail Stuck
  | S fuel => s ← get; if mctx_called s then mret tt else sigsuspend sigs;; suspend_loop fuel sigs
  end.

(** ** Going on at a saved place *)

Fixpoint resume (fuel : nat) (p : point) : M mst outcome :=
  match fuel with
  | O => fail Stuck
  | S fuel =>
      match p with
      | InTrampoline => p ← pth_mctx_set_bootstrap; resume fuel p
      | InSet => usr1_release;; mret (Returned true)
      | InBootstrap m func => x ← get_ctx m; pth_mctx_restored x;; mret (Started func)
      | Other k => mret (Elsewhere k)
      end
  end.

(** [pth_mctx_switch(old, new)] at the place [p] *)
Definition pth_mctx_switch (fuel : nat) (p : point) (old new : nat) : M mst outcome :=
  x ← get_ctx old;
  x ← pth_mctx_save p x;
  put_ctx old x;;
  y ← get_ctx new;
  p ← pth_mctx_restore y;
  resume fuel p.

(** ** A new context: the signal stack trick *)

Definition pth_mctx_set (fuel : nat) (mctx : nat) (func sk_addr_lo sk_addr_hi : Z) : M mst outcome :=
  usr1_acquire;;
  s ← get;
  let osigs := mask s in
  modify (set_mask (sigaddset osigs pth_sig_switch));;
  if negb sigaction_ok then usr1_release;; mret (Returned false)
  else
    let osa := act s in
    modify (set_act (Act Trampoline 0 true));;
    '(r, oss) ← sigaltstack (Some (Some (skaddr sk_addr_lo (sk_addr_hi - sk_addr_lo), sksize sk_addr_lo (sk_addr_hi - sk_addr_lo))));
    if bool_decide (r < 0) then usr1_release;; mret (Returned false)
    else
      modify (set_mctx_called false);;
      (* k_tkill(descr->tid, pth_sig_switch), which is blocked *)
      modify (set_pending true);;
      suspend_loop fuel (sigdelset (Z.ones 64) pth_sig_switch);;
      sigaltstack None;;
      '(r, _) ← sigaltstack (Some None);
      if bool_decide (r < 0) then usr1_release;; mret (Returned false)
      else
        '(_, ss) ← sigaltstack None;
        if bool_decide (is_Some ss) then usr1_release;; mret (Returned false)
        else
          (match oss with Some o => sigaltstack (Some (Some o));; mret tt | None => mret tt end);;
          modify (set_act osa);;
          modify (set_mask osigs);;
          x ← get_ctx mctx;
          put_ctx mctx (Mctx (m_jb x) 0 (match dsp with Sjlje => 0 | _ => m_block x end) 0);;
          modify (set_creating mctx func osigs);;
          s ← get;
          c ← pth_mctx_save InSet (mctx_caller s);
          modify (set_mctx_caller c);;
          s ← get;
          t ← of_option BadDeref (mctx_trampoline s);
          load t;;
          resume fuel (jb_point t).
End context.

(** ** The standardised way *)

Module Mcsc.
(** [ucontext_t] as far as the library sets it *)
Record ucontext : Set := Uc { uc_link : option nat; uc_stack : stack; uc_sigmask : Z; uc_start : point }.
Record pth_mctx_st : Set := Mctx { uc : ucontext; sigs : Z; error : Z }.

(** [getcontext] may fail; [makecontext] makes the context start with [func]. *)
Definition pth_mctx_set (current : option ucontext) (skaddr sksize : Z -> Z -> Z) (x : pth_mctx_st) (func sk_addr_lo sk_addr_hi : Z) : pth_mctx_st * bool :=
  match current with
  | None => (x, false)
  | Some _ =>
      let size := sk_addr_hi - sk_addr_lo in
      (Mctx (Uc None (skaddr sk_addr_lo size, sksize sk_addr_lo size) 0 (Other func)) 0 (error x), true)
  end.
End Mcsc.

(** ** Changing a saved context *)

Module Fiddle.
(** The registers in a [jmp_buf] that was just saved, the mask, and the error *)
Record pth_mctx_st : Set := Mctx { jb : list Z; sigs : Z; error : Z }.
(** [int] for an address *)
Definition set_jb (pc sp : nat) (func sk : Z) (x : pth_mctx_st) : pth_mctx_st :=
  Mctx (<[sp := swrap 32 sk]> (<[pc := swrap 32 func]> (jb x))) 0 0.

(** With the GNU C library, where [JB_PC] and [JB_SP] are known *)
Definition pth_mctx_set_lx (JB_PC JB_SP : nat) (saved : pth_mctx_st) (func sk_addr_lo sk_addr_hi : Z) : pth_mctx_st * bool :=
  (set_jb JB_PC JB_SP func sk_addr_hi saved, true).
Definition pth_mctx_set_isc (sizeof_jb : Z) (saved : pth_mctx_st) (func sk_addr_lo sk_addr_hi : Z) : pth_mctx_st * bool :=
  (set_jb 5 4 func (sk_addr_hi - sizeof_jb) saved, true).
Definition pth_mctx_set_w32 (saved : pth_mctx_st) (func sk_addr_lo sk_addr_hi : Z) : pth_mctx_st * bool :=
  (set_jb 8 7 func sk_addr_hi saved, true).
End Fiddle.
