(* ===== verification/MctxProofs.v ===== *)
(** * Theorems on machine contexts

    What the signal stack trick gets: a context that starts the function on the
    stack, and everything as it was ([mctx_set_starts]); and what it leaves
    behind when it fails ([mctx_set_failure_leaks]). *)

From S2P Require Import Prelude Bitmap Dll LinkedList Ring Priorities PQueue World Sched.
From S2P Require Import MutexProofs Mctx.

Section trick.
Context (dsp : dispatch) (tid pth_sig_switch : Z) (skaddr sksize : Z -> Z -> Z) (MINSIGSTKSZ : Z).
Context (Hsig : 0 <= pth_sig_switch < 64).
Implicit Types s : mst.

Lemma sigaltstack_run new s : alt s <> Some (cur s) -> match new with Some a => MINSIGSTKSZ <= a.2 | None => True end ->
  sigaltstack MINSIGSTKSZ (Some new) s = Ok ((0, alt s), set_alt new s).
Proof.
  intros Hc Hn. unfold sigaltstack. rewrite (bind_run get _ _ _ _ eq_refl), bool_decide_eq_false_2 by done.
  destruct new as [[a size]|]; [|done]. cbn in Hn. by rewrite bool_decide_eq_false_2 by lia.
Qed.

(** The signal is taken once, on the alternate stack, and the handler saves its place. *)
Lemma suspend_run fuel a s : mctx_called s = false -> pending s = true -> act s = Act Trampoline 0 true -> alt s = Some a ->
  suspend_loop pth_sig_switch (S (S fuel)) (sigdelset (Z.ones 64) pth_sig_switch) s =
  Ok (tt, set_m_errno EINTR (set_mctx_called true (set_mctx_trampoline (Some (Jb InTrampoline a None)) (set_pending false s)))).
Proof.
  intros Hc Hp Ha Halt. cbn [suspend_loop]. rewrite (bind_run get _ _ _ _ eq_refl), Hc.
  assert (sigismember (sigdelset (Z.ones 64) pth_sig_switch) pth_sig_switch = false) as Hm by apply Z.clearbit_eq.
  unfold sigsuspend. unfold mbind at 1, M_bind at 1. rewrite (bind_run get _ _ _ _ eq_refl), Hp, Hm. cbn [andb negb].
  destruct s; cbn in *; subst. reflexivity.
Qed.

(** What the new context starts with: the signal mask of the creator, that of the
    native that runs it, or none. *)
Definition start_mask (creator running : Z) : Z := match dsp with Ssjlj => creator | Sjlj => running | Sjlje => 0 end.
(** What is left of the mask of the creator *)
Definition left_mask (creator : Z) : Z := match dsp with Sjlje => 0 | _ => creator end.

(** The new context *)
Definition new_ctx (mctx : nat) (func : Z) (a : stack) (creator : Z) (x : pth_mctx_st) : pth_mctx_st :=
  Mctx (Some (Jb (InBootstrap mctx func) a (match dsp with Ssjlj => Some creator | _ => None end))) 0
    (match dsp with Sjlje => 0 | _ => m_block x end) EINTR.

(** From the jump into the handler to the return to the caller *)
Lemma enter_run fuel mctx func a s x k : ctxs s !! mctx = Some x -> m_sigs x = 0 -> (dsp = Sjlje -> m_block x = 0) -> m_errno s = EINTR ->
  mctx_creating s = Some mctx -> mctx_creating_func s = func -> mctx_trampoline s = Some (Jb InTrampoline a None) ->
  _pth_acquire_lock tid qlock_free = Ok k -> usr1 s = k -> mctx_creating_sigs s = mask s ->
  exists s', (c ← pth_mctx_save dsp InSet (mctx_caller s);
              modify (set_mctx_caller c);;
              s ← get;
              t ← of_option BadDeref (mctx_trampoline s);
              load t;;
              resume dsp tid (S (S fuel)) (jb_point t)) s = Ok (Returned true, s') /\
    act s' = act s /\ mask s' = left_mask (mask s) /\ alt s' = alt s /\ cur s' = cur s /\ usr1 s' = qlock_free /\
    ctxs s' = <[mctx := new_ctx mctx func a (mask s) x]> (ctxs s).
Proof.
  intros Hx Hs0 Hb He Hm Hf Ht Hk Hu Hsig'. destruct (qlock_cycle tid) as (k' & Ek & Er). rewrite Hk in Ek. injection Ek as <-.
  destruct s as [u ac pe m al cu er ca tr cr cf cs cc cx]. cbn in Hx, He, Hm, Hf, Ht, Hu, Hsig'. subst.
  unfold new_ctx, left_mask. destruct x as [jb sg bl eo]. cbn in Hs0, Hb. subst sg.
  destruct dsp; (eexists; split;
    [cbn [resume]; unfold pth_mctx_set_bootstrap, pth_mctx_save, pth_mctx_restore, load, setjmp, get_ctx, put_ctx, usr1_release, mbind, M_bind, get, modify;
     cbn; rewrite Hx; cbn; reflexivity
    |cbn; rewrite ?Er, ?Hb by done; repeat split; reflexivity]).
Qed.

(** Whoever switches to the new context starts the function. *)
Lemma switch_run fuel p old mctx func a creator x z s : old <> mctx -> ctxs s !! mctx = Some (new_ctx mctx func a creator x) -> ctxs s !! old = Some z ->
  exists s2, pth_mctx_switch dsp tid (S fuel) p old mctx s = Ok (Started func, s2) /\
    cur s2 = a /\ m_errno s2 = EINTR /\ mask s2 = start_mask creator (mask s).
Proof.
  intros Ho Hy Hz. destruct s as [u ac pe m al cu er ca tr cr cf cs cc cx]. cbn in Hy, Hz. destruct z as [jb sg bl eo].
  unfold new_ctx, start_mask in *. destruct dsp; (eexists; split;
    [unfold pth_mctx_switch, pth_mctx_save, pth_mctx_restore, pth_mctx_restored, load, setjmp, get_ctx, put_ctx, mbind, M_bind, get, modify;
     cbn; rewrite Hz; cbn; rewrite lookup_insert_ne by done; rewrite Hy; cbn; unfold get_ctx, pth_mctx_restored, mbind, M_bind, get, modify; cbn;
     rewrite lookup_insert_ne by done; rewrite Hy; reflexivity
    |done]).
Qed.

(** C9: with the signal stack trick [pth_mctx_set] returns, and leaves a context
    that, when a native switches to it, calls the function on the stack it was
    given, whatever has happened meanwhile.  The lock, the action of the
    signal, the alternate stack, the stack and the contexts of other threads are
    as they were before.  But the new thread starts with [errno] = EINTR, and
    with [sjlje] the caller's signal mask is lost. *)
Theorem mctx_set_starts fuel mctx func lo hi s x : let a := (skaddr lo (hi - lo), sksize lo (hi - lo)) in
  usr1 s = qlock_free -> ctxs s !! mctx = Some x -> alt s <> Some (cur s) -> (forall o, alt s = Some o -> MINSIGSTKSZ <= o.2) ->
  MINSIGSTKSZ <= a.2 -> a <> cur s -> (1 < fuel)%nat ->
  exists s' y, pth_mctx_set dsp tid pth_sig_switch skaddr sksize true MINSIGSTKSZ fuel mctx func lo hi s = Ok (Returned true, s') /\
    usr1 s' = qlock_free /\ act s' = act s /\ alt s' = alt s /\ cur s' = cur s /\ mask s' = left_mask (mask s) /\ ctxs s' = <[mctx := y]> (ctxs s) /\
    forall s1 old p z fuel1, old <> mctx -> ctxs s1 !! mctx = Some y -> ctxs s1 !! old = Some z ->
      exists s2, pth_mctx_switch dsp tid (S fuel1) p old mctx s1 = Ok (Started func, s2) /\
        cur s2 = a /\ m_errno s2 = EINTR /\ mask s2 = start_mask (mask s) (mask s1).
Proof.
  intros a Hl Hx Halt Hold Hmin Hne Hfu. destruct fuel as [|[|fuel]]; [lia..|]. destruct (qlock_cycle tid) as (k & Ek & Er).
  set (x0 := Mctx (m_jb x) 0 (match dsp with Sjlje => 0 | _ => m_block x end) 0).
  set (s6 := set_creating mctx func (mask s) (set_ctxs (<[mctx := x0]> (ctxs s)) (set_m_errno EINTR (set_mctx_called true
    (set_mctx_trampoline (Some (Jb InTrampoline a None)) (set_pending false (set_usr1 k s))))))).
  destruct (enter_run fuel mctx func a s6 x0 k) as (s' & E & H1 & H2 & H3 & H4 & H5 & H6); [apply lookup_insert_eq|done|intros Hd; unfold x0; by rewrite Hd|done|done|done|done|exact Ek|done|done|].
  exists s', (new_ctx mctx func a (mask s) x0).
  assert (ctxs s' = <[mctx := new_ctx mctx func a (mask s) x0]> (ctxs s)) as H6' by (rewrite H6; unfold s6; cbn [ctxs set_creating set_ctxs]; apply insert_insert_eq).
  split; [|split; [exact H5|]; do 4 (split; [assumption|]); split; [exact H6'|]].
  - unfold pth_mctx_set. change (skaddr lo (hi - lo), sksize lo (hi - lo)) with a.
    rewrite (bind_run _ _ s tt (set_usr1 k s)) by (unfold usr1_acquire; rewrite (bind_run get _ _ _ _ eq_refl), Hl; by rewrite Ek).
    rewrite (bind_run get _ _ _ _ eq_refl). rewrite (bind_run (modify (set_mask _)) _ _ _ _ eq_refl). cbn [negb].
    rewrite (bind_run (modify (set_act _)) _ _ _ _ eq_refl).
    match goal with |- (sigaltstack _ _ ≫= _) ?st = _ => set (s3 := st) end.
    unfold mbind at 1, M_bind at 1. rewrite (sigaltstack_run (Some a) s3 Halt Hmin). cbv beta iota.
    rewrite (bool_decide_eq_false_2 (0 < 0)) by lia. rewrite (bind_run (modify (set_mctx_called false)) _ _ _ _ eq_refl), (bind_run (modify (set_pending true)) _ _ _ _ eq_refl).
    match goal with |- (suspend_loop _ _ _ ≫= _) ?st = _ => rewrite (bind_run _ _ st _ _ (suspend_run fuel a st eq_refl eq_refl eq_refl eq_refl)) end.
    match goal with |- (_ ≫= _) ?st = _ => rewrite (bind_run (sigaltstack MINSIGSTKSZ None) _ st (0, Some a) st eq_refl) end.
    match goal with |- (sigaltstack _ _ ≫= _) ?st = _ => set (s5 := st) end.
    assert (sigaltstack MINSIGSTKSZ (Some None) s5 = Ok ((0, Some a), set_alt None s5)) as E5 by (apply (sigaltstack_run None s5); [by intros [= Hc]|done]).
    unfold mbind at 1, M_bind at 1. rewrite E5. cbv beta iota.
    rewrite (bool_decide_eq_false_2 (0 < 0)) by lia. 
    match goal with |- (_ ≫= _) ?st = _ => rewrite (bind_run (sigaltstack MINSIGSTKSZ None) _ st (0, None) st eq_refl) end. cbv beta iota.
    rewrite (bool_decide_eq_false_2 (is_Some _)) by (by intros [? ?]).
    change (alt s3) with (alt s). match goal with |- (_ ≫= _) ?st = _ => set (s7 := st) end.
    rewrite (bind_run _ _ s7 tt (set_alt (alt s) s7)).
    2:{ destruct (alt s) as [o|] eqn:Ea; [|done]. assert (sigaltstack MINSIGSTKSZ (Some (Some o)) s7 = Ok ((0, None), set_alt (Some o) s7)) as E7 by (apply (sigaltstack_run (Some o) s7); [done|by apply Hold]).
        by rewrite (bind_run _ _ _ _ _ E7). }
    rewrite (bind_run (modify (set_act _)) _ _ _ _ eq_refl), (bind_run (modify (set_mask _)) _ _ _ _ eq_refl).
    match goal with |- (_ ≫= _) ?st = _ => rewrite (bind_run _ _ st x st) by (unfold get_ctx; rewrite (bind_run get _ _ _ _ eq_refl); change (ctxs st) with (ctxs s); by rewrite Hx) end.
    unfold put_ctx. rewrite (bind_run (modify _) _ _ _ _ eq_refl), (bind_run (modify (set_creating _ _ _)) _ _ _ _ eq_refl). exact E.
  - intros s1 old p z fuel1 Ho Hy Hz. by apply (switch_run fuel1 p old mctx func a (mask s) x0 z s1).
Qed.

(** when the alternate stack is refused [pth_mctx_set] fails with its lock
    free and the contexts as they were; but the signal stays blocked, and its
    action stays the handler, which the next signal would run. *)
Theorem mctx_set_failure_leaks fuel mctx func lo hi s : usr1 s = qlock_free -> alt s <> Some (cur s) -> sksize lo (hi - lo) < MINSIGSTKSZ ->
  exists s', pth_mctx_set dsp tid pth_sig_switch skaddr sksize true MINSIGSTKSZ fuel mctx func lo hi s = Ok (Returned false, s') /\
    usr1 s' = qlock_free /\ ctxs s' = ctxs s /\ alt s' = alt s /\
    act s' = Act Trampoline 0 true /\ mask s' = sigaddset (mask s) pth_sig_switch.
Proof.
  intros Hl Halt Hsize. destruct (qlock_cycle tid) as (k & Ek & Er). unfold pth_mctx_set.
  rewrite (bind_run _ _ s tt (set_usr1 k s)) by (unfold usr1_acquire; rewrite (bind_run get _ _ _ _ eq_refl), Hl; by rewrite Ek).
  rewrite (bind_run get _ _ _ _ eq_refl). rewrite (bind_run (modify (set_mask _)) _ _ _ _ eq_refl). cbn [negb].
  rewrite (bind_run (modify (set_act _)) _ _ _ _ eq_refl).
  match goal with |- context [(_ ≫= _) ?st] => set (s3 := st) end.
  assert (sigaltstack MINSIGSTKSZ (Some (Some (skaddr lo (hi - lo), sksize lo (hi - lo)))) s3 = Ok ((-1, alt s), set_m_errno ENOMEM s3)) as E3.
  { unfold sigaltstack. rewrite (bind_run get _ _ _ _ eq_refl), bool_decide_eq_false_2 by done. by rewrite bool_decide_eq_true_2. }
  rewrite (bind_run _ _ _ _ _ E3). cbv beta iota. rewrite bool_decide_eq_true_2 by done.
  eexists. split; [reflexivity|]. by split.
Qed.
End trick.

(** ** An example *)

(** Signal 34; stacks of 4096 bytes; an action and a mask of the program *)
Definition mctx_demo : mst :=
  Mst qlock_free (Act (Handler 77) 0 false) false 5 None (9000, 4096) 0 false None None 0 0 (Mctx None 0 0 0)
    {[1%nat := Mctx None 0 0 0; 2%nat := Mctx None 0 0 0]}.

Lemma mctx_set_starts_witness :
  exists s' y s2, pth_mctx_set Ssjlj 101 34 (fun a _ => a) (fun _ n => n) true 2048 2 1 4711 20000 24096 mctx_demo = Ok (Returned true, s') /\
    mask s' = 5 /\ act s' = Act (Handler 77) 0 false /\ ctxs s' !! 1%nat = Some y /\
    pth_mctx_switch Ssjlj 101 1 (Other 0) 2 1 s' = Ok (Started 4711, s2) /\ cur s2 = (20000, 4096).
Proof.
  destruct (mctx_set_starts Ssjlj 101 34 (fun a _ => a) (fun _ n => n) 2048 2 1 4711 20000 24096 mctx_demo (Mctx None 0 0 0))
    as (s' & y & E & _ & Ha & _ & _ & Hm & Hc & Hsw); [done|done|done|done|done|done|lia|].
  assert (ctxs s' !! 1%nat = Some y) as Hy by (rewrite Hc; apply lookup_insert_eq).
  destruct (Hsw s' 2%nat (Other 0) (Mctx None 0 0 0) 0%nat) as (s2 & E2 & Hcur & _); [done|exact Hy|by rewrite Hc, lookup_insert_ne|].
  exists s', y, s2. split; [exact E|]. split; [exact Hm|]. split; [exact Ha|]. split; [exact Hy|]. split; [exact E2|exact Hcur].
Defined.

Lemma mctx_set_failure_leaks_witness :
  exists s', pth_mctx_set Ssjlj 101 34 (fun a _ => a) (fun _ n => n) true 2048 2 1 4711 20000 21000 mctx_demo = Ok (Returned false, s') /\
    act s' = Act Trampoline 0 true /\ mask s' = sigaddset 5 34.
Proof.
  destruct (mctx_set_failure_leaks Ssjlj 101 34 (fun a _ => a) (fun _ n => n) 2048 2 1 4711 20000 21000 mctx_demo) as (s' & E & _ & _ & _ & Ha & Hm); [done|done|done|].
  exists s'. split; [exact E|]. split; [exact Ha|exact Hm].
Defined.
