(* ===== verification/SharedArea.v ===== *)
(** * The file of the shared area (shared_area_file.c, ngptc.c)

    [ngptc] makes the file that holds the locks shared by processes, and every
    process maps it in [pth_initialize_shared] (see Native).  The file system is
    that one file with its bytes; what the calls of the system answer is given.
    The machine has 32 bits. *)

From S2P Require Import Prelude Bitmap Dll LinkedList Ring Priorities Time Msg PQueue Futex World Sync Event Util Sched Attr Lib LibProofs Native NativeProofs.

Definition MAX_SHARED_OBJECTS : Z := 64000.
Definition PTH_DEFAULT_MAX_SHARED_OBJECTS : Z := 256.
(** Of the machine (sysdeps/i386/syscall.h); pth_sync.c has another value for
    machines that define none. *)
Definition PTH_DEFAULT_SHARED_ADDRESS : Z := 1207959552 (* 0x48000000 *).
(** The members [verid], [addr], [num_objs] and [lock] *)
Definition sizeof_pth_shared_area_t : Z := 24.

(** The bytes of the file and its permissions; [None]: there is no file. *)
Definition area_file : Type := option (list Z * Z).

(** What the system answers: whether the file can be removed and opened; the mask
    of the permissions of a new file; the flags of a new descriptor, if they can be
    read; memory; what [write] returns; [fchmod]; what the variable that [read]
    fills held before *)
Record answers : Set := Answers {
  may_unlink : bool; may_open : bool; umask : Z; getfd : option Z; memory : bool; writes : Z -> Z; may_chmod : bool; on_stack : list Z }.

(** ** Bytes *)

Fixpoint le_bytes (n : nat) (x : Z) : list Z := match n with O => [] | S n => x mod 256 :: le_bytes n (x / 256) end.
Fixpoint le_value (l : list Z) : Z := match l with [] => 0 | b :: l => b + 256 * le_value l end.

(** The first members of [pth_shared_area_st], as they are in the file *)
Definition header_bytes (h : shared_header) : list Z := le_bytes 4 (sh_verid h) ++ le_bytes 4 (sh_addr h) ++ le_bytes 4 (sh_num_objs h).
Definition header_of (l : list Z) : shared_header :=
  Shared (swrap 32 (le_value (take 4 l))) (le_value (take 4 (drop 4 l))) (le_value (take 4 (drop 8 l))).

(** A [read] at the start of the file: a short one leaves the rest as it was. *)
Definition read_header (a : answers) (l : list Z) : shared_header := header_of (l ++ drop (length l) (on_stack a)).
(** A [write] at the start of the file *)
Definition write_start (b l : list Z) : list Z := b ++ drop (length b) l.

Section area.
Context (sizeof_sync PTH_INTERNAL_VERSION pagesize : Z).

Definition COMPUTE_PTH_SHARED_SIZE (nobj : Z) : Z := wrap 32 (sizeof_pth_shared_area_t + nobj * sizeof_sync).

(** ** shared_area_file.c *)

Definition O_CREAT : Z := 64.

(** The descriptor 3, or -1; [open] makes the file where it is asked to. *)
Definition shared_area_file_open (a : answers) (oflag mode : Z) (f : area_file) : Z * area_file :=
  if negb (may_open a) then (-1, f)
  else
    match f with
    | None => if flag oflag O_CREAT then (if bool_decide (getfd a = None) then -1 else 3, Some ([], Z.ldiff mode (umask a))) else (-1, None)
    | Some _ => (if bool_decide (getfd a = None) then -1 else 3, f)
    end.
Definition shared_area_file_unlink (a : answers) (f : area_file) : Z * area_file := if may_unlink a && bool_decide (is_Some f) then (0, None) else (-1, f).

(** ** ngptc.c *)

(** The options, the numbers with the [errno] of [strtoul] *)
Inductive opt : Set := OptVerbose | OptAddr (v e : Z) | OptHelp | OptReport | OptSize (v e : Z) | OptUnknown.
Record settings : Set := Settings { o_verbose : Z; o_report : Z; o_addr : Z; o_num : Z }.

(** The settings, or the code the program exits with *)
Fixpoint scan_options (l : list opt) (s : settings) : Z + settings :=
  match l with
  | [] => inr s
  | OptHelp :: _ | OptUnknown :: _ => inl 0
  | OptReport :: l => scan_options l (Settings (o_verbose s) (o_report s + 1) (o_addr s) (o_num s))
  | OptVerbose :: l => scan_options l (Settings (o_verbose s + 1) (o_report s) (o_addr s) (o_num s))
  | OptSize v e :: l =>
      if bool_decide (e <> 0) then inl 1
      else if bool_decide (v > MAX_SHARED_OBJECTS) then inl 1
      else scan_options l (Settings (o_verbose s) (o_report s) (o_addr s) v)
  | OptAddr v e :: l =>
      if bool_decide (e <> 0) then inl 1
      else if bool_decide (v mod pagesize <> 0) then inl 1
      else scan_options l (Settings (o_verbose s) (o_report s) v (o_num s))
  end.

Definition default_settings : settings := Settings 0 0 PTH_DEFAULT_SHARED_ADDRESS PTH_DEFAULT_MAX_SHARED_OBJECTS.

(** What is printed about the area: its address, its objects and its size *)
Definition report_area (a : answers) (f : area_file) : Z * option (Z * Z * Z) :=
  let '(fd, f) := shared_area_file_open a 0 0 f in
  if bool_decide (fd = -1) then (1, None)
  else
    match f with
    | None => (1, None)
    | Some (l, _) =>
        let h := read_header a l in
        if bool_decide (sh_verid h <> PTH_INTERNAL_VERSION) then (1, None)
        else (0, Some (sh_addr h, sh_num_objs h, COMPUTE_PTH_SHARED_SIZE (sh_num_objs h)))
    end.

(** The new file; [write] may take a part only, which is not noticed. *)
Definition build_area (a : answers) (addr num : Z) (f : area_file) : Z * area_file :=
  let f := (shared_area_file_unlink a f).2 in
  let shm_sz := COMPUTE_PTH_SHARED_SIZE num in
  let '(fd, f) := shared_area_file_open a (Z.lor O_CREAT 2) 511 f in
  if bool_decide (fd = -1) then (1, f)
  else if negb (memory a) then (1, f)
  else
    let h := header_bytes (Shared PTH_INTERNAL_VERSION addr num) in
    let buff := h ++ replicate (Z.to_nat shm_sz - length h) 0 in
    let n := writes a shm_sz in
    if bool_decide (n = -1) then (1, f)
    else
      match f with
      | None => (1, f)
      | Some (l, mode) =>
          let l := write_start (take (Z.to_nat n) buff) l in
          if negb (may_chmod a) then (1, Some (l, mode)) else (0, Some (l, 511))
      end.

(** The code the program exits with, the file, and what is reported *)
Definition ngptc (a : answers) (euid : Z) (l : list opt) (f : area_file) : Z * area_file * option (Z * Z * Z) :=
  match scan_options l default_settings with
  | inl code => (code, f, None)
  | inr s =>
      if bool_decide (o_report s <> 0) then let '(code, r) := report_area a f in (code, f, r)
      else if bool_decide (euid <> 0) then (255, f, None)
      else let '(code, f) := build_area a (o_addr s) (o_num s) f in (code, f, None)
  end.

(** ** A process that starts *)

(** What [pth_initialize_shared] finds: the file, and whether it can be mapped *)
Definition area_open (a : answers) (f : area_file) : M nv Z := mret (shared_area_file_open a 2 511 f).1.
Definition area_read (a : answers) (f : area_file) : M nv (option shared_header) := mret ((fun x => read_header a x.1) <$> f).
Definition start_process (a : answers) (f : area_file) (map_ok : bool) : M nv bool :=
  pth_initialize_shared (area_open a f) (area_read a f) (fun _ => mret map_ok) PTH_INTERNAL_VERSION.
End area.

(** ** Lemmas *)

Lemma le_value_bytes n x l : le_value (take n (le_bytes n x ++ l)) = x mod 256 ^ Z.of_nat n.
Proof.
  revert x. induction n as [|n IH]; intros x; [by rewrite Z.mod_1_r|].
  cbn [le_bytes app take le_value]. rewrite IH, Nat2Z.inj_succ, Z.pow_succ_r by lia. rewrite Z.rem_mul_r by lia. done.
Qed.

Lemma length_le_bytes n x : length (le_bytes n x) = n.
Proof. revert x. induction n; intros; cbn; auto. Qed.

(** What is read is what was written, whatever follows. *)
Lemma header_of_bytes h l : - 2 ^ 31 <= sh_verid h < 2 ^ 31 -> 0 <= sh_addr h < 2 ^ 32 -> 0 <= sh_num_objs h < 2 ^ 32 ->
  header_of (header_bytes h ++ l) = h.
Proof.
  destruct h as [v a n]; cbn [sh_verid sh_addr sh_num_objs]. intros Hv Ha Hn. unfold header_of, header_bytes; cbn [sh_verid sh_addr sh_num_objs].
  rewrite <- !app_assoc, le_value_bytes, (drop_app_length' _ _ 4), le_value_bytes by by rewrite length_le_bytes.
  rewrite (app_assoc (le_bytes 4 v)), (drop_app_length' _ _ 8), le_value_bytes by by rewrite length_app, !length_le_bytes.
  f_equal; [|by apply Z.mod_small..].
  rewrite <- (swrap_small 32 v) at 2 by lia. unfold swrap. by rewrite Z.mod_mod.
Qed.

Lemma length_header_bytes h : length (header_bytes h) = 12%nat.
Proof. unfold header_bytes. by rewrite !length_app, !length_le_bytes. Qed.

(** A number [strtoul] can return *)
Definition opt_ok (o : opt) : Prop := match o with OptAddr v _ | OptSize v _ => 0 <= v < 2 ^ 32 | _ => True end.

Lemma scan_options_ok pagesize l s s' : Forall opt_ok l -> scan_options pagesize l s = inr s' ->
  0 <= o_addr s < 2 ^ 32 -> o_addr s mod pagesize = 0 -> 0 <= o_num s <= MAX_SHARED_OBJECTS ->
  (0 <= o_addr s' < 2 ^ 32 /\ o_addr s' mod pagesize = 0) /\ 0 <= o_num s' <= MAX_SHARED_OBJECTS.
Proof.
  intros Hl. revert s. induction Hl as [|o l Ho _ IH]; intros s; cbn [scan_options]; [intros [= ->]; auto|].
  destruct o; try discriminate; cbn [opt_ok] in Ho; intros Hs Ha Hp Hn; repeat case_bool_decide; try discriminate;
    apply (IH _ Hs); cbn [o_addr o_num]; lia.
Qed.

Section roundtrip.
Context (sizeof_sync PTH_INTERNAL_VERSION pagesize : Z).
Hypothesis Hsync : 0 <= sizeof_sync < 2 ^ 15.
Hypothesis Hver : - 2 ^ 31 <= PTH_INTERNAL_VERSION < 2 ^ 31.
(** The default address begins a page. *)
Hypothesis Hpage : PTH_DEFAULT_SHARED_ADDRESS mod pagesize = 0.

Lemma shared_size num : 0 <= num <= MAX_SHARED_OBJECTS ->
  COMPUTE_PTH_SHARED_SIZE sizeof_sync num = 24 + num * sizeof_sync.
Proof. unfold MAX_SHARED_OBJECTS. intros. apply wrap_small. unfold sizeof_pth_shared_area_t. nia. Qed.

(** The file that is made: what was asked for, and at least the size of the area *)
Lemma build_area_file a addr num f f' : 0 <= num <= MAX_SHARED_OBJECTS -> (forall n, writes a n = n) ->
  build_area sizeof_sync PTH_INTERNAL_VERSION a addr num f = (0, f') ->
  exists rest, f' = Some (header_bytes (Shared PTH_INTERNAL_VERSION addr num) ++ rest, 511) /\ 12 + num * sizeof_sync <= Z.of_nat (length rest).
Proof.
  intros Hnum Hw. unfold build_area. destruct (shared_area_file_open _ _ _ _) as [fd f1]. rewrite Hw, shared_size by done. cbv zeta.
  set (h := header_bytes _). assert (length h = 12%nat) as Hh by apply length_header_bytes. clearbody h. unfold write_start.
  destruct (bool_decide (fd = -1)), (memory a), (bool_decide (24 + num * sizeof_sync = -1)), f1 as [[l mode]|], (may_chmod a); cbn [negb]; intros [= <-].
  rewrite take_ge by (rewrite length_app, length_replicate; nia). rewrite <- app_assoc. eexists. split; [done|].
  rewrite length_app, length_replicate. nia.
Qed.

(** C33: What [ngptc] builds, every process finds.  When it ends with success
    after options that do not only ask for help or a report, and the system takes
    what it writes whole, the file is at least as long as the area of the objects
    asked for (at most 64000, 256 if nothing is said), whatever the file was
    before; a process of the same version that starts, and can open and map the
    file, then finds in it the address asked for (0x48000000 if nothing is said),
    which is a multiple of the page if the default address is one, and the number
    of objects, and is initialised; and the report of [ngptc] tells the same
    numbers. *)
Theorem shared_area_roundtrip a a' l st f f' r s : Forall opt_ok l -> scan_options pagesize l default_settings = inr st -> o_report st = 0 ->
  (forall n, writes a n = n) -> ngptc sizeof_sync PTH_INTERNAL_VERSION pagesize a 0 l f = (0, f', r) ->
  may_open a' = true -> is_Some (getfd a') -> pth_shared_fd s = 0 ->
  let h := Shared PTH_INTERNAL_VERSION (o_addr st) (o_num st) in
  0 <= o_num st <= MAX_SHARED_OBJECTS /\ o_addr st mod pagesize = 0 /\
  (exists bytes mode, f' = Some (bytes, mode) /\ COMPUTE_PTH_SHARED_SIZE sizeof_sync (o_num st) <= Z.of_nat (length bytes)) /\
  (exists s', start_process PTH_INTERNAL_VERSION a' f' true s = Ok (true, s') /\ pth_shared_area s' = Some h) /\
  ngptc sizeof_sync PTH_INTERNAL_VERSION pagesize a' 0 [OptReport] f' =
    (0, f', Some (o_addr st, o_num st, COMPUTE_PTH_SHARED_SIZE sizeof_sync (o_num st))).
Proof using Hsync Hver Hpage.
  intros Hl Hs Hr Hw Hrun Ho [fl Hfl] Hfd h.
  destruct (scan_options_ok _ _ _ _ Hl Hs) as [[Ha Hp] Hn]; [by vm_compute|exact Hpage|by vm_compute|].
  unfold ngptc in Hrun. rewrite Hs, Hr in Hrun. cbn in Hrun. destruct (build_area _ _ _ _ _ _) as [code f1] eqn:Hb. injection Hrun as -> -> <-.
  destruct (build_area_file _ _ _ _ _ Hn Hw Hb) as (rest & -> & Hlen).
  assert (forall x, header_of (header_bytes h ++ x) = h) as Hh by (intros; apply header_of_bytes; cbn; unfold MAX_SHARED_OBJECTS in *; lia).
  assert (read_header a' (header_bytes h ++ rest) = h) as Hread by (unfold read_header; by rewrite <- app_assoc, Hh).
  assert (forall o m, shared_area_file_open a' o m (Some (header_bytes h ++ rest, 511)) = (3, Some (header_bytes h ++ rest, 511))) as Hopen.
  { intros. unfold shared_area_file_open. by rewrite Ho, Hfl. }
  split; [done|]. split; [done|]. split; [|split].
  - eexists _, _. split; [done|]. rewrite shared_size by done. rewrite (@length_app Z), length_header_bytes. lia.
  - unfold start_process, pth_initialize_shared, area_open, area_read. rewrite Hopen.
    rewrite (bind_run get _ _ _ _ eq_refl), bool_decide_eq_true_2 by done. cbn [fst].
    rewrite (bind_run (mret 3) _ _ _ _ eq_refl), (bind_run (modify (set_pth_shared_fd 3)) _ _ _ _ eq_refl), bool_decide_eq_false_2 by done.
    rewrite (bind_run (mret _) _ _ _ _ eq_refl). cbn -[read_header header_bytes]. fold h. rewrite Hread.
    rewrite bool_decide_eq_true_2 by done. eexists. split; [reflexivity|done].
  - unfold ngptc, report_area. cbn -[shared_area_file_open read_header header_bytes]. rewrite Hopen. cbn -[read_header header_bytes]. fold h. rewrite Hread. cbn. by rewrite (bool_decide_eq_false_2 (PTH_INTERNAL_VERSION <> _)) by (intros Hc; by apply Hc).
Qed.
End roundtrip.

Definition area_demo : nv := native_demo ∅ (lib_demo (QMem ∅ ∅ ∅) ∅).

(** A build with 8 objects at a page of its own, and the process that finds it *)
Definition answers_demo : answers := Answers true true 18 (Some 0) true (fun n => n) true [].

(** C0 at [ngptc --size 8 --addr 0x40000000 --verbose]. *)
Lemma shared_area_roundtrip_witness :
  let l := [OptSize 8 0; OptAddr 1073741824 0; OptVerbose] in
  exists s', start_process 514 answers_demo (build_area 40 514 answers_demo 1073741824 8 None).2 true area_demo = Ok (true, s') /\
    pth_shared_area s' = Some (Shared 514 1073741824 8).
Proof.
  refine (proj1 (proj2 (proj2 (proj2 (shared_area_roundtrip 40 514 4096 _ _ _ answers_demo answers_demo
    [OptSize 8 0; OptAddr 1073741824 0; OptVerbose] (Settings 1 0 1073741824 8) None _ None area_demo _ _ _ _ _ _ _ _))))).
  - lia.
  - lia.
  - reflexivity.
  - repeat constructor; cbn; lia.
  - reflexivity.
  - reflexivity.
  - reflexivity.
  - vm_compute. reflexivity.
  - reflexivity.
  - eexists; reflexivity.
  - reflexivity.
Defined.
