(* ===== verification/SigRt.v ===== *)
(** * Realtime signals (sigrt.c)

    The signals from [__SIGRTMIN] on that the library does not keep for itself
    are given out one by one, from either end.  The library's own signals are
    those of pth_mctx.c (switch, shared) and, when it is built for debuggers, of
    td_manager.c (debug, restart, cancel). *)

From S2P Require Import Prelude.

Record rtsigs : Set := RtSigs { current_rtmin : Z; current_rtmax : Z; rtsigs_initialized : bool }.

(** The variables when the program starts *)
Definition rtsigs_zero : rtsigs := RtSigs 0 0 false.

Section sigrt.
(** [__SIGRTMIN] and [__SIGRTMAX], and whether [THREAD_DB] is defined *)
Context (SIGRTMIN SIGRTMAX : Z) (thread_db : bool).

Definition INTERNAL_SIGS_NUM : Z := if thread_db then 5 else 2.
Definition kernel_has_rtsig : bool := bool_decide (SIGRTMIN <> -1).

Definition do_rtsigs_init (s : rtsigs) : rtsigs :=
  if kernel_has_rtsig then RtSigs (SIGRTMIN + INTERNAL_SIGS_NUM + 1) SIGRTMAX true
  else RtSigs (current_rtmin s) (current_rtmax s) true.
Definition rtsigs_init (s : rtsigs) : rtsigs := if negb (rtsigs_initialized s) then do_rtsigs_init s else s.

Definition __libc_current_sigrtmin (s : rtsigs) : Z * rtsigs := let s := rtsigs_init s in (current_rtmin s, s).
Definition __libc_current_sigrtmax (s : rtsigs) : Z * rtsigs := let s := rtsigs_init s in (current_rtmax s, s).

Definition __libc_allocate_rtsig (high : bool) (s : rtsigs) : Z * rtsigs :=
  let s := rtsigs_init s in
  if bool_decide (current_rtmin s <> -1) && bool_decide (current_rtmin s <= current_rtmax s) then
    if high then (current_rtmin s, RtSigs (swrap 32 (current_rtmin s + 1)) (current_rtmax s) true)
    else (current_rtmax s, RtSigs (current_rtmin s) (swrap 32 (current_rtmax s - 1)) true)
  else (-1, s).

(** The library's own: [pth_sig_switch], [pth_sig_shared], [__pthread_sig_debug],
    [__pthread_sig_restart], [__pthread_sig_cancel] *)
Definition internal_sigs : list Z :=
  [SIGRTMIN + 1; SIGRTMIN + 2] ++ (if thread_db then [SIGRTMIN + 3; SIGRTMIN + 4; SIGRTMIN + 5] else []).

(** A sequence of calls, with their results *)
Fixpoint allocations (highs : list bool) (s : rtsigs) : list Z * rtsigs :=
  match highs with
  | [] => ([], s)
  | h :: highs => let '(r, s) := __libc_allocate_rtsig h s in let '(l, s) := allocations highs s in (r :: l, s)
  end.

(** ** Lemmas *)

(** What is left to be given out *)
Definition left (s : rtsigs) : Z := current_rtmax s - current_rtmin s + 1.
Definition rtsigs_ok (s : rtsigs) : Prop := rtsigs_initialized s = true /\ 0 <= current_rtmin s /\ 0 <= left s /\ current_rtmax s <= 1024.
Definition given (r : Z) : Prop := r <> -1.

Lemma allocate_rtsig_spec h s : rtsigs_ok s ->
  let '(r, s') := __libc_allocate_rtsig h s in
  rtsigs_ok s' /\
  ((left s = 0 /\ r = -1 /\ s' = s) \/
   (0 < left s /\ left s' = left s - 1 /\ current_rtmin s <= r <= current_rtmax s /\
    current_rtmin s <= current_rtmin s' /\ current_rtmax s' <= current_rtmax s /\ ~ (current_rtmin s' <= r <= current_rtmax s'))).
Proof.
  destruct s as [lo hi i]. unfold rtsigs_ok, left, __libc_allocate_rtsig, rtsigs_init; cbn. intros (-> & Hlo & Hl & Hhi). cbn.
  rewrite bool_decide_eq_true_2 by lia. cbn. case_bool_decide; [|cbn; split; [split; [done|lia]|]; left; repeat split; lia].
  destruct h; cbn; rewrite swrap_small by lia; (split; [split; [done|lia]|]; right; lia).
Qed.

Lemma allocations_spec highs s l s' : rtsigs_ok s -> allocations highs s = (l, s') ->
  NoDup (filter given l) /\ (forall r, r ∈ l -> given r -> current_rtmin s <= r <= current_rtmax s) /\
  Z.of_nat (length (filter given l)) = Z.min (Z.of_nat (length highs)) (left s).
Proof.
  revert s l. induction highs as [|h highs IH]; intros s l Hok; cbn [allocations].
  { intros [= <- <-]. split; [constructor|]. split; [intros r Hr; by apply elem_of_nil in Hr|]. destruct Hok as (_ & _ & ? & _). cbn. lia. }
  pose proof (allocate_rtsig_spec h s Hok) as H. destruct (__libc_allocate_rtsig h s) as [r s1].
  destruct (allocations highs s1) as [l1 s2] eqn:E. intros [= <- <-]. destruct H as [Hok1 H].
  destruct (IH _ _ Hok1 E) as (Hd & Hin & Hn). pose proof Hok as (_ & ? & ? & _). destruct H as [(Hz & -> & ->)|(Hp & Hl & Hr & ? & ? & Hout)].
  - rewrite filter_cons_False by (unfold given; lia). split; [done|]. split; [|cbn [length]; lia].
    intros r [->|Hr]%elem_of_cons Hg; [done|]. by apply Hin.
  - rewrite filter_cons_True by (unfold given; lia). split; [|split].
    + constructor; [|done]. intros [Hg Hi]%list_elem_of_filter. destruct (Hin _ Hi Hg). lia.
    + intros q [->|Hq]%elem_of_cons Hg; [lia|]. pose proof (Hin _ Hq Hg). lia.
    + cbn [length]. lia.
Qed.
End sigrt.

(** However a program asks for realtime signals from the start on, it gets
    different ones, never one of the library's own, all of them between the two
    bounds, and as many as there are before the first -1. *)
Theorem rtsigs_distinct SIGRTMIN SIGRTMAX thread_db highs l s :
  0 <= SIGRTMIN -> SIGRTMIN + 5 <= SIGRTMAX <= 1024 -> allocations SIGRTMIN SIGRTMAX thread_db highs rtsigs_zero = (l, s) ->
  NoDup (filter given l) /\
  (forall r, r ∈ l -> given r -> SIGRTMIN <= r <= SIGRTMAX /\ r ∉ internal_sigs SIGRTMIN thread_db) /\
  Z.of_nat (length (filter given l)) = Z.min (Z.of_nat (length highs)) (SIGRTMAX - SIGRTMIN - INTERNAL_SIGS_NUM thread_db).
Proof.
  intros H0 H1. destruct highs as [|h highs].
  { intros [= <- <-]. split; [constructor|]. split; [intros r Hr; by apply elem_of_nil in Hr|]. cbn. destruct thread_db; cbn; lia. }
  set (s0 := RtSigs (SIGRTMIN + INTERNAL_SIGS_NUM thread_db + 1) SIGRTMAX true).
  assert (rtsigs_init SIGRTMIN SIGRTMAX thread_db rtsigs_zero = s0) as Hi.
  { unfold rtsigs_init, do_rtsigs_init, kernel_has_rtsig. cbn. by rewrite bool_decide_eq_true_2 by lia. }
  assert (allocations SIGRTMIN SIGRTMAX thread_db (h :: highs) rtsigs_zero = allocations SIGRTMIN SIGRTMAX thread_db (h :: highs) s0) as ->.
  { cbn [allocations]. unfold __libc_allocate_rtsig. by rewrite Hi. }
  intros E. apply allocations_spec in E as (Hd & Hin & Hn); [|unfold s0, rtsigs_ok, left; cbn; destruct thread_db; cbn; (split; [done|lia])].
  split; [done|]. split; [|rewrite Hn; unfold left, s0; cbn; f_equal; lia].
  intros r Hr Hg. pose proof (Hin r Hr Hg) as Hb. cbn in Hb. unfold internal_sigs. destruct thread_db; cbn in *;
    (split; [lia|]); rewrite ?elem_of_cons, elem_of_nil; lia.
Qed.

(** Where the system has no realtime signals ([__SIGRTMIN] is -1) the first
    signal that is allocated is 0, since the bounds stay zero. *)
Theorem no_rtsigs_allocates_zero SIGRTMAX thread_db high :
  (__libc_allocate_rtsig (-1) SIGRTMAX thread_db high rtsigs_zero).1 = 0.
Proof. by destruct high. Qed.

(** With Linux's bounds and a debugger: the first three signals, then the bounds *)
Example rtsigs_linux : allocations 32 63 true [true; false; true] rtsigs_zero = ([38; 63; 39], RtSigs 40 62 true).
Proof. reflexivity. Qed.
