(* ===== verification/FutexSlow.v ===== *)
(** * Sleeping on a futex, the fair release and regions (futex.h)

    The functions nothing calls through the protocol of Futex: the acquisition
    with a time limit, run by itself between the answers of [FUTEX_WAIT], the
    release that passes the futex on, and the preparation of the shared area. *)

From S2P Require Import Prelude Futex.

(** One [FUTEX_WAIT]: the word the kernel compares, what it answers when the word
    is the expected one, and the word when the call returns.  Other processes
    change the word only while the call runs. *)
Record wait_answer : Set := Waited { w_before : Z; w_result : Z; w_after : Z }.

Definition sys_futex_wait (val : Z) (a : wait_answer) : Z * Z :=
  if bool_decide (w_before a = val) then (w_result a, w_after a) else (- EWOULDBLOCK, w_before a).

Definition futex_down_slow (val : Z) (a : wait_answer) : Z * futex_st :=
  let '(result, c) := sys_futex_wait val a in
  if bool_decide (result = 0) then
    if bool_decide (c <= FUTEX_PASSED) then (1, Futex (-1)) else (0, Futex c)
  else if bool_decide (result = - EWOULDBLOCK) then (2, Futex c)
  else (result, Futex c).

(** [None]: the process sleeps when the answers are used up. *)
Fixpoint futex_down_timeout (l : list wait_answer) (woken : bool) (f : futex_st) : option (Z * futex_st) :=
  let '(val, c) := __futex_down (count f) in
  if bool_decide (val = 0) then Some (0, if woken then Futex (-1) else Futex c)
  else
    match l with
    | [] => None
    | a :: l =>
        let '(result, f) := futex_down_slow val a in
        if bool_decide (result < 0) then Some (result, f)
        else if bool_decide (result = 1) then Some (0, f)
        else futex_down_timeout l (woken || bool_decide (result = 0)) f
    end.

Definition futex_down (l : list wait_answer) (f : futex_st) : option (Z * futex_st) := futex_down_timeout l false f.

(** The result, the word, and the sleepers the kernel is asked to wake each time;
    [woken1] and [woken2] are its answers. *)
Definition futex_up_fair (f : futex_st) (woken1 woken2 : Z) : Z * futex_st * list Z :=
  let '(r, c) := __futex_up (count f) in
  if bool_decide (r = 0) then
    if bool_decide (woken1 = 1) then (0, Futex FUTEX_PASSED, [1])
    else let '(r, f, w) := futex_up_slow (Futex FUTEX_PASSED) INT_MAX woken2 in (r, f, 1 :: option_list w)
  else (0, Futex c, []).

(** The page-aligned range [sys_mprotect] is called with *)
Definition futex_region_range (PAGE_SIZE area size : Z) : Z * Z :=
  (area / PAGE_SIZE * PAGE_SIZE, (size + PAGE_SIZE - 1) / PAGE_SIZE * PAGE_SIZE).
Definition futex_region (PAGE_SIZE : Z) (sys_mprotect : Z -> Z -> Z) (area size : Z) : Z :=
  let '(area, size) := futex_region_range PAGE_SIZE area size in
  let retval := sys_mprotect area size in
  if bool_decide (retval < 0) then retval else 0.

(** ** Theorems *)

(** The word of a futex in use by fewer than 2^30 processes *)
Definition word_ok (c : Z) : Prop := - 2 ^ 30 < c <= 1 \/ c = FUTEX_PASSED.

Lemma down_word c : word_ok c -> match __futex_down c with (0, c') => c = 1 /\ c' = 0 | (_, c') => c' < 0 end.
Proof.
  unfold word_ok, FUTEX_PASSED, __futex_down, down_read, down_dec. intros Hc. case_bool_decide; [destruct c; lia|].
  rewrite swrap_small by lia. case_bool_decide; lia.
Qed.

(** Whenever [futex_down] answers 0, the futex is held: its word is 0 when
    nobody was waited for and -1 after a sleep or a direct pass.  (The kernel
    answers 0 or an error.) *)
Theorem futex_down_holds l f f' : word_ok (count f) -> Forall (fun a => word_ok (w_before a) /\ word_ok (w_after a) /\ w_result a <= 0) l ->
  futex_down l f = Some (0, f') -> count f' = 0 \/ count f' = -1.
Proof.
  unfold futex_down. generalize false as woken. intros woken Hf Hl. revert woken f Hf. induction Hl as [|a l (Hb & Ha & Hr) _ IH]; intros woken f Hf; cbn [futex_down_timeout];
    pose proof (down_word _ Hf) as Hw; destruct (__futex_down (count f)) as [v c];
    (case_bool_decide as E; [subst; intros [= <-]; destruct woken; cbn; lia|]); [done|].
  unfold futex_down_slow, sys_futex_wait.
  destruct (bool_decide (w_before a = v)); repeat case_bool_decide; try lia; intros H'; first [by apply IH in H' | injection H' as ? <-; cbn in *; lia | injection H' as <-; cbn; lia].
Qed.

(** A pass from a holder to a sleeper: the fair release of a futex that somebody
    waits for leaves the word at FUTEX_PASSED; the sleeper that wakes up then
    holds it, and nobody who tried in between could have taken it. *)
Theorem fair_release_passes f l v woken2 : - 2 ^ 30 < count f < 0 -> v < 0 ->
  let '(r, f', w) := futex_up_fair f 1 woken2 in
  r = 0 /\ w = [1] /\ (futex_trydown f').1 <> 0 /\
  futex_down (Waited v 0 (count f') :: l) (Futex v) = Some (0, Futex (-1)).
Proof.
  intros Hf Hv. unfold futex_up_fair, __futex_up. rewrite swrap_small by lia. rewrite (bool_decide_eq_false_2 (_ > 0)) by lia. cbn -[futex_down].
  repeat split; [done|]. unfold futex_down. cbn [futex_down_timeout count]. unfold __futex_down, down_read.
  rewrite bool_decide_eq_true_2 by done. rewrite bool_decide_eq_false_2 by lia. unfold futex_down_slow, sys_futex_wait. cbn.
  by rewrite bool_decide_eq_true_2 by done.
Qed.

(** The range covers an area that begins at a page. *)
Theorem futex_region_covers PAGE_SIZE area size : 0 < PAGE_SIZE -> area mod PAGE_SIZE = 0 ->
  let '(a, n) := futex_region_range PAGE_SIZE area size in a <= area /\ area + size <= a + n.
Proof.
  intros Hp Ha. unfold futex_region_range. pose proof (Z.div_mod area PAGE_SIZE ltac:(lia)).
  pose proof (Z.div_mod (size + PAGE_SIZE - 1) PAGE_SIZE ltac:(lia)). pose proof (Z.mod_pos_bound (size + PAGE_SIZE - 1) PAGE_SIZE Hp). lia.
Qed.

(** An area that does not begin at a page may lose its end: the beginning and the
    size are rounded by themselves. *)
Theorem futex_region_misses : let '(a, n) := futex_region_range 4096 4095 2 in a + n < 4095 + 2.
Proof. done. Qed.
