(* ===== verification/PthPQueue.v ===== *)
(** * The priority queues of pth_pqueue.c

    The queues the library had before pqueue.h (pqueue.h compares the two; this
    file is no longer linked).  The threads of a queue form a ring; only the first
    one holds its priority, every other one holds the difference to the thread
    before it, so that all priorities are raised in one step.

    The memory of the threads is the links [q_next], [q_prev] and the member
    [q_prio]; the queue itself is [q_head] and [q_num], and whether the pointer to it
    is NULL is the first argument of the operations.  The assertions on the lock,
    which are compiled out, are left out.  Numbers are ints of 32 bits; the
    differences may wrap around, and give the priority back all the same. *)

From Stdlib Require Import Sorted.
From S2P Require Import Prelude Dll.

Section pth_pqueue.
Context {A : Type} `{Countable A}.
Implicit Types (a c t n x : A) (q : bool) (Q R : list (A * Z)) (h : gmap A (link A)) (m : gmap A Z).

Record pth_pqueue_st : Type := OQueue { q_head : option A; q_num : Z; q_links : gmap A (link A); q_prios : gmap A Z }.
Implicit Types (s : pth_pqueue_st).

Definition set_q_head v s := OQueue v (q_num s) (q_links s) (q_prios s).
Definition set_q_num v s := OQueue (q_head s) v (q_links s) (q_prios s).
Definition set_q_links v s := OQueue (q_head s) (q_num s) v (q_prios s).
Definition set_q_prios v s := OQueue (q_head s) (q_num s) (q_links s) v.

Abbreviation P := (M pth_pqueue_st).

(** ** Members of a thread *)

Definition q_next (t : option A) : P (option A) := fun s => n ← get_next (q_links s) t; Ok (n, s).
Definition q_prev (t : option A) : P (option A) := fun s => n ← get_prev (q_links s) t; Ok (n, s).
Definition q_prio (t : option A) : P Z := fun s => p ← or_fault BadDeref (t ≫= fun t => q_prios s !! t); Ok (p, s).
Definition put_q_prio (t : option A) (v : Z) : P unit := fun s =>
  match t with
  | Some a => _ ← or_fault BadDeref (q_prios s !! a); Ok (tt, set_q_prios (<[a := v]> (q_prios s)) s)
  | None => Err BadDeref
  end.
Definition on_links (f : gmap A (link A) -> res (gmap A (link A))) : P unit := fun s => h ← f (q_links s); Ok (tt, set_q_links h s).

(** ** The writes to the links the operations share *)

Definition link_alone (t : option A) h : res (gmap A (link A)) := h ← set_prev t t h; set_next t t h.

(** [t] before the thread [hd], as its first neighbour *)
Definition link_before (t hd : option A) h : res (gmap A (link A)) :=
  p ← get_prev h hd;
  h ← set_prev t p h;
  h ← set_next t hd h;
  p ← get_prev h t;
  h ← set_next p t h;
  n ← get_next h t;
  set_prev n t h.

Definition link_after (t c : option A) h : res (gmap A (link A)) :=
  h ← set_prev t c h;
  n ← get_next h c;
  h ← set_next t n h;
  p ← get_prev h t;
  h ← set_next p t h;
  n ← get_next h t;
  set_prev n t h.

Definition unlink (t : option A) h : res (gmap A (link A)) :=
  p ← get_prev h t;
  n ← get_next h t;
  h ← set_next p n h;
  n ← get_next h t;
  p ← get_prev h t;
  set_prev n p h.

(** ** Operations *)

Definition pth_pqueue_init q : P unit :=
  if q then modify (set_q_head None);; modify (set_q_num 0) else mret tt.

(** The loop of [pth_pqueue_insert]: the thread to insert behind, and its priority *)
Fixpoint insert_scan (fuel : nat) (prio : Z) (c : option A) (p : Z) : P (option A * Z) :=
  match fuel with
  | O => fail Stuck
  | S fuel =>
      n ← q_next c;
      d ← q_prio n;
      s ← get;
      if bool_decide (swrap 32 (p - d) >= prio) && negb (bool_decide (n = q_head s)) then
        d ← q_prio n;
        insert_scan fuel prio n (swrap 32 (p - d))
      else mret (c, p)
  end.

Definition pth_pqueue_insert (fuel : nat) q (prio : Z) (t : option A) : P unit :=
  if negb q then mret tt
  else
    s ← get;
    (if bool_decide (q_head s = None) || bool_decide (q_num s = 0) then
       on_links (link_alone t);;
       put_q_prio t prio;;
       modify (set_q_head t)
     else
       p ← q_prio (q_head s);
       if bool_decide (p < prio) then
         on_links (link_before t (q_head s));;
         put_q_prio t prio;;
         n ← q_next t;
         d ← q_prio n;
         put_q_prio n (swrap 32 (prio - d));;
         modify (set_q_head t)
       else
         '(c, p) ← insert_scan fuel prio (q_head s) p;
         on_links (link_after t c);;
         put_q_prio t (swrap 32 (p - prio));;
         n ← q_next t;
         (if negb (bool_decide (n = q_head s)) then
            d ← q_prio n;
            e ← q_prio t;
            put_q_prio n (swrap 32 (d - e))
          else mret tt));;
    modify (fun s => set_q_num (swrap 32 (q_num s + 1)) s).

Definition pth_pqueue_Qinsert (fuel : nat) q (prio : Z) (t : option A) : P unit :=
  if negb q then mret tt
  else
    s ← get;
    if bool_decide (q_head s = None) || bool_decide (q_num s = 0) then
      on_links (link_alone t);;
      put_q_prio t prio;;
      modify (set_q_head t);;
      modify (fun s => set_q_num (swrap 32 (q_num s + 1)) s)
    else if bool_decide (prio = 0) then
      c ← q_prev (q_head s);
      on_links (link_after t c);;
      put_q_prio t prio;;
      modify (fun s => set_q_num (swrap 32 (q_num s + 1)) s)
    else pth_pqueue_insert fuel q prio t.

(** The last thread of a queue leaves it. *)
Definition remove_last (t : option A) : P unit :=
  on_links (set_next t None);;
  on_links (set_prev t None);;
  put_q_prio t 0;;
  modify (set_q_head None);;
  modify (set_q_num 0).

(** The first thread of a queue that has others leaves it. *)
Definition remove_head (t : option A) : P unit :=
  on_links (unlink t);;
  n ← q_next t;
  p ← q_prio t;
  d ← q_prio n;
  put_q_prio n (swrap 32 (p - d));;
  put_q_prio t 0;;
  n ← q_next t;
  modify (set_q_head n);;
  modify (fun s => set_q_num (swrap 32 (q_num s - 1)) s).

Definition pth_pqueue_delmax q : P (option A) :=
  if negb q then mret None
  else
    s ← get;
    if bool_decide (q_head s = None) then mret None
    else
      let t := q_head s in
      n ← q_next t;
      if bool_decide (n = q_head s) then remove_last t;; mret t
      else remove_head t;; mret t.

Definition pth_pqueue_delete q (t : option A) : P unit :=
  if negb q then mret tt
  else
    s ← get;
    if bool_decide (q_head s = None) then mret tt
    else if bool_decide (q_head s = t) then
      n ← q_next t;
      if bool_decide (n = t) then remove_last t else remove_head t
    else
      on_links (unlink t);;
      n ← q_next t;
      (if negb (bool_decide (n = q_head s)) then
         d ← q_prio n;
         e ← q_prio t;
         put_q_prio n (swrap 32 (d + e))
       else mret tt);;
      put_q_prio t 0;;
      modify (fun s => set_q_num (swrap 32 (q_num s - 1)) s).

(** The header no longer defines the constant. *)
Context (PTH_PRIO_MAX : Z).

Definition pth_pqueue_favorite_prio : P Z :=
  s ← get;
  if bool_decide (q_head s <> None) then p ← q_prio (q_head s); mret (swrap 32 (p + 1)) else mret PTH_PRIO_MAX.

Definition pth_pqueue_favorite (fuel : nat) q (t : option A) : P bool :=
  if negb q then mret false
  else
    s ← get;
    if bool_decide (q_head s = None) || bool_decide (q_num s = 0) then mret false
    else if bool_decide (q_num s = 1) then mret true
    else
      pth_pqueue_delete q t;;
      p ← pth_pqueue_favorite_prio;
      pth_pqueue_insert fuel q p t;;
      mret true.

Definition pth_pqueue_increase q : P unit :=
  if negb q then mret tt
  else
    s ← get;
    if bool_decide (q_head s = None) then mret tt
    else p ← q_prio (q_head s); put_q_prio (q_head s) (swrap 32 (p + 1)).

Definition pth_pqueue_elements q : P Z := s ← get; mret (if q then q_num s else -1).
Definition pth_pqueue_head q : P (option A) := s ← get; mret (if q then q_head s else None).

Definition pth_pqueue_tail q : P (option A) :=
  if negb q then mret None
  else s ← get; if bool_decide (q_head s = None) then mret None else q_prev (q_head s).

Inductive walk_direction : Set := PTH_WALK_NEXT | PTH_WALK_PREV.

Definition pth_pqueue_walk q (t : option A) (direction : walk_direction) : P (option A) :=
  if negb q || bool_decide (t = None) then mret None
  else
    s ← get;
    match direction with
    | PTH_WALK_PREV => if bool_decide (t <> q_head s) then q_prev t else mret None
    | PTH_WALK_NEXT => n ← q_next t; mret (if bool_decide (n = q_head s) then None else n)
    end.

Fixpoint contains_scan (fuel : nat) q (tc t : option A) : P bool :=
  match fuel with
  | O => fail Stuck
  | S fuel =>
      if bool_decide (tc = None) then mret false
      else if bool_decide (tc = t) then mret true
      else tc ← pth_pqueue_walk q tc PTH_WALK_NEXT; contains_scan fuel q tc t
  end.

Definition pth_pqueue_contains (fuel : nat) q (t : option A) : P bool :=
  tc ← pth_pqueue_head q; contains_scan fuel q tc t.

(** ** What a queue holds *)

Definition in_int (x : Z) : Prop := - 2 ^ 31 <= x < 2 ^ 31.

(** The differences to the thread before, from a priority [p] on; all priorities
    are ints *)
Fixpoint deltas (p : Z) Q m : Prop :=
  in_int p /\
  match Q with
  | [] => True
  | (c, x) :: Q => m !! c = Some (swrap 32 (p - x)) /\ deltas x Q m
  end.

Definition counts s Q : Prop := q_num s = Z.of_nat (length Q) /\ in_int (Z.of_nat (length Q)).

(** The queue holds the threads with the priorities of [Q], in this order. *)
Definition holds s Q : Prop :=
  counts s Q /\
  match Q with
  | [] => q_head s = None
  | (a, p) :: Q => q_head s = Some a /\ ring (q_links s) a Q.*1 /\ q_prios s !! a = Some p /\ deltas p Q (q_prios s)
  end.

Definition mapped s t : Prop := is_Some (q_links s !! t) /\ is_Some (q_prios s !! t).
(** The same threads are in memory. *)
Definition same_threads s s' : Prop := forall t, mapped s t <-> mapped s' t.

(** Insertion behind the threads of the same or a higher priority *)
Fixpoint prio_insert (prio : Z) (t : A) Q : list (A * Z) :=
  match Q with
  | [] => [(t, prio)]
  | (c, p) :: Q => if bool_decide (p < prio) then (t, prio) :: (c, p) :: Q else (c, p) :: prio_insert prio t Q
  end.
Definition remove (t : A) Q : list (A * Z) := filter (fun y => y.1 <> t) Q.
Definition last_prio (p : Z) Q : Z := (List.last Q.*2 p).

Lemma deltas_range p Q m : deltas p Q m -> in_int p.
Proof. destruct Q as [|[c x] Q]; by intros [Hp _]. Qed.

(** The difference gives the priority back. *)
Lemma swrap_back (p x : Z) : in_int x -> swrap 32 (p - swrap 32 (p - x)) = x.
Proof.
  intros Hx. destruct (swrap_mod 32 (p - x)) as [k ->]; [done|].
  rewrite (swrap_congr 32 _ x (- k)) by lia. by apply swrap_small.
Qed.

Lemma swrap_split (p x prio : Z) : swrap 32 (swrap 32 (p - x) - swrap 32 (p - prio)) = swrap 32 (prio - x).
Proof.
  destruct (swrap_mod 32 (p - x)) as [k ->]; [done|]. destruct (swrap_mod 32 (p - prio)) as [j ->]; [done|].
  apply (swrap_congr 32 _ _ (k - j)); lia.
Qed.

Lemma swrap_join (l x y : Z) : swrap 32 (swrap 32 (x - y) + swrap 32 (l - x)) = swrap 32 (l - y).
Proof.
  destruct (swrap_mod 32 (x - y)) as [k ->]; [done|]. destruct (swrap_mod 32 (l - x)) as [j ->]; [done|].
  apply (swrap_congr 32 _ _ (k + j)); lia.
Qed.

Lemma swrap_int (x : Z) : in_int x -> swrap 32 x = x.
Proof. intros Hx. by apply swrap_small. Qed.

Lemma deltas_agree p Q m m' : (forall c, c ∈ Q.*1 -> m' !! c = m !! c) -> deltas p Q m -> deltas p Q m'.
Proof.
  revert p. induction Q as [|[c x] Q IH]; intros p Ha; [done|]. cbn in *. intros (Hp & Hc & Hd). rewrite Ha by set_solver.
  split_and!; [done|done|]. apply IH; [set_solver|done].
Qed.

Lemma last_prio_cons p c (x : Z) Q : last_prio p ((c, x) :: Q) = last_prio x Q.
Proof. apply list_last_cons. Qed.

Lemma deltas_app p Q R m : deltas p (Q ++ R) m <-> deltas p Q m /\ deltas (last_prio p Q) R m.
Proof.
  revert p. induction Q as [|[c x] Q IH]; intros p; [|cbn [app deltas]; rewrite IH, last_prio_cons; tauto].
  split; [|by intros [_ HR]]. intros HR. by split; [split; [eapply deltas_range|]|].
Qed.

(** ** Links *)

Lemma link_alone_fields h t : is_Some (h !! t) ->
  exists h', link_alone (Some t) h = Ok h' /\ same_dom h h' /\ ring h' t [].
Proof.
  intros Ht. unfold link_alone. do 2 link_write. eexists. split; [done|]. split; [by same_dom_steps|].
  apply ring_singleton; link_fields; by case_decide.
Qed.

Lemma link_before_fields h a xs t : ring h a xs -> is_Some (h !! t) -> t ∉ a :: xs ->
  exists h', link_before (Some t) (Some a) h = Ok h' /\ inserted h h' t (List.last xs a) a.
Proof.
  intros Hr Ht Hnin. unfold link_before. pose proof (ring_prev _ _ _ Hr) as Hp. pose proof (list_last_elem xs a) as Hl.
  assert (is_Some (h !! a)) by (eapply ring_mapped; [done|set_solver]).
  assert (is_Some (h !! List.last xs a)) by (eapply ring_mapped; [done|done]).
  assert (t <> a /\ t <> List.last xs a) as [? ?] by set_solver.
  rewrite (get_prev_spec _ _ _ Hp). simpl. link_write. link_write.
  rewrite (get_prev_spec _ t (List.last xs a)) by (link_fields; by repeat case_decide). simpl. link_write.
  rewrite (get_next_spec _ t a) by (link_fields; by repeat case_decide). simpl. link_write.
  eexists. split; [done|]. link_done.
Qed.

Lemma link_after_fields h a xs t : ring h a xs -> is_Some (h !! t) -> t ∉ a :: xs ->
  exists h', link_after (Some t) (Some a) h = Ok h' /\ inserted h h' t a (hd a xs).
Proof.
  intros Hr Ht Hnin. unfold link_after. pose proof (ring_next _ _ _ Hr) as Hp. pose proof (list_hd_elem xs a) as Hl.
  assert (is_Some (h !! a)) by (eapply ring_mapped; [done|set_solver]).
  assert (is_Some (h !! hd a xs)) by (eapply ring_mapped; [done|done]).
  assert (t <> a /\ t <> hd a xs) as [? ?] by set_solver.
  link_write. rewrite (get_next_spec _ a (hd a xs)) by (link_fields; done). simpl.
  link_write. rewrite (get_prev_spec _ t a) by (link_fields; by repeat case_decide). simpl.
  link_write. rewrite (get_next_spec _ t (hd a xs)) by (link_fields; by repeat case_decide). simpl.
  link_write. eexists. split; [done|]. link_done.
Qed.

Lemma unlink_fields h e x ys : ring h e (x :: ys) ->
  exists h', unlink (Some e) h = Ok h' /\ unlinked h h' (List.last ys x) x /\ nxt h' e = Some x.
Proof.
  intros Hr. unfold unlink. pose proof (ring_next _ _ _ Hr) as Hn. pose proof (ring_prev _ _ _ Hr) as Hp.
  rewrite list_last_cons in Hp. simpl in Hn. rewrite (get_prev_spec _ _ _ Hp). simpl. rewrite (get_next_spec _ _ _ Hn). simpl.
  pose proof (list_last_elem ys x) as Hl. pose proof (ring_nodup _ _ _ Hr) as [Hne _]%NoDup_cons.
  assert (x <> e /\ List.last ys x <> e) as [? ?] by set_solver.
  assert (is_Some (h !! x)) by (eapply ring_mapped; [done|set_solver]).
  assert (is_Some (h !! List.last ys x)) by (eapply ring_mapped; [done|set_solver]).
  link_write. rewrite (get_next_spec _ e x) by (link_fields; by case_decide). simpl.
  rewrite (get_prev_spec _ e (List.last ys x)) by (by link_fields). simpl.
  link_write. eexists. split; [done|]. split; [link_done|]. link_fields. by case_decide.
Qed.

(** The neighbours of any member *)
Lemma ring_nxt_at h a xs l c r : ring h a xs -> a :: xs = l ++ c :: r -> nxt h c = Some (hd a r).
Proof.
  intros Hr E. destruct l as [|a' l]; simplify_eq/=; [by apply ring_next in Hr|].
  apply ring_rotate, ring_next in Hr. by destruct r.
Qed.

Lemma ring_insert_at h h' a xs l c r t : ring h a xs -> a :: xs = l ++ c :: r -> t ∉ a :: xs ->
  inserted h h' t c (hd a r) -> exists ys, ring h' a ys /\ a :: ys = l ++ c :: t :: r.
Proof.
  intros Hr E Ht Hi. destruct l as [|a' l]; simplify_eq/=.
  - eexists. split; [|done]. by eapply ring_insert_after.
  - exists (l ++ c :: t :: r). split; [|done]. apply ring_rotate. apply ring_rotate in Hr. simpl.
    eapply ring_insert_after; [done|set_solver|]. by destruct r.
Qed.

(** ** Symbolic execution *)

Lemma q_next_run s c n : nxt (q_links s) c = Some n -> q_next (Some c) s = Ok (Some n, s).
Proof. intros E. unfold q_next. by rewrite (get_next_spec _ _ _ E). Qed.
Lemma q_prev_run s c n : prv (q_links s) c = Some n -> q_prev (Some c) s = Ok (Some n, s).
Proof. intros E. unfold q_prev. by rewrite (get_prev_spec _ _ _ E). Qed.
Lemma q_prio_run s c p : q_prios s !! c = Some p -> q_prio (Some c) s = Ok (p, s).
Proof. intros E. unfold q_prio. cbn. by rewrite E. Qed.
Lemma put_q_prio_run s c v : is_Some (q_prios s !! c) -> put_q_prio (Some c) v s = Ok (tt, set_q_prios (<[c := v]> (q_prios s)) s).
Proof. intros [p E]. unfold put_q_prio. by rewrite E. Qed.
Lemma on_links_run s f h' : f (q_links s) = Ok h' -> on_links f s = Ok (tt, set_q_links h' s).
Proof. intros E. unfold on_links. by rewrite E. Qed.

(** ** Insertion *)

Lemma holds_at s a p0 Q l c p R : holds s ((a, p0) :: Q) -> (a, p0) :: Q = l ++ (c, p) :: R ->
  nxt (q_links s) c = Some (hd a R.*1) /\ deltas p R (q_prios s).
Proof.
  intros (_ & _ & Hr & _ & Hd) E. split.
  - apply (ring_nxt_at _ _ Q.*1 l.*1 _ _ Hr). change (a :: Q.*1) with ((a, p0) :: Q).*1. by rewrite E, fmap_app.
  - destruct l as [|[a' p'] l]; simplify_eq/=; [done|]. by apply deltas_app in Hd as (_ & _ & _ & Hd).
Qed.

(** The loop stops before the first thread of a lower priority. *)
Lemma insert_scan_spec prio t s a p0 Q l R c p fuel : holds s ((a, p0) :: Q) -> (a, p0) :: Q = l ++ (c, p) :: R -> (length R < fuel)%nat ->
  exists R1 R2, R = R1 ++ R2 /\ prio_insert prio t R = R1 ++ (t, prio) :: R2 /\
    insert_scan fuel prio (Some c) p s = Ok ((Some (List.last R1.*1 c), last_prio p R1), s).
Proof.
  intros Hs. revert l c p fuel. induction R as [|[n x] R IH]; intros l c p [|fuel] E Hf; [by inversion Hf| |by inversion Hf|];
    destruct (holds_at _ _ _ _ _ _ _ _ Hs E) as [Hn Hd]; cbn [insert_scan]; rewrite (bind_run _ _ _ _ _ (q_next_run _ _ _ Hn)); cbn [fmap list_fmap hd fst].
  - destruct Hs as (_ & Hh & _ & Hp & _). rewrite (bind_run _ _ _ _ _ (q_prio_run _ _ _ Hp)), (bind_run get _ _ _ _ eq_refl), Hh.
    rewrite (bool_decide_eq_true_2 (Some a = Some a)), andb_false_r by done. by exists [], [].
  - destruct Hd as (_ & Hx & Hd). pose proof (deltas_range _ _ _ Hd) as Hxr.
    rewrite (bind_run _ _ _ _ _ (q_prio_run _ _ _ Hx)), (bind_run get _ _ _ _ eq_refl). pose proof Hs as (_ & -> & Hr & _).
    assert (n <> a) as Hna.
    { apply ring_nodup in Hr. change (a :: Q.*1) with ((a, p0) :: Q).*1 in Hr. rewrite E, fmap_app in Hr. destruct l as [|[a' p'] l]; simplify_eq/=.
      - apply NoDup_cons in Hr as [Hr _]. set_solver.
      - apply NoDup_cons in Hr as [Hr _]. set_solver. }
    rewrite (bool_decide_eq_false_2 (Some n = Some a)) by congruence. cbn [negb]. rewrite andb_true_r. cbn [prio_insert].
    rewrite swrap_back by done. destruct (decide (x < prio)).
    + rewrite (bool_decide_eq_true_2 (x < prio)), (bool_decide_eq_false_2 (x >= prio)) by lia. by exists [], ((n, x) :: R).
    + rewrite (bool_decide_eq_false_2 (x < prio)), (bool_decide_eq_true_2 (x >= prio)) by lia. rewrite (bind_run _ _ _ _ _ (q_prio_run _ _ _ Hx)).
      rewrite swrap_back by done. destruct (IH (l ++ [(c, p)]) n x fuel) as (R1 & R2 & -> & -> & ->); [by rewrite <- app_assoc|cbn in Hf; lia|].
      exists ((n, x) :: R1), R2. split; [done|]. split; [done|]. rewrite last_prio_cons. cbn [fmap list_fmap fst]. by rewrite list_last_cons.
Qed.

Lemma same_threads_refl s : same_threads s s.
Proof. done. Qed.
Lemma same_threads_trans s1 s2 s3 : same_threads s1 s2 -> same_threads s2 s3 -> same_threads s1 s3.
Proof. unfold same_threads. intros H1 H2 t. by rewrite H1, H2. Qed.
Lemma same_threads_links s h' : same_dom (q_links s) h' -> same_threads s (set_q_links h' s).
Proof. intros Hd t. unfold mapped; cbn. by rewrite (Hd t). Qed.
Lemma same_threads_prio s c v : is_Some (q_prios s !! c) -> same_threads s (set_q_prios (<[c := v]> (q_prios s)) s).
Proof. intros Hc t. unfold mapped; cbn. rewrite lookup_insert. case_decide; subst; naive_solver. Qed.

(** One more thread can be counted. *)
Definition room Q : Prop := in_int (Z.of_nat (S (length Q))).

Lemma counts_more s Q s' R : counts s Q -> room Q -> length R = S (length Q) -> q_num s' = q_num s ->
  counts (set_q_num (swrap 32 (q_num s' + 1)) s') R.
Proof.
  intros [Hn _] Hr E En. unfold counts, room in *. rewrite E. split; [|done]. cbn. rewrite En, Hn, swrap_int; [lia|].
  by replace (Z.of_nat (length Q) + 1) with (Z.of_nat (S (length Q))) by lia.
Qed.

Lemma counts_less s Q s' R : counts s Q -> length Q = S (length R) -> q_num s' = q_num s ->
  counts (set_q_num (swrap 32 (q_num s' - 1)) s') R.
Proof.
  unfold counts, in_int. intros [Hn Hi] E En. rewrite E in *. cbn. rewrite En, Hn, swrap_int by (unfold in_int; lia). split; lia.
Qed.

(** The first thread *)
Lemma insert_first prio t s : in_int prio -> mapped s t -> q_num s = 0 ->
  exists s', (on_links (link_alone (Some t));; put_q_prio (Some t) prio;; modify (set_q_head (Some t))) s = Ok (tt, s') /\
    holds (set_q_num (swrap 32 (q_num s' + 1)) s') [(t, prio)] /\ same_threads s s'.
Proof.
  intros Hpr [Ht Hp] Hn. destruct (link_alone_fields _ _ Ht) as (h' & E & Hd & Hr). rewrite (bind_run _ _ _ _ _ (on_links_run _ _ _ E)).
  rewrite (bind_run _ _ _ _ _ (put_q_prio_run (set_q_links h' s) t prio Hp)). eexists. split; [done|]. split.
  - split; [split; [cbn; by rewrite Hn|done]|]. cbn. by rewrite lookup_insert_eq.
  - eapply same_threads_trans; [by apply same_threads_links|]. by apply (same_threads_prio (set_q_links h' s)).
Qed.

(** A thread before all others *)
Lemma insert_front prio t s a p0 Q : in_int prio -> room ((a, p0) :: Q) -> holds s ((a, p0) :: Q) -> mapped s t -> t ∉ a :: Q.*1 ->
  exists s', (on_links (link_before (Some t) (q_head s));; put_q_prio (Some t) prio;;
      n ← q_next (Some t); d ← q_prio n; put_q_prio n (swrap 32 (prio - d));; modify (set_q_head (Some t))) s = Ok (tt, s') /\
    holds (set_q_num (swrap 32 (q_num s' + 1)) s') ((t, prio) :: (a, p0) :: Q) /\ same_threads s s'.
Proof.
  intros Hpr Hroom (Hn & -> & Hr & Ha & Hd) [Ht Hp] Hnin. destruct (link_before_fields _ _ _ _ Hr Ht Hnin) as (h' & E & Hi).
  rewrite (bind_run _ _ _ _ _ (on_links_run _ _ _ E)), (bind_run _ _ _ _ _ (put_q_prio_run (set_q_links h' s) t prio Hp)).
  assert (ring h' a (Q.*1 ++ [t])) as Hr' by by eapply ring_insert_before.
  apply (ring_rotate h' a Q.*1 t []) in Hr'. cbn [app] in Hr'.
  set (s1 := set_q_prios _ _). assert (t <> a) by set_solver.
  assert (q_prios s1 !! a = Some p0) as Ha1 by (cbn; by rewrite lookup_insert_ne).
  rewrite (bind_run _ _ _ _ _ (q_next_run s1 t a (ring_next _ _ _ Hr'))), (bind_run _ _ _ _ _ (q_prio_run s1 a p0 Ha1)).
  rewrite (bind_run _ _ _ _ _ (put_q_prio_run s1 a (swrap 32 (prio - p0)) (ex_intro _ _ Ha1))). eexists. split; [done|]. split.
  - split; [by eapply counts_more|]. cbn. split; [done|]. split; [done|]. rewrite lookup_insert_ne, !lookup_insert_eq by done. split; [done|]. split; [done|].
    split; [done|]. eapply deltas_agree; [|exact Hd]. intros c Hc. apply ring_nodup, NoDup_cons in Hr as [Hna _]. rewrite !lookup_insert_ne by set_solver. done.
  - eapply same_threads_trans; [apply same_threads_links, Hi|]. eapply same_threads_trans; [by apply (same_threads_prio (set_q_links h' s))|].
    by apply same_threads_prio.
Qed.

(** What has to be checked when [t] is put behind [c]: the differences from there on *)
Lemma deltas_behind p0 a Q l c p R t prio m m' : (a, p0) :: Q = l ++ (c, p) :: R -> NoDup (a :: Q.*1) -> m !! a = Some p0 -> deltas p0 Q m ->
  (forall b, b ∈ l.*1 ++ [c] -> m' !! b = m !! b) -> deltas p ((t, prio) :: R) m' ->
  m' !! a = Some p0 /\ exists Q', l ++ (c, p) :: (t, prio) :: R = (a, p0) :: Q' /\ deltas p0 Q' m'.
Proof.
  intros E Hnd Ha Hd Hm Hnew. destruct l as [|[a' p'] l]; simplify_eq/=.
  - split; [rewrite Hm by set_solver; done|]. by exists ((t, prio) :: R).
  - split; [rewrite Hm by set_solver; done|]. eexists. split; [done|]. apply deltas_app in Hd as (Hd1 & Hr2 & Hd2 & _). apply deltas_app. split; [|split; [|split; [|done]]].
    + eapply deltas_agree; [|exact Hd1]. intros b Hb. apply Hm. set_solver.
    + done.
    + rewrite Hm by set_solver. done.
Qed.

(** A thread behind another one *)
Lemma insert_behind prio t s a p0 Q l c p R : in_int prio -> room ((a, p0) :: Q) -> holds s ((a, p0) :: Q) -> (a, p0) :: Q = l ++ (c, p) :: R -> mapped s t -> t ∉ a :: Q.*1 ->
  exists s', (on_links (link_after (Some t) (Some c));; put_q_prio (Some t) (swrap 32 (p - prio));;
      n ← q_next (Some t);
      (if negb (bool_decide (n = q_head s)) then d ← q_prio n; e ← q_prio (Some t); put_q_prio n (swrap 32 (d - e)) else mret tt)) s = Ok (tt, s') /\
    holds (set_q_num (swrap 32 (q_num s' + 1)) s') (l ++ (c, p) :: (t, prio) :: R) /\ same_threads s s'.
Proof.
  intros Hpr Hroom Hs E [Ht Hpt] Hnin. destruct (holds_at _ _ _ _ _ _ _ _ Hs E) as [Hc Hd]. destruct Hs as (Hn & Hh & Hr & Ha & Hdq). rewrite Hh.
  assert (a :: Q.*1 = l.*1 ++ c :: R.*1) as E1 by (change (a :: Q.*1) with ((a, p0) :: Q).*1; by rewrite E, fmap_app).
  assert (t <> c /\ t ∉ R.*1) as [Htc HtR] by (rewrite E1 in Hnin; set_solver).
  assert (exists h', link_after (Some t) (Some c) (q_links s) = Ok h' /\ inserted (q_links s) h' t c (hd a R.*1)) as (h' & El & Hi).
  { destruct l as [|[a' p'] l]; simplify_eq/=.
    - by apply link_after_fields.
    - rewrite fmap_app in *. cbn [fmap list_fmap fst] in *. apply ring_rotate in Hr. destruct (link_after_fields _ _ _ _ Hr Ht) as (h' & ? & Hi); [set_solver|].
      exists h'. split; [done|]. by destruct R as [|[]]. }
  destruct (ring_insert_at _ _ _ _ _ _ _ _ Hr E1 Hnin Hi) as (ys & Hr' & E2).
  assert (NoDup (a :: Q.*1)) as Hnd by by eapply ring_nodup.
  rewrite (bind_run _ _ _ _ _ (on_links_run _ _ _ El)), (bind_run _ _ _ _ _ (put_q_prio_run (set_q_links h' s) t (swrap 32 (p - prio)) Hpt)).
  set (s1 := set_q_prios _ _).
  assert (nxt (q_links s1) t = Some (hd a R.*1)) as Htn.
  { apply (ring_nxt_at _ _ _ (l.*1 ++ [c]) _ _ Hr'). by rewrite <- app_assoc. }
  rewrite (bind_run _ _ _ _ _ (q_next_run s1 t _ Htn)).
  assert (same_threads s s1) as Hst.
  { eapply same_threads_trans; [apply same_threads_links, Hi|]. by apply (same_threads_prio (set_q_links h' s)). }
  assert (forall b, b ∈ l.*1 ++ [c] -> q_prios s1 !! b = q_prios s !! b) as Hag.
  { intros b Hb. cbn. rewrite lookup_insert_ne; [done|]. rewrite E1 in Hnin. set_solver. }
  assert (length (l ++ (c, p) :: (t, prio) :: R) = S (length ((a, p0) :: Q))) as Hlen.
  { rewrite E, !length_app. cbn [length]. lia. }
  assert (forall m', (forall b, b ∈ l.*1 ++ [c] -> m' !! b = q_prios s !! b) -> deltas p ((t, prio) :: R) m' ->
    holds (OQueue (q_head s) (swrap 32 (q_num s + 1)) h' m') (l ++ (c, p) :: (t, prio) :: R)) as Hfin.
  { intros m' Hm Hnew. destruct (deltas_behind _ _ _ _ _ _ _ t prio _ m' E Hnd Ha Hdq Hm Hnew) as (Ha' & Q' & EQ & HdQ).
    assert (ys = Q'.*1) as ->.
    { assert (a :: ys = ((a, p0) :: Q').*1) as Ey by (rewrite <- EQ, fmap_app; exact E2). by injection Ey. }
    rewrite EQ in Hlen |- *. split; [exact (counts_more s _ (OQueue (q_head s) (q_num s) h' m') _ Hn Hroom Hlen eq_refl)|]. cbn. by rewrite Hh. }
  destruct R as [|[n x] R]; cbn [hd fmap list_fmap fst] in *.
  - rewrite (bool_decide_eq_true_2 (Some a = Some a)) by done. cbn [negb]. eexists. split; [done|]. split; [|done].
    apply Hfin; [done|]. cbn. rewrite lookup_insert_eq. destruct Hd. by split_and!.
  - assert (n <> a /\ n ∉ l.*1 ++ [c] /\ n ∉ R.*1) as (Hna & Hnl & HnR).
    { rewrite E1 in Hnd. change (c :: n :: R.*1) with ([c] ++ n :: R.*1) in Hnd. rewrite app_assoc in Hnd. apply NoDup_app in Hnd as (_ & Hdis & [HnR _]%NoDup_cons).
      assert (n ∉ l.*1 ++ [c]) as Hnl by (intros Hb; by eapply (Hdis n Hb), list_elem_of_here). split; [|done].
      intros ->. apply Hnl. destruct l; simplify_eq/=; set_solver. }
    destruct Hd as (Hpp & Hx & Hd). rewrite (bool_decide_eq_false_2 (Some n = Some a)) by congruence. cbn [negb].
    assert (t <> n) by set_solver.
    assert (q_prios s1 !! n = Some (swrap 32 (p - x))) as Hn1 by (cbn; by rewrite lookup_insert_ne).
    assert (q_prios s1 !! t = Some (swrap 32 (p - prio))) as Ht1 by (cbn; by rewrite lookup_insert_eq).
    rewrite (bind_run _ _ _ _ _ (q_prio_run s1 n _ Hn1)), (bind_run _ _ _ _ _ (q_prio_run s1 t _ Ht1)).
    rewrite (put_q_prio_run s1 n _ (ex_intro _ _ Hn1)). eexists. split; [done|]. split.
    + apply Hfin.
      * intros b Hb. cbn. rewrite lookup_insert_ne by set_solver. by apply Hag.
      * cbn. rewrite lookup_insert_ne, lookup_insert_eq by done. split; [done|]. split; [done|]. split; [done|]. rewrite lookup_insert_eq. split; [f_equal; apply swrap_split|].
        eapply deltas_agree; [|exact Hd]. intros b Hb. rewrite !lookup_insert_ne by set_solver. done.
    + eapply same_threads_trans; [exact Hst|]. by apply same_threads_prio.
Qed.

Lemma prio_insert_last_split p0 a R1 : exists l, (a, p0) :: R1 = l ++ [(List.last R1.*1 a, last_prio p0 R1)].
Proof.
  unfold last_prio. destruct R1 as [|[c x] R1 _] using rev_ind; [by exists []|]. exists ((a, p0) :: R1). rewrite !fmap_app. cbn [fmap list_fmap fst snd].
  by rewrite !List.last_last.
Qed.

Lemma holds_nonempty s a p0 Q : holds s ((a, p0) :: Q) -> bool_decide (q_head s = None) || bool_decide (q_num s = 0) = false.
Proof. intros ([Hn _] & Hh & _). rewrite Hh, Hn, !bool_decide_eq_false_2; done. Qed.

Lemma pth_pqueue_insert_spec fuel prio t s Q : in_int prio -> room Q -> holds s Q -> mapped s t -> t ∉ Q.*1 -> (length Q <= fuel)%nat ->
  exists s', pth_pqueue_insert fuel true prio (Some t) s = Ok (tt, s') /\ holds s' (prio_insert prio t Q) /\ same_threads s s'.
Proof.
  intros Hpr Hroom Hs Hm Hnin Hf. unfold pth_pqueue_insert. cbn [negb]. rewrite (bind_run get _ _ _ _ eq_refl). destruct Q as [|[a p0] Q].
  - pose proof Hs as [Hn Hh]. rewrite Hh. cbn [bool_decide orb]. destruct (insert_first prio t s Hpr Hm (proj1 Hn)) as (s' & E & Hs' & Hst).
    rewrite bool_decide_eq_true_2 by done. cbn [orb]. rewrite (bind_run _ _ _ _ _ E). by eexists.
  - rewrite (holds_nonempty _ _ _ _ Hs). pose proof Hs as (_ & Hh & _ & Ha & _). cbn [prio_insert]. destruct (decide (p0 < prio)) as [Hp|Hp].
    + rewrite (bool_decide_eq_true_2 _ Hp). destruct (insert_front prio t s a p0 Q Hpr Hroom Hs Hm Hnin) as (s' & E & Hs' & Hst).
      rewrite (bind_run _ _ s tt s'); [by eexists|]. rewrite Hh at 1. rewrite (bind_run _ _ _ _ _ (q_prio_run s a p0 Ha)), bool_decide_eq_true_2 by done. exact E.
    + rewrite (bool_decide_eq_false_2 _ Hp). cbn in Hf.
      destruct (insert_scan_spec prio t s a p0 Q [] Q a p0 fuel Hs eq_refl ltac:(lia)) as (R1 & R2 & -> & -> & Esc).
      destruct (prio_insert_last_split p0 a R1) as [l El].
      destruct (insert_behind prio t s a p0 (R1 ++ R2) l (List.last R1.*1 a) (last_prio p0 R1) R2 Hpr Hroom Hs) as (s' & E & Hs' & Hst); [|done..|].
      { rewrite app_comm_cons, El, <- app_assoc. done. }
      rewrite (bind_run _ _ s tt s').
      * eexists. split; [done|]. split; [|done]. rewrite app_comm_cons, El, <- app_assoc. exact Hs'.
      * rewrite Hh at 1. rewrite (bind_run _ _ _ _ _ (q_prio_run s a p0 Ha)), bool_decide_eq_false_2 by done. rewrite Hh at 1.
        rewrite (bind_run _ _ _ _ _ Esc). exact E.
Qed.

(** ** Removal *)

Lemma remove_last_spec s t p : holds s [(t, p)] -> exists s', remove_last (Some t) s = Ok (tt, s') /\ holds s' [] /\ same_threads s s'.
Proof.
  intros (_ & _ & Hr & Hp & _). unfold remove_last.
  assert (is_Some (q_links s !! t)) as Ht by (eapply ring_mapped; [exact Hr|set_solver]).
  destruct (set_next_spec (q_links s) t None Ht) as (h1 & E1 & Hd1 & _). destruct (set_prev_spec h1 t None (proj2 (Hd1 t) Ht)) as (h2 & E2 & Hd2 & _).
  rewrite (bind_run _ _ _ _ _ (on_links_run s _ _ E1)), (bind_run _ _ _ _ _ (on_links_run (set_q_links h1 s) _ _ E2)).
  rewrite (bind_run _ _ _ _ _ (put_q_prio_run (set_q_links h2 (set_q_links h1 s)) t 0 (ex_intro _ _ Hp))). eexists. split; [done|]. split; [done|].
  eapply same_threads_trans; [apply (same_threads_links s h2), (same_dom_trans _ _ _ Hd1 Hd2)|].
  apply (same_threads_prio (set_q_links h2 (set_q_links h1 s)) t 0). by eexists.
Qed.

Lemma remove_head_spec s t p n (x : Z) Q : holds s ((t, p) :: (n, x) :: Q) ->
  exists s', remove_head (Some t) s = Ok (tt, s') /\ holds s' ((n, x) :: Q) /\ same_threads s s'.
Proof.
  intros (Hn & _ & Hr & Hp & _ & Hx & Hd). cbn [fmap list_fmap fst] in Hr. unfold remove_head.
  destruct (unlink_fields _ _ _ _ Hr) as (h' & E & Hu & Hnx). assert (ring h' n Q.*1) as Hr' by by eapply ring_unlink.
  apply ring_nodup in Hr. apply NoDup_cons in Hr as [Ht [HnQ _]%NoDup_cons]. assert (t <> n) by set_solver.
  rewrite (bind_run _ _ _ _ _ (on_links_run s _ _ E)). set (s1 := set_q_links h' s).
  rewrite (bind_run _ _ _ _ _ (q_next_run s1 t n Hnx)), (bind_run _ _ _ _ _ (q_prio_run s1 t p Hp)), (bind_run _ _ _ _ _ (q_prio_run s1 n _ Hx)).
  rewrite (bind_run _ _ _ _ _ (put_q_prio_run s1 n _ (ex_intro _ _ Hx))). set (s2 := set_q_prios _ s1).
  assert (q_prios s2 !! t = Some p) as Hp2 by (cbn; by rewrite lookup_insert_ne).
  rewrite (bind_run _ _ _ _ _ (put_q_prio_run s2 t 0 (ex_intro _ _ Hp2))). set (s3 := set_q_prios _ s2).
  rewrite (bind_run _ _ _ _ _ (q_next_run s3 t n Hnx)). eexists. split; [done|]. split.
  - split; [by eapply counts_less|]. split; [done|]. split; [done|]. cbn. rewrite lookup_insert_ne, lookup_insert_eq by done.
    split; [f_equal; eapply swrap_back, deltas_range, Hd|]. eapply deltas_agree; [|exact Hd]. intros b Hb. rewrite !lookup_insert_ne by set_solver. done.
  - eapply same_threads_trans; [apply (same_threads_links s h'), Hu|]. eapply same_threads_trans; [by apply (same_threads_prio s1 n)|].
    by apply (same_threads_prio s2 t 0).
Qed.

Lemma holds_next_head s a p Q : holds s ((a, p) :: Q) -> q_next (Some a) s = Ok (Some (hd a Q.*1), s).
Proof. intros (_ & _ & Hr & _). apply q_next_run, (ring_next _ _ _ Hr). Qed.

Lemma holds_nodup s Q : holds s Q -> NoDup Q.*1.
Proof. destruct Q as [|[a p] Q]; [constructor|]. intros (_ & _ & Hr & _). by apply ring_nodup in Hr. Qed.

Lemma pth_pqueue_delmax_spec s Q : holds s Q ->
  exists s', pth_pqueue_delmax true s = Ok (head Q.*1, s') /\ holds s' (tail Q) /\ same_threads s s'.
Proof.
  intros Hs. unfold pth_pqueue_delmax. cbn [negb]. rewrite (bind_run get _ _ _ _ eq_refl). destruct Q as [|[a p] Q].
  - pose proof Hs as [_ ->]. rewrite bool_decide_eq_true_2 by done. by eexists.
  - pose proof Hs as (_ & -> & _). rewrite bool_decide_eq_false_2 by done. cbv zeta. rewrite (bind_run _ _ _ _ _ (holds_next_head _ _ _ _ Hs)).
    pose proof (holds_nodup _ _ Hs) as Hnd. destruct Q as [|[n x] Q]; cbn [fmap list_fmap fst hd head tail] in *.
    + rewrite bool_decide_eq_true_2 by done. destruct (remove_last_spec _ _ _ Hs) as (s' & E & ?). rewrite (bind_run _ _ _ _ _ E). by eexists.
    + apply NoDup_cons in Hnd as [Hna _]. rewrite (bool_decide_eq_false_2 (Some n = Some a)) by (intros [= ->]; set_solver).
      destruct (remove_head_spec _ _ _ _ _ _ Hs) as (s' & E & ?). rewrite (bind_run _ _ _ _ _ E). by eexists.
Qed.

(** The links when a thread that is not the first leaves *)
Lemma unlink_middle h a l t r : ring h a (l ++ t :: r) ->
  exists h', unlink (Some t) h = Ok h' /\ unlinked h h' (List.last l a) (hd a r) /\ nxt h' t = Some (hd a r).
Proof.
  intros Hr. apply ring_rotate in Hr. destruct r as [|n r]; cbn [app hd] in *.
  - by apply unlink_fields.
  - destruct (unlink_fields _ _ _ _ Hr) as (h' & E & Hu & Hn). exists h'. by rewrite list_last_app_cons in Hu.
Qed.

(** The differences when a thread leaves: the one behind it takes over its own *)
Lemma deltas_without p0 l t (x : Z) R m m' : NoDup (l ++ (t, x) :: R).*1 -> deltas p0 (l ++ (t, x) :: R) m ->
  (forall b, b <> t -> b ∉ (take 1 R).*1 -> m' !! b = m !! b) ->
  match R with [] => True | (n, y) :: _ => m' !! n = Some (swrap 32 (last_prio p0 l - y)) end -> deltas p0 (l ++ R) m'.
Proof.
  intros Hnd Hd Hm Hn. rewrite fmap_app in Hnd. cbn [fmap list_fmap fst] in Hnd. apply NoDup_app in Hnd as (_ & Hdis & [HtR HR]%NoDup_cons).
  apply deltas_app in Hd as (Hd1 & Hdr & _ & Hd2). apply deltas_app. split.
  - eapply deltas_agree; [|exact Hd1]. intros b Hb. specialize (Hdis b Hb). apply Hm; [set_solver|]. destruct R; set_solver.
  - destruct R as [|[n y] R]; [done|]. cbn [fmap list_fmap fst take] in *. destruct Hd2 as (_ & _ & Hd2). apply NoDup_cons in HR as [HnR _].
    split; [done|]. split; [done|]. eapply deltas_agree; [|exact Hd2]. intros b Hb. apply Hm; set_solver.
Qed.

Lemma delete_middle s a p0 l t (x : Z) R : holds s ((a, p0) :: l ++ (t, x) :: R) ->
  exists s', pth_pqueue_delete true (Some t) s = Ok (tt, s') /\ holds s' ((a, p0) :: l ++ R) /\ same_threads s s'.
Proof.
  intros Hs. pose proof (holds_nodup _ _ Hs) as Hnd. pose proof Hs as (Hn & Hh & Hr & Ha & Hd). cbn [fmap list_fmap fst] in Hnd. apply NoDup_cons in Hnd as [HaQ Hnd].
  pose proof Hr as Hr0. rewrite fmap_app in Hr0. cbn [fmap list_fmap fst] in Hr0. destruct (unlink_middle _ _ _ _ _ Hr0) as (h' & E & Hu & Hnx).
  assert (t <> a) as Hta by (rewrite fmap_app in HaQ; set_solver).
  pose proof (proj1 (deltas_app _ _ _ _) Hd) as (_ & _ & Ht & HdR).
  unfold pth_pqueue_delete. cbn [negb]. rewrite (bind_run get _ _ _ _ eq_refl), Hh, bool_decide_eq_false_2 by done.
  rewrite (bool_decide_eq_false_2 (Some a = Some t)) by congruence. rewrite (bind_run _ _ _ _ _ (on_links_run s _ _ E)). set (s1 := set_q_links h' s).
  rewrite (bind_run _ _ _ _ _ (q_next_run s1 t _ Hnx)).
  assert (forall s2, (if negb (bool_decide (Some (hd a R.*1) = Some a)) then
        d ← q_prio (Some (hd a R.*1)); e ← q_prio (Some t); put_q_prio (Some (hd a R.*1)) (swrap 32 (d + e)) else mret tt) s1 = Ok (tt, s2) ->
      q_links s2 = h' /\ q_num s2 = q_num s /\ q_head s2 = Some a -> q_prios s2 !! a = Some p0 -> is_Some (q_prios s2 !! t) -> same_threads s1 s2 ->
      deltas p0 (l ++ R) (<[t := 0]> (q_prios s2)) ->
      exists s', ((if negb (bool_decide (Some (hd a R.*1) = Some a)) then
        d ← q_prio (Some (hd a R.*1)); e ← q_prio (Some t); put_q_prio (Some (hd a R.*1)) (swrap 32 (d + e)) else mret tt);;
        put_q_prio (Some t) 0;; modify (fun s => set_q_num (swrap 32 (q_num s - 1)) s)) s1 = Ok (tt, s') /\ holds s' ((a, p0) :: l ++ R) /\ same_threads s s') as Hfin.
  { intros s2 E2 (Hl2 & Hn2 & Hh2) Ha2 Ht2 Hst Hd2. rewrite (bind_run _ _ _ _ _ E2), (bind_run _ _ _ _ _ (put_q_prio_run s2 t 0 Ht2)). eexists. split; [done|]. split.
    - split; [eapply counts_less; [exact Hn|cbn [length]; rewrite !length_app; cbn [length]; lia|exact Hn2]|]. split; [done|]. cbn. rewrite Hl2, lookup_insert_ne by done.
      split; [|done]. rewrite fmap_app. by eapply ring_remove.
    - eapply same_threads_trans; [apply (same_threads_links s h'), Hu|]. eapply same_threads_trans; [exact Hst|]. by apply same_threads_prio. }
  destruct R as [|[n y] R]; cbn [fmap list_fmap fst hd] in *.
  - apply (Hfin s1); [by rewrite bool_decide_eq_true_2|done|done|by eexists|done|].
    eapply deltas_without; [exact Hnd|exact Hd| |done]. intros b Hb _. by rewrite lookup_insert_ne.
  - destruct HdR as (_ & Hny & _).
    assert (n <> a /\ n <> t) as [Hna Hnt].
    { rewrite fmap_app in HaQ, Hnd. cbn [fmap list_fmap fst] in HaQ, Hnd. split; [set_solver|]. apply NoDup_app in Hnd as (_ & _ & [Hx _]%NoDup_cons). set_solver. }
    apply (Hfin (set_q_prios (<[n := swrap 32 (swrap 32 (x - y) + swrap 32 (last_prio p0 l - x))]> (q_prios s1)) s1)).
    + rewrite (bool_decide_eq_false_2 (Some n = Some a)) by congruence. cbn [negb].
      rewrite (bind_run _ _ _ _ _ (q_prio_run s1 n _ Hny)), (bind_run _ _ _ _ _ (q_prio_run s1 t _ Ht)). apply put_q_prio_run. by eexists.
    + done.
    + cbn. by rewrite lookup_insert_ne.
    + cbn. rewrite lookup_insert_ne by done. by eexists.
    + apply same_threads_prio. by eexists.
    + eapply deltas_without; [exact Hnd|exact Hd| |].
      * intros b Hb Hb2. cbn. rewrite !lookup_insert_ne by set_solver. done.
      * cbn. rewrite lookup_insert_ne, lookup_insert_eq by done. f_equal. apply swrap_join.
Qed.

Lemma remove_split l t (x : Z) R : NoDup (l ++ (t, x) :: R).*1 -> remove t (l ++ (t, x) :: R) = l ++ R.
Proof.
  rewrite fmap_app. cbn [fmap list_fmap fst]. intros (_ & Hdis & [HtR _]%NoDup_cons)%NoDup_app. unfold remove.
  assert (forall Q, t ∉ Q.*1 -> filter (fun y => y.1 <> t) Q = Q) as Hid.
  { induction Q as [|[c z] Q IH]; [done|]. cbn [fmap list_fmap fst]. intros Ht. rewrite filter_cons_True by (cbn; set_solver). f_equal. apply IH. set_solver. }
  rewrite filter_app, filter_cons_False by (cbn; tauto). rewrite !Hid; [done|done|]. intros Hl. by eapply (Hdis t Hl), list_elem_of_here.
Qed.

Lemma pth_pqueue_delete_spec s Q t : holds s Q -> t ∈ Q.*1 ->
  exists s', pth_pqueue_delete true (Some t) s = Ok (tt, s') /\ holds s' (remove t Q) /\ same_threads s s'.
Proof.
  intros Hs Hin. pose proof (holds_nodup _ _ Hs) as Hnd. apply list_elem_of_fmap in Hin as ([t' x] & -> & Hin). cbn [fst].
  apply list_elem_of_split in Hin as (l & R & ->). rewrite (remove_split _ _ _ _ Hnd). destruct l as [|[a p0] l]; [|by eapply delete_middle].
  cbn [app] in *. unfold pth_pqueue_delete. cbn [negb]. rewrite (bind_run get _ _ _ _ eq_refl). pose proof Hs as (_ & -> & _).
  rewrite bool_decide_eq_false_2, bool_decide_eq_true_2 by done. rewrite (bind_run _ _ _ _ _ (holds_next_head _ _ _ _ Hs)).
  destruct R as [|[n y] R]; cbn [fmap list_fmap fst hd] in *.
  - rewrite bool_decide_eq_true_2 by done. by eapply remove_last_spec.
  - apply NoDup_cons in Hnd as [Hna _]. rewrite (bool_decide_eq_false_2 (Some n = Some t')) by (intros [= ->]; set_solver). by eapply remove_head_spec.
Qed.

(** ** The other operations *)

(** All priorities are raised by the one write. *)
Lemma pth_pqueue_increase_spec s Q : Forall (fun y => in_int (1 + y.2)) Q -> holds s Q ->
  exists s', pth_pqueue_increase true s = Ok (tt, s') /\ holds s' (prod_map id (Z.add 1) <$> Q) /\ same_threads s s'.
Proof.
  intros Hpr Hs. unfold pth_pqueue_increase. cbn [negb]. rewrite (bind_run get _ _ _ _ eq_refl). destruct Q as [|[a p0] Q].
  { pose proof Hs as [_ ->]. rewrite bool_decide_eq_true_2 by done. by eexists. }
  pose proof (holds_nodup _ _ Hs) as [HaQ _]%NoDup_cons. destruct Hs as (Hn & Hh & Hr & Ha & Hd).
  rewrite Hh, bool_decide_eq_false_2 by done. rewrite (bind_run _ _ _ _ _ (q_prio_run s a p0 Ha)), (put_q_prio_run s a _ (ex_intro _ _ Ha)).
  eexists. split; [done|]. split; [|apply same_threads_prio; by eexists].
  apply Forall_cons in Hpr as [Hp0 Hpr]. cbn -[Z.add] in Hp0. assert ((prod_map id (Z.add 1) <$> Q).*1 = Q.*1) as E by (rewrite <- list_fmap_compose; by apply list_fmap_ext; intros ? []).
  split; [unfold counts; by rewrite length_fmap|]. cbn -[Z.add]. split; [done|]. split; [by rewrite E|]. rewrite lookup_insert_eq.
  rewrite (Z.add_comm p0), swrap_int by done. split; [done|]. apply (deltas_agree _ _ (q_prios s)).
  { intros b Hb. rewrite E in Hb. by rewrite lookup_insert_ne by set_solver. }
  clear Ha Hr Hn HaQ E. revert p0 Hp0 Hd. induction Hpr as [|[c x] Q Hx Hpr IH]; intros p0 Hp0; [done|]. cbn -[Z.add swrap]. intros (_ & -> & Hd).
  split; [done|]. split; [do 2 f_equal; lia|]. by apply IH.
Qed.

Lemma holds_tail s a p Q : holds s ((a, p) :: Q) -> prv (q_links s) a = Some (List.last Q.*1 a).
Proof. intros (_ & _ & Hr & _). by apply ring_prev. Qed.

(** A thread queued with priority 0 gets the priority of the last one. *)
Lemma Qinsert_last t s a p0 Q : room ((a, p0) :: Q) -> holds s ((a, p0) :: Q) -> mapped s t -> t ∉ a :: Q.*1 ->
  exists s', (on_links (link_after (Some t) (Some (List.last Q.*1 a)));; put_q_prio (Some t) 0) s = Ok (tt, s') /\
    holds (set_q_num (swrap 32 (q_num s' + 1)) s') (((a, p0) :: Q) ++ [(t, last_prio p0 Q)]) /\ same_threads s s'.
Proof.
  intros Hroom Hs Hm Hnin. destruct (prio_insert_last_split p0 a Q) as [l El].
  assert (in_int (last_prio p0 Q)) as Hpr.
  { destruct Hs as (_ & _ & _ & _ & Hd). apply (deltas_range _ [] (q_prios s)). rewrite <- (app_nil_r Q) in Hd. by apply deltas_app in Hd as [_ Hd]. }
  destruct (insert_behind (last_prio p0 Q) t s a p0 Q l (List.last Q.*1 a) (last_prio p0 Q) [] Hpr Hroom Hs El Hm Hnin) as (s' & E & Hs' & Hst).
  change [(List.last Q.*1 a, last_prio p0 Q); (t, last_prio p0 Q)] with ([(List.last Q.*1 a, last_prio p0 Q)] ++ [(t, last_prio p0 Q)]) in Hs'.
  rewrite app_assoc, <- El in Hs'. pose proof Hs as (_ & Hh & _).
  apply bind_inv in E as ([] & s1 & E1 & E). apply bind_inv in E as ([] & s2 & E2 & E). rewrite Z.sub_diag in E2. rewrite (bind_run _ _ _ _ _ E1).
  exists s2. split; [done|]. apply bind_inv in E as (n & s3 & E3 & E). unfold q_next in E3. destruct (get_next (q_links s2) (Some t)) as [n'|] eqn:En; simplify_eq/=.
  rewrite Hh in E. case_bool_decide as Hna; cbn [negb] in E; [by injection E as ->|].
  exfalso. assert (q_links s' = q_links s3) as El'.
  { apply bind_inv in E as (d & s4 & E4 & E). apply bind_inv in E as (e & s5 & E5 & E). unfold q_prio in E4, E5. unfold put_q_prio in E.
    destruct (n ≫= _) in E4; simplify_eq/=. destruct (q_prios s4 !! t); simplify_eq/=. destruct n as [n|]; [|done]. destruct (q_prios s5 !! n); simplify_eq/=. done. }
  destruct (holds_at _ a p0 (Q ++ [(t, last_prio p0 Q)]) ((a, p0) :: Q) t (last_prio p0 Q) [] Hs' eq_refl) as [Hn _]. cbn in Hn. rewrite El' in Hn.
  apply get_next_spec in Hn. congruence.
Qed.

Definition prio_Qinsert (prio : Z) t Q : list (A * Z) :=
  match Q with
  | [] => [(t, prio)]
  | (_, p) :: R => if bool_decide (prio = 0) then Q ++ [(t, last_prio p R)] else prio_insert prio t Q
  end.

Lemma pth_pqueue_Qinsert_spec fuel prio t s Q : in_int prio -> room Q -> holds s Q -> mapped s t -> t ∉ Q.*1 -> (length Q <= fuel)%nat ->
  exists s', pth_pqueue_Qinsert fuel true prio (Some t) s = Ok (tt, s') /\ holds s' (prio_Qinsert prio t Q) /\ same_threads s s'.
Proof.
  intros Hpr Hroom Hs Hm Hnin Hf. unfold prio_Qinsert, pth_pqueue_Qinsert. cbn [negb]. rewrite (bind_run get _ _ _ _ eq_refl). destruct Q as [|[a p0] Q].
  { pose proof Hs as [Hn Hh]. rewrite Hh, bool_decide_eq_true_2 by done. cbn [orb].
    destruct (insert_first prio t s Hpr Hm (proj1 Hn)) as (s' & E & Hs' & Hst). apply bind_inv in E as ([] & s1 & E1 & E). apply bind_inv in E as ([] & s2 & E2 & E).
    rewrite (bind_run _ _ _ _ _ E1), (bind_run _ _ _ _ _ E2), (bind_run _ _ _ _ _ E). by eexists. }
  rewrite (holds_nonempty _ _ _ _ Hs). case_bool_decide as Hp; [|by apply pth_pqueue_insert_spec]. subst prio. pose proof Hs as (_ & -> & _).
  rewrite (bind_run _ _ _ _ _ (q_prev_run s a _ (holds_tail _ _ _ _ Hs))).
  destruct (Qinsert_last t s a p0 Q Hroom Hs Hm Hnin) as (s' & E & Hs' & Hst). apply bind_inv in E as ([] & s1 & E1 & E).
  rewrite (bind_run _ _ _ _ _ E1), (bind_run _ _ _ _ _ E). by eexists.
Qed.

(** The thread that is favored goes before all others, one above the highest of them. *)
Definition prio_favorite (t : A) Q : list (A * Z) :=
  match remove t Q with
  | [] => Q
  | (a, p) :: R => (t, p + 1) :: (a, p) :: R
  end.

Lemma remove_not_in t Q : t ∉ (remove t Q).*1.
Proof. intros ([c x] & -> & Hf)%list_elem_of_fmap. apply list_elem_of_filter in Hf as [Hc _]. done. Qed.

Lemma length_remove t Q : NoDup Q.*1 -> t ∈ Q.*1 -> length Q = S (length (remove t Q)).
Proof.
  intros Hnd Hin. apply list_elem_of_fmap in Hin as ([t' x] & -> & Hin). apply list_elem_of_split in Hin as (l & R & ->). cbn [fst].
  rewrite (remove_split _ _ _ _ Hnd), !length_app. cbn [length]. lia.
Qed.

Lemma pth_pqueue_favorite_spec fuel s Q t : Forall (fun y => in_int y.2) (prio_favorite t Q) -> holds s Q -> t ∈ Q.*1 -> mapped s t -> (length Q <= fuel)%nat ->
  exists s', pth_pqueue_favorite fuel true (Some t) s = Ok (true, s') /\ holds s' (prio_favorite t Q) /\ same_threads s s'.
Proof.
  intros Hpr Hs Hin Hm Hf. pose proof (length_remove _ _ (holds_nodup _ _ Hs) Hin) as Hl. unfold pth_pqueue_favorite, prio_favorite. cbn [negb].
  rewrite (bind_run get _ _ _ _ eq_refl). assert (bool_decide (q_head s = None) || bool_decide (q_num s = 0) = false) as ->.
  { destruct Q as [|[a p] Q]; [cbn in Hin; set_solver|]. by eapply holds_nonempty. }
  rewrite (proj1 (proj1 Hs)), Hl. destruct (remove t Q) as [|[a p] R] eqn:ER.
  { rewrite bool_decide_eq_true_2 by done. by eexists. }
  rewrite bool_decide_eq_false_2 by (cbn; lia). destruct (pth_pqueue_delete_spec s Q t Hs Hin) as (s1 & E1 & Hs1 & Hst1). rewrite (bind_run _ _ _ _ _ E1), ER in *.
  pose proof (remove_not_in t Q) as Hnin. rewrite ER in Hnin.
  unfold prio_favorite in Hpr. rewrite ER in Hpr. apply Forall_cons in Hpr as [Hp1 _]. cbn in Hp1.
  assert (room ((a, p) :: R)) as Hroom by (destruct Hs as [[_ Hi] _]; by rewrite Hl in Hi).
  rewrite (bind_run _ _ s1 (p + 1) s1).
  2:{ unfold pth_pqueue_favorite_prio. rewrite (bind_run get _ _ _ _ eq_refl). destruct Hs1 as (_ & -> & _ & Hp & _).
      rewrite bool_decide_eq_true_2 by done. by rewrite (bind_run _ _ _ _ _ (q_prio_run s1 a p Hp)), swrap_int. }
  destruct (pth_pqueue_insert_spec fuel (p + 1) t s1 _ Hp1 Hroom Hs1) as (s2 & E2 & Hs2 & Hst2); [by apply Hst1|done|cbn in Hl |- *; lia|].
  rewrite (bind_run _ _ _ _ _ E2). eexists. split; [done|]. cbn [prio_insert] in Hs2. rewrite bool_decide_eq_true_2 in Hs2 by lia. split; [done|].
  by eapply same_threads_trans.
Qed.

Lemma pth_pqueue_walk_next s a p0 Q l c p R : holds s ((a, p0) :: Q) -> (a, p0) :: Q = l ++ (c, p) :: R ->
  pth_pqueue_walk true (Some c) PTH_WALK_NEXT s = Ok (head R.*1, s).
Proof.
  intros Hs E. unfold pth_pqueue_walk. cbn [negb orb]. rewrite bool_decide_eq_false_2, (bind_run get _ _ _ _ eq_refl) by done.
  destruct (holds_at _ _ _ _ _ _ _ _ Hs E) as [Hn _]. rewrite (bind_run _ _ _ _ _ (q_next_run _ _ _ Hn)). pose proof Hs as (_ & -> & _).
  destruct R as [|[n x] R]; cbn [fmap list_fmap fst hd head]; [by rewrite bool_decide_eq_true_2|].
  pose proof (holds_nodup _ _ Hs) as Hnd. rewrite bool_decide_eq_false_2; [done|]. intros [= ->]. rewrite E, fmap_app in Hnd.
  destruct l as [|[a' p'] l]; simplify_eq/=; apply NoDup_cons in Hnd as [Hnd _]; set_solver.
Qed.

Lemma pth_pqueue_contains_spec s Q t fuel : holds s Q -> (length Q < fuel)%nat ->
  pth_pqueue_contains fuel true (Some t) s = Ok (bool_decide (t ∈ Q.*1), s).
Proof.
  intros Hs Hf. unfold pth_pqueue_contains, pth_pqueue_head. assert (q_head s = head Q.*1) as Hh by (destruct Q as [|[] ?]; apply Hs).
  rewrite (bind_run _ _ s (head Q.*1) s) by by rewrite (bind_run get _ _ _ _ eq_refl), Hh. clear Hh.
  assert (forall R l, Q = l ++ R -> (length R < fuel)%nat -> contains_scan fuel true (head R.*1) (Some t) s = Ok (bool_decide (t ∈ R.*1), s)) as Hscan; [|by apply (Hscan Q [])].
  clear Hf. induction fuel as [|fuel IH]; intros R l E Hf; [lia|]. cbn [contains_scan]. destruct R as [|[c p] R]; cbn [fmap list_fmap fst head].
  { rewrite bool_decide_eq_true_2, (bool_decide_eq_false_2 (t ∈ [])) by (done || set_solver). done. }
  rewrite bool_decide_eq_false_2 by done. destruct (decide (c = t)) as [->|Hc].
  { rewrite !bool_decide_eq_true_2 by (done || set_solver). done. }
  rewrite (bool_decide_eq_false_2 (Some c = Some t)) by congruence.
  assert (exists a p0 Q', Q = (a, p0) :: Q') as (a & p0 & Q' & EQ) by (destruct l as [|[] ?]; subst; eauto).
  rewrite EQ in Hs. rewrite (bind_run _ _ _ _ _ (pth_pqueue_walk_next s a p0 Q' l c p R Hs ltac:(by rewrite <- EQ))).
  rewrite (IH R (l ++ [(c, p)])) by first [by rewrite <- app_assoc | cbn in Hf; lia]. do 2 f_equal. apply bool_decide_ext. set_solver.
Qed.

(** ** Sequences of operations *)

Inductive pq_op : Type :=
  | OpInsert (prio : Z) (t : A) | OpQinsert (prio : Z) (t : A) | OpDelmax | OpDelete (t : A) | OpFavorite (t : A) | OpIncrease
  | OpContains (t : A) | OpElements.
Inductive pq_ret : Type := RUnit | RThread (t : option A) | RBool (b : bool) | RNum (n : Z).

Definition exec (fuel : nat) (op : pq_op) : P pq_ret :=
  match op with
  | OpInsert prio t => pth_pqueue_insert fuel true prio (Some t);; mret RUnit
  | OpQinsert prio t => pth_pqueue_Qinsert fuel true prio (Some t);; mret RUnit
  | OpDelmax => t ← pth_pqueue_delmax true; mret (RThread t)
  | OpDelete t => pth_pqueue_delete true (Some t);; mret RUnit
  | OpFavorite t => b ← pth_pqueue_favorite fuel true (Some t); mret (RBool b)
  | OpIncrease => pth_pqueue_increase true;; mret RUnit
  | OpContains t => b ← pth_pqueue_contains fuel true (Some t); mret (RBool b)
  | OpElements => n ← pth_pqueue_elements true; mret (RNum n)
  end.
Fixpoint exec_all (fuel : nat) (ops : list pq_op) : P (list pq_ret) :=
  match ops with
  | [] => mret []
  | op :: ops => r ← exec fuel op; l ← exec_all fuel ops; mret (r :: l)
  end.

(** The list of threads with their priorities *)
Definition list_op (op : pq_op) Q : pq_ret * list (A * Z) :=
  match op with
  | OpInsert prio t => (RUnit, prio_insert prio t Q)
  | OpQinsert prio t => (RUnit, prio_Qinsert prio t Q)
  | OpDelmax => (RThread (head Q.*1), tail Q)
  | OpDelete t => (RUnit, remove t Q)
  | OpFavorite t => (RBool true, prio_favorite t Q)
  | OpIncrease => (RUnit, prod_map id (Z.add 1) <$> Q)
  | OpContains t => (RBool (bool_decide (t ∈ Q.*1)), Q)
  | OpElements => (RNum (Z.of_nat (length Q)), Q)
  end.
Fixpoint list_ops (ops : list pq_op) Q : list pq_ret * list (A * Z) :=
  match ops with
  | [] => ([], Q)
  | op :: ops => let '(r, Q) := list_op op Q in let '(l, Q) := list_ops ops Q in (r :: l, Q)
  end.

(** Only threads that are not in the queue are inserted, fewer than [2 ^ 31] of
    them; only members leave; and the priorities that result are ints. *)
Definition op_ok (T : list A) (op : pq_op) Q : Prop :=
  match op with
  | OpInsert prio t | OpQinsert prio t => t ∈ T /\ t ∉ Q.*1 /\ in_int prio /\ room Q
  | OpDelete t => t ∈ Q.*1
  | OpFavorite t => t ∈ T /\ t ∈ Q.*1 /\ Forall (fun y => in_int y.2) (prio_favorite t Q)
  | OpIncrease => Forall (fun y => in_int (1 + y.2)) Q
  | OpDelmax | OpContains _ | OpElements => True
  end.
Fixpoint ops_ok (T : list A) (ops : list pq_op) Q : Prop :=
  match ops with [] => True | op :: ops => op_ok T op Q /\ ops_ok T ops (list_op op Q).2 end.

Lemma length_prio_insert prio t Q : length (prio_insert prio t Q) = S (length Q).
Proof. induction Q as [|[c p] Q IH]; cbn; [done|]. case_bool_decide; cbn; by rewrite ?IH. Qed.

Lemma list_op_length op Q : (length (list_op op Q).2 <= S (length Q))%nat.
Proof.
  destruct op; cbn [list_op snd]; rewrite ?length_prio_insert, ?length_fmap; try lia.
  - unfold prio_Qinsert. destruct Q as [|[a p] Q]; [done|]. case_bool_decide; rewrite ?length_prio_insert, ?length_app; cbn; lia.
  - destruct Q; cbn; lia.
  - unfold remove. pose proof (length_filter (fun y : A * Z => y.1 <> t) Q). lia.
  - unfold prio_favorite. pose proof (length_filter (fun y : A * Z => y.1 <> t) Q). unfold remove. destruct (filter _ Q) as [|[] ?] in *; cbn in *; lia.
Qed.

Lemma exec_spec fuel T op s Q : (forall t, t ∈ T -> mapped s t) -> holds s Q -> op_ok T op Q -> (length Q < fuel)%nat ->
  exists s', exec fuel op s = Ok ((list_op op Q).1, s') /\ holds s' (list_op op Q).2 /\ same_threads s s'.
Proof.
  intros Hm Hs Hok Hf. destruct op; cbn [exec list_op op_ok fst snd] in *.
  - destruct Hok as (? & ? & ? & ?). destruct (pth_pqueue_insert_spec fuel prio t s Q) as (s' & E & ?); [auto..|lia|]. rewrite (bind_run _ _ _ _ _ E). by eexists.
  - destruct Hok as (? & ? & ? & ?). destruct (pth_pqueue_Qinsert_spec fuel prio t s Q) as (s' & E & ?); [auto..|lia|]. rewrite (bind_run _ _ _ _ _ E). by eexists.
  - destruct (pth_pqueue_delmax_spec s Q Hs) as (s' & E & ?). rewrite (bind_run _ _ _ _ _ E). by eexists.
  - destruct (pth_pqueue_delete_spec s Q t Hs Hok) as (s' & E & ?). rewrite (bind_run _ _ _ _ _ E). by eexists.
  - destruct Hok as (? & ? & ?). destruct (pth_pqueue_favorite_spec fuel s Q t) as (s' & E & ?); [auto..|lia|]. rewrite (bind_run _ _ _ _ _ E). by eexists.
  - destruct (pth_pqueue_increase_spec s Q Hok Hs) as (s' & E & ?). rewrite (bind_run _ _ _ _ _ E). by eexists.
  - rewrite (bind_run _ _ _ _ _ (pth_pqueue_contains_spec s Q t fuel Hs Hf)). by eexists.
  - unfold pth_pqueue_elements. cbn. unfold mbind, M_bind. cbn. rewrite (proj1 (proj1 Hs)). by eexists.
Qed.

Lemma exec_all_spec fuel T ops s Q : (forall t, t ∈ T -> mapped s t) -> holds s Q -> ops_ok T ops Q -> (length Q + length ops < fuel)%nat ->
  exists s', exec_all fuel ops s = Ok ((list_ops ops Q).1, s') /\ holds s' (list_ops ops Q).2.
Proof.
  revert s Q. induction ops as [|op ops IH]; intros s Q Hm Hs; cbn [exec_all ops_ok list_ops length]; [by eexists|]. intros [Hop Hops] Hf.
  destruct (exec_spec fuel T op s Q Hm Hs Hop ltac:(lia)) as (s1 & E1 & Hs1 & Hst). rewrite (bind_run _ _ _ _ _ E1).
  pose proof (list_op_length op Q). destruct (list_op op Q) as [r Q1]; cbn [fst snd] in *.
  destruct (IH s1 Q1) as (s2 & E2 & Hs2); [|done..|lia|]. { intros t Ht. by apply Hst, Hm. }
  rewrite (bind_run _ _ _ _ _ E2). destruct (list_ops ops Q1); cbn in *. by eexists.
Qed.
End pth_pqueue.

Arguments OpInsert {A}. Arguments OpQinsert {A}. Arguments OpDelmax {A}. Arguments OpDelete {A}. Arguments OpFavorite {A}.
Arguments OpIncrease {A}. Arguments OpContains {A}. Arguments OpElements {A}. Arguments RUnit {A}. Arguments RThread {A}.

(** C20: The ring with differences refines the list of threads with priorities: from
    [pth_pqueue_init] on, any sequence of operations gives the results the list
    gives, as long as only threads that are not in the queue are inserted, fewer
    than [2 ^ 31], only members leave it or are favored, and every priority that an
    operation asks for or that results from raising or favoring is an int of 32
    bits.  The differences may leave that range: they wrap around and still give
    the priorities.  A budget of one step more than there are operations is enough
    for every loop. *)
Theorem pth_pqueue_refines {A} `{Countable A} (PRIO_MAX : Z) (T : list A) (ops : list pq_op) (s : pth_pqueue_st) :
  (forall t, t ∈ T -> mapped s t) -> ops_ok T ops [] ->
  exists s', (pth_pqueue_init true;; exec_all PRIO_MAX (S (length ops)) ops) s = Ok ((list_ops ops []).1, s') /\ holds s' (list_ops ops []).2.
Proof.
  intros Hm Hok. set (s0 := set_q_num 0 (set_q_head None s)). rewrite (bind_run _ _ _ tt s0 eq_refl). by apply (exec_all_spec PRIO_MAX _ T); [..|cbn; lia].
Qed.

(** ** Order *)

Section order.
Context {A : Type} `{Countable A}.
Implicit Types (Q : list (A * Z)) (t : A).

Definition descending Q : Prop := StronglySorted (fun x y => y.2 <= x.2) Q.

Lemma Forall_prio_insert (R : A * Z -> Prop) prio t Q : R (t, prio) -> Forall R Q -> Forall R (prio_insert prio t Q).
Proof. intros Ht HQ. induction HQ as [|[c p] Q Hc HQ IH]; cbn; [by constructor|]. case_bool_decide; by repeat constructor. Qed.

Lemma prio_insert_descending prio t Q : descending Q -> descending (prio_insert prio t Q).
Proof.
  intros HQ. induction HQ as [|[c p] Q HQ IH Hc]; cbn; [repeat constructor|]. case_bool_decide as Hp.
  - repeat constructor; auto; cbn; [lia|]. eapply Forall_impl; [exact Hc|]. cbn. intros y Hy. lia.
  - constructor; [done|]. apply Forall_prio_insert; [cbn; lia|done].
Qed.

Lemma remove_descending t Q : descending Q -> descending (remove t Q).
Proof.
  unfold remove. intros HQ. induction HQ as [|[c p] Q HQ IH Hc]; [constructor|]. destruct (decide (c = t)) as [->|].
  - by rewrite filter_cons_False by (cbn; tauto).
  - rewrite filter_cons_True by done. constructor; [done|]. apply Forall_forall. intros y [_ Hy]%list_elem_of_filter. by eapply Forall_forall in Hc.
Qed.

Lemma list_op_descending (op : pq_op) Q : (forall prio t, op <> OpQinsert prio t) -> descending Q -> descending (list_op op Q).2.
Proof.
  intros Hop HQ. destruct op; cbn [list_op snd]; auto.
  - by apply prio_insert_descending.
  - by edestruct Hop.
  - destruct HQ; [constructor|done].
  - by apply remove_descending.
  - unfold prio_favorite. pose proof (remove_descending t Q HQ) as Hr. destruct (remove t Q) as [|[a p] R]; [done|]. constructor; [done|].
    apply StronglySorted_inv in Hr as [_ Hr]. constructor; [cbn; lia|]. eapply Forall_impl; [exact Hr|]. cbn. intros y Hy. lia.
  - clear Hop. induction HQ as [|[c p] Q HQ IH Hc]; [constructor|]. constructor; [done|]. apply Forall_fmap. eapply Forall_impl; [exact Hc|].
    intros [d x]; cbn -[Z.add]. lia.
Qed.

(** As long as [pth_pqueue_Qinsert] is not used, [pth_pqueue_delmax] takes a thread
    of the highest priority. *)
Theorem delmax_highest (ops : list pq_op) : Forall (fun op => forall prio t, op <> OpQinsert prio t) ops ->
  match (list_ops ops []).2 with [] => True | (_, p) :: Q => Forall (fun x => x.2 <= p) Q end.
Proof.
  intros Hops. assert (forall Q, descending Q -> descending (list_ops ops Q).2) as Hd.
  { induction Hops as [|op ops Hop _ IH]; intros Q HQ; cbn; [done|]. pose proof (list_op_descending op Q Hop HQ) as H1. destruct (list_op op Q) as [r Q1]; cbn in H1.
    pose proof (IH Q1 H1) as H2. by destruct (list_ops ops Q1). }
  specialize (Hd [] ltac:(constructor)). destruct (list_ops ops []).2 as [|[c p] Q]; [done|]. by apply StronglySorted_inv in Hd as [_ Hd].
Qed.
End order.

(** Three threads in memory *)
Definition threads_demo : @pth_pqueue_st nat _ _ :=
  OQueue None 0 {[1%nat := Link None None; 2%nat := Link None None; 3%nat := Link None None]} {[1%nat := 0; 2%nat := 0; 3%nat := 0]}.

(** A thread put at the end with priority 0 stands before one of priority 3 that
    comes after it, since it has become one of priority 5. *)
Theorem Qinsert_before_higher : exists s',
  (pth_pqueue_init true;; exec_all 5 6 [OpInsert 5 1%nat; OpQinsert 0 2%nat; OpInsert 3 3%nat; OpDelmax; OpDelmax]) threads_demo =
    Ok ([RUnit; RUnit; RUnit; RThread (Some 1%nat); RThread (Some 2%nat)], s').
Proof. eexists. vm_compute. reflexivity. Qed.

(** C0 at a sequence of operations on these threads; the difference between the
    first two priorities is not an int. *)
Lemma pth_pqueue_refines_witness :
  let ops := [OpInsert 2000000000 1%nat; OpInsert (-2000000000) 2%nat; OpInsert 4 3%nat; OpFavorite 3%nat; OpIncrease; OpDelete 1%nat; OpContains 1%nat; OpDelmax] in
  exists s', (pth_pqueue_init true;; exec_all 5 (S (length ops)) ops) threads_demo =
      Ok ([RUnit; RUnit; RUnit; RBool true; RUnit; RUnit; RBool false; RThread (Some 3%nat)], s') /\ holds s' [(2%nat, -1999999999)].
Proof.
  refine (pth_pqueue_refines 5 [1%nat; 2%nat; 3%nat]
    [OpInsert 2000000000 1%nat; OpInsert (-2000000000) 2%nat; OpInsert 4 3%nat; OpFavorite 3%nat; OpIncrease; OpDelete 1%nat; OpContains 1%nat; OpDelmax] threads_demo _ _).
  - intros t Ht. repeat (apply elem_of_cons in Ht as [->|Ht]; [split; eexists; reflexivity|]). by apply elem_of_nil in Ht.
  - cbn -[in_int room Z.add]. unfold room, in_int. split_and!; try done; try set_solver; repeat constructor; cbn; lia.
Defined.
