(* ===== verification/ClockFreq.v ===== *)
(** * The frequency of the processor (get_clockfreq.c of sysdeps/i386)

    pth_time.c turns cycles into time with the number it finds in /proc/cpuinfo.
    The file is a list of bytes; [ia64] differs only in the words that are looked
    for. *)

From S2P Require Import Prelude.

Definition is_digit (b : Z) : bool := bool_decide (48 <= b) && bool_decide (b <= 57).

(** [memmem]: the bytes from the first occurrence of [needle] on *)
Fixpoint memmem (needle l : list Z) : option (list Z) :=
  if bool_decide (take (length needle) l = needle) then Some l
  else match l with [] => None | _ :: l => memmem needle l end.

(** "Search for the beginning of the string." *)
Fixpoint skip_to_digit (l : list Z) : list Z :=
  match l with
  | b :: l' => if negb (is_digit b) && negb (bool_decide (b = 10)) then skip_to_digit l' else l
  | [] => []
  end.

(** The digits up to the end of the line: the number, and the digits behind the
    point *)
Fixpoint read_digits (l : list Z) (result : Z) (seen_decpoint : bool) (ndigits : nat) : Z * nat :=
  match l with
  | [] => (result, ndigits)
  | b :: l =>
      if bool_decide (b = 10) then (result, ndigits)
      else if is_digit b then
        read_digits l (wrap 64 (wrap 64 (result * 10) + (b - 48))) seen_decpoint (if seen_decpoint then S ndigits else ndigits)
      else read_digits l result (seen_decpoint || bool_decide (b = 46)) ndigits
  end.

(** "Compensate for missing digits at the end." *)
Fixpoint compensate (missing : nat) (result : Z) : Z :=
  match missing with O => result | S missing => compensate missing (wrap 64 (result * 10)) end.

(** [cached]: what an earlier call found; [file]: the bytes, [None] if the file cannot
    be opened.  One [read] takes all bytes up to 4096. *)
Definition __get_clockfreq (needle : list Z) (cached : Z) (file : option (list Z)) : Z :=
  if bool_decide (cached <> 0) then cached
  else
    match file with
    | None => cached
    | Some bytes =>
        let buf := take 4096 bytes in
        if bool_decide (Z.of_nat (length buf) > 0) then
          match memmem needle buf with
          | None => cached
          | Some mhz => let '(result, ndigits) := read_digits (skip_to_digit mhz) cached false 0 in compensate (6 - ndigits) result
          end
        else cached
    end.

(** "cpu MHz" and "itc MHz" *)
Definition cpu_MHz : list Z := [99; 112; 117; 32; 77; 72; 122].
Definition itc_MHz : list Z := [105; 116; 99; 32; 77; 72; 122].

(** ** The number in the line *)

(** The value of decimal digits *)
Definition decimal (ds : list Z) : Z := fold_left (fun v d => v * 10 + d) ds 0.
Definition digit_ok (d : Z) : Prop := 0 <= d <= 9.
Definition ascii_digit (d : Z) : Z := d + 48.

Lemma decimal_app ds es : decimal (ds ++ es) = decimal ds * 10 ^ Z.of_nat (length es) + decimal es.
Proof.
  unfold decimal. rewrite fold_left_app. generalize (fold_left (fun v d => v * 10 + d) ds 0) as v. induction es as [|e es IH] using rev_ind; intros v; [cbn; lia|].
  rewrite !fold_left_app, IH, length_app. cbn [fold_left length]. rewrite Nat2Z.inj_add, Z.pow_add_r by lia. cbn. lia.
Qed.

Lemma decimal_nonneg ds : Forall digit_ok ds -> 0 <= decimal ds.
Proof.
  induction ds as [|d ds IH] using rev_ind; [done|]. rewrite Forall_app, decimal_app. intros [H1 [H2 _]%Forall_cons]. specialize (IH H1).
  unfold digit_ok in H2. unfold decimal at 2. cbn. lia.
Qed.

Lemma is_digit_ascii d : digit_ok d -> is_digit (ascii_digit d) = true.
Proof. unfold digit_ok, is_digit, ascii_digit. intros. by rewrite !bool_decide_eq_true_2 by lia. Qed.

(** The digits of a number that fits are read as that number. *)
Lemma read_digits_number ds l before seen n : Forall digit_ok ds -> Forall digit_ok before -> decimal (before ++ ds) < 2 ^ 64 ->
  read_digits ((ascii_digit <$> ds) ++ l) (decimal before) seen n =
  read_digits l (decimal (before ++ ds)) seen (if seen then length ds + n else n)%nat.
Proof.
  intros Hds. revert before n. induction Hds as [|d ds Hd Hds IH]; intros before n Hb Hlt; [rewrite app_nil_r; by destruct seen|].
  cbn [fmap list_fmap app read_digits]. rewrite is_digit_ascii, bool_decide_eq_false_2 by (unfold digit_ok, ascii_digit in *; lia || done).
  assert (decimal (before ++ [d]) = decimal before * 10 + d) as E by (unfold decimal; by rewrite fold_left_app).
  assert (0 <= decimal before) as Hb0 by by apply decimal_nonneg.
  assert (decimal (before ++ [d]) < 2 ^ 64) as Hlt1.
  { replace (before ++ d :: ds) with ((before ++ [d]) ++ ds) in Hlt by by rewrite <- app_assoc. rewrite decimal_app in Hlt. pose proof (decimal_nonneg ds Hds).
    pose proof (Z.pow_pos_nonneg 10 (Z.of_nat (length ds)) ltac:(lia) ltac:(lia)). rewrite E in Hlt |- *. unfold digit_ok in Hd. nia. }
  unfold digit_ok in Hd. unfold ascii_digit. rewrite !wrap_small by (rewrite ?wrap_small by lia; lia). replace (d + 48 - 48) with d by lia. rewrite <- E.
  rewrite IH; [|apply Forall_app; split; [done|apply Forall_singleton; exact Hd]|by rewrite <- app_assoc]. rewrite <- app_assoc. cbn [app length]. f_equal. destruct seen; lia.
Qed.

Lemma compensate_spec k v : 0 <= v -> v * 10 ^ Z.of_nat k < 2 ^ 64 -> compensate k v = v * 10 ^ Z.of_nat k.
Proof.
  revert v. induction k as [|k IH]; intros v Hv; cbn [compensate]; [cbn; lia|]. rewrite Nat2Z.inj_succ, Z.pow_succ_r by lia. intros Hlt.
  pose proof (Z.pow_pos_nonneg 10 (Z.of_nat k) ltac:(lia) ltac:(lia)). rewrite wrap_small by nia. rewrite IH by nia. lia.
Qed.

Lemma memmem_first needle pre l : take (length needle) l = needle ->
  (forall k, (k < length pre)%nat -> take (length needle) (drop k (pre ++ l)) <> needle) -> memmem needle (pre ++ l) = Some l.
Proof.
  intros Hl. induction pre as [|b pre IH]; intros Hpre; cbn [app].
  - destruct l; cbn [memmem]; by rewrite (bool_decide_eq_true_2 _ Hl).
  - cbn [memmem]. rewrite bool_decide_eq_false_2 by (apply (Hpre 0%nat); cbn; lia). apply IH. intros k Hk. apply (Hpre (S k)). cbn. lia.
Qed.

Lemma skip_to_digit_skips sep l : Forall (fun b => is_digit b = false /\ b <> 10) sep -> skip_to_digit (sep ++ l) = skip_to_digit l.
Proof. induction 1 as [|b sep [Hb Hn] _ IH]; [done|]. cbn [app skip_to_digit]. by rewrite Hb, bool_decide_eq_false_2. Qed.

(** The number of the first line with the words is the frequency in Hz: its digits
    before the point count millions, and up to six digits behind the point are
    taken as they are, missing ones as zeros. *)
Theorem clockfreq_reads needle pre sep ds fs post : let line := needle ++ sep ++ (ascii_digit <$> ds) ++ [46] ++ (ascii_digit <$> fs) ++ [10] in
  (length (pre ++ line) <= 4096)%nat -> (forall k, (k < length pre)%nat -> take (length needle) (drop k (take 4096 (pre ++ line ++ post))) <> needle) ->
  Forall (fun b => is_digit b = false /\ b <> 10) (needle ++ sep) -> ds <> [] -> Forall digit_ok (ds ++ fs) -> (length fs <= 6)%nat ->
  decimal (ds ++ fs) * 10 ^ (6 - Z.of_nat (length fs)) < 2 ^ 64 ->
  __get_clockfreq needle 0 (Some (pre ++ line ++ post)) = decimal (ds ++ fs) * 10 ^ (6 - Z.of_nat (length fs)).
Proof.
  intros line Hlen Hfirst Hsep Hne [Hds Hfs]%Forall_app Hf6 Hlt. unfold __get_clockfreq. rewrite bool_decide_eq_false_2 by lia.
  rewrite (app_assoc pre line post), take_app_ge in * by done. rewrite <- app_assoc in *. set (post' := take _ post) in *.
  rewrite bool_decide_eq_true_2.
  2:{ unfold line. destruct ds; [done|]. rewrite !length_app. cbn. lia. }
  rewrite memmem_first; [|unfold line; rewrite <- app_assoc; by apply take_app_length|done].
  unfold line. rewrite <- !app_assoc, (app_assoc needle), skip_to_digit_skips by done.
  assert (skip_to_digit ((ascii_digit <$> ds) ++ [46] ++ (ascii_digit <$> fs) ++ [10] ++ post') = (ascii_digit <$> ds) ++ [46] ++ (ascii_digit <$> fs) ++ [10] ++ post') as ->.
  { destruct ds as [|d ds]; [done|]. apply Forall_cons in Hds as [Hd _]. cbn [fmap list_fmap app skip_to_digit]. by rewrite (is_digit_ascii d Hd). }
  assert (0 <= decimal (ds ++ fs)) as H0 by by apply decimal_nonneg, Forall_app.
  pose proof (Z.pow_pos_nonneg 10 (6 - Z.of_nat (length fs)) ltac:(lia) ltac:(lia)) as Hp.
  assert (decimal (ds ++ fs) < 2 ^ 64) as Hv by nia.
  assert (decimal ds < 2 ^ 64) as Hv1.
  { rewrite decimal_app in Hv. pose proof (decimal_nonneg _ Hfs). pose proof (decimal_nonneg _ Hds). pose proof (Z.pow_pos_nonneg 10 (Z.of_nat (length fs)) ltac:(lia) ltac:(lia)). nia. }
  rewrite (read_digits_number ds _ [] false 0 Hds (Forall_nil_2 _) Hv1). cbn [app]. change (read_digits (46 :: ?l) ?r false ?n) with (read_digits l r true n).
  rewrite (read_digits_number fs _ ds true 0 Hfs Hds Hv). cbn [read_digits]. rewrite bool_decide_eq_true_2 by done.
  replace (10 ^ (6 - Z.of_nat (length fs))) with (10 ^ Z.of_nat (6 - (length fs + 0))) in * by (f_equal; lia). by apply compensate_spec.
Qed.

(** A seventh digit makes the frequency ten times as high. *)
Theorem clockfreq_seven_digits :
  __get_clockfreq cpu_MHz 0 (Some (cpu_MHz ++ [9; 58; 32; 52; 57; 55; 46; 56; 52; 48; 50; 51; 55; 49; 10])) = 4978402371.
Proof. reflexivity. Qed.

(** The line of the comment: 497.840237 MHz *)
Example clockfreq_comment :
  __get_clockfreq cpu_MHz 0 (Some (cpu_MHz ++ [9; 9; 58; 32; 52; 57; 55; 46; 56; 52; 48; 50; 51; 55; 10])) = 497840237.
Proof. reflexivity. Qed.
